(* ===== verification/_CoqProject ===== *)
-Q . S2P
Prelude.v
ByteOrder.v
CString.v
Hex.v
MeshDefs.v
Cdb.v
NetBuf.v
Access.v
Distance.v
NodeTable.v
Board.v
AppCommon.v
Beacon.v
BeaconProps.v
Provisioner.v
ProvisionerProps.v
Rpl.v
Ccm.v
MeshCrypto.v
Subnet.v
AppKeys.v
Net.v
NetProps.v
NetRecv.v
Transport.v
TransportProps.v
TransportSafe.v
TransportRecv.v
TransportOps.v
Retransmit.v
Segments.v
Reassembly.v
Delivery.v
Mesh.v
Heartbeat.v
HeartbeatProps.v
SecureBeacon.v
BeaconSync.v
Cfg.v
CfgModels.v
Main.v
CfgSrv.v
CfgBind.v
CfgSafe.v
CfgNode.v
Ecc.v
Prov.v
ProvDevice.v
MeshProvisioner.v
ProvLink.v
ProvProps.v
ProvAgree.v
PbAdv.v
PbAdvProps.v
