(* ===== verification/Prelude.v ===== *)
(** * Verification of the mesh network project

    The program is a sensor network of reel boards on Bluetooth Mesh.  A provisioner
    ([Project/Provisioner]) finds beacons ([Project/Beacon]), provisions them, gives
    them their keys and the list of nodes known so far, and keeps a table of who hears
    whom at what distance.  Beacons broadcast their sensor values, measure the signal
    strength of the others, and answer with text messages whose first letter is a code.
    Below the applications lies the mesh stack of [zephyr/subsys/bluetooth/mesh]: the
    access layer dispatches messages to models, the transport layer encrypts and
    segments them, the network layer encrypts, relays and filters packets, and the key,
    subnet, replay and configuration tables serve all of them.  Beside them, beacons
    and heartbeats keep the nodes of a network together, and the provisioning protocol,
    over a bearer of its own, brings a new node into it.  (Paths are relative to
    [src/zephyrproject/zephyr].)

    ** Conventions

    - Integers are [Z] with the wrap-around of their width written out ([u8] ... [u64],
      [i8]); byte strings are [list Z]; a pointer into a static array is its index.
    - Stateful code is a function of the monad [ST S A := S -> option (A * S)], where
      [None] is undefined behaviour of C: an access outside an array, a null pointer,
      a failed assertion.  So "returns [Some]" is absence of undefined behaviour.
    - [int] results are [ret_code := option errno], [None] for 0.
    - A call of a module that is not modelled and returns nothing of interest (printing,
      a request to store settings, the advertiser, callbacks of the application) is an
      event appended to a log in the state, so that theorems can speak about it.
    - Every handler, work item and timer is one atomic step: the code runs in the
      cooperative threads of the Bluetooth stack.
    - [wp] is the weakest precondition of the monad; [wp_step] and [wp_if] run it.

    ** Files

    Foundations.
    - [Prelude]: integers, lists, the monad, record update ([r <| f := v |>], [zoom]),
      loops, weakest preconditions, the hint database.
    - [ByteOrder] ([include/sys/byteorder.h]), [Hex] ([lib/os/hex.c], [lib/os/dec.c]),
      [CString] (the C library: [strtok], [atoi], [snprintf], ...), [NetBuf]
      ([struct net_buf_simple], refined to byte strings with head and tail room),
      [MeshDefs] (addresses, key indexes, flags).

    The applications.
    - [Distance], [NodeTable], [Board], [AppCommon]: distance estimate, neighbour
      table, display, LEDs and sensor, and the code that both applications share.
    - [Beacon], [BeaconProps]: [Project/Beacon/src/mesh.c] and [reel_board.c].
    - [Provisioner], [ProvisionerProps]: [Project/Provisioner/src].

    The stack.
    - [Cdb]: configuration database of the provisioner ([cdb.c]).
    - [Access]: composition, opcodes, dispatch, sending, publication ([access.c]).
    - [Rpl]: replay protection list ([rpl.c] and its storage).
    - [Ccm], [MeshCrypto]: AES-CCM ([aes_ccm.c]) and [crypto.c].
    - [Subnet], [AppKeys]: network and application keys with key refresh ([subnet.c],
      [app_keys.c]) and their storage.
    - [Net]: the network layer ([net.c]), with [NetProps] (nonces, IV update, round
      trip, relaying) and [NetRecv] (arbitrary packets).
    - [Transport]: the transport layer ([transport.c]) over [Net] and [AppKeys], with
      [TransportProps] (invariant of the contexts, sending), [TransportSafe] (the whole
      invariant, [bt_mesh_trans_send]), [TransportRecv] (receiving), [TransportOps]
      (runs of all operations), [Retransmit] and [Segments] (retransmission and its
      limits), [Reassembly] and [Delivery] (a message reaches the other node).
    - [Mesh]: the state above the transport layer, as the parameter [F] of its state;
      [Heartbeat], [HeartbeatProps] ([heartbeat.c]); [SecureBeacon], [BeaconSync]
      ([beacon.c]); [Cfg] ([cfg.c]); [Main] ([main.c]).
    - [CfgModels], [CfgSrv]: the Configuration Server ([cfg_srv.c]): what it does to the
      models when keys are deleted and at a reset, and all its message handlers; with
      [CfgBind] (bindings and the key table), [CfgSafe] (sequences of messages) and
      [CfgNode] (a node configured by the provisioner application).

    Provisioning.
    - [Ecc]: key pairs and Diffie-Hellman keys of the host ([host/hci_core.c]).
    - [Prov]: what both roles share ([prov.c]), over the interface [ProvBearer];
      [ProvDevice] ([prov_device.c]) and [MeshProvisioner] ([provisioner.c]).
    - [ProvLink]: the roles put together, the operations of a node, the laws of a bearer
      ([BearerOk]) and a bearer without loss as their instance.
    - [ProvProps]: one node ([bt_mesh_provision], authentication of the device, key
      generation); [ProvAgree]: a session of a provisioner and a device.
    - [PbAdv], [PbAdvProps]: the advertising bearer ([pb_adv.c]), another [ProvBearer].
      What it needs from the layer above is the class [AdvClient], which the device role
      discharges ([PbAdvProps.device_client]).

    A component's state is a record with the names of the C structure and a prefix; an
    operation has the name of its C function.  A loop that cannot be a structural
    recursion over an array is a function of its own, named after the function it
    belongs to.

    ** What the theorems show

    - Safety: on a node that is nobody's Friend, sends within the six segments, received
      packets of up to 29 bytes, timers and resets, in any order, do not make the
      transport and network layers misbehave, lose a segment block or leave their
      invariant ([TransportOps.trans_safe]; the limits are not checked by the code, and
      theorems listed below under defects show what happens beyond them); well-formed
      traffic never makes a beacon with a free slot in its table misbehave
      ([BeaconProps.beacon_safe]); the Configuration Server handles every sequence of
      messages except three kinds, and leaves no model bound to a key that is not there
      ([CfgSafe.cfg_srv_safe]); a device of the provisioning protocol
      handles every PDU, and joins a network only with data encrypted under keys whose
      owner has proved to know its authentication value
      ([ProvProps.device_authenticates]).
    - Protocol: encoding and decoding of packets, messages, opcodes and application
      texts are inverse; relaying forwards a packet of the relay's current key; the first
      sequence number of a segmented message is recovered from any of its segments, and a
      message of up to three segments is handed to the access layer of the other node
      ([Delivery.message_delivered]); the provisioner configures a new node, whose server
      carries the requests out ([CfgNode.provisioner_configures]), and both applications
      agree on its name ([ProvisionerProps.handshake]).
    - Provisioning: however the events of both sides interleave, a session over a bearer
      without loss ends, with the same keys and address on both sides
      ([ProvAgree.provisioning_agreement]); over the advertising bearer a PDU is given
      to the other side exactly once, in whatever order and however often its packets
      arrive ([PbAdvProps.pb_adv_delivers]).
    - Beacons: only an authenticated beacon changes the IV index or a key, and a node
      follows the IV update and the key refresh of the nodes it hears ([BeaconSync]).
    - Security: no two packets share a network nonce; between IV updates neither an
      unsegmented message nor the segment that completes a message is accepted twice; key
      refresh never uses an invalid key, and two nodes at different stages of it agree on
      the keys as long as the sender is not ahead of the keys the receiver has; the CCM
      code computes CCM.
    - Progress: IV update, retransmission, provisioning and LED blinking come to an end.
    - Tables: addresses in the database are disjoint, the address proposed is the
      lowest free one, key tables are consistent.
    - Defects: the theorems named after one ([..._undefined], [rpl_hole_replay],
      [message_nonce_reused], [key_event_never_ends], ...) give a run of the code from a
      reachable or well-formed state that ends in undefined behaviour or contradicts
      what the code means to do.

    ** Parameters and their assumptions

    The AES engine ([Ecb], [EcbOk]: it maps blocks to blocks), the CMAC of TinyCrypt
    ([Cmac], [CmacOk]: a tag of 16 bytes), whether a
    GATT proxy client takes a packet ([proxy_relay]), whether an advertising buffer is
    free ([adv_buffer]), the friend queue ([FriendOps]; [FriendIdle] states what
    [friend.c] does for a node that is nobody's friend), the access layer and
    heartbeats above the transport layer (assumed to keep its invariant), the random
    numbers ([pe_rand]) and the answers of the controller ([pe_hci]).  Agreement assumes
    that the two sides of Diffie-Hellman compute the same key and draw different random
    numbers.  Each theorem
    that uses an assumption has a witness with concrete functions.  The builds differ
    in [config_proxy], [config_friend] and [config_cdb], which are arguments; array
    sizes that matter are those of [Beacon/prj.conf] and the defaults of [Kconfig].

    ** Fuel

    [CString.digits] has more digits of fuel than any 32-bit number;
    [Hex.u8_to_dec_loop] needs three rounds and has four; [Ccm.aad_loop] has the length
    of its input; [Transport.send_seg_loop] takes a byte per round and has one more
    than the message has bytes; [Net.bt_mesh_net_local] empties at most the given
    number of loopback buffers in one run of the work item, and theorems hold for every
    number; [Ecc.pkey_loop] calls at most the given number of callbacks and tells
    whether it has come to the end of the list.  Theorems that state a result show that
    the fuel suffices.

    ** Not modelled

    - [pb_gatt.c], [proxy.c], the advertiser and everything below it: connections and
      radio I/O.  The bearer of the session theorem is one without loss; the one over
      advertising is related to it PDU by PDU, not as a whole session.
    - The applications see an attempt of the provisioner as one step ([Provisioner]).
    - [lpn.c], [shell.c], [test.c]: not compiled into the applications.
    - The friend queue ([friend.c]), which is a parameter of the transport layer.
    - The Configuration Client except the two messages the provisioner application sends,
      the health models, and the remaining handlers of [settings.c].
    - Drivers, kernel, host and controller: unmodified Zephyr.

    This file holds what all others share. *)

From Stdlib Require Export ZArith Lia.
From stdpp Require Export base numbers list list_numbers option decidable tactics.

#[global] Open Scope Z_scope.
Set Default Goal Selector "!".

(** ** Automation shared by the components *)

Create HintDb mesh.
Create Rewrite HintDb wrap.

(** Turn boolean comparisons of the source into propositions. *)
Ltac zbool :=
  repeat match goal with
  | H : (_ && _)%bool = true |- _ => apply andb_true_iff in H as [? ?]
  | H : (_ || _)%bool = false |- _ => apply orb_false_iff in H as [? ?]
  | H : negb _ = true |- _ => apply negb_true_iff in H
  | H : negb _ = false |- _ => apply negb_false_iff in H
  | H : (_ =? _) = true |- _ => apply Z.eqb_eq in H
  | H : (_ =? _) = false |- _ => apply Z.eqb_neq in H
  | H : (_ <? _) = true |- _ => apply Z.ltb_lt in H
  | H : (_ <? _) = false |- _ => apply Z.ltb_ge in H
  | H : (_ <=? _) = true |- _ => apply Z.leb_le in H
  | H : (_ <=? _) = false |- _ => apply Z.leb_gt in H
  end.

(** Case analysis on the innermost conditional or match of the goal. *)
Ltac case_if :=
  match goal with
  | |- context [if ?b then _ else _] =>
      lazymatch b with context [if _ then _ else _] => fail | _ => idtac end;
      let E := fresh "E" in destruct b eqn:E
  end.

Ltac destruct_opt_in H :=
  match type of H with
  | context [match ?x with Some _ => _ | None => _ end] =>
      let E := fresh "E" in destruct x eqn:E; [| try discriminate H]
  end.

(** ** Machine integers: a w-bit unsigned value is a [Z] in [0, 2^w) *)

Definition u8 (z : Z) : Z := z mod 2 ^ 8.
Definition u16 (z : Z) : Z := z mod 2 ^ 16.
Definition u32 (z : Z) : Z := z mod 2 ^ 32.
Definition u64 (z : Z) : Z := z mod 2 ^ 64.
(** Two's-complement reading of the low eight bits. *)
Definition i8 (z : Z) : Z := (z + 2 ^ 7) mod 2 ^ 8 - 2 ^ 7.

Definition is_u8 (z : Z) : Prop := 0 <= z < 2 ^ 8.
Definition is_u16 (z : Z) : Prop := 0 <= z < 2 ^ 16.
Definition is_u32 (z : Z) : Prop := 0 <= z < 2 ^ 32.
Definition is_i8 (z : Z) : Prop := - 2 ^ 7 <= z < 2 ^ 7.

#[export] Instance is_u8_dec z : Decision (is_u8 z).
Proof. unfold is_u8; apply _. Defined.

#[export] Instance is_u16_dec z : Decision (is_u16 z).
Proof. unfold is_u16; apply _. Defined.

#[export] Instance is_u32_dec z : Decision (is_u32 z).
Proof. unfold is_u32; apply _. Defined.

#[export] Instance is_i8_dec z : Decision (is_i8 z).
Proof. unfold is_i8; apply _. Defined.

Lemma u8_range z : is_u8 (u8 z).
Proof. apply Z.mod_pos_bound; lia. Qed.

Lemma u16_range z : is_u16 (u16 z).
Proof. apply Z.mod_pos_bound; lia. Qed.

Lemma u32_range z : is_u32 (u32 z).
Proof. apply Z.mod_pos_bound; lia. Qed.

Lemma u8_id z : is_u8 z -> u8 z = z.
Proof. apply Z.mod_small. Qed.

Lemma u16_id z : is_u16 z -> u16 z = z.
Proof. apply Z.mod_small. Qed.

Lemma u32_id z : is_u32 z -> u32 z = z.
Proof. apply Z.mod_small. Qed.

Lemma i8_range z : is_i8 (i8 z).
Proof.
  unfold i8, is_i8. pose proof (Z.mod_pos_bound (z + 2 ^ 7) (2 ^ 8)). lia.
Qed.

Lemma i8_id z : is_i8 z -> i8 z = z.
Proof. unfold i8, is_i8; intros H. rewrite Z.mod_small; lia. Qed.

#[export] Hint Resolve u8_range u16_range u32_range i8_range : mesh.
#[export] Hint Rewrite u8_id u16_id u32_id i8_id using (first [assumption | lia]) : wrap.

(** ** Bytes and byte buffers *)

Abbreviation bytes := (list Z).

Definition wf_bytes (l : bytes) : Prop := Forall is_u8 l.

#[export] Instance wf_bytes_dec l : Decision (wf_bytes l).
Proof. unfold wf_bytes; apply _. Defined.

Lemma wf_bytes_nil : wf_bytes [].
Proof. constructor. Qed.

Lemma wf_bytes_cons b l : wf_bytes (b :: l) <-> is_u8 b /\ wf_bytes l.
Proof. apply Forall_cons_iff. Qed.

Lemma wf_bytes_app l1 l2 : wf_bytes (l1 ++ l2) <-> wf_bytes l1 /\ wf_bytes l2.
Proof. apply Forall_app. Qed.

Lemma wf_bytes_take n l : wf_bytes l -> wf_bytes (take n l).
Proof. apply Forall_take. Qed.

Lemma wf_bytes_drop n l : wf_bytes l -> wf_bytes (drop n l).
Proof. apply Forall_drop. Qed.

#[export] Hint Resolve wf_bytes_nil wf_bytes_take wf_bytes_drop : mesh.

(** ** Array scans: [for (i = 0; i < ARRAY_SIZE(l); i++) if (p (l[i])) return &l[i]] *)

(** Index of the first element satisfying a test. *)
Fixpoint find_index {A : Type} (p : A -> bool) (l : list A) : option nat :=
  match l with
  | [] => None
  | a :: l' => if p a then Some 0%nat else S <$> find_index p l'
  end.

Lemma find_index_Some {A : Type} (p : A -> bool) (l : list A) i :
  find_index p l = Some i <->
  (exists a, l !! i = Some a /\ p a = true) /\
  (forall j b, (j < i)%nat -> l !! j = Some b -> p b = false).
Proof.
  revert i. induction l as [|a l IH]; intros i; cbn [find_index].
  - split; [done|]. intros [(b & H & _) _]. done.
  - destruct (p a) eqn:E.
    + split.
      * intros [= <-]. split; [by exists a|]. intros j b Hj. lia.
      * intros [_ H]. destruct i as [|i]; [done|].
        specialize (H 0%nat a ltac:(lia) eq_refl). congruence.
    + split.
      * intros H. apply fmap_Some in H as (i' & H & ->). apply IH in H as [H1 H2].
        split; [exact H1|]. intros [|j] b Hj Hb; cbn in Hb; [congruence|].
        apply (H2 j b); [lia|done].
      * intros [(b & Hb & Hp) H2]. destruct i as [|i]; cbn in Hb; [congruence|].
        apply fmap_Some. exists i. split; [|done]. apply IH.
        split; [by exists b|]. intros j d Hj Hd. apply (H2 (S j) d); [lia|done].
Qed.

Lemma find_index_None {A : Type} (p : A -> bool) (l : list A) :
  find_index p l = None <-> Forall (fun a => p a = false) l.
Proof.
  induction l as [|a l IH]; cbn [find_index]; [by split; [constructor|]|].
  rewrite Forall_cons_iff, <- IH. destruct (p a) eqn:E.
  - split; [done|]. by intros [? _].
  - rewrite fmap_None. split; [by split|by intros [_ ?]].
Qed.

(** The loop that looks for the slot satisfying [p] and remembers the first one that
    satisfies [q] as a free one. *)
Fixpoint find_or_free {A : Type} (p q : A -> bool) (i : nat) (free : option nat) (l : list A) : option nat :=
  match l with
  | [] => free
  | a :: l =>
      if p a then Some i
      else find_or_free p q (S i) (match free with
                                   | None => if q a then Some i else None
                                   | Some _ => free
                                   end) l
  end.

Lemma find_or_free_spec {A : Type} (p q : A -> bool) i free (l : list A) :
  match find_or_free p q i free l with
  | Some k =>
      (free = Some k /\ Forall (fun a => p a = false) l) \/
      (exists x, (i <= k)%nat /\ l !! (k - i)%nat = Some x /\
         (p x = true \/ (q x = true /\ Forall (fun a => p a = false) l)))
  | None => free = None
  end.
Proof.
  revert i free. induction l as [|a l IH]; intros i free; cbn [find_or_free].
  { destruct free; [left; by split|done]. }
  destruct (p a) eqn:E.
  { right. exists a. rewrite Nat.sub_diag. split; [lia|]. split; [done|by left]. }
  specialize (IH (S i) (match free with None => if q a then Some i else None | Some _ => free end)).
  destruct (find_or_free p q (S i) _ l) as [k|].
  - destruct IH as [[Hs Hl]|(x & Hk & Hx & Hc)].
    + destruct free as [k'|]; [left; by split; [|constructor]|].
      destruct (q a) eqn:Eu; [|done]. injection Hs as <-.
      right. exists a. rewrite Nat.sub_diag. split; [lia|]. split; [done|]. right. split; [done|by constructor].
    + right. exists x. split; [lia|]. replace (k - i)%nat with (S (k - S i)) by lia. split; [done|].
      destruct Hc as [|[? ?]]; [by left|]. right. split; [done|by constructor].
  - destruct free; [done|]. by destruct (q a).
Qed.

(** A slot returned as free: none satisfies [p]. *)
Lemma find_or_free_new {A : Type} (p q : A -> bool) (l : list A) i x :
  find_or_free p q 0 None l = Some i -> l !! i = Some x -> p x = false ->
  q x = true /\ forall j b, l !! j = Some b -> p b = false.
Proof.
  intros Hf Hi Hp. pose proof (find_or_free_spec p q 0 None l) as H. rewrite Hf in H.
  destruct H as [[? _]|(y & _ & Hy & Hc)]; [done|]. rewrite Nat.sub_0_r in Hy. assert (y = x) as -> by congruence.
  destruct Hc as [|[Hu Hall]]; [congruence|]. split; [done|]. intros j b. by apply (Forall_lookup_1 _ _ _ _ Hall).
Qed.

Lemma Forall_elem {A : Type} (P : A -> Prop) (l : list A) x : Forall P l -> x ∈ l -> P x.
Proof. intros H Hx. apply list_elem_of_In in Hx. by apply (proj1 (List.Forall_forall P l)). Qed.

(** Number of elements satisfying a test: the measure of scans that rule out one
    element per round. *)
Fixpoint countb {A : Type} (p : A -> bool) (l : list A) : nat :=
  match l with
  | [] => 0
  | a :: l' => (if p a then 1 else 0) + countb p l'
  end%nat.

Lemma countb_le_length {A : Type} (p : A -> bool) (l : list A) : (countb p l <= length l)%nat.
Proof. induction l as [|a l IH]; cbn; [lia|]. destruct (p a); lia. Qed.

Lemma countb_app {A : Type} (p : A -> bool) (l l' : list A) : countb p (l ++ l') = (countb p l + countb p l')%nat.
Proof. induction l as [|a l IH]; cbn; [done|]. destruct (p a); rewrite IH; lia. Qed.

Lemma countb_mono {A : Type} (p q : A -> bool) (l : list A) :
  (forall a, q a = true -> p a = true) -> (countb q l <= countb p l)%nat.
Proof.
  intros H. induction l as [|a l IH]; cbn; [lia|].
  destruct (q a) eqn:E; [rewrite (H a E)|destruct (p a)]; lia.
Qed.

Lemma countb_lt {A : Type} (p q : A -> bool) (l : list A) x :
  (forall a, q a = true -> p a = true) -> x ∈ l -> p x = true -> q x = false ->
  (countb q l < countb p l)%nat.
Proof.
  intros H Hx Hp Hq. induction l as [|a l IH]; [by apply not_elem_of_nil in Hx|].
  apply elem_of_cons in Hx as [<-|Hx]; cbn.
  - rewrite Hp, Hq. pose proof (countb_mono p q l H). lia.
  - specialize (IH Hx). destruct (q a) eqn:E; [rewrite (H a E)|destruct (p a)]; lia.
Qed.

(** ** Error returns: [int] results that are 0 or a negated errno *)

Inductive errno : Type :=
| EIO | EAGAIN | ENOMEM | EBUSY | ENODEV | EINVAL | ENOENT | EBADMSG | ENOBUFS
| EALREADY | EMSGSIZE | ECANCELED | ETIMEDOUT | EADDRNOTAVAIL | EADDRINUSE
| EPROTONOSUPPORT | ENOTSUP | ECONNABORTED | E2BIG.

#[export] Instance errno_eq_dec : EqDecision errno.
Proof. solve_decision. Defined.

(** [None] is the return value 0, [Some e] is [-e]. *)
Abbreviation ret_code := (option errno).

(** ** A state monad whose [None] is undefined behaviour of the C program
    (null dereference, out-of-bounds access, read of an indeterminate value) *)

Definition ST (S A : Type) : Type := S -> option (A * S).

#[export] Instance ST_ret (S : Type) : MRet (ST S) := fun A a s => Some (a, s).

#[export] Instance ST_bind (S : Type) : MBind (ST S) :=
  fun A B k m s => match m s with Some (a, s') => k a s' | None => None end.

Definition undefined {S A : Type} : ST S A := fun _ => None.
Definition gets {S A : Type} (f : S -> A) : ST S A := fun s => Some (f s, s).
Definition modify {S : Type} (f : S -> S) : ST S unit := fun s => Some (tt, f s).
(** A value that must be present: a [NULL] here is undefined behaviour. *)
Definition need {S A : Type} (o : option A) : ST S A :=
  match o with Some a => mret a | None => undefined end.
Definition when {S : Type} (b : bool) (m : ST S unit) : ST S unit :=
  if b then m else mret tt.

(** [for (i = from; n iterations; i++) body(i)] *)
Fixpoint for_loop {S : Type} (n : nat) (i : nat) (body : nat -> ST S unit) : ST S unit :=
  match n with
  | O => mret tt
  | Datatypes.S n' => body i ≫= fun _ => for_loop n' (Datatypes.S i) body
  end.

Lemma bind_ret {S A B : Type} (a : A) (k : A -> ST S B) s :
  (mret a ≫= k) s = k a s.
Proof. reflexivity. Qed.

Lemma bind_gets {S A B : Type} (f : S -> A) (k : A -> ST S B) s :
  (gets f ≫= k) s = k (f s) s.
Proof. reflexivity. Qed.

Lemma bind_modify {S B : Type} (f : S -> S) (k : unit -> ST S B) s :
  (modify f ≫= k) s = k tt (f s).
Proof. reflexivity. Qed.

Lemma bind_some {S A B : Type} (m : ST S A) (k : A -> ST S B) s a s' :
  m s = Some (a, s') -> (m ≫= k) s = k a s'.
Proof. intros E. unfold mbind, ST_bind. by rewrite E. Qed.

Lemma bind_none {S A B : Type} (m : ST S A) (k : A -> ST S B) s :
  m s = None -> (m ≫= k) s = None.
Proof. intros E. unfold mbind, ST_bind. by rewrite E. Qed.

Lemma bind_inv {S A B : Type} (m : ST S A) (k : A -> ST S B) s r :
  (m ≫= k) s = Some r -> exists a s', m s = Some (a, s') /\ k a s' = Some r.
Proof.
  unfold mbind, ST_bind. destruct (m s) as [[a s']|] eqn:E; [|done]. eauto.
Qed.

Lemma when_inv {S : Type} b (m : ST S unit) s r :
  when b m s = Some r -> (b = true /\ m s = Some r) \/ (b = false /\ r = (tt, s)).
Proof. destruct b; cbn; [by left|]. intros [= <-]. by right. Qed.

(** An invariant of the state that every iteration of a loop preserves is
    preserved by the loop. *)
Lemma for_loop_inv {S : Type} (P : S -> Prop) (body : nat -> ST S unit) :
  (forall i s u s', P s -> body i s = Some (u, s') -> P s') ->
  forall n i s u s', P s -> for_loop n i body s = Some (u, s') -> P s'.
Proof.
  intros Hb n. induction n as [|n IH]; cbn; intros i s u s' HP H.
  - cbv [mret ST_ret] in H. by simplify_eq.
  - apply bind_inv in H as ([] & s1 & H1 & H2). eauto.
Qed.

(** A loop whose body never misbehaves under an invariant never misbehaves. *)
Lemma for_loop_safe {S : Type} (P : S -> Prop) (body : nat -> ST S unit) lo hi :
  (forall i s, (lo <= i < hi)%nat -> P s -> exists s', body i s = Some (tt, s') /\ P s') ->
  forall n i s, (lo <= i)%nat -> (i + n <= hi)%nat -> P s ->
  exists s', for_loop n i body s = Some (tt, s') /\ P s'.
Proof.
  intros Hb n. induction n as [|n IH]; cbn; intros i s Hlo Hhi HP.
  - eauto.
  - destruct (Hb i s) as (s1 & E & HP1); [lia|done|].
    destruct (IH (Datatypes.S i) s1) as (s2 & E2 & HP2); [lia..|done|].
    exists s2. split; [|done]. rewrite (bind_some _ _ _ _ _ E). done.
Qed.

(** ** Assignment to a field of a structure

    A record type gives its eta-expansion once; the update of any of its fields
    is then derived from the projection. *)

Class Eta (R : Type) := eta_expand : R -> R.

Class Assignable {R T : Type} (field : R -> T) := assign : T -> R -> R.

Arguments assign {R T} field {_} _ _ : assert.

Ltac derive_assign :=
  match goal with
  | |- @Assignable ?R ?T ?field =>
      let r := fresh "r" in
      let v := fresh "v" in
      refine (fun (v : T) (r : R) => _);
      let e := eval unfold eta_expand in (eta_expand r) in
      let e := eval hnf in e in
      let e := eval pattern (field r) in e in
      match e with
      | ?body (field r) => let e := eval cbv beta in (body v) in exact e
      end
  end.

#[export] Hint Extern 1 (Assignable _) => derive_assign : typeclass_instances.

Declare Scope assign_scope.
#[global] Open Scope assign_scope.

Notation "r <| f := v |>" := (assign f v r)
  (at level 12, left associativity, f at next level, v at level 200,
   format "r  <| f  :=  v |>") : assign_scope.

(** Run an operation of a component on the field of the state that holds it. *)
Definition zoom {S T A : Type} (field : S -> T) `{!Assignable field} (m : ST T A) : ST S A :=
  fun s => match m (field s) with
           | Some (a, t) => Some (a, s <| field := t |>)
           | None => None
           end.

Lemma zoom_some {S T A : Type} (field : S -> T) `{!Assignable field} (m : ST T A) s a t :
  m (field s) = Some (a, t) -> zoom field m s = Some (a, s <| field := t |>).
Proof. intros E. unfold zoom. by rewrite E. Qed.

Lemma zoom_inv {S T A : Type} (field : S -> T) `{!Assignable field} (m : ST T A) s a s' :
  zoom field m s = Some (a, s') ->
  exists t, m (field s) = Some (a, t) /\ s' = s <| field := t |>.
Proof.
  unfold zoom. destruct (m (field s)) as [[a1 t]|]; [|done].
  intros [= <- <-]. eauto.
Qed.

(** ** Weakest preconditions

    [wp m Q s]: run from [s], [m] has no undefined behaviour and its result and final
    state satisfy [Q]. *)

Definition wp {S A : Type} (m : ST S A) (Q : A -> S -> Prop) (s : S) : Prop :=
  exists a s', m s = Some (a, s') /\ Q a s'.

Section Wp.
Context {S : Type}.

Lemma wp_ret {A : Type} (a : A) (Q : A -> S -> Prop) s : Q a s -> wp (mret a) Q s.
Proof. intros H. by exists a, s. Qed.

Lemma wp_bind {A B : Type} (m : ST S A) (k : A -> ST S B) Q s :
  wp m (fun a => wp (k a) Q) s -> wp (m ≫= k) Q s.
Proof. intros (a & s' & E & b & s'' & E' & H). exists b, s''. split; [by rewrite (bind_some _ _ _ _ _ E)|done]. Qed.

Lemma wp_gets {A : Type} (f : S -> A) Q s : Q (f s) s -> wp (gets f) Q s.
Proof. intros H. by exists (f s), s. Qed.

Lemma wp_modify (f : S -> S) Q s : Q tt (f s) -> wp (modify f) Q s.
Proof. intros H. by exists tt, (f s). Qed.

Lemma wp_need {A : Type} (o : option A) a (Q : A -> S -> Prop) s : o = Some a -> Q a s -> wp (need o) Q s.
Proof. intros -> H. by exists a, s. Qed.

Lemma wp_when b (m : ST S unit) (Q : unit -> S -> Prop) s : (b = true -> wp m Q s) -> (b = false -> Q tt s) -> wp (when b m) Q s.
Proof. destruct b; intros H1 H2; cbn; [by apply H1|]. exists tt, s. split; [done|by apply H2]. Qed.

Lemma wp_mono {A : Type} (m : ST S A) (Q R : A -> S -> Prop) s :
  wp m Q s -> (forall a s', Q a s' -> R a s') -> wp m R s.
Proof. intros (a & s' & E & H) HR. exists a, s'. auto. Qed.

Lemma wp_and {A : Type} (m : ST S A) (Q R : A -> S -> Prop) s :
  wp m Q s -> wp m R s -> wp m (fun a s' => Q a s' /\ R a s') s.
Proof. intros (a & s' & E & H) (a' & s'' & E' & H'). rewrite E' in E. injection E as -> ->. by exists a, s'. Qed.

Lemma wp_some {A : Type} (m : ST S A) a s' Q s : m s = Some (a, s') -> Q a s' -> wp m Q s.
Proof. intros E H. by exists a, s'. Qed.

Lemma wp_eq {A : Type} (m m' : ST S A) (Q : A -> S -> Prop) s : m s = m' s -> wp m' Q s -> wp m Q s.
Proof. unfold wp. by intros ->. Qed.

Lemma wp_total {A : Type} (f : S -> A * S) (Q : A -> S -> Prop) s : Q (f s).1 (f s).2 -> wp (fun s => Some (f s)) Q s.
Proof. intros H. exists (f s).1, (f s).2. split; [by rewrite <- surjective_pairing|done]. Qed.

Lemma wp_run {A : Type} (m : ST S A) Q s a s' : wp m Q s -> m s = Some (a, s') -> Q a s'.
Proof. intros (b & s'' & E & H) E'. congruence. Qed.

(** A step that keeps [P], before the rest. *)
Lemma wp_seq {A B : Type} (P : S -> Prop) (m : ST S A) (k : A -> ST S B) (Q : B -> S -> Prop) s :
  wp m (fun _ => P) s -> (forall a s', P s' -> wp (k a) Q s') -> wp (m ≫= k) Q s.
Proof. intros H1 H2. apply wp_bind. eapply wp_mono; [exact H1|auto]. Qed.

Lemma wp_then {A B : Type} (f : A -> B) (P : S -> Prop) (m : ST S A) s :
  wp m (fun _ => P) s -> wp (m ≫= fun a => mret (f a)) (fun _ => P) s.
Proof. intros H. apply (wp_seq P); [done|]. intros a s' Hs. by apply wp_ret. Qed.

(** A loop from [i]: [I k] holds before iteration [k]. *)
Lemma wp_for_loop (I : nat -> S -> Prop) body n i s :
  I i s -> (forall k s, (i <= k < i + n)%nat -> I k s -> wp (body k) (fun _ => I (Datatypes.S k)) s) ->
  wp (for_loop n i body) (fun _ => I (i + n)%nat) s.
Proof.
  revert i s. induction n as [|n IH]; intros i s HI Hb; cbn [for_loop].
  - rewrite Nat.add_0_r. by apply wp_ret.
  - apply wp_bind. eapply wp_mono; [apply Hb; [lia|done]|]. cbv beta. intros _ s1 H1.
    replace (i + Datatypes.S n)%nat with (Datatypes.S i + n)%nat by lia. apply IH; [done|].
    intros k s2 Hk. apply Hb. lia.
Qed.

End Wp.

Lemma wp_zoom {S T A : Type} (field : S -> T) `{!Assignable field} (m : ST T A) Q s :
  wp m (fun a t => Q a (s <| field := t |>)) (field s) -> wp (zoom field m) Q s.
Proof. intros (a & t & E & H). eexists _, _. split; [by apply zoom_some|done]. Qed.

(** One step of symbolic execution. *)
Ltac wp_step :=
  lazymatch goal with
  | |- wp (_ ≫= _) _ _ => apply wp_bind
  | |- wp (mret _) _ _ => apply wp_ret
  | |- wp (gets _) _ _ => apply wp_gets
  | |- wp (modify _) _ _ => apply wp_modify
  | |- wp (zoom _ _) _ _ => apply wp_zoom
  | |- wp (when true ?m) ?Q ?s => change (wp m Q s)
  | |- wp (when false _) ?Q ?s => apply (wp_ret tt Q s)
  end; cbv beta.

(** Case split on the condition of the program. *)
Ltac wp_if :=
  lazymatch goal with
  | |- wp (if ?b then _ else _) _ _ => let E := fresh "E" in destruct b eqn:E
  end.
