(* ===== verification/ByteOrder.v ===== *)
(** * Big- and little-endian accessors (include/sys/byteorder.h)

    [sys_put_xxN v] is the byte string the C function stores at [dst];
    [sys_get_xxN l] reads it back from the front of [l] (bytes past the end of
    [l] read as 0, which callers rule out by a length check). *)

From S2P Require Import Prelude.

(** Byte [i] of an array. *)
Definition byte_at (l : bytes) (i : nat) : Z := nth i l 0.

Definition sys_put_be16 (val : Z) : bytes := [u8 (Z.shiftr val 8); u8 val].
Definition sys_put_be24 (val : Z) : bytes := u8 (Z.shiftr val 16) :: sys_put_be16 (u16 val).
Definition sys_put_be32 (val : Z) : bytes :=
  sys_put_be16 (u16 (Z.shiftr val 16)) ++ sys_put_be16 (u16 val).
Definition sys_put_be48 (val : Z) : bytes :=
  sys_put_be16 (u16 (Z.shiftr val 32)) ++ sys_put_be32 (u32 val).
Definition sys_put_be64 (val : Z) : bytes :=
  sys_put_be32 (u32 (Z.shiftr val 32)) ++ sys_put_be32 (u32 val).

Definition sys_put_le16 (val : Z) : bytes := [u8 val; u8 (Z.shiftr val 8)].
Definition sys_put_le24 (val : Z) : bytes := sys_put_le16 (u16 val) ++ [u8 (Z.shiftr val 16)].
Definition sys_put_le32 (val : Z) : bytes :=
  sys_put_le16 (u16 val) ++ sys_put_le16 (u16 (Z.shiftr val 16)).
Definition sys_put_le48 (val : Z) : bytes :=
  sys_put_le32 (u32 val) ++ sys_put_le16 (u16 (Z.shiftr val 32)).
Definition sys_put_le64 (val : Z) : bytes :=
  sys_put_le32 (u32 val) ++ sys_put_le32 (u32 (Z.shiftr val 32)).

Definition sys_get_be16 (src : bytes) : Z :=
  Z.lor (Z.shiftl (byte_at src 0) 8) (byte_at src 1).
Definition sys_get_be24 (src : bytes) : Z :=
  Z.lor (Z.shiftl (byte_at src 0) 16) (sys_get_be16 (drop 1 src)).
Definition sys_get_be32 (src : bytes) : Z :=
  Z.lor (Z.shiftl (sys_get_be16 src) 16) (sys_get_be16 (drop 2 src)).
Definition sys_get_be48 (src : bytes) : Z :=
  Z.lor (Z.shiftl (sys_get_be32 src) 16) (sys_get_be16 (drop 4 src)).
Definition sys_get_be64 (src : bytes) : Z :=
  Z.lor (Z.shiftl (sys_get_be32 src) 32) (sys_get_be32 (drop 4 src)).

Definition sys_get_le16 (src : bytes) : Z :=
  Z.lor (Z.shiftl (byte_at src 1) 8) (byte_at src 0).
Definition sys_get_le24 (src : bytes) : Z :=
  Z.lor (Z.shiftl (byte_at src 2) 16) (sys_get_le16 src).
Definition sys_get_le32 (src : bytes) : Z :=
  Z.lor (Z.shiftl (sys_get_le16 (drop 2 src)) 16) (sys_get_le16 src).
Definition sys_get_le48 (src : bytes) : Z :=
  Z.lor (Z.shiftl (sys_get_le32 (drop 2 src)) 16) (sys_get_le16 src).
Definition sys_get_le64 (src : bytes) : Z :=
  Z.lor (Z.shiftl (sys_get_le32 (drop 4 src)) 32) (sys_get_le32 src).

(** ** Arithmetic of shifts and masks *)

Lemma testbit_high a n k : 0 <= n -> 0 <= a < 2 ^ n -> n <= k -> Z.testbit a k = false.
Proof.
  intros Hn Ha Hk. rewrite <- (Z.mod_small a (2 ^ n)) by done.
  apply Z.mod_pow2_bits_high. lia.
Qed.

Lemma lor_shiftl_add a b k : 0 <= k -> 0 <= b < 2 ^ k -> Z.lor (Z.shiftl a k) b = a * 2 ^ k + b.
Proof.
  intros Hk Hb. rewrite <- Z.shiftl_mul_pow2 by done.
  symmetry. rewrite <- Z.lxor_lor.
  - apply Z.add_nocarry_lxor. apply Z.bits_inj'. intros i Hi.
    rewrite Z.land_spec, Z.bits_0. destruct (Z.lt_ge_cases i k).
    + by rewrite Z.shiftl_spec_low.
    + rewrite (testbit_high b k i), andb_false_r by lia. done.
  - apply Z.bits_inj'. intros i Hi. rewrite Z.land_spec, Z.bits_0.
    destruct (Z.lt_ge_cases i k).
    + by rewrite Z.shiftl_spec_low.
    + rewrite (testbit_high b k i), andb_false_r by lia. done.
Qed.

Lemma lor_add_shiftl a b k : 0 <= k -> 0 <= b < 2 ^ k -> Z.lor b (Z.shiftl a k) = a * 2 ^ k + b.
Proof. intros. rewrite Z.lor_comm. by apply lor_shiftl_add. Qed.

Lemma shiftr_div a k : 0 <= k -> Z.shiftr a k = a / 2 ^ k.
Proof. apply Z.shiftr_div_pow2. Qed.

Lemma land_mask a k : 0 <= k -> Z.land a (2 ^ k - 1) = a mod 2 ^ k.
Proof. intros. rewrite <- Z.land_ones by done. by rewrite Z.ones_equiv, Z.sub_1_r. Qed.

(** Evaluate the constant powers of two and decide the linear goal left. *)
Ltac pow2 :=
  change (2 ^ 1) with 2 in *; change (2 ^ 2) with 4 in *; change (2 ^ 3) with 8 in *;
  change (2 ^ 4) with 16 in *; change (2 ^ 5) with 32 in *; change (2 ^ 6) with 64 in *;
  change (2 ^ 7) with 128 in *; change (2 ^ 8) with 256 in *;
  change (2 ^ 13) with 8192 in *; change (2 ^ 14) with 16384 in *;
  change (2 ^ 15) with 32768 in *; change (2 ^ 16) with 65536 in *;
  change (2 ^ 24) with 16777216 in *;
  change (2 ^ 31) with 2147483648 in *;
  change (2 ^ 32) with 4294967296 in *; change (2 ^ 48) with 281474976710656 in *;
  change (2 ^ 64) with 18446744073709551616 in *.

Ltac divmod := pow2; Z.div_mod_to_equations; lia.

(** ** Round trips *)

Lemma get_be16_cons a b l : is_u8 a -> is_u8 b -> sys_get_be16 (a :: b :: l) = a * 2 ^ 8 + b.
Proof. intros Ha Hb. unfold sys_get_be16; cbn. rewrite lor_shiftl_add; [done|lia|done]. Qed.

Lemma get_be16_range l : wf_bytes l -> is_u16 (sys_get_be16 l).
Proof.
  assert (Hz : is_u8 0) by (unfold is_u8; lia).
  intros Hl. destruct l as [|a [|b l]].
  - change (sys_get_be16 []) with 0. unfold is_u16. lia.
  - apply wf_bytes_cons in Hl as [Ha _].
    unfold sys_get_be16; cbn [byte_at nth]. rewrite lor_shiftl_add by (unfold is_u8 in *; lia).
    unfold is_u8, is_u16 in *. lia.
  - apply wf_bytes_cons in Hl as [Ha Hl]. apply wf_bytes_cons in Hl as [Hb _].
    rewrite get_be16_cons by done. unfold is_u8, is_u16 in *. lia.
Qed.

Lemma put_be16_wf v : wf_bytes (sys_put_be16 v).
Proof. repeat constructor; apply u8_range. Qed.

Lemma put_be24_wf v : wf_bytes (sys_put_be24 v).
Proof. apply wf_bytes_cons; split; [apply u8_range | apply put_be16_wf]. Qed.

Lemma put_be32_wf v : wf_bytes (sys_put_be32 v).
Proof. apply wf_bytes_app; split; apply put_be16_wf. Qed.

#[export] Hint Resolve put_be16_wf put_be24_wf put_be32_wf : mesh.

Lemma get_put_be16 v l : is_u16 v -> sys_get_be16 (sys_put_be16 v ++ l) = v.
Proof.
  intros Hv. cbn [sys_put_be16 app].
  rewrite get_be16_cons, shiftr_div by (apply u8_range || lia).
  unfold u8, is_u16 in *. divmod.
Qed.

Lemma get_put_be24 v l : 0 <= v < 2 ^ 24 -> sys_get_be24 (sys_put_be24 v ++ l) = v.
Proof.
  intros Hv. unfold sys_get_be24, sys_put_be24.
  change (drop 1 ((u8 (Z.shiftr v 16) :: sys_put_be16 (u16 v)) ++ l))
    with (sys_put_be16 (u16 v) ++ l).
  rewrite get_put_be16 by apply u16_range. cbn [byte_at nth app].
  rewrite lor_shiftl_add, shiftr_div by (lia || apply u16_range).
  unfold u8, u16. divmod.
Qed.

Lemma get_put_be32 v l : is_u32 v -> sys_get_be32 (sys_put_be32 v ++ l) = v.
Proof.
  intros Hv. unfold sys_get_be32, sys_put_be32.
  rewrite <- app_assoc, get_put_be16 by apply u16_range.
  change (drop 2 (sys_put_be16 (u16 (Z.shiftr v 16)) ++ sys_put_be16 (u16 v) ++ l))
    with (sys_put_be16 (u16 v) ++ l).
  rewrite get_put_be16, lor_shiftl_add, shiftr_div by (apply u16_range || lia).
  unfold u16, is_u32 in *. divmod.
Qed.

Lemma put_get_be16 a b : is_u8 a -> is_u8 b -> sys_put_be16 (sys_get_be16 [a; b]) = [a; b].
Proof.
  intros Ha Hb. rewrite get_be16_cons by done. unfold sys_put_be16.
  rewrite shiftr_div by lia. unfold u8, is_u8 in *. f_equal; [|f_equal]; divmod.
Qed.

Lemma get_le16_cons a b l : is_u8 a -> is_u8 b -> sys_get_le16 (a :: b :: l) = b * 2 ^ 8 + a.
Proof. intros Ha Hb. unfold sys_get_le16; cbn. rewrite lor_shiftl_add; [done|lia|done]. Qed.

Lemma get_put_le16 v l : is_u16 v -> sys_get_le16 (sys_put_le16 v ++ l) = v.
Proof.
  intros Hv. cbn [sys_put_le16 app].
  rewrite get_le16_cons, shiftr_div by (apply u8_range || lia).
  unfold u8, is_u16 in *. divmod.
Qed.

Lemma put_le16_wf v : wf_bytes (sys_put_le16 v).
Proof. repeat constructor; apply u8_range. Qed.

#[export] Hint Resolve put_le16_wf : mesh.
