(* ===== verification/CString.v ===== *)
(** * The part of the C library the applications use

    A C string is the list of its characters without the terminating NUL.  The
    functions are the standard's: [strstr], [strtok] with its hidden static
    pointer as an explicit argument, [strtol] and [atoi] (saturating at the
    32-bit [long] of the target), the [%d], [%c], [%s] and [%04x] conversions
    and the truncation of [snprintf].  A null token is [None]. *)

From Stdlib Require Import String Ascii.
From S2P Require Import Prelude.

(** Character codes of a literal. *)
Fixpoint str (s : string) : bytes :=
  match s with
  | EmptyString => []
  | String c s' => Z.of_N (N_of_ascii c) :: str s'
  end.

Definition ch_0 : Z := 48.
Definition ch_9 : Z := 57.
Definition ch_minus : Z := 45.
Definition ch_plus : Z := 43.
Definition ch_eq : Z := 61.

(** The string stored in a character array: up to the first NUL. *)
Fixpoint cstr (l : bytes) : bytes :=
  match l with
  | [] => []
  | c :: l' => if c =? 0 then [] else c :: cstr l'
  end.

(** The string [snprintf (dst, n, ...)] leaves in [dst] when [s] is the complete
    formatted text. *)
Definition snprintf (n : nat) (s : bytes) : bytes := take (n - 1) s.

(** [strcpy] and [strcat] into an array of [cap] characters; [None] is a write
    past its end. *)
Definition strcpy (cap : nat) (src : bytes) : option bytes :=
  if (length src <? cap)%nat then Some src else None.
Definition strcat (cap : nat) (dst src : bytes) : option bytes :=
  if (length dst + length src <? cap)%nat then Some (dst ++ src) else None.

Fixpoint is_prefix (p s : bytes) : bool :=
  match p, s with
  | [], _ => true
  | a :: p', b :: s' => (a =? b) && is_prefix p' s'
  | _ :: _, [] => false
  end.

(** [strstr (haystack, needle)]: the suffix at the first occurrence. *)
Fixpoint strstr (h n : bytes) : option bytes :=
  if is_prefix n h then Some h
  else match h with [] => None | _ :: h' => strstr h' n end.

(** [strstr (h, n) != NULL] *)
Definition contains (h n : bytes) : bool :=
  match strstr h n with Some _ => true | None => false end.

(** ** strtok *)

Definition is_delim (d : bytes) (c : Z) : bool := existsb (Z.eqb c) d.

Fixpoint skip_delims (d s : bytes) : bytes :=
  match s with
  | [] => []
  | c :: s' => if is_delim d c then skip_delims d s' else s
  end.

(** The token at the front of [s], and the text after its delimiter. *)
Fixpoint take_token (d s : bytes) : bytes * option bytes :=
  match s with
  | [] => ([], None)
  | c :: s' =>
      if is_delim d c then ([], Some s')
      else let (t, r) := take_token d s' in (c :: t, r)
  end.

(** [strtok (s, d)]: [s] is [None] for a null first argument, [save] the static
    pointer; the result is the token and the new static pointer. *)
Definition strtok (s : option bytes) (d : bytes) (save : option bytes)
    : option bytes * option bytes :=
  match (match s with Some _ => s | None => save end) with
  | None => (None, None)
  | Some t =>
      match skip_delims d t with
      | [] => (None, None)
      | t' => let (tok, r) := take_token d t' in (Some tok, r)
      end
  end.

(** ** Numbers to text *)

(** Digits of [n], most significant first. *)
Fixpoint digits (fuel : nat) (base n : Z) : list Z :=
  match fuel with
  | O => []
  | S f => if n <? base then [n] else digits f base (n / base) ++ [n mod base]
  end.

Definition digit_char (d : Z) : Z := if d <? 10 then ch_0 + d else d - 10 + 97.

Definition fmt_nat (base n : Z) : bytes := map digit_char (digits 20 base n).
(** [%d] *)
Definition fmt_d (z : Z) : bytes :=
  if z <? 0 then ch_minus :: fmt_nat 10 (- z) else fmt_nat 10 z.
(** [%04x] *)
Definition fmt_04x (n : Z) : bytes :=
  let h := fmt_nat 16 n in replicate (4 - length h) ch_0 ++ h.

(** ** Text to numbers *)

Definition digit_val (c : Z) : option Z :=
  if (ch_0 <=? c) && (c <=? ch_9) then Some (c - ch_0)
  else if (97 <=? c) && (c <=? 122) then Some (c - 97 + 10)
  else if (65 <=? c) && (c <=? 90) then Some (c - 65 + 10)
  else None.

Definition digit_in (base c : Z) : option Z :=
  match digit_val c with
  | Some d => if d <? base then Some d else None
  | None => None
  end.

Fixpoint parse_digits (base acc : Z) (s : bytes) : Z :=
  match s with
  | [] => acc
  | c :: s' =>
      match digit_in base c with
      | Some d => parse_digits base (acc * base + d) s'
      | None => acc
      end
  end.

Definition is_space (c : Z) : bool := (c =? 32) || ((9 <=? c) && (c <=? 13)).

Fixpoint skip_space (s : bytes) : bytes :=
  match s with
  | c :: s' => if is_space c then skip_space s' else s
  | [] => []
  end.

(** The sign, and the text after it. *)
Definition strtol_sign (s : bytes) : bool * bytes :=
  match s with
  | c :: s' => if c =? ch_minus then (true, s') else if c =? ch_plus then (false, s') else (false, s)
  | [] => (false, [])
  end.

(** The base in force and the text after its prefix. *)
Definition strtol_base (base : Z) (s : bytes) : Z * bytes :=
  match s with
  | c0 :: c1 :: c2 :: s' =>
      if ((base =? 0) || (base =? 16)) && (c0 =? ch_0) && ((c1 =? 120) || (c1 =? 88))
         && (match digit_in 16 c2 with Some _ => true | None => false end)
      then (16, c2 :: s')
      else ((if base =? 0 then if c0 =? ch_0 then 8 else 10 else base), s)
  | c0 :: _ => ((if base =? 0 then if c0 =? ch_0 then 8 else 10 else base), s)
  | [] => ((if base =? 0 then 10 else base), s)
  end.

Definition LONG_MAX : Z := 2 ^ 31 - 1.
Definition LONG_MIN : Z := - 2 ^ 31.

(** [strtol (s, NULL, base)] *)
Definition strtol (s : bytes) (base : Z) : Z :=
  let (neg, s1) := strtol_sign (skip_space s) in
  let (b, s2) := strtol_base base s1 in
  let v := parse_digits b 0 s2 in
  Z.max LONG_MIN (Z.min LONG_MAX (if neg then - v else v)).

(** [atoi (s)] *)
Definition atoi (s : bytes) : Z := strtol s 10.

(** ** Lemmas *)

Lemma cstr_nonzero l : Forall (fun c => c <> 0) (cstr l).
Proof.
  induction l as [|c l IH]; cbn; [constructor|].
  destruct (Z.eqb_spec c 0); [constructor|]. by constructor.
Qed.

Lemma cstr_id l : Forall (fun c => c <> 0) l -> cstr l = l.
Proof.
  induction 1 as [|c l Hc _ IH]; cbn; [done|].
  by rewrite (proj2 (Z.eqb_neq c 0) Hc), IH.
Qed.

Lemma length_cstr l : (length (cstr l) <= length l)%nat.
Proof. induction l as [|c l IH]; cbn; [lia|]. destruct (c =? 0); cbn; lia. Qed.

Lemma length_snprintf n s : (0 < n)%nat -> (length (snprintf n s) < n)%nat.
Proof. unfold snprintf. rewrite length_take. lia. Qed.

Lemma snprintf_fits n s : (length s < n)%nat -> snprintf n s = s.
Proof. intros. unfold snprintf. apply take_ge. lia. Qed.

Lemma contains_single h c : contains h [c] = existsb (Z.eqb c) h.
Proof.
  unfold contains. induction h as [|a h IH]; cbn; [done|].
  destruct (c =? a); cbn; [done|]. exact IH.
Qed.

(** A token free of delimiters is cut at the delimiter that follows it. *)
Lemma take_token_app d t c r :
  forallb (fun x => negb (is_delim d x)) t = true -> is_delim d c = true ->
  take_token d (t ++ c :: r) = (t, Some r).
Proof.
  induction t as [|a t IH]; cbn; intros Ht Hc.
  - by rewrite Hc.
  - zbool. rewrite H, IH by done. done.
Qed.

Lemma take_token_end d t :
  forallb (fun x => negb (is_delim d x)) t = true -> take_token d t = (t, None).
Proof.
  induction t as [|a t IH]; cbn; intros Ht; [done|].
  zbool. rewrite H, IH by done. done.
Qed.

Lemma skip_delims_token d a t : is_delim d a = false -> skip_delims d (a :: t) = a :: t.
Proof. intros H. cbn. by rewrite H. Qed.

(** Value of a digit string. *)
Fixpoint value (base acc : Z) (ds : list Z) : Z :=
  match ds with [] => acc | d :: ds' => value base (acc * base + d) ds' end.

Lemma value_app base acc l1 l2 : value base acc (l1 ++ l2) = value base (value base acc l1) l2.
Proof. revert acc. induction l1 as [|d l1 IH]; cbn; intros acc; [done|]. apply IH. Qed.

Lemma digits_value fuel base n :
  2 <= base -> 0 <= n < base ^ Z.of_nat fuel -> value base 0 (digits fuel base n) = n.
Proof.
  intros Hb. revert n. induction fuel as [|f IH]; intros n Hn.
  - cbn in *. lia.
  - cbn [digits]. destruct (Z.ltb_spec n base); cbn [value]; [lia|].
    rewrite value_app. rewrite IH.
    + cbn [value]. pose proof (Z.div_mod n base ltac:(lia)). lia.
    + split; [apply Z.div_pos; lia|].
      apply Z.div_lt_upper_bound; [lia|].
      rewrite Nat2Z.inj_succ, Z.pow_succ_r in Hn; lia.
Qed.

Lemma digits_range fuel base n :
  2 <= base -> 0 <= n -> Forall (fun d => 0 <= d < base) (digits fuel base n).
Proof.
  intros Hb. revert n. induction fuel as [|f IH]; intros n Hn; cbn [digits]; [constructor|].
  destruct (Z.ltb_spec n base).
  - constructor; [lia|constructor].
  - apply Forall_app. split; [apply IH, Z.div_pos; lia|].
    constructor; [apply Z.mod_pos_bound; lia|constructor].
Qed.

Lemma digit_in_char base d : 0 <= d < base -> base <= 16 -> digit_in base (digit_char d) = Some d.
Proof.
  intros Hd Hb. unfold digit_in, digit_val, digit_char, ch_0, ch_9.
  destruct (Z.ltb_spec d 10).
  - rewrite (proj2 (Z.leb_le 48 (48 + d))), (proj2 (Z.leb_le (48 + d) 57)) by lia. cbn [andb].
    replace (48 + d - 48) with d by lia. by rewrite (proj2 (Z.ltb_lt d base)) by lia.
  - rewrite (proj2 (Z.leb_gt (d - 10 + 97) 57)) by lia. rewrite andb_false_r.
    rewrite (proj2 (Z.leb_le 97 _)), (proj2 (Z.leb_le _ 122)) by lia. cbn [andb].
    replace (d - 10 + 97 - 97 + 10) with d by lia. by rewrite (proj2 (Z.ltb_lt d base)) by lia.
Qed.

Lemma parse_digit_chars base acc ds :
  base <= 16 -> Forall (fun d => 0 <= d < base) ds ->
  parse_digits base acc (map digit_char ds) = value base acc ds.
Proof.
  intros Hb H. revert acc. induction H as [|d ds Hd _ IH]; intros acc; cbn; [done|].
  by rewrite digit_in_char.
Qed.

Lemma parse_fmt_nat base n :
  2 <= base <= 16 -> 0 <= n < base ^ 20 -> parse_digits base 0 (fmt_nat base n) = n.
Proof.
  intros Hb Hn. unfold fmt_nat.
  rewrite parse_digit_chars; [|lia|apply digits_range; lia].
  apply digits_value; [lia|]. exact Hn.
Qed.

Lemma digits_nonempty fuel base n : digits (S fuel) base n <> [].
Proof.
  cbn [digits]. destruct (n <? base); [done|].
  intros H. apply app_eq_nil in H as [_ H]. done.
Qed.

(** Decimal text starts with a decimal digit, so no space or sign is skipped. *)
Lemma fmt_nat_10_chars n : 0 <= n -> Forall (fun c => ch_0 <= c <= ch_9) (fmt_nat 10 n).
Proof.
  intros Hn. unfold fmt_nat. apply Forall_map.
  eapply Forall_impl; [|apply (digits_range 20 10 n); lia].
  intros d Hd. cbn in Hd. unfold digit_char, ch_0, ch_9.
  destruct (Z.ltb_spec d 10); lia.
Qed.

Lemma strtol_base_10 s : strtol_base 10 s = (10, s).
Proof. by destruct s as [|? [|? [|? ?]]]. Qed.

Lemma skip_space_digit c s : ch_0 <= c <= ch_9 -> skip_space (c :: s) = c :: s.
Proof.
  unfold ch_0, ch_9. intros H. cbn. unfold is_space.
  rewrite (proj2 (Z.eqb_neq c 32)), (proj2 (Z.leb_gt c 13)) by lia.
  by rewrite andb_false_r.
Qed.

Lemma strtol_sign_digit c s : ch_0 <= c <= ch_9 -> strtol_sign (c :: s) = (false, c :: s).
Proof.
  unfold ch_0, ch_9. intros H. cbn. unfold ch_minus, ch_plus.
  by rewrite (proj2 (Z.eqb_neq c 45)), (proj2 (Z.eqb_neq c 43)) by lia.
Qed.

(** [%d] followed by [atoi] is the identity on [int]. *)
Lemma atoi_fmt_d z : LONG_MIN <= z <= LONG_MAX -> atoi (fmt_d z) = z.
Proof.
  unfold LONG_MIN, LONG_MAX. intros Hz. unfold atoi, strtol, fmt_d.
  assert (H20 : 10 ^ 20 = 100000000000000000000) by reflexivity.
  destruct (Z.ltb_spec z 0).
  - change (skip_space (ch_minus :: fmt_nat 10 (- z))) with (ch_minus :: fmt_nat 10 (- z)).
    change (strtol_sign (ch_minus :: fmt_nat 10 (- z))) with (true, fmt_nat 10 (- z)).
    cbv iota beta. rewrite strtol_base_10. cbv iota beta zeta.
    rewrite parse_fmt_nat by lia. unfold LONG_MIN, LONG_MAX. lia.
  - pose proof (parse_fmt_nat 10 z ltac:(lia) ltac:(lia)) as P.
    pose proof (fmt_nat_10_chars z ltac:(lia)) as C.
    assert (fmt_nat 10 z <> []) as N.
    { unfold fmt_nat. intros E. apply map_eq_nil in E. by apply digits_nonempty in E. }
    destruct (fmt_nat 10 z) as [|c s]; [done|].
    inversion_clear C.
    rewrite skip_space_digit, strtol_sign_digit, strtol_base_10, P by done.
    cbv beta iota zeta. unfold LONG_MIN, LONG_MAX. lia.
Qed.

(** Text printed by [%d] holds no NUL and no field separator. *)
Lemma fmt_d_chars z : Forall (fun c => c = ch_minus \/ ch_0 <= c <= ch_9) (fmt_d z).
Proof.
  unfold fmt_d. destruct (Z.ltb_spec z 0).
  - constructor; [by left|]. eapply Forall_impl; [|apply fmt_nat_10_chars; lia]. by right.
  - eapply Forall_impl; [|apply fmt_nat_10_chars; lia]. by right.
Qed.
