(* ===== verification/Hex.v ===== *)
(** * Hexadecimal and decimal text helpers (lib/os/hex.c, lib/os/dec.c)

    An output array is a list of its size; a store outside it is [None], as the
    C write past the array is undefined. *)

From S2P Require Import Prelude CString.

(** [a[i] = v] *)
Definition store (a : bytes) (i : nat) (v : Z) : option bytes :=
  if (i <? length a)%nat then Some (<[i := v]> a) else None.

(** [char2hex]: the nibble stored through [x], or [None] for -EINVAL. *)
Definition char2hex (c : Z) : option Z :=
  if (48 <=? c) && (c <=? 57) then Some (c - 48)
  else if (97 <=? c) && (c <=? 102) then Some (c - 97 + 10)
  else if (65 <=? c) && (c <=? 70) then Some (c - 65 + 10)
  else None.

(** [hex2char]: the character stored through [c], or [None] for -EINVAL. *)
Definition hex2char (x : Z) : option Z :=
  if x <=? 9 then Some (x + 48)
  else if x <=? 15 then Some (x - 10 + 97)
  else None.

(** Body of the loop of [bin2hex] from index [i]; [false] is the early
    [return 0]. *)
Fixpoint bin2hex_loop (buf : bytes) (i : nat) (hex : bytes) : option (bool * bytes) :=
  match buf with
  | [] => Some (true, hex)
  | b :: buf' =>
      match hex2char (Z.shiftr b 4) with
      | None => Some (false, hex)
      | Some c1 =>
          hex1 ← store hex (2 * i) c1;
          match hex2char (Z.land b 15) with
          | None => Some (false, hex1)
          | Some c2 =>
              hex2 ← store hex1 (2 * i + 1) c2;
              bin2hex_loop buf' (S i) hex2
          end
      end
  end.

(** [bin2hex (buf, buflen, hex, hexlen)] with [buflen = length buf] and
    [hexlen = length hex]: the return value and the array afterwards. *)
Definition bin2hex (buf hex : bytes) : option (Z * bytes) :=
  let buflen := Z.of_nat (length buf) in
  let hexlen := Z.of_nat (length hex) in
  if u32 (hexlen + 1) <? u32 (buflen * 2) then Some (0, hex)
  else
    '(ok, hex1) ← bin2hex_loop buf 0 hex;
    if (ok : bool) then
      hex2 ← store hex1 (2 * length buf) 0;
      Some (u32 (2 * buflen), hex2)
    else Some (0, hex1).

(** The regular conversion loop of [hex2bin]: [n] pairs of [hex] are stored in
    [buf] from index [i]. *)
Fixpoint hex2bin_loop (n : nat) (hex : bytes) (i : nat) (buf : bytes) : option (bool * bytes) :=
  match n with
  | O => Some (true, buf)
  | S n' =>
      match hex with
      | h1 :: h2 :: hex' =>
          match char2hex h1 with
          | None => Some (false, buf)
          | Some d1 =>
              buf1 ← store buf i (u8 (Z.shiftl d1 4));
              match char2hex h2 with
              | None => Some (false, buf1)
              | Some d2 =>
                  buf2 ← store buf1 i (u8 (u8 (Z.shiftl d1 4) + d2));
                  hex2bin_loop n' hex' (S i) buf2
              end
          end
      | _ => None
      end
  end.

(** [hex2bin (hex, hexlen, buf, buflen)] with [hexlen = length hex] and
    [buflen = length buf]. *)
Definition hex2bin (hex buf : bytes) : option (Z * bytes) :=
  let hexlen := Z.of_nat (length hex) in
  let buflen := Z.of_nat (length buf) in
  if buflen <? hexlen / 2 + hexlen mod 2 then Some (0, buf)
  else
    let ret := hexlen / 2 + hexlen mod 2 in
    if hexlen mod 2 =? 0 then
      '(ok, buf1) ← hex2bin_loop (Z.to_nat (hexlen / 2)) hex 0 buf;
      Some (if (ok : bool) then ret else 0, buf1)
    else
      match hex with
      | [] => None
      | h :: hex' =>
          match char2hex h with
          | None => Some (0, buf)
          | Some d =>
              buf1 ← store buf 0 d;
              '(ok, buf2) ← hex2bin_loop (Z.to_nat (hexlen / 2)) hex' 1 buf1;
              Some (if (ok : bool) then ret else 0, buf2)
          end
      end.

(** The loop of [u8_to_dec]: [out] is what has been written so far.  Three
    iterations bring [divisor] from 100 to 0, so four units of fuel suffice. *)
Fixpoint u8_to_dec_loop (fuel : nat) (buflen divisor value num_digits : Z) (out : bytes)
    : Z * Z * bytes :=
  match fuel with
  | O => (buflen, num_digits, out)
  | S f =>
      if (0 <? buflen) && (0 <? divisor) then
        let digit := value / divisor in
        let '(buflen', num', out') :=
          if negb (digit =? 0) || (divisor =? 1) || negb (num_digits =? 0)
          then (buflen - 1, u8 (num_digits + 1), out ++ [digit + 48])
          else (buflen, num_digits, out) in
        u8_to_dec_loop f buflen' (divisor / 10) (u8 (value - digit * divisor)) num' out'
      else (buflen, num_digits, out)
  end.

(** [u8_to_dec (buf, buflen, value)]: the return value and the bytes written. *)
Definition u8_to_dec (buflen value : Z) : Z * bytes :=
  let '(rest, num, out) := u8_to_dec_loop 4 buflen 100 value 0 [] in
  (num, if negb (rest =? 0) then out ++ [0] else out).

(** ** Properties *)

(** The text of a byte string: two lower-case digits per byte. *)
Definition hex_text (buf : bytes) : bytes :=
  concat (map (fun b => [digit_char (b / 16); digit_char (b mod 16)]) buf).

Lemma length_hex_text buf : length (hex_text buf) = (2 * length buf)%nat.
Proof. unfold hex_text. induction buf as [|b buf IH]; cbn; [done|]. rewrite IH. lia. Qed.

Lemma hex2char_digit x : 0 <= x < 16 -> hex2char x = Some (digit_char x).
Proof.
  intros H. unfold hex2char, digit_char, ch_0.
  destruct (Z.leb_spec x 9), (Z.ltb_spec x 10); try lia; [f_equal; lia|].
  by rewrite (proj2 (Z.leb_le x 15)) by lia.
Qed.

Lemma char2hex_digit x : 0 <= x < 16 -> char2hex (digit_char x) = Some x.
Proof.
  intros H.
  assert (Hc : In x (seqZ 0 16)) by (apply list_elem_of_In, elem_of_seqZ; lia).
  vm_compute in Hc. repeat (destruct Hc as [<-|Hc]; [reflexivity|]). done.
Qed.

Lemma nibbles b : is_u8 b ->
  Z.shiftr b 4 = b / 16 /\ Z.land b 15 = b mod 16 /\ 0 <= b / 16 < 16 /\ 0 <= b mod 16 < 16.
Proof.
  intros Hb. unfold is_u8 in Hb. rewrite Z.shiftr_div_pow2 by lia.
  change 15 with (Z.ones 4). rewrite Z.land_ones by lia.
  change (2 ^ 4) with 16. change (2 ^ 8) with 256 in Hb.
  repeat split; try apply Z.mod_pos_bound; try lia;
    [apply Z.div_pos; lia | apply Z.div_lt_upper_bound; lia].
Qed.

Lemma store_app_r (pre post : bytes) i v x :
  i = length pre -> store (pre ++ x :: post) i v = Some (pre ++ v :: post).
Proof.
  intros ->. unfold store. rewrite length_app. cbn [length].
  rewrite (proj2 (Nat.ltb_lt _ _)) by lia.
  rewrite insert_app_r_alt, Nat.sub_diag by lia. done.
Qed.

Lemma store_oob (a : bytes) i v : (length a <= i)%nat -> store a i v = None.
Proof. intros H. unfold store. by rewrite (proj2 (Nat.ltb_ge _ _)) by lia. Qed.

(** The loop fills the array with the text of [buf] and leaves the rest alone. *)
Lemma bin2hex_loop_ok buf : forall (pre hex : bytes) i,
  wf_bytes buf -> length pre = (2 * i)%nat -> (2 * length buf <= length hex)%nat ->
  bin2hex_loop buf i (pre ++ hex) =
  Some (true, pre ++ hex_text buf ++ drop (2 * length buf) hex).
Proof.
  induction buf as [|b buf IH]; intros pre hex i Hw Hp Hl.
  - cbn. by rewrite drop_0.
  - apply wf_bytes_cons in Hw as [Hb Hw].
    destruct (nibbles b Hb) as (E1 & E2 & R1 & R2).
    destruct hex as [|x1 [|x2 hex]]; cbn [length] in Hl; try lia.
    cbn [bin2hex_loop]. rewrite E1, (hex2char_digit _ R1).
    rewrite (store_app_r pre) by lia. cbn [mbind option_bind].
    rewrite E2, (hex2char_digit _ R2).
    rewrite (cons_middle _ pre), app_assoc.
    rewrite (store_app_r (pre ++ [_])) by (rewrite length_app; cbn; lia).
    cbn [mbind option_bind].
    rewrite (cons_middle _ (pre ++ _)), app_assoc.
    rewrite IH; [|done|rewrite !length_app; cbn; lia|lia].
    unfold hex_text. cbn [map concat app length].
    rewrite <- !app_assoc. cbn [app].
    replace (2 * S (length buf))%nat with (S (S (2 * length buf))) by lia. done.
Qed.

(** An array too short for the digits is overrun. *)
Lemma bin2hex_loop_overrun buf : forall (pre hex : bytes) i,
  wf_bytes buf -> length pre = (2 * i)%nat -> (length hex < 2 * length buf)%nat ->
  bin2hex_loop buf i (pre ++ hex) = None.
Proof.
  induction buf as [|b buf IH]; intros pre hex i Hw Hp Hl; [cbn in Hl; lia|].
  apply wf_bytes_cons in Hw as [Hb Hw].
  destruct (nibbles b Hb) as (E1 & E2 & R1 & R2).
  cbn [bin2hex_loop]. rewrite E1, (hex2char_digit _ R1), E2, (hex2char_digit _ R2).
  destruct hex as [|x1 [|x2 hex]].
  - rewrite app_nil_r, store_oob by lia. done.
  - rewrite (store_app_r pre) by lia. cbn [mbind option_bind].
    rewrite store_oob by (rewrite length_app; cbn [length]; lia). done.
  - rewrite (store_app_r pre) by lia. cbn [mbind option_bind].
    rewrite (cons_middle _ pre), app_assoc.
    rewrite (store_app_r (pre ++ [_])) by (rewrite length_app; cbn; lia).
    cbn [mbind option_bind]. rewrite (cons_middle _ (pre ++ _)), app_assoc.
    apply IH; [done|rewrite !length_app; cbn; lia|cbn in Hl; lia].
Qed.

Lemma bin2hex_guard (buf hex : bytes) :
  (2 * length buf <= length hex + 1)%nat -> Z.of_nat (length hex) < 2 ^ 31 ->
  (u32 (Z.of_nat (length hex) + 1) <? u32 (Z.of_nat (length buf) * 2)) = false.
Proof.
  intros H1 H2. apply Z.ltb_ge. change (2 ^ 31) with 2147483648 in H2.
  rewrite !u32_id by (unfold is_u32; change (2 ^ 32) with 4294967296; lia). lia.
Qed.

(** [bin2hex] on a sufficient array stores the text and its NUL. *)
Lemma bin2hex_text buf hex :
  wf_bytes buf -> (2 * length buf + 1 <= length hex)%nat -> Z.of_nat (length hex) < 2 ^ 31 ->
  bin2hex buf hex =
  Some (2 * Z.of_nat (length buf), hex_text buf ++ 0 :: drop (2 * length buf + 1) hex).
Proof.
  intros Hw Hl Hm. unfold bin2hex. rewrite bin2hex_guard by lia.
  pose proof (bin2hex_loop_ok buf [] hex 0 Hw eq_refl ltac:(lia)) as L.
  cbn [app] in L. rewrite L. cbn [mbind option_bind].
  destruct (drop (2 * length buf) hex) as [|x rest] eqn:D.
  { apply (f_equal length) in D. rewrite length_drop in D. cbn in D. lia. }
  rewrite store_app_r by (rewrite length_hex_text; done). cbn [mbind option_bind].
  assert (rest = drop (2 * length buf + 1) hex) as ->.
  { rewrite <- drop_drop, D. done. }
  do 2 f_equal. apply u32_id. unfold is_u32.
  change (2 ^ 31) with 2147483648 in Hm. change (2 ^ 32) with 4294967296. lia.
Qed.

Lemma hex2bin_loop_text buf : forall (pre out : bytes) i,
  wf_bytes buf -> length pre = i -> (length buf <= length out)%nat ->
  hex2bin_loop (length buf) (hex_text buf) i (pre ++ out) =
  Some (true, pre ++ buf ++ drop (length buf) out).
Proof.
  induction buf as [|b buf IH]; intros pre out i Hw Hp Hl.
  - cbn. by rewrite drop_0.
  - apply wf_bytes_cons in Hw as [Hb Hw].
    destruct (nibbles b Hb) as (E1 & E2 & R1 & R2).
    destruct out as [|x out]; cbn [length] in Hl; [lia|].
    unfold hex_text. cbn [map concat length hex2bin_loop app].
    rewrite !char2hex_digit by done.
    rewrite (store_app_r pre) by lia. cbn [mbind option_bind].
    rewrite (store_app_r pre) by lia. cbn [mbind option_bind].
    assert (u8 (u8 (Z.shiftl (b / 16) 4) + b mod 16) = b) as ->.
    { rewrite Z.shiftl_mul_pow2 by lia. unfold u8, is_u8 in *.
      change (2 ^ 4) with 16. change (2 ^ 8) with 256 in *.
      Z.div_mod_to_equations. lia. }
    rewrite (cons_middle b pre), app_assoc.
    change (concat _) with (hex_text buf).
    rewrite IH; [|done|rewrite length_app; cbn; lia|lia].
    rewrite <- !app_assoc. done.
Qed.

(** Converting to text and back restores the bytes. *)
Lemma hex2bin_hex_text buf out :
  wf_bytes buf -> (length buf <= length out)%nat ->
  hex2bin (hex_text buf) out = Some (Z.of_nat (length buf), buf ++ drop (length buf) out).
Proof.
  intros Hw Hl. unfold hex2bin. rewrite length_hex_text.
  replace (Z.of_nat (2 * length buf)) with (Z.of_nat (length buf) * 2) by lia.
  rewrite Z.div_mul, Z.mod_mul, Z.add_0_r by lia. cbn [Z.eqb].
  rewrite (proj2 (Z.ltb_ge _ _)) by lia.
  rewrite Nat2Z.id.
  pose proof (hex2bin_loop_text buf [] out 0 Hw eq_refl Hl) as L. cbn [app] in L.
  rewrite L. done.
Qed.

Lemma cstr_hex_text buf (rest : bytes) :
  wf_bytes buf -> cstr (hex_text buf ++ 0 :: rest) = hex_text buf.
Proof.
  induction buf as [|b buf IH]; [done|]. intros Hw.
  apply wf_bytes_cons in Hw as [Hb Hw]. destruct (nibbles b Hb) as (_ & _ & R1 & R2).
  assert (forall x, 0 <= x < 16 -> (digit_char x =? 0) = false) as Hd.
  { intros x Hx. apply Z.eqb_neq. unfold digit_char, ch_0. destruct (x <? 10); lia. }
  unfold hex_text. cbn [map concat app cstr]. rewrite !Hd by done. do 2 f_equal. by apply IH.
Qed.

(** [bin2hex] into an array that holds the digits and their NUL returns the
    number of digits, and [hex2bin] of the text it wrote restores the bytes:
    printing a key or UUID and parsing it back is the identity. *)
Theorem bin2hex_roundtrip buf hex out :
  wf_bytes buf -> (2 * length buf + 1 <= length hex)%nat -> Z.of_nat (length hex) < 2 ^ 31 ->
  (length buf <= length out)%nat ->
  exists hex', bin2hex buf hex = Some (2 * Z.of_nat (length buf), hex') /\
    hex2bin (cstr hex') out = Some (Z.of_nat (length buf), buf ++ drop (length buf) out).
Proof.
  intros Hw Hl Hm Ho. eexists. split; [by apply bin2hex_text|].
  rewrite cstr_hex_text by done. by apply hex2bin_hex_text.
Qed.

Lemma bin2hex_roundtrip_witness :
  exists hex', bin2hex [187; 187] (replicate 9 0) = Some (4, hex') /\
    hex2bin (cstr hex') [0; 0] = Some (2, [187; 187]).
Proof.
  apply (bin2hex_roundtrip [187; 187] (replicate 9 0) [0; 0]); cbn; try lia.
  vm_compute. repeat constructor; discriminate.
Defined.

(** the size guard of [bin2hex] is two bytes too weak.  An array of
    [2 * buflen - 1] or [2 * buflen] bytes passes it, and the conversion then
    writes past the end of the array. *)
Theorem bin2hex_guard_overflow buf hex :
  wf_bytes buf -> (2 * length buf <= length hex + 1)%nat -> (length hex <= 2 * length buf)%nat ->
  Z.of_nat (length hex) < 2 ^ 31 -> bin2hex buf hex = None.
Proof.
  intros Hw H1 H2 Hm. unfold bin2hex. rewrite bin2hex_guard by lia.
  destruct (decide (length hex = 2 * length buf)%nat) as [E|E].
  - pose proof (bin2hex_loop_ok buf [] hex 0 Hw eq_refl ltac:(lia)) as L.
    cbn [app] in L. rewrite L. cbn [mbind option_bind].
    rewrite store_oob by (rewrite length_app, length_hex_text, length_drop; lia). done.
  - pose proof (bin2hex_loop_overrun buf [] hex 0 Hw eq_refl ltac:(lia)) as L.
    cbn [app] in L. by rewrite L.
Qed.

Lemma bin2hex_guard_overflow_witness : bin2hex [187; 187] (replicate 3 0) = None.
Proof.
  apply bin2hex_guard_overflow; cbn; try lia.
  vm_compute. repeat constructor; discriminate.
Defined.

(** [u8_to_dec] prints what [%d] prints: on every [uint8_t] value and buffer
    size it writes the decimal text and its NUL, cut to the buffer, and returns
    the number of digits written. *)
Theorem u8_to_dec_decimal buflen value :
  is_u8 buflen -> is_u8 value ->
  u8_to_dec buflen value =
  (Z.min buflen (Z.of_nat (length (fmt_d value))), take (Z.to_nat buflen) (fmt_d value ++ [0])).
Proof.
  intros Hb Hv.
  set (ok := fun b v => bool_decide (u8_to_dec b v =
    (Z.min b (Z.of_nat (length (fmt_d v))), take (Z.to_nat b) (fmt_d v ++ [0])))).
  assert (forallb (fun b => forallb (ok b) (seqZ 0 256)) (seqZ 0 256) = true) as A
    by (vm_compute; reflexivity).
  unfold is_u8 in *. change (2 ^ 8) with 256 in *.
  rewrite forallb_forall in A.
  specialize (A buflen ltac:(apply list_elem_of_In, elem_of_seqZ; lia)).
  rewrite forallb_forall in A.
  specialize (A value ltac:(apply list_elem_of_In, elem_of_seqZ; lia)).
  exact (bool_decide_eq_true_1 _ A).
Qed.

Lemma u8_to_dec_decimal_witness : u8_to_dec 4 207 = (3, [50; 48; 55; 0]).
Proof. rewrite (u8_to_dec_decimal 4 207) by (unfold is_u8; lia). reflexivity. Defined.
