(* ===== verification/MeshDefs.v ===== *)
(** * Addresses, key indexes and flag words of the mesh stack
    (include/bluetooth/mesh/access.h, subsys/bluetooth/mesh/mesh.h) *)

From S2P Require Import Prelude.

Definition BT_MESH_ADDR_UNASSIGNED : Z := 0.
Definition BT_MESH_ADDR_ALL_NODES : Z := 65535.
Definition BT_MESH_ADDR_PROXIES : Z := 65532.
Definition BT_MESH_ADDR_FRIENDS : Z := 65533.
Definition BT_MESH_ADDR_RELAYS : Z := 65534.

Definition BT_MESH_KEY_UNUSED : Z := 65535.
Definition BT_MESH_KEY_ANY : Z := 65535.
Definition BT_MESH_KEY_DEV_LOCAL : Z := 65534.
Definition BT_MESH_KEY_DEV_REMOTE : Z := 65533.
Definition BT_MESH_KEY_DEV_ANY : Z := 65532.
Definition BT_MESH_KEY_PRIMARY : Z := 0.

Definition BT_MESH_ADDR_IS_UNICAST (addr : Z) : bool := negb (addr =? 0) && (addr <? 32768).
Definition BT_MESH_ADDR_IS_GROUP (addr : Z) : bool := (49152 <=? addr) && (addr <=? 65280).
Definition BT_MESH_ADDR_IS_VIRTUAL (addr : Z) : bool := (32768 <=? addr) && (addr <? 49152).
Definition BT_MESH_ADDR_IS_RFU (addr : Z) : bool := (65280 <=? addr) && (addr <=? 65531).

(** Bits of a flag word. *)
Definition set_bit_to (w bit : Z) (v : bool) : Z := if v then Z.setbit w bit else Z.clearbit w bit.

Lemma unicast_iff a : BT_MESH_ADDR_IS_UNICAST a = true <-> a <> 0 /\ a < 32768.
Proof.
  unfold BT_MESH_ADDR_IS_UNICAST.
  rewrite andb_true_iff, negb_true_iff, Z.eqb_neq, Z.ltb_lt. done.
Qed.

Lemma unicast_false_iff a : BT_MESH_ADDR_IS_UNICAST a = false <-> a = 0 \/ 32768 <= a.
Proof.
  unfold BT_MESH_ADDR_IS_UNICAST.
  rewrite andb_false_iff, negb_false_iff, Z.eqb_eq, Z.ltb_ge. done.
Qed.
