(* ===== verification/Cdb.v ===== *)
(** * Configuration database of the provisioner (subsys/bluetooth/mesh/cdb.c)

    The database is three fixed arrays; a pointer into one of them is an index.
    Calls into the settings module, which schedule a write to flash, are recorded
    in [cdb_log] in order. *)

From S2P Require Import Prelude MeshDefs.

(** ** Data *)

Record bt_mesh_cdb_node := {
  node_uuid : bytes;
  node_addr : Z;
  node_net_idx : Z;
  node_num_elem : Z;
  node_dev_key : bytes;
  node_flags : Z;
}.

Record bt_mesh_cdb_subnet := {
  sub_net_idx : Z;
  sub_kr_flag : bool;
  sub_kr_phase : Z;
  sub_keys : list bytes;
}.

Record bt_mesh_cdb_app_key := {
  key_net_idx : Z;
  key_app_idx : Z;
  key_keys : list bytes;
}.

(** Calls into settings.c. *)
Inductive cdb_event :=
| StoreCdb
| StoreSubnet (i : nat)
| ClearSubnet (i : nat)
| StoreNode (i : nat)
| ClearNode (i : nat)
| StoreAppKey (i : nat)
| ClearAppKey (i : nat).

Record bt_mesh_cdb := {
  cdb_iv_index : Z;
  cdb_flags : Z;
  cdb_nodes : list bt_mesh_cdb_node;
  cdb_subnets : list bt_mesh_cdb_subnet;
  cdb_app_keys : list bt_mesh_cdb_app_key;
  cdb_log : list cdb_event;
}.

Definition BT_MESH_CDB_VALID : Z := 0.
Definition BT_MESH_CDB_IVU_IN_PROGRESS : Z := 4.
Definition BT_MESH_CDB_NODE_CONFIGURED : Z := 0.
Definition BT_MESH_NET_FLAG_KR : Z := 1.
Definition BT_MESH_NET_FLAG_IVU : Z := 2.

(** Field updates. *)
Definition with_nodes (f : list bt_mesh_cdb_node -> list bt_mesh_cdb_node) (c : bt_mesh_cdb) :=
  {| cdb_iv_index := cdb_iv_index c; cdb_flags := cdb_flags c; cdb_nodes := f (cdb_nodes c);
     cdb_subnets := cdb_subnets c; cdb_app_keys := cdb_app_keys c; cdb_log := cdb_log c |}.
Definition with_subnets (f : list bt_mesh_cdb_subnet -> list bt_mesh_cdb_subnet) (c : bt_mesh_cdb) :=
  {| cdb_iv_index := cdb_iv_index c; cdb_flags := cdb_flags c; cdb_nodes := cdb_nodes c;
     cdb_subnets := f (cdb_subnets c); cdb_app_keys := cdb_app_keys c; cdb_log := cdb_log c |}.
Definition with_app_keys (f : list bt_mesh_cdb_app_key -> list bt_mesh_cdb_app_key) (c : bt_mesh_cdb) :=
  {| cdb_iv_index := cdb_iv_index c; cdb_flags := cdb_flags c; cdb_nodes := cdb_nodes c;
     cdb_subnets := cdb_subnets c; cdb_app_keys := f (cdb_app_keys c); cdb_log := cdb_log c |}.
Definition with_flags (f : Z -> Z) (c : bt_mesh_cdb) :=
  {| cdb_iv_index := cdb_iv_index c; cdb_flags := f (cdb_flags c); cdb_nodes := cdb_nodes c;
     cdb_subnets := cdb_subnets c; cdb_app_keys := cdb_app_keys c; cdb_log := cdb_log c |}.
Definition with_iv_index (iv : Z) (c : bt_mesh_cdb) :=
  {| cdb_iv_index := iv; cdb_flags := cdb_flags c; cdb_nodes := cdb_nodes c;
     cdb_subnets := cdb_subnets c; cdb_app_keys := cdb_app_keys c; cdb_log := cdb_log c |}.
Definition log (e : cdb_event) (c : bt_mesh_cdb) :=
  {| cdb_iv_index := cdb_iv_index c; cdb_flags := cdb_flags c; cdb_nodes := cdb_nodes c;
     cdb_subnets := cdb_subnets c; cdb_app_keys := cdb_app_keys c;
     cdb_log := cdb_log c ++ [e] |}.

Definition zero16 : bytes := replicate 16 0.

Definition empty_node : bt_mesh_cdb_node :=
  {| node_uuid := zero16; node_addr := BT_MESH_ADDR_UNASSIGNED; node_net_idx := 0;
     node_num_elem := 0; node_dev_key := zero16; node_flags := 0 |}.
Definition empty_subnet : bt_mesh_cdb_subnet :=
  {| sub_net_idx := BT_MESH_KEY_UNUSED; sub_kr_flag := false; sub_kr_phase := 0;
     sub_keys := [zero16; zero16] |}.
Definition empty_app_key : bt_mesh_cdb_app_key :=
  {| key_net_idx := BT_MESH_KEY_UNUSED; key_app_idx := 0; key_keys := [zero16; zero16] |}.

(** The static initialiser, for the three configured array sizes. *)
Definition bt_mesh_cdb_init (node_count subnet_count app_key_count : nat) : bt_mesh_cdb :=
  {| cdb_iv_index := 0; cdb_flags := 0;
     cdb_nodes := replicate node_count empty_node;
     cdb_subnets := replicate subnet_count empty_subnet;
     cdb_app_keys := replicate app_key_count empty_app_key;
     cdb_log := [] |}.

(** ** Address allocation *)

(** Result of [addr_is_free]: 0, -EINVAL, or -EAGAIN with [*next]. *)
Inductive free_result :=
| AddrFree
| AddrInval
| AddrAgain (next : Z).

Definition node_used (n : bt_mesh_cdb_node) : bool :=
  negb (node_addr n =? BT_MESH_ADDR_UNASSIGNED).
Definition node_end (n : bt_mesh_cdb_node) : Z := u16 (node_addr n + node_num_elem n - 1).

Fixpoint addr_is_free_loop (nodes : list bt_mesh_cdb_node) (addr_start addr_end : Z) : free_result :=
  match nodes with
  | [] => AddrFree
  | node :: nodes' =>
      if node_addr node =? BT_MESH_ADDR_UNASSIGNED then
        addr_is_free_loop nodes' addr_start addr_end
      else
        let other_start := node_addr node in
        let other_end := u16 (other_start + node_num_elem node - 1) in
        if negb ((addr_end <? other_start) || (other_end <? addr_start))
        then AddrAgain (u16 (other_end + 1))
        else addr_is_free_loop nodes' addr_start addr_end
  end.

Definition addr_is_free (c : bt_mesh_cdb) (addr_start num_elem : Z) : free_result :=
  let addr_end := u16 (addr_start + num_elem - 1) in
  if negb (BT_MESH_ADDR_IS_UNICAST addr_start) || negb (BT_MESH_ADDR_IS_UNICAST addr_end)
     || (num_elem =? 0)
  then AddrInval
  else addr_is_free_loop (cdb_nodes c) addr_start addr_end.

Fixpoint find_lowest_free_addr_loop (iters : nat) (c : bt_mesh_cdb) (num_elem addr : Z) : Z :=
  match iters with
  | O => addr
  | S i =>
      match addr_is_free c addr num_elem with
      | AddrFree => addr
      | AddrInval => BT_MESH_ADDR_UNASSIGNED
      | AddrAgain next => find_lowest_free_addr_loop i c num_elem next
      end
  end.

Definition find_lowest_free_addr (c : bt_mesh_cdb) (num_elem : Z) : Z :=
  find_lowest_free_addr_loop (length (cdb_nodes c) + 2) c num_elem 1.

(** ** Nodes *)

Definition bt_mesh_cdb_node_alloc (uuid : bytes) (addr num_elem net_idx : Z) (c : bt_mesh_cdb)
    : option nat * bt_mesh_cdb :=
  let place a :=
    match find_index (fun n => node_addr n =? BT_MESH_ADDR_UNASSIGNED) (cdb_nodes c) with
    | None => (None, c)
    | Some i =>
        (Some i, with_nodes (alter (fun n =>
           {| node_uuid := uuid; node_addr := a; node_net_idx := net_idx;
              node_num_elem := num_elem; node_dev_key := node_dev_key n;
              node_flags := 0 |}) i) c)
    end in
  if addr =? BT_MESH_ADDR_UNASSIGNED then
    let a := find_lowest_free_addr c num_elem in
    if a =? BT_MESH_ADDR_UNASSIGNED then (None, c) else place a
  else
    match addr_is_free c addr num_elem with
    | AddrFree => place addr
    | _ => (None, c)
    end.

Definition bt_mesh_cdb_node_del (i : nat) (store : bool) (c : bt_mesh_cdb) : bt_mesh_cdb :=
  let c := if store then log (ClearNode i) c else c in
  with_nodes (alter (fun n =>
    {| node_uuid := node_uuid n; node_addr := BT_MESH_ADDR_UNASSIGNED;
       node_net_idx := node_net_idx n; node_num_elem := node_num_elem n;
       node_dev_key := zero16; node_flags := node_flags n |}) i) c.

(** [addr <= node->addr + node->num_elem - 1] is an [int] comparison. *)
Definition bt_mesh_cdb_node_get (addr : Z) (c : bt_mesh_cdb) : option nat :=
  find_index (fun n => (node_addr n <=? addr) && (addr <=? node_addr n + node_num_elem n - 1))
    (cdb_nodes c).

Definition bt_mesh_cdb_node_store (i : nat) (c : bt_mesh_cdb) : bt_mesh_cdb := log (StoreNode i) c.

(** [bt_mesh_cdb_node_foreach]: the callback runs on every assigned node, in
    array order, and returns [false] for BT_MESH_CDB_ITER_STOP.  The world [W]
    gives access to the database, which the callback may change. *)
Fixpoint node_foreach_loop {W : Type} (get : W -> bt_mesh_cdb)
    (func : nat -> ST W bool) (n i : nat) : ST W unit :=
  match n with
  | O => mret tt
  | S n' => fun w =>
      match cdb_nodes (get w) !! i with
      | None => None
      | Some node =>
          if node_addr node =? BT_MESH_ADDR_UNASSIGNED
          then node_foreach_loop get func n' (S i) w
          else (func i ≫= fun cont =>
                  if cont : bool then node_foreach_loop get func n' (S i) else mret tt) w
      end
  end.

Definition bt_mesh_cdb_node_foreach {W : Type} (get : W -> bt_mesh_cdb)
    (func : nat -> ST W bool) : ST W unit :=
  fun w => node_foreach_loop get func (length (cdb_nodes (get w))) 0 w.

(** ** Subnets and application keys *)

Definition bt_mesh_cdb_subnet_get (net_idx : Z) (c : bt_mesh_cdb) : option nat :=
  find_index (fun s => sub_net_idx s =? net_idx) (cdb_subnets c).

Definition bt_mesh_cdb_subnet_alloc (net_idx : Z) (c : bt_mesh_cdb) : option nat * bt_mesh_cdb :=
  match bt_mesh_cdb_subnet_get net_idx c with
  | Some _ => (None, c)
  | None =>
      match find_index (fun s => sub_net_idx s =? BT_MESH_KEY_UNUSED) (cdb_subnets c) with
      | None => (None, c)
      | Some i =>
          (Some i, with_subnets (alter (fun s =>
             {| sub_net_idx := net_idx; sub_kr_flag := sub_kr_flag s;
                sub_kr_phase := sub_kr_phase s; sub_keys := sub_keys s |}) i) c)
      end
  end.

Definition bt_mesh_cdb_subnet_del (i : nat) (store : bool) (c : bt_mesh_cdb) : bt_mesh_cdb :=
  let c := if store then log (ClearSubnet i) c else c in
  with_subnets (alter (fun s =>
    {| sub_net_idx := BT_MESH_KEY_UNUSED; sub_kr_flag := sub_kr_flag s;
       sub_kr_phase := sub_kr_phase s; sub_keys := [zero16; zero16] |}) i) c.

Definition bt_mesh_cdb_subnet_store (i : nat) (c : bt_mesh_cdb) : bt_mesh_cdb := log (StoreSubnet i) c.

Definition bt_mesh_cdb_subnet_flags (sub : option bt_mesh_cdb_subnet) (c : bt_mesh_cdb) : Z :=
  let flags := match sub with
               | Some s => if sub_kr_flag s then BT_MESH_NET_FLAG_KR else 0
               | None => 0
               end in
  if Z.testbit (cdb_flags c) BT_MESH_CDB_IVU_IN_PROGRESS
  then Z.lor flags BT_MESH_NET_FLAG_IVU else flags.

Definition bt_mesh_cdb_app_key_alloc (net_idx app_idx : Z) (c : bt_mesh_cdb) : option nat * bt_mesh_cdb :=
  match find_index (fun k => key_net_idx k =? BT_MESH_KEY_UNUSED) (cdb_app_keys c) with
  | None => (None, c)
  | Some i =>
      (Some i, with_app_keys (alter (fun k =>
         {| key_net_idx := net_idx; key_app_idx := app_idx; key_keys := key_keys k |}) i) c)
  end.

(** The slot is marked with BT_MESH_ADDR_UNASSIGNED, as the source writes it. *)
Definition bt_mesh_cdb_app_key_del (i : nat) (store : bool) (c : bt_mesh_cdb) : bt_mesh_cdb :=
  let c := if store then log (ClearAppKey i) c else c in
  with_app_keys (alter (fun k =>
    {| key_net_idx := BT_MESH_ADDR_UNASSIGNED; key_app_idx := key_app_idx k;
       key_keys := [zero16; zero16] |}) i) c.

Definition bt_mesh_cdb_app_key_get (app_idx : Z) (c : bt_mesh_cdb) : option nat :=
  find_index (fun k => negb (key_net_idx k =? BT_MESH_KEY_UNUSED) && (key_app_idx k =? app_idx))
    (cdb_app_keys c).

Definition bt_mesh_cdb_app_key_store (i : nat) (c : bt_mesh_cdb) : bt_mesh_cdb := log (StoreAppKey i) c.

(** ** The database as a whole *)

Definition bt_mesh_cdb_create (key : bytes) (c : bt_mesh_cdb) : ret_code * bt_mesh_cdb :=
  if Z.testbit (cdb_flags c) BT_MESH_CDB_VALID then (Some EALREADY, c)
  else
    let c := with_flags (fun f => Z.setbit f BT_MESH_CDB_VALID) c in
    let (sub, c) := bt_mesh_cdb_subnet_alloc BT_MESH_KEY_PRIMARY c in
    match sub with
    | None => (Some ENOMEM, c)
    | Some i =>
        let c := with_subnets (alter (fun s =>
          {| sub_net_idx := sub_net_idx s; sub_kr_flag := sub_kr_flag s;
             sub_kr_phase := sub_kr_phase s; sub_keys := <[0%nat := key]> (sub_keys s) |}) i) c in
        (None, log (StoreSubnet i) (log StoreCdb (with_iv_index 0 c)))
    end.

(** [for (i = 0; i < n; ++i) if (used i) del i] *)
Fixpoint clear_loop {A : Type} (used : A -> bool) (arr : bt_mesh_cdb -> list A)
    (del : nat -> bt_mesh_cdb -> bt_mesh_cdb) (n i : nat) (c : bt_mesh_cdb) : bt_mesh_cdb :=
  match n with
  | O => c
  | S n' =>
      clear_loop used arr del n' (S i)
        (match arr c !! i with Some a => if used a then del i c else c | None => c end)
  end.

Definition bt_mesh_cdb_clear (c : bt_mesh_cdb) : bt_mesh_cdb :=
  let c := with_flags (fun f => Z.clearbit f BT_MESH_CDB_VALID) c in
  let c := clear_loop node_used cdb_nodes (fun i => bt_mesh_cdb_node_del i true)
             (length (cdb_nodes c)) 0 c in
  let c := clear_loop (fun s => negb (sub_net_idx s =? BT_MESH_KEY_UNUSED)) cdb_subnets
             (fun i => bt_mesh_cdb_subnet_del i true) (length (cdb_subnets c)) 0 c in
  let c := clear_loop (fun k => negb (key_net_idx k =? BT_MESH_KEY_UNUSED)) cdb_app_keys
             (fun i => bt_mesh_cdb_app_key_del i true) (length (cdb_app_keys c)) 0 c in
  log StoreCdb c.

Definition bt_mesh_cdb_iv_update (iv_index : Z) (iv_update : bool) (c : bt_mesh_cdb) : bt_mesh_cdb :=
  log StoreCdb (with_flags (fun f => set_bit_to f BT_MESH_CDB_IVU_IN_PROGRESS iv_update)
                  (with_iv_index iv_index c)).

(** ** Invariant: assigned nodes own disjoint ranges of unicast addresses *)

Definition node_ok (n : bt_mesh_cdb_node) : Prop :=
  node_used n = true ->
  1 <= node_addr n /\ 1 <= node_num_elem n /\ node_addr n + node_num_elem n - 1 < 32768.

(** No assigned node of [nodes] owns an address of [a, a + k - 1]. *)
Definition range_free (nodes : list bt_mesh_cdb_node) (a k : Z) : Prop :=
  forall n, n ∈ nodes -> node_used n = true ->
  a + k - 1 < node_addr n \/ node_addr n + node_num_elem n - 1 < a.

Definition disjoint_nodes (n m : bt_mesh_cdb_node) : Prop :=
  node_used n = true -> node_used m = true ->
  node_addr n + node_num_elem n - 1 < node_addr m \/
  node_addr m + node_num_elem m - 1 < node_addr n.

Definition cdb_wf (c : bt_mesh_cdb) : Prop :=
  Forall node_ok (cdb_nodes c) /\
  forall i j n m, i <> j -> cdb_nodes c !! i = Some n -> cdb_nodes c !! j = Some m ->
    disjoint_nodes n m.

Lemma node_used_true n : node_used n = true <-> node_addr n <> 0.
Proof. unfold node_used, BT_MESH_ADDR_UNASSIGNED. rewrite negb_true_iff. apply Z.eqb_neq. Qed.

Lemma node_ok_end n : node_ok n -> node_used n = true ->
  u16 (node_addr n + node_num_elem n - 1) = node_addr n + node_num_elem n - 1 /\
  u16 (u16 (node_addr n + node_num_elem n - 1) + 1) = node_addr n + node_num_elem n.
Proof.
  intros Hn Hu. destruct (Hn Hu) as (H1 & H2 & H3).
  rewrite (u16_id (node_addr n + node_num_elem n - 1)) by (unfold is_u16; lia).
  split; [done|]. rewrite u16_id by (unfold is_u16; lia). lia.
Qed.

(** What the scan over the nodes decides. *)
Lemma addr_is_free_loop_spec nodes a e :
  Forall node_ok nodes ->
  match addr_is_free_loop nodes a e with
  | AddrFree => range_free nodes a (e - a + 1)
  | AddrInval => False
  | AddrAgain next =>
      exists n, n ∈ nodes /\ node_used n = true /\
        node_addr n <= e /\ a <= node_addr n + node_num_elem n - 1 /\
        next = node_addr n + node_num_elem n
  end.
Proof.
  induction nodes as [|n nodes IH]; intros Hok; cbn [addr_is_free_loop].
  - intros n Hn. by apply not_elem_of_nil in Hn.
  - apply Forall_cons_iff in Hok as [Hn Hok]. specialize (IH Hok).
    assert (Hrest : forall r, match r with
      | AddrFree => range_free nodes a (e - a + 1) | AddrInval => False
      | AddrAgain next => exists n0, n0 ∈ nodes /\ node_used n0 = true /\
          node_addr n0 <= e /\ a <= node_addr n0 + node_num_elem n0 - 1 /\
          next = node_addr n0 + node_num_elem n0 end ->
      (node_used n = true -> e < node_addr n \/ node_addr n + node_num_elem n - 1 < a) ->
      match r with
      | AddrFree => range_free (n :: nodes) a (e - a + 1) | AddrInval => False
      | AddrAgain next => exists n0, n0 ∈ n :: nodes /\ node_used n0 = true /\
          node_addr n0 <= e /\ a <= node_addr n0 + node_num_elem n0 - 1 /\
          next = node_addr n0 + node_num_elem n0 end).
    { intros [| |next] H Hd; [|done|].
      - intros m [->|Hm]%elem_of_cons Hu; [|by apply H].
        destruct (Hd Hu); [left|right]; lia.
      - destruct H as (m & Hm & ?). exists m. split; [by right|done]. }
    destruct (Z.eqb_spec (node_addr n) BT_MESH_ADDR_UNASSIGNED) as [E|E].
    + apply Hrest; [done|]. intros Hu. by apply node_used_true in Hu.
    + assert (Hu : node_used n = true) by by apply node_used_true.
      destruct (node_ok_end n Hn Hu) as [E1 E2]. rewrite E2, E1.
      destruct (negb _) eqn:C.
      * zbool. exists n. repeat split; [by left|done|lia..].
      * zbool. apply Hrest; [done|]. intros _.
        apply orb_true_iff in C as [C|C]; zbool; lia.
Qed.

Lemma addr_is_free_spec c a k :
  Forall node_ok (cdb_nodes c) -> is_u16 a -> 0 <= k <= 255 ->
  match addr_is_free c a k with
  | AddrFree => 1 <= a /\ 1 <= k /\ a + k - 1 < 32768 /\ range_free (cdb_nodes c) a k
  | AddrInval => a = 0 \/ k = 0 \/ 32768 <= a + k - 1
  | AddrAgain next =>
      1 <= a /\ 1 <= k /\ a + k - 1 < 32768 /\
      exists n, n ∈ cdb_nodes c /\ node_used n = true /\
        node_addr n <= a + k - 1 /\ a <= node_addr n + node_num_elem n - 1 /\
        next = node_addr n + node_num_elem n
  end.
Proof.
  intros Hok Ha Hk. unfold is_u16 in Ha. change (2 ^ 16) with 65536 in Ha.
  unfold addr_is_free. destruct (_ || _ || _) eqn:G.
  - destruct (decide (a = 0)); [by left|]. destruct (decide (k = 0)); [by right; left|].
    right; right. rewrite !orb_true_iff, !negb_true_iff, !unicast_false_iff in G.
    destruct G as [[[G|G]|G]|G]; [lia|lia| |by apply Z.eqb_eq in G].
    unfold u16 in G. change (2 ^ 16) with 65536 in G.
    destruct (decide (a + k - 1 < 65536)); [rewrite Z.mod_small in G; lia|lia].
  - zbool. apply unicast_iff in H as [H H'].
    assert (Hend : u16 (a + k - 1) = a + k - 1) by (apply u16_id; unfold is_u16; lia).
    rewrite Hend in *. apply unicast_iff in H1 as [H1 H1'].
    pose proof (addr_is_free_loop_spec (cdb_nodes c) a (a + k - 1) Hok) as L.
    destruct (addr_is_free_loop _ _ _) as [| |next]; [|done|].
    + replace (a + k - 1 - a + 1) with k in L by lia. repeat split; try lia. done.
    + repeat split; try lia. done.
Qed.

(** ** The allocator finds the lowest free range *)

(** [addr_is_free] succeeds exactly on these start addresses. *)
Definition free_range (c : bt_mesh_cdb) (a k : Z) : Prop :=
  1 <= a /\ 1 <= k /\ a + k - 1 < 32768 /\ range_free (cdb_nodes c) a k.

Lemma addr_is_free_iff c a k :
  Forall node_ok (cdb_nodes c) -> is_u16 a -> 0 <= k <= 255 ->
  addr_is_free c a k = AddrFree <-> free_range c a k.
Proof.
  intros Hok Ha Hk. pose proof (addr_is_free_spec c a k Hok Ha Hk) as S.
  destruct (addr_is_free c a k) as [| |next]; split; try done.
  - intros (? & ? & ? & ?). lia.
  - intros (_ & _ & _ & R). destruct S as (_ & _ & _ & n & Hn & Hu & ? & ? & _).
    destruct (R n Hn Hu); lia.
Qed.

(** Nodes that can still be met by a scan from address [a]. *)
Definition ahead (a : Z) (n : bt_mesh_cdb_node) : bool :=
  node_used n && (a <=? node_addr n + node_num_elem n - 1).

Lemma find_lowest_loop_spec c k : Forall node_ok (cdb_nodes c) -> 0 <= k <= 255 ->
  forall iters a, 1 <= a <= 32768 -> (countb (ahead a) (cdb_nodes c) < iters)%nat ->
  (forall a', a' < a -> ~ free_range c a' k) ->
  let r := find_lowest_free_addr_loop iters c k a in
  (r = 0 /\ forall a', ~ free_range c a' k) \/
  (free_range c r k /\ forall a', a' < r -> ~ free_range c a' k).
Proof.
  intros Hok Hk iters. induction iters as [|i IH]; intros a Ha Hc Hlow; [lia|].
  cbn [find_lowest_free_addr_loop].
  pose proof (addr_is_free_spec c a k Hok ltac:(unfold is_u16; lia) Hk) as S.
  destruct (addr_is_free c a k) as [| |next]; cbv zeta.
  - right. by split.
  - left. split; [done|]. intros a' Hf.
    destruct (Z.lt_ge_cases a' a) as [L|L]; [by apply (Hlow a')|].
    destruct Hf as (? & ? & ? & _). lia.
  - destruct S as (_ & _ & _ & n & Hn & Hu & H1 & H2 & ->).
    pose proof (Forall_elem _ _ _ Hok Hn Hu) as (? & ? & ?).
    apply IH; [lia| |].
    + enough (countb (ahead (node_addr n + node_num_elem n)) (cdb_nodes c) <
              countb (ahead a) (cdb_nodes c))%nat by lia.
      apply (countb_lt _ _ _ n); [|done| |].
      * intros m. unfold ahead. intros M. zbool. rewrite H4. cbn [andb].
        apply Z.leb_le. lia.
      * unfold ahead. rewrite Hu. cbn [andb]. apply Z.leb_le. lia.
      * unfold ahead. rewrite Hu. cbn [andb]. apply Z.leb_gt. lia.
    + intros a' L Hf. destruct (Z.lt_ge_cases a' a) as [L'|L']; [by apply (Hlow a')|].
      destruct Hf as (_ & _ & _ & R). destruct (R n Hn Hu); lia.
Qed.

(** [find_lowest_free_addr] returns the lowest start address whose whole
    range of elements is free, and BT_MESH_ADDR_UNASSIGNED exactly when no range
    is free.  The bound of node count + 2 rounds of its loop is always enough. *)
Theorem find_lowest_free_addr_lowest c k :
  cdb_wf c -> 0 <= k <= 255 ->
  let r := find_lowest_free_addr c k in
  (r = BT_MESH_ADDR_UNASSIGNED /\ forall a, is_u16 a -> addr_is_free c a k <> AddrFree) \/
  (addr_is_free c r k = AddrFree /\ forall a, 0 <= a < r -> addr_is_free c a k <> AddrFree).
Proof.
  intros [Hok _] Hk. cbv zeta. unfold find_lowest_free_addr.
  destruct (find_lowest_loop_spec c k Hok Hk (length (cdb_nodes c) + 2) 1) as [[E H]|[E H]].
  - lia.
  - pose proof (countb_le_length (ahead 1) (cdb_nodes c)). lia.
  - intros a' L (? & _). lia.
  - left. split; [exact E|]. intros a Ha. rewrite addr_is_free_iff by done. apply H.
  - right. pose proof E as (? & ? & ? & _). split.
    + apply addr_is_free_iff; [done|unfold is_u16; lia|done|done].
    + intros a Ha. rewrite addr_is_free_iff; [apply H; lia|done|unfold is_u16; lia|done].
Qed.

(** ** Preservation of the invariant *)

Lemma cdb_wf_nodes c c' : cdb_nodes c' = cdb_nodes c -> cdb_wf c -> cdb_wf c'.
Proof. intros E [H1 H2]. unfold cdb_wf. rewrite E. done. Qed.

Lemma cdb_wf_init n s a : cdb_wf (bt_mesh_cdb_init n s a).
Proof.
  assert (U : node_used empty_node = false) by reflexivity. split; cbn.
  - apply Forall_replicate. intros Hu. congruence.
  - intros i j x y _ Hx Hy Hu. apply lookup_replicate in Hx as [-> _]. congruence.
Qed.

(** Unassigning nodes keeps the invariant. *)
Lemma cdb_wf_alter_free c i f :
  (forall n, node_used (f n) = false) -> cdb_wf c -> cdb_wf (with_nodes (alter f i) c).
Proof.
  intros Hf [H1 H2]. split; cbn.
  - apply Forall_alter; [done|]. intros n _ _ Hu. congruence.
  - intros j k n m Hjk Hn Hm Hun Hum.
    assert (Hback : forall l x, alter f i (cdb_nodes c) !! l = Some x -> node_used x = true ->
              cdb_nodes c !! l = Some x).
    { intros l x Hx Hu. destruct (decide (i = l)) as [->|Hil].
      - rewrite list_lookup_alter_eq in Hx. apply fmap_Some in Hx as (y & _ & ->). congruence.
      - by rewrite list_lookup_alter_ne in Hx. }
    apply (H2 j k); auto.
Qed.

Lemma cdb_wf_node_del i store c : cdb_wf c -> cdb_wf (bt_mesh_cdb_node_del i store c).
Proof.
  intros H. unfold bt_mesh_cdb_node_del.
  apply cdb_wf_alter_free; [done|]. destruct store; [|done]. by apply (cdb_wf_nodes c).
Qed.

(** The node a successful allocation writes. *)
Definition fresh_node (uuid : bytes) (a num_elem net_idx : Z) (n : bt_mesh_cdb_node) :=
  {| node_uuid := uuid; node_addr := a; node_net_idx := net_idx; node_num_elem := num_elem;
     node_dev_key := node_dev_key n; node_flags := 0 |}.

(** The start address [bt_mesh_cdb_node_alloc] settles on, if any. *)
Definition alloc_addr (c : bt_mesh_cdb) (addr k : Z) : option Z :=
  if addr =? BT_MESH_ADDR_UNASSIGNED then
    let a := find_lowest_free_addr c k in
    if a =? BT_MESH_ADDR_UNASSIGNED then None else Some a
  else match addr_is_free c addr k with AddrFree => Some addr | _ => None end.

Lemma alloc_addr_free c addr k a :
  cdb_wf c -> is_u16 addr -> 0 <= k <= 255 -> alloc_addr c addr k = Some a -> free_range c a k.
Proof.
  intros [Hok _] Ha Hk. unfold alloc_addr.
  destruct (Z.eqb_spec addr BT_MESH_ADDR_UNASSIGNED).
  - unfold find_lowest_free_addr.
    destruct (find_lowest_loop_spec c k Hok Hk (length (cdb_nodes c) + 2) 1) as [[E _]|[E _]].
    + lia.
    + pose proof (countb_le_length (ahead 1) (cdb_nodes c)). lia.
    + intros a' L (? & _). lia.
    + rewrite E. done.
    + cbv zeta. destruct (find_lowest_free_addr_loop _ _ _ _ =? _); [done|]. by intros [= <-].
  - destruct (addr_is_free c addr k) eqn:E; try done. intros [= <-].
    by apply addr_is_free_iff in E.
Qed.

Lemma node_alloc_unfold uuid addr k net c :
  bt_mesh_cdb_node_alloc uuid addr k net c =
  match alloc_addr c addr k with
  | None => (None, c)
  | Some a =>
      match find_index (fun n => node_addr n =? BT_MESH_ADDR_UNASSIGNED) (cdb_nodes c) with
      | None => (None, c)
      | Some i => (Some i, with_nodes (alter (fresh_node uuid a k net) i) c)
      end
  end.
Proof.
  unfold bt_mesh_cdb_node_alloc, alloc_addr, fresh_node.
  destruct (addr =? _); [by destruct (_ =? BT_MESH_ADDR_UNASSIGNED)|].
  by destruct (addr_is_free c addr k).
Qed.

Lemma cdb_wf_node_alloc uuid addr k net c :
  cdb_wf c -> is_u16 addr -> 0 <= k <= 255 ->
  cdb_wf (bt_mesh_cdb_node_alloc uuid addr k net c).2.
Proof.
  intros Hwf Ha Hk. rewrite node_alloc_unfold.
  destruct (alloc_addr c addr k) as [a|] eqn:EA; [|done].
  destruct (find_index _ _) as [i|] eqn:EF; [|done]. cbn [snd].
  pose proof (alloc_addr_free c addr k a Hwf Ha Hk EA) as (P1 & P2 & P3 & PF).
  destruct Hwf as [H1 H2]. split; cbn.
  - apply Forall_alter; [done|]. intros n _ _ _. cbn. lia.
  - assert (Hside : forall j n m, i <> j -> cdb_nodes c !! j = Some m ->
        disjoint_nodes (fresh_node uuid a k net n) m).
    { intros j n m _ Hm _ Hu. cbn. apply list_elem_of_lookup_2 in Hm. by apply PF. }
    intros j l n m Hjl Hn Hm.
    destruct (decide (i = j)) as [<-|Hij]; [|destruct (decide (i = l)) as [<-|Hil]].
    + rewrite list_lookup_alter_eq in Hn. apply fmap_Some in Hn as (n0 & _ & ->).
      rewrite list_lookup_alter_ne in Hm by done. by apply (Hside l).
    + rewrite list_lookup_alter_eq in Hm. apply fmap_Some in Hm as (m0 & _ & ->).
      rewrite list_lookup_alter_ne in Hn by done.
      intros U1 U2. destruct (Hside j m0 n Hij Hn U2 U1); [by right|by left].
    + rewrite list_lookup_alter_ne in Hn, Hm by done. by apply (H2 j l).
Qed.

Lemma cdb_wf_clear_loop {A : Type} (used : A -> bool) arr del :
  (forall i c, cdb_wf c -> cdb_wf (del i c)) ->
  forall n i c, cdb_wf c -> cdb_wf (clear_loop used arr del n i c).
Proof.
  intros Hd n. induction n as [|n IH]; intros i c H; cbn; [done|].
  apply IH. destruct (arr c !! i) as [x|]; [|done]. destruct (used x); [by apply Hd|done].
Qed.

Lemma subnet_alloc_nodes idx c :
  cdb_nodes (bt_mesh_cdb_subnet_alloc idx c).2 = cdb_nodes c.
Proof.
  unfold bt_mesh_cdb_subnet_alloc.
  destruct (bt_mesh_cdb_subnet_get idx c); [done|]. by destruct (find_index _ _).
Qed.

Lemma cdb_wf_clear c : cdb_wf c -> cdb_wf (bt_mesh_cdb_clear c).
Proof.
  intros H. unfold bt_mesh_cdb_clear.
  eapply cdb_wf_nodes; [reflexivity|].
  apply cdb_wf_clear_loop; [intros i [] ?; by eapply cdb_wf_nodes|].
  apply cdb_wf_clear_loop; [intros i [] ?; by eapply cdb_wf_nodes|].
  apply cdb_wf_clear_loop; [intros; by apply cdb_wf_node_del|].
  by apply (cdb_wf_nodes c).
Qed.

Lemma cdb_wf_create key c : cdb_wf c -> cdb_wf (bt_mesh_cdb_create key c).2.
Proof.
  intros H. unfold bt_mesh_cdb_create. destruct (Z.testbit _ _); [done|].
  pose proof (subnet_alloc_nodes BT_MESH_KEY_PRIMARY
                (with_flags (fun f => Z.setbit f BT_MESH_CDB_VALID) c)) as E.
  destruct (bt_mesh_cdb_subnet_alloc _ _) as [[i|] c'];
    cbn [snd fst] in *; by apply (cdb_wf_nodes c).
Qed.

(** ** The database as a transition system *)

Inductive cdb_step : bt_mesh_cdb -> bt_mesh_cdb -> Prop :=
| StepCreate key c : cdb_step c (bt_mesh_cdb_create key c).2
| StepClear c : cdb_step c (bt_mesh_cdb_clear c)
| StepIvUpdate iv upd c : cdb_step c (bt_mesh_cdb_iv_update iv upd c)
| StepSubnetAlloc idx c : cdb_step c (bt_mesh_cdb_subnet_alloc idx c).2
| StepSubnetDel i store c : cdb_step c (bt_mesh_cdb_subnet_del i store c)
| StepSubnetStore i c : cdb_step c (bt_mesh_cdb_subnet_store i c)
| StepNodeAlloc uuid addr k net c :
    is_u16 addr -> is_u8 k -> cdb_step c (bt_mesh_cdb_node_alloc uuid addr k net c).2
| StepNodeDel i store c : cdb_step c (bt_mesh_cdb_node_del i store c)
| StepNodeStore i c : cdb_step c (bt_mesh_cdb_node_store i c)
| StepAppKeyAlloc net app c : cdb_step c (bt_mesh_cdb_app_key_alloc net app c).2
| StepAppKeyDel i store c : cdb_step c (bt_mesh_cdb_app_key_del i store c)
| StepAppKeyStore i c : cdb_step c (bt_mesh_cdb_app_key_store i c).

(** Databases reachable from the static initialiser. *)
Inductive cdb_reachable (n s a : nat) : bt_mesh_cdb -> Prop :=
| ReachInit : cdb_reachable n s a (bt_mesh_cdb_init n s a)
| ReachStep c c' : cdb_reachable n s a c -> cdb_step c c' -> cdb_reachable n s a c'.

Lemma cdb_step_wf c c' : cdb_step c c' -> cdb_wf c -> cdb_wf c'.
Proof.
  intros S Hc. destruct S.
  - by apply cdb_wf_create.
  - by apply cdb_wf_clear.
  - by eapply cdb_wf_nodes.
  - eapply cdb_wf_nodes; [apply subnet_alloc_nodes|done].
  - destruct store; by eapply cdb_wf_nodes.
  - by eapply cdb_wf_nodes.
  - apply cdb_wf_node_alloc; [done|done|]. unfold is_u8 in *. lia.
  - by apply cdb_wf_node_del.
  - by eapply cdb_wf_nodes.
  - unfold bt_mesh_cdb_app_key_alloc. destruct (find_index _ _); by eapply cdb_wf_nodes.
  - destruct store; by eapply cdb_wf_nodes.
  - by eapply cdb_wf_nodes.
Qed.

Lemma cdb_reachable_wf n s a c : cdb_reachable n s a c -> cdb_wf c.
Proof. induction 1; [apply cdb_wf_init|by eapply cdb_step_wf]. Qed.

(** A database of three slots holding one two-element node at address 1. *)
Definition cdb_one_node : bt_mesh_cdb :=
  (bt_mesh_cdb_node_alloc zero16 0 2 0 (bt_mesh_cdb_init 3 3 3)).2.

Lemma cdb_one_node_reachable : cdb_reachable 3 3 3 cdb_one_node.
Proof.
  eapply ReachStep; [apply ReachInit|]. apply StepNodeAlloc; unfold is_u16, is_u8; lia.
Qed.

Lemma find_lowest_free_addr_lowest_witness :
  find_lowest_free_addr cdb_one_node 1 = 3 /\
  addr_is_free cdb_one_node 3 1 = AddrFree /\
  (forall a, 0 <= a < 3 -> addr_is_free cdb_one_node a 1 <> AddrFree).
Proof.
  split; [reflexivity|].
  destruct (find_lowest_free_addr_lowest cdb_one_node 1) as [[E _]|H].
  - apply (cdb_reachable_wf 3 3 3), cdb_one_node_reachable.
  - lia.
  - discriminate E.
  - exact H.
Defined.

(** C27: in every database that provisioning, deletion and configuration can
    reach, every assigned node owns a range of unicast addresses and no two
    assigned nodes share an address. *)
Theorem cdb_reachable_disjoint n s a c i j x y :
  cdb_reachable n s a c -> i <> j ->
  cdb_nodes c !! i = Some x -> cdb_nodes c !! j = Some y ->
  node_used x = true -> node_used y = true ->
  (1 <= node_addr x /\ node_addr x + node_num_elem x - 1 < 32768) /\
  forall e, ~ (node_addr x <= e <= node_addr x + node_num_elem x - 1 /\
               node_addr y <= e <= node_addr y + node_num_elem y - 1).
Proof.
  intros R Hij Hx Hy Ux Uy. apply cdb_reachable_wf in R as [H1 H2].
  pose proof (Forall_lookup_1 _ _ _ _ H1 Hx Ux) as (? & ? & ?).
  split; [lia|]. intros e He. destruct (H2 i j x y Hij Hx Hy Ux Uy); lia.
Qed.

(** The same database after a second, one-element node was added. *)
Definition cdb_two_nodes : bt_mesh_cdb :=
  (bt_mesh_cdb_node_alloc zero16 6 1 0 cdb_one_node).2.

Lemma cdb_reachable_disjoint_witness :
  exists x y, cdb_nodes cdb_two_nodes !! 0%nat = Some x /\ cdb_nodes cdb_two_nodes !! 1%nat = Some y /\
  forall e, ~ (node_addr x <= e <= node_addr x + node_num_elem x - 1 /\
               node_addr y <= e <= node_addr y + node_num_elem y - 1).
Proof.
  do 2 eexists. split; [reflexivity|]. split; [reflexivity|].
  apply (cdb_reachable_disjoint 3 3 3 cdb_two_nodes 0 1); try reflexivity; [|lia].
  eapply ReachStep; [apply cdb_one_node_reachable|].
  apply StepNodeAlloc; unfold is_u16, is_u8; lia.
Defined.

Lemma lookup_alter_Some {A : Type} (f : A -> A) (l : list A) i x :
  l !! i = Some x -> alter f i l !! i = Some (f x).
Proof. intros H. by rewrite list_lookup_alter_eq, H. Qed.

(** what a successful [bt_mesh_cdb_node_alloc] does: it takes the first
    unassigned slot, writes the node there with the requested address or, for
    BT_MESH_ADDR_UNASSIGNED, the lowest free one, leaves every other slot and the
    rest of the database alone, and [bt_mesh_cdb_node_get] then finds the node
    under each of its element addresses (freed slots of the table being those of
    single-element nodes). *)
Theorem node_alloc_get uuid addr k net c i c' :
  cdb_wf c -> is_u16 addr -> is_u8 k ->
  (forall n, n ∈ cdb_nodes c -> node_used n = false -> node_num_elem n <= 1) ->
  bt_mesh_cdb_node_alloc uuid addr k net c = (Some i, c') ->
  exists n, cdb_nodes c' !! i = Some n /\
    node_uuid n = uuid /\ node_num_elem n = k /\ node_net_idx n = net /\ node_flags n = 0 /\
    node_addr n = (if addr =? 0 then find_lowest_free_addr c k else addr) /\
    (forall j, j <> i -> cdb_nodes c' !! j = cdb_nodes c !! j) /\
    (cdb_subnets c' = cdb_subnets c /\ cdb_app_keys c' = cdb_app_keys c /\ cdb_log c' = cdb_log c) /\
    (forall e, node_addr n <= e <= node_addr n + k - 1 -> bt_mesh_cdb_node_get e c' = Some i).
Proof.
  intros Hwf Ha Hk Hclean Halloc. unfold is_u8 in Hk.
  pose proof (cdb_wf_node_alloc uuid addr k net c Hwf Ha ltac:(lia)) as [_ Hwf'].
  rewrite Halloc in Hwf'. cbn [snd] in Hwf'.
  rewrite node_alloc_unfold in Halloc.
  destruct (alloc_addr c addr k) as [a|] eqn:EA; [|done].
  destruct (find_index _ _) as [i'|] eqn:EF; [|done]. injection Halloc as -> <-.
  pose proof (alloc_addr_free c addr k a Hwf Ha ltac:(lia) EA) as (P1 & P2 & P3 & PF).
  apply find_index_Some in EF as [(n0 & Hn0 & _) _].
  pose proof (lookup_alter_Some (fresh_node uuid a k net) _ _ _ Hn0) as Hi.
  exists (fresh_node uuid a k net n0). repeat split; try done.
  - cbn. unfold alloc_addr, BT_MESH_ADDR_UNASSIGNED in EA. destruct (addr =? 0).
    + destruct (_ =? 0); [done|]. by injection EA.
    + destruct (addr_is_free c addr k); try done. by injection EA.
  - intros j Hj. cbn. by rewrite list_lookup_alter_ne by done.
  - intros e He. cbn in He. apply find_index_Some. split.
    + eexists. split; [exact Hi|]. cbn. apply andb_true_intro. split; apply Z.leb_le; lia.
    + intros j b Hj Hb. pose proof Hb as Hb'. cbn in Hb.
      rewrite list_lookup_alter_ne in Hb by lia.
      apply andb_false_iff. rewrite !Z.leb_gt.
      destruct (node_used b) eqn:Ub.
      * destruct (Hwf' j i b (fresh_node uuid a k net n0) ltac:(lia) Hb' Hi Ub) as [D|D];
          [by apply node_used_true; cbn; lia|..]; cbn in D; lia.
      * pose proof (Hclean b ltac:(by eapply list_elem_of_lookup_2) Ub).
        assert (node_addr b = 0) by (apply negb_false_iff, Z.eqb_eq in Ub; exact Ub). lia.
Qed.

Lemma node_alloc_get_witness :
  exists n, cdb_nodes cdb_one_node !! 0%nat = Some n /\ node_addr n = 1 /\
    bt_mesh_cdb_node_get 2 cdb_one_node = Some 0%nat.
Proof.
  destruct (node_alloc_get zero16 0 2 0 (bt_mesh_cdb_init 3 3 3) 0 cdb_one_node)
    as (n & Hn & _ & _ & _ & _ & Ea & _ & _ & G).
  - apply cdb_wf_init.
  - unfold is_u16; lia.
  - unfold is_u8; lia.
  - intros n Hn _. cbn in Hn. repeat (apply elem_of_cons in Hn as [->|Hn]; [cbn; lia|]).
    by apply not_elem_of_nil in Hn.
  - reflexivity.
  - exists n. change (node_addr n = 1) in Ea. split; [exact Hn|]. split; [exact Ea|]. apply G. lia.
Defined.

(** deleting a node leaves its element count in the slot, so the freed slot of
    a node with at least two elements still answers for the low addresses 0 to
    [num_elem - 1]: [bt_mesh_cdb_node_get 1] returns the deleted slot. *)
Theorem node_del_stale_get c n nodes store :
  cdb_nodes c = n :: nodes -> 2 <= node_num_elem n ->
  bt_mesh_cdb_node_get 1 (bt_mesh_cdb_node_del 0 store c) = Some 0%nat.
Proof.
  intros E H. unfold bt_mesh_cdb_node_get, bt_mesh_cdb_node_del.
  destruct store; cbn -[Z.add Z.sub Z.leb]; rewrite E; cbn -[Z.add Z.sub Z.leb];
    rewrite (proj2 (Z.leb_le _ _)), (proj2 (Z.leb_le _ _)) by
      (unfold BT_MESH_ADDR_UNASSIGNED; lia); done.
Qed.

Lemma node_del_stale_get_witness :
  bt_mesh_cdb_node_get 1 (bt_mesh_cdb_node_del 0 true cdb_one_node) = Some 0%nat.
Proof. eapply node_del_stale_get; [reflexivity|]. cbn. lia. Defined.

(** [bt_mesh_cdb_app_key_del] marks the slot with BT_MESH_ADDR_UNASSIGNED, the
    index of the primary subnet, instead of BT_MESH_KEY_UNUSED: the deleted key is
    still found under its index, with a zeroed key, and the slot is never
    allocated again. *)
Theorem app_key_del_leaks c k keys store net app :
  cdb_app_keys c = k :: keys ->
  let c' := bt_mesh_cdb_app_key_del 0 store c in
  bt_mesh_cdb_app_key_get (key_app_idx k) c' = Some 0%nat /\
  (bt_mesh_cdb_app_key_alloc net app c').1 <> Some 0%nat.
Proof.
  intros E. cbv zeta. unfold bt_mesh_cdb_app_key_get, bt_mesh_cdb_app_key_alloc,
    bt_mesh_cdb_app_key_del. split.
  - destruct store; cbn; rewrite E; cbn; by rewrite Z.eqb_refl.
  - destruct store; cbn; rewrite E; cbn; by destruct (find_index _ keys).
Qed.

Lemma app_key_del_leaks_witness :
  let c' := bt_mesh_cdb_app_key_del 0 true (bt_mesh_cdb_app_key_alloc 0 7 (bt_mesh_cdb_init 3 3 3)).2 in
  bt_mesh_cdb_app_key_get 7 c' = Some 0%nat /\ (bt_mesh_cdb_app_key_alloc 0 7 c').1 <> Some 0%nat.
Proof.
  exact (app_key_del_leaks (bt_mesh_cdb_app_key_alloc 0 7 (bt_mesh_cdb_init 3 3 3)).2
           _ _ true 0 7 eq_refl).
Defined.
