(* ===== verification/NetBuf.v ===== *)
(** * Simple network buffers

    Model of [struct net_buf_simple] of [subsys/net/buf.c] and
    [include/net/buf.h]: a block of memory, the offset of the data pointer in it
    and the number of bytes in use.  The assertions of the source (and the
    out-of-bounds access they guard when assertions are compiled out) are [None].
    The refinement theorem relates the concrete buffer to the byte string it
    holds, with the free room before and after it. *)

From S2P Require Import Prelude ByteOrder.

Record net_buf_simple : Type := mkBuf {
  buf_data : nat;      (** [data - __buf] *)
  buf_len : nat;
  buf_mem : bytes;     (** the [size] bytes at [__buf] *)
}.

#[export] Instance net_buf_simple_eta : Eta net_buf_simple := fun b =>
  mkBuf (buf_data b) (buf_len b) (buf_mem b).

Definition buf_size (b : net_buf_simple) : nat := length (buf_mem b).

(** The bytes in use. *)
Definition contents (b : net_buf_simple) : bytes := take (buf_len b) (drop (buf_data b) (buf_mem b)).

Abbreviation BUF := (ST net_buf_simple).

Definition net_buf_simple_init (reserve_head : nat) (b : net_buf_simple) : net_buf_simple :=
  b <| buf_data := reserve_head |> <| buf_len := 0%nat |>.

Definition net_buf_simple_reset (b : net_buf_simple) : net_buf_simple :=
  b <| buf_len := 0%nat |> <| buf_data := 0%nat |>.

Definition net_buf_simple_tail (b : net_buf_simple) : nat := (buf_data b + buf_len b)%nat.
Definition net_buf_simple_headroom (b : net_buf_simple) : nat := buf_data b.
Definition net_buf_simple_tailroom (b : net_buf_simple) : nat :=
  (buf_size b - net_buf_simple_headroom b - buf_len b)%nat.

(** [struct net_buf_simple_state] *)
Definition net_buf_simple_save (b : net_buf_simple) : nat * nat :=
  (net_buf_simple_headroom b, buf_len b).
Definition net_buf_simple_restore (st : nat * nat) (b : net_buf_simple) : net_buf_simple :=
  b <| buf_data := st.1 |> <| buf_len := st.2 |>.

(** Grow at the end; the result is the old tail. *)
Definition net_buf_simple_add (len : nat) : BUF nat := fun b =>
  if (len <=? net_buf_simple_tailroom b)%nat
  then Some (net_buf_simple_tail b, b <| buf_len := (buf_len b + len)%nat |>)
  else None.

(** [memcpy(__buf + at, src, |src|)] *)
Definition write_at (at_ : nat) (src : bytes) : BUF unit := fun b =>
  if (at_ + length src <=? buf_size b)%nat
  then Some (tt, b <| buf_mem := take at_ (buf_mem b) ++ src ++ drop (at_ + length src) (buf_mem b) |>)
  else None.

Definition net_buf_simple_add_mem (mem : bytes) : BUF nat :=
  t ← net_buf_simple_add (length mem); _ ← write_at t mem; mret t.

(** [sys_put_xx(val, net_buf_simple_add(buf, n))], [n] the width of the value. *)
Definition add_put (enc : bytes) : BUF unit :=
  t ← net_buf_simple_add (length enc); write_at t enc.

Definition net_buf_simple_add_u8 (val : Z) : BUF unit := add_put [val].
Definition net_buf_simple_add_le16 (val : Z) : BUF unit := add_put (sys_put_le16 val).
Definition net_buf_simple_add_be16 (val : Z) : BUF unit := add_put (sys_put_be16 val).
Definition net_buf_simple_add_le24 (val : Z) : BUF unit := add_put (sys_put_le24 val).
Definition net_buf_simple_add_be24 (val : Z) : BUF unit := add_put (sys_put_be24 val).
Definition net_buf_simple_add_le32 (val : Z) : BUF unit := add_put (sys_put_le32 val).
Definition net_buf_simple_add_be32 (val : Z) : BUF unit := add_put (sys_put_be32 val).
Definition net_buf_simple_add_le48 (val : Z) : BUF unit := add_put (sys_put_le48 val).
Definition net_buf_simple_add_be48 (val : Z) : BUF unit := add_put (sys_put_be48 val).
Definition net_buf_simple_add_le64 (val : Z) : BUF unit := add_put (sys_put_le64 val).
Definition net_buf_simple_add_be64 (val : Z) : BUF unit := add_put (sys_put_be64 val).

(** Grow at the front; the result is the new data pointer. *)
Definition net_buf_simple_push (len : nat) : BUF nat := fun b =>
  if (len <=? net_buf_simple_headroom b)%nat
  then Some ((buf_data b - len)%nat,
             b <| buf_data := (buf_data b - len)%nat |> <| buf_len := (buf_len b + len)%nat |>)
  else None.

Definition push_put (enc : bytes) : BUF unit :=
  t ← net_buf_simple_push (length enc); write_at t enc.

Definition net_buf_simple_push_u8 (val : Z) : BUF unit := push_put [val].
Definition net_buf_simple_push_le16 (val : Z) : BUF unit := push_put (sys_put_le16 val).
Definition net_buf_simple_push_be16 (val : Z) : BUF unit := push_put (sys_put_be16 val).
Definition net_buf_simple_push_le24 (val : Z) : BUF unit := push_put (sys_put_le24 val).
Definition net_buf_simple_push_be24 (val : Z) : BUF unit := push_put (sys_put_be24 val).
Definition net_buf_simple_push_le32 (val : Z) : BUF unit := push_put (sys_put_le32 val).
Definition net_buf_simple_push_be32 (val : Z) : BUF unit := push_put (sys_put_be32 val).
Definition net_buf_simple_push_le48 (val : Z) : BUF unit := push_put (sys_put_le48 val).
Definition net_buf_simple_push_be48 (val : Z) : BUF unit := push_put (sys_put_be48 val).
Definition net_buf_simple_push_le64 (val : Z) : BUF unit := push_put (sys_put_le64 val).
Definition net_buf_simple_push_be64 (val : Z) : BUF unit := push_put (sys_put_be64 val).

(** Drop bytes at the front; the result is the new data pointer. *)
Definition net_buf_simple_pull (len : nat) : BUF nat := fun b =>
  if (len <=? buf_len b)%nat
  then Some ((buf_data b + len)%nat,
             b <| buf_len := (buf_len b - len)%nat |> <| buf_data := (buf_data b + len)%nat |>)
  else None.

(** As [pull], returning what the old data pointer points to. *)
Definition net_buf_simple_pull_mem (len : nat) : BUF bytes :=
  d ← gets (fun b => take len (drop (buf_data b) (buf_mem b)));
  _ ← net_buf_simple_pull len; mret d.

(** Read [n] bytes at the data pointer, pull them and decode them. *)
Definition pull_get (n : nat) (dec : bytes -> Z) : BUF Z :=
  d ← gets (fun b => take n (drop (buf_data b) (buf_mem b)));
  _ ← net_buf_simple_pull n; mret (dec d).

Definition net_buf_simple_pull_u8 : BUF Z := pull_get 1 (fun d => byte_at d 0).
Definition net_buf_simple_pull_le16 : BUF Z := pull_get 2 sys_get_le16.
Definition net_buf_simple_pull_be16 : BUF Z := pull_get 2 sys_get_be16.
Definition net_buf_simple_pull_le24 : BUF Z := pull_get 3 sys_get_le24.
Definition net_buf_simple_pull_be24 : BUF Z := pull_get 3 sys_get_be24.
Definition net_buf_simple_pull_le32 : BUF Z := pull_get 4 sys_get_le32.
Definition net_buf_simple_pull_be32 : BUF Z := pull_get 4 sys_get_be32.
Definition net_buf_simple_pull_le48 : BUF Z := pull_get 6 sys_get_le48.
Definition net_buf_simple_pull_be48 : BUF Z := pull_get 6 sys_get_be48.
Definition net_buf_simple_pull_le64 : BUF Z := pull_get 8 sys_get_le64.
Definition net_buf_simple_pull_be64 : BUF Z := pull_get 8 sys_get_be64.

(** ** Abstract view *)

Record abuf : Type := mkAbuf { room_before : nat; string : bytes; room_after : nat }.

Definition abs (b : net_buf_simple) : abuf :=
  mkAbuf (net_buf_simple_headroom b) (contents b) (net_buf_simple_tailroom b).

(** The data area lies inside the memory block. *)
Definition buf_wf (b : net_buf_simple) : Prop := (buf_data b + buf_len b <= buf_size b)%nat.

(** The abstract operations on byte strings. *)
Definition append (l : bytes) (a : abuf) : option abuf :=
  if (length l <=? room_after a)%nat
  then Some (mkAbuf (room_before a) (string a ++ l) (room_after a - length l)) else None.
Definition prepend (l : bytes) (a : abuf) : option abuf :=
  if (length l <=? room_before a)%nat
  then Some (mkAbuf (room_before a - length l) (l ++ string a) (room_after a)) else None.
Definition uncons (n : nat) (a : abuf) : option (bytes * abuf) :=
  if (n <=? length (string a))%nat
  then Some (take n (string a), mkAbuf (room_before a + n) (drop n (string a)) (room_after a))
  else None.

Lemma length_contents b : buf_wf b -> length (contents b) = buf_len b.
Proof. unfold buf_wf, contents, buf_size. intros. rewrite length_take, length_drop. lia. Qed.

(** ** Each operation implements its abstract counterpart *)

Lemma splice_length {A : Type} (l m : list A) at_ :
  (at_ + length m <= length l)%nat ->
  length (take at_ l ++ m ++ drop (at_ + length m) l) = length l.
Proof. intros. rewrite !length_app, length_take, length_drop. lia. Qed.

Lemma add_put_spec l b :
  buf_wf b ->
  match append l (abs b) with
  | Some a => exists b', add_put l b = Some (tt, b') /\ abs b' = a /\ buf_wf b' /\ buf_size b' = buf_size b
  | None => add_put l b = None
  end.
Proof.
  intros Hwf. unfold append, add_put, net_buf_simple_add. cbn [abs room_after room_before string].
  unfold mbind, ST_bind.
  destruct (length l <=? net_buf_simple_tailroom b)%nat eqn:E; [|done].
  apply Nat.leb_le in E. destruct b as [d n m].
  unfold buf_wf, net_buf_simple_tailroom, net_buf_simple_headroom, buf_size in *. cbn in *.
  unfold write_at, net_buf_simple_tail, buf_size. cbn.
  rewrite (proj2 (Nat.leb_le (d + n + length l) (length m))) by lia.
  eexists. split; [reflexivity|].
  assert (length (take (d + n) m ++ l ++ drop (d + n + length l) m) = length m) as Hlen
    by (apply splice_length; lia).
  split; [|split; [unfold buf_size; cbn; rewrite Hlen; lia|unfold buf_size; cbn; done]].
  unfold abs, net_buf_simple_headroom, net_buf_simple_tailroom, contents, buf_size. cbn.
  rewrite Hlen. f_equal; [|unfold net_buf_simple_headroom; cbn; lia].
  rewrite drop_app_le by (rewrite length_take; lia).
  rewrite skipn_firstn_comm. replace (d + n - d)%nat with n by lia.
  assert (length (take n (drop d m)) = n) as Hn by (rewrite length_take, length_drop; lia).
  rewrite take_app_ge, Hn by lia. replace (n + length l - n)%nat with (length l) by lia.
  by rewrite take_app_length.
Qed.

Lemma push_put_spec l b :
  buf_wf b ->
  match prepend l (abs b) with
  | Some a => exists b', push_put l b = Some (tt, b') /\ abs b' = a /\ buf_wf b' /\ buf_size b' = buf_size b
  | None => push_put l b = None
  end.
Proof.
  intros Hwf. unfold prepend, push_put, net_buf_simple_push. cbn [abs room_after room_before string].
  unfold mbind, ST_bind.
  destruct (length l <=? net_buf_simple_headroom b)%nat eqn:E; [|done].
  apply Nat.leb_le in E. destruct b as [d n m].
  unfold buf_wf, net_buf_simple_tailroom, net_buf_simple_headroom, buf_size in *. cbn in *.
  unfold write_at, buf_size. cbn.
  rewrite (proj2 (Nat.leb_le (d - length l + length l) (length m))) by lia.
  eexists. split; [reflexivity|].
  assert (length (take (d - length l) m ++ l ++ drop (d - length l + length l) m) = length m) as Hlen
    by (apply splice_length; lia).
  split; [|split; [unfold buf_size; cbn; rewrite Hlen; lia|unfold buf_size; cbn; done]].
  unfold abs, net_buf_simple_headroom, net_buf_simple_tailroom, contents, buf_size. cbn.
  rewrite Hlen. f_equal; [|unfold net_buf_simple_headroom; cbn; lia].
  assert (length (take (d - length l) m) = d - length l)%nat as Hn by (rewrite length_take; lia).
  rewrite drop_app_ge by (rewrite Hn; lia). rewrite Hn, Nat.sub_diag, drop_0.
  rewrite take_app_ge by lia. f_equal.
  replace (d - length l + length l)%nat with d by lia. f_equal. lia.
Qed.

Lemma pull_get_spec {A : Type} n (dec : bytes -> A) b :
  buf_wf b ->
  match uncons n (abs b) with
  | Some (d, a) => exists b',
      (d ← gets (fun b => take n (drop (buf_data b) (buf_mem b)));
       _ ← net_buf_simple_pull n; mret (dec d)) b = Some (dec d, b') /\
      abs b' = a /\ buf_wf b' /\ buf_size b' = buf_size b
  | None => (d ← gets (fun b => take n (drop (buf_data b) (buf_mem b)));
             _ ← net_buf_simple_pull n; mret (dec d)) b = None
  end.
Proof.
  intros Hwf. unfold uncons. cbn [abs room_after room_before string].
  rewrite (length_contents b Hwf), bind_gets.
  unfold net_buf_simple_pull, mbind, ST_bind.
  destruct (n <=? buf_len b)%nat eqn:E; [|done].
  apply Nat.leb_le in E. destruct b as [d k m]. unfold buf_wf, buf_size, contents in *. cbn in *.
  eexists. split; [cbv [mret ST_ret]; rewrite firstn_firstn, Nat.min_l by lia; reflexivity|].
  split; [|split; cbn; lia].
  unfold abs, net_buf_simple_headroom, net_buf_simple_tailroom, contents, buf_size. cbn.
  rewrite skipn_firstn_comm, drop_drop. f_equal. unfold net_buf_simple_headroom; cbn. lia.
Qed.

(** The forms the clients use. *)
Lemma add_put_ok l b h c t :
  buf_wf b -> abs b = mkAbuf h c t -> (length l <= t)%nat ->
  exists b', add_put l b = Some (tt, b') /\ abs b' = mkAbuf h (c ++ l) (t - length l) /\ buf_wf b'.
Proof.
  intros Hwf E Hl. pose proof (add_put_spec l b Hwf) as H. rewrite E in H.
  unfold append in H. cbn [room_after room_before string] in H.
  rewrite (proj2 (Nat.leb_le _ _) Hl) in H. destruct H as (b' & ? & ? & ? & _). eauto.
Qed.

Lemma push_put_ok l b h c t :
  buf_wf b -> abs b = mkAbuf h c t -> (length l <= h)%nat ->
  exists b', push_put l b = Some (tt, b') /\ abs b' = mkAbuf (h - length l) (l ++ c) t /\ buf_wf b'.
Proof.
  intros Hwf E Hl. pose proof (push_put_spec l b Hwf) as H. rewrite E in H.
  unfold prepend in H. cbn [room_after room_before string] in H.
  rewrite (proj2 (Nat.leb_le _ _) Hl) in H. destruct H as (b' & ? & ? & ? & _). eauto.
Qed.

Lemma pull_get_ok n dec b h l c t :
  buf_wf b -> abs b = mkAbuf h (l ++ c) t -> length l = n ->
  exists b', pull_get n dec b = Some (dec l, b') /\ abs b' = mkAbuf (h + n) c t /\ buf_wf b'.
Proof.
  intros Hwf E <-. pose proof (pull_get_spec (length l) dec b Hwf) as H. rewrite E in H.
  unfold uncons in H. cbn [room_after room_before string] in H.
  rewrite length_app, (proj2 (Nat.leb_le _ _)) in H by lia.
  rewrite take_app_length, drop_app_length in H. destruct H as (b' & ? & ? & ? & _). eauto.
Qed.

Lemma pull_mem_ok n b h l c t :
  buf_wf b -> abs b = mkAbuf h (l ++ c) t -> length l = n ->
  exists b', net_buf_simple_pull_mem n b = Some (l, b') /\ abs b' = mkAbuf (h + n) c t /\ buf_wf b'.
Proof.
  intros Hwf E <-. pose proof (pull_get_spec (length l) (fun d => d) b Hwf) as H. rewrite E in H.
  unfold uncons in H. cbn [room_after room_before string] in H.
  rewrite length_app, (proj2 (Nat.leb_le _ _)) in H by lia.
  rewrite take_app_length, drop_app_length in H. destruct H as (b' & ? & ? & ? & _). eauto.
Qed.

Lemma abs_len b h c t : buf_wf b -> abs b = mkAbuf h c t -> buf_len b = length c.
Proof. intros Hwf E. injection E as _ <- _. by rewrite length_contents. Qed.

Lemma abs_head b h c0 c t : abs b = mkAbuf h (c0 :: c) t -> buf_mem b !! buf_data b = Some c0.
Proof.
  intros E. injection E as _ E _. unfold contents in E.
  destruct (buf_len b) as [|n]; [done|]. cbn in E.
  destruct (drop (buf_data b) (buf_mem b)) as [|x xs] eqn:D; [done|].
  injection E as <- _. rewrite <- (Nat.add_0_r (buf_data b)), <- lookup_drop, D. done.
Qed.

(** ** Refinement of whole programs of buffer operations *)

Inductive buf_op : Type := OpAdd (l : bytes) | OpPush (l : bytes) | OpPull (n : nat).

Definition run_op (o : buf_op) : BUF bytes :=
  match o with
  | OpAdd l => _ ← net_buf_simple_add_mem l; mret []
  | OpPush l => _ ← push_put l; mret []
  | OpPull n => net_buf_simple_pull_mem n
  end.

Fixpoint run_ops (os : list buf_op) : BUF (list bytes) :=
  match os with
  | [] => mret []
  | o :: os' => r ← run_op o; rs ← run_ops os'; mret (r :: rs)
  end.

(** The same programs on the byte string. *)
Definition spec_op (o : buf_op) (a : abuf) : option (bytes * abuf) :=
  match o with
  | OpAdd l => a' ← append l a; Some ([], a')
  | OpPush l => a' ← prepend l a; Some ([], a')
  | OpPull n => uncons n a
  end.

Fixpoint spec_ops (os : list buf_op) (a : abuf) : option (list bytes * abuf) :=
  match os with
  | [] => Some ([], a)
  | o :: os' => '(r, a1) ← spec_op o a; '(rs, a2) ← spec_ops os' a1; Some (r :: rs, a2)
  end.

Definition simulates {A : Type} (c : option (A * net_buf_simple)) (s : option (A * abuf)) : Prop :=
  match c, s with
  | Some (x, b), Some (y, a) => x = y /\ abs b = a /\ buf_wf b
  | None, None => True
  | _, _ => False
  end.

Lemma add_mem_as_put l b :
  (_ ← net_buf_simple_add_mem l; mret []) b =
  match add_put l b with Some (_, b') => Some (@nil Z, b') | None => None end.
Proof.
  unfold net_buf_simple_add_mem, add_put, mbind, ST_bind.
  destruct (net_buf_simple_add (length l) b) as [[t b1]|]; [|done].
  by destruct (write_at t l b1) as [[[] b2]|].
Qed.

Lemma run_op_simulates o b : buf_wf b -> simulates (run_op o b) (spec_op o (abs b)).
Proof.
  intros Hwf. destruct o as [l|l|n]; unfold run_op, spec_op.
  - rewrite add_mem_as_put. pose proof (add_put_spec l b Hwf) as H.
    destruct (append l (abs b)) as [a|]; [|by rewrite H].
    destruct H as (b' & -> & Ha & Hwf' & _). cbn. auto.
  - pose proof (push_put_spec l b Hwf) as H. unfold mbind, ST_bind.
    destruct (prepend l (abs b)) as [a|]; [|by rewrite H].
    destruct H as (b' & -> & Ha & Hwf' & _). cbn. auto.
  - pose proof (pull_get_spec n (fun d => d) b Hwf) as H. unfold net_buf_simple_pull_mem.
    destruct (uncons n (abs b)) as [[d a]|]; [|by rewrite H].
    destruct H as (b' & -> & Ha & Hwf' & _). cbn. auto.
Qed.

(** C25: The network buffer implements a byte string with bounded room at both
    ends.  Any sequence of additions at the tail, pushes at the head and pulls from
    the head returns the same bytes and ends in the same string as the sequence run
    on the abstract string, and fails an assertion exactly when the abstract
    sequence runs out of room or of bytes; the data area stays in the memory block. *)
Theorem net_buf_simple_refines os b :
  buf_wf b -> simulates (run_ops os b) (spec_ops os (abs b)).
Proof.
  revert b. induction os as [|o os IH]; intros b Hwf; cbn [run_ops spec_ops]; [by cbn|].
  pose proof (run_op_simulates o b Hwf) as H. unfold mbind, ST_bind.
  destruct (run_op o b) as [[r b1]|], (spec_op o (abs b)) as [[r' a1]|]; cbn in H |- *; try done.
  destruct H as (<- & <- & Hwf1). specialize (IH b1 Hwf1). unfold mbind, ST_bind in IH.
  destruct (run_ops os b1) as [[rs b2]|], (spec_ops os (abs b1)) as [[rs' a2]|]; cbn in IH |- *; try done.
  by destruct IH as (<- & <- & Hwf2).
Qed.

Lemma net_buf_simple_refines_witness :
  let b := mkBuf 2 0 (replicate 8 0) in
  buf_wf b /\
  simulates (run_ops [OpAdd [7; 8]; OpPush [1; 2]; OpPull 3; OpAdd [9; 9; 9; 9]] b)
    (Some ([[]; []; [1; 2; 7]; []], mkAbuf 3 [8; 9; 9; 9; 9] 0)).
Proof.
  intros b. assert (buf_wf b) as H by (vm_compute; lia). split; [exact H|].
  exact (net_buf_simple_refines [OpAdd [7; 8]; OpPush [1; 2]; OpPull 3; OpAdd [9; 9; 9; 9]] b H).
Defined.

Lemma add_mem_ok l b h c t :
  buf_wf b -> abs b = mkAbuf h c t -> (length l <= t)%nat ->
  exists k b', net_buf_simple_add_mem l b = Some (k, b') /\
    abs b' = mkAbuf h (c ++ l) (t - length l) /\ buf_wf b'.
Proof.
  intros Hwf E Hl. destruct (add_put_ok l b h c t Hwf E Hl) as (b' & P & ? & ?).
  unfold add_put in P. apply bind_inv in P as (k & b1 & E1 & E2).
  exists k, b'. split; [|done]. unfold net_buf_simple_add_mem.
  rewrite (bind_some _ _ _ _ _ E1), (bind_some _ _ _ _ _ E2). done.
Qed.

(** Pulling as an update of the buffer. *)
Definition pulled (n : nat) (b : net_buf_simple) : net_buf_simple :=
  b <| buf_len := (buf_len b - n)%nat |> <| buf_data := (buf_data b + n)%nat |>.

Lemma pull_run n b : (n <= buf_len b)%nat -> net_buf_simple_pull n b = Some ((buf_data b + n)%nat, pulled n b).
Proof. intros H. unfold net_buf_simple_pull. by rewrite (proj2 (Nat.leb_le _ _) H). Qed.

Lemma pull_get_run n dec b : (n <= buf_len b)%nat ->
  pull_get n dec b = Some (dec (take n (drop (buf_data b) (buf_mem b))), pulled n b).
Proof. intros H. unfold pull_get. by rewrite bind_gets, (bind_some _ _ _ _ _ (pull_run n b H)). Qed.

Lemma pull_mem_run n b : (n <= buf_len b)%nat ->
  net_buf_simple_pull_mem n b = Some (take n (drop (buf_data b) (buf_mem b)), pulled n b).
Proof. intros H. unfold net_buf_simple_pull_mem. by rewrite bind_gets, (bind_some _ _ _ _ _ (pull_run n b H)). Qed.
