(* ===== verification/Access.v ===== *)
(** * The access layer: compositions, opcodes, dispatch and publication

    Model of [subsys/bluetooth/mesh/access.c] in the configuration of the two
    applications (no model extensions, so the extension tree of a model is the
    model itself).  The composition data is a list of elements with their SIG and
    vendor models.  Handlers and the transport layer are arguments of the
    operations that call them. *)

From S2P Require Import Prelude ByteOrder NetBuf MeshDefs.

(** ** Data *)

Record bt_mesh_msg_ctx : Type := mkCtx {
  ctx_net_idx : Z;
  ctx_app_idx : Z;
  ctx_addr : Z;
  ctx_recv_dst : Z;
  ctx_recv_rssi : Z;
  ctx_recv_ttl : Z;
  ctx_send_rel : bool;
  ctx_send_ttl : Z;
}.

#[export] Instance bt_mesh_msg_ctx_eta : Eta bt_mesh_msg_ctx := fun c =>
  mkCtx (ctx_net_idx c) (ctx_app_idx c) (ctx_addr c) (ctx_recv_dst c) (ctx_recv_rssi c)
    (ctx_recv_ttl c) (ctx_send_rel c) (ctx_send_ttl c).

Record bt_mesh_model_op : Type := mkOp { op_opcode : Z; op_min_len : nat }.

Record bt_mesh_model_pub : Type := mkPub {
  pub_addr : Z;
  pub_key : Z;
  pub_cred : bool;
  pub_send_rel : bool;
  pub_ttl : Z;
  pub_retransmit : Z;
  pub_period : Z;
  pub_period_div : Z;
  pub_fast_period : bool;
  pub_count : Z;
  pub_period_start : Z;
  pub_msg : bytes;
  pub_timer : option Z;   (** delay of the pending [timer], in ms *)
}.

#[export] Instance bt_mesh_model_pub_eta : Eta bt_mesh_model_pub := fun p =>
  mkPub (pub_addr p) (pub_key p) (pub_cred p) (pub_send_rel p) (pub_ttl p) (pub_retransmit p)
    (pub_period p) (pub_period_div p) (pub_fast_period p) (pub_count p) (pub_period_start p)
    (pub_msg p) (pub_timer p).

(** The union [id] / [vnd]. *)
Inductive model_id : Type := SIG (id : Z) | VND (company id : Z).

Record bt_mesh_model : Type := mkModel {
  mod_id : model_id;
  mod_elem_idx : nat;
  mod_mod_idx : nat;
  mod_pub : option bt_mesh_model_pub;
  mod_keys : list Z;
  mod_groups : list Z;
  mod_ops : list bt_mesh_model_op;   (** up to [BT_MESH_MODEL_OP_END] *)
}.

#[export] Instance bt_mesh_model_eta : Eta bt_mesh_model := fun m =>
  mkModel (mod_id m) (mod_elem_idx m) (mod_mod_idx m) (mod_pub m) (mod_keys m) (mod_groups m)
    (mod_ops m).

Record bt_mesh_elem : Type := mkElem {
  elem_addr : Z;
  elem_models : list bt_mesh_model;
  elem_vnd_models : list bt_mesh_model;
}.

#[export] Instance bt_mesh_elem_eta : Eta bt_mesh_elem := fun e =>
  mkElem (elem_addr e) (elem_models e) (elem_vnd_models e).

(** [dev_comp] and [dev_primary_addr]. *)
Record bt_mesh_comp : Type := mkComp { comp_elem : list bt_mesh_elem; dev_primary_addr : Z }.

#[export] Instance bt_mesh_comp_eta : Eta bt_mesh_comp := fun c =>
  mkComp (comp_elem c) (dev_primary_addr c).

(** ** Opcodes *)

Definition BT_MESH_MODEL_OP_3 (b0 cid : Z) : Z :=
  Z.lor (Z.lor (Z.shiftl b0 16) 12582912) cid.

Definition BT_MESH_MODEL_OP_LEN (op : Z) : Z :=
  if op <=? 255 then 1 else if op <=? 65535 then 2 else 3.

(** The result is the return code and, on success, [*opcode]. *)
Definition get_opcode : BUF (ret_code * Z) :=
  d ← gets (fun b => buf_mem b !! buf_data b); b0 ← need d;
  len ← gets buf_len;
  let k := Z.shiftr b0 6 in
  if (k =? 0) || (k =? 1) then
    if b0 =? 127 then mret (Some EINVAL, 0)
    else op ← net_buf_simple_pull_u8; mret (None, op)
  else if k =? 2 then
    if (len <? 2)%nat then mret (Some EINVAL, 0)
    else op ← net_buf_simple_pull_be16; mret (None, op)
  else
    if (len <? 3)%nat then mret (Some EINVAL, 0)
    else
      hi ← net_buf_simple_pull_u8;
      lo ← net_buf_simple_pull_le16;
      mret (None, Z.lor (Z.shiftl hi 16) lo).

Definition bt_mesh_model_msg_init (opcode : Z) : BUF unit :=
  _ ← modify (net_buf_simple_init 0);
  match BT_MESH_MODEL_OP_LEN opcode with
  | 1 => net_buf_simple_add_u8 (u8 opcode)
  | 2 => net_buf_simple_add_be16 (u16 opcode)
  | 3 =>
      _ ← net_buf_simple_add_u8 (Z.land (Z.shiftr opcode 16) 255);
      net_buf_simple_add_le16 (Z.land opcode 65535)
  | _ => mret tt
  end.

(** ** Elements, keys and groups *)

Definition BT_MESH_IS_DEV_KEY (key : Z) : bool :=
  (key =? BT_MESH_KEY_DEV_LOCAL) || (key =? BT_MESH_KEY_DEV_REMOTE).

(** The composition given an address: the elements take consecutive addresses. *)
Fixpoint provision_elems (addr : Z) (es : list bt_mesh_elem) : list bt_mesh_elem :=
  match es with
  | [] => []
  | e :: es' => (e <| elem_addr := addr |>) :: provision_elems (u16 (addr + 1)) es'
  end.

Definition bt_mesh_comp_provision (addr : Z) (c : bt_mesh_comp) : bt_mesh_comp :=
  c <| dev_primary_addr := addr |> <| comp_elem := provision_elems addr (comp_elem c) |>.

Definition bt_mesh_comp_unprovision (c : bt_mesh_comp) : bt_mesh_comp :=
  c <| dev_primary_addr := BT_MESH_ADDR_UNASSIGNED |>.

Definition bt_mesh_primary_addr (c : bt_mesh_comp) : Z := dev_primary_addr c.

(** [mod_init]; [cb_init] is the model's [cb->init], [(None, m)] when it has none.
    The error of an earlier model skips the later ones. *)
Definition mod_init (cb_init : bt_mesh_model -> ret_code * bt_mesh_model) (i j : nat)
    (err : ret_code) (m : bt_mesh_model) : ret_code * bt_mesh_model :=
  match err with
  | Some _ => (err, m)
  | None =>
      cb_init (m <| mod_pub := (fun p => p <| pub_timer := None |>) <$> mod_pub m |>
                 <| mod_keys := map (fun _ => BT_MESH_KEY_UNUSED) (mod_keys m) |>
                 <| mod_elem_idx := i |> <| mod_mod_idx := j |>)
  end.

(** [bt_mesh_model_foreach(mod_init, &err)] over the models of one element. *)
Fixpoint init_models (cb_init : bt_mesh_model -> ret_code * bt_mesh_model) (i j : nat)
    (err : ret_code) (ms : list bt_mesh_model) : ret_code * list bt_mesh_model :=
  match ms with
  | [] => (err, [])
  | m :: ms' =>
      let (err1, m1) := mod_init cb_init i j err m in
      let (err2, ms2) := init_models cb_init i (S j) err1 ms' in
      (err2, m1 :: ms2)
  end.

Fixpoint init_elems (cb_init : bt_mesh_model -> ret_code * bt_mesh_model) (i : nat)
    (err : ret_code) (es : list bt_mesh_elem) : ret_code * list bt_mesh_elem :=
  match es with
  | [] => (err, [])
  | e :: es' =>
      let (err1, ms) := init_models cb_init i 0 err (elem_models e) in
      let (err2, vs) := init_models cb_init i 0 err1 (elem_vnd_models e) in
      let (err3, es2) := init_elems cb_init (S i) err2 es' in
      (err3, (e <| elem_models := ms |> <| elem_vnd_models := vs |>) :: es2)
  end.

Definition bt_mesh_comp_register (cb_init : bt_mesh_model -> ret_code * bt_mesh_model)
    (elems : list bt_mesh_elem) (c : bt_mesh_comp) : ret_code * bt_mesh_comp :=
  match elems with
  | [] => (Some EINVAL, c)
  | _ => let (err, es) := init_elems cb_init 0 None elems in (err, c <| comp_elem := es |>)
  end.

Definition model_group_get (m : bt_mesh_model) (addr : Z) : option nat :=
  find_index (Z.eqb addr) (mod_groups m).

Definition has_group (addr : Z) (m : bt_mesh_model) : bool :=
  match model_group_get m addr with Some _ => true | None => false end.

(** The walk of a model's extension tree visits the model alone. *)
Definition bt_mesh_model_find_group (m : bt_mesh_model) (addr : Z) : option nat :=
  model_group_get m addr.

(** Index of the model found: SIG models first. *)
Definition bt_mesh_elem_find_group (e : bt_mesh_elem) (group_addr : Z) : option (bool * nat) :=
  match find_index (has_group group_addr) (elem_models e) with
  | Some i => Some (false, i)
  | None => match find_index (has_group group_addr) (elem_vnd_models e) with
            | Some i => Some (true, i)
            | None => None
            end
  end.

(** Index of the element found; [None] for a composition without elements, whose
    first element the source reads. *)
Definition bt_mesh_elem_find (c : bt_mesh_comp) (addr : Z) : option (option nat) :=
  if BT_MESH_ADDR_IS_UNICAST addr then
    match comp_elem c with
    | [] => None
    | e0 :: _ =>
        let index := u16 (addr - elem_addr e0) in
        Some (if index <? Z.of_nat (length (comp_elem c)) then Some (Z.to_nat index) else None)
    end
  else
    Some (find_index
            (fun e => match bt_mesh_elem_find_group e addr with Some _ => true | None => false end)
            (comp_elem c)).

Definition model_has_key (m : bt_mesh_model) (key : Z) : bool :=
  existsb (fun k => (k =? key) || ((k =? BT_MESH_KEY_DEV_ANY) && BT_MESH_IS_DEV_KEY key))
    (mod_keys m).

(** [None]: the model's element index is outside the composition. *)
Definition model_has_dst (c : bt_mesh_comp) (m : bt_mesh_model) (dst : Z) : option bool :=
  if BT_MESH_ADDR_IS_UNICAST dst then
    (fun e => elem_addr e =? dst) <$> comp_elem c !! mod_elem_idx m
  else if BT_MESH_ADDR_IS_GROUP dst || BT_MESH_ADDR_IS_VIRTUAL dst then
    Some (match bt_mesh_model_find_group m dst with Some _ => true | None => false end)
  else Some (mod_elem_idx m =? 0)%nat.

(** First model with a handler for the opcode, with that handler. *)
Fixpoint find_op (ms : list bt_mesh_model) (opcode : Z) (j : nat)
    : option (nat * bt_mesh_model * bt_mesh_model_op) :=
  match ms with
  | [] => None
  | m :: ms' =>
      match find_index (fun o => op_opcode o =? opcode) (mod_ops m) with
      | Some k => o ← mod_ops m !! k; Some (j, m, o)
      | None => find_op ms' opcode (S j)
      end
  end.

Definition bt_mesh_model_find_vnd (e : bt_mesh_elem) (company id : Z) : option nat :=
  find_index (fun m => match mod_id m with VND c i => (c =? company) && (i =? id) | SIG _ => false end)
    (elem_vnd_models e).

Definition bt_mesh_model_find (e : bt_mesh_elem) (id : Z) : option nat :=
  find_index (fun m => match mod_id m with SIG i => i =? id | VND _ _ => false end) (elem_models e).

(** ** Reception: every element with a matching, bound and addressed model *)

Section Dispatch.
  Context {S : Type} (comp_of : S -> bt_mesh_comp).
  (** [op->func(model, &rx->ctx, buf, rssi)] of model [j] of element [i], vendor or
      SIG; it returns the buffer as it leaves it. *)
  Variable op_func : nat -> nat -> bt_mesh_model_op -> bt_mesh_msg_ctx -> net_buf_simple -> Z ->
    ST S net_buf_simple.

Definition recv_elem (opcode : Z) (ctx : bt_mesh_msg_ctx) (rssi : Z) (i : nat)
    (buf : net_buf_simple) : ST S net_buf_simple :=
  e ← gets (fun s => comp_elem (comp_of s) !! i); e ← need e;
  let models := if BT_MESH_MODEL_OP_LEN opcode <? 3 then elem_models e else elem_vnd_models e in
  match find_op models opcode 0 with
  | None => mret buf
  | Some (j, model, op) =>
      if negb (model_has_key model (ctx_app_idx ctx)) then mret buf
      else
        d ← gets (fun s => model_has_dst (comp_of s) model (ctx_recv_dst ctx)); d ← need d;
        if negb d then mret buf
        else if (buf_len buf <? op_min_len op)%nat then mret buf
        else
          buf' ← op_func i j op ctx buf rssi;
          mret (net_buf_simple_restore (net_buf_simple_save buf) buf')
  end.

Fixpoint recv_loop (opcode : Z) (ctx : bt_mesh_msg_ctx) (rssi : Z) (n i : nat)
    (buf : net_buf_simple) : ST S net_buf_simple :=
  match n with
  | O => mret buf
  | Datatypes.S n' =>
      buf' ← recv_elem opcode ctx rssi i buf; recv_loop opcode ctx rssi n' (Datatypes.S i) buf'
  end.

Definition bt_mesh_model_recv (ctx : bt_mesh_msg_ctx) (buf : net_buf_simple) (rssi : Z)
    : ST S unit :=
  r ← need (get_opcode buf);
  match r with
  | ((Some _, _), _) => mret tt
  | ((None, opcode), buf1) =>
      n ← gets (fun s => length (comp_elem (comp_of s)));
      _ ← recv_loop opcode ctx rssi n 0 buf1; mret tt
  end.

End Dispatch.

(** ** Sending *)

(** [struct bt_mesh_net_tx], as far as the access layer fills it. *)
Record access_tx : Type := mkTx { tx_ctx : bt_mesh_msg_ctx; tx_src : Z; tx_friend_cred : bool }.

Section Send.
  Variables (BT_MESH_TX_SDU_MAX : nat) (provisioned : bool).
  (** [bt_mesh_trans_send] *)
  Variable trans_send : access_tx -> net_buf_simple -> ret_code.

Definition model_send (m : bt_mesh_model) (tx : access_tx) (implicit_bind : bool)
    (msg : net_buf_simple) : ret_code :=
  if negb provisioned then Some EAGAIN
  else if (net_buf_simple_tailroom msg <? 4)%nat then Some EINVAL
  else if (BT_MESH_TX_SDU_MAX - 4 <? buf_len msg)%nat then Some EMSGSIZE
  else if negb implicit_bind && negb (model_has_key m (ctx_app_idx (tx_ctx tx))) then Some EINVAL
  else trans_send tx msg.

(** [None]: the model's element index is outside the composition. *)
Definition bt_mesh_model_send (c : bt_mesh_comp) (m : bt_mesh_model) (ctx : bt_mesh_msg_ctx)
    (msg : net_buf_simple) : option ret_code :=
  e ← comp_elem c !! mod_elem_idx m;
  Some (model_send m (mkTx ctx (elem_addr e) false) false msg).

(** ** Publication *)

Definition BT_MESH_PUB_TRANSMIT_COUNT (t : Z) : Z := Z.land t 7.
Definition BT_MESH_PUB_TRANSMIT_INT (t : Z) : Z := (Z.shiftr t 3 + 1) * 50.

Definition pub_period_ms (p : bt_mesh_model_pub) : Z :=
  let steps := Z.land (pub_period p) 63 in
  let period :=
    match Z.shiftr (pub_period p) 6 with
    | 0 => steps * 100
    | 1 => steps * 1000
    | 2 => steps * 10 * 1000
    | _ => steps * 600 * 1000
    end in
  if pub_fast_period p then Z.shiftr period (pub_period_div p) else period.

Definition bt_mesh_model_pub_period_get (m : bt_mesh_model) : Z :=
  match mod_pub m with None => 0 | Some p => pub_period_ms p end.

(** [now] is [k_uptime_get_32()]. *)
Definition next_period (now : Z) (p : bt_mesh_model_pub) : Z :=
  let period := pub_period_ms p in
  if period =? 0 then 0
  else
    let elapsed := u32 (now - pub_period_start p) in
    if period <=? elapsed then 1 else period - elapsed.

Definition publish_sent (now : Z) (p : bt_mesh_model_pub) : bt_mesh_model_pub :=
  let delay :=
    if negb (pub_count p =? 0) then BT_MESH_PUB_TRANSMIT_INT (pub_retransmit p)
    else next_period now p in
  if delay =? 0 then p else p <| pub_timer := Some delay |>.

Definition publish_start (now : Z) (err : ret_code) (p : bt_mesh_model_pub) : bt_mesh_model_pub :=
  match err with
  | Some _ => p
  | None =>
      if pub_count p =? BT_MESH_PUB_TRANSMIT_COUNT (pub_retransmit p)
      then p <| pub_period_start := now |> else p
  end.

(** The buffer of [BT_MESH_TX_SDU_MAX] bytes holding the message; [None] when it
    does not fit. *)
Definition sdu_of (msg : bytes) : option net_buf_simple :=
  match net_buf_simple_add_mem msg (mkBuf 0 0 (replicate BT_MESH_TX_SDU_MAX 0)) with
  | Some (_, b) => Some b
  | None => None
  end.

Definition publish_retransmit (src : Z) (p : bt_mesh_model_pub)
    : option (ret_code * bt_mesh_model_pub) :=
  sdu ← sdu_of (pub_msg p);
  let ctx := mkCtx 0 (pub_key p) (pub_addr p) 0 0 0 false (pub_ttl p) in
  let p' := p <| pub_count := Z.land (pub_count p - 1) 7 |> in
  Some (trans_send (mkTx ctx src (pub_cred p)) sdu, p').

Definition publish_retransmit_end (now : Z) (p : bt_mesh_model_pub) : bt_mesh_model_pub :=
  publish_sent now (p <| pub_count := 0 |>).

(** The model's publication context is read before the test for its absence, so
    without one the behaviour is undefined. *)
Definition bt_mesh_model_publish (now : Z) (src : Z) (m : bt_mesh_model)
    : option (ret_code * bt_mesh_model) :=
  p ← mod_pub m;
  let ctx := mkCtx 0 (pub_key p) (pub_addr p) 0 0 0 (pub_send_rel p) (pub_ttl p) in
  if pub_addr p =? BT_MESH_ADDR_UNASSIGNED then Some (Some EADDRNOTAVAIL, m)
  else if (BT_MESH_TX_SDU_MAX <? length (pub_msg p) + 4)%nat then Some (Some EMSGSIZE, m)
  else
    let p1 := if negb (pub_count p =? 0) then p <| pub_timer := None |> else p in
    sdu ← sdu_of (pub_msg p);
    let p2 := p1 <| pub_count := BT_MESH_PUB_TRANSMIT_COUNT (pub_retransmit p) |> in
    match model_send m (mkTx ctx src (pub_cred p)) true sdu with
    | Some err => Some (Some err, m <| mod_pub := Some (publish_retransmit_end now p2) |>)
    | None => Some (None, m <| mod_pub := Some p2 |>)
    end.

(** The timer's handler.  [update] is the model's callback: its return code and
    the message it leaves in the publication buffer. *)
Definition mod_publish (now : Z) (src : Z) (update : option (bytes -> ret_code * bytes))
    (m : bt_mesh_model) : option bt_mesh_model :=
  p0 ← mod_pub m;
  let p := p0 <| pub_timer := None |> in
  let period_ms := pub_period_ms p in
  if negb (pub_count p =? 0) then
    '(err, p1) ← publish_retransmit src p;
    Some (m <| mod_pub := Some
      (match err with
       | None => p1
       | Some _ =>
           let p2 := p1 <| pub_count := 0 |> in
           if period_ms =? 0 then p2 else p2 <| pub_timer := Some period_ms |>
       end) |>)
  else if period_ms =? 0 then Some (m <| mod_pub := Some p |>)
  else
    match update with
    | None => None
    | Some upd =>
        let (err, msg) := upd (pub_msg p) in
        match err with
        | Some _ => Some (m <| mod_pub := Some
            (publish_retransmit_end now (p <| pub_msg := msg |> <| pub_period_start := now |>)) |>)
        | None => snd <$> bt_mesh_model_publish now src
                    (m <| mod_pub := Some (p <| pub_msg := msg |>) |>)
        end
    end.

End Send.

(** ** Opcode round trip *)

(** One-octet opcodes other than the reserved 0x7f, two-octet opcodes starting
    with the bits 10, three-octet vendor opcodes starting with the bits 11. *)
Definition valid_opcode (op : Z) : bool :=
  ((0 <=? op) && (op <? 127)) || ((32768 <=? op) && (op <? 49152)) ||
  ((12582912 <=? op) && (op <? 16777216)).

(** The octets of an opcode on air. *)
Definition opcode_bytes (op : Z) : bytes :=
  if op <=? 255 then [u8 op]
  else if op <=? 65535 then sys_put_be16 (u16 op)
  else Z.land (Z.shiftr op 16) 255 :: sys_put_le16 (Z.land op 65535).

Lemma valid_opcode_cases op :
  valid_opcode op = true ->
  0 <= op < 127 \/ 32768 <= op < 49152 \/ 12582912 <= op < 16777216.
Proof.
  unfold valid_opcode. rewrite !orb_true_iff, !andb_true_iff, !Z.leb_le, !Z.ltb_lt. lia.
Qed.

Lemma length_opcode_bytes op : length (opcode_bytes op) = Z.to_nat (BT_MESH_MODEL_OP_LEN op).
Proof. unfold opcode_bytes, BT_MESH_MODEL_OP_LEN. by repeat case_if. Qed.

Lemma msg_init_ok op b :
  (length (opcode_bytes op) <= buf_size b)%nat ->
  exists b', bt_mesh_model_msg_init op b = Some (tt, b') /\ buf_wf b' /\
    abs b' = mkAbuf 0 (opcode_bytes op) (buf_size b - length (opcode_bytes op)).
Proof.
  intros Hs. unfold bt_mesh_model_msg_init. rewrite bind_modify.
  set (b0 := net_buf_simple_init 0 b).
  assert (abs b0 = mkAbuf 0 [] (buf_size b)) as E0.
  { destruct b as [d n m]. cbv [abs b0 net_buf_simple_init contents]. cbn.
    unfold net_buf_simple_tailroom, net_buf_simple_headroom, buf_size. cbn. f_equal. lia. }
  assert (buf_wf b0) as W0 by (destruct b; unfold b0, buf_wf, buf_size; cbn; lia).
  unfold opcode_bytes, BT_MESH_MODEL_OP_LEN in *.
  destruct (op <=? 255); [|destruct (op <=? 65535)].
  - destruct (add_put_ok [u8 op] b0 _ _ _ W0 E0 Hs) as (b' & E & A & W). eauto.
  - destruct (add_put_ok (sys_put_be16 (u16 op)) b0 _ _ _ W0 E0 Hs) as (b' & E & A & W). eauto.
  - cbn [length] in Hs.
    destruct (add_put_ok [Z.land (Z.shiftr op 16) 255] b0 _ _ _ W0 E0) as (b1 & E1 & A1 & W1);
      [cbn; lia|].
    destruct (add_put_ok (sys_put_le16 (Z.land op 65535)) b1 _ _ _ W1 A1) as (b2 & E2 & A2 & W2);
      [cbn in *; lia|].
    exists b2. unfold net_buf_simple_add_u8. rewrite (bind_some _ _ _ _ _ E1).
    split; [exact E2|]. split; [done|]. rewrite A2. f_equal. cbn. lia.
Qed.

Lemma get_opcode_ok op b h c t :
  valid_opcode op = true -> buf_wf b -> abs b = mkAbuf h (opcode_bytes op ++ c) t ->
  exists b', get_opcode b = Some ((None, op), b') /\ buf_wf b' /\
    abs b' = mkAbuf (h + length (opcode_bytes op)) c t.
Proof.
  intros Hv W A. pose proof (abs_len _ _ _ _ W A) as L. unfold get_opcode. rewrite bind_gets.
  unfold opcode_bytes in *. apply valid_opcode_cases in Hv as [Hv|[Hv|Hv]].
  - rewrite (proj2 (Z.leb_le op 255)) in * by lia. rewrite u8_id in * by (unfold is_u8; lia).
    rewrite (abs_head _ _ _ _ _ A). cbn [need]. rewrite bind_ret, bind_gets. cbv zeta.
    replace (Z.shiftr op 6 =? 0) with (op <? 64)
      by (rewrite shiftr_div by lia; apply eq_true_iff_eq; rewrite Z.ltb_lt, Z.eqb_eq; divmod).
    replace (Z.shiftr op 6 =? 1) with (64 <=? op)
      by (rewrite shiftr_div by lia; apply eq_true_iff_eq; rewrite Z.leb_le, Z.eqb_eq; divmod).
    replace ((op <? 64) || (64 <=? op)) with true
      by (symmetry; apply orb_true_iff; rewrite Z.ltb_lt, Z.leb_le; lia).
    rewrite (proj2 (Z.eqb_neq op 127)) by lia.
    destruct (pull_get_ok 1 (fun d => byte_at d 0) b h [op] c t W A eq_refl) as (b' & E & A' & W').
    exists b'. unfold net_buf_simple_pull_u8. by rewrite (bind_some _ _ _ _ _ E).
  - rewrite (proj2 (Z.leb_gt op 255)), (proj2 (Z.leb_le op 65535)) in * by lia.
    rewrite (u16_id op) in * by (unfold is_u16; lia).
    rewrite (abs_head _ _ (u8 (Z.shiftr op 8)) (u8 op :: c) t A).
    cbn [need]. rewrite bind_ret, bind_gets. cbv zeta.
    replace (Z.shiftr (u8 (Z.shiftr op 8)) 6) with 2
      by (rewrite !shiftr_div by lia; unfold u8; divmod).
    cbn [Z.eqb Pos.eqb orb]. rewrite L. cbn [length app Nat.ltb Nat.leb sys_put_be16].
    destruct (pull_get_ok 2 sys_get_be16 b h (sys_put_be16 op) c t W A eq_refl) as (b' & E & A' & W').
    exists b'. unfold net_buf_simple_pull_be16. rewrite (bind_some _ _ _ _ _ E).
    rewrite <- (app_nil_r (sys_put_be16 op)), get_put_be16 by (unfold is_u16; lia). done.
  - rewrite (proj2 (Z.leb_gt op 255)), (proj2 (Z.leb_gt op 65535)) in * by lia.
    cbn [app] in A, L. rewrite (abs_head _ _ _ _ _ A).
    change 65535 with (2 ^ 16 - 1) in *. change 255 with (2 ^ 8 - 1) in *.
    rewrite !land_mask, shiftr_div in * by lia.
    cbn [need]. rewrite bind_ret, bind_gets. cbv zeta.
    replace (Z.shiftr ((op / 2 ^ 16) mod 2 ^ 8) 6) with 3 by (rewrite shiftr_div by lia; divmod).
    cbn [Z.eqb Pos.eqb orb]. rewrite L. cbn [length app Nat.ltb Nat.leb sys_put_le16].
    destruct (pull_get_ok 1 (fun d => byte_at d 0) b h [(op / 2 ^ 16) mod 2 ^ 8] _ t W A eq_refl)
      as (b1 & E1 & A1 & W1).
    destruct (pull_get_ok 2 sys_get_le16 b1 _ (sys_put_le16 (op mod 2 ^ 16)) c t W1 A1 eq_refl)
      as (b2 & E2 & A2 & W2).
    exists b2. unfold net_buf_simple_pull_u8, net_buf_simple_pull_le16.
    rewrite (bind_some _ _ _ _ _ E1), (bind_some _ _ _ _ _ E2).
    rewrite <- (app_nil_r (sys_put_le16 _)), get_put_le16 by (apply Z.mod_pos_bound; lia).
    change (byte_at [(op / 2 ^ 16) mod 2 ^ 8] 0) with ((op / 2 ^ 16) mod 2 ^ 8).
    rewrite lor_shiftl_add by (lia || (apply Z.mod_pos_bound; lia)).
    split; [|split; [done|rewrite A2; f_equal; cbn; lia]].
    cbv [mret ST_ret]. do 3 f_equal. divmod.
Qed.

(** The opcode the sender writes is the opcode the receiver dispatches on.
    For every one-, two- or three-octet opcode, [get_opcode] on the message made by
    [bt_mesh_model_msg_init] and a payload succeeds, returns the opcode, and leaves
    exactly the payload for the handler. *)
Theorem opcode_roundtrip op payload b :
  valid_opcode op = true ->
  (Z.to_nat (BT_MESH_MODEL_OP_LEN op) + length payload <= buf_size b)%nat ->
  exists b', (_ ← bt_mesh_model_msg_init op; _ ← net_buf_simple_add_mem payload; get_opcode) b
             = Some ((None, op), b') /\ contents b' = payload.
Proof.
  intros Hv Hs. rewrite <- length_opcode_bytes in Hs.
  destruct (msg_init_ok op b) as (b1 & E1 & W1 & A1); [lia|].
  destruct (add_mem_ok payload b1 _ _ _ W1 A1) as (k & b2 & E2 & A2 & W2); [lia|].
  destruct (get_opcode_ok op b2 _ _ _ Hv W2 A2) as (b3 & E3 & W3 & A3).
  exists b3. rewrite (bind_some _ _ _ _ _ E1), (bind_some _ _ _ _ _ E2).
  split; [done|]. by injection A3.
Qed.

Lemma opcode_roundtrip_witness :
  exists b', (_ ← bt_mesh_model_msg_init (BT_MESH_MODEL_OP_3 187 1521);
              _ ← net_buf_simple_add_mem [83; 61]; get_opcode) (mkBuf 0 0 (replicate 19 0))
             = Some ((None, 16451057), b') /\ contents b' = [83; 61].
Proof.
  exact (opcode_roundtrip 16451057 [83; 61] (mkBuf 0 0 (replicate 19 0)) eq_refl
           ltac:(apply Nat.leb_le; vm_compute; reflexivity)).
Defined.

(** ** Element addresses *)

Lemma provision_elems_lookup addr es i :
  0 <= addr -> addr + Z.of_nat (length es) <= 32768 ->
  elem_addr <$> provision_elems addr es !! i =
  if (i <? length es)%nat then Some (addr + Z.of_nat i) else None.
Proof.
  revert addr i. induction es as [|e es IH]; intros addr i H0 H; cbn [provision_elems length].
  - by destruct i.
  - cbn [length] in H. destruct i as [|i].
    + cbn. f_equal. lia.
    + rewrite u16_id by (unfold is_u16; lia).
      change (elem_addr <$> provision_elems (addr + 1) es !! i =
              if (S i <? S (length es))%nat then Some (addr + Z.of_nat (S i)) else None).
      rewrite IH by lia. change (S i <? S (length es))%nat with (i <? length es)%nat.
      destruct (i <? length es)%nat; [f_equal; lia|done].
Qed.

Lemma length_provision_elems addr es : length (provision_elems addr es) = length es.
Proof. revert addr. induction es as [|e es IH]; intros addr; cbn; [done|]. by rewrite IH. Qed.

(** After provisioning, address lookup finds exactly the node's own
    elements.  When the elements' addresses stay unicast, element [i] answers to
    [addr + i], and [bt_mesh_elem_find] maps a unicast address to the element that
    has it and any other unicast address, below or above the node's range, to none
    in spite of the 16-bit wrap-around of the subtraction. *)
Theorem elem_find_provisioned addr c a :
  0 < addr -> comp_elem c <> [] -> addr + Z.of_nat (length (comp_elem c)) <= 32768 ->
  0 <= a -> BT_MESH_ADDR_IS_UNICAST a = true ->
  bt_mesh_elem_find (bt_mesh_comp_provision addr c) a =
    Some (if (addr <=? a) && (a <? addr + Z.of_nat (length (comp_elem c)))
          then Some (Z.to_nat (a - addr)) else None) /\
  forall i, (i < length (comp_elem c))%nat ->
    elem_addr <$> comp_elem (bt_mesh_comp_provision addr c) !! i = Some (addr + Z.of_nat i).
Proof.
  intros Haddr Hne Hmax Ha Hu. split.
  - unfold bt_mesh_elem_find. rewrite Hu. apply unicast_iff in Hu as [_ Hu].
    cbn [comp_elem bt_mesh_comp_provision assign].
    rewrite length_provision_elems. destruct (comp_elem c) as [|e es]; [done|].
    set (n := Z.of_nat (length (e :: es))) in *. cbn [provision_elems elem_addr assign].
    f_equal. destruct (Z.leb_spec addr a); cbn [andb].
    + rewrite u16_id by (unfold is_u16; lia).
      destruct (Z.ltb_spec a (addr + n)), (Z.ltb_spec (a - addr) n); try lia; done.
    + replace (u16 (a - addr)) with (a - addr + 2 ^ 16) by (unfold u16; divmod).
      destruct (Z.ltb_spec (a - addr + 2 ^ 16) n); [lia|done].
  - intros i Hi. cbn [comp_elem bt_mesh_comp_provision assign].
    rewrite provision_elems_lookup by lia. by rewrite (proj2 (Nat.ltb_lt i _) Hi).
Qed.

Definition comp_example : bt_mesh_comp := mkComp (replicate 3 (mkElem 0 [] [])) 0.

Lemma elem_find_provisioned_witness :
  bt_mesh_elem_find (bt_mesh_comp_provision 4 comp_example) 6 = Some (Some 2%nat) /\
  forall i, (i < 3)%nat ->
    elem_addr <$> comp_elem (bt_mesh_comp_provision 4 comp_example) !! i = Some (4 + Z.of_nat i).
Proof.
  exact (elem_find_provisioned 4 comp_example 6 eq_refl ltac:(discriminate)
           ltac:(vm_compute; discriminate) ltac:(vm_compute; discriminate) eq_refl).
Defined.

(** ** Delivery *)

(** Model of element [i] that receives a message, if any. *)
Definition receiver (c : bt_mesh_comp) (opcode : Z) (ctx : bt_mesh_msg_ctx) (len : nat)
    (i : nat) (e : bt_mesh_elem) : option (nat * nat * bt_mesh_model_op) :=
  '(j, m, o) ← find_op (if BT_MESH_MODEL_OP_LEN opcode <? 3 then elem_models e
                        else elem_vnd_models e) opcode 0;
  d ← model_has_dst c m (ctx_recv_dst ctx);
  if model_has_key m (ctx_app_idx ctx) && d && (op_min_len o <=? len)%nat
  then Some (i, j, o) else None.

(** All receivers, in the order of the elements. *)
Definition receivers (c : bt_mesh_comp) (opcode : Z) (ctx : bt_mesh_msg_ctx) (len : nat)
    : list (nat * nat * bt_mesh_model_op) :=
  omap id (imap (receiver c opcode ctx len) (comp_elem c)).

(** The element index every model records is that of its element. *)
Definition comp_wf (c : bt_mesh_comp) : Prop :=
  forall i e m, comp_elem c !! i = Some e -> m ∈ elem_models e ++ elem_vnd_models e ->
    mod_elem_idx m = i.

(** A handler that logs its call and consumes the whole message. *)
Definition logged : Type := nat * nat * bt_mesh_model_op * bytes * Z.

Definition logging (i j : nat) (o : bt_mesh_model_op) (ctx : bt_mesh_msg_ctx)
    (buf : net_buf_simple) (rssi : Z) : ST (bt_mesh_comp * list logged) net_buf_simple :=
  _ ← modify (fun s => (s.1, s.2 ++ [(i, j, o, contents buf, rssi)]));
  mret (buf <| buf_data := (buf_data buf + buf_len buf)%nat |> <| buf_len := 0%nat |>).

Lemma find_op_elem ms opcode k j m o :
  find_op ms opcode k = Some (j, m, o) -> m ∈ ms /\ o ∈ mod_ops m /\ op_opcode o = opcode.
Proof.
  revert k. induction ms as [|m0 ms IH]; intros k; cbn [find_op]; [done|].
  destruct (find_index _ (mod_ops m0)) as [x|] eqn:E.
  - apply find_index_Some in E as [(o' & Ho & Hp) _]. rewrite Ho. cbn.
    intros [= <- <- <-]. zbool. split; [by apply elem_of_cons; left|].
    split; [by eapply list_elem_of_lookup_2|done].
  - intros H. apply IH in H as (? & ? & ?). split; [by apply elem_of_cons; right|done].
Qed.

Lemma recv_elem_logging c log opcode ctx rssi i e buf :
  comp_wf c -> comp_elem c !! i = Some e ->
  recv_elem fst logging opcode ctx rssi i buf (c, log) =
  Some (buf, (c, log ++ match receiver c opcode ctx (buf_len buf) i e with
                        | Some (i, j, o) => [(i, j, o, contents buf, rssi)]
                        | None => []
                        end)).
Proof.
  intros Hwf He. unfold recv_elem, receiver. rewrite bind_gets. cbn [fst]. rewrite He.
  cbn [need]. rewrite bind_ret.
  set (ms := if BT_MESH_MODEL_OP_LEN opcode <? 3 then elem_models e else elem_vnd_models e).
  destruct (find_op ms opcode 0) as [[[j m] o]|] eqn:F; cbn [mbind option_bind];
    [|by rewrite app_nil_r].
  apply find_op_elem in F as (Hm & _ & _).
  assert (mod_elem_idx m = i) as Hi.
  { apply (Hwf i e m He), elem_of_app. unfold ms in Hm. destruct (_ <? 3); auto. }
  assert (exists d, model_has_dst c m (ctx_recv_dst ctx) = Some d) as [d Hd].
  { unfold model_has_dst. rewrite Hi, He. cbn. repeat case_if; eauto. }
  rewrite Hd. cbn [mbind option_bind].
  destruct (model_has_key m (ctx_app_idx ctx)); cbn [negb andb]; [|by rewrite app_nil_r].
  rewrite bind_gets. cbn [fst]. rewrite Hd. cbn [need]. rewrite bind_ret.
  destruct d; cbn [negb andb]; [|by rewrite app_nil_r].
  rewrite Nat.ltb_antisym. destruct (op_min_len o <=? buf_len buf)%nat; cbn [negb];
    [|by rewrite app_nil_r].
  by destruct buf.
Qed.

Lemma recv_loop_logging c opcode ctx rssi buf es k log :
  comp_wf c -> (forall i, (i < length es)%nat -> comp_elem c !! (k + i)%nat = es !! i) ->
  recv_loop fst logging opcode ctx rssi (length es) k buf (c, log) =
  Some (buf, (c, log ++ map (fun '(i, j, o) => (i, j, o, contents buf, rssi))
    (omap id (imap (fun n e => receiver c opcode ctx (buf_len buf) (k + n)%nat e) es)))).
Proof.
  intros Hwf. revert k log. induction es as [|e es IH]; intros k log Hes; cbn [recv_loop length].
  - cbn. by rewrite app_nil_r.
  - assert (comp_elem c !! k = Some e) as He
      by (rewrite <- (Nat.add_0_r k); apply (Hes 0%nat); cbn; lia).
    rewrite (bind_some _ _ _ _ _ (recv_elem_logging c log opcode ctx rssi k e buf Hwf He)).
    rewrite (IH (S k)); [|intros i Hi; rewrite Nat.add_succ_comm; apply (Hes (S i)); cbn; lia].
    do 3 f_equal. rewrite <- app_assoc. f_equal. rewrite imap_cons. cbn [omap list_omap].
    rewrite Nat.add_0_r.
    rewrite (imap_ext _ ((fun n e0 => receiver c opcode ctx (buf_len buf) (k + n)%nat e0) ∘ S) es)
      by (intros; cbn; f_equal; lia).
    unfold id at 2. by destruct (receiver c opcode ctx (buf_len buf) k e) as [[[? ?] ?]|].
Qed.

(** C15: A received access message reaches every model it is meant for and no
    other.  For any composition, the handlers called are exactly those of the
    [receivers]: one model per element, the first with the opcode, provided it is
    bound to the key the message was decrypted with, is addressed by the
    destination, and the payload has the handler's minimum length; each sees the
    same complete payload, even when an earlier handler consumed the buffer. *)
Theorem model_recv_delivers c op payload ctx rssi buf log :
  comp_wf c -> valid_opcode op = true -> buf_wf buf ->
  contents buf = opcode_bytes op ++ payload ->
  bt_mesh_model_recv fst logging ctx buf rssi (c, log) =
  Some (tt, (c, log ++ map (fun '(i, j, o) => (i, j, o, payload, rssi))
                         (receivers c op ctx (length payload)))).
Proof.
  intros Hwf Hop W Hc. unfold bt_mesh_model_recv.
  destruct (get_opcode_ok op buf _ payload _ Hop W (f_equal (fun x => mkAbuf _ x _) Hc))
    as (b1 & E1 & W1 & A1).
  rewrite E1. cbn [need]. rewrite bind_ret, bind_gets. cbn [fst].
  assert (contents b1 = payload) as Hp by (by injection A1).
  rewrite (bind_some _ _ _ _ _ (recv_loop_logging c op ctx rssi b1 (comp_elem c) 0 log Hwf
             (fun i _ => eq_refl))).
  by rewrite Hp, (abs_len _ _ _ _ W1 A1).
Qed.

(** A node with one element and one vendor model bound to application key 0. *)
Definition comp_vendor : bt_mesh_comp :=
  mkComp [mkElem 4 [mkModel (SIG 1) 0 0 None [BT_MESH_KEY_UNUSED] [0] []]
            [mkModel (VND 1521 0) 0 0 None [0; BT_MESH_KEY_UNUSED] [0; 0]
               [mkOp (BT_MESH_MODEL_OP_3 187 1521) 1]]] 4.

Lemma model_recv_delivers_witness :
  let ctx := mkCtx 0 0 2 4 0 7 false 0 in
  let buf := mkBuf 0 5 [251; 241; 5; 81; 61] in
  bt_mesh_model_recv fst logging ctx buf (-60) (comp_vendor, []) =
  Some (tt, (comp_vendor, [(0%nat, 0%nat, mkOp 16451057 1, [81; 61], -60)])).
Proof.
  intros ctx buf. apply (model_recv_delivers comp_vendor 16451057 [81; 61] ctx (-60) buf []).
  - intros [|[|i]] e m He Hm; cbn in He; try done. injection He as <-.
    cbn in Hm. rewrite !elem_of_cons in Hm. destruct Hm as [->|[->|Hm]]; [done..|].
    by apply not_elem_of_nil in Hm.
  - reflexivity.
  - vm_compute. lia.
  - reflexivity.
Defined.
