(* ===== verification/Distance.v ===== *)
(** * Distance estimate from the received signal strength

    [calculate_distance_in_metres] of both applications computes
    [pow(10, (-59 - rssi) / 27)] in [double].  The model keeps the exact value: a
    distance [10 ^ (e / 27)] is represented by the integer [e = -59 - rssi].  The
    program only compares it with 2 and converts it to [int8_t]; both are decided on
    [e] by comparing powers of integers.  The last section proves that these agree
    with the real number [10 ^ (e / 27)].  In [double] the two can differ only for a
    value within rounding error of an integer; for the 256 possible readings that
    happens only at [e] = 0, 27 and 54, where the exponent is an exact integer. *)

From Stdlib Require Import Reals Lra.
From S2P Require Import Prelude.

(** Numerator of the exponent [(default_tx - rssi) / (10 * env_factor)] over 27. *)
Definition calculate_distance_in_metres (rssi : Z) : Z := -59 - rssi.

(** [distance < 2] *)
Definition distance_lt_2 (e : Z) : bool := (e <? 0) || (10 ^ e <? 2 ^ 27).

(** Greatest [k <= n] with [k ^ 27 <= 10 ^ e]. *)
Fixpoint floor_distance (e : Z) (n : nat) : Z :=
  match n with
  | O => 0
  | S n' => if Z.of_nat n ^ 27 <=? 10 ^ e then Z.of_nat n else floor_distance e n'
  end.

(** Conversion of a [double] to [int8_t]: truncation, undefined when the truncated
    value does not fit. *)
Definition distance_to_int8 (e : Z) : option Z :=
  if e <? 0 then Some 0
  else if 128 ^ 27 <=? 10 ^ e then None
  else Some (floor_distance e 127).

Lemma floor_distance_bound e n :
  0 <= e -> 0 <= floor_distance e n <= Z.of_nat n /\
  (floor_distance e n) ^ 27 <= 10 ^ e /\
  (floor_distance e n < Z.of_nat n -> 10 ^ e < (floor_distance e n + 1) ^ 27).
Proof.
  intros He. induction n as [|n (IH1 & IH2 & IH3)]; cbn [floor_distance].
  - split; [lia|]. split; [|lia]. change (0 ^ 27) with 0. apply Z.pow_nonneg. lia.
  - destruct (Z.leb_spec (Z.of_nat (S n) ^ 27) (10 ^ e)) as [H|H].
    + split; [lia|]. split; [exact H|lia].
    + split; [lia|]. split; [exact IH2|]. intros _.
      destruct (Z.eq_dec (floor_distance e n) (Z.of_nat n)) as [E|E]; [|apply IH3; lia].
      assert (floor_distance e n + 1 = Z.of_nat (S n)) as Es by (rewrite E, Nat2Z.inj_succ; reflexivity).
      rewrite Es. exact H.
Qed.

(** The estimate is representable exactly when the reading is above -116 dBm. *)
Lemma distance_to_int8_defined rssi :
  is_i8 rssi -> -116 < rssi -> exists d, distance_to_int8 (calculate_distance_in_metres rssi) = Some d /\ 0 <= d <= 127.
Proof.
  unfold is_i8, calculate_distance_in_metres, distance_to_int8. intros H1 H2.
  destruct (Z.ltb_spec (-59 - rssi) 0); [exists 0; split; [done|lia]|].
  assert (10 ^ (-59 - rssi) < 128 ^ 27) as Hlt.
  { apply Z.le_lt_trans with (10 ^ 56); [apply Z.pow_le_mono_r; lia|reflexivity]. }
  rewrite (proj2 (Z.leb_gt _ _) Hlt). eexists. split; [done|].
  apply (floor_distance_bound (-59 - rssi) 127). lia.
Qed.

Lemma distance_to_int8_range e d : distance_to_int8 e = Some d -> 0 <= d <= 127.
Proof.
  unfold distance_to_int8. destruct (Z.ltb_spec e 0); [by intros [= <-]|].
  destruct (_ <=? _); [done|]. intros [= <-]. apply (floor_distance_bound e 127). done.
Qed.

(** ** Agreement with the real power *)

Section RealDistance.
Local Open Scope R_scope.

Definition real_distance (e : Z) : R := Rpower 10 (IZR e / 27).

Lemma real_distance_pow e : (real_distance e ^ 27)%R = Rpower 10 (IZR e).
Proof.
  unfold real_distance. rewrite <- Rpower_pow by apply exp_pos.
  rewrite Rpower_mult. f_equal. replace (INR 27) with 27%R by (cbn; lra). field.
Qed.

Lemma Rpower_10_IZR e : (0 <= e)%Z -> Rpower 10 (IZR e) = IZR (10 ^ e).
Proof.
  intros He. rewrite <- (Z2Nat.id e He) at 1. rewrite <- INR_IZR_INZ, Rpower_pow by lra.
  rewrite <- (Z2Nat.id e He) at 2. rewrite <- pow_IZR. done.
Qed.

Lemma pow_lt_mono x y n : 0 <= x -> x < y -> x ^ S n < y ^ S n.
Proof.
  intros H0 H. induction n as [|n IH]; [by rewrite !pow_1|].
  change (x * x ^ S n < y * y ^ S n). apply Rmult_le_0_lt_compat; auto. by apply pow_le.
Qed.

(** Comparing with an integer is comparing the 27th powers. *)
Lemma real_distance_lt e k :
  (0 <= e)%Z -> (0 <= k)%Z -> real_distance e < IZR k <-> (10 ^ e < k ^ 27)%Z.
Proof.
  intros He Hk. assert (0 < real_distance e) as Hp by apply exp_pos.
  assert ((real_distance e ^ 27)%R = IZR (10 ^ e)) as E
    by (rewrite real_distance_pow; by apply Rpower_10_IZR).
  assert ((IZR k ^ 27)%R = IZR (k ^ 27)) as Ek by apply (pow_IZR k 27).
  assert (0 <= IZR k) as Hk' by (apply IZR_le in Hk; done).
  split; intros H.
  - apply lt_IZR. rewrite <- E, <- Ek. apply (pow_lt_mono _ _ 26); lra.
  - apply IZR_lt in H. rewrite <- E, <- Ek in H.
    destruct (Rlt_or_le (real_distance e) (IZR k)) as [|Hle]; [done|].
    exfalso. apply (Rlt_irrefl (IZR k ^ 27)).
    eapply Rle_lt_trans; [|exact H]. apply pow_incr. done.
Qed.

Lemma real_distance_neg e : (e < 0)%Z -> 0 < real_distance e < 1.
Proof.
  intros He. split; [apply exp_pos|]. unfold real_distance.
  rewrite <- (Rpower_O 10) by lra. apply Rpower_lt; [lra|].
  apply IZR_lt in He. lra.
Qed.

(** The integer arithmetic of the model decides the real-valued distance.
    For every reading, the LED test [distance < 2] and the conversion of the
    distance to [int8_t] are those of the real number 10^((-59 - rssi)/27): the
    stored value is its integer part, and the conversion is undefined exactly when
    the distance is at least 128 m. *)
Theorem distance_exact rssi :
  let e := calculate_distance_in_metres rssi in
  (distance_lt_2 e = true <-> real_distance e < 2) /\
  match distance_to_int8 e with
  | Some d => IZR d <= real_distance e < IZR (d + 1) /\ (0 <= d <= 127)%Z
  | None => 128 <= real_distance e
  end.
Proof.
  intros e. unfold distance_lt_2, distance_to_int8.
  destruct (Z.ltb_spec e 0) as [He|He]; cbn [orb].
  - pose proof (real_distance_neg e He). split; [split; [lra|done]|].
    change (0 + 1)%Z with 1%Z. split; [lra|lia].
  - split; [rewrite Z.ltb_lt; symmetry; apply real_distance_lt; lia|].
    destruct (Z.leb_spec (128 ^ 27) (10 ^ e)) as [H|H].
    + apply Rnot_lt_le. intros Hlt. apply (real_distance_lt e 128) in Hlt; [|lia..]. lia.
    + destruct (floor_distance_bound e 127 He) as (H1 & H2 & H3).
      revert H1 H2 H3. generalize (floor_distance e 127) as d. intros d H1 H2 H3.
      split; [|exact H1]. split.
      * apply Rnot_lt_le. intros Hlt. apply (real_distance_lt e d) in Hlt; [|lia..]. by apply (Z.lt_irrefl (10 ^ e)), (Z.lt_le_trans _ (d ^ 27)).
      * apply real_distance_lt; [lia..|].
        destruct (Z.eq_dec d 127%Z) as [->|]; [exact H|apply H3; lia].
Qed.

End RealDistance.
