(* ===== verification/NodeTable.v ===== *)
(** * The neighbour table and the application messages

    The part that [Project/Beacon/src/reel_board.c] and
    [Project/Provisioner/src/mesh.c] share: the table [node_info] of neighbour
    records, its lookups, and the handling and making of the text messages R, S, T
    and U that keep it up to date.  [node_info] has STAT_COUNT slots of which the
    first [get_node_info_list_record_count()] are live; that is [record_count] on a
    beacon and [record_count - 1] on the provisioner, whose counter starts at 1, so
    the offset is an argument.  An access outside the array and the use of a null
    token are undefined behaviour. *)

From Stdlib Require Import String.
From S2P Require Import Prelude ByteOrder CString MeshDefs Distance.


(** ** Data *)

(** [struct stat]; names are the strings the character arrays hold. *)
Record stat : Type := mkStat {
  s_addr : Z;
  s_name : bytes;
  s_temperature : Z;
  s_humidity : Z;
  s_neighbour_addr : Z;
  s_neighbour_name : bytes;
  s_neighbour_temperature : Z;
  s_neighbour_humidity : Z;
  s_rssi : Z;
  s_distance : Z;
}.

#[export] Instance stat_eta : Eta stat := fun s =>
  mkStat (s_addr s) (s_name s) (s_temperature s) (s_humidity s) (s_neighbour_addr s)
    (s_neighbour_name s) (s_neighbour_temperature s) (s_neighbour_humidity s) (s_rssi s)
    (s_distance s).

Definition STAT_COUNT : nat := 10.
Definition stat_zero : stat := mkStat 0 [] 0 0 0 [] 0 0 0 0.

Record table : Type := mkTable { node_info : list stat; record_count : Z }.

#[export] Instance table_eta : Eta table := fun t => mkTable (node_info t) (record_count t).

(** ** Message text *)

Definition eq_sign : bytes := [ch_eq].
Definition MSG_MAX_LEN : nat := 12.

(** [char c = addr_string[strlen(addr_string) - 1]] of ["0x%04x"]. *)
Definition last_char (addr : Z) : Z := List.last (snprintf 8 (str "0x" ++ fmt_04x addr)) 0.

Definition sensor_info_message (name : bytes) (temperature humidity : Z) : bytes :=
  snprintf 12 (str "S=" ++ name ++ eq_sign ++ fmt_d temperature ++ eq_sign ++ fmt_d humidity).

Definition neighbour_addr_name_msg (addr : Z) (name : bytes) : bytes :=
  snprintf 10 (str "T=" ++ [last_char addr] ++ eq_sign ++ name).

Definition neighbour_addr_dist_message (addr distance : Z) (dev_name : bytes) : bytes :=
  snprintf 17 (str "U=" ++ [last_char addr] ++ eq_sign ++ fmt_d distance ++ eq_sign ++ snprintf 4 dev_name).

(** Length of the first word of a message. *)
Fixpoint get_first_word (message_str : bytes) : nat :=
  match message_str with
  | [] => 0%nat
  | c :: m => if (c =? 32) || (c =? 44) || (c =? 10) then 0%nat else S (get_first_word m)
  end.

(** [(uint16_t)strtol(address_str, NULL, 0)] for ["0X000%s"] cut to six characters. *)
Definition address_of_token (tok : bytes) : Z := u16 (strtol (snprintf 7 (str "0X000" ++ tok)) 0).

(** [strtok(msg_str, "=")] and then [strtok(NULL, "=")]: the second field of a
    message and the text after it. *)
Definition second_token (msg : bytes) : option bytes * option bytes :=
  let (_, save) := strtok (Some msg) eq_sign None in strtok None eq_sign save.

(** ** Table operations *)

Section Table.
  (** [get_node_info_list_record_count()] is [record_count - base];
      [my_address] is [get_my_address()]. *)
  Variables (base my_address : Z).

Definition get_node_info_list_record_count (t : table) : Z := record_count t - base.

(** [&node_info[i]] *)
Definition read_stat (i : nat) : ST table stat := s ← gets (fun t => node_info t !! i); need s.
Definition write_stat (i : nat) (s : stat) : ST table unit :=
  modify (fun t => t <| node_info := <[i := s]> (node_info t) |>).

Definition live (t : table) : nat := Z.to_nat (get_node_info_list_record_count t).

(** [for (i = 0; i < get_node_info_list_record_count(); i++)] over the records. *)
Definition each_stat (body : nat -> stat -> ST table unit) : ST table unit :=
  n ← gets live; for_loop n 0 (fun i => s ← read_stat i; body i s).

(** The same loop returning at the first record that satisfies a test. *)
Fixpoint scan (p : stat -> bool) (n i : nat) : ST table bool :=
  match n with
  | O => mret false
  | S n' => s ← read_stat i; if p s then mret true else scan p n' (S i)
  end.

Definition is_mine (a : Z) (s : stat) : bool := (s_addr s =? my_address) && (s_neighbour_addr s =? a).

Definition check_if_record_exists (address_hex : Z) : ST table bool :=
  if negb (address_hex =? BT_MESH_ADDR_UNASSIGNED) && negb (address_hex =? my_address)
  then n ← gets live; scan (is_mine address_hex) n 0
  else mret true.

Definition links (ctx_addr address_hex : Z) (s : stat) : bool :=
  negb (address_hex =? my_address) &&
  (((s_addr s =? ctx_addr) && (s_neighbour_addr s =? address_hex)) ||
   ((s_neighbour_addr s =? ctx_addr) && (s_addr s =? address_hex))).

Definition check_if_record_neighbour_exists (ctx_addr address_hex : Z) : ST table bool :=
  n ← gets live; scan (links ctx_addr address_hex) n 0.

(** [struct stat *stat = &node_info[count]; ...; record_count++] *)
Definition append_stat (f : stat -> option stat) : ST table unit :=
  n ← gets live;
  s ← read_stat n;
  s' ← need (f s);
  _ ← write_stat n s';
  modify (fun t => t <| record_count := u32 (record_count t + 1) |>).

(** A record of me and the sender takes the measured distance and signal strength. *)
Definition update_distance (from_address distance rssi : Z) : ST table unit :=
  each_stat (fun i s =>
    when (is_mine from_address s)
      (d ← need (distance_to_int8 distance);
       write_stat i (s <| s_distance := d |> <| s_rssi := i8 rssi |>))).

(** Fields two to four of an S message. *)
Definition store_sensor (message_str : bytes) (distance rssi : Z) (s : stat) : option stat :=
  let (tok1, save1) := second_token (snprintf 50 message_str) in
  name ← tok1;
  let (tok2, save2) := strtok None eq_sign save1 in
  temp ← tok2;
  let (tok3, _) := strtok None eq_sign save2 in
  hum ← tok3;
  d ← distance_to_int8 distance;
  Some (s <| s_neighbour_name := snprintf 4 name |>
          <| s_neighbour_temperature := atoi temp |>
          <| s_neighbour_humidity := atoi hum |>
          <| s_rssi := i8 rssi |> <| s_distance := d |>).

Definition receive_S (message_str : bytes) (from_address distance rssi : Z) : ST table unit :=
  each_stat (fun i s =>
    when (is_mine from_address s)
      (s' ← need (store_sensor message_str distance rssi s); write_stat i s')).

(** [cap] is the size of the local copy [msg_str]. *)
Definition receive_T (cap : nat) (message_str : bytes) (from_address : Z) : ST table unit :=
  let (tok, save) := second_token (snprintf cap message_str) in
  tok ← need tok;
  let address_hex := address_of_token tok in
  when (negb (address_hex =? BT_MESH_ADDR_UNASSIGNED))
    (is_record_exists ← check_if_record_neighbour_exists from_address address_hex;
     when (negb is_record_exists)
       (append_stat (fun s =>
          name ← fst (strtok None eq_sign save);
          Some (s <| s_addr := from_address |> <| s_neighbour_addr := address_hex |>
                  <| s_neighbour_name := snprintf 4 name |>)))).

(** The loop of the U message: every matching record takes two more fields. *)
Fixpoint update_U (from_address address_hex : Z) (n i : nat) (save : option bytes)
    : ST table unit :=
  match n with
  | O => mret tt
  | S n' =>
      s ← read_stat i;
      if (s_addr s =? from_address) && negb (s_addr s =? my_address)
         && (s_neighbour_addr s =? address_hex)
      then
        let (tok1, save1) := strtok None eq_sign save in
        d ← need tok1;
        let (tok2, save2) := strtok None eq_sign save1 in
        name ← need tok2;
        _ ← write_stat i (s <| s_distance := i8 (atoi d) |> <| s_name := snprintf 3 name |>);
        update_U from_address address_hex n' (S i) save2
      else update_U from_address address_hex n' (S i) save
  end.

Definition receive_U (cap : nat) (message_str : bytes) (from_address : Z) : ST table unit :=
  let (tok, save) := second_token (snprintf cap message_str) in
  tok ← need tok;
  let address_hex := address_of_token tok in
  is_record_exists ← check_if_record_neighbour_exists from_address address_hex;
  when is_record_exists
    (n ← gets live; update_U from_address address_hex n 0 save).

End Table.

(** ** Loops over the table as functions on lists *)

(** The first [n] elements changed by [h]. *)
Definition map_prefix {A : Type} (h : A -> A) (n : nat) (l : list A) : list A :=
  map h (take n l) ++ drop n l.

Lemma length_map_prefix {A : Type} (h : A -> A) n l : length (map_prefix h n l) = length l.
Proof.
  unfold map_prefix. rewrite length_app, length_map, length_take, length_drop. lia.
Qed.

Lemma map_prefix_insert {A : Type} (h : A -> A) n (l : list A) s :
  l !! n = Some s -> <[n := h s]> (map_prefix h n l) = map_prefix h (S n) l.
Proof.
  revert n. induction l as [|a l IH]; intros n Hs; [done|].
  destruct n as [|n]; cbn in Hs.
  - injection Hs as ->. by destruct l.
  - change (map_prefix h (S n) (a :: l)) with (h a :: map_prefix h n l).
    cbn. by rewrite IH.
Qed.

Lemma lookup_map_prefix {A : Type} (h : A -> A) n (l : list A) i :
  map_prefix h n l !! i = (if (i <? n)%nat then h else id) <$> l !! i.
Proof.
  revert n i. induction l as [|a l IH]; intros n i.
  - unfold map_prefix. rewrite take_nil, drop_nil. by destruct i.
  - destruct n as [|n].
    + unfold map_prefix. cbn. by destruct (l), i as [|i]; cbn; rewrite ?option_fmap_id.
    + change (map_prefix h (S n) (a :: l)) with (h a :: map_prefix h n l).
      destruct i as [|i]; [done|]. cbn [lookup list_lookup]. rewrite IH. done.
Qed.

Section Loops.
  Variable base : Z.

Definition table_ok (t : table) : Prop :=
  length (node_info t) = STAT_COUNT /\ 0 <= base <= 1 /\
  base <= record_count t <= base + Z.of_nat STAT_COUNT.

Lemma live_le t : table_ok t -> (live base t <= STAT_COUNT)%nat.
Proof. unfold table_ok, live, get_node_info_list_record_count. lia. Qed.

Lemma set_node_info_id t : t <| node_info := node_info t |> = t.
Proof. by destruct t. Qed.

(** A loop whose body replaces the record it is given. *)
Lemma for_loop_records (h : stat -> stat) (body : nat -> stat -> ST table unit) t n :
  (forall i s t, node_info t !! i = Some s ->
     body i s t = Some (tt, t <| node_info := <[i := h s]> (node_info t) |>)) ->
  forall k i, (i + k = n)%nat -> (n <= length (node_info t))%nat ->
  for_loop k i (fun i => s ← read_stat i; body i s)
    (t <| node_info := map_prefix h i (node_info t) |>) =
  Some (tt, t <| node_info := map_prefix h n (node_info t) |>).
Proof.
  intros Hb k. induction k as [|k IH]; intros i Hi Hn; cbn [for_loop].
  - by replace i with n by lia.
  - assert (exists s, node_info t !! i = Some s) as [s Hs]
      by (apply lookup_lt_is_Some; lia).
    assert (node_info (t <| node_info := map_prefix h i (node_info t) |>) !! i = Some s) as Hs'.
    { cbn. rewrite lookup_map_prefix, Hs, (proj2 (Nat.ltb_ge i i)) by lia. done. }
    assert ((s0 ← read_stat i; body i s0) (t <| node_info := map_prefix h i (node_info t) |>) =
      Some (tt, t <| node_info := map_prefix h (S i) (node_info t) |>)) as E.
    { unfold read_stat. rewrite (bind_some _ _ _ s (t <| node_info := map_prefix h i (node_info t) |>)).
      - rewrite (Hb i s _ Hs'). cbn. by rewrite (map_prefix_insert h i _ s Hs).
      - rewrite bind_gets, Hs'. done. }
    rewrite (bind_some _ _ _ _ _ E). apply IH; lia.
Qed.

Lemma each_stat_records (h : stat -> stat) (body : nat -> stat -> ST table unit) t :
  (forall i s t, node_info t !! i = Some s ->
     body i s t = Some (tt, t <| node_info := <[i := h s]> (node_info t) |>)) ->
  table_ok t ->
  each_stat base body t =
  Some (tt, t <| node_info := map_prefix h (live base t) (node_info t) |>).
Proof.
  intros Hb Hok. unfold each_stat. rewrite bind_gets.
  pose proof (live_le t Hok) as Hl. destruct Hok as (Hlen & _).
  rewrite <- (for_loop_records h body t (live base t) Hb (live base t) 0) by lia.
  f_equal. unfold map_prefix. cbn. by destruct t.
Qed.

Lemma scan_spec p n i t :
  (i + n <= length (node_info t))%nat ->
  scan p n i t = Some (existsb p (take n (drop i (node_info t))), t).
Proof.
  revert i. induction n as [|n IH]; intros i Hn; cbn [scan]; [done|].
  assert (exists s, node_info t !! i = Some s) as [s Hs] by (apply lookup_lt_is_Some; lia).
  unfold read_stat. rewrite (bind_some _ _ _ s t) by (by rewrite bind_gets, Hs).
  rewrite (drop_S _ s i Hs). cbn [take existsb firstn].
  destruct (p s); [done|]. cbn [orb]. by apply IH; lia.
Qed.

Lemma append_stat_spec f t s s' :
  table_ok t -> (live base t < STAT_COUNT)%nat ->
  node_info t !! live base t = Some s -> f s = Some s' ->
  append_stat base f t =
  Some (tt, mkTable (<[live base t := s']> (node_info t)) (record_count t + 1)).
Proof.
  intros (Hlen & Hb & Hr) Hlt Hs Hf. unfold append_stat. rewrite bind_gets.
  unfold read_stat. rewrite (bind_some _ _ _ s t) by (by rewrite bind_gets, Hs).
  rewrite Hf. cbn [need]. rewrite bind_ret. unfold write_stat. rewrite bind_modify.
  unfold modify. destruct t as [l rc]. cbn in *. rewrite u32_id; [done|].
  unfold is_u32, STAT_COUNT in *. lia.
Qed.

(** Appending past the last slot is an access outside the array. *)
Lemma append_stat_full f t :
  table_ok t -> live base t = STAT_COUNT -> append_stat base f t = None.
Proof.
  intros (Hlen & _) Hl. unfold append_stat. rewrite bind_gets. apply bind_none.
  unfold read_stat. rewrite bind_gets. rewrite lookup_ge_None_2 by lia. done.
Qed.

End Loops.

(** ** Fields of a message *)

(** A non-empty text without separator and NUL. *)
Definition is_field (f : bytes) : bool :=
  negb (length f =? 0)%nat && forallb (fun c => negb (c =? ch_eq) && negb (c =? 0)) f.

Lemma is_field_delim f :
  is_field f = true -> forallb (fun x => negb (is_delim eq_sign x)) f = true.
Proof.
  unfold is_field. intros H. zbool. apply forallb_forall. intros x Hx.
  rewrite forallb_forall in H0. specialize (H0 x Hx). zbool.
  unfold is_delim, eq_sign. cbn. rewrite orb_false_r. apply negb_true_iff.
  by apply Z.eqb_neq.
Qed.

Lemma is_field_nonzero f : is_field f = true -> Forall (fun c => c <> 0) f.
Proof.
  unfold is_field. intros H. zbool. apply List.Forall_forall. intros x Hx.
  rewrite forallb_forall in H0. specialize (H0 x Hx). by zbool.
Qed.

(** [strtok] cuts a message at its separators. *)
Lemma strtok_field f r save :
  is_field f = true -> save = Some (f ++ ch_eq :: r) -> strtok None eq_sign save = (Some f, Some r).
Proof.
  intros H ->. pose proof (is_field_delim f H) as D. destruct f as [|c f]; [done|].
  unfold strtok. cbn [app]. rewrite skip_delims_token by (cbn [forallb] in D; by zbool).
  change (c :: f ++ ch_eq :: r) with ((c :: f) ++ ch_eq :: r).
  by rewrite take_token_app.
Qed.

Lemma strtok_last f save :
  is_field f = true -> save = Some f -> strtok None eq_sign save = (Some f, None).
Proof.
  intros H ->. pose proof (is_field_delim f H) as D. destruct f as [|c f]; [done|].
  unfold strtok. rewrite skip_delims_token by (cbn [forallb] in D; by zbool).
  by rewrite take_token_end.
Qed.

(** The code letter of a message, its first field, and the rest. *)
Lemma second_token_cons x f r :
  x <> ch_eq -> is_field f = true ->
  second_token (x :: ch_eq :: f ++ ch_eq :: r) = (Some f, Some r).
Proof.
  intros Hx Hf. unfold second_token.
  replace (strtok (Some (x :: ch_eq :: f ++ ch_eq :: r)) eq_sign None)
    with (Some [x], Some (f ++ ch_eq :: r)).
  - by apply strtok_field.
  - assert (is_delim eq_sign x = false) as D.
    { unfold is_delim, eq_sign. cbn [existsb]. by rewrite (proj2 (Z.eqb_neq x ch_eq) Hx). }
    unfold strtok. rewrite skip_delims_token by done.
    change (x :: ch_eq :: f ++ ch_eq :: r) with ([x] ++ ch_eq :: f ++ ch_eq :: r).
    rewrite take_token_app; [done| |done]. cbn [forallb]. by rewrite D.
Qed.

(** ** Addresses travel as one hexadecimal digit *)

Lemma digit_in_range base c d : digit_in base c = Some d -> 0 <= d < base.
Proof.
  unfold digit_in, digit_val. intros H.
  destruct ((ch_0 <=? c) && (c <=? ch_9)) eqn:E1.
  { destruct (_ <? base) eqn:E; [|done]. injection H as <-. unfold ch_0 in *. zbool. lia. }
  destruct ((97 <=? c) && (c <=? 122)) eqn:E2.
  { destruct (_ <? base) eqn:E; [|done]. injection H as <-. zbool. lia. }
  destruct ((65 <=? c) && (c <=? 90)) eqn:E3; [|done].
  destruct (_ <? base) eqn:E; [|done]. injection H as <-. zbool. lia.
Qed.

(** The address read from a field is its first hexadecimal digit, or 0. *)
Lemma address_of_token_char c r :
  address_of_token (c :: r) = match digit_in 16 c with Some d => d | None => 0 end.
Proof.
  unfold address_of_token.
  change (snprintf 7 (str "0X000" ++ c :: r)) with [48; 88; 48; 48; 48; c].
  assert (strtol [48; 88; 48; 48; 48; c] 0 =
          Z.max LONG_MIN (Z.min LONG_MAX (match digit_in 16 c with Some d => d | None => 0 end))) as ->.
  { unfold strtol.
    change (strtol_sign (skip_space [48; 88; 48; 48; 48; c])) with (false, [48; 88; 48; 48; 48; c]).
    cbv iota beta.
    change (strtol_base 0 [48; 88; 48; 48; 48; c]) with (16, [48; 48; 48; c]). cbv iota beta zeta.
    change (parse_digits 16 0 [48; 48; 48; c])
      with (match digit_in 16 c with Some d => d | None => 0 end). done. }
  destruct (digit_in 16 c) as [d|] eqn:E; [|done].
  apply digit_in_range in E. unfold LONG_MIN, LONG_MAX.
  rewrite Z.max_r, Z.min_r by lia. apply u16_id. unfold is_u16. lia.
Qed.

Lemma last_digits fuel base n :
  2 <= base -> 0 <= n -> List.last (digits (S fuel) base n) 0 = n mod base.
Proof.
  intros Hb Hn. cbn [digits]. destruct (Z.ltb_spec n base).
  - cbn. by rewrite Z.mod_small.
  - apply List.last_last.
Qed.

Lemma length_digits fuel base n k :
  2 <= base -> 0 <= n < base ^ Z.of_nat (S k) -> (length (digits fuel base n) <= S k)%nat.
Proof.
  intros Hb. revert fuel n. induction k as [|k IH]; intros [|fuel] n Hn; cbn [digits length]; try lia.
  - rewrite (proj2 (Z.ltb_lt n base)); [cbn; lia|]. change (Z.of_nat 1) with 1 in Hn. lia.
  - destruct (Z.ltb_spec n base); [cbn; lia|]. rewrite length_app. cbn [length].
    assert (0 <= n / base < base ^ Z.of_nat (S k)) as H1.
    { split; [apply Z.div_pos; lia|]. apply Z.div_lt_upper_bound; [lia|].
      rewrite (Nat2Z.inj_succ (S k)), Z.pow_succ_r in Hn; lia. }
    specialize (IH fuel (n / base) H1). lia.
Qed.

Lemma last_char_digit a : is_u16 a -> last_char a = digit_char (a mod 16).
Proof.
  unfold is_u16. intros Ha. unfold last_char.
  assert (length (fmt_nat 16 a) <= 4)%nat as Hl.
  { unfold fmt_nat. rewrite length_map. apply (length_digits 20 16 a 3); [lia|].
    change (16 ^ Z.of_nat 4) with 65536. pow2. lia. }
  rewrite snprintf_fits.
  2: { rewrite length_app. unfold fmt_04x. rewrite length_app, length_replicate.
       cbn [length str]. lia. }
  unfold fmt_04x, fmt_nat in *. rewrite app_assoc.
  assert (digits 20 16 a <> []) as Hd by apply digits_nonempty.
  destruct (exists_last Hd) as (ds & d & E).
  pose proof (last_digits 19 16 a ltac:(lia) ltac:(lia)) as L. rewrite E, List.last_last in L.
  rewrite E, map_app, app_assoc. cbn [map]. by rewrite List.last_last, L.
Qed.

(** The digit a T, U or R message carries is read back as the address modulo 16. *)
Lemma address_of_last_char a r : is_u16 a -> address_of_token (last_char a :: r) = a mod 16.
Proof.
  intros Ha. rewrite address_of_token_char, last_char_digit by done.
  rewrite digit_in_char; [done| |lia]. apply Z.mod_pos_bound. lia.
Qed.

Lemma digit_char_field d : 0 <= d < 16 -> is_field [digit_char d] = true.
Proof.
  intros Hd. unfold is_field, digit_char, ch_eq, ch_0. cbn [length Nat.eqb negb forallb andb].
  rewrite andb_true_r. apply andb_true_iff. rewrite !negb_true_iff, !Z.eqb_neq.
  destruct (Z.ltb_spec d 10); lia.
Qed.

(** ** Invariant of the table *)

Section Invariant.
  Variables (base me : Z).

(** Every live record is a pair of a node and a neighbour; a pair occurs once,
    unless the neighbour is this node itself; this node is not its own neighbour. *)
Definition table_inv (t : table) : Prop :=
  table_ok base t /\
  (forall i j s s', (i < j < live base t)%nat -> node_info t !! i = Some s ->
     node_info t !! j = Some s' -> s_addr s = s_addr s' ->
     s_neighbour_addr s = s_neighbour_addr s' -> s_neighbour_addr s = me) /\
  (forall i s, (i < live base t)%nat -> node_info t !! i = Some s -> s_addr s = me ->
     s_neighbour_addr s <> me).

Lemma live_set_info t l : live base (t <| node_info := l |>) = live base t.
Proof. by destruct t. Qed.

(** Changing fields other than the two addresses keeps the invariant. *)
Lemma inv_map_prefix (h : stat -> stat) n t :
  (forall s, s_addr (h s) = s_addr s /\ s_neighbour_addr (h s) = s_neighbour_addr s) ->
  table_inv t -> table_inv (t <| node_info := map_prefix h n (node_info t) |>).
Proof.
  intros Hh (Hok & Hu & Hm).
  assert (forall i s, map_prefix h n (node_info t) !! i = Some s ->
    exists s0, node_info t !! i = Some s0 /\ s_addr s = s_addr s0 /\
      s_neighbour_addr s = s_neighbour_addr s0) as Hl.
  { intros i s H. rewrite lookup_map_prefix in H. apply fmap_Some in H as (s0 & H0 & ->).
    exists s0. destruct (i <? n)%nat; [|done]. by destruct (Hh s0). }
  split; [|split].
  - destruct Hok as (Hlen & Hb & Hr). split; [|done]. cbn. by rewrite length_map_prefix.
  - intros i j s s' Hij Hs Hs'. rewrite live_set_info in Hij. cbn in Hs, Hs'.
    apply Hl in Hs as (s0 & H0 & -> & ->). apply Hl in Hs' as (s0' & H0' & -> & ->).
    by apply (Hu i j).
  - intros i s Hi Hs. rewrite live_set_info in Hi. cbn in Hs.
    apply Hl in Hs as (s0 & H0 & -> & ->). by apply (Hm i).
Qed.

Lemma inv_insert t i s s' :
  node_info t !! i = Some s -> s_addr s' = s_addr s -> s_neighbour_addr s' = s_neighbour_addr s ->
  table_inv t -> table_inv (t <| node_info := <[i := s']> (node_info t) |>).
Proof.
  intros Hs Ha Hn (Hok & Hu & Hm).
  assert (forall k x, <[i := s']> (node_info t) !! k = Some x ->
    exists y, node_info t !! k = Some y /\ s_addr x = s_addr y /\
      s_neighbour_addr x = s_neighbour_addr y) as Hl.
  { intros k x Hx. apply list_lookup_insert_Some in Hx as [(-> & -> & _)|(_ & Hx)]; eauto. }
  split; [|split].
  - destruct Hok as (Hlen & Hb & Hr). split; [|done]. cbn. by rewrite length_insert.
  - intros k j x x' Hij Hx Hx'. rewrite live_set_info in Hij. cbn in Hx, Hx'.
    apply Hl in Hx as (y & Hy & -> & ->). apply Hl in Hx' as (y' & Hy' & -> & ->).
    by apply (Hu k j).
  - intros k x Hk Hx. rewrite live_set_info in Hk. cbn in Hx.
    apply Hl in Hx as (y & Hy & -> & ->). by apply (Hm k).
Qed.

Lemma live_append t l : table_ok base t -> live base (mkTable l (record_count t + 1)) = S (live base t).
Proof. unfold table_ok, live, get_node_info_list_record_count. cbn. lia. Qed.

(** A record whose pair is new may be appended. *)
Lemma inv_append t s' :
  table_inv t -> (live base t < STAT_COUNT)%nat ->
  (s_addr s' = me -> s_neighbour_addr s' <> me) ->
  (s_neighbour_addr s' <> me -> forall s, s ∈ take (live base t) (node_info t) ->
     ~ (s_addr s = s_addr s' /\ s_neighbour_addr s = s_neighbour_addr s')) ->
  table_inv (mkTable (<[live base t := s']> (node_info t)) (record_count t + 1)).
Proof.
  intros (Hok & Hu & Hm) Hlt Hme Hnew. pose proof Hok as (Hlen & Hb & Hr).
  split; [|split].
  - split; [cbn; by rewrite length_insert|]. split; [done|].
    cbn. unfold live, get_node_info_list_record_count in Hlt. lia.
  - intros i j s s2 Hij Hs Hs2 Ha Hn. rewrite live_append in Hij by done. cbn in Hs, Hs2.
    rewrite list_lookup_insert_ne in Hs by lia.
    destruct (decide (j = live base t)) as [->|Hj].
    + rewrite list_lookup_insert_eq in Hs2 by lia. injection Hs2 as <-.
      destruct (decide (s_neighbour_addr s' = me)) as [E|E]; [congruence|].
      exfalso. apply (Hnew E s); [|done].
      apply list_elem_of_lookup. exists i. rewrite lookup_take_lt; [done|lia].
    + rewrite list_lookup_insert_ne in Hs2 by done.
      apply (Hu i j s s2); [lia|done..].
  - intros i s Hi Hs. rewrite live_append in Hi by done. cbn in Hs.
    destruct (decide (i = live base t)) as [->|Hne].
    + rewrite list_lookup_insert_eq in Hs by lia. by injection Hs as <-.
    + rewrite list_lookup_insert_ne in Hs by done. apply (Hm i); [lia|done].
Qed.

(** ** The operations under the invariant *)

Definition set_distance (d rssi : Z) (s : stat) : stat :=
  s <| s_distance := d |> <| s_rssi := i8 rssi |>.

Lemma update_distance_ok t from dist rssi d :
  table_ok base t -> distance_to_int8 dist = Some d ->
  update_distance base me from dist rssi t =
  Some (tt, t <| node_info := map_prefix (fun s => if is_mine me from s then set_distance d rssi s else s)
                                (live base t) (node_info t) |>).
Proof.
  intros Hok Hd. apply (each_stat_records base); [|done].
  intros i s t0 Hs. destruct (is_mine me from s); cbn [when].
  - rewrite Hd. done.
  - rewrite list_insert_id by done. by rewrite set_node_info_id.
Qed.

Definition msg_S (name temp hum : bytes) : bytes :=
  [83] ++ eq_sign ++ name ++ eq_sign ++ temp ++ eq_sign ++ hum.

Definition set_sensor (name temp hum : bytes) (d rssi : Z) (s : stat) : stat :=
  s <| s_neighbour_name := snprintf 4 name |> <| s_neighbour_temperature := atoi temp |>
    <| s_neighbour_humidity := atoi hum |> <| s_rssi := i8 rssi |> <| s_distance := d |>.

Lemma store_sensor_ok name temp hum dist rssi d s :
  is_field name = true -> is_field temp = true -> is_field hum = true ->
  (length (msg_S name temp hum) < 50)%nat -> distance_to_int8 dist = Some d ->
  store_sensor (msg_S name temp hum) dist rssi s = Some (set_sensor name temp hum d rssi s).
Proof.
  intros Hn Ht Hh Hlen Hd. unfold store_sensor. rewrite snprintf_fits by done.
  unfold msg_S, eq_sign. cbn [app].
  rewrite (second_token_cons 83 name) by done. cbn [mbind option_bind].
  rewrite (strtok_field temp hum) by done. cbn [mbind option_bind].
  rewrite (strtok_last hum) by done. cbn [mbind option_bind]. by rewrite Hd.
Qed.

Lemma receive_S_ok t name temp hum from dist rssi d :
  table_ok base t -> is_field name = true -> is_field temp = true -> is_field hum = true ->
  (length (msg_S name temp hum) < 50)%nat -> distance_to_int8 dist = Some d ->
  receive_S base me (msg_S name temp hum) from dist rssi t =
  Some (tt, t <| node_info := map_prefix (fun s => if is_mine me from s
                                            then set_sensor name temp hum d rssi s else s)
                                (live base t) (node_info t) |>).
Proof.
  intros Hok Hn Ht Hh Hlen Hd. apply (each_stat_records base); [|done].
  intros i s t0 Hs. destruct (is_mine me from s); cbn [when].
  - rewrite (store_sensor_ok name temp hum dist rssi d) by done. done.
  - rewrite list_insert_id by done. by rewrite set_node_info_id.
Qed.

(** *** T: a neighbour of the sender *)

Definition msg_T (f name : bytes) : bytes := [84] ++ eq_sign ++ f ++ eq_sign ++ name.

Definition new_neighbour (from a : Z) (name : bytes) (s : stat) : stat :=
  s <| s_addr := from |> <| s_neighbour_addr := a |> <| s_neighbour_name := snprintf 4 name |>.

(** The records a scan of the live table looks at. *)
Lemma scan_live p t :
  table_ok base t -> (n ← gets (live base); scan p n 0) t =
  Some (existsb p (take (live base t) (node_info t)), t).
Proof.
  intros Hok. pose proof (live_le base t Hok) as Hl. destruct Hok as (Hlen & _).
  rewrite bind_gets, scan_spec by lia. done.
Qed.

Lemma receive_T_eq cap t f name from :
  table_ok base t -> is_field f = true -> is_field name = true ->
  (length (msg_T f name) < cap)%nat ->
  receive_T base me cap (msg_T f name) from t =
  if (address_of_token f =? 0) ||
     existsb (links me from (address_of_token f)) (take (live base t) (node_info t))
  then Some (tt, t)
  else append_stat base (fun s => Some (new_neighbour from (address_of_token f) name s)) t.
Proof.
  intros Hok Hf Hn Hlen. unfold receive_T. rewrite snprintf_fits by done.
  unfold msg_T, eq_sign. cbn [app]. rewrite (second_token_cons 84 f name) by done.
  cbn [need]. rewrite bind_ret. cbv zeta. unfold BT_MESH_ADDR_UNASSIGNED.
  destruct (address_of_token f =? 0); cbn [negb when orb]; [done|].
  unfold check_if_record_neighbour_exists.
  rewrite (bind_some _ _ _ _ _ (scan_live _ t Hok)).
  destruct (existsb _ _); cbn [negb when]; [done|].
  by rewrite (strtok_last name) by done.
Qed.

Lemma existsb_false_elem {A : Type} (p : A -> bool) l x : existsb p l = false -> x ∈ l -> p x = false.
Proof.
  intros H Hx. apply list_elem_of_In in Hx. destruct (p x) eqn:E; [|done].
  exfalso. assert (existsb p l = true) by (apply existsb_exists; eauto). congruence.
Qed.

(** A new neighbour is appended, unless known, and the invariant stays. *)
Lemma receive_T_ok cap t f name from :
  table_inv t -> from <> me -> (live base t < STAT_COUNT)%nat ->
  is_field f = true -> is_field name = true -> (length (msg_T f name) < cap)%nat ->
  exists t', receive_T base me cap (msg_T f name) from t = Some (tt, t') /\ table_inv t'.
Proof.
  intros Hinv Hfrom Hlt Hf Hn Hlen. pose proof Hinv as (Hok & _).
  rewrite receive_T_eq by done. destruct (_ || _) eqn:E; [by exists t|].
  apply orb_false_iff in E as [_ E].
  pose proof Hok as (Hlen' & _).
  assert (exists s, node_info t !! live base t = Some s) as [s Hs]
    by (apply lookup_lt_is_Some; lia).
  erewrite append_stat_spec; [|done..]. eexists. split; [done|].
  apply inv_append; [done|done|done|]. intros Hne x Hx [Ha Hnb]. cbn in Hne, Ha, Hnb.
  pose proof (existsb_false_elem _ _ x E Hx) as L. unfold links in L.
  rewrite Ha, Hnb, !Z.eqb_refl, (proj2 (Z.eqb_neq _ me) Hne) in L. done.
Qed.

(** *** U: the distance between the sender and one of its neighbours *)

Definition msg_U (f d name : bytes) : bytes :=
  [85] ++ eq_sign ++ f ++ eq_sign ++ d ++ eq_sign ++ name.

Definition is_pair (from a : Z) (s : stat) : bool :=
  (s_addr s =? from) && negb (s_addr s =? me) && (s_neighbour_addr s =? a).

Definition set_pair (d name : bytes) (s : stat) : stat :=
  s <| s_distance := i8 (atoi d) |> <| s_name := snprintf 3 name |>.

Lemma read_stat_ok i t s : node_info t !! i = Some s -> read_stat i t = Some (s, t).
Proof. intros H. unfold read_stat. by rewrite bind_gets, H. Qed.

Lemma update_U_nomatch from a n i save t :
  (i + n <= length (node_info t))%nat ->
  (forall j s, (i <= j < i + n)%nat -> node_info t !! j = Some s -> is_pair from a s = false) ->
  update_U me from a n i save t = Some (tt, t).
Proof.
  revert i. induction n as [|n IH]; intros i Hn H; cbn [update_U]; [done|].
  assert (exists s, node_info t !! i = Some s) as [s Hs] by (apply lookup_lt_is_Some; lia).
  rewrite (bind_some _ _ _ _ _ (read_stat_ok i t s Hs)).
  change ((s_addr s =? from) && negb (s_addr s =? me) && (s_neighbour_addr s =? a))
    with (is_pair from a s). rewrite (H i s) by (lia || done).
  apply IH; [lia|]. intros j s' Hj. apply H. lia.
Qed.

Lemma update_U_match from a n i d name t :
  is_field d = true -> is_field name = true ->
  (i + n <= length (node_info t))%nat ->
  (forall j k s s', (i <= j < k)%nat -> (k < i + n)%nat -> node_info t !! j = Some s ->
     node_info t !! k = Some s' -> is_pair from a s = true -> is_pair from a s' = false) ->
  (update_U me from a n i (Some (d ++ ch_eq :: name)) t = Some (tt, t) /\
   forall j s, (i <= j < i + n)%nat -> node_info t !! j = Some s -> is_pair from a s = false) \/
  exists j s, (i <= j < i + n)%nat /\ node_info t !! j = Some s /\ is_pair from a s = true /\
    update_U me from a n i (Some (d ++ ch_eq :: name)) t =
    Some (tt, t <| node_info := <[j := set_pair d name s]> (node_info t) |>).
Proof.
  intros Hd Hname. revert i. induction n as [|n IH]; intros i Hn H; cbn [update_U];
    [left; split; [done|]; lia|].
  assert (exists s, node_info t !! i = Some s) as [s Hs] by (apply lookup_lt_is_Some; lia).
  rewrite (bind_some _ _ _ _ _ (read_stat_ok i t s Hs)).
  change ((s_addr s =? from) && negb (s_addr s =? me) && (s_neighbour_addr s =? a))
    with (is_pair from a s). destruct (is_pair from a s) eqn:P.
  - right. exists i, s. split; [lia|]. split; [done|]. split; [done|].
    rewrite (strtok_field d name) by done. cbn [need]. rewrite bind_ret.
    rewrite (strtok_last name) by done. cbn [need]. rewrite bind_ret.
    unfold write_stat. rewrite bind_modify. apply update_U_nomatch.
    + cbn. rewrite length_insert. lia.
    + intros j s' Hj Hs'. cbn in Hs'. rewrite list_lookup_insert_ne in Hs' by lia.
      apply (H i j s s'); [lia|lia|done..].
  - destruct (IH (S i)) as [[E N]|(j & s' & Hj & Hs' & P' & E)]; [lia| | |].
    + intros j k x x' Hj Hk. apply H; lia.
    + left. split; [done|]. intros j x Hj Hx. destruct (decide (j = i)) as [->|]; [congruence|].
      apply (N j); [lia|done].
    + right. exists j, s'. split; [lia|done].
Qed.

Lemma receive_U_ok cap t f d name from :
  table_inv t -> is_field f = true -> is_field d = true -> is_field name = true ->
  (length (msg_U f d name) < cap)%nat ->
  exists t', receive_U base me cap (msg_U f d name) from t = Some (tt, t') /\ table_inv t' /\
    ((t' = t /\ forall j s, (j < live base t)%nat -> node_info t !! j = Some s ->
        is_pair from (address_of_token f) s = true -> address_of_token f = me) \/
     exists j s, (j < live base t)%nat /\ node_info t !! j = Some s /\
       is_pair from (address_of_token f) s = true /\
       t' = t <| node_info := <[j := set_pair d name s]> (node_info t) |>).
Proof.
  intros Hinv Hf Hd Hname Hlen. pose proof Hinv as (Hok & Hu & _).
  pose proof (live_le base t Hok) as Hl. pose proof Hok as (Hlen' & _).
  unfold receive_U. rewrite snprintf_fits by done.
  unfold msg_U, eq_sign. cbn [app]. rewrite (second_token_cons 85 f) by done.
  cbn [need]. rewrite bind_ret. cbv zeta. unfold check_if_record_neighbour_exists.
  rewrite (bind_some _ _ _ _ _ (scan_live _ t Hok)).
  destruct (existsb _ _) eqn:E; cbn [when].
  2: { exists t. split; [done|]. split; [done|]. left. split; [done|]. intros j s Hj Hs P.
       assert (s ∈ take (live base t) (node_info t)) as Hel
         by (apply list_elem_of_lookup; exists j; rewrite lookup_take_lt; done).
       pose proof (existsb_false_elem _ _ s E Hel) as L. unfold links, is_pair in *. zbool.
       rewrite H, H0, !Z.eqb_refl in L. cbn [andb orb] in L. rewrite andb_true_r in L.
       by zbool. }
  rewrite bind_gets.
  apply existsb_exists in E as (x & _ & Hx). unfold links in Hx.
  apply andb_true_iff in Hx as [Hme _].
  destruct (update_U_match from (address_of_token f) (live base t) 0 d name t)
    as [[E N]|(j & s & Hj & Hs & P & E)]; [done|done|lia| | |].
  - intros j k s s' Hjk Hk Hs Hs' P. destruct (is_pair _ _ s') eqn:P'; [|done].
    unfold is_pair in P, P'. zbool. exfalso.
    assert (s_neighbour_addr s = me) by (apply (Hu j k s s'); [lia|done|done|congruence..]).
    congruence.
  - exists t. split; [done|]. split; [done|]. left. split; [done|].
    intros j s Hj Hs P. rewrite (N j s) in P; [done|lia|done].
  - exists (t <| node_info := <[j := set_pair d name s]> (node_info t) |>).
    split; [done|]. split; [by apply (inv_insert t j s)|]. right. exists j, s. auto with lia.
Qed.

End Invariant.
