(* ===== verification/Board.v ===== *)
(** * The reel board: display, LEDs and sensor

    Model of [Project/Beacon/src/reel_board.c] below the mesh logic (the
    Provisioner's [reel_board.c] has the same functions).  The character frame
    buffer is the list of the lines printed since it was last cleared, the panel
    shows the lines of the last [cfb_framebuffer_finalize].  An LED has the device
    pointer that [configure_leds] binds and the state of its pin.  The sensor's
    last sample is part of the state; its driver is assumed to succeed. *)

From S2P Require Import Prelude CString.

Inductive font_size : Type := FONT_SMALL | FONT_MEDIUM | FONT_BIG.

(** [fonts[font].columns] *)
Definition columns (f : font_size) : nat :=
  match f with FONT_BIG => 12 | FONT_MEDIUM => 14 | FONT_SMALL => 26 end%nat.

(** One [cfb_print]: font, column and row in units of the font, text. *)
Record printed : Type := mkPrinted {
  pr_font : font_size;
  pr_pad : nat;
  pr_row : nat;
  pr_text : bytes;
}.

Record led : Type := mkLed {
  led_dev : bool;   (** [dev != NULL] *)
  led_on : bool;
}.

#[export] Instance led_eta : Eta led := fun l => mkLed (led_dev l) (led_on l).

Record board : Type := mkBoard {
  frame : list printed;
  panel : list printed;
  leds : list led;
  led_cntr : Z;
  led_timer : option bool;   (** [None] before [k_delayed_work_init], then pending *)
  temp_val1 : Z;             (** sample of SENSOR_CHAN_AMBIENT_TEMP *)
  humidity_val1 : Z;         (** sample of SENSOR_CHAN_HUMIDITY *)
}.

#[export] Instance board_eta : Eta board := fun b =>
  mkBoard (frame b) (panel b) (leds b) (led_cntr b) (led_timer b) (temp_val1 b)
    (humidity_val1 b).

Definition cfb_framebuffer_clear : ST board unit := modify (fun b => b <| frame := [] |>).
Definition cfb_framebuffer_finalize : ST board unit :=
  modify (fun b => b <| panel := frame b |>).

Definition print_line (f : font_size) (row : nat) (text : bytes) (len : nat) (center : bool)
    : ST board nat :=
  let len := Nat.min len (columns f) in
  let line := cstr (take len text) in
  let pad := if center then ((columns f - len) / 2)%nat else 0%nat in
  modify (fun b => b <| frame := frame b ++ [mkPrinted f pad row line] |>) ≫= fun _ =>
  mret len.

(** [len = snprintf(str, sizeof(str), ...); print_line(FONT_SMALL, row, str, len, center)]
    with [char str[100]]. *)
Definition print_str (row : nat) (s : bytes) (center : bool) : ST board unit :=
  print_line FONT_SMALL row (snprintf 100 s) (length s) center ≫= fun _ => mret tt.

Definition get_humidity (b : board) : Z := humidity_val1 b.

Definition get_temperature (b : board) : Z :=
  let temperature_value := temp_val1 b in
  if temperature_value <? 0 then 0 else temperature_value.

(** [k_delayed_work_submit(&led_timer, K_MSEC(100))] *)
Definition submit_led_timer : ST board unit :=
  gets led_timer ≫= fun t => need t ≫= fun _ =>
  modify (fun b => b <| led_timer := Some true |>).

Definition board_blink_leds : ST board unit := submit_led_timer.

Definition set_led_state (id : nat) (state : bool) : ST board unit :=
  gets (fun b => leds b !! id) ≫= fun l => need l ≫= fun l =>
  if led_dev l
  then modify (fun b => b <| leds := <[id := l <| led_on := state |>]> (leds b) |>)
  else undefined.

(** The handler of [led_timer]; it runs when the delay expires. *)
Definition led_timeout : ST board unit :=
  modify (fun b => b <| led_timer := Some false |>) ≫= fun _ =>
  gets (fun b => length (leds b)) ≫= fun n =>
  for_loop n 0 (fun i => set_led_state i false) ≫= fun _ =>
  gets led_cntr ≫= fun c =>
  if Z.of_nat n * 5 <=? c then modify (fun b => b <| led_cntr := 0 |>)
  else
    modify (fun b => b <| led_cntr := c + 1 |>) ≫= fun _ =>
    set_led_state (Z.to_nat (c mod Z.of_nat n)) true ≫= fun _ =>
    submit_led_timer.

(** [present i] tells whether [device_get_binding(leds[i].name)] finds the port. *)
Fixpoint configure_leds_loop (present : nat -> bool) (n i : nat) : ST board ret_code :=
  match n with
  | O => modify (fun b => b <| led_timer := Some false |>) ≫= fun _ => mret None
  | S n' =>
      if present i then
        modify (fun b => b <| leds := alter (fun _ => mkLed true false) i (leds b) |>) ≫= fun _ =>
        configure_leds_loop present n' (S i)
      else
        modify (fun b => b <| leds := alter (fun l => l <| led_dev := false |>) i (leds b) |>) ≫= fun _ =>
        mret (Some ENODEV)
  end.

Definition configure_leds (present : nat -> bool) : ST board ret_code :=
  gets (fun b => length (leds b)) ≫= fun n => configure_leds_loop present n 0.

Definition board_show_text (message_str : bytes) (center : bool) : ST board unit :=
  cfb_framebuffer_clear ≫= fun _ =>
  print_line FONT_SMALL 0 message_str (length message_str) center ≫= fun _ =>
  cfb_framebuffer_finalize.

Definition board_init (present : nat -> bool) : ST board unit :=
  modify (fun b => b <| frame := [] |>) ≫= fun _ =>
  cfb_framebuffer_clear ≫= fun _ =>
  configure_leds present ≫= fun _ => mret tt.

(** The board before [board_init]. *)
Definition board_reset (temp hum : Z) : board :=
  mkBoard [] [] (replicate 3 (mkLed false false)) 0 None temp hum.

(** ** Properties *)

(** The three LEDs are bound, the timer is initialised and the counter is in the
    range of one blink sequence. *)
Definition board_ok (b : board) : Prop :=
  length (leds b) = 3%nat /\ Forall (fun l => led_dev l = true) (leds b) /\
  is_Some (led_timer b) /\ 0 <= led_cntr b <= 15.

(** What an observer sees of the LEDs. *)
Definition lit (b : board) : list bool := map led_on (leds b).
Definition all_dark : list bool := [false; false; false].

(** [n] successive expiries of the timer. *)
Fixpoint expiries (n : nat) : ST board unit :=
  match n with O => mret tt | S n' => led_timeout ≫= fun _ => expiries n' end.

(** Nothing but the LEDs and their timer. *)
Definition same_screen (b b' : board) : Prop :=
  frame b' = frame b /\ panel b' = panel b /\ temp_val1 b' = temp_val1 b /\
  humidity_val1 b' = humidity_val1 b.

Lemma board_ok_leds b :
  board_ok b -> exists x y z, leds b = [mkLed true x; mkLed true y; mkLed true z].
Proof.
  intros (Hl & Hd & _). destruct (leds b) as [|[d1 x] [|[d2 y] [|[d3 z] [|? ?]]]]; try discriminate.
  rewrite !Forall_cons_iff in Hd. cbn in Hd. destruct Hd as (-> & -> & -> & _). eauto.
Qed.

(** One expiry before the end of the sequence lights exactly the next LED. *)
Lemma led_timeout_next b :
  board_ok b -> led_cntr b < 15 ->
  exists b', led_timeout b = Some (tt, b') /\ board_ok b' /\ led_cntr b' = led_cntr b + 1 /\
    led_timer b' = Some true /\ same_screen b b' /\
    lit b' = <[Z.to_nat (led_cntr b mod 3) := true]> all_dark.
Proof.
  intros Hok Hc. destruct (board_ok_leds b Hok) as (x & y & z & E).
  destruct Hok as (_ & _ & _ & Hr). destruct b as [fr pa le c ti te hu]. cbn in E, Hc, Hr. subst le.
  assert (Hm : c mod 3 = 0 \/ c mod 3 = 1 \/ c mod 3 = 2)
    by (pose proof (Z.mod_pos_bound c 3); lia).
  cbv -[Z.leb Z.modulo Z.add Z.to_nat Z.le]. rewrite (proj2 (Z.leb_gt 15 c)) by lia.
  destruct Hm as [Hm|[Hm|Hm]]; rewrite !Hm; cbv -[Z.leb Z.modulo Z.add Z.le];
    (eexists; split; [reflexivity|]); repeat split; eauto; try lia;
    repeat constructor.
Qed.

(** The expiry that ends the sequence. *)
Lemma led_timeout_last b :
  board_ok b -> led_cntr b = 15 ->
  exists b', led_timeout b = Some (tt, b') /\ board_ok b' /\ led_cntr b' = 0 /\
    led_timer b' = Some false /\ same_screen b b' /\ lit b' = all_dark.
Proof.
  intros Hok Hc. destruct (board_ok_leds b Hok) as (x & y & z & E).
  destruct b as [fr pa le c ti te hu]. cbn in E, Hc. subst le c.
  vm_compute. eexists; split; [reflexivity|]. repeat split; eauto; try lia; repeat constructor; done.
Qed.

Lemma expiries_running n b :
  board_ok b -> led_cntr b + Z.of_nat n <= 15 ->
  exists b', expiries n b = Some (tt, b') /\ board_ok b' /\
    led_cntr b' = led_cntr b + Z.of_nat n /\ (n <> 0%nat -> led_timer b' = Some true).
Proof.
  revert b. induction n as [|n IH]; intros b Hok Hn.
  - exists b. split; [done|]. split; [done|]. split; [lia|done].
  - destruct (led_timeout_next b Hok) as (b1 & E1 & Hok1 & Hc1 & Ht1 & _ & _); [lia|].
    destruct (IH b1 Hok1) as (b2 & E2 & Hok2 & Hc2 & Ht2); [lia|].
    exists b2. cbn [expiries]. rewrite (bind_some _ _ _ _ _ E1).
    split; [done|]. split; [done|]. split; [lia|]. intros _.
    destruct n as [|n]; [|by apply Ht2].
    cbv in E2. by injection E2 as <-.
Qed.

Lemma expiries_snoc n b b' :
  expiries n b = Some (tt, b') -> expiries (S n) b = led_timeout b'.
Proof.
  revert b. induction n as [|n IH]; intros b E.
  - cbv [expiries mret ST_ret] in E. injection E as <-. cbn [expiries].
    unfold mbind, ST_bind. by destruct (led_timeout b) as [[[] ?]|].
  - change (expiries (S (S n)) b) with ((led_timeout ≫= fun _ => expiries (S n)) b).
    cbn [expiries] in E. apply bind_inv in E as ([] & b1 & E1 & E2).
    rewrite (bind_some _ _ _ _ _ E1). by apply IH.
Qed.

(** A blink sequence always stops.  From any initialised board the timer
    keeps re-arming itself for the rest of the fifteen steps, and the expiry after
    them leaves every LED dark, the counter reset and the timer idle; no device
    pointer is dereferenced before it is bound. *)
Theorem blink_sequence_stops b :
  board_ok b ->
  (forall n, (0 < n)%nat -> led_cntr b + Z.of_nat n <= 15 ->
     exists b', expiries n b = Some (tt, b') /\ led_timer b' = Some true) /\
  exists b', expiries (Z.to_nat (16 - led_cntr b)) b = Some (tt, b') /\
     lit b' = all_dark /\ led_cntr b' = 0 /\ led_timer b' = Some false.
Proof.
  intros Hok. pose proof Hok as (_ & _ & _ & Hr). split.
  - intros n Hn Hle. destruct (expiries_running n b Hok Hle) as (b' & E & _ & _ & Ht).
    exists b'. split; [done|]. apply Ht. lia.
  - destruct (expiries_running (Z.to_nat (15 - led_cntr b)) b Hok) as (b1 & E1 & Hok1 & Hc1 & _); [lia|].
    destruct (led_timeout_last b1 Hok1) as (b2 & E2 & _ & Hc2 & Ht2 & _ & Hl2); [lia|].
    exists b2. replace (Z.to_nat (16 - led_cntr b)) with (S (Z.to_nat (15 - led_cntr b))) by lia.
    rewrite (expiries_snoc _ _ _ E1). auto.
Qed.

Definition board_example : board :=
  mkBoard [] [] (replicate 3 (mkLed true false)) 0 (Some true) 21 40.

Lemma blink_sequence_stops_witness :
  board_ok board_example /\
  exists b', expiries 16 board_example = Some (tt, b') /\
     lit b' = all_dark /\ led_cntr b' = 0 /\ led_timer b' = Some false.
Proof.
  assert (board_ok board_example) as H
    by (repeat split; [repeat constructor|by eexists|vm_compute; discriminate..]).
  split; [exact H|]. exact (proj2 (blink_sequence_stops board_example H)).
Defined.

(** Initialising the board establishes [board_ok] when the three ports exist. *)
Lemma board_init_ok present te hu :
  (forall i, (i < 3)%nat -> present i = true) ->
  exists b', board_init present (board_reset te hu) = Some (tt, b') /\ board_ok b'.
Proof.
  intros H. unfold board_init, configure_leds, board_reset.
  cbn -[Z.le]. cbv [mbind ST_bind modify gets]. cbn -[Z.le].
  cbv [mbind ST_bind modify]. rewrite !H by lia. cbn -[Z.le].
  eexists. split; [reflexivity|]. split; [done|]. split; [by repeat constructor|].
  split; [by eexists|cbn; lia].
Qed.

(** Every line printed on the small font fits the display's columns. *)
Lemma print_line_fits f row text len center b :
  exists p n, print_line f row text len center b = Some (n, b <| frame := frame b ++ [p] |>) /\
    (pr_pad p + length (pr_text p) <= columns f)%nat.
Proof.
  eexists _, _. split; [reflexivity|]. cbn [pr_pad pr_text].
  pose proof (length_cstr (take (Nat.min len (columns f)) text)) as H.
  rewrite length_take in H.
  destruct center; [|lia].
  pose proof (Nat.Div0.div_le_upper_bound (columns f - Nat.min len (columns f)) 2
    (columns f - Nat.min len (columns f))).
  lia.
Qed.
