(* ===== verification/AppCommon.v ===== *)
(** * Code the two applications share beyond the table

    Making and recording outgoing access messages, the text of the node status
    screen and the loop that answers every received message.  The functions are
    textually the same in [Project/Beacon/src] and [Project/Provisioner/src]. *)

From Stdlib Require Import String.
From S2P Require Import Prelude CString Hex MeshDefs NetBuf Access Distance NodeTable Board.


(** ** Outgoing messages *)

(** The arguments of one call of [bt_mesh_model_send]: destination, application
    key index, TTL and the access payload. *)
Record sent : Type := mkSent {
  sent_to : Z;
  sent_app_idx : Z;
  sent_ttl : Z;
  sent_data : bytes;
}.

Definition APP_IDX : Z := 0.
Definition DEFAULT_TTL : Z := 31.
Definition OP_VND_MSG : Z := BT_MESH_MODEL_OP_3 187 1521.

(** The message buffer of [send_message]; [None] when it overflows. *)
Definition message_buffer (message_str : bytes) : option bytes :=
  match (_ ← bt_mesh_model_msg_init OP_VND_MSG;
         net_buf_simple_add_mem (take (Nat.min MSG_MAX_LEN (get_first_word message_str)) message_str))
          (mkBuf 0 0 (replicate (3 + MSG_MAX_LEN + 4) 0)) with
  | Some (_, b) => Some (contents b)
  | None => None
  end.

(** [send_message] of the node [my_address]: the call it makes, if any. *)
Definition make_send (my_address to_address : Z) (message_str : bytes) : option (list sent) :=
  if (to_address =? my_address) || (to_address =? BT_MESH_ADDR_UNASSIGNED) then Some []
  else data ← message_buffer message_str; Some [mkSent to_address APP_IDX DEFAULT_TTL data].

(** The messages the final loop sends because of one live record. *)
Definition sends_for (my_address : Z) (my_name : bytes) (temperature humidity from_address : Z)
    (s : stat) : option (list sent) :=
  if s_addr s =? my_address then
    m1 ← make_send my_address (s_neighbour_addr s) (sensor_info_message my_name temperature humidity);
    if negb (s_neighbour_addr s =? from_address) then
      m2 ← make_send my_address from_address
             (neighbour_addr_name_msg (s_neighbour_addr s) (s_neighbour_name s));
      m3 ← make_send my_address from_address
             (neighbour_addr_dist_message (s_neighbour_addr s) (s_distance s) my_name);
      Some (m1 ++ m2 ++ m3)
    else Some m1
  else Some [].

Fixpoint sends_for_all (my_address : Z) (my_name : bytes) (temperature humidity from_address : Z)
    (ss : list stat) : option (list sent) :=
  match ss with
  | [] => Some []
  | s :: ss' =>
      m ← sends_for my_address my_name temperature humidity from_address s;
      ms ← sends_for_all my_address my_name temperature humidity from_address ss';
      Some (m ++ ms)
  end.

(** The live records, read one by one; [None] when the count exceeds the array. *)
Definition live_stats (base : Z) (t : table) : option (list stat) :=
  if (live base t <=? length (node_info t))%nat then Some (take (live base t) (node_info t)) else None.

(** ** Screens *)

Definition text : Type := bytes * bool.   (** line and whether it is centred *)

(** [line++] at every line. *)
Fixpoint print_lines (row : nat) (ls : list text) : ST board unit :=
  match ls with
  | [] => mret tt
  | (s, center) :: ls' => _ ← print_str row s center; print_lines (S row) ls'
  end.

Definition show_lines (ls : list text) : ST board unit :=
  _ ← cfb_framebuffer_clear; _ ← print_lines 0 ls; cfb_framebuffer_finalize.

Definition nl : bytes := [10].
Definition pct : bytes := [37].
Definition hex_addr (a : Z) : bytes := str "0x" ++ fmt_04x a.

Definition neighbour_line (s : stat) : text :=
  let temp_hum :=
    if (0 <=? s_neighbour_temperature s) && (0 <=? s_neighbour_humidity s)
    then snprintf 50 (fmt_d (s_neighbour_temperature s) ++ str "C " ++ fmt_d (s_neighbour_humidity s) ++ pct)
    else [] in
  (s_neighbour_name s ++ str ":" ++ hex_addr (s_neighbour_addr s) ++ str " " ++ fmt_d (s_distance s)
     ++ str "m " ++ fmt_d (s_rssi s) ++ str " " ++ temp_hum ++ nl, false).

Definition among_line (s : stat) : text :=
  (s_name s ++ str ":" ++ hex_addr (s_addr s) ++ str " " ++ s_neighbour_name s ++ str ":"
     ++ hex_addr (s_neighbour_addr s) ++ str " " ++ fmt_d (s_distance s) ++ str "m" ++ nl, false).

(** The lines of [show_node_status]. *)
Definition node_status_lines (my_address : Z) (my_name : bytes) (temperature humidity : Z)
    (ss : list stat) : list text :=
  let assigned := List.filter (fun s => negb (s_addr s =? BT_MESH_ADDR_UNASSIGNED)) ss in
  [(str "Node :" ++ my_name ++ str ": " ++ hex_addr my_address ++ str " :" ++ fmt_d temperature
      ++ str "C " ++ fmt_d humidity ++ pct ++ str " " ++ nl, true);
   (str "My Neighbours: " ++ nl, true)]
  ++ map neighbour_line (List.filter (fun s => s_addr s =? my_address) assigned)
  ++ (if (1 <? length ss)%nat then
        [(str "-----------------------" ++ nl, false); (str "Among Neighbours: " ++ nl, true)]
        ++ map among_line (List.filter (fun s => negb (s_addr s =? my_address)) assigned)
      else []).

(** [char s[8+1]; bin2hex(uuid, n, s, sizeof(s))] *)
Definition uuid_str (uuid : bytes) (n : nat) : option bytes :=
  '(_, s) ← bin2hex (take n uuid) (replicate 9 0); Some (cstr s).

(** ** Sending never overflows the message buffer *)

(** What goes on air for a text: the vendor opcode and the first word, cut to
    MSG_MAX_LEN. *)
Definition on_air (message_str : bytes) : bytes :=
  [251; 241; 5] ++ take (Nat.min MSG_MAX_LEN (get_first_word message_str)) message_str.

Lemma message_buffer_ok message_str : message_buffer message_str = Some (on_air message_str).
Proof.
  unfold message_buffer.
  set (text := take (Nat.min MSG_MAX_LEN (get_first_word message_str)) message_str).
  assert (length text <= MSG_MAX_LEN)%nat as Hl by (unfold text; rewrite length_take; lia).
  set (b0 := mkBuf 0 0 (replicate (3 + MSG_MAX_LEN + 4) 0)).
  destruct (msg_init_ok OP_VND_MSG b0) as (b1 & E1 & W1 & A1); [vm_compute; lia|].
  assert (buf_size b0 - length (opcode_bytes OP_VND_MSG) = 16)%nat as Hs by reflexivity.
  rewrite Hs in A1.
  destruct (add_mem_ok text b1 _ _ _ W1 A1) as (k & b2 & E2 & A2 & W2);
    [unfold MSG_MAX_LEN in Hl; lia|].
  rewrite (bind_some _ _ _ _ _ E1), E2. by injection A2 as _ -> _.
Qed.

(** The messages a call of [send_message] produces. *)
Definition send_result (my_address to_address : Z) (message_str : bytes) : list sent :=
  if (to_address =? my_address) || (to_address =? BT_MESH_ADDR_UNASSIGNED) then []
  else [mkSent to_address APP_IDX DEFAULT_TTL (on_air message_str)].

Lemma make_send_ok me to m : make_send me to m = Some (send_result me to m).
Proof. unfold make_send, send_result. rewrite message_buffer_ok. by destruct (_ || _). Qed.

(** The answers to a message, record by record. *)
Definition answers_for (me : Z) (name : bytes) (temp hum from : Z) (s : stat) : list sent :=
  if s_addr s =? me then
    send_result me (s_neighbour_addr s) (sensor_info_message name temp hum) ++
    (if s_neighbour_addr s =? from then []
     else send_result me from (neighbour_addr_name_msg (s_neighbour_addr s) (s_neighbour_name s)) ++
          send_result me from (neighbour_addr_dist_message (s_neighbour_addr s) (s_distance s) name))
  else [].

Lemma sends_for_ok me name temp hum from s :
  sends_for me name temp hum from s = Some (answers_for me name temp hum from s).
Proof.
  unfold sends_for, answers_for. destruct (s_addr s =? me); [|done].
  rewrite !make_send_ok. cbn [mbind option_bind].
  destruct (s_neighbour_addr s =? from); cbn [negb mbind option_bind]; [by rewrite app_nil_r|done].
Qed.

Lemma sends_for_all_ok me name temp hum from ss :
  sends_for_all me name temp hum from ss = Some (concat (map (answers_for me name temp hum from) ss)).
Proof.
  induction ss as [|s ss IH]; cbn [sends_for_all map concat]; [done|].
  rewrite sends_for_ok, IH. done.
Qed.

Lemma live_stats_ok base t :
  table_ok base t -> live_stats base t = Some (take (live base t) (node_info t)).
Proof.
  intros Hok. unfold live_stats. pose proof (live_le base t Hok). destruct Hok as (Hlen & _).
  by rewrite (proj2 (Nat.leb_le _ _)) by lia.
Qed.

(** ** Screens never fail *)

(** The printed form of a line at a row. *)
Definition printed_line (row : nat) (l : text) : printed :=
  let len := Nat.min (length l.1) 26 in
  mkPrinted FONT_SMALL (if l.2 then (26 - len) / 2 else 0)%nat row
    (cstr (take len (snprintf 100 l.1))).

Definition printed_lines (row : nat) (ls : list text) : list printed :=
  imap (fun i l => printed_line (row + i)%nat l) ls.

Lemma printed_lines_cons row l ls :
  printed_lines row (l :: ls) = printed_line row l :: printed_lines (S row) ls.
Proof.
  unfold printed_lines. rewrite imap_cons. f_equal; [by rewrite Nat.add_0_r|].
  apply imap_ext. intros i x _. cbn. f_equal. lia.
Qed.

Lemma print_lines_ok row ls b :
  print_lines row ls b = Some (tt, b <| frame := frame b ++ printed_lines row ls |>).
Proof.
  revert row b. induction ls as [|[s c] ls IH]; intros row b; cbn [print_lines].
  - cbn. rewrite app_nil_r. by destruct b.
  - assert (print_str row s c b = Some (tt, b <| frame := frame b ++ [printed_line row (s, c)] |>))
      as E by reflexivity.
    rewrite (bind_some _ _ _ _ _ E), IH, printed_lines_cons. cbn. by rewrite <- app_assoc.
Qed.

Lemma show_lines_ok ls b :
  show_lines ls b =
  Some (tt, b <| frame := printed_lines 0 ls |> <| panel := printed_lines 0 ls |>).
Proof.
  unfold show_lines, cfb_framebuffer_clear. rewrite bind_modify.
  rewrite (bind_some _ _ _ _ _ (print_lines_ok 0 ls _)). done.
Qed.

Lemma board_ok_show b fr pa : board_ok b -> board_ok (b <| frame := fr |> <| panel := pa |>).
Proof. by destruct b. Qed.
