(* ===== verification/Beacon.v ===== *)
(** * The beacon application

    Model of [Project/Beacon/src/mesh.c] and of the mesh part of
    [Project/Beacon/src/reel_board.c]: the provisioning callbacks, the reception
    of a message with its answers, and the start-up.  The state collects the static
    variables of the two files, the address of the element, and a trace of the
    calls of [bt_mesh_model_send].  [printk] is left out.  Each handler runs to
    completion before the next. *)

From Stdlib Require Import String.
From S2P Require Import Prelude CString MeshDefs NetBuf Access Distance NodeTable Board AppCommon.

Record beacon : Type := mkBeacon {
  b_table : table;
  b_board : board;
  provisioner_address : Z;
  my_address : Z;
  my_device_name : bytes;
  provisioner_device_name : bytes;
  is_message_recieved_from_prov : bool;
  is_prov_complete : bool;
  elements0_addr : Z;
  advertising : bool;        (** [bt_mesh_prov_enable] has been called *)
  b_sent : list sent;
}.

#[export] Instance beacon_eta : Eta beacon := fun b =>
  mkBeacon (b_table b) (b_board b) (provisioner_address b) (my_address b) (my_device_name b)
    (provisioner_device_name b) (is_message_recieved_from_prov b) (is_prov_complete b)
    (elements0_addr b) (advertising b) (b_sent b).

Definition my_device_uuid : bytes := [187; 187] ++ replicate 14 0.

Definition get_my_address (b : beacon) : Z := my_address b.
Definition get_provisioner_address (b : beacon) : Z := provisioner_address b.
Definition get_my_device_name (b : beacon) : bytes := my_device_name b.
Definition get_provisioner_device_name (b : beacon) : bytes := provisioner_device_name b.
Definition mesh_is_initialized (b : beacon) : bool :=
  negb (elements0_addr b =? BT_MESH_ADDR_UNASSIGNED).
Definition mesh_is_prov_complete (b : beacon) : bool := is_message_recieved_from_prov b.

Definition temperature_of (b : beacon) : Z := get_temperature (b_board b).
Definition humidity_of (b : beacon) : Z := get_humidity (b_board b).

(** Run a table operation as this node. *)
Definition on_table {A : Type} (m : Z -> ST table A) : ST beacon A :=
  a ← gets get_my_address; zoom b_table (m a).

Definition send_message (to_address : Z) (message_str : bytes) : ST beacon unit :=
  a ← gets get_my_address;
  ms ← need (make_send a to_address message_str);
  modify (fun b => b <| b_sent := b_sent b ++ ms |>).

(** ** Screens *)

Definition show_main : ST beacon unit :=
  b ← gets id;
  uuid ← need (uuid_str my_device_uuid 2);
  let sensor :=
    [(str "Temperature : " ++ fmt_d (temperature_of b) ++ str " C " ++ nl, false);
     (str "Humidity : " ++ fmt_d (humidity_of b) ++ pct ++ nl, false)] in
  let mesh :=
    if negb (mesh_is_initialized b) || negb (mesh_is_prov_complete b) then
      [(str "Mesh Info :" ++ nl, true);
       (str "Name : Unassigned" ++ nl, false);
       (str "UUID : " ++ uuid, false);
       (str "Address : Unassigned", false);
       (str "Status : Advertising" ++ nl, false)]
    else
      [(str "Mesh Info :" ++ nl, true);
       (str "Name : " ++ get_my_device_name b, false);
       (str "UUID : " ++ uuid, false);
       (str "Address : " ++ hex_addr (get_my_address b) ++ nl, false);
       (str "Status : Provisioned" ++ nl, false)] in
  zoom b_board (show_lines (mesh ++ sensor)).

Definition show_node_status : ST beacon unit :=
  b ← gets id;
  ss ← need (live_stats 0 (b_table b));
  zoom b_board (show_lines
    (node_status_lines (get_my_address b) (get_my_device_name b) (temperature_of b) (humidity_of b) ss)).

(** ** Reception *)

(** Message Q: the table restarts with the record of the provisioner. *)
Definition add_Q (from_address distance rssi : Z) : ST beacon unit :=
  b ← gets id;
  zoom b_table
    (_ ← modify (fun t => t <| record_count := 0 |>);
     s ← read_stat 0;
     d ← need (distance_to_int8 distance);
     _ ← write_stat 0
           (s <| s_name := snprintf 3 (get_my_device_name b) |>
              <| s_neighbour_name := snprintf 4 (get_provisioner_device_name b) |>
              <| s_addr := get_my_address b |>
              <| s_humidity := humidity_of b |>
              <| s_temperature := temperature_of b |>
              <| s_neighbour_addr := from_address |>
              <| s_rssi := i8 rssi |>
              <| s_distance := d |>);
     modify (fun t => t <| record_count := u32 (record_count t + 1) |>)).

(** Message R: a new neighbour announced by the provisioner. *)
Definition add_R (message_str : bytes) : ST beacon unit :=
  b ← gets id;
  let (tok, save) := second_token (snprintf 20 message_str) in
  tok ← need tok;
  let address_hex := address_of_token tok in
  zoom b_table
    (is_record_exists ← check_if_record_exists 0 (get_my_address b) address_hex;
     when (negb is_record_exists)
       (append_stat 0 (fun s =>
          name ← fst (strtok None eq_sign save);
          Some (s <| s_addr := get_my_address b |>
                  <| s_name := snprintf 3 (get_my_device_name b) |>
                  <| s_humidity := humidity_of b |>
                  <| s_temperature := temperature_of b |>
                  <| s_neighbour_addr := address_hex |>
                  <| s_neighbour_name := snprintf 4 name |>)))).

(** The answers: sensor values to every neighbour, the own neighbours to the sender. *)
Definition send_answers (from_address : Z) : ST beacon unit :=
  b ← gets id;
  ss ← need (live_stats 0 (b_table b));
  ms ← need (sends_for_all (get_my_address b) (get_my_device_name b) (temperature_of b)
               (humidity_of b) from_address ss);
  modify (fun b => b <| b_sent := b_sent b ++ ms |>).

Definition board_add_node_and_neighbours_data (from_address : Z) (message_str : bytes)
    (distance rssi : Z) : ST beacon unit :=
  _ ← when (contains message_str (str "Q")) (add_Q from_address distance rssi);
  _ ← when (contains message_str (str "R")) (add_R message_str);
  _ ← on_table (fun me => update_distance 0 me from_address distance rssi);
  _ ← when (contains message_str (str "S"))
        (on_table (fun me => receive_S 0 me message_str from_address distance rssi));
  _ ← when (contains message_str (str "T"))
        (on_table (fun me => receive_T 0 me 20 message_str from_address));
  _ ← when (contains message_str (str "U"))
        (on_table (fun me => receive_U 0 me 20 message_str from_address));
  _ ← send_answers from_address;
  show_node_status.

(** The names assigned by a Q message. *)
Definition take_names (message_str : bytes) (from_address : Z) : ST beacon unit :=
  let (tok1, save) := second_token (snprintf 32 message_str) in
  tok1 ← need tok1;
  _ ← modify (fun b => b <| provisioner_device_name := snprintf 2 tok1 |>);
  let (tok2, _) := strtok None eq_sign save in
  _ ← modify (fun b => b <| provisioner_address := from_address |>);
  tok2 ← need tok2;
  _ ← modify (fun b => b <| my_device_name := snprintf 4 tok2 |>);
  show_main.

(** [message_str] of the handler: at most MSG_MAX_LEN bytes of the payload. *)
Definition message_of (data : bytes) : bytes :=
  cstr (take (Nat.min (length data) MSG_MAX_LEN) data).

Definition receive_message (from_address : Z) (data : bytes) (rssi : Z) : ST beacon unit :=
  a ← gets get_my_address;
  if (from_address =? a) || (from_address =? BT_MESH_ADDR_UNASSIGNED) then mret tt
  else
    let message_str := message_of data in
    let distance := calculate_distance_in_metres rssi in
    _ ← when (distance_lt_2 distance) (zoom b_board board_blink_leds);
    _ ← modify (fun b => b <| is_message_recieved_from_prov := true |>);
    _ ← when (contains message_str (str "Q")) (take_names message_str from_address);
    board_add_node_and_neighbours_data from_address message_str distance rssi.

(** ** Provisioning and start-up *)

Definition prov_complete (assigned_address : Z) : ST beacon unit :=
  _ ← modify (fun b => b <| my_address := assigned_address |> <| is_prov_complete := true |>);
  show_main.

(** [bt_mesh_provision] as the application sees it: the composition takes the
    address, then [bt_mesh_start] calls the completion callback. *)
Definition provisioned (addr : Z) : ST beacon unit :=
  _ ← modify (fun b => b <| elements0_addr := addr |>);
  prov_complete addr.

(** [present] are the LED ports found, [stored] the address kept in flash by an
    earlier provisioning, which [settings_load] restores the way provisioning sets it. *)
Definition bt_ready (present : nat -> bool) (stored : option Z) : ST beacon unit :=
  _ ← zoom b_board (board_init present);
  _ ← match stored with Some addr => provisioned addr | None => mret tt end;
  b ← gets id;
  _ ← (if negb (is_prov_complete b) && negb (is_message_recieved_from_prov b) then
         _ ← modify (fun b => b <| advertising := true |>);
         zoom b_board (board_show_text (str "Advertising enabled" ++ nl ++ nl) false)
       else modify (fun b => b <| my_address := elements0_addr b |>));
  show_main.

Definition mesh_start (present : nat -> bool) (stored : option Z) : ST beacon unit :=
  _ ← modify (fun b => b <| my_address := BT_MESH_ADDR_UNASSIGNED |>
                         <| provisioner_address := BT_MESH_ADDR_UNASSIGNED |>
                         <| is_message_recieved_from_prov := false |>
                         <| is_prov_complete := false |>);
  bt_ready present stored.

(** The image loaded at power-up: zeroed statics. *)
Definition power_up (temp hum : Z) : beacon :=
  mkBeacon (mkTable (replicate STAT_COUNT stat_zero) 0) (board_reset temp hum) 0 0 [] [] false false
    0 false [].

(** ** Well-formed messages *)

(** The five messages of the protocol; the fields are texts. *)
Inductive app_message : Type :=
| MsgQ (prov name : bytes)
| MsgR (f name : bytes)
| MsgS (name temp hum : bytes)
| MsgT (f name : bytes)
| MsgU (f d name : bytes).

Definition msg_Q (prov name : bytes) : bytes := [81] ++ eq_sign ++ prov ++ eq_sign ++ name.
Definition msg_R (f name : bytes) : bytes := [82] ++ eq_sign ++ f ++ eq_sign ++ name.

Definition render (m : app_message) : bytes :=
  match m with
  | MsgQ prov name => msg_Q prov name
  | MsgR f name => msg_R f name
  | MsgS name temp hum => msg_S name temp hum
  | MsgT f name => msg_T f name
  | MsgU f d name => msg_U f d name
  end.

Definition code (m : app_message) : Z :=
  match m with MsgQ _ _ => 81 | MsgR _ _ => 82 | MsgS _ _ _ => 83 | MsgT _ _ => 84 | MsgU _ _ _ => 85 end.

Definition fields (m : app_message) : list bytes :=
  match m with
  | MsgQ a b | MsgR a b | MsgT a b => [a; b]
  | MsgS a b c | MsgU a b c => [a; b; c]
  end.

(** A field free of the code letters Q to U, which the receiver searches for
    anywhere in the message. *)
Definition plain (f : bytes) : bool :=
  is_field f && forallb (fun c => negb ((81 <=? c) && (c <=? 85))) f.

Definition wf_message (m : app_message) : bool :=
  forallb plain (fields m) && (length (render m) <=? MSG_MAX_LEN)%nat.

Lemma plain_field f : plain f = true -> is_field f = true.
Proof. unfold plain. intros H. by zbool. Qed.

Lemma plain_no_code f x : plain f = true -> 81 <= x <= 85 -> existsb (Z.eqb x) f = false.
Proof.
  unfold plain. intros H Hx. zbool. clear H.
  induction f as [|c f IH]; cbn in *; [done|]. zbool. rewrite IH by done.
  rewrite orb_false_r. apply Z.eqb_neq. intros ->.
  rewrite (proj2 (Z.leb_le 81 c)), (proj2 (Z.leb_le c 85)) in H by lia. done.
Qed.

Lemma wf_message_fields m : wf_message m = true -> Forall (fun f => plain f = true) (fields m).
Proof.
  unfold wf_message. intros H. zbool. apply List.Forall_forall. intros f Hf.
  by apply (proj1 (forallb_forall plain (fields m)) H f).
Qed.

Ltac wf_fields H :=
  apply wf_message_fields in H; cbn [fields] in H; rewrite ?Forall_cons_iff in H; destruct_and! H.

(** A well-formed message holds exactly one code letter. *)
Lemma contains_code m x :
  wf_message m = true -> 81 <= x <= 85 -> contains (render m) [x] = (x =? code m).
Proof.
  intros H Hx. rewrite contains_single.
  assert ((x =? ch_eq) = false) as He by (apply Z.eqb_neq; unfold ch_eq; lia).
  destruct m; wf_fields H;
    unfold render, msg_Q, msg_R, msg_S, msg_T, msg_U, eq_sign; cbn [app existsb];
    rewrite ?existsb_app; cbn [app existsb]; rewrite ?existsb_app; cbn [existsb];
    rewrite !plain_no_code by done; rewrite ?He; cbn [code orb]; by rewrite ?orb_false_r.
Qed.

Lemma render_nonzero m : wf_message m = true -> Forall (fun c => c <> 0) (render m).
Proof.
  intros H.
  assert (forall f, plain f = true -> Forall (fun c => c <> 0) f) as Hp
    by (intros; by apply is_field_nonzero, plain_field).
  assert (Forall (fun c => c <> 0) eq_sign) as He by (constructor; [done|constructor]).
  destruct m; wf_fields H; unfold render, msg_Q, msg_R, msg_S, msg_T, msg_U;
    rewrite ?Forall_app; repeat split; auto; by constructor.
Qed.

Lemma message_of_render m : wf_message m = true -> message_of (render m) = render m.
Proof.
  intros H. unfold message_of. pose proof (render_nonzero m H) as Hz.
  unfold wf_message in H. apply andb_true_iff in H as [_ H]. apply Nat.leb_le in H.
  rewrite Nat.min_l, firstn_all by done. by apply cstr_id.
Qed.

Lemma wf_message_length m : wf_message m = true -> (length (render m) <= 12)%nat.
Proof. unfold wf_message. intros H. apply andb_true_iff in H as [_ H]. by apply Nat.leb_le in H. Qed.

(** ** The handler as a sequence of total steps *)

Definition set_table (t : table) (b : beacon) : beacon := b <| b_table := t |>.

Lemma on_table_some {A : Type} (m : Z -> ST table A) b a t :
  m (my_address b) (b_table b) = Some (a, t) ->
  on_table m b = Some (a, set_table t b).
Proof. intros E. unfold on_table. rewrite bind_gets. by apply zoom_some. Qed.

Definition with_panel (fr : list printed) (b : beacon) : beacon :=
  b <| b_board := b_board b <| frame := fr |> <| panel := fr |> |>.

Lemma show_main_ok b : exists fr, show_main b = Some (tt, with_panel fr b).
Proof.
  unfold show_main. rewrite bind_gets.
  assert (exists u, uuid_str my_device_uuid 2 = Some u) as [u ->] by (vm_compute; eauto).
  cbn [need]. rewrite bind_ret. eexists. erewrite zoom_some; [|apply show_lines_ok]. reflexivity.
Qed.

Lemma show_node_status_ok b :
  table_ok 0 (b_table b) -> exists fr, show_node_status b = Some (tt, with_panel fr b).
Proof.
  intros Hok. unfold show_node_status. rewrite bind_gets. unfold id.
  rewrite live_stats_ok by done. cbn [need]. rewrite bind_ret.
  eexists. erewrite zoom_some; [|apply show_lines_ok]. reflexivity.
Qed.

(** The answers a beacon sends after handling a message of [from]. *)
Definition answers (from : Z) (b : beacon) : list sent :=
  concat (map (answers_for (my_address b) (my_device_name b) (temperature_of b) (humidity_of b) from)
            (take (live 0 (b_table b)) (node_info (b_table b)))).

Lemma finish_ok from b :
  table_ok 0 (b_table b) -> exists fr,
  (_ ← send_answers from; show_node_status) b =
  Some (tt, with_panel fr (b <| b_sent := b_sent b ++ answers from b |>)).
Proof.
  intros Hok. destruct (show_node_status_ok (b <| b_sent := b_sent b ++ answers from b |>))
    as [fr E]; [by destruct b|].
  exists fr. rewrite <- E. apply (bind_some (send_answers from) (fun _ => show_node_status) b tt).
  unfold send_answers. rewrite bind_gets. unfold id. rewrite live_stats_ok by done.
  cbn [need]. rewrite bind_ret, sends_for_all_ok. done.
Qed.

(** Effect of the first lines of the handler. *)
Definition blinked (e : Z) (bd : board) : board :=
  if distance_lt_2 e then bd <| led_timer := Some true |> else bd.

Definition received (e : Z) (b : beacon) : beacon :=
  b <| b_board := blinked e (b_board b) |> <| is_message_recieved_from_prov := true |>.

Lemma blink_ok e b :
  board_ok (b_board b) ->
  when (distance_lt_2 e) (zoom b_board board_blink_leds) b =
  Some (tt, b <| b_board := blinked e (b_board b) |>).
Proof.
  intros (_ & _ & [x Hx] & _). unfold blinked. destruct (distance_lt_2 e); cbn [when].
  - apply zoom_some. unfold board_blink_leds, submit_led_timer. by rewrite bind_gets, Hx.
  - by destruct b.
Qed.

Lemma board_ok_blinked e bd : board_ok bd -> board_ok (blinked e bd).
Proof.
  unfold blinked. destruct (distance_lt_2 e); [|done].
  intros (H1 & H2 & _ & H4). destruct bd. by repeat split; [..|eexists|apply H4|apply H4].
Qed.

(** What a well-formed R message does to the table. *)
Definition learned (b : beacon) (a : Z) (name : bytes) (s : stat) : stat :=
  s <| s_addr := my_address b |> <| s_name := snprintf 3 (my_device_name b) |>
    <| s_humidity := humidity_of b |> <| s_temperature := temperature_of b |>
    <| s_neighbour_addr := a |> <| s_neighbour_name := snprintf 4 name |>.

Definition learn_R (b : beacon) (f name : bytes) : ST table unit :=
  is_record_exists ← check_if_record_exists 0 (my_address b) (address_of_token f);
  when (negb is_record_exists)
    (append_stat 0 (fun s => Some (learned b (address_of_token f) name s))).

(** The table part of the handler for the messages other than Q. *)
Definition stage (b : beacon) (from e rssi : Z) (m : app_message) : ST table unit :=
  let me := my_address b in
  match m with
  | MsgQ _ _ => mret tt
  | MsgR f name => _ ← learn_R b f name; update_distance 0 me from e rssi
  | MsgS _ _ _ => _ ← update_distance 0 me from e rssi; receive_S 0 me (render m) from e rssi
  | MsgT _ _ => _ ← update_distance 0 me from e rssi; receive_T 0 me 20 (render m) from
  | MsgU _ _ _ => _ ← update_distance 0 me from e rssi; receive_U 0 me 20 (render m) from
  end.

Lemma add_R_eq b f name :
  is_field f = true -> is_field name = true -> (length (msg_R f name) <= 12)%nat ->
  add_R (msg_R f name) b = zoom b_table (learn_R b f name) b.
Proof.
  intros Hf Hn Hlen. unfold add_R. rewrite bind_gets. unfold id.
  rewrite snprintf_fits by lia. unfold msg_R, eq_sign. cbn [app].
  rewrite (second_token_cons 82 f name) by done. cbn [need]. rewrite bind_ret. cbv zeta.
  unfold learn_R. by rewrite (strtok_last name) by done.
Qed.

(** The handler dispatches on the one code letter of the message. *)
Lemma receive_message_stage b m from rssi t e :
  e = calculate_distance_in_metres rssi ->
  wf_message m = true -> code m <> 81 -> board_ok (b_board b) ->
  from <> my_address b -> from <> BT_MESH_ADDR_UNASSIGNED ->
  stage (received e b) from e rssi m (b_table b) = Some (tt, t) -> table_ok 0 t ->
  exists fr, receive_message from (render m) rssi b =
    Some (tt, with_panel fr (set_table t (received e b)
               <| b_sent := b_sent b ++ answers from (set_table t (received e b)) |>)).
Proof.
  intros He Hm Hq Hb Hne Hun Hst Hok. unfold receive_message. rewrite bind_gets.
  change (get_my_address b) with (my_address b).
  rewrite (proj2 (Z.eqb_neq _ _) Hne), (proj2 (Z.eqb_neq _ _) Hun). cbn [orb]. cbv zeta.
  rewrite message_of_render by done. rewrite <- He.
  rewrite (bind_some _ _ _ _ _ (blink_ok e b Hb)), bind_modify.
  change (b <| b_board := blinked e (b_board b) |> <| is_message_recieved_from_prov := true |>)
    with (received e b).
  destruct (finish_ok from (set_table t (received e b)) Hok) as [fr Hfin].
  change (b_sent (set_table t (received e b))) with (b_sent b) in Hfin.
  exists fr. rewrite <- Hfin.
  unfold board_add_node_and_neighbours_data.
  change (str "Q") with [81]. change (str "R") with [82]. change (str "S") with [83].
  change (str "T") with [84]. change (str "U") with [85].
  rewrite !contains_code by (done || lia).
  pose proof (wf_message_length m Hm) as Hlen.
  pose (upd me := update_distance 0 me from e rssi).
  destruct m as [|f name|name temp hum|f name|f d name]; [done|..]; wf_fields Hm;
    cbn [code Z.eqb Pos.eqb when render stage] in *; rewrite !bind_ret;
    apply bind_inv in Hst as ([] & t1 & E1 & E2).
  - rewrite (bind_some _ _ _ tt (set_table t1 (received e b))).
    + by rewrite (bind_some _ _ _ _ _ (on_table_some upd (set_table t1 (received e b)) tt t E2)).
    + rewrite add_R_eq by (by try apply plain_field). by apply zoom_some.
  - rewrite (bind_some _ _ _ _ _ (on_table_some upd (received e b) tt t1 E1)).
    by rewrite (bind_some _ _ _ _ _ (on_table_some
      (fun me => receive_S 0 me (msg_S name temp hum) from e rssi)
      (set_table t1 (received e b)) tt t E2)).
  - rewrite (bind_some _ _ _ _ _ (on_table_some upd (received e b) tt t1 E1)), bind_ret.
    by rewrite (bind_some _ _ _ _ _ (on_table_some
      (fun me => receive_T 0 me 20 (msg_T f name) from) (set_table t1 (received e b)) tt t E2)).
  - rewrite (bind_some _ _ _ _ _ (on_table_some upd (received e b) tt t1 E1)), !bind_ret.
    by rewrite (bind_some _ _ _ _ _ (on_table_some
      (fun me => receive_U 0 me 20 (msg_U f d name) from) (set_table t1 (received e b)) tt t E2)).
Qed.

Lemma update_inv b t from e rssi d :
  table_inv 0 (my_address b) t -> distance_to_int8 e = Some d ->
  exists t', update_distance 0 (my_address b) from e rssi t = Some (tt, t') /\
    table_inv 0 (my_address b) t' /\ live 0 t' = live 0 t.
Proof.
  intros Hinv Hd. pose proof Hinv as (Hok & _).
  rewrite (update_distance_ok 0 (my_address b) t from e rssi d Hok Hd).
  eexists. split; [done|]. split; [|by destruct t].
  apply inv_map_prefix; [|done]. intros s. by destruct (is_mine _ _ s).
Qed.

Lemma learn_R_ok b t f name :
  table_inv 0 (my_address b) t -> (live 0 t < STAT_COUNT)%nat ->
  exists t', learn_R b f name t = Some (tt, t') /\ table_inv 0 (my_address b) t'.
Proof.
  intros Hinv Hlt. pose proof Hinv as (Hok & _). pose proof Hok as (Hlen & _).
  unfold learn_R, check_if_record_exists, BT_MESH_ADDR_UNASSIGNED.
  set (a := address_of_token f).
  destruct (Z.eqb_spec a 0) as [Ha|Ha]; cbn [negb andb]; [by exists t|].
  destruct (Z.eqb_spec a (my_address b)) as [Hm|Hm]; cbn [negb]; [by exists t|].
  rewrite (bind_some _ _ _ _ _ (scan_live 0 (is_mine (my_address b) a) t Hok)).
  destruct (existsb _ _) eqn:E; cbn [negb when]; [by exists t|].
  assert (exists s, node_info t !! live 0 t = Some s) as [s Hs] by (apply lookup_lt_is_Some; lia).
  erewrite append_stat_spec; [|done..]. eexists. split; [done|].
  apply inv_append; [done|done|done|]. intros _ x Hx [H1 H2]. cbn in H1, H2.
  pose proof (existsb_false_elem _ _ x E Hx) as L. unfold is_mine in L.
  by rewrite H1, H2, !Z.eqb_refl in L.
Qed.

Lemma stage_ok b t from e rssi d m :
  table_inv 0 (my_address b) t -> (live 0 t < STAT_COUNT)%nat -> from <> my_address b ->
  distance_to_int8 e = Some d -> wf_message m = true ->
  exists t', stage b from e rssi m t = Some (tt, t') /\ table_inv 0 (my_address b) t'.
Proof.
  intros Hinv Hlt Hfrom Hd Hm. pose proof (wf_message_length m Hm) as Hlen.
  destruct (update_inv b t from e rssi d Hinv Hd) as (t1 & E1 & Hinv1 & Hl1).
  assert (live 0 t1 < STAT_COUNT)%nat as Hlt1 by lia.
  destruct m as [prov name|f name|name temp hum|f name|f dd name]; wf_fields Hm;
    cbn [stage render] in *.
  - by exists t.
  - destruct (learn_R_ok b t f name Hinv Hlt) as (t2 & E2 & Hinv2).
    rewrite (bind_some _ _ _ _ _ E2).
    destruct (update_inv b t2 from e rssi d Hinv2 Hd) as (t3 & E3 & Hinv3 & _). eauto.
  - rewrite (bind_some _ _ _ _ _ E1).
    rewrite (receive_S_ok 0 (my_address b) t1 name temp hum from e rssi d);
      [|apply Hinv1|by apply plain_field..|lia|done].
    eexists. split; [done|]. apply inv_map_prefix; [|done]. intros s. by destruct (is_mine _ _ s).
  - rewrite (bind_some _ _ _ _ _ E1).
    apply receive_T_ok; [done..|by apply plain_field|by apply plain_field|lia].
  - rewrite (bind_some _ _ _ _ _ E1).
    destruct (receive_U_ok 0 (my_address b) 20 t1 f dd name from) as (t2 & E2 & Hinv2 & _);
      [done|by apply plain_field..|lia|]. eauto.
Qed.

(** ** The provisioning message *)

Definition provisioner_record (b : beacon) (from rssi d : Z) (s : stat) : stat :=
  s <| s_name := snprintf 3 (my_device_name b) |>
    <| s_neighbour_name := snprintf 4 (provisioner_device_name b) |>
    <| s_addr := my_address b |> <| s_humidity := humidity_of b |>
    <| s_temperature := temperature_of b |> <| s_neighbour_addr := from |>
    <| s_rssi := i8 rssi |> <| s_distance := d |>.

Definition restarted (b : beacon) (from rssi d : Z) (s : stat) : table :=
  mkTable (<[0%nat := provisioner_record b from rssi d s]> (node_info (b_table b))) 1.

Lemma add_Q_ok b from e rssi d s :
  node_info (b_table b) !! 0%nat = Some s -> distance_to_int8 e = Some d ->
  add_Q from e rssi b = Some (tt, set_table (restarted b from rssi d s) b).
Proof.
  intros Hs Hd. unfold add_Q. rewrite bind_gets. unfold id. apply zoom_some.
  rewrite bind_modify. erewrite bind_some; [|apply read_stat_ok; exact Hs].
  rewrite Hd. cbn [need]. rewrite bind_ret. done.
Qed.

Lemma restarted_inv b from rssi d s :
  length (node_info (b_table b)) = STAT_COUNT -> from <> my_address b ->
  table_inv 0 (my_address b) (restarted b from rssi d s).
Proof.
  intros Hlen Hfrom. split; [|split].
  - split; [cbn; by rewrite length_insert|]. cbn. unfold STAT_COUNT. lia.
  - intros i j x y Hij. change (live 0 (restarted b from rssi d s)) with 1%nat in Hij. lia.
  - intros i x Hi Hx _. change (live 0 (restarted b from rssi d s)) with 1%nat in Hi.
    replace i with 0%nat in Hx by lia. cbn in Hx.
    rewrite list_lookup_insert_eq in Hx by (rewrite Hlen; unfold STAT_COUNT; lia).
    by injection Hx as <-.
Qed.

(** The state after the names of a Q message are taken. *)
Definition named (prov name : bytes) (from : Z) (b : beacon) : beacon :=
  b <| provisioner_device_name := snprintf 2 prov |> <| provisioner_address := from |>
    <| my_device_name := snprintf 4 name |>.

Lemma take_names_ok b prov name from :
  is_field prov = true -> is_field name = true -> (length (msg_Q prov name) <= 12)%nat ->
  exists fr, take_names (msg_Q prov name) from b = Some (tt, with_panel fr (named prov name from b)).
Proof.
  intros Hp Hn Hlen. destruct (show_main_ok (named prov name from b)) as [fr E]. exists fr.
  rewrite <- E. unfold take_names. rewrite snprintf_fits by lia.
  unfold msg_Q, eq_sign. cbn [app]. rewrite (second_token_cons 81 prov name) by done.
  cbn [need]. rewrite bind_ret, bind_modify. rewrite (strtok_last name) by done.
  rewrite bind_modify. cbn [need]. rewrite bind_ret, bind_modify. done.
Qed.

(** Measuring the distance again does not change the new record. *)
Lemma update_restarted b from e rssi d s :
  node_info (b_table b) !! 0%nat = Some s -> length (node_info (b_table b)) = STAT_COUNT ->
  distance_to_int8 e = Some d -> from <> my_address b ->
  update_distance 0 (my_address b) from e rssi (restarted b from rssi d s) =
  Some (tt, restarted b from rssi d s).
Proof.
  intros Hs Hlen Hd Hfrom.
  pose proof (restarted_inv b from rssi d s Hlen Hfrom) as (Hok & _).
  rewrite (update_distance_ok 0 (my_address b) _ from e rssi d Hok Hd).
  change (live 0 (restarted b from rssi d s)) with 1%nat. do 2 f_equal.
  unfold restarted. destruct (node_info (b_table b)) as [|s0 l]; [done|].
  set (r := provisioner_record b from rssi d s).
  assert (is_mine (my_address b) from r = true) as M
    by (apply andb_true_iff; split; apply Z.eqb_refl).
  assert (set_distance d rssi r = r) as D
    by (unfold r, set_distance, provisioner_record; destruct s; reflexivity).
  change (mkTable ((if is_mine (my_address b) from r then set_distance d rssi r else r) :: l) 1 =
          mkTable (r :: l) 1).
  by rewrite M, D.
Qed.

Lemma receive_Q_ok b prov name from rssi e d s :
  e = calculate_distance_in_metres rssi -> distance_to_int8 e = Some d ->
  board_ok (b_board b) -> node_info (b_table b) !! 0%nat = Some s ->
  length (node_info (b_table b)) = STAT_COUNT ->
  from <> my_address b -> from <> BT_MESH_ADDR_UNASSIGNED ->
  wf_message (MsgQ prov name) = true ->
  exists fr fr0, let b1 := with_panel fr0 (named prov name from (received e b)) in
    receive_message from (msg_Q prov name) rssi b =
    Some (tt, with_panel fr (set_table (restarted b1 from rssi d s) b1
           <| b_sent := b_sent b ++ answers from (set_table (restarted b1 from rssi d s) b1) |>)).
Proof.
  intros He Hd Hb Hs Hlen Hne Hun Hm.
  pose proof (contains_code _ 81 Hm ltac:(lia)) as C81. pose proof (contains_code _ 82 Hm ltac:(lia)) as C82.
  pose proof (contains_code _ 83 Hm ltac:(lia)) as C83. pose proof (contains_code _ 84 Hm ltac:(lia)) as C84.
  pose proof (contains_code _ 85 Hm ltac:(lia)) as C85. cbn [render code] in C81, C82, C83, C84, C85.
  pose proof (message_of_render _ Hm) as Hmsg. pose proof (wf_message_length _ Hm) as Hl.
  cbn [render] in Hmsg, Hl. wf_fields Hm.
  destruct (take_names_ok (received e b) prov name from) as [fr0 E0]; [by apply plain_field..|done|].
  set (b1 := with_panel fr0 (named prov name from (received e b))) in *.
  assert (my_address b1 = my_address b) as Hme by done.
  pose proof (add_Q_ok b1 from e rssi d s Hs Hd) as E1.
  pose proof (update_restarted b1 from e rssi d s Hs Hlen Hd ltac:(congruence)) as E2.
  pose proof (restarted_inv b1 from rssi d s Hlen ltac:(congruence)) as (Hok & _).
  destruct (finish_ok from (set_table (restarted b1 from rssi d s) b1) Hok) as [fr Hfin].
  exists fr, fr0. cbv zeta. fold b1.
  change (b_sent (set_table (restarted b1 from rssi d s) b1)) with (b_sent b) in Hfin.
  rewrite <- Hfin. unfold receive_message. rewrite bind_gets.
  change (get_my_address b) with (my_address b).
  rewrite (proj2 (Z.eqb_neq _ _) Hne), (proj2 (Z.eqb_neq _ _) Hun). cbn [orb]. cbv zeta.
  rewrite Hmsg, <- He.
  rewrite (bind_some _ _ _ _ _ (blink_ok e b Hb)), bind_modify.
  change (b <| b_board := blinked e (b_board b) |> <| is_message_recieved_from_prov := true |>)
    with (received e b).
  unfold board_add_node_and_neighbours_data.
  change (str "Q") with [81]. change (str "R") with [82]. change (str "S") with [83].
  change (str "T") with [84]. change (str "U") with [85].
  rewrite C81, C82, C83, C84, C85. cbn [Z.eqb Pos.eqb when].
  rewrite (bind_some _ _ _ _ _ E0), (bind_some _ _ _ _ _ E1), bind_ret.
  pose (upd me := update_distance 0 me from e rssi).
  rewrite (bind_some _ _ _ _ _ (on_table_some upd (set_table (restarted b1 from rssi d s) b1) tt _ E2)).
  by rewrite !bind_ret.
Qed.

(** ** Invariant of the application *)

Definition beacon_inv (b : beacon) : Prop :=
  board_ok (b_board b) /\ table_inv 0 (my_address b) (b_table b).

Lemma board_ok_received e b fr :
  board_ok (b_board b) -> board_ok (b_board (with_panel fr (received e b))).
Proof. intros H. apply (board_ok_show (blinked e (b_board b))), board_ok_blinked, H. Qed.

Lemma inv_received e b t fr sn :
  board_ok (b_board b) -> table_inv 0 (my_address b) t ->
  beacon_inv (with_panel fr (set_table t (received e b) <| b_sent := sn |>)).
Proof. intros H1 H2. split; [exact (board_ok_received e b fr H1)|exact H2]. Qed.

Lemma slot0 t me : table_inv 0 me t -> exists s, node_info t !! 0%nat = Some s.
Proof.
  intros ((Hlen & _) & _). apply lookup_lt_is_Some. rewrite Hlen. unfold STAT_COUNT. lia.
Qed.

(** The handler keeps the invariant on every well-formed message. *)
Lemma receive_message_inv b from m rssi :
  beacon_inv b -> wf_message m = true -> (live 0 (b_table b) < STAT_COUNT)%nat ->
  is_i8 rssi -> -116 < rssi ->
  exists b', receive_message from (render m) rssi b = Some (tt, b') /\ beacon_inv b' /\
    my_address b' = my_address b /\ is_prov_complete b' = is_prov_complete b /\
    (from <> my_address b -> from <> BT_MESH_ADDR_UNASSIGNED ->
     b_sent b' = b_sent b ++ answers from b').
Proof.
  intros [Hb Hinv] Hm Hlt Hi Hr.
  destruct (decide (from = my_address b)) as [E|Hne].
  { exists b. split; [|split; done]. unfold receive_message. rewrite bind_gets.
    unfold get_my_address. by rewrite (proj2 (Z.eqb_eq from (my_address b)) E). }
  destruct (decide (from = BT_MESH_ADDR_UNASSIGNED)) as [E|Hun].
  { exists b. split; [|split; done]. unfold receive_message. rewrite bind_gets.
    rewrite (proj2 (Z.eqb_eq from _) E), orb_true_r. done. }
  destruct (distance_to_int8_defined rssi Hi Hr) as (d & Hd & _).
  destruct (decide (code m = 81)) as [Hq|Hq].
  - destruct m as [prov name| | | |]; try done. destruct (slot0 _ _ Hinv) as [s Hs].
    pose proof Hinv as ((Hlen & _) & _).
    destruct (receive_Q_ok b prov name from rssi _ d s eq_refl Hd Hb Hs Hlen Hne Hun Hm)
      as (fr & fr0 & E). cbv zeta in E. eexists. split; [exact E|]. split; [|done].
    split; [|by apply (restarted_inv (with_panel fr0 (named prov name from (received _ b))))].
    exact (board_ok_received _ b fr Hb).
  - destruct (stage_ok (received (calculate_distance_in_metres rssi) b) (b_table b) from
                (calculate_distance_in_metres rssi) rssi d m Hinv Hlt Hne Hd Hm) as (t & E & Hinv').
    pose proof Hinv' as (Hok & _).
    destruct (receive_message_stage b m from rssi t _ eq_refl Hm Hq Hb Hne Hun E Hok) as (fr & E').
    eexists. split; [exact E'|]. split; [by apply inv_received|done].
Qed.
