(* ===== verification/BeaconProps.v ===== *)
(** * Properties of the beacon application

    Reachable states, absence of undefined behaviour on well-formed traffic, the
    effect of each message, and the limits of the protocol that the code does not
    guard. *)

From Stdlib Require Import String.
From S2P Require Import Prelude ByteOrder CString MeshDefs NetBuf Access Distance NodeTable Board.
From S2P Require Import AppCommon Beacon.

(** ** Reachable states *)

Inductive beacon_reachable : beacon -> Prop :=
| reach_start present stored temp hum b :
    (forall i, (i < 3)%nat -> present i = true) ->
    mesh_start present stored (power_up temp hum) = Some (tt, b) -> beacon_reachable b
| reach_provisioned b addr b' :
    beacon_reachable b -> is_prov_complete b = false -> provisioned addr b = Some (tt, b') ->
    beacon_reachable b'
| reach_message b from m rssi b' :
    beacon_reachable b -> is_prov_complete b = true -> wf_message m = true -> is_i8 rssi ->
    -116 < rssi -> (live 0 (b_table b) < STAT_COUNT)%nat ->
    receive_message from (render m) rssi b = Some (tt, b') -> beacon_reachable b'
| reach_led b b' :
    beacon_reachable b -> led_timer (b_board b) = Some true ->
    zoom b_board led_timeout b = Some (tt, b') -> beacon_reachable b'
| reach_sample b temp hum :
    beacon_reachable b ->
    beacon_reachable (b <| b_board := b_board b <| temp_val1 := temp |> <| humidity_val1 := hum |> |>).

(** Until provisioning the table is empty. *)
Definition start_inv (b : beacon) : Prop :=
  beacon_inv b /\ (is_prov_complete b = false -> live 0 (b_table b) = 0%nat).

Lemma empty_table_inv me t : table_ok 0 t -> live 0 t = 0%nat -> table_inv 0 me t.
Proof. intros Hok Hl. split; [done|]. rewrite Hl. split; intros; lia. Qed.

Lemma provisioned_ok b addr :
  start_inv b -> is_prov_complete b = false ->
  exists b', provisioned addr b = Some (tt, b') /\ start_inv b' /\ is_prov_complete b' = true /\
    my_address b' = addr /\ b_table b' = b_table b.
Proof.
  intros [[Hb Hinv] Hl] Hp. specialize (Hl Hp).
  set (b1 := b <| elements0_addr := addr |> <| my_address := addr |> <| is_prov_complete := true |>).
  destruct (show_main_ok b1) as [fr E]. exists (with_panel fr b1).
  split; [exact E|]. split; [|done]. split; [|done]. split; [exact (board_ok_show _ fr fr Hb)|].
  apply empty_table_inv; [apply Hinv|exact Hl].
Qed.

Lemma led_timeout_ok b : board_ok b -> exists b', led_timeout b = Some (tt, b') /\ board_ok b'.
Proof.
  intros Hb. destruct (decide (led_cntr b = 15)) as [E|E].
  - destruct (led_timeout_last b Hb E) as (b' & H & Hb' & _). eauto.
  - pose proof Hb as (_ & _ & _ & Hr).
    destruct (led_timeout_next b Hb) as (b' & H & Hb' & _); [lia|]. eauto.
Qed.

Lemma power_up_inv temp hum bd :
  board_ok bd -> start_inv (power_up temp hum <| b_board := bd |>).
Proof.
  intros H. split; [|done]. split; [exact H|]. apply empty_table_inv; [|done].
  repeat split; cbn; unfold STAT_COUNT; lia.
Qed.

Lemma mesh_start_ok present stored temp hum :
  (forall i, (i < 3)%nat -> present i = true) ->
  exists b, mesh_start present stored (power_up temp hum) = Some (tt, b) /\ start_inv b.
Proof.
  intros Hp. destruct (board_init_ok present temp hum Hp) as (bd & Eb & Hbd).
  pose proof (power_up_inv temp hum bd Hbd) as Hi.
  unfold mesh_start. rewrite bind_modify.
  change (power_up temp hum <| my_address := BT_MESH_ADDR_UNASSIGNED |>
            <| provisioner_address := BT_MESH_ADDR_UNASSIGNED |>
            <| is_message_recieved_from_prov := false |> <| is_prov_complete := false |>)
    with (power_up temp hum).
  unfold bt_ready. rewrite (bind_some _ _ _ _ _ (zoom_some b_board _ (power_up temp hum) tt bd Eb)).
  set (b0 := power_up temp hum <| b_board := bd |>) in *.
  assert (forall b, board_ok (b_board b) -> b_table b = b_table b0 ->
    exists b', show_main b = Some (tt, b') /\ start_inv b') as Hshow.
  { intros b Hb Ht. destruct (show_main_ok b) as [fr E]. exists (with_panel fr b).
    assert (table_ok 0 (b_table b) /\ live 0 (b_table b) = 0%nat) as [Hok Hl]
      by (rewrite Ht; split; [apply Hi|done]).
    split; [exact E|]. split; [|intros _; exact Hl].
    split; [exact (board_ok_show _ fr fr Hb)|exact (empty_table_inv _ _ Hok Hl)]. }
  destruct stored as [addr|].
  - destruct (provisioned_ok b0 addr Hi eq_refl) as (b1 & E1 & ((Hb1 & _) & _) & Hc1 & _ & Ht1).
    rewrite (bind_some _ _ _ _ _ E1), bind_gets. unfold id. rewrite Hc1. cbn [negb andb].
    rewrite bind_modify. by apply Hshow.
  - rewrite bind_ret, bind_gets. unfold id. cbn [is_prov_complete is_message_recieved_from_prov].
    apply (Hshow (with_panel _ (b0 <| advertising := true |>))); [|done].
    apply (board_ok_show bd), Hbd.
Qed.

Lemma reachable_inv b : beacon_reachable b -> start_inv b.
Proof.
  induction 1 as [present stored temp hum b Hp E|b addr b' _ IH Hc E|b from m rssi b' _ IH Hc Hm Hi Hr Hlt E
                 |b b' _ IH _ E|b temp hum _ IH].
  - destruct (mesh_start_ok present stored temp hum Hp) as (b1 & E1 & H). congruence.
  - destruct (provisioned_ok b addr IH Hc) as (b1 & E1 & H & _). congruence.
  - destruct IH as [IH _].
    destruct (receive_message_inv b from m rssi IH Hm Hlt Hi Hr) as (b1 & E1 & H & _ & Hc1 & _).
    assert (b' = b1) as -> by congruence. split; [done|]. congruence.
  - destruct IH as [[Hb Ht] Hl]. apply zoom_inv in E as (bd & E & ->).
    destruct (led_timeout_ok _ Hb) as (bd' & E' & Hb'). assert (bd = bd') as -> by congruence.
    split; [split; [exact Hb'|exact Ht]|exact Hl].
  - destruct IH as [[Hb Ht] Hl]. split; [split; [|exact Ht]|exact Hl].
    by destruct (b_board b).
Qed.

(** C5: A running beacon never leaves defined behaviour on well-formed traffic. In every
    state reachable from power-up through provisioning, well-formed messages, LED timer
    expiries and new sensor samples, the handler of a well-formed message with a
    representable distance estimate (more than -116 dBm) and a free slot in the table
    terminates without an out-of-bounds access or a null dereference. Afterwards no two
    live records have the same node and the same neighbour, except records whose neighbour
    is this node itself, for which the code does not look for duplicates
    ([table_overflow]); and no record has this node as its own neighbour. *)
Theorem beacon_safe b from m rssi :
  beacon_reachable b -> wf_message m = true -> is_i8 rssi -> -116 < rssi ->
  (live 0 (b_table b) < STAT_COUNT)%nat ->
  exists b', receive_message from (render m) rssi b = Some (tt, b') /\
    table_inv 0 (my_address b') (b_table b') /\ my_address b' = my_address b.
Proof.
  intros Hre Hm Hi Hr Hlt. apply reachable_inv in Hre as [Hinv _].
  destruct (receive_message_inv b from m rssi Hinv Hm Hlt Hi Hr) as (b' & E & (_ & Ht) & Hme & _).
  exists b'. auto.
Qed.

(** The beacon 1 of the provisioner 6 after start-up and a Q message. *)
Definition started : option beacon :=
  match (_ ← mesh_start (fun _ => true) None; _ ← provisioned 1;
         receive_message 6 (render (MsgQ (str "P") (str "N1"))) (-60)) (power_up 21 40) with
  | Some (_, b) => Some b
  | None => None
  end.

Lemma started_reachable b : started = Some b -> beacon_reachable b.
Proof.
  unfold started.
  match goal with |- context [match ?r with Some _ => _ | None => _ end] =>
    destruct r as [[[] b1]|] eqn:E; [|done] end.
  intros [= ->].
  apply bind_inv in E as ([] & b2 & E2 & E). apply bind_inv in E as ([] & b3 & E3 & E4).
  assert (beacon_reachable b2) as R2 by (by eapply reach_start; [|exact E2]).
  assert (is_prov_complete b2 = false) as P2 by (vm_compute in E2; by injection E2 as <-).
  assert (beacon_reachable b3) as R3 by (by eapply reach_provisioned; [exact R2| |exact E3]).
  eapply reach_message; [exact R3| | | | | |exact E4].
  - vm_compute in E2. injection E2 as <-. vm_compute in E3. by injection E3 as <-.
  - reflexivity.
  - unfold is_i8; lia.
  - lia.
  - vm_compute in E2. injection E2 as <-. vm_compute in E3. injection E3 as <-. vm_compute. lia.
Qed.

Definition beacon1 : beacon := Eval vm_compute in
  match started with Some b => b | None => power_up 0 0 end.

Lemma beacon1_reachable : beacon_reachable beacon1.
Proof. apply started_reachable. vm_compute. reflexivity. Qed.

Lemma beacon_safe_witness :
  exists b', receive_message 2 (render (MsgT (str "3") (str "N3"))) (-70) beacon1 = Some (tt, b') /\
    table_inv 0 (my_address b') (b_table b') /\ my_address b' = my_address beacon1.
Proof.
  apply (beacon_safe beacon1 2 (MsgT (str "3") (str "N3")) (-70)).
  - exact beacon1_reachable.
  - reflexivity.
  - unfold is_i8; lia.
  - lia.
  - apply Nat.ltb_lt. reflexivity.
Defined.

(** ** Effect of the messages *)

(** With the provisioner as only neighbour the only answer is the sensor message. *)
Lemma answers_restarted b from rssi d s :
  length (node_info (b_table b)) = STAT_COUNT ->
  from <> my_address b -> from <> BT_MESH_ADDR_UNASSIGNED ->
  answers from (set_table (restarted b from rssi d s) b) =
  [mkSent from APP_IDX DEFAULT_TTL
     (on_air (sensor_info_message (my_device_name b) (temperature_of b) (humidity_of b)))].
Proof.
  intros Hlen Hne Hun. unfold answers.
  change (b_table (set_table (restarted b from rssi d s) b)) with (restarted b from rssi d s).
  change (live 0 (restarted b from rssi d s)) with 1%nat. unfold restarted.
  destruct (node_info (b_table b)) as [|s0 l]; [done|].
  cbn [insert list_insert node_info take firstn map concat app]. rewrite app_nil_r.
  set (r := provisioner_record b from rssi d s).
  unfold answers_for. change (s_addr r) with (my_address b).
  change (s_neighbour_addr r) with from.
  change (my_address (set_table (mkTable (r :: l) 1) b)) with (my_address b).
  rewrite !Z.eqb_refl, app_nil_r. unfold send_result.
  by rewrite (proj2 (Z.eqb_neq _ _) Hne), (proj2 (Z.eqb_neq _ _) Hun).
Qed.

(** The provisioning message Q initialises the beacon.  The names it carries
    are stored, the sender becomes the provisioner, the table restarts with the
    single record of this node and the provisioner at the measured distance, and
    the only answer is this node's sensor message, sent to the provisioner under its
    new name. *)
Theorem provisioning_message_effect b prov name from rssi :
  beacon_inv b -> wf_message (MsgQ prov name) = true -> is_i8 rssi -> -116 < rssi ->
  from <> my_address b -> from <> BT_MESH_ADDR_UNASSIGNED ->
  exists b' s d, receive_message from (render (MsgQ prov name)) rssi b = Some (tt, b') /\
    distance_to_int8 (calculate_distance_in_metres rssi) = Some d /\
    my_device_name b' = take 3 name /\ provisioner_device_name b' = take 1 prov /\
    provisioner_address b' = from /\ mesh_is_prov_complete b' = true /\
    live 0 (b_table b') = 1%nat /\ node_info (b_table b') !! 0%nat = Some s /\
    s_addr s = my_address b /\ s_neighbour_addr s = from /\ s_distance s = d /\ s_rssi s = rssi /\
    s_temperature s = temperature_of b /\ s_humidity s = humidity_of b /\
    b_sent b' = b_sent b ++
      [mkSent from APP_IDX DEFAULT_TTL
         (on_air (sensor_info_message (take 3 name) (temperature_of b) (humidity_of b)))].
Proof.
  intros [Hb Hinv] Hm Hi Hr Hne Hun.
  destruct (distance_to_int8_defined rssi Hi Hr) as (d & Hd & _).
  destruct (slot0 _ _ Hinv) as [s Hs]. pose proof Hinv as ((Hlen & _) & _).
  destruct (receive_Q_ok b prov name from rssi _ d s eq_refl Hd Hb Hs Hlen Hne Hun Hm)
    as (fr & fr0 & E). cbv zeta in E.
  assert (forall x, b_board (received x b) = blinked x (b_board b)) as Hbd by done.
  assert (forall x, temperature_of (received x b) = temperature_of b /\
                    humidity_of (received x b) = humidity_of b) as Hth.
  { intros x. unfold temperature_of, humidity_of, received, blinked. cbn.
    by destruct (distance_lt_2 x). }
  set (e := calculate_distance_in_metres rssi) in *.
  set (b1 := with_panel fr0 (named prov name from (received e b))) in *.
  destruct (Hth e) as [Ht Hh].
  assert (temperature_of b1 = temperature_of b /\ humidity_of b1 = humidity_of b) as [Ht1 Hh1]
    by (by rewrite <- Ht, <- Hh).
  eexists _, (provisioner_record b1 from rssi d s), d.
  split; [exact E|]. split; [done|]. split; [done|]. split; [done|]. split; [done|].
  split; [done|]. split; [done|]. split.
  { cbn. apply list_lookup_insert_eq. rewrite Hlen. unfold STAT_COUNT. lia. }
  split; [done|]. split; [done|]. split; [done|]. split; [exact (i8_id rssi Hi)|].
  split; [exact Ht1|]. split; [exact Hh1|].
  rewrite <- Ht1, <- Hh1. cbn [b_sent with_panel assign]. f_equal.
  by apply (answers_restarted b1).
Qed.

Lemma provisioning_message_effect_witness :
  exists b' s d, receive_message 6 (render (MsgQ (str "P") (str "N7"))) (-86) beacon1 = Some (tt, b') /\
    distance_to_int8 (calculate_distance_in_metres (-86)) = Some d /\
    my_device_name b' = str "N7" /\ provisioner_device_name b' = str "P" /\
    provisioner_address b' = 6 /\ mesh_is_prov_complete b' = true /\
    live 0 (b_table b') = 1%nat /\ node_info (b_table b') !! 0%nat = Some s /\
    s_addr s = 1 /\ s_neighbour_addr s = 6 /\ s_distance s = d /\ s_rssi s = -86 /\
    s_temperature s = 21 /\ s_humidity s = 40 /\
    b_sent b' = b_sent beacon1 ++
      [mkSent 6 APP_IDX DEFAULT_TTL (on_air (sensor_info_message (str "N7") 21 40))].
Proof.
  apply (provisioning_message_effect beacon1 (str "P") (str "N7") 6 (-86)).
  - apply reachable_inv, beacon1_reachable.
  - reflexivity.
  - unfold is_i8; lia.
  - lia.
  - discriminate.
  - discriminate.
Defined.

(** ** From sender to receiver *)

(** Characters that end the first word of an outgoing message. *)
Definition no_break (f : bytes) : bool :=
  forallb (fun c => negb ((c =? 32) || (c =? 44) || (c =? 10))) f.

(** The payload the receiver's handler gets for a text: what follows the opcode. *)
Definition payload (message_str : bytes) : bytes := drop 3 (on_air message_str).

Lemma first_word_all f : no_break f = true -> get_first_word f = length f.
Proof.
  induction f as [|c f IH]; cbn [no_break forallb get_first_word length]; [done|].
  intros H. apply andb_true_iff in H as [H1 H2]. apply negb_true_iff in H1. rewrite H1.
  by rewrite IH.
Qed.

Lemma payload_id m : no_break m = true -> (length m <= MSG_MAX_LEN)%nat -> payload m = m.
Proof.
  intros Hb Hl. unfold payload, on_air. rewrite first_word_all by done.
  rewrite Nat.min_r by done. cbn [app drop skipn]. by rewrite firstn_all.
Qed.

Lemma fmt_d_plain z : plain (fmt_d z) = true /\ no_break (fmt_d z) = true.
Proof.
  pose proof (fmt_d_chars z) as H.
  assert (fmt_d z <> []) as Hne.
  { unfold fmt_d, fmt_nat. destruct (z <? 0); [done|]. intros E. apply map_eq_nil in E.
    by apply digits_nonempty in E. }
  unfold plain, is_field, no_break. destruct (fmt_d z) as [|c l]; [done|]. clear Hne.
  rewrite List.Forall_forall in H. unfold ch_minus, ch_0, ch_9 in H.
  assert (forall p, (forall c, c = 45 \/ 48 <= c <= 57 -> p c = true) -> forallb p (c :: l) = true) as Hp
    by (intros p Hpc; apply forallb_forall; intros x Hx; apply Hpc, H, Hx).
  split; [|apply Hp; intros x Hx].
  - cbn [length Nat.eqb negb andb]. apply andb_true_iff. split; apply Hp; intros x Hx.
    + unfold ch_eq. apply andb_true_iff. rewrite !negb_true_iff, !Z.eqb_neq. lia.
    + apply negb_true_iff, andb_false_iff. rewrite !Z.leb_gt. lia.
  - apply negb_true_iff. rewrite !orb_false_iff, !Z.eqb_neq. lia.
Qed.

Lemma plain_app_no_break l1 l2 : no_break (l1 ++ l2) = no_break l1 && no_break l2.
Proof. apply forallb_app. Qed.

(** An announced sensor message arrives unchanged when it fits its buffer. *)
Lemma sensor_payload name temp hum :
  no_break name = true -> (length (msg_S name (fmt_d temp) (fmt_d hum)) <= 11)%nat ->
  payload (sensor_info_message name temp hum) = render (MsgS name (fmt_d temp) (fmt_d hum)).
Proof.
  intros Hn Hl. unfold sensor_info_message.
  change (str "S=" ++ name ++ eq_sign ++ fmt_d temp ++ eq_sign ++ fmt_d hum)
    with (msg_S name (fmt_d temp) (fmt_d hum)).
  rewrite snprintf_fits by lia. cbn [render]. apply payload_id; [|unfold MSG_MAX_LEN; lia].
  unfold msg_S. rewrite !plain_app_no_break, Hn.
  by rewrite (proj2 (fmt_d_plain temp)), (proj2 (fmt_d_plain hum)).
Qed.

(** The name and sensor values a node announces. *)
Definition announcement (a : beacon) : bytes :=
  sensor_info_message (my_device_name a) (temperature_of a) (humidity_of a).

(** C9: Sensor values survive the trip from one beacon to another.  When a node
    whose name and readings fit the 11-character message announces them, every
    neighbour that has a record of it ends up with exactly its name, temperature and
    humidity in that record, together with the measured distance. *)
Theorem sensor_roundtrip a b from rssi i s :
  beacon_inv b -> plain (my_device_name a) = true -> no_break (my_device_name a) = true ->
  (length (my_device_name a) <= 3)%nat ->
  (length (msg_S (my_device_name a) (fmt_d (temperature_of a)) (fmt_d (humidity_of a))) <= 11)%nat ->
  LONG_MIN <= temperature_of a <= LONG_MAX -> LONG_MIN <= humidity_of a <= LONG_MAX ->
  from <> my_address b -> from <> BT_MESH_ADDR_UNASSIGNED -> is_i8 rssi -> -116 < rssi ->
  (i < live 0 (b_table b))%nat -> (live 0 (b_table b) < STAT_COUNT)%nat ->
  node_info (b_table b) !! i = Some s -> is_mine (my_address b) from s = true ->
  exists b' s', receive_message from (payload (announcement a)) rssi b = Some (tt, b') /\
    node_info (b_table b') !! i = Some s' /\
    s_neighbour_name s' = my_device_name a /\
    s_neighbour_temperature s' = temperature_of a /\
    s_neighbour_humidity s' = humidity_of a /\ s_rssi s' = rssi /\
    Some (s_distance s') = distance_to_int8 (calculate_distance_in_metres rssi) /\
    s_addr s' = my_address b /\ s_neighbour_addr s' = from.
Proof.
  intros [Hb Hinv] Hp Hnb Hn3 Hlen Ht Hh Hne Hun Hi Hr Hil Hlt Hs Hmine.
  unfold announcement. rewrite sensor_payload by done.
  set (tt' := fmt_d (temperature_of a)) in *. set (hh := fmt_d (humidity_of a)) in *.
  assert (wf_message (MsgS (my_device_name a) tt' hh) = true) as Hm.
  { unfold wf_message. cbn [fields forallb render].
    assert (plain tt' = true /\ plain hh = true) as [-> ->] by (split; apply fmt_d_plain).
    rewrite Hp. apply Nat.leb_le. unfold MSG_MAX_LEN. lia. }
  destruct (distance_to_int8_defined rssi Hi Hr) as (d & Hd & _).
  set (e := calculate_distance_in_metres rssi) in *.
  pose proof Hinv as (Hok & _).
  set (h1 := fun s => if is_mine (my_address b) from s then set_distance d rssi s else s).
  set (h2 := fun s => if is_mine (my_address b) from s
                      then set_sensor (my_device_name a) tt' hh d rssi s else s).
  set (t1 := b_table b <| node_info := map_prefix h1 (live 0 (b_table b)) (node_info (b_table b)) |>).
  assert (table_inv 0 (my_address b) t1) as Hinv1
    by (apply inv_map_prefix; [intros x; unfold h1; by destruct (is_mine _ _ x)|done]).
  set (t2 := t1 <| node_info := map_prefix h2 (live 0 t1) (node_info t1) |>).
  assert (table_inv 0 (my_address b) t2) as Hinv2
    by (apply inv_map_prefix; [intros x; unfold h2; by destruct (is_mine _ _ x)|done]).
  assert (stage (received e b) from e rssi (MsgS (my_device_name a) tt' hh) (b_table b) = Some (tt, t2)) as Hst.
  { cbn [stage render]. change (my_address (received e b)) with (my_address b).
    rewrite (bind_some _ _ _ _ _ (update_distance_ok 0 (my_address b) (b_table b) from e rssi d Hok Hd)).
    apply (receive_S_ok 0 (my_address b) t1 (my_device_name a) tt' hh from e rssi d);
      [apply Hinv1|by apply plain_field|apply plain_field, fmt_d_plain..|lia|done]. }
  destruct (receive_message_stage b _ from rssi t2 e eq_refl Hm ltac:(done) Hb Hne Hun Hst (proj1 Hinv2))
    as [fr E].
  eexists _, (h2 (h1 s)). split; [exact E|].
  assert (is_mine (my_address b) from (set_distance d rssi s) = true) as Hm2 by exact Hmine.
  split.
  - change (node_info t2 !! i = Some (h2 (h1 s))). unfold t2. cbn [node_info assign].
    rewrite lookup_map_prefix. change (live 0 t1) with (live 0 (b_table b)).
    rewrite (proj2 (Nat.ltb_lt _ _) Hil). unfold t1. cbn [node_info assign].
    by rewrite lookup_map_prefix, Hs, (proj2 (Nat.ltb_lt _ _) Hil).
  - unfold h2, h1. rewrite Hmine, Hm2.
    unfold is_mine in Hmine. apply andb_true_iff in Hmine as [M1 M2]. zbool.
    unfold set_sensor, set_distance. cbn -[snprintf atoi i8].
    rewrite (i8_id rssi Hi), Hd, snprintf_fits by lia. unfold tt', hh.
    rewrite !atoi_fmt_d by done. auto 10.
Qed.

(** Beacon 2 of the same network, which knows beacon 1. *)
Definition beacon2 : beacon := Eval vm_compute in
  match (_ ← mesh_start (fun _ => true) None; _ ← provisioned 2;
         _ ← receive_message 6 (render (MsgQ (str "P") (str "N2"))) (-60);
         receive_message 6 (render (MsgR (str "1") (str "N1"))) (-61)) (power_up 18 55) with
  | Some (_, b) => b
  | None => power_up 0 0
  end.

Lemma beacon2_inv : beacon_inv beacon2.
Proof.
  split.
  - repeat split; [repeat constructor|by eexists|vm_compute; discriminate..].
  - split; [repeat split; cbn; unfold STAT_COUNT; lia|]. split.
    + intros i j s s' Hij. change (live 0 (b_table beacon2)) with 2%nat in Hij.
      assert (i = 0%nat /\ j = 1%nat) as [-> ->] by lia. cbn. by intros [= <-] [= <-].
    + intros i s Hi. change (live 0 (b_table beacon2)) with 2%nat in Hi.
      destruct i as [|[|i]]; [..|lia]; cbn; by intros [= <-].
Qed.

Lemma sensor_roundtrip_witness :
  exists b' s', receive_message 1 (payload (announcement beacon1)) (-70) beacon2 = Some (tt, b') /\
    node_info (b_table b') !! 1%nat = Some s' /\
    s_neighbour_name s' = str "N1" /\ s_neighbour_temperature s' = 21 /\
    s_neighbour_humidity s' = 40 /\ s_rssi s' = -70 /\
    Some (s_distance s') = distance_to_int8 (calculate_distance_in_metres (-70)) /\
    s_addr s' = 2 /\ s_neighbour_addr s' = 1.
Proof.
  eapply (sensor_roundtrip beacon1 beacon2 1 (-70) 1).
  - exact beacon2_inv.
  - reflexivity.
  - reflexivity.
  - vm_compute. lia.
  - vm_compute. lia.
  - vm_compute. split; discriminate.
  - vm_compute. split; discriminate.
  - discriminate.
  - discriminate.
  - unfold is_i8. lia.
  - lia.
  - apply Nat.ltb_lt. reflexivity.
  - apply Nat.ltb_lt. reflexivity.
  - reflexivity.
  - reflexivity.
Defined.

(** ** The neighbours of a neighbour *)

Lemma existsb_map_prefix (p : stat -> bool) h n l :
  (forall s, p (h s) = p s) -> existsb p (take n (map_prefix h n l)) = existsb p (take n l).
Proof.
  intros Hh. revert n. induction l as [|x l IH]; intros [|n]; try done.
  change (map_prefix h (S n) (x :: l)) with (h x :: map_prefix h n l).
  cbn [take firstn existsb]. by rewrite Hh, IH.
Qed.

Lemma stage_T_new b t from e rssi d f name :
  table_inv 0 (my_address b) t -> (live 0 t < STAT_COUNT)%nat -> from <> my_address b ->
  distance_to_int8 e = Some d -> wf_message (MsgT f name) = true -> address_of_token f <> 0 ->
  existsb (links (my_address b) from (address_of_token f)) (take (live 0 t) (node_info t)) = false ->
  exists t' s0, stage b from e rssi (MsgT f name) t = Some (tt, t') /\
    table_inv 0 (my_address b) t' /\ live 0 t' = S (live 0 t) /\
    node_info t' !! live 0 t = Some (new_neighbour from (address_of_token f) name s0).
Proof.
  intros Hinv Hlt Hfrom Hd Hm Ha Hl.
  destruct (stage_ok b t from e rssi d (MsgT f name) Hinv Hlt Hfrom Hd Hm) as (t' & E & Hinv').
  pose proof (wf_message_length _ Hm) as Hlen. wf_fields Hm. cbn [render] in Hlen.
  pose proof Hinv as (Hok & _). pose proof Hok as (Hlen10 & _).
  exists t'. cbn [stage render] in E |- *.
  rewrite (bind_some _ _ _ _ _ (update_distance_ok 0 (my_address b) t from e rssi d Hok Hd)) in E |- *.
  set (h1 := fun s => if is_mine (my_address b) from s then set_distance d rssi s else s) in *.
  set (t1 := t <| node_info := map_prefix h1 (live 0 t) (node_info t) |>) in *.
  assert (table_ok 0 t1) as Hok1.
  { destruct Hok as (? & ?). split; [|done]. cbn. by rewrite length_map_prefix. }
  assert (exists s, node_info t1 !! live 0 t = Some s) as [s0 Hs0].
  { apply lookup_lt_is_Some. cbn. rewrite length_map_prefix. lia. }
  exists s0. rewrite receive_T_eq in E; [|done|by apply plain_field..|lia].
  change (live 0 t1) with (live 0 t) in E. unfold t1 in E at 1. cbn [node_info assign] in E.
  rewrite existsb_map_prefix in E by (intros x; unfold h1; by destruct (is_mine _ _ x)).
  rewrite Hl, (proj2 (Z.eqb_neq _ _) Ha) in E. cbn [orb] in E.
  pose proof E as E'. erewrite append_stat_spec in E'; [|done..].
  injection E' as <-. split; [|split; [done|]].
  - rewrite receive_T_eq; [|done|by apply plain_field..|lia].
    change (live 0 t1) with (live 0 t). unfold t1 at 1. cbn [node_info assign].
    rewrite existsb_map_prefix by (intros x; unfold h1; by destruct (is_mine _ _ x)).
    rewrite Hl, (proj2 (Z.eqb_neq _ _) Ha). exact E.
  - split; [by apply live_append|]. cbn. apply list_lookup_insert_eq.
    change (live 0 t1) with (live 0 t). rewrite length_map_prefix. lia.
Qed.

(** A U message about a known pair updates the record of that pair. *)
Lemma stage_U_pair b t from e rssi d f dd name i s :
  table_inv 0 (my_address b) t -> from <> my_address b -> distance_to_int8 e = Some d ->
  wf_message (MsgU f dd name) = true -> address_of_token f <> my_address b ->
  (i < live 0 t)%nat -> node_info t !! i = Some s ->
  s_addr s = from -> s_neighbour_addr s = address_of_token f ->
  exists t', stage b from e rssi (MsgU f dd name) t = Some (tt, t') /\
    table_inv 0 (my_address b) t' /\ live 0 t' = live 0 t /\
    node_info t' !! i = Some (set_pair dd name s).
Proof.
  intros Hinv Hfrom Hd Hm Ha Hi Hs Hsa Hsn.
  pose proof (wf_message_length _ Hm) as Hlen. wf_fields Hm. cbn [render] in Hlen.
  pose proof Hinv as (Hok & _). cbn [stage render].
  rewrite (bind_some _ _ _ _ _ (update_distance_ok 0 (my_address b) t from e rssi d Hok Hd)).
  set (h1 := fun s => if is_mine (my_address b) from s then set_distance d rssi s else s).
  set (t1 := t <| node_info := map_prefix h1 (live 0 t) (node_info t) |>).
  assert (table_inv 0 (my_address b) t1) as Hinv1
    by (apply inv_map_prefix; [intros x; unfold h1; by destruct (is_mine _ _ x)|done]).
  assert (h1 s = s) as Hh.
  { unfold h1, is_mine. by rewrite Hsa, (proj2 (Z.eqb_neq _ _) Hfrom). }
  assert (node_info t1 !! i = Some s) as Hs1.
  { unfold t1. cbn [node_info assign].
    rewrite lookup_map_prefix, Hs, (proj2 (Nat.ltb_lt _ _) Hi). cbn. by rewrite Hh. }
  assert (is_pair (my_address b) from (address_of_token f) s = true) as P.
  { unfold is_pair. rewrite Hsa, Hsn, !Z.eqb_refl. by rewrite (proj2 (Z.eqb_neq _ _) Hfrom). }
  destruct (receive_U_ok 0 (my_address b) 20 t1 f dd name from) as (t' & E & Hinv' & C);
    [done|by apply plain_field..|lia|].
  exists t'. split; [exact E|]. split; [done|].
  destruct C as [[_ N]|(j & s2 & Hj & Hs2 & P2 & ->)].
  - exfalso. by apply Ha, (N i s).
  - assert (j = i) as ->.
    { destruct (decide (j = i)) as [|Hne]; [done|]. exfalso.
      destruct Hinv1 as (_ & Hu & _). unfold is_pair in P2. zbool.
      destruct (decide (i < j)%nat).
      - assert (s_neighbour_addr s = my_address b)
          by (apply (Hu i j s s2); [change (live 0 t1) with (live 0 t) in *; lia|done|done|congruence..]).
        congruence.
      - assert (s_neighbour_addr s2 = my_address b)
          by (apply (Hu j i s2 s); [change (live 0 t1) with (live 0 t) in *; lia|done|done|congruence..]).
        congruence. }
    assert (s2 = s) as -> by congruence. split; [by destruct t|]. cbn.
    apply list_lookup_insert_eq. rewrite length_map_prefix. by eapply lookup_lt_Some.
Qed.

(** The two messages a node sends about a neighbour [n] at distance [d]. *)
Definition about_neighbour (a : beacon) (n : Z) (name : bytes) (d : Z) : bytes * bytes :=
  (neighbour_addr_name_msg n name, neighbour_addr_dist_message n d (my_device_name a)).

Lemma last_char_no_break n : is_u16 n -> no_break [last_char n] = true.
Proof.
  intros Hn. rewrite last_char_digit by done. pose proof (Z.mod_pos_bound n 16 ltac:(lia)).
  unfold digit_char, ch_0, no_break. cbn [forallb]. rewrite andb_true_r.
  destruct (Z.ltb_spec (n mod 16) 10); apply negb_true_iff; rewrite !orb_false_iff, !Z.eqb_neq; lia.
Qed.

(** What those texts are when the names are short and plain. *)
Lemma name_payload n name :
  is_u16 n -> no_break name = true -> (length name <= 3)%nat ->
  payload (neighbour_addr_name_msg n name) = render (MsgT [last_char n] name).
Proof.
  intros Hn Hb Hl. unfold neighbour_addr_name_msg.
  change (str "T=" ++ [last_char n] ++ eq_sign ++ name) with (msg_T [last_char n] name).
  assert (length (msg_T [last_char n] name) = length name + 4)%nat as Hlen
    by (unfold msg_T, eq_sign; cbn [app length]; lia).
  rewrite snprintf_fits by lia. cbn [render]. apply payload_id; [|unfold MSG_MAX_LEN; lia].
  unfold msg_T. by rewrite !plain_app_no_break, Hb, last_char_no_break by done.
Qed.

Lemma length_fmt_d d : 0 <= d <= 127 -> (length (fmt_d d) <= 3)%nat.
Proof.
  intros Hd. unfold fmt_d. rewrite (proj2 (Z.ltb_ge d 0)) by lia. unfold fmt_nat.
  rewrite length_map. apply (length_digits 20 10 d 2); [lia|].
  change (10 ^ Z.of_nat 3) with 1000. lia.
Qed.

Lemma dist_payload n d name :
  is_u16 n -> 0 <= d <= 127 -> no_break name = true -> (length name <= 3)%nat ->
  payload (neighbour_addr_dist_message n d name) = render (MsgU [last_char n] (fmt_d d) name).
Proof.
  intros Hn Hd Hb Hl. pose proof (length_fmt_d d Hd) as Hld. unfold neighbour_addr_dist_message.
  rewrite (snprintf_fits 4 name) by lia.
  change (str "U=" ++ [last_char n] ++ eq_sign ++ fmt_d d ++ eq_sign ++ name)
    with (msg_U [last_char n] (fmt_d d) name).
  assert (length (msg_U [last_char n] (fmt_d d) name) = length (fmt_d d) + length name + 5)%nat as Hlen
    by (unfold msg_U, eq_sign; cbn [app length]; rewrite length_app; cbn [length]; lia).
  rewrite snprintf_fits by lia. cbn [render]. apply payload_id; [|unfold MSG_MAX_LEN; lia].
  unfold msg_U. rewrite !plain_app_no_break, Hb, last_char_no_break by done.
  by rewrite (proj2 (fmt_d_plain d)).
Qed.

Lemma last_char_plain n : is_u16 n -> plain [last_char n] = true.
Proof.
  intros Hn. rewrite last_char_digit by done. pose proof (Z.mod_pos_bound n 16 ltac:(lia)).
  unfold plain. rewrite digit_char_field by lia. cbn [forallb andb]. rewrite andb_true_r.
  unfold digit_char, ch_0. apply negb_true_iff, andb_false_iff. rewrite !Z.leb_gt.
  destruct (Z.ltb_spec (n mod 16) 10); lia.
Qed.

(** C14: A node learns its neighbour's neighbours. When a node announces a neighbour [n],
    its name and its distance with a T and a U message, a receiver that does not know the
    pair yet and has a free slot gets one new record: the sender, the last hexadecimal
    digit of [n] as address, the neighbour's name, the announced distance, and the first
    two characters of the sender's name, which is all that the code copies of it. For [n]
    below 16 the recorded address is [n]. The last digit of [n] is not zero and not the
    receiver's own address; the names are plain and have at most three characters; the
    distance is 0 to 127; and the message comes from an assigned address other than the
    receiver's at more than -116 dBm. *)
Theorem neighbour_roundtrip a b from n name d rssi :
  beacon_inv b -> is_u16 n -> 0 <= d <= 127 ->
  plain name = true -> no_break name = true -> (length name <= 3)%nat ->
  plain (my_device_name a) = true -> no_break (my_device_name a) = true ->
  (length (my_device_name a) <= 3)%nat ->
  n mod 16 <> 0 -> n mod 16 <> my_address b ->
  from <> my_address b -> from <> BT_MESH_ADDR_UNASSIGNED -> is_i8 rssi -> -116 < rssi ->
  (live 0 (b_table b) < STAT_COUNT)%nat ->
  existsb (links (my_address b) from (n mod 16)) (take (live 0 (b_table b)) (node_info (b_table b))) = false ->
  let (msg1, msg2) := about_neighbour a n name d in
  exists b' s, (_ ← receive_message from (payload msg1) rssi;
                receive_message from (payload msg2) rssi) b = Some (tt, b') /\
    live 0 (b_table b') = S (live 0 (b_table b)) /\
    node_info (b_table b') !! live 0 (b_table b) = Some s /\
    s_addr s = from /\ s_neighbour_addr s = n mod 16 /\ s_neighbour_name s = name /\
    s_distance s = d /\ s_name s = take 2 (my_device_name a).
Proof.
  intros [Hb Hinv] Hn Hd Hp Hnb Hl3 Hpa Hnba Hla H0 Hme Hne Hun Hi Hr Hlt Hlinks.
  unfold about_neighbour. rewrite name_payload, dist_payload by done.
  pose proof (length_fmt_d d Hd) as Hld.
  pose proof (address_of_last_char n [] Hn) as Ha.
  assert (wf_message (MsgT [last_char n] name) = true) as Hm1.
  { unfold wf_message. cbn [fields forallb render]. rewrite Hp, last_char_plain by done.
    apply Nat.leb_le. unfold msg_T, eq_sign, MSG_MAX_LEN. cbn [app length]. lia. }
  assert (wf_message (MsgU [last_char n] (fmt_d d) (my_device_name a)) = true) as Hm2.
  { unfold wf_message. cbn [fields forallb render].
    rewrite Hpa, last_char_plain, (proj1 (fmt_d_plain d)) by done.
    apply Nat.leb_le. unfold msg_U, eq_sign, MSG_MAX_LEN. cbn [app length]. rewrite length_app.
    cbn [length]. lia. }
  destruct (distance_to_int8_defined rssi Hi Hr) as (dd & Hdd & _).
  set (e := calculate_distance_in_metres rssi) in *.
  destruct (stage_T_new (received e b) (b_table b) from e rssi dd [last_char n] name)
    as (t1 & s0 & E1 & Hinv1 & Hl1 & Hs1); [done..|by rewrite Ha|by rewrite Ha|].
  destruct (receive_message_stage b _ from rssi t1 e eq_refl Hm1 ltac:(done) Hb Hne Hun E1 (proj1 Hinv1))
    as [fr1 R1].
  rewrite (bind_some _ _ _ _ _ R1).
  match type of R1 with _ = Some (tt, ?x) => set (b1 := x) in * end.
  assert (beacon_inv b1) as [Hb1 _] by (by apply inv_received).
  rewrite Ha in Hs1.
  destruct (stage_U_pair (received e b1) t1 from e rssi dd [last_char n] (fmt_d d) (my_device_name a)
              (live 0 (b_table b)) (new_neighbour from (n mod 16) name s0))
    as (t2 & E2 & Hinv2 & Hl2 & Hs2); [done..|by rewrite Ha|rewrite Hl1; lia|done|done|by rewrite Ha|].
  destruct (receive_message_stage b1 _ from rssi t2 e eq_refl Hm2 ltac:(done) Hb1 Hne Hun E2 (proj1 Hinv2))
    as [fr2 R2].
  eexists _, _. split; [exact R2|]. split; [change (live 0 t2 = S (live 0 (b_table b))); lia|].
  split; [exact Hs2|]. unfold set_pair, new_neighbour. cbn -[snprintf atoi i8].
  rewrite atoi_fmt_d by (unfold LONG_MIN, LONG_MAX; lia). rewrite i8_id by (unfold is_i8; lia).
  rewrite (snprintf_fits 4 name) by lia. auto 10.
Qed.

Lemma neighbour_roundtrip_witness :
  exists b' s, (_ ← receive_message 2 (payload (fst (about_neighbour beacon2 4 (str "N4") 17))) (-60);
                receive_message 2 (payload (snd (about_neighbour beacon2 4 (str "N4") 17))) (-60)) beacon1
               = Some (tt, b') /\
    live 0 (b_table b') = 2%nat /\ node_info (b_table b') !! 1%nat = Some s /\
    s_addr s = 2 /\ s_neighbour_addr s = 4 /\ s_neighbour_name s = str "N4" /\
    s_distance s = 17 /\ s_name s = str "N2".
Proof.
  apply (neighbour_roundtrip beacon2 beacon1 2 4 (str "N4") 17 (-60)).
  - apply reachable_inv, beacon1_reachable.
  - unfold is_u16. lia.
  - lia.
  - reflexivity.
  - reflexivity.
  - vm_compute. lia.
  - reflexivity.
  - reflexivity.
  - vm_compute. lia.
  - discriminate.
  - discriminate.
  - discriminate.
  - discriminate.
  - unfold is_i8. lia.
  - lia.
  - apply Nat.ltb_lt. reflexivity.
  - reflexivity.
Defined.

(** ** What the code does not guard *)

(** [n] times the same message. *)
Fixpoint repeat_message (n : nat) (from : Z) (data : bytes) (rssi : Z) : ST beacon unit :=
  match n with
  | O => mret tt
  | S n' => _ ← receive_message from data rssi; repeat_message n' from data rssi
  end.

Definition about_self (b : beacon) (name : bytes) : bytes := msg_T [last_char (my_address b)] name.

Lemma links_self me from l : existsb (links me from me) l = false.
Proof.
  induction l as [|s l IH]; [done|]. cbn [existsb]. rewrite IH.
  unfold links. by rewrite Z.eqb_refl.
Qed.

Section Overflow.
  Variables (me from rssi d : Z) (name : bytes).
  Hypotheses (Hme : 0 < me < 16) (Hfrom : from <> me) (Hun : from <> BT_MESH_ADDR_UNASSIGNED)
    (Hd : distance_to_int8 (calculate_distance_in_metres rssi) = Some d)
    (Hm : wf_message (MsgT [last_char me] name) = true).

Lemma self_address : address_of_token [last_char me] = me.
Proof. rewrite address_of_last_char by (unfold is_u16; lia). apply Z.mod_small. lia. Qed.

(** A T message naming the receiver appends a record, however often it comes. *)
Lemma self_appends b :
  beacon_inv b -> my_address b = me -> (live 0 (b_table b) < STAT_COUNT)%nat ->
  exists b', receive_message from (render (MsgT [last_char me] name)) rssi b = Some (tt, b') /\
    beacon_inv b' /\ my_address b' = me /\ live 0 (b_table b') = S (live 0 (b_table b)).
Proof.
  intros [Hb Hinv] Hmb Hlt. set (e := calculate_distance_in_metres rssi) in *.
  destruct (stage_T_new (received e b) (b_table b) from e rssi d [last_char me] name)
    as (t1 & s0 & E1 & Hinv1 & Hl1 & Hs1).
  - done.
  - done.
  - cbn. congruence.
  - done.
  - done.
  - rewrite self_address. lia.
  - rewrite self_address. cbn. rewrite Hmb. apply links_self.
  - destruct (receive_message_stage b _ from rssi t1 e eq_refl Hm ltac:(done) Hb ltac:(congruence) Hun E1
                (proj1 Hinv1)) as [fr1 R1].
    eexists. split; [exact R1|]. split; [by apply inv_received|]. done.
Qed.

(** With a full table the same message writes past the end of the array. *)
Lemma self_overflows b :
  beacon_inv b -> my_address b = me -> live 0 (b_table b) = STAT_COUNT ->
  receive_message from (render (MsgT [last_char me] name)) rssi b = None.
Proof.
  intros [Hb Hinv] Hmb Hfull. set (e := calculate_distance_in_metres rssi) in *.
  pose proof Hinv as (Hok & _). unfold receive_message. rewrite bind_gets.
  unfold get_my_address. rewrite Hmb.
  rewrite (proj2 (Z.eqb_neq _ _) Hfrom), (proj2 (Z.eqb_neq _ _) Hun). cbn [orb]. cbv zeta.
  rewrite message_of_render by done. fold e.
  rewrite (bind_some _ _ _ _ _ (blink_ok e b Hb)), bind_modify.
  unfold board_add_node_and_neighbours_data.
  change (str "Q") with [81]. change (str "R") with [82]. change (str "S") with [83].
  change (str "T") with [84].
  rewrite !contains_code by (done || lia). cbn [code Z.eqb Pos.eqb when]. rewrite !bind_ret.
  set (b1 := b <| b_board := _ |> <| is_message_recieved_from_prov := true |>).
  pose (upd me := update_distance 0 me from e rssi).
  pose proof (update_distance_ok 0 (my_address b1) (b_table b1) from e rssi d Hok Hd) as E1.
  rewrite (bind_some _ _ _ _ _ (on_table_some upd b1 tt _ E1)), bind_ret.
  apply bind_none. unfold on_table. rewrite bind_gets. unfold zoom.
  pose proof (wf_message_length _ Hm) as Hlen. cbn [render] in Hlen |- *. wf_fields Hm.
  set (t1 := b_table (set_table _ b1)).
  assert (table_ok 0 t1) as Hok1.
  { destruct Hok as (? & ?). split; [|done]. cbn. by rewrite length_map_prefix. }
  rewrite receive_T_eq; [|done|by apply plain_field..|lia].
  rewrite self_address. cbn [get_my_address my_address]. unfold get_my_address.
  change (my_address (set_table _ b1)) with (my_address b). rewrite Hmb, links_self.
  rewrite (proj2 (Z.eqb_neq me 0)) by lia. cbn [orb].
  by rewrite append_stat_full.
Qed.

End Overflow.

(** C35: The neighbour table can be overrun from the air.  A T message that names
    the receiver itself passes the duplicate check every time, because
    [check_if_record_neighbour_exists] never matches the own address, and
    [record_count] is not compared with STAT_COUNT: after filling the remaining
    slots, one more copy of the message makes the handler write past the end of
    [node_info]. *)
Theorem table_overflow b from name rssi :
  beacon_inv b -> 0 < my_address b < 16 ->
  from <> my_address b -> from <> BT_MESH_ADDR_UNASSIGNED -> is_i8 rssi -> -116 < rssi ->
  wf_message (MsgT [last_char (my_address b)] name) = true ->
  let free := (STAT_COUNT - live 0 (b_table b))%nat in
  (exists b', repeat_message free from (about_self b name) rssi b = Some (tt, b') /\
     live 0 (b_table b') = STAT_COUNT) /\
  repeat_message (S free) from (about_self b name) rssi b = None.
Proof.
  intros Hinv Hme Hne Hun Hi Hr Hm free.
  destruct (distance_to_int8_defined rssi Hi Hr) as (d & Hd & _).
  unfold about_self. change (msg_T [last_char (my_address b)] name)
    with (render (MsgT [last_char (my_address b)] name)).
  remember (my_address b) as me eqn:Eme. symmetry in Eme.
  assert (live 0 (b_table b) <= STAT_COUNT)%nat as Hle by (apply live_le, Hinv).
  assert (free + live 0 (b_table b) = STAT_COUNT)%nat as Hfree by (unfold free; lia).
  clearbody free. clear Hle. revert b Hinv Eme Hfree.
  induction free as [|k IH]; intros b Hinv Eme Hfree.
  - split; [exists b; split; [done|lia]|]. cbn [repeat_message]. apply bind_none.
    apply (self_overflows me from rssi d name); done || lia.
  - destruct (self_appends me from rssi d name Hme Hne Hun Hd Hm b Hinv Eme)
      as (b1 & E1 & Hinv1 & Eme1 & Hl1); [lia|].
    destruct (IH b1 Hinv1 Eme1) as [(b2 & E2 & Hl2) E3]; [lia|]. split.
    + exists b2. cbn [repeat_message]. rewrite (bind_some _ _ _ _ _ E1). done.
    + change (repeat_message (S (S k))) with
        (fun f dt r => receive_message f dt r ≫= fun _ => repeat_message (S k) f dt r).
      cbv beta. rewrite (bind_some _ _ _ _ _ E1). done.
Qed.

Lemma table_overflow_witness :
  (exists b', repeat_message 9 2 (about_self beacon1 (str "N1")) (-60) beacon1 = Some (tt, b') /\
     live 0 (b_table b') = STAT_COUNT) /\
  repeat_message 10 2 (about_self beacon1 (str "N1")) (-60) beacon1 = None.
Proof.
  apply (table_overflow beacon1 2 (str "N1") (-60)).
  - apply reachable_inv, beacon1_reachable.
  - vm_compute. split; reflexivity.
  - discriminate.
  - discriminate.
  - unfold is_i8. lia.
  - lia.
  - reflexivity.
Defined.

(** A message that consists of a bare code letter Q, R, T or U, whoever sends
    it, makes the handler use a null token: the fields after the letter are read
    without checking that [strtok] found them. *)
Theorem bare_code_undefined b from x rssi d :
  beacon_inv b -> from <> my_address b -> from <> BT_MESH_ADDR_UNASSIGNED ->
  distance_to_int8 (calculate_distance_in_metres rssi) = Some d ->
  x ∈ [81; 82; 84; 85] -> receive_message from [x] rssi b = None.
Proof.
  intros [Hb Hinv] Hne Hun Hd Hx. unfold receive_message. rewrite bind_gets.
  unfold get_my_address.
  rewrite (proj2 (Z.eqb_neq _ _) Hne), (proj2 (Z.eqb_neq _ _) Hun). cbn [orb]. cbv zeta.
  set (e := calculate_distance_in_metres rssi) in *.
  rewrite (bind_some _ _ _ _ _ (blink_ok e b Hb)), bind_modify.
  set (b1 := b <| b_board := _ |> <| is_message_recieved_from_prov := true |>).
  pose (upd me := update_distance 0 me from e rssi).
  pose proof Hinv as (Hok & _).
  pose proof (update_distance_ok 0 (my_address b1) (b_table b1) from e rssi d Hok Hd) as E1.
  rewrite !elem_of_cons, elem_of_nil in Hx. destruct Hx as [->|[->|[->|[->|[]]]]].
  - by apply bind_none.
  - unfold board_add_node_and_neighbours_data.
    change (contains (message_of [82]) (str "Q")) with false.
    change (contains (message_of [82]) (str "R")) with true. cbn [when]. rewrite !bind_ret.
    by apply bind_none.
  - unfold board_add_node_and_neighbours_data.
    change (contains (message_of [84]) (str "Q")) with false.
    change (contains (message_of [84]) (str "R")) with false.
    change (contains (message_of [84]) (str "S")) with false.
    change (contains (message_of [84]) (str "T")) with true. cbn [when]. rewrite !bind_ret.
    rewrite (bind_some _ _ _ _ _ (on_table_some upd b1 tt _ E1)), bind_ret.
    by apply bind_none.
  - unfold board_add_node_and_neighbours_data.
    change (contains (message_of [85]) (str "Q")) with false.
    change (contains (message_of [85]) (str "R")) with false.
    change (contains (message_of [85]) (str "S")) with false.
    change (contains (message_of [85]) (str "T")) with false.
    change (contains (message_of [85]) (str "U")) with true. cbn [when]. rewrite !bind_ret.
    rewrite (bind_some _ _ _ _ _ (on_table_some upd b1 tt _ E1)), !bind_ret.
    by apply bind_none.
Qed.

Lemma bare_code_undefined_witness : receive_message 2 [84] (-60) beacon1 = None.
Proof.
  apply (bare_code_undefined beacon1 2 84 (-60) 1).
  - apply reachable_inv, beacon1_reachable.
  - discriminate.
  - discriminate.
  - vm_compute. reflexivity.
  - rewrite !elem_of_cons. auto.
Defined.

Lemma send_result_addressed me to m :
  Forall (fun x => sent_to x <> me /\ sent_to x <> BT_MESH_ADDR_UNASSIGNED /\
            sent_ttl x = DEFAULT_TTL /\ (length (sent_data x) <= 15)%nat) (send_result me to m).
Proof.
  unfold send_result. destruct (_ || _) eqn:E; [constructor|]. zbool.
  constructor; [|constructor]. cbn [sent_to sent_ttl sent_data]. split; [done|]. split; [done|].
  split; [done|]. unfold on_air. rewrite length_app, length_take. unfold MSG_MAX_LEN. cbn [length]. lia.
Qed.

Lemma answers_addressed from b :
  Forall (fun x => sent_to x <> my_address b /\ sent_to x <> BT_MESH_ADDR_UNASSIGNED /\
            sent_ttl x = DEFAULT_TTL /\ (length (sent_data x) <= 15)%nat) (answers from b).
Proof.
  unfold answers. induction (take _ _) as [|s ss IH]; cbn [map concat]; [constructor|].
  apply Forall_app. split; [|exact IH]. unfold answers_for.
  destruct (s_addr s =? my_address b); [|constructor].
  apply Forall_app. split; [apply send_result_addressed|].
  destruct (s_neighbour_addr s =? from); [constructor|].
  apply Forall_app. split; apply send_result_addressed.
Qed.

(** C29: Every handled message is answered. After a well-formed message from an assigned
    address other than its own, at more than -116 dBm and with a free slot in the table,
    the beacon has sent, in table order: its sensor message to each of its neighbours and,
    only to the sender of the message, a T and a U message for each of its other
    neighbours. The comment in the source announces the neighbours' information for all
    neighbours. Every message sent has the default TTL and at most 15 bytes, and none goes
    to the beacon itself or to the unassigned address. *)
Theorem beacon_answers b from m rssi :
  beacon_inv b -> wf_message m = true -> (live 0 (b_table b) < STAT_COUNT)%nat ->
  is_i8 rssi -> -116 < rssi -> from <> my_address b -> from <> BT_MESH_ADDR_UNASSIGNED ->
  exists b', receive_message from (render m) rssi b = Some (tt, b') /\
    b_sent b' = b_sent b ++ answers from b' /\
    Forall (fun x => sent_to x <> my_address b' /\ sent_to x <> BT_MESH_ADDR_UNASSIGNED /\
              sent_ttl x = DEFAULT_TTL /\ (length (sent_data x) <= 15)%nat) (answers from b').
Proof.
  intros Hinv Hm Hlt Hi Hr Hne Hun.
  destruct (receive_message_inv b from m rssi Hinv Hm Hlt Hi Hr) as (b' & E & _ & _ & _ & Ha).
  exists b'. split; [done|]. split; [by apply Ha|]. apply answers_addressed.
Qed.

Lemma beacon_answers_witness :
  exists b', receive_message 6 (render (MsgR (str "3") (str "N3"))) (-60) beacon2 = Some (tt, b') /\
    b_sent b' = b_sent beacon2 ++ answers 6 b' /\
    Forall (fun x => sent_to x <> my_address b' /\ sent_to x <> BT_MESH_ADDR_UNASSIGNED /\
              sent_ttl x = DEFAULT_TTL /\ (length (sent_data x) <= 15)%nat) (answers 6 b').
Proof.
  apply (beacon_answers beacon2 6 (MsgR (str "3") (str "N3")) (-60)).
  - exact beacon2_inv.
  - reflexivity.
  - apply Nat.ltb_lt. reflexivity.
  - unfold is_i8. lia.
  - lia.
  - discriminate.
  - discriminate.
Defined.
