(* ===== verification/Provisioner.v ===== *)
(** * The provisioner application

    Model of [Project/Provisioner/src/mesh.c] and of the screens of
    [Project/Provisioner/src/reel_board.c]: self-provisioning, the loop that finds,
    provisions and configures beacons, the reception of their messages, and the
    string that summarises the table.  The configuration database is that of
    [Cdb]; calls of the configuration client, whose results the application
    ignores, are recorded.  Random keys are arguments. *)

From Stdlib Require Import String.
From S2P Require Import Prelude CString Hex MeshDefs Cdb NetBuf Access Distance NodeTable Board.
From S2P Require Import AppCommon.

(** Requests of the configuration client. *)
Inductive cfg_call : Type :=
| CfgAppKeyAdd (net_idx addr key_net_idx key_app_idx : Z) (key : bytes)
| CfgModAppBindVnd (net_idx addr elem_addr app_idx mod_id cid : Z).

Record provisioner : Type := mkProvisioner {
  p_table : table;
  p_board : board;
  p_cdb : bt_mesh_cdb;
  self_address : Z;
  p_node_address : Z;
  p_node_uuid : bytes;
  p_device_key : bytes;
  p_network_key : bytes;
  p_application_key : bytes;
  node_info_list_str : bytes;
  p_elements0_addr : Z;
  mesh_valid : bool;              (** BT_MESH_VALID of [bt_mesh.flags] *)
  sem_unprov_beacon : Z;
  sem_node_added : Z;
  p_sent : list sent;
  p_cfg : list cfg_call;
}.

#[export] Instance provisioner_eta : Eta provisioner := fun p =>
  mkProvisioner (p_table p) (p_board p) (p_cdb p) (self_address p) (p_node_address p)
    (p_node_uuid p) (p_device_key p) (p_network_key p) (p_application_key p)
    (node_info_list_str p) (p_elements0_addr p) (mesh_valid p) (sem_unprov_beacon p)
    (sem_node_added p) (p_sent p) (p_cfg p).

Definition p_my_device_uuid : bytes := [187; 170] ++ replicate 14 0.
Definition p_my_device_name : bytes := str "P".
Definition NET_IDX : Z := 0.
Definition MOD_LF : Z := 0.
Definition BT_COMP_ID_LF : Z := 1521.

Definition p_get_my_address (p : provisioner) : Z := self_address p.
Definition p_record_count (p : provisioner) : Z := get_node_info_list_record_count 1 (p_table p).
Definition p_mesh_is_initialized (p : provisioner) : bool :=
  negb (p_elements0_addr p =? BT_MESH_ADDR_UNASSIGNED).
Definition p_temperature (p : provisioner) : Z := get_temperature (p_board p).
Definition p_humidity (p : provisioner) : Z := get_humidity (p_board p).

Definition p_on_table {A : Type} (m : Z -> ST table A) : ST provisioner A :=
  a ← gets p_get_my_address; zoom p_table (m a).

Definition p_send_message (to_address : Z) (message_str : bytes) : ST provisioner unit :=
  a ← gets p_get_my_address;
  ms ← need (make_send a to_address message_str);
  modify (fun p => p <| p_sent := p_sent p ++ ms |>).

(** ** The integration string *)

(** A local character array: [None] while its content is indeterminate. *)
Definition local_array : Type := option bytes.

(** [strcat] into a local array of [cap] characters. *)
Definition strcat_local (cap : nat) (dst : local_array) (src : bytes) : option bytes :=
  d ← dst; strcat cap d src.

Definition value_str (addr distance : Z) : bytes :=
  snprintf 50 (str "," ++ hex_addr addr ++ str ":" ++ fmt_d distance).

(** ["0x%04x,%d,%d,%d,0x%04x:%d"] cut to 49 characters. *)
Definition info_str (addr temperature humidity count neigh distance : Z) : bytes :=
  snprintf 50 (hex_addr addr ++ str "," ++ fmt_d temperature ++ str "," ++ fmt_d humidity ++ str ","
    ++ fmt_d count ++ str "," ++ hex_addr neigh ++ str ":" ++ fmt_d distance).

(** [neighbour_addr_list]: address and record index of my neighbours. *)
Definition my_neighbours (me : Z) (ss : list stat) : list (Z * nat) :=
  omap id (imap (fun i s => if (s_addr s =? me) && negb (s_neighbour_addr s =? BT_MESH_ADDR_UNASSIGNED)
                            then Some (s_neighbour_addr s, i) else None) ss).

(** The loop that fills [my_info_str]; [i] is the index in [neighbour_addr_list]. *)
Fixpoint my_info_loop (me : Z) (ss : list stat) (count : Z) (i : nat) (ns : list (Z * nat))
    (my_info : local_array) : option local_array :=
  match ns with
  | [] => Some my_info
  | (_, k) :: ns' =>
      s ← ss !! k;
      my_info' ←
        (if (s_addr s =? me) && negb (s_neighbour_addr s =? BT_MESH_ADDR_UNASSIGNED) then
           if (i =? 0)%nat
           then Some (Some (info_str (s_addr s) (s_temperature s) (s_humidity s) count
                              (s_neighbour_addr s) (s_distance s)))
           else Some <$> strcat_local 100 my_info (value_str (s_neighbour_addr s) (s_distance s))
         else Some my_info);
      my_info_loop me ss count (S i) ns' my_info'
  end.

(** One neighbour's [neighbour_info_str]; [i] is the record index. *)
Fixpoint neighbour_info_loop (me count neigh_addr : Z) (k i : nat) (ss : list stat)
    (info : local_array) : option local_array :=
  match ss with
  | [] => Some info
  | s :: ss' =>
      info' ←
        (if (i =? k)%nat then
           Some (Some (info_str (s_neighbour_addr s) (s_neighbour_temperature s) (s_neighbour_humidity s)
                         count (s_addr s) (s_distance s)))
         else if negb (neigh_addr =? me) && negb (s_addr s =? me)
                 && negb (s_neighbour_addr s =? BT_MESH_ADDR_UNASSIGNED) then
           if neigh_addr =? s_addr s then
             Some <$> strcat_local 100 info (value_str (s_neighbour_addr s) (s_distance s))
           else if neigh_addr =? s_neighbour_addr s then
             Some <$> strcat_local 100 info (value_str (s_addr s) (s_distance s))
           else Some info
         else Some info);
      neighbour_info_loop me count neigh_addr k (S i) ss' info'
  end.

Fixpoint all_neighbours_loop (me count : Z) (ss : list stat) (j : nat) (ns : list (Z * nat))
    (all : local_array) : option local_array :=
  match ns with
  | [] => Some all
  | (a, k) :: ns' =>
      info ← neighbour_info_loop me count a k 0 ss None;
      info' ← strcat_local 100 info (str ";");
      all' ← (if (j =? 0)%nat then strcpy 500 info' else strcat_local 500 all info');
      all_neighbours_loop me count ss (S j) ns' (Some all')
  end.

(** The string written to [node_info_list_str]. *)
Definition integration_string (me : Z) (ss : list stat) : option bytes :=
  let ns := my_neighbours me ss in
  let count := Z.of_nat (length ns) in
  my_info ← my_info_loop me ss count 0 ns None;
  my_info' ← strcat_local 100 my_info (str ";");
  _ ← strcpy 100 my_info';
  all ← all_neighbours_loop me count ss 0 ns None;
  all' ← strcat_local 500 all [];
  _ ← strcpy 500 all';
  Some (snprintf 600 (my_info' ++ all')).

Definition generate_node_info_list_string : ST provisioner unit :=
  p ← gets id;
  ss ← need (live_stats 1 (p_table p));
  s ← need (integration_string (p_get_my_address p) ss);
  modify (fun p => p <| node_info_list_str := s |>).

(** ** Screens *)

Definition p_show_main : ST provisioner unit :=
  p ← gets id;
  uuid ← need (uuid_str p_my_device_uuid 2);
  zoom p_board (show_lines
    ([(str "Mesh Info :" ++ nl, true);
      (str "Name : " ++ p_my_device_name ++ str "   UUID: " ++ uuid, false)]
     ++ (if negb (p_mesh_is_initialized p) then
           [(str "Address: Unassigned ", false); (str "Status : UnProvisioned ", false)]
         else
           [(str "Address : " ++ hex_addr (p_get_my_address p) ++ str " ", false);
            (str "Status : Provisioned ", false)])
     ++ [(str "Temp :" ++ fmt_d (p_temperature p) ++ str "C  Humidity :" ++ fmt_d (p_humidity p) ++ pct ++ nl, false);
         (str "Node Count : " ++ fmt_d (p_record_count p + 1), false)])).

Definition p_show_node_status : ST provisioner unit :=
  p ← gets id;
  ss ← need (live_stats 1 (p_table p));
  zoom p_board (show_lines
    (node_status_lines (p_get_my_address p) p_my_device_name (p_temperature p) (p_humidity p) ss)).

(** ** Reception *)

Definition p_message_of (data : bytes) : bytes :=
  cstr (take (Nat.min (length data) MSG_MAX_LEN) data).

Definition p_send_answers (from_address : Z) : ST provisioner unit :=
  p ← gets id;
  ss ← need (live_stats 1 (p_table p));
  ms ← need (sends_for_all (p_get_my_address p) p_my_device_name (p_temperature p)
               (p_humidity p) from_address ss);
  modify (fun p => p <| p_sent := p_sent p ++ ms |>).

Definition p_receive_message (from_address : Z) (data : bytes) (rssi : Z) : ST provisioner unit :=
  a ← gets p_get_my_address;
  if (from_address =? a) || (from_address =? BT_MESH_ADDR_UNASSIGNED) then mret tt
  else
    let message_str := p_message_of data in
    let distance := calculate_distance_in_metres rssi in
    _ ← when (distance_lt_2 distance) (zoom p_board board_blink_leds);
    _ ← p_on_table (fun me => update_distance 1 me from_address distance rssi);
    _ ← when (contains message_str (str "S"))
          (p_on_table (fun me => receive_S 1 me message_str from_address distance rssi));
    _ ← when (contains message_str (str "T"))
          (p_on_table (fun me => receive_T 1 me 50 message_str from_address));
    _ ← when (contains message_str (str "U"))
          (p_on_table (fun me => receive_U 1 me 50 message_str from_address));
    _ ← p_send_answers from_address;
    _ ← p_show_node_status;
    generate_node_info_list_string.

(** ** Configuration of the nodes in the database *)

Definition cdb_modify (f : bt_mesh_cdb -> bt_mesh_cdb) : ST provisioner unit :=
  modify (fun p => p <| p_cdb := f (p_cdb p) |>).

(** [atomic_set_bit(node->flags, BT_MESH_CDB_NODE_CONFIGURED)] *)
Definition set_configured (i : nat) : bt_mesh_cdb -> bt_mesh_cdb :=
  with_nodes (alter (fun n =>
    {| node_uuid := node_uuid n; node_addr := node_addr n; node_net_idx := node_net_idx n;
       node_num_elem := node_num_elem n; node_dev_key := node_dev_key n;
       node_flags := Z.setbit (node_flags n) BT_MESH_CDB_NODE_CONFIGURED |}) i).

Definition cfg_requests (addr : Z) (key : bytes) : list cfg_call :=
  [CfgAppKeyAdd NET_IDX addr NET_IDX APP_IDX key;
   CfgModAppBindVnd NET_IDX addr addr APP_IDX MOD_LF BT_COMP_ID_LF].

Definition node_at (i : nat) : ST provisioner bt_mesh_cdb_node :=
  n ← gets (fun p => cdb_nodes (p_cdb p) !! i); need n.

(** [rand] is the output of [bt_rand]. *)
Definition configure_self (rand : bytes) (i : nat) : ST provisioner unit :=
  n ← node_at i;
  _ ← modify (fun p => p <| p_application_key := rand |>);
  _ ← modify (fun p => p <| p_cfg := p_cfg p ++ cfg_requests (node_addr n) (p_application_key p) |>);
  _ ← cdb_modify (set_configured i);
  _ ← cdb_modify (bt_mesh_cdb_node_store i);
  modify (fun p => p <| self_address := node_addr n |>).

Definition node_name (record_count : Z) : bytes := snprintf 4 (str "N" ++ fmt_d record_count).

Definition provisioning_message (name : bytes) : bytes :=
  snprintf 12 (str "Q=" ++ snprintf 2 p_my_device_name ++ eq_sign ++ name).

Definition configure_node (i : nat) : ST provisioner unit :=
  n ← node_at i;
  _ ← modify (fun p => p <| p_cfg := p_cfg p ++ cfg_requests (node_addr n) (p_application_key p) |>);
  _ ← cdb_modify (set_configured i);
  _ ← cdb_modify (bt_mesh_cdb_node_store i);
  p ← gets id;
  let name := node_name (record_count (p_table p)) in
  _ ← p_send_message (node_addr n) (provisioning_message name);
  zoom p_table (append_stat 1 (fun s =>
    Some (s <| s_addr := p_get_my_address p |> <| s_humidity := p_humidity p |>
            <| s_temperature := p_temperature p |> <| s_name := snprintf 2 p_my_device_name |>
            <| s_neighbour_name := snprintf 4 name |> <| s_neighbour_addr := node_addr n |>))).

(** The R messages sent to a configured node. *)
Definition neigh_info_message (addr : Z) (name : bytes) : bytes :=
  snprintf 12 (str "R=" ++ [last_char addr] ++ eq_sign ++ name).

Fixpoint send_neighbours (to_address me : Z) (ss : list stat) : ST provisioner unit :=
  match ss with
  | [] => mret tt
  | s :: ss' =>
      _ ← (if (s_addr s =? me) && negb (s_neighbour_addr s =? to_address)
              && negb (s_neighbour_addr s =? BT_MESH_ADDR_UNASSIGNED)
           then p_send_message to_address (neigh_info_message (s_neighbour_addr s) (s_neighbour_name s))
           else mret tt);
      send_neighbours to_address me ss'
  end.

(** The result is [BT_MESH_CDB_ITER_CONTINUE]. *)
Definition check_unconfigured (rand : bytes) (i : nat) : ST provisioner bool :=
  n ← node_at i;
  p ← gets id;
  _ ← (if negb (Z.testbit (node_flags n) BT_MESH_CDB_NODE_CONFIGURED) then
         if node_addr n =? self_address p then configure_self rand i else configure_node i
       else if negb (node_addr n =? p_get_my_address p)
               && negb (node_addr n =? BT_MESH_ADDR_UNASSIGNED) then
         ss ← need (live_stats 1 (p_table p));
         send_neighbours (node_addr n) (p_get_my_address p) ss
       else mret tt);
  mret true.

(** ** Callbacks of the provisioning protocol *)

Definition k_sem_give (limit count : Z) : Z := if count <? limit then count + 1 else count.

Definition unprovisioned_beacon (uuid : bytes) : ST provisioner unit :=
  modify (fun p => p <| p_node_uuid := uuid |>
                     <| sem_unprov_beacon := k_sem_give 5 (sem_unprov_beacon p) |>).

Definition node_added (node_addr : Z) : ST provisioner unit :=
  modify (fun p => p <| p_node_address := node_addr |>
                     <| sem_node_added := k_sem_give 5 (sem_node_added p) |>).

(** ** Self-provisioning *)

Definition set_dev_key (i : nat) (key : bytes) : bt_mesh_cdb -> bt_mesh_cdb :=
  with_nodes (alter (fun n =>
    {| node_uuid := node_uuid n; node_addr := node_addr n; node_net_idx := node_net_idx n;
       node_num_elem := node_num_elem n; node_dev_key := key; node_flags := node_flags n |}) i).

(** [bt_mesh_provision] with the database enabled.  [net_create] is the result of
    [bt_mesh_net_create]. *)
Definition bt_mesh_provision (net_create : ret_code) (net_idx addr : Z) (dev_key : bytes)
    : ST provisioner ret_code :=
  p ← gets id;
  if mesh_valid p then mret (Some EALREADY)
  else if negb (Z.testbit (cdb_flags (p_cdb p)) BT_MESH_CDB_VALID) then mret (Some EINVAL)
  else match bt_mesh_cdb_subnet_get net_idx (p_cdb p) with
  | None => mret (Some ENOENT)
  | Some _ =>
      let (node, cdb) := bt_mesh_cdb_node_alloc p_my_device_uuid addr 1 net_idx (p_cdb p) in
      match node with
      | None => mret (Some ENOMEM)
      | Some i =>
          _ ← cdb_modify (fun _ => bt_mesh_cdb_node_store i (set_dev_key i dev_key cdb));
          match net_create with
          | Some err => mret (Some err)
          | None =>
              n ← node_at i;
              _ ← modify (fun p => p <| mesh_valid := true |> <| p_elements0_addr := node_addr n |>);
              mret None
          end
      end
  end.

(** What [settings_load] restores: the database, and the address of a node that
    was provisioned. *)
Definition settings_load (stored : option (bt_mesh_cdb * Z)) : ST provisioner unit :=
  match stored with
  | None => mret tt
  | Some (cdb, addr) =>
      modify (fun p => p <| p_cdb := cdb |> <| p_elements0_addr := addr |> <| mesh_valid := true |>)
  end.

(** [rand1] and [rand2] are the outputs of [bt_rand]. *)
Definition p_bt_ready (present : nat -> bool) (stored : option (bt_mesh_cdb * Z))
    (rand1 rand2 : bytes) (net_create : ret_code) : ST provisioner unit :=
  _ ← zoom p_board (board_init present);
  _ ← zoom p_board (board_show_text (str "Device Initialized" ++ nl) true);
  _ ← settings_load stored;
  _ ← modify (fun p => p <| p_network_key := rand1 |>);
  p ← gets id;
  let (err, cdb) := bt_mesh_cdb_create (p_network_key p) (p_cdb p) in
  _ ← cdb_modify (fun _ => cdb);
  match err with
  | Some EALREADY | None =>
      _ ← (match err with
           | None => zoom p_board (board_show_text (str "Created CDB") true)
           | Some _ => mret tt
           end);
      _ ← modify (fun p => p <| p_device_key := rand2 |>);
      _ ← p_show_main;
      _ ← zoom p_board (board_show_text (str "Self-Provisioning started") true);
      p ← gets id;
      err ← bt_mesh_provision net_create NET_IDX (self_address p) (p_device_key p);
      match err with
      | Some EALREADY | None => p_show_main
      | Some _ => mret tt
      end
  | Some _ => mret tt
  end.

(** ** The provisioning loop *)

(** [(uint16_t)strtol("0X000%s", NULL, 0)] of the record count cut to one digit. *)
Definition next_address (record_count : Z) : Z :=
  address_of_token (snprintf 2 (fmt_d record_count)).

(** How an attempt to provision the node found ends. *)
Inductive attempt : Type :=
| AttemptRefused (err : errno)                     (** [bt_mesh_provision_adv] fails *)
| AttemptTimeout                                   (** the protocol does not finish *)
| AttemptDone (num_elem : Z) (dev_key : bytes).    (** the device reports its elements *)

(** The end of the provisioning protocol on the provisioner's side: the node gets
    the address or the link fails. *)
Definition provisioning_done (uuid : bytes) (addr num_elem : Z) (dev_key : bytes)
    : ST provisioner unit :=
  p ← gets id;
  let (node, cdb) := bt_mesh_cdb_node_alloc uuid addr num_elem NET_IDX (p_cdb p) in
  match node with
  | None => mret tt
  | Some i =>
      _ ← cdb_modify (fun _ => bt_mesh_cdb_node_store i (set_dev_key i dev_key cdb));
      n ← node_at i;
      node_added (node_addr n)
  end.

(** One round of the loop of [mesh_start].  [seen] is the beacon detected within
    five seconds, [att] the outcome of its provisioning. *)
Definition loop_round (rand : bytes) (seen : option bytes) (att : attempt) : ST provisioner unit :=
  _ ← modify (fun p => p <| sem_unprov_beacon := 0 |> <| sem_node_added := 0 |>);
  _ ← bt_mesh_cdb_node_foreach p_cdb (check_unconfigured rand);
  match seen with
  | None => mret tt
  | Some uuid =>
      _ ← unprovisioned_beacon uuid;
      _ ← modify (fun p => p <| sem_unprov_beacon := sem_unprov_beacon p - 1 |>);
      p ← gets id;
      let addr := next_address (record_count (p_table p)) in
      match att with
      | AttemptRefused _ | AttemptTimeout => mret tt
      | AttemptDone num_elem dev_key =>
          _ ← provisioning_done (p_node_uuid p) addr num_elem dev_key;
          modify (fun p => if sem_node_added p =? 0 then p
                           else p <| sem_node_added := sem_node_added p - 1 |>)
      end
  end.

(** Image at power-up, with an empty database of the configured sizes. *)
Definition p_power_up (temp hum : Z) : provisioner :=
  mkProvisioner (mkTable (replicate STAT_COUNT stat_zero) 1) (board_reset temp hum)
    (bt_mesh_cdb_init 3 3 3) 6 0 zero16 zero16 zero16 zero16 [] 0 false 0 0 [] [].
