(* ===== verification/ProvisionerProps.v ===== *)
(** * Properties of the provisioner application

    The integration string against its specification, the handling of messages,
    the provisioning loop, and the situations the code does not guard. *)

From Stdlib Require Import String.
From S2P Require Import Prelude ByteOrder CString MeshDefs Cdb NetBuf Access Distance NodeTable.
From S2P Require Import Board AppCommon Beacon BeaconProps Provisioner.

(** ** Specification of the integration string *)

(** A record of this node and one of its neighbours. *)
Definition own_record (me : Z) (s : stat) : bool :=
  (s_addr s =? me) && negb (s_neighbour_addr s =? BT_MESH_ADDR_UNASSIGNED).

(** What a record of two other nodes says about node [a]. *)
Definition linked (me a : Z) (s : stat) : bytes :=
  if negb (a =? me) && negb (s_addr s =? me) && negb (s_neighbour_addr s =? BT_MESH_ADDR_UNASSIGNED) then
    if a =? s_addr s then value_str (s_neighbour_addr s) (s_distance s)
    else if a =? s_neighbour_addr s then value_str (s_addr s) (s_distance s)
    else []
  else [].

(** This node's entry: its sensor values and its neighbours with their distances. *)
Definition my_text (count : Z) (own : list stat) : bytes :=
  match own with
  | [] => []
  | s :: own' =>
      info_str (s_addr s) (s_temperature s) (s_humidity s) count (s_neighbour_addr s) (s_distance s)
      ++ concat (map (fun s => value_str (s_neighbour_addr s) (s_distance s)) own') ++ str ";"
  end.

(** A neighbour's entry: its sensor values, this node, and the other nodes it is
    linked to. *)
Definition neighbour_text (me count : Z) (ss : list stat) (s : stat) : bytes :=
  info_str (s_neighbour_addr s) (s_neighbour_temperature s) (s_neighbour_humidity s) count
    (s_addr s) (s_distance s)
  ++ concat (map (linked me (s_neighbour_addr s)) ss) ++ str ";".

Definition own_records (me : Z) (ss : list stat) : list stat := List.filter (own_record me) ss.

Definition integration_text (me : Z) (ss : list stat) : bytes :=
  let own := own_records me ss in
  let count := Z.of_nat (length own) in
  my_text count own ++ concat (map (neighbour_text me count ss) own).

(** The entries fit the arrays of 100 and 500 characters. *)
Definition texts_fit (me : Z) (ss : list stat) : bool :=
  let own := own_records me ss in
  let count := Z.of_nat (length own) in
  (length (my_text count own) <? 100)%nat &&
  forallb (fun s => (length (neighbour_text me count ss s) <? 100)%nat) own &&
  (length (concat (map (neighbour_text me count ss) own)) <? 500)%nat.

(** No link of a neighbour is recorded before the neighbour itself. *)
Fixpoint ordered (me : Z) (before ss : list stat) : bool :=
  match ss with
  | [] => true
  | s :: ss' =>
      (negb (own_record me s) || forallb (fun x => (length (linked me (s_neighbour_addr s) x) =? 0)%nat) before)
      && ordered me (before ++ [s]) ss'
  end.

(** ** The loops compute the specification *)

Lemma strcat_fits cap d s : (length (d ++ s) < cap)%nat -> strcat_local cap (Some d) s = Some (d ++ s).
Proof.
  intros H. unfold strcat_local, strcat. cbn [mbind option_bind]. rewrite length_app in H.
  by rewrite (proj2 (Nat.ltb_lt _ _) H).
Qed.

Lemma strcpy_fits cap s : (length s < cap)%nat -> strcpy cap s = Some s.
Proof. intros H. unfold strcpy. by rewrite (proj2 (Nat.ltb_lt _ _) H). Qed.

Lemma my_info_rest me ss count ns cur i :
  (forall a k, (a, k) ∈ ns -> exists s, ss !! k = Some s /\ own_record me s = true) ->
  i <> 0%nat ->
  (length (cur ++ concat (map (fun '(a, k) =>
     match ss !! k with Some s => value_str (s_neighbour_addr s) (s_distance s) | None => [] end) ns)) < 100)%nat ->
  my_info_loop me ss count i ns (Some cur) = Some (Some (cur ++ concat (map (fun '(a, k) =>
     match ss !! k with Some s => value_str (s_neighbour_addr s) (s_distance s) | None => [] end) ns))).
Proof.
  revert cur i. induction ns as [|[a k] ns IH]; intros cur i Hns Hi Hlen; cbn [my_info_loop map concat].
  - by rewrite app_nil_r.
  - destruct (Hns a k) as (s & Hs & Ho); [by apply elem_of_cons; left|]. rewrite Hs.
    cbn [mbind option_bind]. change ((s_addr s =? me) && _) with (own_record me s). rewrite Ho.
    cbn [map concat] in Hlen. rewrite Hs in Hlen.
    rewrite (proj2 (Nat.eqb_neq i 0) Hi). rewrite strcat_fits.
    2: { rewrite app_assoc, length_app in Hlen. lia. }
    cbn [fmap option_fmap option_map mbind option_bind].
    rewrite IH, <- app_assoc; [done| |done|by rewrite <- app_assoc].
    intros a' k' H'. apply (Hns a' k'). by apply elem_of_cons; right.
Qed.

(** Past its own record a neighbour's entry grows by its links. *)
Lemma neighbour_info_after me count a k i ss cur :
  (k < i)%nat -> (length (cur ++ concat (map (linked me a) ss)) < 100)%nat ->
  neighbour_info_loop me count a k i ss (Some cur) = Some (Some (cur ++ concat (map (linked me a) ss))).
Proof.
  revert i cur. induction ss as [|s ss IH]; intros i cur Hi Hlen; cbn [neighbour_info_loop map concat].
  - by rewrite app_nil_r.
  - cbn [map concat] in Hlen. rewrite (proj2 (Nat.eqb_neq i k)) by lia.
    assert (forall cur', cur' = cur ++ linked me a s ->
      neighbour_info_loop me count a k (S i) ss (Some cur') =
      Some (Some (cur ++ linked me a s ++ concat (map (linked me a) ss)))) as Hgo.
    { intros cur' ->. rewrite IH; [by rewrite <- app_assoc|lia|by rewrite <- app_assoc]. }
    assert (length (cur ++ linked me a s) < 100)%nat as Hfit
      by (rewrite app_assoc, length_app in Hlen; lia).
    unfold linked in Hgo, Hfit |- * at 1. 
    destruct (negb (a =? me) && _ && _); cbn [mbind option_bind]; [|apply Hgo; by rewrite app_nil_r].
    destruct (a =? s_addr s); [|destruct (a =? s_neighbour_addr s)].
    + rewrite strcat_fits by done. cbn. by apply Hgo.
    + rewrite strcat_fits by done. cbn. by apply Hgo.
    + cbn. apply Hgo. by rewrite app_nil_r.
Qed.

Definition unlinked (me a : Z) (s : stat) : bool := (length (linked me a s) =? 0)%nat.

Lemma unlinked_nil me a s : unlinked me a s = true -> linked me a s = [].
Proof. unfold unlinked. intros H. apply Nat.eqb_eq in H. by apply nil_length_inv. Qed.

Lemma concat_unlinked me a ss :
  forallb (unlinked me a) ss = true -> concat (map (linked me a) ss) = [].
Proof.
  induction ss as [|s ss IH]; cbn [forallb map concat]; [done|]. intros H.
  apply andb_true_iff in H as [H1 H2]. by rewrite (unlinked_nil _ _ _ H1), IH.
Qed.

Lemma value_str_nonempty a d : value_str a d <> [].
Proof. done. Qed.

(** Before a neighbour's own record its entry is not touched. *)
Lemma neighbour_info_before me count a k i pre ss :
  forallb (unlinked me a) pre = true -> (i + length pre <= k)%nat ->
  neighbour_info_loop me count a k i (pre ++ ss) None =
  neighbour_info_loop me count a k (i + length pre) ss None.
Proof.
  revert i. induction pre as [|s pre IH]; intros i Hu Hk; cbn [app length].
  - by rewrite Nat.add_0_r.
  - cbn [forallb length] in Hu, Hk. apply andb_true_iff in Hu as [Hs Hu].
    apply unlinked_nil in Hs. cbn [neighbour_info_loop]. rewrite (proj2 (Nat.eqb_neq i k)) by lia.
    rewrite <- Nat.add_succ_comm, <- IH by (done || lia). unfold linked in Hs.
    destruct (negb (a =? me) && _ && _); cbn [mbind option_bind]; [|done].
    destruct (a =? s_addr s); [by apply value_str_nonempty in Hs|].
    destruct (a =? s_neighbour_addr s); [by apply value_str_nonempty in Hs|done].
Qed.

Lemma own_unlinked me a s : own_record me s = true -> linked me a s = [].
Proof.
  unfold own_record, linked. intros H. apply andb_true_iff in H as [H _]. rewrite H.
  by rewrite andb_false_r.
Qed.

Lemma neighbour_info_full me count pre s post :
  let ss := pre ++ s :: post in
  own_record me s = true -> forallb (unlinked me (s_neighbour_addr s)) pre = true ->
  (length (neighbour_text me count ss s) < 100)%nat ->
  (info ← neighbour_info_loop me count (s_neighbour_addr s) (length pre) 0 ss None;
   strcat_local 100 info (str ";")) = Some (neighbour_text me count ss s).
Proof.
  intros ss Ho Hu Hlen. set (a := s_neighbour_addr s) in *.
  set (entry := info_str a (s_neighbour_temperature s) (s_neighbour_humidity s) count (s_addr s) (s_distance s)).
  assert (concat (map (linked me a) ss) = concat (map (linked me a) post)) as Hc.
  { unfold ss. rewrite map_app, concat_app, concat_unlinked by done. cbn [map concat].
    by rewrite own_unlinked. }
  assert (neighbour_text me count ss s = (entry ++ concat (map (linked me a) post)) ++ str ";") as Ht
    by (unfold neighbour_text; fold a; fold entry; by rewrite Hc, app_assoc).
  rewrite Ht in *. unfold ss. rewrite neighbour_info_before by (done || lia).
  cbn [neighbour_info_loop Nat.add]. rewrite Nat.eqb_refl. cbn [mbind option_bind]. fold entry. fold a.
  rewrite neighbour_info_after; [|lia|].
  - cbn [mbind option_bind]. by apply strcat_fits.
  - rewrite length_app in Hlen. fold entry. lia.
Qed.

(** How an entry of [neighbour_addr_list] points to its record. *)
Definition points_to (me : Z) (ss : list stat) (ak : Z * nat) (s : stat) : Prop :=
  exists pre post, ss = pre ++ s :: post /\ ak = (s_neighbour_addr s, length pre) /\
    own_record me s = true /\ forallb (unlinked me (s_neighbour_addr s)) pre = true.

Lemma my_neighbours_point me pre ss :
  ordered me pre ss = true ->
  Forall2 (points_to me (pre ++ ss))
    (omap id (imap (fun i s => if own_record me s then Some (s_neighbour_addr s, (length pre + i)%nat)
                               else None) ss))
    (own_records me ss).
Proof.
  revert pre. induction ss as [|s ss IH]; intros pre Ho; [constructor|].
  cbn [ordered] in Ho. apply andb_true_iff in Ho as [Hs Ho].
  specialize (IH (pre ++ [s]) Ho). rewrite <- app_assoc in IH. cbn [app] in IH.
  rewrite length_app in IH. cbn [length] in IH.
  rewrite imap_cons. unfold own_records. cbn [omap list_omap List.filter].
  assert (imap ((fun i s0 => if own_record me s0 then Some (s_neighbour_addr s0, (length pre + i)%nat)
                             else None) ∘ S) ss =
          imap (fun i s0 => if own_record me s0 then Some (s_neighbour_addr s0, (length pre + 1 + i)%nat)
                            else None) ss) as ->.
  { apply imap_ext. intros i x _. cbn. destruct (own_record me x); [|done]. do 2 f_equal. lia. }
  unfold id at 1. destruct (own_record me s) eqn:E; [|exact IH].
  constructor; [|exact IH]. exists pre, ss. rewrite Nat.add_0_r.
  split; [done|]. split; [done|]. split; [done|]. cbn [negb orb] in Hs. exact Hs.
Qed.

Lemma all_neighbours_rest me count ss ns own cur j :
  Forall2 (points_to me ss) ns own -> j <> 0%nat ->
  forallb (fun s => (length (neighbour_text me count ss s) <? 100)%nat) own = true ->
  (length (cur ++ concat (map (neighbour_text me count ss) own)) < 500)%nat ->
  all_neighbours_loop me count ss j ns (Some cur) =
  Some (Some (cur ++ concat (map (neighbour_text me count ss) own))).
Proof.
  intros Hp. revert cur j. induction Hp as [|[a k] s ns own (pre & post & -> & [= -> ->] & Ho & Hu) _ IH];
    intros cur j Hj Hf Hlen; cbn [all_neighbours_loop map concat].
  - by rewrite app_nil_r.
  - cbn [forallb map concat] in Hf, Hlen. apply andb_true_iff in Hf as [Hf1 Hf2].
    apply Nat.ltb_lt in Hf1. pose proof (neighbour_info_full me count pre s post Ho Hu Hf1) as E.
    cbv zeta in E. destruct (neighbour_info_loop _ _ _ _ _ _ _) as [info|]; [|done].
    cbn [mbind option_bind] in E |- *. rewrite E. cbn [mbind option_bind].
    rewrite (proj2 (Nat.eqb_neq j 0) Hj). rewrite strcat_fits.
    2: { rewrite app_assoc, length_app in Hlen. lia. }
    cbn [mbind option_bind]. rewrite IH; [by rewrite <- app_assoc|done|done|by rewrite <- app_assoc].
Qed.

Lemma points_to_lookup me ss a k s :
  points_to me ss (a, k) s -> ss !! k = Some s /\ own_record me s = true.
Proof.
  intros (pre & post & -> & [= -> ->] & Ho & _). split; [|done].
  by rewrite list_lookup_middle.
Qed.

Lemma points_to_values me ss ns own :
  Forall2 (points_to me ss) ns own ->
  map (fun '(a, k) => match ss !! k with
                      | Some s => value_str (s_neighbour_addr s) (s_distance s)
                      | None => []
                      end) ns =
  map (fun s => value_str (s_neighbour_addr s) (s_distance s)) own /\
  (forall a k, (a, k) ∈ ns -> exists s, ss !! k = Some s /\ own_record me s = true).
Proof.
  induction 1 as [|[a k] s ns own Hp _ [IH1 IH2]]; cbn [map].
  - split; [done|]. intros a k H. by apply not_elem_of_nil in H.
  - apply points_to_lookup in Hp as [Hs Ho]. rewrite Hs. split; [by rewrite IH1|].
    intros a' k' H. apply elem_of_cons in H as [[= -> ->]|H]; eauto.
Qed.

(** The integration string is the specified text whenever that text fits. *)
Lemma integration_string_ok me ss :
  own_records me ss <> [] -> ordered me [] ss = true -> texts_fit me ss = true ->
  integration_string me ss = Some (snprintf 600 (integration_text me ss)).
Proof.
  intros Hne Hord Hfit. pose proof (my_neighbours_point me [] ss Hord) as Hp.
  change (omap id _) with (my_neighbours me ss) in Hp. cbn [app] in Hp.
  pose proof (Forall2_length Hp) as Hlen.
  unfold texts_fit in Hfit. rewrite !andb_true_iff in Hfit. destruct Hfit as [[Hf1 Hf2] Hf3].
  apply Nat.ltb_lt in Hf1, Hf3.
  unfold integration_string. cbv zeta. rewrite Hlen. unfold integration_text. cbv zeta.
  set (count := Z.of_nat (length (own_records me ss))) in *.
  clearbody count. clear Hlen. revert Hp Hne Hf1 Hf2 Hf3.
  generalize (my_neighbours me ss) (own_records me ss). intros ns0 own0 Hall.
  destruct Hall as [|[a k] s ns own Hp Hr]; [done|]. intros _ Hf1 Hf2 Hf3.
  pose proof (points_to_lookup _ _ _ _ _ Hp) as [Hs Ho].
  pose proof (points_to_values _ _ _ _ Hr) as [Hv Hns].
  cbn [my_info_loop]. rewrite Hs. cbn [mbind option_bind].
  change ((s_addr s =? me) && _) with (own_record me s). rewrite Ho. cbn [Nat.eqb mbind option_bind].
  unfold my_text in Hf1 |- *. rewrite app_assoc in Hf1.
  rewrite my_info_rest; [|done|done|rewrite Hv; rewrite length_app in Hf1; lia].
  rewrite Hv. cbn [mbind option_bind]. rewrite strcat_fits by done. cbn [mbind option_bind].
  rewrite strcpy_fits by done. cbn [mbind option_bind all_neighbours_loop].
  cbn [forallb map concat] in Hf2, Hf3 |- *. apply andb_true_iff in Hf2 as [Hf2 Hf4].
  apply Nat.ltb_lt in Hf2.
  destruct Hp as (pre & post & -> & [= -> ->] & _ & Hu).
  pose proof (neighbour_info_full me count pre s post Ho Hu Hf2) as En. cbv zeta in En.
  destruct (neighbour_info_loop _ _ _ _ _ _ _) as [info|]; [|done].
  cbn [mbind option_bind] in En |- *. rewrite En. cbn [mbind option_bind Nat.eqb].
  rewrite strcpy_fits by (rewrite length_app in Hf3; lia).
  cbn [mbind option_bind].
  rewrite (all_neighbours_rest me count _ ns own) by done.
  cbn [mbind option_bind]. rewrite strcat_fits by (by rewrite app_nil_r). rewrite app_nil_r.
  cbn [mbind option_bind]. rewrite strcpy_fits by done.
  cbn [mbind option_bind]. by rewrite <- !app_assoc.
Qed.

(** ** When the text fits *)

(** Values a record can hold. *)
Definition record_ok (s : stat) : Prop :=
  is_u16 (s_addr s) /\ is_u16 (s_neighbour_addr s) /\ is_i8 (s_distance s).

Lemma length_hex_addr a : is_u16 a -> (length (hex_addr a) <= 6)%nat.
Proof.
  unfold is_u16. intros Ha. unfold hex_addr, fmt_04x. rewrite !length_app, length_replicate.
  assert (length (fmt_nat 16 a) <= 4)%nat as Hl.
  { unfold fmt_nat. rewrite length_map. apply (length_digits 20 16 a 3); [lia|].
    change (16 ^ Z.of_nat 4) with 65536. pow2. lia. }
  cbn [length str]. lia.
Qed.

Lemma length_fmt_i8 d : is_i8 d -> (length (fmt_d d) <= 4)%nat.
Proof.
  unfold is_i8. intros Hd. unfold fmt_d, fmt_nat.
  destruct (Z.ltb_spec d 0); cbn [length]; rewrite length_map.
  - pose proof (length_digits 20 10 (- d) 2 ltac:(lia)) as H1.
    change (10 ^ Z.of_nat 3) with 1000 in H1. lia.
  - pose proof (length_digits 20 10 d 2 ltac:(lia)) as H1.
    change (10 ^ Z.of_nat 3) with 1000 in H1. lia.
Qed.

Lemma length_value_str a d : is_u16 a -> is_i8 d -> (length (value_str a d) <= 12)%nat.
Proof.
  intros Ha Hd. pose proof (length_hex_addr a Ha). pose proof (length_fmt_i8 d Hd).
  unfold value_str, snprintf. rewrite length_take, !length_app. cbn [length str]. lia.
Qed.

Lemma length_info_str a t h c n d : (length (info_str a t h c n d) <= 49)%nat.
Proof. unfold info_str, snprintf. rewrite length_take. lia. Qed.

Lemma length_linked me a s :
  record_ok s -> (length (linked me a s) <= if own_record me s then 0 else 12)%nat.
Proof.
  intros (H1 & H2 & H3). destruct (own_record me s) eqn:E; [by rewrite own_unlinked|].
  unfold linked. destruct (_ && _ && _); [|cbn; lia].
  destruct (a =? s_addr s); [by apply length_value_str|].
  destruct (a =? s_neighbour_addr s); [by apply length_value_str|cbn; lia].
Qed.

Lemma length_links me a ss :
  Forall record_ok ss ->
  (length (concat (map (linked me a) ss)) <= 12 * (length ss - length (own_records me ss)))%nat /\
  (length (own_records me ss) <= length ss)%nat.
Proof.
  unfold own_records. induction 1 as [|s ss Hs _ [IH1 IH2]]; cbn [map concat List.filter]; [cbn; lia|].
  pose proof (length_linked me a s Hs) as Hl. rewrite length_app.
  destruct (own_record me s); cbn [length]; lia.
Qed.

Lemma length_values own :
  Forall record_ok own ->
  (length (concat (map (fun s => value_str (s_neighbour_addr s) (s_distance s)) own)) <= 12 * length own)%nat.
Proof.
  induction 1 as [|s own (_ & H2 & H3) _ IH]; cbn [map concat length]; [lia|].
  rewrite length_app. pose proof (length_value_str _ _ H2 H3). lia.
Qed.

Lemma length_neighbour_texts me count ss own :
  Forall record_ok ss -> (length ss - length (own_records me ss) <= 4)%nat ->
  forallb (fun s => (length (neighbour_text me count ss s) <? 100)%nat) own = true /\
  (length (concat (map (neighbour_text me count ss) own)) <= 98 * length own)%nat.
Proof.
  intros Hok Hn.
  assert (forall s, length (neighbour_text me count ss s) <= 98)%nat as H98.
  { intros s. unfold neighbour_text. rewrite !length_app.
    pose proof (length_info_str (s_neighbour_addr s) (s_neighbour_temperature s)
                  (s_neighbour_humidity s) count (s_addr s) (s_distance s)).
    destruct (length_links me (s_neighbour_addr s) ss Hok) as [Hl _]. cbn [length str]. lia. }
  induction own as [|s own [IH1 IH2]]; cbn [forallb map concat length]; [split; [done|lia]|].
  pose proof (H98 s) as Hs. rewrite IH1, (proj2 (Nat.ltb_lt _ 100)) by lia.
  split; [done|]. rewrite length_app. lia.
Qed.

Lemma own_records_ok me ss : Forall record_ok ss -> Forall record_ok (own_records me ss).
Proof.
  rewrite !List.Forall_forall. intros H x Hx. apply List.filter_In in Hx as [Hx _]. by apply H.
Qed.

Lemma texts_fit_small me ss :
  Forall record_ok ss -> (length (own_records me ss) <= 5)%nat ->
  (length ss - length (own_records me ss) <= 4)%nat ->
  texts_fit me ss = true /\ (length (integration_text me ss) < 600)%nat.
Proof.
  intros Hok H5 H4. unfold texts_fit, integration_text. cbv zeta.
  set (count := Z.of_nat (length (own_records me ss))).
  destruct (length_neighbour_texts me count ss (own_records me ss) Hok H4) as [Hf Hl].
  assert (length (my_text count (own_records me ss)) <= 98)%nat as Hm.
  { pose proof (own_records_ok me ss Hok) as Hown. unfold my_text.
    destruct (own_records me ss) as [|s own]; [cbn; lia|]. inversion_clear Hown as [|? ? _ Hown'].
    rewrite !length_app. pose proof (length_values own Hown').
    pose proof (length_info_str (s_addr s) (s_temperature s) (s_humidity s) count
                  (s_neighbour_addr s) (s_distance s)).
    cbn [length str] in *. lia. }
  rewrite Hf, !(proj2 (Nat.ltb_lt _ _)) by lia. split; [done|]. rewrite length_app. lia.
Qed.

(** C26: The integration string describes the network.  For a table with one to
    five neighbours of this node and at most four records about other pairs, none
    placed before the record of the neighbour it concerns, the string generated is
    exactly the specified text: this node's sensor values, neighbours and distances,
    then one entry per neighbour with its sensor values, the distance to this node
    and its links to other nodes; no array overflows on the way. *)
Theorem integration_string_correct me ss :
  Forall record_ok ss -> ordered me [] ss = true -> own_records me ss <> [] ->
  (length (own_records me ss) <= 5)%nat -> (length ss - length (own_records me ss) <= 4)%nat ->
  integration_string me ss = Some (integration_text me ss).
Proof.
  intros Hok Hord Hne H5 H4. destruct (texts_fit_small me ss Hok H5 H4) as [Hf Hl].
  rewrite integration_string_ok by done. by rewrite snprintf_fits.
Qed.

Definition table_example : list stat :=
  [mkStat 6 (str "P") 21 40 1 (str "N1") 20 33 (-60) 1;
   mkStat 6 (str "P") 21 40 2 (str "N2") 19 35 (-70) 2;
   mkStat 1 (str "N1") 0 0 2 (str "N2") 0 0 0 4].

Lemma integration_string_correct_witness :
  integration_string 6 table_example =
  Some (str "0x0006,21,40,2,0x0001:1,0x0002:2;0x0001,20,33,2,0x0006:1,0x0002:4;0x0002,19,35,2,0x0006:2,0x0001:4;").
Proof.
  apply (integration_string_correct 6 table_example).
  - repeat constructor; vm_compute; discriminate.
  - reflexivity.
  - discriminate.
  - vm_compute. lia.
  - vm_compute. lia.
Defined.

(** ** Restart of a provisioned provisioner *)

Definition p_with_panel (fr : list printed) (p : provisioner) : provisioner :=
  p <| p_board := p_board p <| frame := fr |> <| panel := fr |> |>.

Lemma p_show_main_ok p : exists fr, p_show_main p = Some (tt, p_with_panel fr p).
Proof.
  unfold p_show_main. rewrite bind_gets.
  assert (exists u, uuid_str p_my_device_uuid 2 = Some u) as [u ->] by (vm_compute; eauto).
  cbn [need]. rewrite bind_ret. eexists. erewrite zoom_some; [|apply show_lines_ok]. reflexivity.
Qed.

Lemma show_text_ok text center p :
  exists fr, zoom p_board (board_show_text text center) p = Some (tt, p_with_panel fr p).
Proof. by eexists. Qed.

(** The state after a restart with a stored, valid database: everything kept in
    RAM is back at its initial value. *)
Definition restarted_state (cdb : bt_mesh_cdb) (addr : Z) (rand1 rand2 : bytes) (bd : board)
    : provisioner :=
  mkProvisioner (mkTable (replicate STAT_COUNT stat_zero) 1) bd cdb 6 0 zero16 rand2 rand1 zero16 []
    addr true 0 0 [] [].

Lemma bt_mesh_provision_already nc net_idx addr dev_key p :
  mesh_valid p = true -> bt_mesh_provision nc net_idx addr dev_key p = Some (Some EALREADY, p).
Proof. intros H. unfold bt_mesh_provision. rewrite bind_gets. unfold id. by rewrite H. Qed.

Lemma p_bt_ready_restart present cdb addr rand1 rand2 nc temp hum :
  (forall i, (i < 3)%nat -> present i = true) -> Z.testbit (cdb_flags cdb) BT_MESH_CDB_VALID = true ->
  exists bd, p_bt_ready present (Some (cdb, addr)) rand1 rand2 nc (p_power_up temp hum) =
    Some (tt, restarted_state cdb addr rand1 rand2 bd) /\ board_ok bd.
Proof.
  intros Hp Hv. destruct (board_init_ok present temp hum Hp) as (bd & Eb & Hbd).
  unfold p_bt_ready.
  rewrite (bind_some _ _ _ _ _ (zoom_some p_board _ (p_power_up temp hum) tt bd Eb)).
  set (p0 := p_power_up temp hum <| p_board := bd |>).
  destruct (show_text_ok (str "Device Initialized" ++ nl) true p0) as [fr1 E1].
  rewrite (bind_some _ _ _ _ _ E1). unfold settings_load. rewrite !bind_modify, bind_gets. unfold id.
  cbn [p_cdb p_network_key p_with_panel assign].
  unfold bt_mesh_cdb_create. rewrite Hv. cbv iota beta. unfold cdb_modify. rewrite bind_modify, bind_ret, bind_modify.
  match goal with |- context [(p_show_main ≫= ?k) ?p] => destruct (p_show_main_ok p) as [fr2 E2] end.
  rewrite (bind_some _ _ _ _ _ E2). clear E2.
  match goal with |- context [(zoom p_board (board_show_text ?t ?c) ≫= ?k) ?p] =>
    destruct (show_text_ok t c p) as [fr3 E3] end.
  rewrite (bind_some _ _ _ _ _ E3). clear E3. rewrite bind_gets.
  erewrite bind_some; [|apply bt_mesh_provision_already; reflexivity]. cbv beta iota.
  match goal with |- context [p_show_main ?p] => destruct (p_show_main_ok p) as [fr4 E4] end.
  exists (bd <| frame := fr4 |> <| panel := fr4 |>). split; [exact E4|]. by apply board_ok_show.
Qed.

Lemma p_blink_ok e p :
  board_ok (p_board p) ->
  when (distance_lt_2 e) (zoom p_board board_blink_leds) p =
  Some (tt, p <| p_board := blinked e (p_board p) |>).
Proof.
  intros (_ & _ & [x Hx] & _). unfold blinked. destruct (distance_lt_2 e); cbn [when].
  - apply zoom_some. unfold board_blink_leds, submit_led_timer. by rewrite bind_gets, Hx.
  - by destruct p.
Qed.

(** The summary of an empty table is undefined behaviour, and a restart
    reaches it.  The table is not stored in flash while the nodes of the database
    stay configured, so after a restart the table is empty; the first sensor message
    that arrives then makes [generate_node_info_list_string] call [strcat] on an
    array that nothing has been written to. *)
Theorem restart_first_message_undefined present cdb addr rand1 rand2 nc temp hum p from name t h rssi :
  (forall i, (i < 3)%nat -> present i = true) -> Z.testbit (cdb_flags cdb) BT_MESH_CDB_VALID = true ->
  p_bt_ready present (Some (cdb, addr)) rand1 rand2 nc (p_power_up temp hum) = Some (tt, p) ->
  wf_message (MsgS name t h) = true -> from <> 6 -> from <> BT_MESH_ADDR_UNASSIGNED ->
  p_receive_message from (render (MsgS name t h)) rssi p = None.
Proof.
  intros Hp Hv E Hm Hne Hun.
  destruct (p_bt_ready_restart present cdb addr rand1 rand2 nc temp hum Hp Hv) as (bd & E' & Hbd).
  rewrite E' in E. injection E as <-. unfold p_receive_message. rewrite bind_gets.
  change (p_get_my_address _) with 6.
  rewrite (proj2 (Z.eqb_neq _ _) Hne), (proj2 (Z.eqb_neq _ _) Hun). cbn [orb]. cbv zeta.
  change (p_message_of (render (MsgS name t h))) with (message_of (render (MsgS name t h))).
  rewrite message_of_render by done.
  rewrite (bind_some _ _ _ _ _ (p_blink_ok _ (restarted_state cdb addr rand1 rand2 bd) Hbd)).
  change (str "S") with [83]. change (str "T") with [84]. change (str "U") with [85].
  rewrite !contains_code by (done || lia). cbn [code Z.eqb Pos.eqb when].
  set (e := calculate_distance_in_metres rssi).
  set (p1 := restarted_state cdb addr rand1 rand2 bd <| p_board := _ |>).
  assert (p_on_table (fun me => update_distance 1 me from e rssi) p1 = Some (tt, p1)) as E1 by reflexivity.
  assert (p_on_table (fun me => receive_S 1 me (render (MsgS name t h)) from e rssi) p1 = Some (tt, p1))
    as E2 by reflexivity.
  rewrite (bind_some _ _ _ _ _ E1), (bind_some _ _ _ _ _ E2), !bind_ret.
  assert (p_send_answers from p1 = Some (tt, p1)) as E3 by reflexivity.
  rewrite (bind_some _ _ _ _ _ E3).
  assert (exists fr, p_show_node_status p1 = Some (tt, p_with_panel fr p1)) as [fr E4].
  { unfold p_show_node_status. rewrite bind_gets. eexists.
    cbn [need]. unfold id. change (live_stats 1 (p_table p1)) with (Some (@nil stat)). cbn [need].
    rewrite bind_ret. erewrite zoom_some; [|apply show_lines_ok]. reflexivity. }
  rewrite (bind_some _ _ _ _ _ E4). reflexivity.
Qed.

Definition stored_node (a f : Z) : bt_mesh_cdb_node :=
  {| node_uuid := replicate 16 a; node_addr := a; node_net_idx := 0;
     node_num_elem := 1; node_dev_key := replicate 16 a; node_flags := f |}.

(** A database with the provisioner at address 6, configured, and a node at
    address 1 not configured yet. *)
Definition stored_example : bt_mesh_cdb :=
  with_nodes (fun _ => [stored_node 6 1; stored_node 1 0; empty_node])
    (snd (bt_mesh_cdb_create (replicate 16 7) (bt_mesh_cdb_init 3 3 3))).

Definition restarted_example : provisioner := Eval vm_compute in
  match p_bt_ready (fun _ => true) (Some (stored_example, 6)) (replicate 16 8) (replicate 16 9) None
          (p_power_up 20 30) with
  | Some (_, p) => p
  | None => p_power_up 0 0
  end.

Lemma restart_first_message_undefined_witness :
  p_receive_message 1 (render (MsgS (str "N1") (str "20") (str "33"))) (-60) restarted_example = None.
Proof.
  apply (restart_first_message_undefined (fun _ => true) stored_example 6 (replicate 16 8)
           (replicate 16 9) None 20 30).
  - done.
  - reflexivity.
  - vm_compute. reflexivity.
  - reflexivity.
  - discriminate.
  - discriminate.
Defined.

(** ** Configuration of a node *)

Lemma node_at_some p i n : cdb_nodes (p_cdb p) !! i = Some n -> node_at i p = Some (n, p).
Proof. intros H. unfold node_at. by rewrite bind_gets, H. Qed.

(** State after the configuration of node [i]. *)
Definition configured_state (i : nat) (n : bt_mesh_cdb_node) (s : stat) (p : provisioner) : provisioner :=
  let name := node_name (record_count (p_table p)) in
  p <| p_cfg := p_cfg p ++ cfg_requests (node_addr n) (p_application_key p) |>
    <| p_cdb := bt_mesh_cdb_node_store i (set_configured i (p_cdb p)) |>
    <| p_sent := p_sent p ++ send_result (self_address p) (node_addr n) (provisioning_message name) |>
    <| p_table := mkTable (<[live 1 (p_table p) :=
         s <| s_addr := self_address p |> <| s_humidity := p_humidity p |>
           <| s_temperature := p_temperature p |> <| s_name := snprintf 2 p_my_device_name |>
           <| s_neighbour_name := snprintf 4 name |> <| s_neighbour_addr := node_addr n |>]>
         (node_info (p_table p))) (record_count (p_table p) + 1) |>.

Lemma configure_node_ok rand p i n s :
  cdb_nodes (p_cdb p) !! i = Some n -> Z.testbit (node_flags n) BT_MESH_CDB_NODE_CONFIGURED = false ->
  node_addr n <> self_address p -> table_ok 1 (p_table p) -> (live 1 (p_table p) < STAT_COUNT)%nat ->
  node_info (p_table p) !! live 1 (p_table p) = Some s ->
  check_unconfigured rand i p = Some (true, configured_state i n s p).
Proof.
  intros Hn Hc Ha Hok Hlt Hs. unfold check_unconfigured.
  rewrite (bind_some _ _ _ _ _ (node_at_some p i n Hn)), bind_gets. unfold id. rewrite Hc.
  cbn [negb]. rewrite (proj2 (Z.eqb_neq _ _) Ha).
  assert (configure_node i p = Some (tt, configured_state i n s p)) as E0;
    [|by rewrite (bind_some _ _ _ _ _ E0)].
  unfold configure_node.
  rewrite (bind_some _ _ _ _ _ (node_at_some p i n Hn)), bind_modify. unfold cdb_modify.
  rewrite !bind_modify, bind_gets. unfold id. cbv zeta.
  match goal with |- (p_send_message _ _ ≫= _) ?q = _ => set (p1 := q) end.
  assert (p_send_message (node_addr n) (provisioning_message (node_name (record_count (p_table p1)))) p1 =
    Some (tt, p1 <| p_sent := p_sent p1 ++ send_result (self_address p1) (node_addr n)
                  (provisioning_message (node_name (record_count (p_table p1)))) |>)) as E.
  { unfold p_send_message. rewrite bind_gets, make_send_ok. done. }
  rewrite (bind_some _ _ _ _ _ E). clear E. unfold zoom.
  change (p_table (p1 <| p_sent := _ |>)) with (p_table p).
  erewrite append_stat_spec; [|done..]. reflexivity.
Qed.

(** The provisioning message is a well-formed Q message for every record count
    of the table. *)
Lemma provisioning_message_payload rc :
  1 <= rc <= 11 ->
  payload (provisioning_message (node_name rc)) = render (MsgQ (str "P") (node_name rc)) /\
  wf_message (MsgQ (str "P") (node_name rc)) = true /\ (length (node_name rc) <= 3)%nat.
Proof.
  intros H. assert (rc ∈ seqZ 1 11) as Hin by (apply elem_of_seqZ; lia).
  revert rc H Hin. refine (fun rc _ Hin => _).
  assert (forallb (fun rc => bool_decide (payload (provisioning_message (node_name rc)) =
      render (MsgQ (str "P") (node_name rc))) && wf_message (MsgQ (str "P") (node_name rc))
      && (length (node_name rc) <=? 3)%nat) (seqZ 1 11) = true) as Hall by (vm_compute; reflexivity).
  rewrite forallb_forall in Hall. specialize (Hall rc (proj1 (list_elem_of_In _ _) Hin)).
  rewrite !andb_true_iff in Hall. destruct Hall as [[H1 H2] H3].
  apply bool_decide_eq_true in H1. apply Nat.leb_le in H3. auto.
Qed.

Lemma node_name_cut rc : (length (node_name rc) <= 3)%nat.
Proof. unfold node_name, snprintf. rewrite length_take. lia. Qed.

(** The name for a record count of the table, without the cut of [snprintf]. *)
Lemma node_name_fits rc : 1 <= rc <= 11 -> snprintf 4 (node_name rc) = str "N" ++ fmt_d rc.
Proof.
  intros H. assert (rc ∈ seqZ 1 11) as Hin by (apply elem_of_seqZ; lia).
  assert (forallb (fun rc => bool_decide (snprintf 4 (node_name rc) = str "N" ++ fmt_d rc)) (seqZ 1 11) = true)
    as Hall by (vm_compute; reflexivity).
  rewrite forallb_forall in Hall. specialize (Hall rc (proj1 (list_elem_of_In _ _) Hin)).
  by apply bool_decide_eq_true in Hall.
Qed.

(** C8: The two applications agree on a new node.  When the provisioner's loop finds a
    provisioned but unconfigured node other than itself, it requests the key and binding
    configuration of that node, marks it as configured and requests its storage, records
    it as its neighbour under the name N followed by the number of the new record, and
    sends one message.  A beacon that receives that message takes exactly the recorded
    name, the provisioner's name and the provisioner's address.  The provisioner's table
    has a free record, the address of the node is assigned, and the beacon hears a
    provisioner with another address than its own at more than -116 dBm, where the
    distance is still an int8_t. *)
Theorem handshake rand p i n b rssi :
  cdb_nodes (p_cdb p) !! i = Some n -> Z.testbit (node_flags n) BT_MESH_CDB_NODE_CONFIGURED = false ->
  node_addr n <> self_address p -> node_addr n <> BT_MESH_ADDR_UNASSIGNED ->
  table_ok 1 (p_table p) -> (live 1 (p_table p) < STAT_COUNT)%nat ->
  beacon_inv b -> self_address p <> my_address b -> self_address p <> BT_MESH_ADDR_UNASSIGNED ->
  is_i8 rssi -> -116 < rssi ->
  exists p' data b' s n', check_unconfigured rand i p = Some (true, p') /\
    p_sent p' = p_sent p ++ [mkSent (node_addr n) APP_IDX DEFAULT_TTL data] /\
    p_cfg p' = p_cfg p ++ cfg_requests (node_addr n) (p_application_key p) /\
    cdb_nodes (p_cdb p') !! i = Some n' /\ node_addr n' = node_addr n /\
    Z.testbit (node_flags n') BT_MESH_CDB_NODE_CONFIGURED = true /\
    cdb_log (p_cdb p') = cdb_log (p_cdb p) ++ [StoreNode i] /\
    live 1 (p_table p') = S (live 1 (p_table p)) /\
    node_info (p_table p') !! live 1 (p_table p) = Some s /\
    s_addr s = self_address p /\ s_neighbour_addr s = node_addr n /\
    s_neighbour_name s = str "N" ++ fmt_d (Z.of_nat (S (live 1 (p_table p)))) /\
    receive_message (self_address p) (drop 3 data) rssi b = Some (tt, b') /\
    my_device_name b' = s_neighbour_name s /\ provisioner_device_name b' = p_my_device_name /\
    provisioner_address b' = self_address p.
Proof.
  intros Hn Hc Ha Hun Hok Hlt [Hb Hinv] Hne Hz Hi Hr. pose proof Hok as (Hlen & Hbase & Hrc).
  assert (exists s, node_info (p_table p) !! live 1 (p_table p) = Some s) as [s Hs]
    by (apply lookup_lt_is_Some; lia).
  set (rc := record_count (p_table p)) in *.
  assert (1 <= rc <= 11) as Hrc'.
  { unfold live, get_node_info_list_record_count, STAT_COUNT in *. fold rc in Hlt. lia. }
  destruct (provisioning_message_payload rc Hrc') as (Hpay & Hwf & _).
  destruct (distance_to_int8_defined rssi Hi Hr) as (d & Hd & _).
  destruct (slot0 _ _ Hinv) as [s0 Hs0]. pose proof Hinv as ((Hlen0 & _) & _).
  destruct (receive_Q_ok b (str "P") (node_name rc) (self_address p) rssi _ d s0 eq_refl Hd Hb Hs0 Hlen0
              Hne Hz Hwf) as (fr & fr0 & E). cbv zeta in E.
  eexists (configured_state i n s p), (on_air (provisioning_message (node_name rc))), _, _,
    (match cdb_nodes (p_cdb (configured_state i n s p)) !! i with Some x => x | None => n end).
  split; [by apply configure_node_ok|]. split.
  { cbn [p_sent configured_state assign]. f_equal. unfold send_result.
    by rewrite (proj2 (Z.eqb_neq _ _) Ha), (proj2 (Z.eqb_neq _ _) Hun). }
  split; [done|].
  assert (cdb_nodes (p_cdb (configured_state i n s p)) !! i =
    Some {| node_uuid := node_uuid n; node_addr := node_addr n; node_net_idx := node_net_idx n;
            node_num_elem := node_num_elem n; node_dev_key := node_dev_key n;
            node_flags := Z.setbit (node_flags n) BT_MESH_CDB_NODE_CONFIGURED |}) as En.
  { cbn. by rewrite list_lookup_alter_eq, Hn. }
  rewrite En. split; [done|]. split; [done|]. split; [by apply Z.setbit_eq|]. split; [done|].
  split; [by apply live_append|]. split.
  { cbn. apply list_lookup_insert_eq. lia. }
  split; [done|]. split; [done|]. split.
  { transitivity (snprintf 4 (node_name rc)); [done|]. rewrite node_name_fits by done. do 2 f_equal.
    unfold live, get_node_info_list_record_count. fold rc. lia. }
  change (drop 3 (on_air (provisioning_message (node_name rc))))
    with (payload (provisioning_message (node_name rc))). rewrite Hpay.
  split; [exact E|]. split; [done|]. split; done.
Qed.

Lemma handshake_witness :
  exists p' data b' s n', check_unconfigured (replicate 16 3) 1 restarted_example = Some (true, p') /\
    p_sent p' = p_sent restarted_example ++ [mkSent 1 APP_IDX DEFAULT_TTL data] /\
    p_cfg p' = p_cfg restarted_example ++ cfg_requests 1 (p_application_key restarted_example) /\
    cdb_nodes (p_cdb p') !! 1%nat = Some n' /\ node_addr n' = 1 /\
    Z.testbit (node_flags n') BT_MESH_CDB_NODE_CONFIGURED = true /\
    cdb_log (p_cdb p') = cdb_log (p_cdb restarted_example) ++ [StoreNode 1] /\
    live 1 (p_table p') = 1%nat /\
    node_info (p_table p') !! 0%nat = Some s /\ s_addr s = 6 /\ s_neighbour_addr s = 1 /\
    s_neighbour_name s = str "N1" /\
    receive_message 6 (drop 3 data) (-60) beacon1 = Some (tt, b') /\
    my_device_name b' = s_neighbour_name s /\ provisioner_device_name b' = p_my_device_name /\
    provisioner_address b' = 6.
Proof.
  apply (handshake (replicate 16 3) restarted_example 1 (stored_node 1 0) beacon1 (-60)).
  - reflexivity.
  - reflexivity.
  - discriminate.
  - discriminate.
  - repeat split; cbn; unfold STAT_COUNT; lia.
  - apply Nat.ltb_lt. reflexivity.
  - apply reachable_inv, beacon1_reachable.
  - discriminate.
  - discriminate.
  - unfold is_i8. lia.
  - lia.
Defined.

(** C36: After a restart new nodes are given an all-zero application key.  The key
    is created only by [configure_self], which runs when the provisioner's own node
    is not configured, and is never stored; after a restart with a stored database
    the next node to be configured is sent the zeroed static buffer as its key. *)
Theorem restart_zero_app_key present cdb addr rand1 rand2 nc temp hum p rand i n :
  (forall i, (i < 3)%nat -> present i = true) -> Z.testbit (cdb_flags cdb) BT_MESH_CDB_VALID = true ->
  p_bt_ready present (Some (cdb, addr)) rand1 rand2 nc (p_power_up temp hum) = Some (tt, p) ->
  cdb_nodes cdb !! i = Some n -> Z.testbit (node_flags n) BT_MESH_CDB_NODE_CONFIGURED = false ->
  node_addr n <> 6 ->
  exists p', check_unconfigured rand i p = Some (true, p') /\
    p_cfg p' = [CfgAppKeyAdd NET_IDX (node_addr n) NET_IDX APP_IDX (replicate 16 0);
                CfgModAppBindVnd NET_IDX (node_addr n) (node_addr n) APP_IDX MOD_LF BT_COMP_ID_LF].
Proof.
  intros Hp Hv E Hn Hc Ha.
  destruct (p_bt_ready_restart present cdb addr rand1 rand2 nc temp hum Hp Hv) as (bd & E' & _).
  rewrite E' in E. injection E as <-.
  eexists. split; [apply (configure_node_ok rand _ i n stat_zero)|done].
  - exact Hn.
  - exact Hc.
  - exact Ha.
  - repeat split; cbn; unfold STAT_COUNT; lia.
  - apply Nat.ltb_lt. reflexivity.
  - reflexivity.
Qed.

Lemma restart_zero_app_key_witness :
  exists p', check_unconfigured (replicate 16 3) 1 restarted_example = Some (true, p') /\
    p_cfg p' = [CfgAppKeyAdd 0 1 0 0 (replicate 16 0); CfgModAppBindVnd 0 1 1 0 0 1521].
Proof.
  apply (restart_zero_app_key (fun _ => true) stored_example 6 (replicate 16 8) (replicate 16 9) None
           20 30 restarted_example (replicate 16 3) 1 (stored_node 1 0)).
  - done.
  - reflexivity.
  - vm_compute. reflexivity.
  - reflexivity.
  - reflexivity.
  - discriminate.
Defined.

(** ** Addresses given to new nodes *)

Lemma next_address_digits rc :
  1 <= rc <= 99 -> next_address rc = if rc <? 10 then rc else rc / 10.
Proof.
  intros H. assert (rc ∈ seqZ 1 99) as Hin by (apply elem_of_seqZ; lia).
  assert (forallb (fun rc => next_address rc =? (if rc <? 10 then rc else rc / 10)) (seqZ 1 99) = true)
    as Hall by (vm_compute; reflexivity).
  rewrite forallb_forall in Hall. specialize (Hall rc (proj1 (list_elem_of_In _ _) Hin)). by zbool.
Qed.

(** The provisioner sends nothing but messages to configured nodes. *)
Definition add_sent (ms : list sent) (p : provisioner) : provisioner := p <| p_sent := p_sent p ++ ms |>.

Lemma send_neighbours_ok to me ss p :
  exists ms, send_neighbours to me ss p = Some (tt, add_sent ms p).
Proof.
  revert p. induction ss as [|s ss IH]; intros p; cbn [send_neighbours].
  - exists []. unfold add_sent. rewrite app_nil_r. by destruct p.
  - destruct (_ && _ && _).
    + set (m := neigh_info_message _ _).
      assert (p_send_message to m p = Some (tt, add_sent (send_result (self_address p) to m) p)) as E
        by (unfold p_send_message; rewrite bind_gets, make_send_ok; done).
      rewrite (bind_some _ _ _ _ _ E).
      destruct (IH (add_sent (send_result (self_address p) to m) p)) as [ms E2].
      exists (send_result (self_address p) to m ++ ms). rewrite E2. unfold add_sent. cbn.
      by rewrite <- app_assoc.
    + rewrite bind_ret. apply IH.
Qed.

Lemma bind_then_ret {S A B} (b : B) (m : ST S A) s a s' :
  m s = Some (a, s') -> (m ≫= fun _ => mret b) s = Some (b, s').
Proof. intros E. by rewrite (bind_some _ _ _ _ _ E). Qed.

Definition all_configured (c : bt_mesh_cdb) : Prop :=
  Forall (fun n => node_used n = true -> Z.testbit (node_flags n) BT_MESH_CDB_NODE_CONFIGURED = true)
    (cdb_nodes c).

Lemma check_configured rand p i n :
  cdb_nodes (p_cdb p) !! i = Some n -> Z.testbit (node_flags n) BT_MESH_CDB_NODE_CONFIGURED = true ->
  table_ok 1 (p_table p) -> exists ms, check_unconfigured rand i p = Some (true, add_sent ms p).
Proof.
  intros Hn Hc Hok. unfold check_unconfigured.
  rewrite (bind_some _ _ _ _ _ (node_at_some p i n Hn)), bind_gets. unfold id. rewrite Hc. cbn [negb].
  destruct (_ && _).
  - destruct (send_neighbours_ok (node_addr n) (p_get_my_address p)
                (take (live 1 (p_table p)) (node_info (p_table p))) p) as [ms E].
    exists ms. eapply (bind_then_ret true).
    erewrite (bind_some (need (live_stats 1 (p_table p)))); [exact E|].
    by rewrite live_stats_ok by done.
  - exists []. unfold add_sent. rewrite app_nil_r. by destruct p.
Qed.

Lemma foreach_configured rand k i p :
  all_configured (p_cdb p) -> table_ok 1 (p_table p) ->
  (i + k = length (cdb_nodes (p_cdb p)))%nat ->
  exists ms, node_foreach_loop p_cdb (check_unconfigured rand) k i p = Some (tt, add_sent ms p).
Proof.
  intros Ha Hok. revert i p Ha Hok. induction k as [|k IH]; intros i p Ha Hok Hk; cbn [node_foreach_loop].
  - exists []. unfold add_sent. rewrite app_nil_r. by destruct p.
  - assert (exists n, cdb_nodes (p_cdb p) !! i = Some n) as [n Hn] by (apply lookup_lt_is_Some; lia).
    rewrite Hn. destruct (node_addr n =? BT_MESH_ADDR_UNASSIGNED) eqn:E; [apply IH; done || lia|].
    assert (Z.testbit (node_flags n) BT_MESH_CDB_NODE_CONFIGURED = true) as Hc.
    { apply (Forall_elem _ _ n Ha); [by eapply list_elem_of_lookup_2|]. unfold node_used. by rewrite E. }
    destruct (check_configured rand p i n Hn Hc Hok) as [ms E1]. rewrite (bind_some _ _ _ _ _ E1).
    destruct (IH (S i) (add_sent ms p) Ha Hok) as [ms' E2]; [change (p_cdb (add_sent ms p)) with (p_cdb p); lia|].
    exists (ms ++ ms'). rewrite E2. unfold add_sent. cbn. by rewrite <- app_assoc.
Qed.

(** An address owned by a node is not given out again. *)
Lemma alloc_taken uuid num_elem net_idx c n :
  cdb_wf c -> n ∈ cdb_nodes c -> node_used n = true -> 0 <= num_elem <= 255 ->
  bt_mesh_cdb_node_alloc uuid (node_addr n) num_elem net_idx c = (None, c).
Proof.
  intros [Hok _] Hn Hu Hk. pose proof (Forall_elem _ _ n Hok Hn Hu) as (H1 & H2 & H3).
  assert (is_u16 (node_addr n)) as H16 by (unfold is_u16; lia).
  unfold bt_mesh_cdb_node_alloc. rewrite (proj2 (Z.eqb_neq (node_addr n) BT_MESH_ADDR_UNASSIGNED))
    by (unfold BT_MESH_ADDR_UNASSIGNED; lia).
  destruct (addr_is_free c (node_addr n) num_elem) eqn:E; [|done..]. exfalso.
  apply addr_is_free_iff in E as (_ & Hk1 & _ & Hf); [|done..].
  destruct (Hf n Hn Hu); lia.
Qed.

(** With six records the provisioner can add no further node.  The address
    proposed for a new node is the record count, of which only the first digit is
    used; at a count of six it is the provisioner's own address, so the database
    refuses it and every round of the loop, whatever device it detects, leaves the
    database and the table as they are. *)
Theorem address_six_blocked rand seen att p n :
  record_count (p_table p) = 6 -> table_ok 1 (p_table p) ->
  cdb_wf (p_cdb p) -> all_configured (p_cdb p) ->
  n ∈ cdb_nodes (p_cdb p) -> node_addr n = 6 ->
  match att with AttemptDone k _ => 0 <= k <= 255 | _ => True end ->
  exists p', loop_round rand seen att p = Some (tt, p') /\
    p_cdb p' = p_cdb p /\ p_table p' = p_table p.
Proof.
  intros Hrc Hok Hwf Hall Hn H6 Hatt. unfold loop_round. rewrite bind_modify.
  set (p0 := p <| sem_unprov_beacon := 0 |> <| sem_node_added := 0 |>).
  destruct (foreach_configured rand (length (cdb_nodes (p_cdb p))) 0 p0 Hall Hok eq_refl) as [ms E].
  rewrite (bind_some (bt_mesh_cdb_node_foreach p_cdb (check_unconfigured rand)) _ p0 tt (add_sent ms p0) E).
  destruct seen as [uuid|]; [|by eexists].
  unfold unprovisioned_beacon. rewrite !bind_modify, bind_gets. unfold id. cbv zeta.
  destruct att as [e| |k key]; [by eexists|by eexists|].
  match goal with |- context [(provisioning_done _ _ _ _ ≫= _) ?q] => set (p1 := q) end.
  change (record_count (p_table p1)) with (record_count (p_table p)). rewrite Hrc.
  change (next_address 6) with 6.
  assert (provisioning_done (p_node_uuid p1) 6 k key p1 = Some (tt, p1)) as E1.
  { unfold provisioning_done. rewrite bind_gets. unfold id.
    change (p_cdb p1) with (p_cdb p).
    pose proof (alloc_taken (p_node_uuid p1) k NET_IDX (p_cdb p) n Hwf Hn
                  (proj2 (node_used_true n) ltac:(lia)) Hatt) as EA.
    rewrite H6 in EA. by rewrite EA. }
  rewrite (bind_some _ _ _ _ _ E1). unfold modify. eexists. split; [reflexivity|].
  by destruct (sem_node_added p1 =? 0).
Qed.

Definition full_example : provisioner := Eval vm_compute in
  p_power_up 20 30 <| p_table := mkTable (replicate STAT_COUNT stat_zero) 6 |>
    <| p_cdb := with_nodes (fun _ => [stored_node 6 1; empty_node; empty_node]) stored_example |>.

Lemma address_six_blocked_witness :
  exists p', loop_round (replicate 16 3) (Some (replicate 16 9)) (AttemptDone 1 (replicate 16 4))
               full_example = Some (tt, p') /\
    p_cdb p' = p_cdb full_example /\ p_table p' = p_table full_example.
Proof.
  apply (address_six_blocked (replicate 16 3) (Some (replicate 16 9)) (AttemptDone 1 (replicate 16 4))
           full_example (stored_node 6 1)).
  - reflexivity.
  - repeat split; cbn; unfold STAT_COUNT; lia.
  - split.
    + repeat constructor; cbn; lia || done.
    + intros i j x y Hij Hx Hy Hu Hv.
      destruct i as [|[|[|i]]], j as [|[|[|j]]]; cbn in Hx, Hy; try lia; try done;
        injection Hx as <-; injection Hy as <-; done.
  - repeat constructor; done.
  - apply list_elem_of_lookup. by exists 0%nat.
  - reflexivity.
  - lia.
Defined.
