(* ===== verification/Rpl.v ===== *)
(** * Network receive context and replay protection list

    Model of [subsys/bluetooth/mesh/rpl.c], of [struct bt_mesh_net_rx] and the
    network interfaces of [net.h], and of the part of [settings.c] that works on the
    list.  Both applications are built with CONFIG_BT_SETTINGS. *)

From S2P Require Import Prelude MeshDefs Access.

(** ** Receive context *)

Inductive bt_mesh_net_if : Type :=
| BT_MESH_NET_IF_ADV | BT_MESH_NET_IF_LOCAL | BT_MESH_NET_IF_PROXY | BT_MESH_NET_IF_PROXY_CFG.

#[export] Instance net_if_eq_dec : EqDecision bt_mesh_net_if.
Proof. solve_decision. Defined.

Record bt_mesh_net_rx : Type := mkRx {
  rx_sub : nat;                (** index of the subnet *)
  rx_ctx : bt_mesh_msg_ctx;
  rx_seq : Z;
  rx_old_iv : bool;
  rx_new_key : bool;
  rx_friend_cred : bool;
  rx_ctl : bool;
  rx_net_if : bt_mesh_net_if;
  rx_local_match : bool;
  rx_friend_match : bool;
  rx_msg_cache_idx : nat;
}.

#[export] Instance bt_mesh_net_rx_eta : Eta bt_mesh_net_rx := fun r =>
  mkRx (rx_sub r) (rx_ctx r) (rx_seq r) (rx_old_iv r) (rx_new_key r) (rx_friend_cred r) (rx_ctl r)
    (rx_net_if r) (rx_local_match r) (rx_friend_match r) (rx_msg_cache_idx r).

Definition rx_addr (rx : bt_mesh_net_rx) : Z := ctx_addr (rx_ctx rx).

(** ** The list *)

Record bt_mesh_rpl : Type := mkRpl {
  rpl_src : Z;
  rpl_old_iv : bool;
  rpl_store : bool;
  rpl_seq : Z;
}.

#[export] Instance bt_mesh_rpl_eta : Eta bt_mesh_rpl := fun r =>
  mkRpl (rpl_src r) (rpl_old_iv r) (rpl_store r) (rpl_seq r).

Definition rpl_empty : bt_mesh_rpl := mkRpl 0 false false 0.

Abbreviation replay_list := (list bt_mesh_rpl).

(** [bt_mesh_store_rpl] marks the entry for the storage work. *)
Definition bt_mesh_store_rpl (r : bt_mesh_rpl) : bt_mesh_rpl := r <| rpl_store := true |>.

Definition bt_mesh_rpl_update (rx : bt_mesh_net_rx) (r : bt_mesh_rpl) : bt_mesh_rpl :=
  bt_mesh_store_rpl (r <| rpl_src := rx_addr rx |> <| rpl_seq := rx_seq rx |>
                       <| rpl_old_iv := rx_old_iv rx |>).

(** The loop of [bt_mesh_rpl_check] from index [i] on: whether the message is a
    replay, and the slot that is returned or updated. *)
Fixpoint rpl_check_loop (rx : bt_mesh_net_rx) (i : nat) (l : replay_list) : bool * option nat :=
  match l with
  | [] => (true, None)
  | r :: l =>
      if rpl_src r =? 0 then (false, Some i)
      else if rpl_src r =? rx_addr rx then
        if rx_old_iv rx && negb (rpl_old_iv r) then (true, None)
        else if (negb (rx_old_iv rx) && rpl_old_iv r) || (rpl_seq r <? rx_seq rx)
        then (false, Some i) else (true, None)
      else rpl_check_loop rx (S i) l
  end.

(** [want_match]: a non-NULL [match] is given.  The result is the return value, the
    slot stored in [*match], and the list. *)
Definition bt_mesh_rpl_check (want_match : bool) (rx : bt_mesh_net_rx) (l : replay_list)
    : bool * option nat * replay_list :=
  if bool_decide (rx_net_if rx = BT_MESH_NET_IF_LOCAL) then (false, None, l)
  else if negb (rx_local_match rx) then (false, None, l)
  else match rpl_check_loop rx 0 l with
  | (false, Some i) =>
      if want_match then (false, Some i, l) else (false, None, alter (bt_mesh_rpl_update rx) i l)
  | (replay, _) => (replay, None, l)
  end.

(** Only schedules the storage work. *)
Definition bt_mesh_rpl_clear (l : replay_list) : replay_list := l.

Definition bt_mesh_rpl_find (src : Z) (l : replay_list) : option nat :=
  find_index (fun r => rpl_src r =? src) l.

Definition bt_mesh_rpl_alloc (src : Z) (l : replay_list) : option nat * replay_list :=
  match find_index (fun r => rpl_src r =? 0) l with
  | Some i => (Some i, alter (fun r => r <| rpl_src := src |>) i l)
  | None => (None, l)
  end.

Definition bt_mesh_rpl_foreach (func : bt_mesh_rpl -> bt_mesh_rpl) (l : replay_list) : replay_list :=
  map func l.

Definition rpl_reset_entry (r : bt_mesh_rpl) : bt_mesh_rpl :=
  if rpl_src r =? 0 then r
  else bt_mesh_store_rpl (if rpl_old_iv r then rpl_empty else r <| rpl_old_iv := true |>).

Definition bt_mesh_rpl_reset (l : replay_list) : replay_list := map rpl_reset_entry l.

(** The storage work, for a pending list: [valid] is BT_MESH_VALID. *)
Definition clear_rpl (r : bt_mesh_rpl) : bt_mesh_rpl := if rpl_src r =? 0 then r else rpl_empty.
Definition store_pending_rpl (r : bt_mesh_rpl) : bt_mesh_rpl := r <| rpl_store := false |>.
Definition rpl_store_pending (valid : bool) (l : replay_list) : replay_list :=
  bt_mesh_rpl_foreach (if valid then store_pending_rpl else clear_rpl) l.

(** [rpl_set]: an entry read back from flash; [None] deletes it. *)
Definition rpl_set (src : Z) (val : option (Z * bool)) (l : replay_list) : ret_code * replay_list :=
  let entry := bt_mesh_rpl_find src l in
  match val with
  | None => (None, match entry with Some i => alter (fun _ => rpl_empty) i l | None => l end)
  | Some (seq, old_iv) =>
      let '(entry, l) := match entry with Some i => (Some i, l) | None => bt_mesh_rpl_alloc src l end in
      match entry with
      | None => (Some ENOMEM, l)
      | Some i => (None, alter (fun r => r <| rpl_seq := seq |> <| rpl_old_iv := old_iv |>) i l)
      end
  end.

(** ** Accepted messages are always newer *)

(** Subject to replay protection: for this node, and not sent by itself. *)
Definition protected (rx : bt_mesh_net_rx) : bool :=
  negb (bool_decide (rx_net_if rx = BT_MESH_NET_IF_LOCAL)) && rx_local_match rx.

(** [b] is newer than [a]: a later IV index, or the same one and a greater
    sequence number. *)
Definition newer (old_a : bool) (seq_a : Z) (old_b : bool) (seq_b : Z) : bool :=
  (old_a && negb old_b) || (Bool.eqb old_a old_b && (seq_a <? seq_b)).

(** How the transport layer passes a packet to the check.  An unsegmented message is
    recorded by the check itself ([trans_unseg], and [proxy_cfg]).  [trans_seg] asks for
    the slot and records the segment there in the same call when it completes its
    message or belongs to a complete one; the other segments are not recorded. *)
Inductive rpl_packet : Type :=
| Unsegmented
| Segment (recorded : bool).

Definition is_recorded (k : rpl_packet) : bool :=
  match k with Unsegmented => true | Segment recorded => recorded end.

(** One packet: whether it is refused as a replay, and the list afterwards. *)
Definition rpl_packet_check (rx : bt_mesh_net_rx) (k : rpl_packet) (l : replay_list) : bool * replay_list :=
  match k with
  | Unsegmented => let '(replay, _, l) := bt_mesh_rpl_check false rx l in (replay, l)
  | Segment recorded =>
      let '(replay, rpl, l) := bt_mesh_rpl_check true rx l in
      (replay, match rpl with
               | Some i => if recorded then alter (bt_mesh_rpl_update rx) i l else l
               | None => l
               end)
  end.

(** Packets one after the other: the verdicts, [true] for a replay. *)
Fixpoint rpl_run (l : replay_list) (ps : list (bt_mesh_net_rx * rpl_packet)) : list bool :=
  match ps with
  | [] => []
  | (rx, k) :: ps => let '(replay, l') := rpl_packet_check rx k l in replay :: rpl_run l' ps
  end.

(** The slot the check stops at for an address. *)
Definition slot_of (addr : Z) (l : replay_list) : option nat :=
  find_index (fun r => (rpl_src r =? 0) || (rpl_src r =? addr)) l.

Lemma check_loop_slot rx i l :
  rpl_check_loop rx i l =
  match slot_of (rx_addr rx) l with
  | None => (true, None)
  | Some k =>
      match l !! k with
      | None => (true, None)
      | Some r =>
          if (rpl_src r =? 0) || newer (rpl_old_iv r) (rpl_seq r) (rx_old_iv rx) (rx_seq rx)
          then (false, Some (i + k)%nat) else (true, None)
      end
  end.
Proof.
  revert i. induction l as [|r l IH]; intros i; [done|].
  unfold slot_of. cbn [rpl_check_loop find_index]. destruct (rpl_src r =? 0) eqn:E0; cbn [orb].
  - cbn. rewrite E0. by rewrite Nat.add_0_r.
  - destruct (rpl_src r =? rx_addr rx) eqn:Ea.
    + cbn. rewrite E0, Nat.add_0_r. unfold newer.
      by destruct (rx_old_iv rx), (rpl_old_iv r), (rpl_seq r <? rx_seq rx).
    + rewrite IH. unfold slot_of. destruct (find_index _ l) as [k|]; [|done].
      change ((r :: l) !! S k) with (l !! k). cbn. destruct (l !! k) as [q|]; [|done].
      case_if; [|done]. do 2 f_equal. lia.
Qed.

(** What the list guarantees about an address after a message from it was
    accepted: its slot holds that message or a newer one. *)
Definition covers (l : replay_list) (addr : Z) (old : bool) (seq : Z) : Prop :=
  exists k r, slot_of addr l = Some k /\ l !! k = Some r /\ rpl_src r = addr /\
    (newer old seq (rpl_old_iv r) (rpl_seq r) = true \/ (rpl_old_iv r = old /\ rpl_seq r = seq)).

Lemma newer_trans o1 s1 o2 s2 o3 s3 :
  newer o1 s1 o2 s2 = true -> newer o2 s2 o3 s3 = true -> newer o1 s1 o3 s3 = true.
Proof.
  unfold newer. destruct o1, o2, o3; cbn; try done; intros; zbool; apply Z.ltb_lt; lia.
Qed.

(** The effect of one check on a protected message. *)
Lemma check_protected rx l v m l' :
  protected rx = true -> bt_mesh_rpl_check false rx l = (v, m, l') ->
  (v = true /\ l' = l) \/
  (v = false /\ exists k r, slot_of (rx_addr rx) l = Some k /\ l !! k = Some r /\
     l' = alter (bt_mesh_rpl_update rx) k l /\
     (rpl_src r = 0 \/ (rpl_src r = rx_addr rx /\
        newer (rpl_old_iv r) (rpl_seq r) (rx_old_iv rx) (rx_seq rx) = true))).
Proof.
  unfold protected, bt_mesh_rpl_check. intros Hp. zbool. rewrite H, H0. cbn [negb].
  rewrite check_loop_slot. destruct (slot_of (rx_addr rx) l) as [k|] eqn:Es.
  - pose proof Es as Hs. apply find_index_Some in Hs as [(r & Hr & Hm) _]. rewrite Hr.
    destruct ((rpl_src r =? 0) || newer _ _ _ _) eqn:E; cbv iota beta; intros [= <- <- <-]; [right|by left].
    split; [done|]. exists k, r. do 3 (split; [done|]).
    apply orb_true_iff in Hm, E. destruct (rpl_src r =? 0) eqn:E0; zbool; [by left|].
    right. destruct Hm as [|Hm]; [done|]. destruct E as [|E]; [done|]. by zbool.
  - intros [= <- <- <-]. by left.
Qed.

Lemma check_unprotected rx l v m l' :
  protected rx = false -> bt_mesh_rpl_check false rx l = (v, m, l') -> l' = l.
Proof.
  unfold protected, bt_mesh_rpl_check. intros Hp.
  destruct (bool_decide _); [by intros [= _ _ <-]|]. cbn in Hp. rewrite Hp. by intros [= _ _ <-].
Qed.

Lemma slot_alter addr rx k j r l :
  slot_of addr l = Some k -> l !! k = Some r -> rpl_src r = addr -> addr <> 0 ->
  slot_of (rx_addr rx) l = Some j ->
  (forall q, l !! j = Some q -> rpl_src q = 0 \/ rpl_src q = rx_addr rx) ->
  slot_of addr (alter (bt_mesh_rpl_update rx) j l) = Some k.
Proof.
  intros Hs Hk Ha Hne Hj Hq. apply find_index_Some in Hs as [_ Hfirst]. apply find_index_Some. split.
  - destruct (decide (j = k)) as [->|Hjk].
    + rewrite list_lookup_alter_eq, Hk. eexists. split; [done|]. cbn.
      destruct (Hq r Hk) as [H0|H0]; [congruence|]. rewrite <- H0, Ha, Z.eqb_refl. apply orb_true_r.
    + rewrite list_lookup_alter_ne by done. exists r. rewrite Ha, Z.eqb_refl. split; [done|].
      apply orb_true_r.
  - intros i b Hi Hb. destruct (decide (j = i)) as [->|Hji].
    + rewrite list_lookup_alter_eq in Hb. destruct (l !! i) as [q|] eqn:E; [|done].
      cbn in Hb. injection Hb as <-. specialize (Hfirst i q Hi E). cbn in Hfirst.
      destruct (Hq q eq_refl) as [H0|H0]; rewrite H0 in Hfirst; [done|]. done.
    + rewrite list_lookup_alter_ne in Hb by done. by apply (Hfirst i).
Qed.

Lemma covers_step rx l v m l' addr old seq :
  addr <> 0 -> bt_mesh_rpl_check false rx l = (v, m, l') -> covers l addr old seq ->
  covers l' addr old seq /\
  (protected rx = true -> rx_addr rx = addr -> v = false ->
   newer old seq (rx_old_iv rx) (rx_seq rx) = true).
Proof.
  intros Hne E (k & r & Hs & Hk & Ha & Hc).
  destruct (protected rx) eqn:P; [|rewrite (check_unprotected rx l v m l' P E); split; [by exists k, r|done]].
  destruct (check_protected rx l v m l' P E) as [[-> ->]|(-> & j & q & Hj & Hq & -> & Hn)].
  { split; [by exists k, r|done]. }
  assert (rx_addr rx = addr -> j = k /\ q = r) as Hsame.
  { intros Hx. rewrite Hx in Hj. assert (j = k) as -> by congruence. split; congruence. }
  split.
  - exists k. destruct (decide (j = k)) as [->|Hjk].
    + exists (bt_mesh_rpl_update rx r). assert (q = r) as -> by congruence.
      destruct Hn as [H0|[H0 Hn]]; [congruence|].
      split; [eapply slot_alter; [done..|]; intros; right; congruence|].
      rewrite list_lookup_alter_eq, Hk. cbn. split; [done|]. split; [congruence|]. left.
      destruct Hc as [Hc|[<- <-]]; [by eapply newer_trans|done].
    + exists r. split; [eapply slot_alter; [done..|]|].
      * intros q' Hq'. assert (q' = q) as -> by congruence. destruct Hn as [|[]]; auto.
      * rewrite list_lookup_alter_ne by done. done.
  - intros _ Hx _. destruct (Hsame Hx) as [-> ->].
    destruct Hn as [H0|[_ Hn]]; [congruence|].
    destruct Hc as [Hc|[<- <-]]; [by eapply newer_trans|done].
Qed.

Lemma covers_accepted rx l m l' :
  protected rx = true -> rx_addr rx <> 0 -> bt_mesh_rpl_check false rx l = (false, m, l') ->
  covers l' (rx_addr rx) (rx_old_iv rx) (rx_seq rx).
Proof.
  intros P Hne E. destruct (check_protected rx l false m l' P E) as [[? _]|(_ & k & r & Hs & Hk & -> & Hn)];
    [done|]. exists k, (bt_mesh_rpl_update rx r). split; [|split; [|split; [done|by right]]].
  - pose proof Hs as Hs'. apply find_index_Some in Hs as [_ Hfirst]. apply find_index_Some. split.
    + rewrite list_lookup_alter_eq, Hk. eexists. split; [done|]. cbn. rewrite Z.eqb_refl. apply orb_true_r.
    + intros i b Hi Hb. rewrite list_lookup_alter_ne in Hb by lia. by apply (Hfirst i).
  - by rewrite list_lookup_alter_eq, Hk.
Qed.

(** A segment gets the verdict of an unsegmented message, and when it is recorded the
    same effect. *)
Lemma packet_check_spec rx k l :
  rpl_packet_check rx k l =
  let '(replay, _, l') := bt_mesh_rpl_check false rx l in (replay, if is_recorded k then l' else l).
Proof.
  destruct k as [|rec]; cbn [rpl_packet_check is_recorded]; [by destruct (bt_mesh_rpl_check false rx l) as [[]]|].
  unfold bt_mesh_rpl_check. destruct (bool_decide _); [by destruct rec|].
  destruct (rx_local_match rx); [|by destruct rec]. cbn [negb].
  destruct (rpl_check_loop rx 0 l) as [[] [i|]]; by destruct rec.
Qed.

Lemma rpl_run_covers ps l addr old seq j b k :
  addr <> 0 -> covers l addr old seq -> ps !! j = Some (b, k) -> rpl_run l ps !! j = Some false ->
  protected b = true -> rx_addr b = addr -> newer old seq (rx_old_iv b) (rx_seq b) = true.
Proof.
  revert l j. induction ps as [|[rx k'] ps IH]; intros l j Hne Hc Hj Hv P Ha; [done|].
  cbn [rpl_run] in Hv. rewrite packet_check_spec in Hv.
  destruct (bt_mesh_rpl_check false rx l) as [[v m] l'] eqn:E.
  destruct (covers_step rx l v m l' addr old seq Hne E Hc) as [Hc' Hnew].
  destruct j as [|j]; cbn in Hj, Hv.
  - injection Hj as -> ->. injection Hv as ->. by apply Hnew.
  - apply (IH (if is_recorded k' then l' else l) j); try done. by destruct (is_recorded k').
Qed.

(** C11: Replay protection works between IV updates, for unsegmented messages and for
    segments.  Whatever the list holds at first, and however the packets of different
    sources are interleaved: once a packet of a source was accepted and recorded, every
    packet of that source accepted later has a later IV index, or the same IV index and
    a greater sequence number.  Recorded are the unsegmented messages and the segments
    that complete their message or belong to a complete one; so neither an unsegmented
    message nor a completing segment is accepted twice.  The segments before the last
    are checked but not recorded: among themselves they may arrive in any order and more
    than once.  The packets are those the check applies to, addressed to this node and
    not sent by itself, from an assigned address. *)
Theorem rpl_no_replay l ps i j a ka b kb :
  (i < j)%nat -> ps !! i = Some (a, ka) -> ps !! j = Some (b, kb) -> is_recorded ka = true ->
  protected a = true -> protected b = true -> rx_addr a = rx_addr b -> rx_addr a <> 0 ->
  rpl_run l ps !! i = Some false -> rpl_run l ps !! j = Some false ->
  newer (rx_old_iv a) (rx_seq a) (rx_old_iv b) (rx_seq b) = true.
Proof.
  revert l i j. induction ps as [|[rx k] ps IH]; intros l i j Hij Hi Hj Hk Pa Pb Hab Hne Vi Vj; [done|].
  destruct j as [|j]; [lia|]. cbn [rpl_run] in Vi, Vj. rewrite packet_check_spec in Vi, Vj.
  destruct (bt_mesh_rpl_check false rx l) as [[v m] l'] eqn:E. cbn in Hj, Vj.
  destruct i as [|i]; cbn in Hi, Vi.
  - injection Hi as -> ->. injection Vi as ->. rewrite Hk in Vj.
    apply (rpl_run_covers ps l' (rx_addr a) _ _ j b kb); try done. by eapply covers_accepted.
  - apply (IH (if is_recorded k then l' else l) i j); try done. lia.
Qed.

(** A message from [addr] to this node. *)
Definition rx_from (addr seq : Z) (old_iv : bool) : bt_mesh_net_rx :=
  mkRx 0 (mkCtx 0 0 addr 6 0 0 false 0) seq old_iv false false false BT_MESH_NET_IF_ADV true false 0.

(** Two sources: an unsegmented message, the segments 8 and 7 of a message that the
    second one completes, the repeated segment, and the next message. *)
Definition packets_example : list (bt_mesh_net_rx * rpl_packet) :=
  [(rx_from 9 5 true, Unsegmented); (rx_from 8 1 false, Unsegmented);
   (rx_from 9 8 true, Segment false); (rx_from 9 7 true, Segment true);
   (rx_from 9 7 true, Segment true); (rx_from 9 2 false, Unsegmented)].

Lemma rpl_no_replay_witness :
  rpl_run (replicate 3 rpl_empty) packets_example = [false; false; false; false; true; false] /\
  newer (rx_old_iv (rx_from 9 7 true)) (rx_seq (rx_from 9 7 true))
    (rx_old_iv (rx_from 9 2 false)) (rx_seq (rx_from 9 2 false)) = true.
Proof.
  split; [reflexivity|].
  apply (rpl_no_replay (replicate 3 rpl_empty) packets_example 3 5
           (rx_from 9 7 true) (Segment true) (rx_from 9 2 false) Unsegmented); done || lia.
Defined.

(** ** The list after an IV update *)

Lemma lookup_reset k r l : l !! k = Some r -> bt_mesh_rpl_reset l !! k = Some (rpl_reset_entry r).
Proof. intros H. unfold bt_mesh_rpl_reset. by rewrite list_lookup_fmap, H. Qed.

(** Replay protection fails across two IV updates.  [bt_mesh_rpl_reset] empties
    the entries of sources that have been silent since the previous IV update, and
    [bt_mesh_rpl_check] stops at the first empty slot.  So a source whose entry lies
    behind such a slot loses its protection: its last accepted message, a replay
    before the reset, is accepted again after it. *)
Theorem rpl_hole_replay l i j silent r seq :
  (i < j)%nat -> l !! i = Some silent -> rpl_src silent <> 0 -> rpl_old_iv silent = true ->
  l !! j = Some r -> rpl_src r <> 0 -> rpl_old_iv r = false -> seq <= rpl_seq r ->
  (forall k q, l !! k = Some q -> rpl_src q = rpl_src r -> k = j) ->
  (forall k q, (k < j)%nat -> l !! k = Some q -> rpl_src q <> 0) ->
  (bt_mesh_rpl_check false (rx_from (rpl_src r) seq false) l).1.1 = true /\
  (bt_mesh_rpl_check false (rx_from (rpl_src r) seq true) (bt_mesh_rpl_reset l)).1.1 = false.
Proof.
  intros Hij Hi Hs0 Hs Hj Hr0 Hr Hseq Hu Hfull. split.
  - unfold bt_mesh_rpl_check. cbn [rx_from rx_net_if rx_local_match negb].
    rewrite bool_decide_false by done. rewrite check_loop_slot. cbn [rx_from rx_addr rx_ctx ctx_addr].
    change (rx_addr (rx_from (rpl_src r) seq false)) with (rpl_src r).
    assert (slot_of (rpl_src r) l = Some j) as ->.
    { apply find_index_Some. split; [exists r; by rewrite Z.eqb_refl, orb_true_r|].
      intros k q Hk Hq. pose proof (Hfull k q Hk Hq). apply orb_false_iff.
      split; apply Z.eqb_neq; [done|]. intros E. specialize (Hu k q Hq E). lia. }
    rewrite Hj, (proj2 (Z.eqb_neq _ _) Hr0). unfold newer. cbn. rewrite Hr. cbn.
    by rewrite (proj2 (Z.ltb_ge _ _)) by lia.
  - unfold bt_mesh_rpl_check. cbn [rx_from rx_net_if rx_local_match negb].
    rewrite bool_decide_false by done. rewrite check_loop_slot.
    change (rx_addr (rx_from (rpl_src r) seq true)) with (rpl_src r).
    destruct (slot_of (rpl_src r) (bt_mesh_rpl_reset l)) as [k|] eqn:E.
    + apply find_index_Some in E as [(q & Hq & Hm) Hfirst]. rewrite Hq.
      assert (rpl_src q = 0) as ->; [|done].
      destruct (decide (rpl_src q = 0)) as [|N]; [done|exfalso].
      assert (k <= i)%nat as Hki.
      { destruct (decide (k <= i)%nat); [done|]. specialize (Hfirst i _ ltac:(lia) (lookup_reset i _ l Hi)).
        unfold rpl_reset_entry in Hfirst. by rewrite (proj2 (Z.eqb_neq _ _) Hs0), Hs in Hfirst. }
      unfold bt_mesh_rpl_reset in Hq. rewrite list_lookup_fmap in Hq.
      destruct (l !! k) as [q0|] eqn:Hk; [|done]. cbn in Hq. injection Hq as <-.
      assert (k = j); [|lia]. apply (Hu k q0 Hk). apply orb_true_iff in Hm as [Hm|Hm]; zbool; [done|].
      unfold rpl_reset_entry in *. destruct (rpl_src q0 =? 0); [done|].
      destruct (rpl_old_iv q0); done.
    + exfalso. apply find_index_None in E.
      pose proof (Forall_elem _ _ _ E (list_elem_of_lookup_2 _ _ _ (lookup_reset i _ l Hi))) as N.
      unfold rpl_reset_entry in N. by rewrite (proj2 (Z.eqb_neq _ _) Hs0), Hs in N.
Qed.

Lemma rpl_hole_replay_witness :
  let l := [mkRpl 3 true false 40; mkRpl 5 false false 70; rpl_empty] in
  (bt_mesh_rpl_check false (rx_from 5 70 false) l).1.1 = true /\
  (bt_mesh_rpl_check false (rx_from 5 70 true) (bt_mesh_rpl_reset l)).1.1 = false.
Proof.
  apply (rpl_hole_replay [mkRpl 3 true false 40; mkRpl 5 false false 70; rpl_empty] 0 1
           (mkRpl 3 true false 40) (mkRpl 5 false false 70) 70); try done.
  - lia.
  - intros [|[|[|k]]] q Hq E; cbn in Hq; try done; injection Hq as <-; done.
  - intros [|k] q Hk Hq; [|lia]. by injection Hq as <-.
Defined.
