(* ===== verification/Ccm.v ===== *)
(** * AES-CCM

    Model of [subsys/bluetooth/host/aes_ccm.c] and of the block encryption of
    [subsys/bluetooth/controller/crypto/crypto.c].  The AES engine of the chip is a
    parameter, the class [Ecb].  Message, result and MIC are regions of one memory,
    given by their offsets, so that encryption in place and encryption into another
    buffer are calls of the same function.  Keys, nonces and additional data are only
    read and are byte strings.

    The theorems relate the code to a reference definition of CCM on whole blocks
    and give the exact result of decryption. *)

From S2P Require Import Prelude ByteOrder.

(** ** The AES peripheral *)

(** [do_ecb key clear_text]: one block, big-endian, as the peripheral stores it. *)
Class Ecb : Type := do_ecb : bytes -> bytes -> bytes.

(** A block is 16 bytes, whatever the key and the clear text. *)
Class EcbOk `{!Ecb} : Prop := {
  length_do_ecb : forall key b, length (do_ecb key b) = 16%nat;
  do_ecb_wf : forall key b, wf_bytes (do_ecb key b);
}.

Section Ccm.
Context {ecb : Ecb}.

(** [inl e] is an error return, [inr enc_data] the return value 0. *)
Definition bt_encrypt_be (key plaintext : bytes) : errno + bytes := inr (do_ecb key plaintext).

Definition xor16 (a b : bytes) : bytes := zip_with Z.lxor a b.

(** ** Authentication *)

(** The additional data, from index [j] of [aad] and [i] of the block on.
    [aad_len] counts the bytes of the current and the later blocks. *)
Fixpoint aad_loop (fuel : nat) (key aad : bytes) (i j aad_len : nat) (b X0 : bytes) : errno + bytes :=
  if (16 <? aad_len)%nat then
    match fuel with
    | O => inr X0
    | S fuel =>
        let b' := take i b ++ zip_with Z.lxor (drop i X0) (take (16 - i) (drop j aad)) in
        match bt_encrypt_be key b' with
        | inl err => inl err
        | inr X0' => aad_loop fuel key aad 0 (j + (16 - i)) (aad_len - 16) b' X0'
        end
    end
  else
    let b' := take (Nat.min i aad_len) b
              ++ zip_with Z.lxor (take (aad_len - i) (drop i X0)) (take (aad_len - i) (drop j aad))
              ++ drop aad_len X0 in
    bt_encrypt_be key b'.

(** [mic_size] and [msg_len] are the C parameters; [aad_len] and [msg_len] are
    [uint8_t], [mic_size] a 32-bit [size_t].  Nothing reads [b] after the call. *)
Definition ccm_calculate_X0 (key aad : bytes) (aad_len mic_size msg_len : Z) (b : bytes)
    : errno + bytes :=
  let flags := u8 (Z.lor (Z.lor (Z.shiftl (u32 (mic_size - 2) / 2) 3)
                            (Z.shiftl (if aad_len =? 0 then 0 else 1) 6)) 1) in
  let b := flags :: take 13 (drop 1 b) ++ sys_put_be16 msg_len in
  match bt_encrypt_be key b with
  | inl err => inl err
  | inr X0 =>
      if aad_len =? 0 then inr X0
      else
        let b := zip_with Z.lxor (take 2 X0) (sys_put_be16 aad_len) ++ drop 2 b in
        aad_loop 16 key aad 2 0 (Z.to_nat (u8 (aad_len + 2))) b X0
  end.

(** Block [j] of [blk_cnt] blocks of the message. *)
Fixpoint auth_loop (n : nat) (key msg : bytes) (blk_cnt last_blk j : nat) (Xn : bytes) : errno + bytes :=
  match n with
  | O => inr Xn
  | S n =>
      let b := if (j + 1 =? blk_cnt)%nat
               then zip_with Z.lxor (take last_blk Xn) (take last_blk (drop (j * 16) msg))
                    ++ drop last_blk Xn
               else xor16 Xn (take 16 (drop (j * 16) msg)) in
      match bt_encrypt_be key b with
      | inl err => inl err
      | inr Xn' => auth_loop n key msg blk_cnt last_blk (S j) Xn'
      end
  end.

Definition blk_cnt_of (msg_len : nat) : nat := Z.to_nat (u16 ((Z.of_nat msg_len + 15) / 16)).
Definition last_blk_of (msg_len : nat) : nat :=
  if (msg_len mod 16 =? 0)%nat then 16 else (msg_len mod 16)%nat.

(** The MIC of [cleartext_msg]; with [inl] the MIC is not written. *)
Definition ccm_auth (key nonce cleartext_msg aad : bytes) (mic_size : nat) : errno + bytes :=
  let msg_len := length cleartext_msg in
  let b := 1 :: take 13 nonce ++ sys_put_be16 0 in
  match bt_encrypt_be key b with
  | inl err => inl err
  | inr s0 =>
      match ccm_calculate_X0 key aad (u8 (Z.of_nat (length aad))) (Z.of_nat mic_size)
              (u8 (Z.of_nat msg_len)) b with
      | inl err => inl err
      | inr Xn =>
          match auth_loop (blk_cnt_of msg_len) key cleartext_msg (blk_cnt_of msg_len)
                  (last_blk_of msg_len) 0 Xn with
          | inl err => inl err
          | inr Xn => inr (zip_with Z.lxor (take mic_size s0) (take mic_size Xn))
          end
      end
  end.

(** ** Encryption in counter mode *)

(** [out[i] = in[i] ^ s[i]] for [n] bytes, one after the other. *)
Fixpoint xor_loop (n i in_ out : nat) (s : bytes) : ST bytes unit :=
  match n with
  | O => mret tt
  | S n =>
      x ← (fun mem => match mem !! (in_ + i)%nat with Some x => Some (x, mem) | None => None end);
      k ← need (s !! i);
      _ ← (fun mem => if (out + i <? length mem)%nat
                      then Some (tt, <[(out + i)%nat := Z.lxor x k]> mem) else None);
      xor_loop n (S i) in_ out s
  end.

Fixpoint crypt_loop (n : nat) (key nonce : bytes) (blk_cnt last_blk j in_ out : nat)
    : ST bytes ret_code :=
  match n with
  | O => mret None
  | S n =>
      match bt_encrypt_be key (1 :: take 13 nonce ++ sys_put_be16 (u16 (Z.of_nat (j + 1)))) with
      | inl err => mret (Some err)
      | inr s_i =>
          let len := if (j <? blk_cnt - 1)%nat then 16%nat else last_blk in
          _ ← xor_loop len 0 (in_ + j * 16) (out + j * 16) s_i;
          crypt_loop n key nonce blk_cnt last_blk (S j) in_ out
      end
  end.

Definition ccm_crypt (key nonce : bytes) (in_msg out_msg msg_len : nat) : ST bytes ret_code :=
  crypt_loop (blk_cnt_of msg_len) key nonce (blk_cnt_of msg_len) (last_blk_of msg_len) 0 in_msg out_msg.

(** ** The two operations *)

Definition read_mem (p n : nat) : ST bytes bytes := fun mem =>
  if (p + n <=? length mem)%nat then Some (take n (drop p mem), mem) else None.

Definition write_mem (p : nat) (src : bytes) : ST bytes unit := fun mem =>
  if (p + length src <=? length mem)%nat
  then Some (tt, list_inserts p src mem) else None.

(** A computation that must have succeeded for its result to be initialised. *)
Definition initialised {S A : Type} (r : errno + A) : ST S A :=
  match r with inl _ => undefined | inr a => mret a end.

Definition bt_ccm_decrypt (key nonce : bytes) (enc_msg msg_len : nat) (aad : bytes)
    (out_msg mic_size : nat) : ST bytes ret_code :=
  if (65280 <=? Z.of_nat (length aad)) || (16 <? mic_size)%nat then mret (Some EINVAL)
  else
    _ ← ccm_crypt key nonce enc_msg out_msg msg_len;
    text ← read_mem out_msg msg_len;
    mic ← initialised (ccm_auth key nonce text aad mic_size);
    received ← read_mem (enc_msg + msg_len) mic_size;
    mret (if decide (mic = received) then None else Some EBADMSG).

(** The MIC is computed from what [out_msg] holds, before the message is
    encrypted into it. *)
Definition bt_ccm_encrypt (key nonce : bytes) (msg msg_len : nat) (aad : bytes)
    (out_msg mic_size : nat) : ST bytes ret_code :=
  if (65280 <=? Z.of_nat (length aad)) || (16 <? mic_size)%nat then mret (Some EINVAL)
  else
    text ← read_mem out_msg msg_len;
    mic ← initialised (ccm_auth key nonce text aad mic_size);
    _ ← write_mem (out_msg + msg_len) mic;
    _ ← ccm_crypt key nonce msg out_msg msg_len;
    mret None.

(** ** Reference definition *)

Definition nblocks (l : bytes) : nat := ((length l + 15) / 16)%nat.

Fixpoint chunks (n : nat) (l : bytes) : list bytes :=
  match n with
  | O => []
  | S n => take 16 l :: chunks n (drop 16 l)
  end.

(** The string in 16-byte blocks, the last one padded with zeros. *)
Definition blocks (l : bytes) : list bytes :=
  chunks (nblocks l) (l ++ replicate (16 * nblocks l - length l) 0).

Definition cbc (key x : bytes) (bs : list bytes) : bytes :=
  foldl (fun x b => do_ecb key (zip_with Z.lxor x b)) x bs.

Definition counter_block (nonce : bytes) (i : nat) : bytes := 1 :: nonce ++ sys_put_be16 (Z.of_nat i).

Definition keystream (key nonce : bytes) (n : nat) : bytes :=
  concat (map (fun j => do_ecb key (counter_block nonce (S j))) (seq 0 n)).

Definition ctr (key nonce text : bytes) : bytes :=
  zip_with Z.lxor text (keystream key nonce (nblocks text)).

(** [len] is the length field of the first block. *)
Definition first_block (nonce : bytes) (with_aad : bool) (mic_size : nat) (len : Z) : bytes :=
  ((Z.of_nat mic_size - 2) / 2 * 8 + (if with_aad then 64 else 0) + 1) :: nonce ++ sys_put_be16 len.

Definition aad_blocks (aad : bytes) : list bytes :=
  match aad with [] => [] | _ => blocks (sys_put_be16 (Z.of_nat (length aad)) ++ aad) end.

Definition ccm_mac (key nonce text aad : bytes) (mic_size : nat) (len : Z) : bytes :=
  let x := cbc key (do_ecb key (first_block nonce (negb (bool_decide (aad = []))) mic_size len))
             (aad_blocks aad ++ blocks text) in
  zip_with Z.lxor (take mic_size (do_ecb key (counter_block nonce 0))) (take mic_size x).

(** ** Blocks *)

Lemma length_chunks_pad l : (length l + (16 * nblocks l - length l) = 16 * nblocks l)%nat.
Proof. unfold nblocks. pose proof (Nat.div_mod (length l + 15) 16). pose proof (Nat.mod_upper_bound (length l + 15) 16). lia. Qed.

Lemma blocks_nil : blocks [] = [].
Proof. done. Qed.

Lemma blocks_long l : (16 < length l)%nat -> blocks l = take 16 l :: blocks (drop 16 l).
Proof.
  intros H. unfold blocks.
  assert (nblocks l = S (nblocks (drop 16 l))) as ->.
  { unfold nblocks. rewrite length_drop.
    replace (length l + 15)%nat with (length l - 16 + 15 + 1 * 16)%nat by lia.
    rewrite Nat.div_add by lia. lia. }
  cbn [chunks]. rewrite take_app_le, drop_app_le by lia. rewrite length_drop.
  do 4 f_equal. lia.
Qed.

Lemma blocks_short l :
  (0 < length l)%nat -> (length l <= 16)%nat -> blocks l = [l ++ replicate (16 - length l) 0].
Proof.
  intros H1 H2. unfold blocks. assert (nblocks l = 1%nat) as ->.
  { unfold nblocks. symmetry. apply (Nat.div_unique _ 16 1 (length l - 1)); lia. }
  cbn [chunks]. change (16 * 1)%nat with 16%nat.
  by rewrite take_ge by (rewrite length_app, length_replicate; lia).
Qed.

Lemma lxor_zeros (x : bytes) : zip_with Z.lxor x (replicate (length x) 0) = x.
Proof. induction x as [|a x IH]; cbn; [done|]. by rewrite Z.lxor_0_r, IH. Qed.

Lemma lxor_pad (x m : bytes) :
  (length m <= length x)%nat ->
  zip_with Z.lxor x (m ++ replicate (length x - length m) 0) =
  zip_with Z.lxor (take (length m) x) m ++ drop (length m) x.
Proof.
  intros H. rewrite <- (take_drop (length m) x) at 1.
  rewrite zip_with_app by (rewrite length_take; lia). f_equal.
  rewrite <- (length_drop x). apply lxor_zeros.
Qed.

(** ** Authentication computes the reference MAC *)

Section Auth.
Context {ecb_ok : EcbOk}.

(** One block in pieces: [i] bytes already combined, then the data. *)
Lemma block_full i (b X pre rest : bytes) :
  length X = 16%nat -> length pre = i -> (i <= 16)%nat -> take i b = zip_with Z.lxor (take i X) pre ->
  take i b ++ zip_with Z.lxor (drop i X) (take (16 - i) rest) =
  zip_with Z.lxor X (take 16 (pre ++ rest)).
Proof.
  intros HX Hpre Hi ->. rewrite take_app, Hpre, (take_ge pre) by lia.
  rewrite <- (take_drop i X) at 3. by rewrite zip_with_app by (rewrite length_take; lia).
Qed.

Lemma block_last i (b X pre rest : bytes) :
  length X = 16%nat -> length pre = i -> (i + length rest <= 16)%nat ->
  take i b = zip_with Z.lxor (take i X) pre ->
  take i b ++ zip_with Z.lxor (take (length rest) (drop i X)) rest ++ drop (i + length rest) X =
  zip_with Z.lxor X ((pre ++ rest) ++ replicate (16 - length (pre ++ rest)) 0).
Proof.
  intros HX Hpre Hi ->. rewrite <- HX, lxor_pad by (rewrite length_app; lia).
  rewrite length_app, Hpre, app_assoc. f_equal.
  rewrite <- (take_drop i (take (i + length rest) X)), take_take, skipn_firstn_comm.
  rewrite Nat.min_l by lia. replace (i + length rest - i)%nat with (length rest) by lia.
  by rewrite zip_with_app by (rewrite length_take; lia).
Qed.

Lemma aad_loop_ok fuel key aad i j b X pre n :
  length X = 16%nat -> length pre = i -> (i <= 2)%nat -> take i b = zip_with Z.lxor (take i X) pre ->
  n = (i + length (drop j aad))%nat -> (0 < n)%nat -> (n <= 16 * S fuel)%nat ->
  aad_loop fuel key aad i j n b X = inr (cbc key X (blocks (pre ++ drop j aad))).
Proof.
  revert i j b X pre n.
  induction fuel as [|fuel IH]; intros i j b X pre n HX Hpre Hi Hb Hn H0 Hf;
    cbn [aad_loop]; destruct (16 <? n)%nat eqn:E.
  1: apply Nat.ltb_lt in E; lia.
  2: {
    apply Nat.ltb_lt in E. rewrite (block_full i b X pre) by (done || lia). unfold bt_encrypt_be.
    rewrite (IH 0%nat _ _ _ []); try done.
    - rewrite (blocks_long (pre ++ drop j aad)) by (rewrite length_app; lia). cbn [cbc foldl app].
      rewrite drop_app_ge, Hpre, drop_drop by lia. do 4 f_equal.
    - apply length_do_ecb.
    - lia.
    - rewrite <- drop_drop, length_drop. lia.
    - lia.
    - lia. }
  all: apply Nat.ltb_ge in E; rewrite (take_ge (drop j aad)) by lia;
    replace (n - i)%nat with (length (drop j aad)) by lia; rewrite (Nat.min_l i n) by lia;
    rewrite Hn, (block_last i b X pre) by (done || lia);
    rewrite blocks_short by (rewrite length_app; lia); done.
Qed.

Lemma blk_cnt_blocks l : Z.of_nat (length l) < 2 ^ 16 -> blk_cnt_of (length l) = nblocks l.
Proof.
  intros H. unfold blk_cnt_of, nblocks.
  rewrite u16_id; [|unfold is_u16; split; [apply Z.div_pos; lia|apply Z.div_lt_upper_bound; lia]].
  rewrite <- (Nat2Z.id ((length l + 15) / 16)). f_equal. rewrite Nat2Z.inj_div. f_equal. lia.
Qed.

Lemma last_blk_split l :
  (0 < length l)%nat -> (16 * (nblocks l - 1) + last_blk_of (length l) = length l)%nat.
Proof.
  intros H. unfold nblocks, last_blk_of. pose proof (Nat.div_mod (length l) 16 ltac:(lia)) as D.
  pose proof (Nat.mod_upper_bound (length l) 16 ltac:(lia)) as U.
  destruct (length l mod 16 =? 0)%nat eqn:E.
  - apply Nat.eqb_eq in E. rewrite D, E at 1.
    replace (16 * (length l / 16) + 0 + 15)%nat with (15 + (length l / 16) * 16)%nat by lia.
    rewrite Nat.div_add by lia. change (15 / 16)%nat with 0%nat. lia.
  - apply Nat.eqb_neq in E. rewrite D at 1.
    replace (16 * (length l / 16) + length l mod 16 + 15)%nat
      with ((length l mod 16 - 1) + (length l / 16 + 1) * 16)%nat by lia.
    rewrite Nat.div_add by lia. rewrite (Nat.div_small (_ - 1) 16) by lia. lia.
Qed.

Lemma auth_loop_ok n key msg j X :
  length X = 16%nat -> (j + n = nblocks msg)%nat ->
  auth_loop n key msg (nblocks msg) (last_blk_of (length msg)) j X =
  inr (cbc key X (blocks (drop (j * 16) msg))).
Proof.
  revert j X. induction n as [|n IH]; intros j X HX Hn; cbn [auth_loop].
  - rewrite drop_ge; [done|]. pose proof (length_chunks_pad msg). lia.
  - assert (0 < length msg)%nat as H0.
    { destruct msg; cbn; [|lia]. unfold nblocks in Hn. cbn in Hn. lia. }
    pose proof (last_blk_split msg H0) as L. unfold bt_encrypt_be.
    assert (0 < last_blk_of (length msg) <= 16)%nat as Hl.
    { unfold last_blk_of. pose proof (Nat.mod_upper_bound (length msg) 16).
      destruct (_ =? 0)%nat eqn:E; [lia|]. apply Nat.eqb_neq in E. lia. }
    destruct (j + 1 =? nblocks msg)%nat eqn:E.
    + apply Nat.eqb_eq in E. assert (n = 0%nat) as -> by lia. cbn [auth_loop].
      assert (length (drop (j * 16) msg) = last_blk_of (length msg)) as Hd
        by (rewrite length_drop; lia).
      rewrite blocks_short by lia. cbn [cbc foldl].
      pose proof (lxor_pad X (drop (j * 16) msg)) as P. rewrite HX, Hd in P.
      by rewrite Hd, P, (take_ge (drop (j * 16) msg)) by lia.
    + apply Nat.eqb_neq in E. rewrite IH by (apply length_do_ecb || lia).
      rewrite (blocks_long (drop (j * 16) msg)) by (rewrite length_drop; lia).
      cbn [cbc foldl]. rewrite drop_drop. do 4 f_equal. lia.
Qed.

Lemma ccm_flags mic_size (a : bool) :
  (2 <= mic_size <= 16)%nat ->
  u8 (Z.lor (Z.lor (Z.shiftl (u32 (Z.of_nat mic_size - 2) / 2) 3)
               (Z.shiftl (if a then 1 else 0) 6)) 1) =
  (Z.of_nat mic_size - 2) / 2 * 8 + (if a then 64 else 0) + 1.
Proof.
  intros H. do 17 (destruct mic_size as [|mic_size]; [try lia; destruct a; reflexivity|]). lia.
Qed.

Lemma ccm_X0_ok key nonce aad mic_size len :
  length nonce = 13%nat -> (2 <= mic_size <= 16)%nat -> (length aad <= 253)%nat ->
  ccm_calculate_X0 key aad (Z.of_nat (length aad)) (Z.of_nat mic_size) len (1 :: nonce ++ sys_put_be16 0) =
  inr (cbc key (do_ecb key (first_block nonce (negb (bool_decide (aad = []))) mic_size len))
         (aad_blocks aad)).
Proof.
  intros Hn Hm Ha. unfold ccm_calculate_X0, bt_encrypt_be. cbv zeta.
  change (drop 1 (1 :: nonce ++ sys_put_be16 0)) with (nonce ++ sys_put_be16 0).
  rewrite take_app_length' by done.
  destruct aad as [|x aad].
  - pose proof (ccm_flags mic_size false Hm) as F. change (Z.of_nat (length (@nil Z)) =? 0) with true.
    cbv iota in F |- *. rewrite F. done.
  - pose proof (ccm_flags mic_size true Hm) as F.
    rewrite (proj2 (Z.eqb_neq (Z.of_nat (length (x :: aad))) 0)) by (cbn; lia).
    cbv iota in F |- *. rewrite F. cbn [bool_decide negb]. unfold aad_blocks, first_block.
    set (b0 := _ :: nonce ++ _). set (X := do_ecb key b0). set (l := x :: aad) in *.
    rewrite u8_id by (unfold is_u8; lia).
    change l with (drop 0 l) at 4.
    assert (length X = 16%nat) as HX by apply length_do_ecb.
    apply aad_loop_ok; try done.
    + rewrite take_app_length' by (by rewrite length_zip_with, length_take, HX).
      reflexivity.
    + rewrite drop_0. lia.
    + lia.
    + lia.
Qed.

Lemma cbc_app key x bs cs : cbc key x (bs ++ cs) = cbc key (cbc key x bs) cs.
Proof. apply foldl_app. Qed.

Lemma length_cbc key x bs : length x = 16%nat -> length (cbc key x bs) = 16%nat.
Proof.
  revert x. induction bs as [|b bs IH]; intros x H; [done|]. apply IH, length_do_ecb.
Qed.

Lemma ccm_auth_ok key nonce text aad mic_size :
  length nonce = 13%nat -> (2 <= mic_size <= 16)%nat -> (length aad <= 253)%nat ->
  Z.of_nat (length text) < 2 ^ 16 ->
  ccm_auth key nonce text aad mic_size =
  inr (ccm_mac key nonce text aad mic_size (u8 (Z.of_nat (length text)))).
Proof.
  intros Hn Hm Ha Ht. unfold ccm_auth, ccm_mac. cbv zeta. rewrite (take_ge nonce) by lia.
  unfold bt_encrypt_be at 1. rewrite u8_id by (unfold is_u8; lia).
  rewrite ccm_X0_ok, blk_cnt_blocks by done.
  rewrite auth_loop_ok by (done || apply length_cbc, length_do_ecb). by rewrite cbc_app.
Qed.

(** ** Counter mode in memory *)

Lemma slice_inserts_disjoint (mem w : bytes) p n q :
  (p + n <= q \/ q + length w <= p)%nat ->
  take n (drop p (list_inserts q w mem)) = take n (drop p mem).
Proof.
  intros H. apply list_eq. intros k. destruct (decide (k < n)%nat) as [Hk|Hk].
  - rewrite !lookup_take_lt, !lookup_drop by done.
    destruct H; [rewrite list_lookup_inserts_lt|rewrite list_lookup_inserts_ge]; done || lia.
  - by rewrite !lookup_take_ge by lia.
Qed.

Lemma slice_inserts_same (mem w : bytes) q :
  (q + length w <= length mem)%nat -> take (length w) (drop q (list_inserts q w mem)) = w.
Proof.
  intros H. apply list_eq. intros k. destruct (decide (k < length w)%nat) as [Hk|Hk].
  - rewrite lookup_take_lt, lookup_drop by done. rewrite list_lookup_inserts by lia.
    f_equal. lia.
  - rewrite lookup_take_ge by lia. symmetry. apply lookup_ge_None. lia.
Qed.

(** Two regions of [n] bytes that are the same or do not overlap. *)
Definition apart (in_ out n : nat) : Prop := (in_ = out \/ in_ + n <= out \/ out + n <= in_)%nat.

Lemma xor_loop_ok n i in_ out s mem :
  apart in_ out (i + n) -> (in_ + i + n <= length mem)%nat -> (out + i + n <= length mem)%nat ->
  (i + n <= length s)%nat ->
  xor_loop n i in_ out s mem =
  Some (tt, list_inserts (out + i) (zip_with Z.lxor (take n (drop (in_ + i) mem)) (drop i s)) mem).
Proof.
  revert i mem. induction n as [|n IH]; intros i mem Hd Hi Ho Hs; cbn [xor_loop].
  - by rewrite take_0.
  - destruct (lookup_lt_is_Some_2 mem (in_ + i)) as [x Hx]; [lia|].
    destruct (lookup_lt_is_Some_2 s i) as [k Hk]; [lia|].
    erewrite bind_some; [|rewrite Hx; reflexivity]. rewrite Hk. cbn [need]. rewrite bind_ret.
    erewrite bind_some; [|rewrite (proj2 (Nat.ltb_lt _ _)) by lia; reflexivity].
    rewrite IH.
    + rewrite (drop_S mem x (in_ + i)), (drop_S s k i) by done. cbn [take zip_with list_inserts].
      rewrite list_insert_inserts_lt by lia. rewrite !Nat.add_succ_r.
      change (<[(out + i)%nat := Z.lxor x k]> mem) with (list_inserts (out + i) [Z.lxor x k] mem).
      rewrite slice_inserts_disjoint; [done|]. unfold apart in Hd. cbn. lia.
    + unfold apart in *. lia.
    + rewrite length_insert. lia.
    + rewrite length_insert. lia.
    + lia.
Qed.

Lemma take_split {A : Type} (l : list A) a b : take (a + b) l = take a l ++ take b (drop a l).
Proof.
  revert l. induction a as [|a IH]; intros l; [done|]. destruct l as [|x l]; cbn; [by rewrite take_nil|].
  by rewrite IH.
Qed.

Lemma drop_concat16 (f : nat -> bytes) a n j :
  (forall k, length (f k) = 16%nat) -> (j <= n)%nat ->
  drop (16 * j) (concat (map f (seq a n))) = concat (map f (seq (a + j) (n - j))).
Proof.
  intros Hf. revert a n. induction j as [|j IH]; intros a n Hj.
  - by rewrite Nat.add_0_r, Nat.sub_0_r.
  - destruct n as [|n]; [lia|]. cbn [seq map concat].
    rewrite drop_app_ge by (rewrite Hf; lia). rewrite Hf.
    replace (16 * S j - 16)%nat with (16 * j)%nat by lia. rewrite IH by lia.
    replace (S n - S j)%nat with (n - j)%nat by lia. by replace (S a + j)%nat with (a + S j)%nat by lia.
Qed.

Lemma drop_keystream key nonce n j :
  (j <= n)%nat -> drop (16 * j) (keystream key nonce n) =
  concat (map (fun k => do_ecb key (counter_block nonce (S k))) (seq j (n - j))).
Proof. intros H. unfold keystream. by rewrite drop_concat16 by (done || intros; apply length_do_ecb). Qed.

Lemma keystream_split key nonce n j :
  (j < n)%nat -> drop (16 * j) (keystream key nonce n) =
  do_ecb key (counter_block nonce (S j)) ++ drop (16 * S j) (keystream key nonce n).
Proof.
  intros H. rewrite !drop_keystream by lia.
  replace (n - j)%nat with (S (n - S j)) by lia. done.
Qed.

Lemma crypt_block key nonce j :
  length nonce = 13%nat -> Z.of_nat j + 1 < 2 ^ 16 ->
  bt_encrypt_be key (1 :: take 13 nonce ++ sys_put_be16 (u16 (Z.of_nat (j + 1)))) =
  inr (do_ecb key (counter_block nonce (S j))).
Proof.
  intros Hn Hj. unfold bt_encrypt_be, counter_block. rewrite take_ge by lia.
  rewrite u16_id by (unfold is_u16; lia). do 5 f_equal. lia.
Qed.

Lemma crypt_loop_S n key nonce blk_cnt last_blk j in_ out :
  length nonce = 13%nat -> Z.of_nat j + 1 < 2 ^ 16 ->
  crypt_loop (S n) key nonce blk_cnt last_blk j in_ out =
  (_ ← xor_loop (if (j <? blk_cnt - 1)%nat then 16%nat else last_blk) 0 (in_ + j * 16) (out + j * 16)
         (do_ecb key (counter_block nonce (S j)));
   crypt_loop n key nonce blk_cnt last_blk (S j) in_ out).
Proof. intros Hn Hj. cbn [crypt_loop]. by rewrite crypt_block. Qed.

Lemma crypt_loop_ok n key nonce in_ out len j mem :
  length nonce = 13%nat -> Z.of_nat len < 2 ^ 16 ->
  apart in_ out len -> (in_ + len <= length mem)%nat -> (out + len <= length mem)%nat ->
  (j + S n = blk_cnt_of len)%nat -> (16 * (blk_cnt_of len - 1) + last_blk_of len = len)%nat ->
  crypt_loop (S n) key nonce (blk_cnt_of len) (last_blk_of len) j in_ out mem =
  Some (None, list_inserts (out + 16 * j)
    (zip_with Z.lxor (take (len - 16 * j) (drop (in_ + 16 * j) mem))
       (drop (16 * j) (keystream key nonce (blk_cnt_of len)))) mem).
Proof.
  intros Hn Hlen Ha Hi Ho Hj Hlast. revert j mem Hi Ho Hj.
  assert (last_blk_of len <= 16)%nat as H16.
  { unfold last_blk_of. pose proof (Nat.mod_upper_bound len 16). case_if; lia. }
  induction n as [|n IH]; intros j mem Hi Ho Hj;
    rewrite crypt_loop_S by (done || lia); rewrite keystream_split by lia;
    set (s := do_ecb key (counter_block nonce (S j)));
    assert (length s = 16%nat) as Hs by apply length_do_ecb.
  - rewrite (proj2 (Nat.ltb_ge j _)) by lia.
    erewrite bind_some; [|apply xor_loop_ok; unfold apart in *; lia].
    rewrite (drop_keystream _ _ _ (S j)), <- Hj by lia.
    replace (j + 1 - S j)%nat with 0%nat by lia. cbn [seq map concat].
    rewrite app_nil_r, !Nat.add_0_r, drop_0, (Nat.mul_comm j).
    by replace (len - 16 * j)%nat with (last_blk_of len) by lia.
  - rewrite (proj2 (Nat.ltb_lt j _)) by lia.
    erewrite bind_some; [|apply xor_loop_ok; unfold apart in *; lia].
    rewrite !Nat.add_0_r, drop_0, (Nat.mul_comm j).
    set (w := zip_with Z.lxor (take 16 (drop (in_ + 16 * j) mem)) s).
    assert (length w = 16%nat) as Hw
      by (unfold w; rewrite length_zip_with, length_take, length_drop, Hs; lia).
    rewrite IH by (rewrite ?length_inserts; lia).
    rewrite slice_inserts_disjoint by (unfold apart in Ha; rewrite Hw; lia).
    replace (len - 16 * j)%nat with (16 + (len - 16 * S j))%nat by lia.
    rewrite take_split, drop_drop, zip_with_app by (rewrite length_take, length_drop; lia).
    fold w. rewrite list_inserts_app_l, Hw. do 3 f_equal; [|do 3 f_equal]; lia.
Qed.

(** The bytes of a region. *)
Definition slice (p n : nat) (mem : bytes) : bytes := take n (drop p mem).

Lemma length_slice p n mem : (p + n <= length mem)%nat -> length (slice p n mem) = n.
Proof. intros H. unfold slice. rewrite length_take, length_drop. lia. Qed.

Lemma length_keystream key nonce n : length (keystream key nonce n) = (16 * n)%nat.
Proof.
  unfold keystream.
  enough (forall a, length (concat (map (fun j => do_ecb key (counter_block nonce (S j))) (seq a n)))
                    = (16 * n)%nat) by done.
  induction n as [|n IH]; intros a; [done|].
  cbn [seq map concat]. rewrite length_app, length_do_ecb, IH. lia.
Qed.

Lemma length_ctr key nonce text : length (ctr key nonce text) = length text.
Proof.
  unfold ctr. rewrite length_zip_with, length_keystream. pose proof (length_chunks_pad text). lia.
Qed.

Lemma ccm_crypt_ok key nonce in_ out len mem :
  length nonce = 13%nat -> Z.of_nat len < 2 ^ 16 -> apart in_ out len ->
  (in_ + len <= length mem)%nat -> (out + len <= length mem)%nat ->
  ccm_crypt key nonce in_ out len mem =
  Some (None, list_inserts out (ctr key nonce (slice in_ len mem)) mem).
Proof.
  intros Hn Hl Ha Hi Ho. unfold ccm_crypt, ctr.
  pose proof (length_slice in_ len mem Hi) as Ht. set (text := slice in_ len mem) in *.
  rewrite <- Ht in Hl. pose proof (blk_cnt_blocks text Hl) as Hb. rewrite Ht in Hb.
  rewrite <- Hb. destruct (blk_cnt_of len) as [|n] eqn:E.
  - cbn [crypt_loop]. cbn [keystream seq map concat]. by rewrite zip_with_nil_r.
  - rewrite <- E. pose proof (last_blk_split text) as L. rewrite <- Hb, Ht in L.
    assert (0 < len)%nat by (destruct len; [discriminate E|lia]).
    rewrite E at 1. rewrite crypt_loop_ok; try done; [|lia..].
    by rewrite Nat.mul_0_r, !Nat.add_0_r, Nat.sub_0_r, drop_0.
Qed.

Lemma ccm_guard_ok (aad : bytes) mic_size :
  (length aad <= 253)%nat -> (2 <= mic_size <= 16)%nat ->
  (65280 <=? Z.of_nat (length aad)) || (16 <? mic_size)%nat = false.
Proof. intros Ha Hm. apply orb_false_iff. split; [apply Z.leb_gt; lia|apply Nat.ltb_ge; lia]. Qed.

Lemma length_ccm_mac key nonce text aad mic_size len :
  (mic_size <= 16)%nat -> length (ccm_mac key nonce text aad mic_size len) = mic_size.
Proof.
  intros H. unfold ccm_mac. rewrite length_zip_with, !length_take, length_do_ecb.
  rewrite length_cbc by apply length_do_ecb. lia.
Qed.

Lemma inserts_comm (l v w : bytes) p q :
  (p + length w <= q)%nat ->
  list_inserts p w (list_inserts q v l) = list_inserts q v (list_inserts p w l).
Proof.
  revert p. induction w as [|x w IH]; intros p H; [done|]. cbn [list_inserts] in *. cbn in H.
  rewrite IH by lia. by rewrite list_insert_inserts_lt by lia.
Qed.

Lemma inserts_app_rev (l v w : bytes) p q :
  (p + length w = q)%nat -> list_inserts p w (list_inserts q v l) = list_inserts p (w ++ v) l.
Proof. intros <-. rewrite inserts_comm by lia. by rewrite list_inserts_app_l, Nat.add_comm. Qed.

(** Message and MIC of an encrypted region. *)
Lemma slice_encrypted p (c mac mem : bytes) :
  (p + length c + length mac <= length mem)%nat ->
  slice p (length c) (list_inserts p (c ++ mac) mem) = c /\
  slice (p + length c) (length mac) (list_inserts p (c ++ mac) mem) = mac.
Proof.
  intros H. unfold slice. split.
  - rewrite <- (inserts_app_rev mem mac c p (p + length c)) by done.
    apply slice_inserts_same. rewrite length_inserts. lia.
  - rewrite list_inserts_app_l, Nat.add_comm. apply slice_inserts_same. rewrite length_inserts. lia.
Qed.

Lemma bt_ccm_encrypt_ok key nonce msg len aad out mic_size mem :
  length nonce = 13%nat -> (2 <= mic_size <= 16)%nat -> (length aad <= 253)%nat -> Z.of_nat len < 2 ^ 16 ->
  (msg = out \/ msg + len <= out \/ out + len + mic_size <= msg)%nat ->
  (msg + len <= length mem)%nat -> (out + len + mic_size <= length mem)%nat ->
  bt_ccm_encrypt key nonce msg len aad out mic_size mem =
  Some (None, list_inserts out
    (ctr key nonce (slice msg len mem)
     ++ ccm_mac key nonce (slice out len mem) aad mic_size (u8 (Z.of_nat len))) mem).
Proof.
  intros Hn Hm Ha Hl Hd Hi Ho. unfold bt_ccm_encrypt. rewrite ccm_guard_ok by done.
  erewrite bind_some; [|unfold read_mem; rewrite (proj2 (Nat.leb_le _ _)) by lia; reflexivity].
  fold (slice out len mem). pose proof (length_slice out len mem ltac:(lia)) as Ht.
  rewrite ccm_auth_ok by (done || lia). rewrite Ht. cbn [initialised]. rewrite bind_ret.
  set (mic := ccm_mac _ _ _ _ _ _).
  assert (length mic = mic_size) as Hc by (apply length_ccm_mac; lia).
  erewrite bind_some; [|unfold write_mem; rewrite Hc, (proj2 (Nat.leb_le _ _)) by lia; reflexivity].
  erewrite bind_some; [|apply ccm_crypt_ok; rewrite ?length_inserts; unfold apart; done || lia].
  unfold slice. rewrite slice_inserts_disjoint by (rewrite Hc; lia).
  fold (slice msg len mem). cbv [mret ST_ret]. do 2 f_equal.
  by rewrite inserts_app_rev by (rewrite length_ctr, length_slice; lia).
Qed.

Lemma bt_ccm_decrypt_ok key nonce enc len aad out mic_size mem :
  length nonce = 13%nat -> (2 <= mic_size <= 16)%nat -> (length aad <= 253)%nat -> Z.of_nat len < 2 ^ 16 ->
  (enc = out \/ out + len <= enc \/ enc + len + mic_size <= out)%nat ->
  (enc + len + mic_size <= length mem)%nat -> (out + len <= length mem)%nat ->
  let text := ctr key nonce (slice enc len mem) in
  bt_ccm_decrypt key nonce enc len aad out mic_size mem =
  Some (if decide (ccm_mac key nonce text aad mic_size (u8 (Z.of_nat len)) =
                   slice (enc + len) mic_size mem) then None else Some EBADMSG,
        list_inserts out text mem).
Proof.
  intros Hn Hm Ha Hl Hd Hi Ho text. unfold bt_ccm_decrypt. rewrite ccm_guard_ok by done.
  erewrite bind_some; [|apply ccm_crypt_ok; unfold apart; done || lia]. fold text.
  assert (length text = len) as Ht by (unfold text; rewrite length_ctr, length_slice; lia).
  erewrite bind_some;
    [|unfold read_mem; rewrite length_inserts, (proj2 (Nat.leb_le _ _)) by lia; reflexivity].
  rewrite <- Ht at 1. rewrite slice_inserts_same by lia.
  rewrite ccm_auth_ok by (done || lia). rewrite Ht. cbn [initialised]. rewrite bind_ret.
  erewrite bind_some;
    [|unfold read_mem; rewrite length_inserts, (proj2 (Nat.leb_le _ _)) by lia; reflexivity].
  by rewrite slice_inserts_disjoint by (rewrite Ht; lia).
Qed.

Lemma ctr_involutive key nonce text : ctr key nonce (ctr key nonce text) = text.
Proof.
  unfold ctr at 1. assert (nblocks (ctr key nonce text) = nblocks text) as ->
    by (unfold nblocks; by rewrite length_ctr).
  unfold ctr. set (k := keystream key nonce (nblocks text)).
  assert (length text <= length k)%nat as H
    by (unfold k; rewrite length_keystream; pose proof (length_chunks_pad text); lia).
  clearbody k. revert k H. induction text as [|x t IH]; intros k H; [done|].
  destruct k as [|y k]; cbn in H; [lia|]. cbn [zip_with]. rewrite IH by lia. f_equal.
  by rewrite Z.lxor_assoc, Z.lxor_nilpotent, Z.lxor_0_r.
Qed.

(** C28: Encryption in place is CCM as RFC 3610 and the mesh profile define it. For a
    message of up to 255 bytes, additional data of up to 253 bytes and a MIC of 2 to 16
    bytes the region of message and MIC ends up holding the counter-mode encryption of the
    message followed by its CBC-MAC over the formatted first block, the additional data
    and the message, and no other byte of memory changes. (For longer messages the length
    field of the first block is the length modulo 256.) *)
Theorem ccm_encrypt_reference key nonce p len aad mic_size mem :
  length nonce = 13%nat -> (2 <= mic_size <= 16)%nat -> (length aad <= 253)%nat -> (len <= 255)%nat ->
  (p + len + mic_size <= length mem)%nat ->
  let text := slice p len mem in
  bt_ccm_encrypt key nonce p len aad p mic_size mem =
  Some (None, list_inserts p
    (ctr key nonce text ++ ccm_mac key nonce text aad mic_size (Z.of_nat len)) mem).
Proof.
  intros Hn Hm Ha Hl Hp text. rewrite bt_ccm_encrypt_ok by (done || lia).
  by rewrite u8_id by (unfold is_u8; lia).
Qed.

(** What one node encrypts, another decrypts.  Encrypting a message in place
    and decrypting the result with the same key, nonce and additional data, in place
    or into another buffer, succeeds and gives the message back. *)
Theorem ccm_roundtrip key nonce p len aad mic_size out mem :
  length nonce = 13%nat -> (2 <= mic_size <= 16)%nat -> (length aad <= 253)%nat -> Z.of_nat len < 2 ^ 16 ->
  (p + len + mic_size <= length mem)%nat -> (out + len <= length mem)%nat ->
  (out = p \/ out + len <= p \/ p + len + mic_size <= out)%nat ->
  exists mem', (_ ← bt_ccm_encrypt key nonce p len aad p mic_size;
                bt_ccm_decrypt key nonce p len aad out mic_size) mem = Some (None, mem') /\
    slice out len mem' = slice p len mem.
Proof.
  intros Hn Hm Ha Hl Hp Ho Hd.
  rewrite (bind_some _ _ _ _ _ (bt_ccm_encrypt_ok key nonce p len aad p mic_size mem Hn Hm Ha Hl
             ltac:(lia) ltac:(lia) Hp)).
  set (text := slice p len mem). set (mac := ccm_mac _ _ _ _ _ _).
  assert (length text = len) as Ht by (apply length_slice; lia).
  assert (length mac = mic_size) as Hc by (apply length_ccm_mac; lia).
  pose proof (slice_encrypted p (ctr key nonce text) mac mem) as [S1 S2];
    [rewrite length_ctr; lia|]. rewrite length_ctr, Ht in S1, S2. rewrite Hc in S2.
  rewrite bt_ccm_decrypt_ok by (rewrite ?length_inserts; done || lia).
  rewrite S1, S2, ctr_involutive, decide_True by done. eexists. split; [reflexivity|].
  rewrite <- Ht at 1. apply slice_inserts_same. rewrite length_inserts. lia.
Qed.

(** [bt_ccm_encrypt] into a separate buffer does not authenticate the message.
    The MIC is computed from what the output buffer held before the call, so it is
    not the MIC of the message and the receiver rejects it unless the two agree. *)
Theorem ccm_separate_output key nonce msg len aad out mic_size mem :
  length nonce = 13%nat -> (2 <= mic_size <= 16)%nat -> (length aad <= 253)%nat -> Z.of_nat len < 2 ^ 16 ->
  (msg + len <= out)%nat -> (out + len + mic_size <= length mem)%nat ->
  let l := u8 (Z.of_nat len) in
  ccm_mac key nonce (slice out len mem) aad mic_size l <> ccm_mac key nonce (slice msg len mem) aad mic_size l ->
  exists mem' mem'', bt_ccm_encrypt key nonce msg len aad out mic_size mem = Some (None, mem') /\
    bt_ccm_decrypt key nonce out len aad out mic_size mem' = Some (Some EBADMSG, mem'').
Proof.
  intros Hn Hm Ha Hl Hd Ho l Hne. eexists. eexists.
  split; [apply bt_ccm_encrypt_ok; done || lia|]. fold l.
  set (text := slice msg len mem) in *. set (mac := ccm_mac _ _ (slice out len mem) _ _ _) in *.
  assert (length text = len) as Ht by (apply length_slice; lia).
  assert (length mac = mic_size) as Hc by (apply length_ccm_mac; lia).
  pose proof (slice_encrypted out (ctr key nonce text) mac mem) as [S1 S2];
    [rewrite length_ctr; lia|]. rewrite length_ctr, Ht in S1, S2. rewrite Hc in S2.
  rewrite bt_ccm_decrypt_ok by (rewrite ?length_inserts; done || lia).
  rewrite S1, S2, ctr_involutive, decide_False by (fold l; congruence). reflexivity.
Qed.

End Auth.
End Ccm.

(** ** A concrete block function for the examples *)

Definition toy_ecb : Ecb := fun key b =>
  map (fun i => u8 (byte_at key i + 3 * byte_at b i + Z.of_nat i * byte_at b 0)) (seq 0 16).

Lemma toy_ecb_ok : @EcbOk toy_ecb.
Proof.
  split; [done|]. intros key b. apply List.Forall_forall. intros x Hx.
  apply in_map_iff in Hx as (i & <- & _). apply u8_range.
Qed.

(** A message of 20 bytes at offset 2, room for its MIC, and room for a copy. *)
Definition mem_example : bytes := [9; 9] ++ seqZ 65 20 ++ replicate 4 0 ++ replicate 30 7.

Lemma ccm_encrypt_reference_witness :
  exists mem', @bt_ccm_encrypt toy_ecb (replicate 16 1) (seqZ 0 13) 2 20 [1; 2; 3] 2 4 mem_example =
    Some (None, mem') /\ length mem' = length mem_example.
Proof.
  eexists. split.
  - apply (@ccm_encrypt_reference toy_ecb toy_ecb_ok (replicate 16 1) (seqZ 0 13) 2 20 [1; 2; 3] 4 mem_example);
      [reflexivity|lia|cbn; lia|lia|by apply Nat.leb_le].
  - apply length_inserts.
Defined.

Lemma ccm_roundtrip_witness :
  exists mem', (_ ← @bt_ccm_encrypt toy_ecb (replicate 16 1) (seqZ 0 13) 2 20 [1; 2; 3] 2 4;
                @bt_ccm_decrypt toy_ecb (replicate 16 1) (seqZ 0 13) 2 20 [1; 2; 3] 30 4) mem_example
    = Some (None, mem') /\ slice 30 20 mem' = seqZ 65 20.
Proof.
  apply (@ccm_roundtrip toy_ecb toy_ecb_ok (replicate 16 1) (seqZ 0 13) 2 20 [1; 2; 3] 4 30 mem_example);
    [reflexivity|lia|cbn; lia|lia|by apply Nat.leb_le|by apply Nat.leb_le|lia].
Defined.

Lemma ccm_separate_output_witness :
  exists mem' mem'', @bt_ccm_encrypt toy_ecb (replicate 16 1) (seqZ 0 13) 2 20 [] 26 4 mem_example
      = Some (None, mem') /\
    @bt_ccm_decrypt toy_ecb (replicate 16 1) (seqZ 0 13) 26 20 [] 26 4 mem' = Some (Some EBADMSG, mem'').
Proof.
  apply (@ccm_separate_output toy_ecb toy_ecb_ok (replicate 16 1) (seqZ 0 13) 2 20 [] 26 4 mem_example);
    [reflexivity|lia|cbn; lia|lia|lia|by apply Nat.leb_le|].
  vm_compute. discriminate.
Defined.
