(* ===== verification/MeshCrypto.v ===== *)
(** * Keys, nonces and packet encryption of the mesh profile

    Model of [subsys/bluetooth/mesh/crypto.c] and of the inline functions of
    [crypto.h].  The CMAC of TinyCrypt is a parameter, the class [Cmac]; encryption
    is that of [Ccm].  An [int] result other than 0 is [inl]; the arrays written by a
    function that returns 0 are [inr]. *)

From Stdlib Require Import String.
From S2P Require Import Prelude ByteOrder CString MeshDefs NetBuf Ccm.

(** ** Results *)

#[export] Instance result_ret : MRet (sum Z) := fun A a => inr a.

#[export] Instance result_bind : MBind (sum Z) := fun A B k m =>
  match m with inl err => inl err | inr a => k a end.

(** [-EIO] *)
Definition neg_EIO : Z := -5.

(** ** TinyCrypt's CMAC *)

(** [None] is TC_CRYPTO_FAIL. *)
Class Cmac : Type := {
  tc_cmac_struct : Type;
  tc_cmac_setup : bytes -> option tc_cmac_struct;
  tc_cmac_update : tc_cmac_struct -> bytes -> option tc_cmac_struct;
  tc_cmac_final : tc_cmac_struct -> option bytes;
}.

(** The tag is 16 bytes. *)
Class CmacOk {cmac : Cmac} : Prop :=
  tc_cmac_final_ok : forall s mac, tc_cmac_final s = Some mac -> length mac = 16%nat /\ wf_bytes mac.

(** ** Frame check sequence *)

(** Reversed, 8-bit, poly = 0x07. *)
Definition crc_table : bytes :=
  [0; 145; 227; 114; 7; 150; 228; 117; 14; 159; 237; 124; 9; 152; 234; 123;
   28; 141; 255; 110; 27; 138; 248; 105; 18; 131; 241; 96; 21; 132; 246; 103;
   56; 169; 219; 74; 63; 174; 220; 77; 54; 167; 213; 68; 49; 160; 210; 67;
   36; 181; 199; 86; 35; 178; 192; 81; 42; 187; 201; 88; 45; 188; 206; 95;
   112; 225; 147; 2; 119; 230; 148; 5; 126; 239; 157; 12; 121; 232; 154; 11;
   108; 253; 143; 30; 107; 250; 136; 25; 98; 243; 129; 16; 101; 244; 134; 23;
   72; 217; 171; 58; 79; 222; 172; 61; 70; 215; 165; 52; 65; 208; 162; 51;
   84; 197; 183; 38; 83; 194; 176; 33; 90; 203; 185; 40; 93; 204; 190; 47;
   224; 113; 3; 146; 231; 118; 4; 149; 238; 127; 13; 156; 233; 120; 10; 155;
   252; 109; 31; 142; 251; 106; 24; 137; 242; 99; 17; 128; 245; 100; 22; 135;
   216; 73; 59; 170; 223; 78; 60; 173; 214; 71; 53; 164; 209; 64; 50; 163;
   196; 85; 39; 182; 195; 82; 32; 177; 202; 91; 41; 184; 205; 92; 46; 191;
   144; 1; 115; 226; 151; 6; 116; 229; 158; 15; 125; 236; 153; 8; 122; 235;
   140; 29; 111; 254; 139; 26; 104; 249; 130; 19; 97; 240; 133; 20; 102; 247;
   168; 57; 75; 218; 175; 62; 76; 221; 166; 55; 69; 212; 161; 48; 66; 211;
   180; 37; 87; 198; 179; 34; 80; 193; 186; 43; 89; 200; 189; 44; 94; 207].

Fixpoint fcs_loop (fcs : Z) (data : bytes) : Z :=
  match data with
  | [] => fcs
  | d :: data => fcs_loop (byte_at crc_table (Z.to_nat (Z.lxor fcs d))) data
  end.

(** [data_len] is [uint8_t]. *)
Definition bt_mesh_fcs_calc (data : bytes) (data_len : Z) : Z :=
  255 - fcs_loop 255 (take (Z.to_nat (u8 data_len)) data).

Definition bt_mesh_fcs_check (buf : net_buf_simple) (received_fcs : Z) : bool :=
  byte_at crc_table (Z.to_nat (Z.lxor (fcs_loop 255 (contents buf)) received_fcs)) =? 207.

(** ** Key derivation *)

Section Keys.
Context {cmac : Cmac}.

Fixpoint cmac_loop (s : tc_cmac_struct) (sg : list bytes) : Z + tc_cmac_struct :=
  match sg with
  | [] => inr s
  | d :: sg => match tc_cmac_update s d with None => inl neg_EIO | Some s => cmac_loop s sg end
  end.

Definition bt_mesh_aes_cmac (key : bytes) (sg : list bytes) : Z + bytes :=
  match tc_cmac_setup key with
  | None => inl neg_EIO
  | Some s =>
      s ← cmac_loop s sg;
      match tc_cmac_final s with None => inl neg_EIO | Some mac => inr mac end
  end.

Definition bt_mesh_aes_cmac_one (key m : bytes) : Z + bytes := bt_mesh_aes_cmac key [m].

(** Declared [bool]: an error is returned as 1. *)
Definition bt_mesh_s1 (m : bytes) : Z + bytes :=
  match bt_mesh_aes_cmac_one (replicate 16 0) m with inl _ => inl 1 | inr salt => inr salt end.

Definition bt_mesh_k1 (ikm salt info : bytes) : Z + bytes :=
  okm ← bt_mesh_aes_cmac_one salt ikm; bt_mesh_aes_cmac_one okm info.

(** NID, encryption key and privacy key. *)
Definition bt_mesh_k2 (n p : bytes) : Z + (Z * bytes * bytes) :=
  salt ← bt_mesh_s1 (str "smk2");
  t ← bt_mesh_aes_cmac_one salt n;
  out1 ← bt_mesh_aes_cmac t [[]; p; [1]];
  let net_id := Z.land (byte_at out1 15) 127 in
  out2 ← bt_mesh_aes_cmac t [out1; p; [2]];
  out3 ← bt_mesh_aes_cmac t [out2; p; [3]];
  mret (net_id, out2, out3).

Definition bt_mesh_k3 (n : bytes) : Z + bytes :=
  salt ← bt_mesh_s1 (str "smk3");
  t ← bt_mesh_aes_cmac_one salt n;
  tmp ← bt_mesh_aes_cmac_one t (str "id64" ++ [1]);
  mret (take 8 (drop 8 tmp)).

Definition bt_mesh_k4 (n : bytes) : Z + Z :=
  salt ← bt_mesh_s1 (str "smk4");
  t ← bt_mesh_aes_cmac_one salt n;
  tmp ← bt_mesh_aes_cmac_one t (str "id6" ++ [1]);
  mret (Z.land (byte_at tmp 15) 63).

Definition bt_mesh_id128 (n s : bytes) : Z + bytes :=
  salt ← bt_mesh_s1 s; bt_mesh_k1 n salt (str "id128" ++ [1]).

(** A string literal that initialises a 16-byte array. *)
Definition array16 (s : bytes) : bytes := s ++ replicate (16 - length s) 0.

Definition bt_mesh_id_resolving_key (net_key : bytes) : Z + bytes :=
  bt_mesh_k1 net_key (array16 (str "smbt")) (str "smbi").
Definition bt_mesh_identity_key (net_key : bytes) : Z + bytes := bt_mesh_id128 net_key (str "nkik").
Definition bt_mesh_beacon_key (net_key : bytes) : Z + bytes := bt_mesh_id128 net_key (str "nkbk").
Definition bt_mesh_app_id (app_key : bytes) : Z + Z := bt_mesh_k4 app_key.

Definition bt_mesh_session_key (dhkey prov_salt : bytes) : Z + bytes :=
  bt_mesh_k1 dhkey prov_salt (str "prsk").
Definition bt_mesh_prov_nonce (dhkey prov_salt : bytes) : Z + bytes :=
  tmp ← bt_mesh_k1 dhkey prov_salt (str "prsn"); mret (take 13 (drop 3 tmp)).
Definition bt_mesh_dev_key (dhkey prov_salt : bytes) : Z + bytes :=
  bt_mesh_k1 dhkey prov_salt (str "prdk").
Definition bt_mesh_prov_salt (conf_salt prov_rand dev_rand : bytes) : Z + bytes :=
  bt_mesh_aes_cmac (replicate 16 0) [conf_salt; prov_rand; dev_rand].

Definition bt_mesh_virtual_addr (virtual_label : bytes) : Z + Z :=
  salt ← bt_mesh_s1 (str "vtad");
  tmp ← bt_mesh_aes_cmac_one salt virtual_label;
  mret (Z.lor (Z.land (sys_get_be16 (drop 14 tmp)) 16383) 32768).

Definition bt_mesh_prov_conf_salt (conf_inputs : bytes) : Z + bytes :=
  bt_mesh_aes_cmac_one (replicate 16 0) conf_inputs.
Definition bt_mesh_prov_conf_key (dhkey conf_salt : bytes) : Z + bytes :=
  bt_mesh_k1 dhkey conf_salt (str "prck").
Definition bt_mesh_prov_conf (conf_key rand auth : bytes) : Z + bytes :=
  bt_mesh_aes_cmac conf_key [rand; auth].

Definition bt_mesh_beacon_auth (beacon_key : bytes) (flags : Z) (net_id : bytes) (iv_index : Z)
    : Z + bytes :=
  tmp ← bt_mesh_aes_cmac_one beacon_key ([flags] ++ take 8 net_id ++ sys_put_be32 iv_index);
  mret (take 8 tmp).

End Keys.

(** ** Nonces *)

Definition create_proxy_nonce (pdu : bytes) (iv_index : Z) : bytes :=
  [3; 0; byte_at pdu 2; byte_at pdu 3; byte_at pdu 4; byte_at pdu 5; byte_at pdu 6; 0; 0]
  ++ sys_put_be32 iv_index.

Definition create_net_nonce (pdu : bytes) (iv_index : Z) : bytes :=
  [0; byte_at pdu 1; byte_at pdu 2; byte_at pdu 3; byte_at pdu 4; byte_at pdu 5; byte_at pdu 6; 0; 0]
  ++ sys_put_be32 iv_index.

Record bt_mesh_app_crypto_ctx : Type := mkAppCtx {
  ac_dev_key : bool;
  ac_aszmic : Z;
  ac_src : Z;
  ac_dst : Z;
  ac_seq_num : Z;
  ac_iv_index : Z;
  ac_ad : option bytes;     (** [NULL] or a label UUID *)
}.

Definition create_app_nonce (ctx : bt_mesh_app_crypto_ctx) : bytes :=
  [if ac_dev_key ctx then 2 else 1]
  ++ sys_put_be32 (u32 (Z.lor (ac_seq_num ctx) (Z.shiftl (ac_aszmic ctx) 31)))
  ++ sys_put_be16 (ac_src ctx) ++ sys_put_be16 (ac_dst ctx) ++ sys_put_be32 (ac_iv_index ctx).

Definition NET_MIC_LEN (pdu : bytes) : nat := if Z.testbit (byte_at pdu 1) 7 then 8%nat else 4%nat.
Definition APP_MIC_LEN (aszmic : Z) : nat := if aszmic =? 0 then 4%nat else 8%nat.

(** ** Packet encryption *)

Section Packets.
Context {ecb : Ecb}.

(** The header bytes 1 to 6 are XORed with a block made of the encrypted part. *)
Definition bt_mesh_net_obfuscate (iv_index : Z) (privacy_key : bytes) (pdu : bytes) : Z + bytes :=
  let priv_rand := replicate 5 0 ++ sys_put_be32 iv_index ++ take 7 (drop 7 pdu) in
  match bt_encrypt_be privacy_key priv_rand with
  | inl _ => inl (-22)
  | inr tmp => inr (take 1 pdu ++ zip_with Z.lxor (take 6 (drop 1 pdu)) (take 6 tmp) ++ drop 7 pdu)
  end.

(** [proxy] selects the nonce in builds with proxy support, [config_proxy]. *)
Definition net_nonce (config_proxy proxy : bool) (pdu : bytes) (iv_index : Z) : bytes :=
  if config_proxy && proxy then create_proxy_nonce pdu iv_index else create_net_nonce pdu iv_index.

(** A buffer too short for the header makes [len - 7] negative. *)
Definition bt_mesh_net_encrypt (config_proxy : bool) (key : bytes) (iv_index : Z) (proxy : bool)
    : BUF ret_code :=
  b ← gets id;
  let mic_len := NET_MIC_LEN (contents b) in
  let nonce := net_nonce config_proxy proxy (contents b) iv_index in
  if (buf_len b <? 7)%nat then undefined
  else
    err ← zoom buf_mem (bt_ccm_encrypt key nonce (buf_data b + 7) (buf_len b - 7) []
                          (buf_data b + 7) mic_len);
    match err with
    | None => _ ← net_buf_simple_add mic_len; mret None
    | Some _ => mret err
    end.

Definition bt_mesh_net_decrypt (config_proxy : bool) (key : bytes) (iv_index : Z) (proxy : bool)
    : BUF ret_code :=
  b ← gets id;
  let mic_len := NET_MIC_LEN (contents b) in
  let nonce := net_nonce config_proxy proxy (contents b) iv_index in
  if (buf_len b <? mic_len + 7)%nat then undefined
  else
    _ ← modify (fun b => b <| buf_len := (buf_len b - mic_len)%nat |>);
    zoom buf_mem (bt_ccm_decrypt key nonce (buf_data b + 7) (buf_len b - mic_len - 7) []
                    (buf_data b + 7) mic_len).

Definition app_aad (ctx : bt_mesh_app_crypto_ctx) : bytes :=
  match ac_ad ctx with Some ad => take 16 ad | None => [] end.

Definition bt_mesh_app_encrypt (key : bytes) (ctx : bt_mesh_app_crypto_ctx) : BUF ret_code :=
  b ← gets id;
  err ← zoom buf_mem (bt_ccm_encrypt key (create_app_nonce ctx) (buf_data b) (buf_len b) (app_aad ctx)
                        (buf_data b) (APP_MIC_LEN (ac_aszmic ctx)));
  match err with
  | None => _ ← net_buf_simple_add (APP_MIC_LEN (ac_aszmic ctx)); mret None
  | Some _ => mret err
  end.

(** [buf] holds the encrypted data without its MIC, which follows it in memory;
    the result is written to another buffer. *)
Definition bt_mesh_app_decrypt (key : bytes) (ctx : bt_mesh_app_crypto_ctx) (buf out : net_buf_simple)
    : option (ret_code * net_buf_simple) :=
  let mem := buf_mem buf ++ buf_mem out in
  let base := length (buf_mem buf) in
  match bt_ccm_decrypt key (create_app_nonce ctx) (buf_data buf) (buf_len buf) (app_aad ctx)
          (base + buf_data out) (APP_MIC_LEN (ac_aszmic ctx)) mem with
  | None => None
  | Some (err, mem') =>
      let out' := out <| buf_mem := drop base mem' |> in
      match err with
      | None => match net_buf_simple_add (buf_len buf) out' with
                | Some (_, out'') => Some (None, out'')
                | None => None
                end
      | Some _ => Some (err, out')
      end
  end.

(** The same function when [out] is a buffer over the memory of [buf], starting at its
    data: the text replaces the encrypted data. *)
Definition bt_mesh_app_decrypt_in_place (key : bytes) (ctx : bt_mesh_app_crypto_ctx) : BUF ret_code :=
  b ← gets id;
  zoom buf_mem (bt_ccm_decrypt key (create_app_nonce ctx) (buf_data b) (buf_len b) (app_aad ctx)
                  (buf_data b) (APP_MIC_LEN (ac_aszmic ctx))).

(** [data] and [out] are offsets in one memory. *)
Definition bt_mesh_prov_decrypt (key nonce : bytes) (data out : nat) : ST bytes ret_code :=
  bt_ccm_decrypt key nonce data 25 [] out 8.
Definition bt_mesh_prov_encrypt (key nonce : bytes) (data out : nat) : ST bytes ret_code :=
  bt_ccm_encrypt key nonce data 25 [] out 8.

End Packets.

(** ** The frame check sequence is a CRC-8, and the check accepts exactly it *)

Fixpoint crc_shift (n : nat) (x : Z) : Z :=
  match n with
  | O => x
  | S n => crc_shift n (if Z.testbit x 0 then Z.lxor (Z.shiftr x 1) 224 else Z.shiftr x 1)
  end.

(** Bitwise definition: polynomial x^8 + x^2 + x + 1, least significant bit first. *)
Definition crc8 (data : bytes) : Z := foldl (fun c d => crc_shift 8 (Z.lxor c d)) 255 data.

(** A decidable property of all byte values. *)
Lemma all_bytes (P : Z -> bool) : forallb P (seqZ 0 256) = true -> forall x, is_u8 x -> P x = true.
Proof.
  intros H x Hx. rewrite forallb_forall in H. apply H, list_elem_of_In, elem_of_seqZ. unfold is_u8 in Hx. lia.
Qed.

Lemma crc_table_shift x :
  is_u8 x -> byte_at crc_table (Z.to_nat x) = crc_shift 8 x /\ is_u8 (crc_shift 8 x).
Proof.
  intros Hx.
  pose (P x := (byte_at crc_table (Z.to_nat x) =? crc_shift 8 x) && (0 <=? crc_shift 8 x)
                && (crc_shift 8 x <? 256)).
  assert (P x = true) as E by (apply all_bytes; [vm_compute; reflexivity|done]).
  unfold P in E. zbool. unfold is_u8. lia.
Qed.

Lemma lxor_u8 a b : is_u8 a -> is_u8 b -> is_u8 (Z.lxor a b).
Proof.
  unfold is_u8. intros Ha Hb. split; [apply Z.lxor_nonneg; lia|].
  destruct (Z.eq_dec (Z.lxor a b) 0) as [->|N]; [lia|].
  apply Z.log2_lt_pow2; [pose proof (proj2 (Z.lxor_nonneg a b)); lia|].
  pose proof (Z.log2_lxor a b ltac:(lia) ltac:(lia)).
  assert (forall c, 0 <= c < 2 ^ 8 -> Z.log2 c < 8) as L.
  { intros c Hc. destruct (Z.eq_dec c 0) as [->|]; [done|]. apply Z.log2_lt_pow2; lia. }
  pose proof (L a Ha). pose proof (L b Hb). lia.
Qed.

Lemma fcs_loop_crc c data :
  is_u8 c -> wf_bytes data ->
  fcs_loop c data = foldl (fun c d => crc_shift 8 (Z.lxor c d)) c data /\ is_u8 (fcs_loop c data).
Proof.
  revert c. induction data as [|d data IH]; intros c Hc Hd; [done|].
  apply wf_bytes_cons in Hd as [Hd Hr]. cbn [fcs_loop foldl].
  destruct (crc_table_shift (Z.lxor c d) (lxor_u8 c d Hc Hd)) as [-> H]. by apply IH.
Qed.

(** The frame check sequence of the provisioning bearer is sound.
    [bt_mesh_fcs_calc] is the complement of the CRC-8 with polynomial
    x^8 + x^2 + x + 1, computed bit by bit, so the 256-entry table has no wrong
    entry; and [bt_mesh_fcs_check] accepts a received check sequence exactly when it
    is the one computed from the data. *)
Theorem fcs_exact buf received :
  wf_bytes (contents buf) -> (buf_len buf <= 255)%nat -> buf_wf buf -> is_u8 received ->
  let fcs := bt_mesh_fcs_calc (contents buf) (Z.of_nat (buf_len buf)) in
  fcs = 255 - crc8 (contents buf) /\
  (bt_mesh_fcs_check buf received = true <-> received = fcs).
Proof.
  intros Hw Hl Hb Hr. cbv zeta. unfold bt_mesh_fcs_calc, bt_mesh_fcs_check, crc8.
  rewrite u8_id by (unfold is_u8; lia).
  rewrite Nat2Z.id, take_ge by (rewrite length_contents by done; lia).
  destruct (fcs_loop_crc 255 (contents buf)) as [<- Hf]; [by unfold is_u8|done|].
  set (f := fcs_loop 255 (contents buf)) in *. split; [done|].
  assert (forall x, is_u8 x -> (byte_at crc_table (Z.to_nat x) =? 207) = (x =? 255)) as T.
  { intros x Hx. apply eqb_prop. revert x Hx. apply all_bytes. vm_compute. reflexivity. }
  rewrite (T (Z.lxor f received)) by (by apply lxor_u8). rewrite Z.eqb_eq.
  assert (Z.lxor f 255 = 255 - f) as <-
    by (apply Z.eqb_eq; revert Hf; generalize f; apply all_bytes; vm_compute; reflexivity).
  split; [|intros ->; by rewrite <- Z.lxor_assoc, Z.lxor_nilpotent, Z.lxor_0_l].
  intros E. rewrite <- E, <- Z.lxor_assoc, Z.lxor_nilpotent. by rewrite Z.lxor_0_l.
Qed.

Lemma fcs_exact_witness :
  let buf := mkBuf 0 3 [1; 2; 3; 0] in
  let fcs := bt_mesh_fcs_calc (contents buf) 3 in
  fcs = 255 - crc8 [1; 2; 3] /\ (bt_mesh_fcs_check buf 17 = true <-> 17 = fcs).
Proof.
  apply (fcs_exact (mkBuf 0 3 [1; 2; 3; 0]) 17).
  - repeat constructor; done.
  - cbn. lia.
  - unfold buf_wf, buf_size. cbn. lia.
  - done.
Defined.

(** ** Results of the tag function *)

Lemma cmac_result {cmac : Cmac} {ok : CmacOk} key sg mac :
  bt_mesh_aes_cmac key sg = inr mac -> length mac = 16%nat /\ wf_bytes mac.
Proof.
  unfold bt_mesh_aes_cmac. destruct (tc_cmac_setup key) as [s|]; [|done].
  unfold mbind, result_bind. destruct (cmac_loop s sg) as [|s']; [done|].
  destruct (tc_cmac_final s') as [m|] eqn:E; [|done]. intros [= <-]. by apply (tc_cmac_final_ok s').
Qed.

Lemma result_bind_inv {A B : Type} (m : Z + A) (k : A -> Z + B) b :
  (m ≫= k) = inr b -> exists a, m = inr a /\ k a = inr b.
Proof. destruct m as [|a]; [done|]. intros H. by exists a. Qed.

Ltac result_inv H :=
  repeat (apply result_bind_inv in H as (? & ? & H); cbv beta zeta in H);
  cbv [mret result_ret] in H; injection H; intros.

(** A concrete tag function for the examples: the length and the weighted sum. *)
Definition toy_cmac : Cmac := {|
  tc_cmac_struct := bytes;
  tc_cmac_setup := fun key => Some key;
  tc_cmac_update := fun s d => Some (s ++ d);
  tc_cmac_final := fun s =>
    Some (map (fun i => u8 (Z.of_nat i + foldl (fun a x => 3 * a + x) (Z.of_nat (length s)) s)) (seq 0 16));
|}.

Lemma toy_cmac_ok : @CmacOk toy_cmac.
Proof.
  intros s mac [= <-]. split; [done|]. repeat (constructor; [apply u8_range|]). constructor.
Qed.

Lemma toy_cmac_total key sg : exists mac, @bt_mesh_aes_cmac toy_cmac key sg = inr mac.
Proof.
  unfold bt_mesh_aes_cmac. cbn [tc_cmac_setup toy_cmac].
  assert (forall s, exists s', @cmac_loop toy_cmac s sg = inr s') as H.
  { induction sg as [|d sg IH]; intros s; [by exists s|]. apply IH. }
  destruct (H key) as [s' E]. unfold mbind, result_bind. rewrite E. by eexists.
Qed.

(** ** Access payloads: encryption and decryption agree *)

Section AppCrypto.
Context {ecb : Ecb} {ecb_ok : EcbOk}.

Lemma length_app_nonce ctx : length (create_app_nonce ctx) = 13%nat.
Proof. done. Qed.

Lemma length_app_aad ctx : (length (app_aad ctx) <= 16)%nat.
Proof. unfold app_aad. destruct (ac_ad ctx); [rewrite length_take; lia|cbn; lia]. Qed.

Lemma app_mic_len aszmic : (2 <= APP_MIC_LEN aszmic <= 8)%nat.
Proof. unfold APP_MIC_LEN. case_if; lia. Qed.

(** The text of an encrypted access payload. *)
Definition app_sealed (key : bytes) (ctx : bt_mesh_app_crypto_ctx) (text : bytes) : bytes :=
  let nonce := create_app_nonce ctx in
  ctr key nonce text ++ ccm_mac key nonce text (app_aad ctx) (APP_MIC_LEN (ac_aszmic ctx))
                          (u8 (Z.of_nat (length text))).

Lemma zoom_mem_some {A : Type} (m : ST bytes A) b a mem :
  m (buf_mem b) = Some (a, mem) -> zoom buf_mem m b = Some (a, mkBuf (buf_data b) (buf_len b) mem).
Proof. intros E. unfold zoom. by rewrite E. Qed.

(** Contents after the memory behind the data pointer is overwritten and the buffer grows. *)
Lemma contents_sealed d n extra (w mem : bytes) off :
  (off + length w = n + extra)%nat -> (d + n + extra <= length mem)%nat -> (off <= n)%nat ->
  contents (mkBuf d (n + extra) (list_inserts (d + off) w mem)) = take off (drop d mem) ++ w.
Proof.
  intros Hw Hm Ho. unfold contents. cbn [buf_len buf_data buf_mem].
  rewrite <- Hw, take_split, drop_drop. f_equal.
  - apply slice_inserts_disjoint. lia.
  - apply slice_inserts_same. lia.
Qed.

Lemma app_encrypt_ok key ctx b :
  buf_wf b -> Z.of_nat (buf_len b) < 2 ^ 16 ->
  (APP_MIC_LEN (ac_aszmic ctx) <= net_buf_simple_tailroom b)%nat ->
  exists b', bt_mesh_app_encrypt key ctx b = Some (None, b') /\
    contents b' = app_sealed key ctx (contents b) /\ buf_wf b' /\ buf_data b' = buf_data b.
Proof.
  intros Hwf Hl Hr. pose proof (length_app_aad ctx). pose proof (app_mic_len (ac_aszmic ctx)).
  pose proof (length_contents b Hwf) as Hc.
  destruct b as [d n mem]. unfold buf_wf, buf_size, net_buf_simple_tailroom, net_buf_simple_headroom in *.
  cbn [buf_data buf_len buf_mem] in *. unfold buf_size in Hr. cbn [buf_mem] in Hr.
  unfold bt_mesh_app_encrypt. rewrite bind_gets. unfold id. cbn [buf_data buf_len].
  erewrite bind_some; [|apply zoom_mem_some, bt_ccm_encrypt_ok; (done || cbn; lia)].
  cbn [buf_mem buf_data buf_len]. change (slice d n mem) with (contents (mkBuf d n mem)).
  set (c := contents _) in *.
  assert (length (app_sealed key ctx c) = n + APP_MIC_LEN (ac_aszmic ctx))%nat as Hs.
  { unfold app_sealed. rewrite length_app, length_ctr, length_ccm_mac; lia. }
  exists (mkBuf d (n + APP_MIC_LEN (ac_aszmic ctx)) (list_inserts d (app_sealed key ctx c) mem)).
  split; [|split; [|split; [|done]]].
  - unfold net_buf_simple_add, net_buf_simple_tailroom, net_buf_simple_headroom, buf_size.
    unfold app_sealed in *. rewrite Hc in Hs |- *.
    erewrite bind_some; [reflexivity|]. cbn [buf_mem buf_data buf_len].
    rewrite length_inserts, (proj2 (Nat.leb_le _ _)) by lia. reflexivity.
  - pose proof (contents_sealed d n (APP_MIC_LEN (ac_aszmic ctx)) (app_sealed key ctx c) mem 0) as P.
    rewrite Nat.add_0_r in P. rewrite P by lia. by rewrite take_0.
  - unfold buf_wf, buf_size. cbn. rewrite length_inserts. lia.
Qed.

Lemma app_decrypt_ok key ctx buf out text :
  slice (buf_data buf) (buf_len buf + APP_MIC_LEN (ac_aszmic ctx)) (buf_mem buf) = app_sealed key ctx text ->
  buf_len buf = length text -> Z.of_nat (length text) < 2 ^ 16 ->
  (buf_data buf + buf_len buf + APP_MIC_LEN (ac_aszmic ctx) <= buf_size buf)%nat ->
  buf_wf out -> buf_len out = 0%nat -> (length text <= net_buf_simple_tailroom out)%nat ->
  exists out', bt_mesh_app_decrypt key ctx buf out = Some (None, out') /\ contents out' = text /\ buf_wf out'.
Proof.
  intros Hs Hn Hl Hb Ho H0 Hr. pose proof (length_app_aad ctx). pose proof (app_mic_len (ac_aszmic ctx)).
  destruct buf as [d n mem], out as [d' n' mem']. unfold buf_wf, buf_size, net_buf_simple_tailroom, net_buf_simple_headroom, buf_size in *.
  cbn [buf_data buf_len buf_mem] in *. subst n'.
  unfold bt_mesh_app_decrypt. cbn [buf_data buf_len buf_mem]. cbv zeta.
  rewrite bt_ccm_decrypt_ok by (rewrite ?length_app; (done || lia)).
  assert (slice d n (mem ++ mem') = ctr key (create_app_nonce ctx) text /\
          slice (d + n) (APP_MIC_LEN (ac_aszmic ctx)) (mem ++ mem') =
          ccm_mac key (create_app_nonce ctx) text (app_aad ctx) (APP_MIC_LEN (ac_aszmic ctx))
            (u8 (Z.of_nat (length text)))) as [S1 S2].
  { unfold slice, app_sealed in *. rewrite !drop_app_le, !take_app_le by (rewrite ?length_drop; lia).
    rewrite take_split, drop_drop in Hs. apply app_inj_1 in Hs; [done|].
    rewrite length_ctr, length_take, length_drop. lia. }
  rewrite S1, S2, ctr_involutive, Hn, decide_True by done.
  unfold net_buf_simple_add, net_buf_simple_tailroom, net_buf_simple_headroom, buf_size.
  set (m2 := drop (length mem) (list_inserts (length mem + d') text (mem ++ mem'))).
  assert (m2 = list_inserts d' text mem') as E2.
  { unfold m2. rewrite list_inserts_app_r, drop_app_length. done. }
  cbn [buf_mem buf_data buf_len assign]. rewrite E2.
  eexists. split.
  - match goal with |- context [(?a <=? ?b)%nat] => rewrite (proj2 (Nat.leb_le a b)) end.
    + reflexivity.
    + cbn. rewrite length_inserts. lia.
  - unfold contents, buf_wf, buf_size. cbn. rewrite length_inserts. split; [|lia].
    apply slice_inserts_same. lia.
Qed.

(** Decryption is defined for any bytes, right key or not. *)
Lemma app_decrypt_defined key ctx buf out :
  Z.of_nat (buf_len buf) < 2 ^ 16 -> (buf_data buf + buf_len buf + APP_MIC_LEN (ac_aszmic ctx) <= buf_size buf)%nat ->
  buf_len out = 0%nat -> (buf_data out + buf_len buf <= buf_size out)%nat ->
  exists err out', bt_mesh_app_decrypt key ctx buf out = Some (err, out') /\ buf_size out' = buf_size out.
Proof.
  intros Hl Hb Ho Hr. pose proof (length_app_aad ctx). pose proof (app_mic_len (ac_aszmic ctx)).
  destruct buf as [d n mem], out as [d' n' mem']. unfold buf_size in *. cbn [buf_data buf_len buf_mem] in *. subst n'.
  unfold bt_mesh_app_decrypt. cbn [buf_data buf_len buf_mem]. cbv zeta.
  rewrite bt_ccm_decrypt_ok by (rewrite ?length_app; (done || lia)). set (text := ctr _ _ _).
  rewrite list_inserts_app_r, drop_app_length. unfold net_buf_simple_add, net_buf_simple_tailroom, net_buf_simple_headroom, buf_size.
  cbn [buf_mem buf_data buf_len assign]. destruct (decide _).
  - match goal with |- context [(?a <=? ?b)%nat] => rewrite (proj2 (Nat.leb_le a b)) by (cbn; rewrite length_inserts; lia) end.
    eexists _, _. split; [reflexivity|]. cbn. apply length_inserts.
  - eexists _, _. split; [reflexivity|]. cbn. apply length_inserts.
Qed.

Lemma app_decrypt_in_place_defined key ctx b :
  Z.of_nat (buf_len b) < 2 ^ 16 -> (buf_data b + buf_len b + APP_MIC_LEN (ac_aszmic ctx) <= buf_size b)%nat ->
  exists err mem, bt_mesh_app_decrypt_in_place key ctx b = Some (err, b <| buf_mem := mem |>) /\ length mem = buf_size b.
Proof.
  intros Hl Hb. pose proof (length_app_aad ctx). pose proof (app_mic_len (ac_aszmic ctx)).
  unfold bt_mesh_app_decrypt_in_place. rewrite bind_gets. unfold id, zoom.
  rewrite bt_ccm_decrypt_ok by (unfold buf_size in *; (done || lia)).
  eexists _, _. split; [reflexivity|]. apply length_inserts.
Qed.

Lemma app_decrypt_in_place_ok key ctx b text :
  slice (buf_data b) (buf_len b + APP_MIC_LEN (ac_aszmic ctx)) (buf_mem b) = app_sealed key ctx text ->
  buf_len b = length text -> Z.of_nat (length text) < 2 ^ 16 ->
  (buf_data b + buf_len b + APP_MIC_LEN (ac_aszmic ctx) <= buf_size b)%nat ->
  bt_mesh_app_decrypt_in_place key ctx b =
  Some (None, mkBuf (buf_data b) (buf_len b) (list_inserts (buf_data b) text (buf_mem b))).
Proof.
  intros Hs Hn Hl Hb. pose proof (length_app_aad ctx). pose proof (app_mic_len (ac_aszmic ctx)).
  unfold bt_mesh_app_decrypt_in_place. rewrite bind_gets. unfold id. apply zoom_mem_some.
  rewrite bt_ccm_decrypt_ok by (unfold buf_size in *; (done || lia)).
  assert (slice (buf_data b) (buf_len b) (buf_mem b) = ctr key (create_app_nonce ctx) text /\
          slice (buf_data b + buf_len b) (APP_MIC_LEN (ac_aszmic ctx)) (buf_mem b) =
          ccm_mac key (create_app_nonce ctx) text (app_aad ctx) (APP_MIC_LEN (ac_aszmic ctx))
            (u8 (Z.of_nat (length text)))) as [S1 S2].
  { unfold slice, app_sealed, buf_size in *. rewrite take_split, drop_drop in Hs. apply app_inj_1 in Hs; [done|].
    rewrite length_ctr, length_take, length_drop. lia. }
  by rewrite S1, S2, ctr_involutive, Hn, decide_True.
Qed.

(** An access payload encrypted by the sender is decrypted by the receiver.
    [bt_mesh_app_encrypt] of any payload with room for its MIC succeeds, and
    [bt_mesh_app_decrypt] of the resulting bytes, wherever they lie in the receiver's
    memory, with the same key and context restores the payload. *)
Theorem app_crypto_roundtrip key ctx b out :
  buf_wf b -> Z.of_nat (buf_len b) < 2 ^ 16 ->
  (APP_MIC_LEN (ac_aszmic ctx) <= net_buf_simple_tailroom b)%nat ->
  buf_wf out -> buf_len out = 0%nat -> (buf_len b <= net_buf_simple_tailroom out)%nat ->
  exists b', bt_mesh_app_encrypt key ctx b = Some (None, b') /\
    (forall rx, buf_wf rx -> contents rx = contents b' ->
     exists out', bt_mesh_app_decrypt key ctx
         (rx <| buf_len := (buf_len rx - APP_MIC_LEN (ac_aszmic ctx))%nat |>) out = Some (None, out') /\
       contents out' = contents b).
Proof.
  intros Hb Hl Hr Ho H0 Ht. destruct (app_encrypt_ok key ctx b Hb Hl Hr) as (b' & E & C & W & _).
  exists b'. split; [done|]. intros rx Hrx Hc. pose proof (length_contents b Hb) as Lb.
  pose proof (app_mic_len (ac_aszmic ctx)).
  assert (length (contents rx) = buf_len b + APP_MIC_LEN (ac_aszmic ctx))%nat as Lr.
  { rewrite Hc, C. unfold app_sealed. rewrite length_app, length_ctr, length_ccm_mac; lia. }
  rewrite length_contents in Lr by done.
  destruct (app_decrypt_ok key ctx (rx <| buf_len := (buf_len rx - APP_MIC_LEN (ac_aszmic ctx))%nat |>)
              out (contents b)) as (out' & E' & C' & _); try done.
  - cbn. rewrite <- C, <- Hc. unfold slice, contents. f_equal. lia.
  - cbn. lia.
  - lia.
  - unfold buf_wf, buf_size in *. cbn. lia.
  - lia.
  - by exists out'.
Qed.
End AppCrypto.

Definition app_ctx_example : bt_mesh_app_crypto_ctx := mkAppCtx false 0 1 6 77 3 None.

Lemma app_crypto_roundtrip_witness :
  let b := mkBuf 2 5 ([0; 0] ++ seqZ 65 5 ++ replicate 8 0) in
  exists b', @bt_mesh_app_encrypt toy_ecb (replicate 16 1) app_ctx_example b = Some (None, b') /\
    (forall rx, buf_wf rx -> contents rx = contents b' ->
     exists out', @bt_mesh_app_decrypt toy_ecb (replicate 16 1) app_ctx_example
         (rx <| buf_len := (buf_len rx - 4)%nat |>) (mkBuf 0 0 (replicate 20 0)) = Some (None, out') /\
       contents out' = seqZ 65 5).
Proof.
  apply (@app_crypto_roundtrip toy_ecb toy_ecb_ok (replicate 16 1) app_ctx_example
           (mkBuf 2 5 ([0; 0] ++ seqZ 65 5 ++ replicate 8 0)) (mkBuf 0 0 (replicate 20 0))).
  - by apply Nat.leb_le.
  - reflexivity.
  - by apply Nat.leb_le.
  - by apply Nat.leb_le.
  - reflexivity.
  - by apply Nat.leb_le.
Defined.
