(* ===== verification/Subnet.v ===== *)
(** * Subnets and the key refresh procedure

    Model of [subsys/bluetooth/mesh/subnet.c] with the structures of [subnet.h], the
    node identity functions of [proxy.c] it calls, and the storage of network keys of
    [settings.c].  The table of subnets and the notifications it sends form the
    state; a pointer into the table is an index.  [config_proxy] is
    CONFIG_BT_MESH_GATT_PROXY, set for the beacon and not for the provisioner. *)

From S2P Require Import Prelude ByteOrder MeshDefs Cdb Ccm NetBuf MeshCrypto.

(** ** Data *)

(** Status codes of the configuration model. *)
Inductive mesh_status : Type :=
| STATUS_SUCCESS | STATUS_INVALID_ADDRESS | STATUS_INVALID_MODEL | STATUS_INVALID_APPKEY
| STATUS_INVALID_NETKEY | STATUS_INSUFF_RESOURCES | STATUS_IDX_ALREADY_STORED | STATUS_NVAL_PUB_PARAM
| STATUS_NOT_SUB_MOD | STATUS_STORAGE_FAIL | STATUS_FEAT_NOT_SUPP | STATUS_CANNOT_UPDATE
| STATUS_CANNOT_REMOVE | STATUS_CANNOT_BIND | STATUS_TEMP_STATE_CHG_FAIL | STATUS_CANNOT_SET
| STATUS_UNSPECIFIED | STATUS_INVALID_BINDING.

Inductive bt_mesh_key_evt : Type :=
| BT_MESH_KEY_ADDED | BT_MESH_KEY_DELETED | BT_MESH_KEY_UPDATED | BT_MESH_KEY_SWAPPED
| BT_MESH_KEY_REVOKED.

Inductive bt_mesh_feat_state : Type :=
| BT_MESH_FEATURE_DISABLED | BT_MESH_FEATURE_ENABLED | BT_MESH_FEATURE_NOT_SUPPORTED.

Definition BT_MESH_KR_NORMAL : Z := 0.
Definition BT_MESH_KR_PHASE_1 : Z := 1.
Definition BT_MESH_KR_PHASE_2 : Z := 2.
Definition BT_MESH_KR_PHASE_3 : Z := 3.

Record bt_mesh_net_cred : Type := mkCred { cred_nid : Z; cred_enc : bytes; cred_privacy : bytes }.

Record bt_mesh_subnet_keys : Type := mkKeys {
  keys_valid : bool;
  keys_net : bytes;
  keys_msg : bt_mesh_net_cred;
  keys_net_id : bytes;
  keys_identity : bytes;
  keys_beacon : bytes;
}.

#[export] Instance bt_mesh_subnet_keys_eta : Eta bt_mesh_subnet_keys := fun k =>
  mkKeys (keys_valid k) (keys_net k) (keys_msg k) (keys_net_id k) (keys_identity k) (keys_beacon k).

(** What [struct bt_mesh_subnet] holds for the secure network beacons. *)
Record subnet_beacon : Type := mkBeacon {
  beacon_sent : Z;
  beacons_last : Z;
  beacons_cur : Z;
  beacon_cache : bytes;
  beacon_auth : bytes;
}.

#[export] Instance subnet_beacon_eta : Eta subnet_beacon := fun b =>
  mkBeacon (beacon_sent b) (beacons_last b) (beacons_cur b) (beacon_cache b) (beacon_auth b).

Record bt_mesh_subnet : Type := mkSubnet {
  sub_net_idx : Z;
  sub_kr_phase : Z;
  sub_node_id : bt_mesh_feat_state;
  sub_key0 : bt_mesh_subnet_keys;
  sub_key1 : bt_mesh_subnet_keys;
  sub_beacon : subnet_beacon;
}.

#[export] Instance bt_mesh_subnet_eta : Eta bt_mesh_subnet := fun s =>
  mkSubnet (sub_net_idx s) (sub_kr_phase s) (sub_node_id s) (sub_key0 s) (sub_key1 s) (sub_beacon s).

(** [sub->keys[i]] *)
Definition sub_keys (i : bool) (s : bt_mesh_subnet) : bt_mesh_subnet_keys :=
  if i then sub_key1 s else sub_key0 s.

Definition keys_zero : bt_mesh_subnet_keys :=
  mkKeys false zero16 (mkCred 0 zero16 zero16) (replicate 8 0) zero16 zero16.

Definition beacon_zero : subnet_beacon := mkBeacon 0 0 0 (replicate 21 0) (replicate 8 0).

Definition subnet_zero : bt_mesh_subnet :=
  mkSubnet BT_MESH_KEY_UNUSED BT_MESH_KR_NORMAL BT_MESH_FEATURE_DISABLED keys_zero keys_zero beacon_zero.

Definition SUBNET_KEY_TX_IDX (s : bt_mesh_subnet) : bool := sub_kr_phase s =? BT_MESH_KR_PHASE_2.

(** Calls of other modules and of the storage. *)
Inductive subnet_event : Type :=
| EvSubnet (net_idx : Z) (evt : bt_mesh_key_evt)
| EvStoreSubnet (net_idx : Z)
| EvClearSubnet (net_idx : Z)
| EvLoopbackClear (net_idx : Z)
| EvBeaconUpdate (net_idx : Z)
| EvAdvUpdate.

Record subnets : Type := mkSubnets { subs : list bt_mesh_subnet; sub_log : list subnet_event }.

#[export] Instance subnets_eta : Eta subnets := fun s => mkSubnets (subs s) (sub_log s).

Definition alter_sub (f : bt_mesh_subnet -> bt_mesh_subnet) (i : nat) (s : subnets) : subnets :=
  s <| subs := alter f i (subs s) |>.
Definition sub_event (e : subnet_event) (s : subnets) : subnets := s <| sub_log := sub_log s ++ [e] |>.

Definition subnets_init (count : nat) : subnets := mkSubnets (replicate count subnet_zero) [].

(** ** Operations *)

Section Subnets.
Context {cmac : Cmac} (config_proxy : bool).

(** [sub] may be NULL; [ivu] is BT_MESH_IVU_IN_PROGRESS. *)
Definition bt_mesh_net_flags (ivu : bool) (sub : option bt_mesh_subnet) : Z :=
  let flags := match sub with
               | Some s => if sub_kr_phase s =? BT_MESH_KR_PHASE_2 then BT_MESH_NET_FLAG_KR else 0
               | None => 0
               end in
  if ivu then Z.lor flags BT_MESH_NET_FLAG_IVU else flags.

(** [key_refresh] of the subnet [i], which has index [net_idx]. *)
Definition key_refresh (i : nat) (new_phase : Z) (s : subnets) : subnets :=
  match subs s !! i with
  | None => s
  | Some sub =>
      let store s := sub_event (EvStoreSubnet (sub_net_idx sub)) s in
      let notify evt s := sub_event (EvSubnet (sub_net_idx sub) evt) s in
      let revoke s :=
        store (notify BT_MESH_KEY_REVOKED
          (alter_sub (fun sub => sub <| sub_kr_phase := BT_MESH_KR_NORMAL |>
                                     <| sub_key0 := sub_key1 sub |>
                                     <| sub_key1 := (sub_key1 sub) <| keys_valid := false |> |>) i s)) in
      if new_phase =? BT_MESH_KR_PHASE_1 then
        store (notify BT_MESH_KEY_UPDATED (alter_sub (fun sub => sub <| sub_kr_phase := new_phase |>) i s))
      else if new_phase =? BT_MESH_KR_PHASE_2 then
        store (notify BT_MESH_KEY_SWAPPED (alter_sub (fun sub => sub <| sub_kr_phase := new_phase |>) i s))
      else if new_phase =? BT_MESH_KR_PHASE_3 then
        if sub_kr_phase sub =? BT_MESH_KR_NORMAL then s else revoke s
      else if new_phase =? BT_MESH_KR_NORMAL then revoke s
      else store s
  end.

Definition bt_mesh_kr_update (i : nat) (kr_flag new_key : bool) (s : subnets) : subnets :=
  match subs s !! i with
  | None => s
  | Some sub =>
      if negb new_key then s
      else if sub_kr_phase sub =? BT_MESH_KR_PHASE_1 then
        key_refresh i (if kr_flag then BT_MESH_KR_PHASE_2 else BT_MESH_KR_PHASE_3) s
      else if (sub_kr_phase sub =? BT_MESH_KR_PHASE_2) && negb kr_flag then
        key_refresh i BT_MESH_KR_PHASE_3 s
      else s
  end.

(** The slot with this index, or else the first unused one. *)
Definition subnet_alloc (net_idx : Z) (s : subnets) : option nat :=
  find_or_free (fun s => sub_net_idx s =? net_idx) (fun s => sub_net_idx s =? BT_MESH_KEY_UNUSED) 0 None (subs s).

Definition subnet_del (i : nat) (s : subnets) : subnets :=
  match subs s !! i with
  | None => s
  | Some sub =>
      alter_sub (fun _ => subnet_zero) i
        (sub_event (EvSubnet (sub_net_idx sub) BT_MESH_KEY_DELETED)
           (sub_event (EvLoopbackClear (sub_net_idx sub)) (sub_event (EvClearSubnet (sub_net_idx sub)) s)))
  end.

Definition msg_cred_create (p key : bytes) : Z + bt_mesh_net_cred :=
  '(nid, enc, privacy) ← bt_mesh_k2 key p; mret (mkCred nid enc privacy).

(** The keys derived from [key].  On an error the structure is not marked valid; the
    credentials the code has then already written into it are not modelled, since a slot
    that is not valid is not read. *)
Definition net_keys_create (key : bytes) : Z + bt_mesh_subnet_keys :=
  msg ← msg_cred_create [0] key;
  net_id ← bt_mesh_k3 key;
  identity ← (if config_proxy then bt_mesh_identity_key key else mret zero16);
  beacon ← bt_mesh_beacon_key key;
  mret (mkKeys true (take 16 key) msg net_id identity beacon).

Definition bt_mesh_subnet_get (net_idx : Z) (s : subnets) : option nat :=
  find_index (fun sub => sub_net_idx sub =? net_idx) (subs s).

Definition initial_node_id : bt_mesh_feat_state :=
  if config_proxy then BT_MESH_FEATURE_DISABLED else BT_MESH_FEATURE_NOT_SUPPORTED.

Definition bt_mesh_subnet_add (net_idx : Z) (key : bytes) (s : subnets) : mesh_status * subnets :=
  match subnet_alloc net_idx s with
  | None => (STATUS_INSUFF_RESOURCES, s)
  | Some i =>
      match subs s !! i with
      | None => (STATUS_INSUFF_RESOURCES, s)
      | Some sub =>
          if sub_net_idx sub =? net_idx then
            if decide (take 16 key = keys_net (sub_key0 sub)) then (STATUS_SUCCESS, s)
            else (STATUS_IDX_ALREADY_STORED, s)
          else match net_keys_create key with
          | inl _ => (STATUS_UNSPECIFIED, s)
          | inr keys =>
              (STATUS_SUCCESS,
               sub_event (EvStoreSubnet net_idx) (sub_event (EvSubnet net_idx BT_MESH_KEY_ADDED)
                 (alter_sub (fun sub => sub <| sub_key0 := keys |> <| sub_net_idx := net_idx |>
                                            <| sub_kr_phase := BT_MESH_KR_NORMAL |>
                                            <| sub_node_id := initial_node_id |>) i s)))
          end
      end
  end.

Definition bt_mesh_subnet_exists (net_idx : Z) (s : subnets) : bool :=
  match bt_mesh_subnet_get net_idx s with Some _ => true | None => false end.

Definition bt_mesh_subnet_update (net_idx : Z) (key : bytes) (s : subnets) : mesh_status * subnets :=
  match bt_mesh_subnet_get net_idx s with
  | None => (STATUS_INVALID_NETKEY, s)
  | Some i =>
      match subs s !! i with
      | None => (STATUS_INVALID_NETKEY, s)
      | Some sub =>
          let update :=
            match net_keys_create key with
            | inl _ => (STATUS_CANNOT_UPDATE, s)
            | inr keys =>
                (STATUS_SUCCESS,
                 key_refresh i BT_MESH_KR_PHASE_1 (alter_sub (fun sub => sub <| sub_key1 := keys |>) i s))
            end in
          if sub_kr_phase sub =? BT_MESH_KR_NORMAL then
            if decide (take 16 key = keys_net (sub_key0 sub)) then (STATUS_IDX_ALREADY_STORED, s) else update
          else if sub_kr_phase sub =? BT_MESH_KR_PHASE_1 then
            if decide (take 16 key = keys_net (sub_key1 sub)) then (STATUS_SUCCESS, s)
            else (STATUS_CANNOT_UPDATE, s)
          else if (sub_kr_phase sub =? BT_MESH_KR_PHASE_2) || (sub_kr_phase sub =? BT_MESH_KR_PHASE_3)
          then (STATUS_CANNOT_UPDATE, s)
          else update
      end
  end.

Definition bt_mesh_subnet_del (net_idx : Z) (s : subnets) : mesh_status * subnets :=
  match bt_mesh_subnet_get net_idx s with
  | None => (STATUS_INVALID_NETKEY, s)
  | Some i => (STATUS_SUCCESS, subnet_del i s)
  end.

Definition bt_mesh_friend_cred_create (lpn_addr frnd_addr lpn_counter frnd_counter : Z) (key : bytes)
    : Z + bt_mesh_net_cred :=
  msg_cred_create ([1] ++ sys_put_be16 lpn_addr ++ sys_put_be16 frnd_addr ++ sys_put_be16 lpn_counter
                   ++ sys_put_be16 frnd_counter) key.

(** [valid_transitions[kr_phase]] as a bit mask. *)
Definition valid_transitions : list Z :=
  [Z.shiftl 1 BT_MESH_KR_PHASE_3;
   Z.lor (Z.shiftl 1 BT_MESH_KR_PHASE_2) (Z.shiftl 1 BT_MESH_KR_PHASE_3);
   Z.shiftl 1 BT_MESH_KR_PHASE_3].

(** The status, the value stored in [*phase] and the table. *)
Definition bt_mesh_subnet_kr_phase_set (net_idx phase : Z) (s : subnets) : mesh_status * Z * subnets :=
  match bt_mesh_subnet_get net_idx s with
  | None => (STATUS_INVALID_NETKEY, 0, s)
  | Some i =>
      match subs s !! i with
      | None => (STATUS_INVALID_NETKEY, 0, s)
      | Some sub =>
          if phase =? sub_kr_phase sub then (STATUS_SUCCESS, phase, s)
          else
            let allowed := match valid_transitions !! Z.to_nat (sub_kr_phase sub) with
                           | Some mask => Z.testbit mask phase
                           | None => false
                           end in
            if allowed then
              let s' := key_refresh i phase s in
              (STATUS_SUCCESS, match subs s' !! i with Some sub => sub_kr_phase sub | None => 0 end, s')
            else (STATUS_CANNOT_UPDATE, sub_kr_phase sub, s)
      end
  end.

Definition bt_mesh_subnet_kr_phase_get (net_idx : Z) (s : subnets) : mesh_status * Z :=
  match bt_mesh_subnet_get net_idx s ≫= fun i => subs s !! i with
  | None => (STATUS_INVALID_NETKEY, BT_MESH_KR_NORMAL)
  | Some sub => (STATUS_SUCCESS, sub_kr_phase sub)
  end.

Definition bt_mesh_subnet_node_id_set (net_idx : Z) (node_id : bt_mesh_feat_state) (s : subnets)
    : mesh_status * subnets :=
  match node_id with
  | BT_MESH_FEATURE_NOT_SUPPORTED => (STATUS_CANNOT_SET, s)
  | _ =>
      match bt_mesh_subnet_get net_idx s with
      | None => (STATUS_INVALID_NETKEY, s)
      | Some i =>
          if negb config_proxy then (STATUS_FEAT_NOT_SUPP, s)
          else (STATUS_SUCCESS, sub_event EvAdvUpdate (alter_sub (fun sub => sub <| sub_node_id := node_id |>) i s))
      end
  end.

Definition bt_mesh_subnet_node_id_get (net_idx : Z) (s : subnets) : mesh_status * bt_mesh_feat_state :=
  match bt_mesh_subnet_get net_idx s ≫= fun i => subs s !! i with
  | None => (STATUS_INVALID_NETKEY, BT_MESH_FEATURE_DISABLED)
  | Some sub => (STATUS_SUCCESS, sub_node_id sub)
  end.

(** The indexes of at most [max] subnets after the first [skip]. *)
Definition bt_mesh_subnets_get (max skip : nat) (s : subnets) : errno + list Z :=
  let used := List.filter (fun i => negb (i =? BT_MESH_KEY_UNUSED)) (map sub_net_idx (subs s)) in
  if (length (drop skip used) <=? max)%nat then inr (drop skip used) else inl ENOMEM.

(** [old_key] and [new_key] may be NULL. *)
Definition bt_mesh_subnet_set (net_idx kr_phase : Z) (old_key new_key : option bytes) (s : subnets)
    : ret_code * subnets :=
  match subnet_alloc net_idx s with
  | None => (Some ENOMEM, s)
  | Some i =>
      match subs s !! i with
      | None => (Some ENOMEM, s)
      | Some sub =>
          if sub_net_idx sub =? net_idx then (Some EALREADY, s)
          else
            let create old key := match key with
                                  | None => inr old
                                  | Some k => net_keys_create k
                                  end in
            match create (sub_key0 sub) old_key with
            | inl _ => (Some EIO, s)
            | inr k0 =>
                match create (sub_key1 sub) new_key with
                | inl _ => (Some EIO, alter_sub (fun sub => sub <| sub_key0 := k0 |>) i s)
                | inr k1 =>
                    (None, sub_event (EvBeaconUpdate net_idx)
                       (alter_sub (fun sub => mkSubnet net_idx kr_phase initial_node_id k0 k1 (sub_beacon sub)) i s))
                end
            end
      end
  end.

(** The first used subnet for which [cb] holds. *)
Definition bt_mesh_subnet_find (cb : option (bt_mesh_subnet -> bool)) (s : subnets) : option nat :=
  find_index (fun sub => negb (sub_net_idx sub =? BT_MESH_KEY_UNUSED)
                         && match cb with None => true | Some f => f sub end) (subs s).

Definition bt_mesh_subnet_foreach (cb : bt_mesh_subnet -> bt_mesh_subnet) (s : subnets) : nat * subnets :=
  (length (List.filter (fun sub => negb (sub_net_idx sub =? BT_MESH_KEY_UNUSED)) (subs s)),
   s <| subs := map (fun sub => if sub_net_idx sub =? BT_MESH_KEY_UNUSED then sub else cb sub) (subs s) |>).

(** The next used subnet after [sub], around the end of the table. *)
Fixpoint subnet_next_loop (n i : nat) (l : list bt_mesh_subnet) : option nat :=
  match n with
  | O => None
  | S n =>
      let i := if (i =? length l)%nat then 0%nat else i in
      match l !! i with
      | Some sub => if negb (sub_net_idx sub =? BT_MESH_KEY_UNUSED) then Some i else subnet_next_loop n (S i) l
      | None => None
      end
  end.

Definition bt_mesh_subnet_next (sub : option nat) (s : subnets) : option nat :=
  subnet_next_loop (length (subs s)) (match sub with Some i => S i | None => 0%nat end) (subs s).

Fixpoint net_keys_reset_loop (n i : nat) (s : subnets) : subnets :=
  match n with
  | O => s
  | S n =>
      net_keys_reset_loop n (S i)
        (match subs s !! i with
         | Some sub => if negb (sub_net_idx sub =? BT_MESH_KEY_UNUSED) then subnet_del i s else s
         | None => s
         end)
  end.

Definition bt_mesh_net_keys_reset (s : subnets) : subnets := net_keys_reset_loop (length (subs s)) 0 s.

(** ** Storage *)

(** [struct net_key_val]: phase and the two keys. *)
Definition net_key_val : Type := Z * bytes * bytes.

Definition store_subnet (net_idx : Z) (s : subnets) : option net_key_val :=
  sub ← (bt_mesh_subnet_get net_idx s ≫= fun i => subs s !! i);
  Some (sub_kr_phase sub, keys_net (sub_key0 sub), keys_net (sub_key1 sub)).

Definition net_key_set (net_idx : Z) (key : net_key_val) (s : subnets) : ret_code * subnets :=
  let '(kr_phase, val0, val1) := key in
  bt_mesh_subnet_set net_idx kr_phase (Some val0)
    (if kr_phase =? BT_MESH_KR_NORMAL then None else Some val1) s.

End Subnets.

(** ** The table invariant *)

Definition sub_used (sub : bt_mesh_subnet) : Prop := sub_net_idx sub <> BT_MESH_KEY_UNUSED.

(** Which key sets are valid in which phase. *)
Definition sub_ok (sub : bt_mesh_subnet) : Prop :=
  if sub_net_idx sub =? BT_MESH_KEY_UNUSED then keys_valid (sub_key1 sub) = false
  else
    (sub_kr_phase sub = BT_MESH_KR_NORMAL /\ keys_valid (sub_key0 sub) = true /\
     keys_valid (sub_key1 sub) = false) \/
    (sub_kr_phase sub = BT_MESH_KR_PHASE_1 /\ keys_valid (sub_key0 sub) = true /\
     keys_valid (sub_key1 sub) = true) \/
    (sub_kr_phase sub = BT_MESH_KR_PHASE_2 /\ keys_valid (sub_key1 sub) = true).

Definition subnets_ok (s : subnets) : Prop :=
  Forall sub_ok (subs s) /\
  forall i j a b, subs s !! i = Some a -> subs s !! j = Some b -> sub_used a ->
    sub_net_idx a = sub_net_idx b -> i = j.

Lemma lookup_alter_cases {A : Type} (f : A -> A) (i j : nat) (l : list A) x :
  alter f i l !! j = Some x ->
  (j = i /\ exists y, l !! i = Some y /\ x = f y) \/ (j <> i /\ l !! j = Some x).
Proof.
  destruct (decide (i = j)) as [->|N].
  - rewrite list_lookup_alter_eq. destruct (l !! j) as [y|]; [|done]. intros [= <-]. left. eauto.
  - rewrite list_lookup_alter_ne by done. right. done.
Qed.

(** Changing one slot: the new content is fine and its index is new or the same. *)
Lemma subnets_ok_alter f i s s' :
  subs s' = alter f i (subs s) -> subnets_ok s ->
  (forall sub, subs s !! i = Some sub -> sub_ok (f sub) /\
     (sub_net_idx (f sub) = BT_MESH_KEY_UNUSED \/ sub_net_idx (f sub) = sub_net_idx sub \/
      forall j b, subs s !! j = Some b -> sub_net_idx b <> sub_net_idx (f sub))) ->
  subnets_ok s'.
Proof.
  intros Es [Hok Hu] Hf. split; rewrite Es.
  - apply Forall_lookup_2. intros j x Hx. apply lookup_alter_cases in Hx as [(-> & y & Hy & ->)|[_ Hx]].
    + by apply Hf.
    + by eapply Forall_lookup_1.
  - assert (forall j a, subs s !! j = Some a -> j <> i -> forall y, subs s !! i = Some y ->
              sub_used a \/ sub_used (f y) -> sub_net_idx a = sub_net_idx (f y) -> False) as Hx.
    { intros j a Ha Hj y Hy Hau E. destruct (Hf y Hy) as [_ [H|[H|H]]].
      - destruct Hau as [Hau|Hau]; [by apply Hau; rewrite E|done].
      - apply Hj. apply (Hu j i a y Ha Hy); [|congruence].
        destruct Hau as [|Hau]; [done|]. unfold sub_used in *. congruence.
      - by apply (H j a). }
    intros j k a b Ha Hb Hau E.
    apply lookup_alter_cases in Ha as [(-> & y & Hy & ->)|[Hj Ha]];
      apply lookup_alter_cases in Hb as [(-> & z & Hz & ->)|[Hk Hb]].
    + done.
    + exfalso. eapply (Hx k b); eauto.
    + exfalso. eapply (Hx j a); eauto.
    + by eapply Hu.
Qed.

(** A slot that is not the one of [net_idx] is free, and no other slot has the index. *)
Lemma subnet_alloc_free net_idx s i sub :
  subnet_alloc net_idx s = Some i -> subs s !! i = Some sub -> sub_net_idx sub <> net_idx ->
  sub_net_idx sub = BT_MESH_KEY_UNUSED /\
  forall j b, subs s !! j = Some b -> sub_net_idx b <> net_idx.
Proof.
  intros Ha Hi Hn. destruct (find_or_free_new _ _ _ _ _ Ha Hi) as [Hu Hall]; [by apply Z.eqb_neq|].
  split; [by apply Z.eqb_eq|]. intros j b Hb. by apply Z.eqb_neq, (Hall j).
Qed.

Lemma alter_alter {A : Type} (f g : A -> A) (i : nat) (l : list A) :
  alter f i (alter g i l) = alter (fun x => f (g x)) i l.
Proof. revert i. induction l as [|x l IH]; intros [|i]; cbn; f_equal; auto. Qed.

Lemma subs_alter_sub f i s : subs (alter_sub f i s) = alter f i (subs s).
Proof. done. Qed.

Lemma subs_event e s : subs (sub_event e s) = subs s.
Proof. done. Qed.

Section Invariant.
Context {cmac : Cmac} (config_proxy : bool).

Lemma net_keys_create_valid key keys :
  net_keys_create config_proxy key = inr keys -> keys_valid keys = true.
Proof. unfold net_keys_create. intros H. result_inv H. by subst. Qed.

(** The phase changes of the procedure. *)
Lemma key_refresh_ok i new_phase s sub :
  subnets_ok s -> subs s !! i = Some sub -> sub_used sub ->
  (new_phase = BT_MESH_KR_PHASE_2 /\ sub_kr_phase sub = BT_MESH_KR_PHASE_1) \/
  new_phase = BT_MESH_KR_PHASE_3 ->
  subnets_ok (key_refresh i new_phase s).
Proof.
  intros Hs Hi Hu Hp. pose proof (Forall_lookup_1 _ _ _ _ (proj1 Hs) Hi) as Hsub.
  unfold sub_ok in Hsub. rewrite (proj2 (Z.eqb_neq _ _) Hu) in Hsub.
  unfold key_refresh. rewrite Hi. destruct Hp as [[-> Hp]| ->]; cbn [Z.eqb].
  - eapply subnets_ok_alter; [reflexivity|done|]. intros x Hx. assert (x = sub) as -> by congruence.
    split; [|right; by left]. unfold sub_ok. cbn. rewrite (proj2 (Z.eqb_neq _ _) Hu). right. right.
    split; [done|]. unfold BT_MESH_KR_NORMAL, BT_MESH_KR_PHASE_1, BT_MESH_KR_PHASE_2 in *.
    destruct Hsub as [(E & _)|[(_ & _ & ?)|(E & _)]]; [lia|done|lia].
  - destruct (sub_kr_phase sub =? BT_MESH_KR_NORMAL) eqn:E; [done|]. zbool.
    eapply subnets_ok_alter; [reflexivity|done|]. intros x Hx. assert (x = sub) as -> by congruence.
    split; [|right; by left]. unfold sub_ok. cbn. rewrite (proj2 (Z.eqb_neq _ _) Hu). left.
    split; [done|]. split; [|done]. destruct Hsub as [(? & _)|[(_ & _ & ?)|(_ & ?)]]; done.
Qed.

Lemma subnet_get_some net_idx s i :
  bt_mesh_subnet_get net_idx s = Some i ->
  exists sub, subs s !! i = Some sub /\ sub_net_idx sub = net_idx.
Proof.
  intros H. apply find_index_Some in H as [(sub & Hi & E) _]. zbool. eauto.
Qed.

Lemma subnet_add_ok net_idx key s :
  net_idx <> BT_MESH_KEY_UNUSED -> subnets_ok s ->
  subnets_ok (bt_mesh_subnet_add config_proxy net_idx key s).2.
Proof.
  intros Hn Hs. unfold bt_mesh_subnet_add. destruct (subnet_alloc net_idx s) as [i|] eqn:Ha; [|done].
  destruct (subs s !! i) as [sub|] eqn:Hi; [|done].
  destruct (sub_net_idx sub =? net_idx) eqn:E; zbool; [by destruct (decide _)|].
  destruct (net_keys_create config_proxy key) as [|keys] eqn:Ek; [done|].
  destruct (subnet_alloc_free net_idx s i sub Ha Hi E) as [Hu Hall].
  eapply subnets_ok_alter; [reflexivity|done|]. intros x Hx. assert (x = sub) as -> by congruence.
  split; [|right; right; done].
  pose proof (Forall_lookup_1 _ _ _ _ (proj1 Hs) Hi) as Hsub. unfold sub_ok in *. rewrite Hu in Hsub.
  cbn in *. rewrite (proj2 (Z.eqb_neq _ _) Hn). left.
  split; [done|]. split; [by eapply net_keys_create_valid|done].
Qed.

Lemma subnet_update_ok net_idx key s :
  net_idx <> BT_MESH_KEY_UNUSED -> subnets_ok s ->
  subnets_ok (bt_mesh_subnet_update config_proxy net_idx key s).2.
Proof.
  intros Hn Hs. unfold bt_mesh_subnet_update. destruct (bt_mesh_subnet_get net_idx s) as [i|] eqn:Hg; [|done].
  apply subnet_get_some in Hg as (sub & Hi & Hx). rewrite Hi.
  pose proof (Forall_lookup_1 _ _ _ _ (proj1 Hs) Hi) as Hsub. unfold sub_ok in Hsub.
  rewrite Hx, (proj2 (Z.eqb_neq _ _) Hn) in Hsub.
  destruct (sub_kr_phase sub =? BT_MESH_KR_NORMAL) eqn:E0.
  2: { destruct (sub_kr_phase sub =? BT_MESH_KR_PHASE_1) eqn:E1; [by destruct (decide _)|].
       destruct (sub_kr_phase sub =? BT_MESH_KR_PHASE_2) eqn:E2; [done|]. zbool.
       destruct Hsub as [(? & _)|[(? & _)|(? & _)]]; done. }
  destruct (decide _); [done|].
  destruct (net_keys_create config_proxy key) as [|keys] eqn:Ek; [done|]. cbn [snd].
  eapply (subnets_ok_alter (fun sub => sub <| sub_key1 := keys |> <| sub_kr_phase := BT_MESH_KR_PHASE_1 |>) i s).
  - unfold key_refresh. rewrite subs_alter_sub, list_lookup_alter_eq, Hi. cbn [fmap option_fmap option_map].
    change (BT_MESH_KR_PHASE_1 =? BT_MESH_KR_PHASE_1) with true. cbv iota.
    rewrite !subs_event, !subs_alter_sub. by rewrite alter_alter.
  - done.
  - intros x Hx'. assert (x = sub) as -> by congruence. split; [|right; by left].
    zbool. unfold sub_ok. cbn. rewrite Hx, (proj2 (Z.eqb_neq _ _) Hn). right. left. split; [done|].
    split; [|by eapply net_keys_create_valid].
    destruct Hsub as [(_ & H & _)|[(H & _)|(H & _)]]; [done|rewrite E0 in H; discriminate H..].
Qed.

Lemma subnet_del_ok i s : subnets_ok s -> subnets_ok (subnet_del i s).
Proof.
  intros Hs. unfold subnet_del. destruct (subs s !! i) as [sub|]; [|done].
  eapply subnets_ok_alter; [reflexivity|done|]. intros x _. split; [done|by left].
Qed.

Lemma transition_phases mask phase :
  mask = 8 \/ mask = 12 -> 0 <= phase -> Z.testbit mask phase = true ->
  phase = 3 \/ (mask = 12 /\ phase = 2).
Proof.
  intros Hm Hp Ht. assert (phase <= 3) as H3.
  { destruct (Z_le_gt_dec phase 3); [done|]. rewrite Z.bits_above_log2 in Ht; [done|lia|].
    destruct Hm as [-> | ->]; cbn; lia. }
  assert (phase = 0 \/ phase = 1 \/ phase = 2 \/ phase = 3) as [-> | [-> | [-> | ->]]] by lia;
    destruct Hm as [-> | ->]; auto; discriminate Ht.
Qed.

Lemma kr_phase_set_ok net_idx phase s :
  net_idx <> BT_MESH_KEY_UNUSED -> 0 <= phase -> subnets_ok s ->
  subnets_ok (bt_mesh_subnet_kr_phase_set net_idx phase s).2.
Proof.
  intros Hn Hp Hs. unfold bt_mesh_subnet_kr_phase_set.
  destruct (bt_mesh_subnet_get net_idx s) as [i|] eqn:Hg; [|done].
  apply subnet_get_some in Hg as (sub & Hi & Hx). rewrite Hi.
  destruct (phase =? sub_kr_phase sub); [done|].
  destruct (valid_transitions !! Z.to_nat (sub_kr_phase sub)) as [mask|] eqn:Em; [|done].
  destruct (Z.testbit mask phase) eqn:Et; [|done]. cbn [snd].
  apply (key_refresh_ok i phase s sub Hs Hi); [unfold sub_used; by rewrite Hx|].
  pose proof (Forall_lookup_1 _ _ _ _ (proj1 Hs) Hi) as Hsub. unfold sub_ok in Hsub.
  rewrite Hx, (proj2 (Z.eqb_neq _ _) Hn) in Hsub.
  destruct Hsub as [(E & _)|[(E & _)|(E & _)]]; rewrite E in Em; injection Em as <-.
  - right. by destruct (transition_phases 8 phase) as [|[? _]]; auto.
  - destruct (transition_phases 12 phase) as [|[_ ?]]; auto.
  - right. by destruct (transition_phases 8 phase) as [|[? _]]; auto.
Qed.

Lemma kr_update_ok i kr_flag new_key s :
  subnets_ok s -> (forall sub, subs s !! i = Some sub -> sub_used sub) ->
  subnets_ok (bt_mesh_kr_update i kr_flag new_key s).
Proof.
  intros Hs Hu. unfold bt_mesh_kr_update. destruct (subs s !! i) as [sub|] eqn:Hi; [|done].
  destruct new_key; cbn [negb]; [|done]. specialize (Hu sub eq_refl).
  destruct (sub_kr_phase sub =? BT_MESH_KR_PHASE_1) eqn:E1; zbool.
  - apply (key_refresh_ok i _ s sub Hs Hi Hu). destruct kr_flag; [left; done|by right].
  - destruct (_ && _); [|done]. apply (key_refresh_ok i _ s sub Hs Hi Hu). by right.
Qed.

(** The calls of [bt_mesh_subnet_set]: provisioning, with and without a key refresh
    in progress, and [net_key_set]. *)
Definition set_args_ok (kr_phase : Z) (old_key new_key : option bytes) : Prop :=
  (kr_phase = BT_MESH_KR_NORMAL /\ is_Some old_key /\ new_key = None) \/
  (kr_phase = BT_MESH_KR_PHASE_1 /\ is_Some old_key /\ is_Some new_key) \/
  (kr_phase = BT_MESH_KR_PHASE_2 /\ is_Some new_key).

Lemma subnet_set_ok net_idx kr_phase old_key new_key s :
  net_idx <> BT_MESH_KEY_UNUSED -> set_args_ok kr_phase old_key new_key -> subnets_ok s ->
  subnets_ok (bt_mesh_subnet_set config_proxy net_idx kr_phase old_key new_key s).2.
Proof.
  intros Hn Ha Hs. unfold bt_mesh_subnet_set. destruct (subnet_alloc net_idx s) as [i|] eqn:Hl; [|done].
  destruct (subs s !! i) as [sub|] eqn:Hi; [|done].
  destruct (sub_net_idx sub =? net_idx) eqn:E; zbool; [done|].
  destruct (subnet_alloc_free net_idx s i sub Hl Hi E) as [Hu Hall].
  pose proof (Forall_lookup_1 _ _ _ _ (proj1 Hs) Hi) as Hsub. unfold sub_ok in Hsub. rewrite Hu in Hsub.
  cbn in Hsub.
  match goal with |- context [match ?c with inl _ => _ | inr k0 => _ end] => destruct c as [|k0] eqn:E0; [done|] end.
  match goal with |- context [match ?c with inl _ => _ | inr k1 => _ end] => destruct c as [|k1] eqn:E1 end.
  - eapply subnets_ok_alter; [reflexivity|done|]. intros x Hx. assert (x = sub) as -> by congruence.
    split; [|right; by left]. unfold sub_ok. cbn. by rewrite Hu.
  - eapply subnets_ok_alter; [reflexivity|done|]. intros x _. split; [|right; right; done].
    unfold sub_ok. cbn. rewrite (proj2 (Z.eqb_neq _ _) Hn).
    assert (is_Some old_key -> keys_valid k0 = true) as V0
      by (intros [k ->]; by eapply net_keys_create_valid).
    assert (is_Some new_key -> keys_valid k1 = true) as V1
      by (intros [k ->]; by eapply net_keys_create_valid).
    destruct Ha as [(-> & H0 & ->)|[(-> & H0 & H1)|(-> & H1)]].
    + left. split; [done|]. split; [by apply V0|]. by injection E1 as <-.
    + right. left. auto.
    + right. right. auto.
Qed.

Lemma net_keys_reset_ok n i s : subnets_ok s -> subnets_ok (net_keys_reset_loop n i s).
Proof.
  revert i s. induction n as [|n IH]; intros i s Hs; [done|]. cbn [net_keys_reset_loop]. apply IH.
  destruct (subs s !! i); [|done]. destruct (negb _); [by apply subnet_del_ok|done].
Qed.

Lemma node_id_set_ok net_idx node_id s :
  subnets_ok s -> subnets_ok (bt_mesh_subnet_node_id_set config_proxy net_idx node_id s).2.
Proof.
  intros Hs. unfold bt_mesh_subnet_node_id_set. destruct node_id; try done;
    (destruct (bt_mesh_subnet_get net_idx s) as [i|]; [|done]; destruct config_proxy; cbn [negb]; [|done];
     eapply subnets_ok_alter; [reflexivity|done|]; intros x Hx; split; [|right; by left];
     exact (Forall_lookup_1 _ _ _ _ (proj1 Hs) Hx)).
Qed.

(** One operation on the table. *)
Inductive subnet_step (s : subnets) : subnets -> Prop :=
| StepAdd net_idx key :
    net_idx <> BT_MESH_KEY_UNUSED -> subnet_step s (bt_mesh_subnet_add config_proxy net_idx key s).2
| StepUpdate net_idx key :
    net_idx <> BT_MESH_KEY_UNUSED -> subnet_step s (bt_mesh_subnet_update config_proxy net_idx key s).2
| StepDel net_idx : subnet_step s (bt_mesh_subnet_del net_idx s).2
| StepPhase net_idx phase :
    net_idx <> BT_MESH_KEY_UNUSED -> 0 <= phase -> subnet_step s (bt_mesh_subnet_kr_phase_set net_idx phase s).2
| StepBeacon i kr_flag new_key :
    (forall sub, subs s !! i = Some sub -> sub_used sub) ->
    subnet_step s (bt_mesh_kr_update i kr_flag new_key s)
| StepSet net_idx kr_phase old_key new_key :
    net_idx <> BT_MESH_KEY_UNUSED -> set_args_ok kr_phase old_key new_key ->
    subnet_step s (bt_mesh_subnet_set config_proxy net_idx kr_phase old_key new_key s).2
| StepNodeId net_idx node_id : subnet_step s (bt_mesh_subnet_node_id_set config_proxy net_idx node_id s).2
| StepReset : subnet_step s (bt_mesh_net_keys_reset s).

Inductive subnets_reachable (count : nat) : subnets -> Prop :=
| ReachInit : subnets_reachable count (subnets_init count)
| ReachStep s s' : subnets_reachable count s -> subnet_step s s' -> subnets_reachable count s'.

Lemma subnets_init_ok count : subnets_ok (subnets_init count).
Proof.
  split; cbn.
  - apply Forall_lookup_2. intros i x Hx. apply lookup_replicate in Hx as [-> _]. done.
  - intros i j a b Ha _ Hu. apply lookup_replicate in Ha as [-> _]. done.
Qed.

Lemma subnets_reachable_ok count s : subnets_reachable count s -> subnets_ok s.
Proof.
  induction 1 as [|s s' _ IH Hstep]; [apply subnets_init_ok|]. destruct Hstep.
  - by apply subnet_add_ok.
  - by apply subnet_update_ok.
  - unfold bt_mesh_subnet_del. destruct (bt_mesh_subnet_get net_idx s); [by apply subnet_del_ok|done].
  - by apply kr_phase_set_ok.
  - by apply kr_update_ok.
  - by apply subnet_set_ok.
  - by apply node_id_set_ok.
  - by apply net_keys_reset_ok.
Qed.

(** C21: Every subnet can always send and never accepts a revoked key.  In every
    table that provisioning, the configuration model, secure network beacons and the
    storage can produce, the key set selected for sending is valid in every phase of
    the key refresh procedure, outside the procedure the second key set is not valid,
    and no two subnets have the same index. *)
Theorem subnet_tx_key_valid count s i sub :
  subnets_reachable count s -> subs s !! i = Some sub -> sub_net_idx sub <> BT_MESH_KEY_UNUSED ->
  keys_valid (sub_keys (SUBNET_KEY_TX_IDX sub) sub) = true /\
  (sub_kr_phase sub = BT_MESH_KR_NORMAL -> keys_valid (sub_key1 sub) = false) /\
  (forall j b, subs s !! j = Some b -> sub_net_idx b = sub_net_idx sub -> j = i).
Proof.
  intros Hr Hi Hu. destruct (subnets_reachable_ok count s Hr) as [Hok Hd].
  pose proof (Forall_lookup_1 _ _ _ _ Hok Hi) as Hsub. unfold sub_ok in Hsub.
  rewrite (proj2 (Z.eqb_neq _ _) Hu) in Hsub. unfold SUBNET_KEY_TX_IDX, sub_keys.
  repeat split.
  - destruct Hsub as [(-> & ? & _)|[(-> & ? & _)|(-> & ?)]]; done.
  - intros E. destruct Hsub as [(_ & _ & ?)|[(E' & _)|(E' & _)]]; [done|rewrite E in E'; discriminate E'..].
  - intros j b Hb E. symmetry. apply (Hd i j sub b Hi Hb); [done|congruence].
Qed.

Lemma find_index_alter {A : Type} (p : A -> bool) (f : A -> A) (i : nat) (l : list A) :
  (forall x, p (f x) = p x) -> find_index p (alter f i l) = find_index p l.
Proof.
  intros Hp. revert i. induction l as [|x l IH]; intros [|i]; cbn; [done..| |].
  - by rewrite Hp.
  - by rewrite IH.
Qed.

Lemma get_alter net_idx f i s s' :
  (forall x, sub_net_idx (f x) = sub_net_idx x) -> subs s' = alter f i (subs s) ->
  bt_mesh_subnet_get net_idx s' = bt_mesh_subnet_get net_idx s.
Proof.
  intros Hf E. unfold bt_mesh_subnet_get. rewrite E. apply find_index_alter. intros x. by rewrite Hf.
Qed.

Lemma lookup_alter_same f i s s' (sub : bt_mesh_subnet) :
  subs s' = alter f i (subs s) -> subs s !! i = Some sub -> subs s' !! i = Some (f sub).
Proof. intros E H. by rewrite E, list_lookup_alter_eq, H. Qed.

Definition revoke_old (sub : bt_mesh_subnet) : bt_mesh_subnet :=
  sub <| sub_kr_phase := BT_MESH_KR_NORMAL |> <| sub_key0 := sub_key1 sub |>
      <| sub_key1 := (sub_key1 sub) <| keys_valid := false |> |>.

Lemma phase_1_to_2 net_idx s i sub :
  bt_mesh_subnet_get net_idx s = Some i -> subs s !! i = Some sub -> sub_kr_phase sub = BT_MESH_KR_PHASE_1 ->
  exists s', bt_mesh_subnet_kr_phase_set net_idx BT_MESH_KR_PHASE_2 s = (STATUS_SUCCESS, BT_MESH_KR_PHASE_2, s') /\
    subs s' = alter (fun sub => sub <| sub_kr_phase := BT_MESH_KR_PHASE_2 |>) i (subs s).
Proof.
  intros Hg Hi Hp. unfold bt_mesh_subnet_kr_phase_set. rewrite Hg, Hi, Hp. cbn [Z.eqb].
  assert (subs (key_refresh i BT_MESH_KR_PHASE_2 s) =
          alter (fun sub => sub <| sub_kr_phase := BT_MESH_KR_PHASE_2 |>) i (subs s)) as E
    by (unfold key_refresh; rewrite Hi; reflexivity).
  exists (key_refresh i BT_MESH_KR_PHASE_2 s). split; [|exact E].
  cbn. rewrite E, list_lookup_alter_eq, Hi. reflexivity.
Qed.

Lemma phase_2_to_3 net_idx s i sub :
  bt_mesh_subnet_get net_idx s = Some i -> subs s !! i = Some sub -> sub_kr_phase sub = BT_MESH_KR_PHASE_2 ->
  exists s', bt_mesh_subnet_kr_phase_set net_idx BT_MESH_KR_PHASE_3 s = (STATUS_SUCCESS, BT_MESH_KR_NORMAL, s') /\
    subs s' = alter revoke_old i (subs s).
Proof.
  intros Hg Hi Hp. unfold bt_mesh_subnet_kr_phase_set. rewrite Hg, Hi, Hp. cbn [Z.eqb].
  assert (subs (key_refresh i BT_MESH_KR_PHASE_3 s) =
          alter revoke_old i (subs s)) as E
    by (unfold key_refresh; rewrite Hi, Hp; reflexivity).
  exists (key_refresh i BT_MESH_KR_PHASE_3 s). split; [|exact E].
  cbn. rewrite E, list_lookup_alter_eq, Hi. reflexivity.
Qed.

Lemma update_starts net_idx s i sub key keys :
  bt_mesh_subnet_get net_idx s = Some i -> subs s !! i = Some sub ->
  sub_kr_phase sub = BT_MESH_KR_NORMAL -> take 16 key <> keys_net (sub_key0 sub) ->
  net_keys_create config_proxy key = inr keys ->
  exists s', bt_mesh_subnet_update config_proxy net_idx key s = (STATUS_SUCCESS, s') /\
    subs s' = alter (fun sub => sub <| sub_key1 := keys |> <| sub_kr_phase := BT_MESH_KR_PHASE_1 |>) i (subs s).
Proof.
  intros Hg Hi Hp Hk E. unfold bt_mesh_subnet_update. rewrite Hg, Hi, Hp, E. cbn [Z.eqb].
  rewrite decide_False by done. eexists. split; [reflexivity|].
  unfold key_refresh. rewrite subs_alter_sub, list_lookup_alter_eq, Hi. cbn [fmap option_fmap option_map].
  change (BT_MESH_KR_PHASE_1 =? BT_MESH_KR_PHASE_1) with true. cbv iota.
  rewrite !subs_event, !subs_alter_sub. by rewrite alter_alter.
Qed.

(** C24: The key refresh procedure replaces the key without a gap.  From a subnet in
    normal operation, a NetKey update with a new key keeps sending on the old key
    while both are accepted; phase 2 switches sending to the new key while both are
    accepted; phase 3 leaves the new key as the only one, back in normal operation. *)
Theorem key_refresh_procedure s net_idx i sub key keys :
  bt_mesh_subnet_get net_idx s = Some i -> subs s !! i = Some sub ->
  sub_kr_phase sub = BT_MESH_KR_NORMAL -> take 16 key <> keys_net (sub_key0 sub) ->
  net_keys_create config_proxy key = inr keys ->
  exists s1 s2 s3 p2 p3 a b c,
    bt_mesh_subnet_update config_proxy net_idx key s = (STATUS_SUCCESS, s1) /\
    bt_mesh_subnet_kr_phase_set net_idx BT_MESH_KR_PHASE_2 s1 = (STATUS_SUCCESS, p2, s2) /\
    bt_mesh_subnet_kr_phase_set net_idx BT_MESH_KR_PHASE_3 s2 = (STATUS_SUCCESS, p3, s3) /\
    subs s1 !! i = Some a /\ subs s2 !! i = Some b /\ subs s3 !! i = Some c /\
    sub_keys (SUBNET_KEY_TX_IDX a) a = sub_key0 sub /\ sub_key1 a = keys /\
    sub_keys (SUBNET_KEY_TX_IDX b) b = keys /\ sub_key0 b = sub_key0 sub /\ p2 = BT_MESH_KR_PHASE_2 /\
    sub_keys (SUBNET_KEY_TX_IDX c) c = keys /\ keys_valid (sub_key1 c) = false /\
    sub_kr_phase c = BT_MESH_KR_NORMAL /\ p3 = BT_MESH_KR_NORMAL.
Proof.
  intros Hg Hi Hp Hk E.
  destruct (update_starts net_idx s i sub key keys Hg Hi Hp Hk E) as (s1 & E1 & S1).
  pose proof (lookup_alter_same _ _ _ _ _ S1 Hi) as H1.
  assert (bt_mesh_subnet_get net_idx s1 = Some i) as Hg1
    by (erewrite get_alter; [exact Hg| |exact S1]; done).
  destruct (phase_1_to_2 net_idx s1 i _ Hg1 H1 eq_refl) as (s2 & E2 & S2).
  pose proof (lookup_alter_same _ _ _ _ _ S2 H1) as H2.
  assert (bt_mesh_subnet_get net_idx s2 = Some i) as Hg2
    by (erewrite get_alter; [exact Hg1| |exact S2]; done).
  destruct (phase_2_to_3 net_idx s2 i _ Hg2 H2 eq_refl) as (s3 & E3 & S3).
  pose proof (lookup_alter_same _ _ _ _ _ S3 H2) as H3.
  do 8 eexists. repeat (split; [eassumption || reflexivity|]). done.
Qed.

Lemma alloc_replicate net_idx i k n :
  net_idx <> BT_MESH_KEY_UNUSED ->
  find_or_free (fun s => sub_net_idx s =? net_idx) (fun s => sub_net_idx s =? BT_MESH_KEY_UNUSED) i (Some k)
    (replicate n subnet_zero) = Some k.
Proof.
  intros Hn. revert i. induction n as [|n IH]; intros i; [done|]. cbn [replicate find_or_free].
  rewrite (proj2 (Z.eqb_neq (sub_net_idx subnet_zero) net_idx)) by (cbn; congruence). apply IH.
Qed.

(** The first subnet of an empty table. *)
Lemma subnet_set_init count net_idx kr_phase old_key new_key :
  net_idx <> BT_MESH_KEY_UNUSED ->
  bt_mesh_subnet_set config_proxy net_idx kr_phase old_key new_key (subnets_init (S count)) =
  match match old_key with None => inr keys_zero | Some k => net_keys_create config_proxy k end with
  | inl _ => (Some EIO, subnets_init (S count))
  | inr k0 =>
      match match new_key with None => inr keys_zero | Some k => net_keys_create config_proxy k end with
      | inl _ => (Some EIO, alter_sub (fun sub => sub <| sub_key0 := k0 |>) 0 (subnets_init (S count)))
      | inr k1 => (None, sub_event (EvBeaconUpdate net_idx)
                    (alter_sub (fun _ => mkSubnet net_idx kr_phase (initial_node_id config_proxy) k0 k1 beacon_zero) 0
                       (subnets_init (S count))))
      end
  end.
Proof.
  intros Hn. unfold bt_mesh_subnet_set, subnet_alloc, subnets_init.
  cbn [subs replicate find_or_free].
  rewrite (proj2 (Z.eqb_neq (sub_net_idx subnet_zero) net_idx)) by (cbn; congruence).
  change (sub_net_idx subnet_zero =? BT_MESH_KEY_UNUSED) with true. cbv iota.
  rewrite alloc_replicate by done. cbn [lookup list_lookup].
  rewrite (proj2 (Z.eqb_neq (sub_net_idx subnet_zero) net_idx)) by (cbn; congruence). reflexivity.
Qed.

(** A node provisioned during a key refresh accepts the all-zero network key
    after its first restart.  Provisioning in phase 2 creates the subnet without an
    old key, the storage writes the empty slot as sixteen zero bytes, and on the next
    start the stored zeros are taken for the old network key and marked valid. *)
Theorem zero_netkey_after_restart count net_idx key new_keys zero_keys :
  net_idx <> BT_MESH_KEY_UNUSED -> length key = 16%nat ->
  net_keys_create config_proxy key = inr new_keys -> net_keys_create config_proxy zero16 = inr zero_keys ->
  exists s1 val s2 sub,
    bt_mesh_subnet_set config_proxy net_idx BT_MESH_KR_PHASE_2 None (Some key) (subnets_init (S count))
      = (None, s1) /\
    store_subnet net_idx s1 = Some val /\
    net_key_set config_proxy net_idx val (subnets_init (S count)) = (None, s2) /\
    subs s2 !! 0%nat = Some sub /\ sub_net_idx sub = net_idx /\
    sub_key0 sub = zero_keys /\ keys_valid (sub_key0 sub) = true.
Proof.
  intros Hn Hk E1 E0. pose proof (net_keys_create_valid _ _ E0) as V.
  assert (keys_net new_keys = key) as Hnet.
  { unfold net_keys_create in E1. result_inv E1. subst. cbn. apply take_ge. lia. }
  set (s1 := sub_event (EvBeaconUpdate net_idx)
    (alter_sub (fun _ => mkSubnet net_idx BT_MESH_KR_PHASE_2 (initial_node_id config_proxy) keys_zero new_keys beacon_zero)
       0 (subnets_init (S count)))).
  exists s1, (BT_MESH_KR_PHASE_2, zero16, key).
  assert (bt_mesh_subnet_set config_proxy net_idx BT_MESH_KR_PHASE_2 None (Some key) (subnets_init (S count))
          = (None, s1)) as Es by (by rewrite subnet_set_init, E1).
  do 2 eexists. split; [exact Es|]. split; [|split].
  - unfold store_subnet, bt_mesh_subnet_get, s1. cbn. rewrite Z.eqb_refl. cbn. by rewrite Hnet.
  - unfold net_key_set. cbn [BT_MESH_KR_PHASE_2 BT_MESH_KR_NORMAL Z.eqb].
    rewrite subnet_set_init, E0, E1 by done. reflexivity.
  - by repeat split.
Qed.
End Invariant.

(** ** Examples *)

Definition subnet_example : subnets := Eval vm_compute in
  (@bt_mesh_subnet_add toy_cmac true 0 (replicate 16 7) (subnets_init 2)).2.

Lemma subnet_example_reachable : @subnets_reachable toy_cmac true 2 subnet_example.
Proof. eapply ReachStep; [apply ReachInit|]. by apply (@StepAdd toy_cmac true (subnets_init 2) 0 (replicate 16 7)). Qed.

Lemma subnet_tx_key_valid_witness :
  exists sub, subs subnet_example !! 0%nat = Some sub /\
  keys_valid (sub_keys (SUBNET_KEY_TX_IDX sub) sub) = true /\
  (sub_kr_phase sub = BT_MESH_KR_NORMAL -> keys_valid (sub_key1 sub) = false) /\
  (forall j b, subs subnet_example !! j = Some b -> sub_net_idx b = sub_net_idx sub -> j = 0%nat).
Proof.
  eexists. split; [reflexivity|].
  apply (@subnet_tx_key_valid toy_cmac true 2 subnet_example 0).
  - apply subnet_example_reachable.
  - reflexivity.
  - discriminate.
Defined.

Lemma key_refresh_procedure_witness :
  exists s1, @bt_mesh_subnet_update toy_cmac true 0 (replicate 16 8) subnet_example = (STATUS_SUCCESS, s1).
Proof.
  destruct (@key_refresh_procedure toy_cmac true subnet_example 0 0
              (match subs subnet_example !! 0%nat with Some x => x | None => subnet_zero end) (replicate 16 8)
              (match @net_keys_create toy_cmac true (replicate 16 8) with inr k => k | inl _ => keys_zero end))
    as (s1 & _ & _ & _ & _ & _ & _ & _ & E & _).
  - reflexivity.
  - reflexivity.
  - reflexivity.
  - discriminate.
  - vm_compute. reflexivity.
  - by exists s1.
Defined.

Lemma zero_netkey_after_restart_witness :
  exists s1 val s2 sub,
    @bt_mesh_subnet_set toy_cmac true 0 BT_MESH_KR_PHASE_2 None (Some (replicate 16 7)) (subnets_init 2)
      = (None, s1) /\
    store_subnet 0 s1 = Some val /\ @net_key_set toy_cmac true 0 val (subnets_init 2) = (None, s2) /\
    subs s2 !! 0%nat = Some sub /\ sub_net_idx sub = 0 /\
    inr (sub_key0 sub) = @net_keys_create toy_cmac true zero16 /\ keys_valid (sub_key0 sub) = true.
Proof.
  destruct (@zero_netkey_after_restart toy_cmac true 1 0 (replicate 16 7)
              (match @net_keys_create toy_cmac true (replicate 16 7) with inr k => k | inl _ => keys_zero end)
              (match @net_keys_create toy_cmac true zero16 with inr k => k | inl _ => keys_zero end))
    as (s1 & val & s2 & sub & H1 & H2 & H3 & H4 & H5 & H6 & H7).
  - discriminate.
  - reflexivity.
  - vm_compute. reflexivity.
  - vm_compute. reflexivity.
  - exists s1, val, s2, sub. rewrite H6. by repeat split.
Defined.
