(* ===== verification/AppKeys.v ===== *)
(** * Application keys

    Model of [subsys/bluetooth/mesh/app_keys.c] and the storage of application keys of
    [settings.c]: the table of keys bound to subnets, its operations, the reaction to
    key refresh of a subnet, and the choice of the key for sending and receiving.  A
    pointer into the table is an index; notifications and storage requests are an
    event log. *)

From S2P Require Import Prelude ByteOrder MeshDefs Cdb NetBuf Access Rpl Ccm MeshCrypto Subnet.

(** ** Data *)

Record bt_mesh_app_cred : Type := mkAppCred { cred_id : Z; cred_val : bytes }.

#[export] Instance bt_mesh_app_cred_eta : Eta bt_mesh_app_cred := fun c => mkAppCred (cred_id c) (cred_val c).

Record bt_mesh_app_key : Type := mkAppKey {
  app_net_idx : Z;
  app_idx : Z;
  app_updated : bool;
  app_key0 : bt_mesh_app_cred;
  app_key1 : bt_mesh_app_cred;
}.

#[export] Instance bt_mesh_app_key_eta : Eta bt_mesh_app_key := fun a =>
  mkAppKey (app_net_idx a) (app_idx a) (app_updated a) (app_key0 a) (app_key1 a).

Definition app_cred_zero : bt_mesh_app_cred := mkAppCred 0 zero16.
Definition app_key_zero : bt_mesh_app_key :=
  mkAppKey BT_MESH_KEY_UNUSED BT_MESH_KEY_UNUSED false app_cred_zero app_cred_zero.

Inductive app_event : Type :=
| EvAppKey (idx net_idx : Z) (evt : bt_mesh_key_evt)
| EvStoreAppKey (idx : Z)
| EvClearAppKey (idx : Z).

Record app_keys : Type := mkApps { apps : list bt_mesh_app_key; app_log : list app_event }.

#[export] Instance app_keys_eta : Eta app_keys := fun s => mkApps (apps s) (app_log s).

Definition alter_app (f : bt_mesh_app_key -> bt_mesh_app_key) (i : nat) (s : app_keys) : app_keys :=
  s <| apps := alter f i (apps s) |>.
Definition app_event_log (e : app_event) (s : app_keys) : app_keys := s <| app_log := app_log s ++ [e] |>.

Definition apps_init (count : nat) : app_keys := mkApps (replicate count app_key_zero) [].

(** ** Operations *)

Section AppKeys.
Context {cmac : Cmac}.

Definition app_key_evt (a : bt_mesh_app_key) (evt : bt_mesh_key_evt) (s : app_keys) : app_keys :=
  app_event_log (EvAppKey (app_idx a) (app_net_idx a) evt) s.

Definition app_get (idx : Z) (s : app_keys) : option nat := find_index (fun a => app_idx a =? idx) (apps s).

(** The slot with this index, or else the first unused one. *)
Definition app_key_alloc (idx : Z) (s : app_keys) : option nat :=
  find_or_free (fun a => app_idx a =? idx) (fun a => app_idx a =? BT_MESH_KEY_UNUSED) 0 None (apps s).

(** [updated] keeps its value. *)
Definition app_key_del (i : nat) (s : app_keys) : app_keys :=
  match apps s !! i with
  | None => s
  | Some a =>
      alter_app (fun a => a <| app_net_idx := BT_MESH_KEY_UNUSED |> <| app_idx := BT_MESH_KEY_UNUSED |>
                            <| app_key0 := app_cred_zero |> <| app_key1 := app_cred_zero |>) i
        (app_key_evt a BT_MESH_KEY_DELETED (app_event_log (EvClearAppKey (app_idx a)) s))
  end.

Definition app_key_revoke (i : nat) (s : app_keys) : app_keys :=
  match apps s !! i with
  | None => s
  | Some a =>
      if negb (app_updated a) then s
      else app_key_evt a BT_MESH_KEY_REVOKED (app_event_log (EvStoreAppKey (app_idx a))
             (alter_app (fun a => a <| app_key0 := app_key1 a |> <| app_key1 := app_cred_zero |>
                                    <| app_updated := false |>) i s))
  end.

Definition bt_mesh_app_key_add (idx net_idx : Z) (key : bytes) (subs : subnets) (s : app_keys)
    : mesh_status * app_keys :=
  match bt_mesh_subnet_get net_idx subs with
  | None => (STATUS_INVALID_NETKEY, s)
  | Some _ =>
      match app_key_alloc idx s ≫= fun i => (i,.) <$> apps s !! i with
      | None => (STATUS_INSUFF_RESOURCES, s)
      | Some (i, a) =>
          if app_idx a =? idx then
            if negb (app_net_idx a =? net_idx) then (STATUS_INVALID_BINDING, s)
            else if decide (take 16 key = cred_val (app_key0 a)) then (STATUS_SUCCESS, s)
            else (STATUS_IDX_ALREADY_STORED, s)
          else match bt_mesh_app_id key with
          | inl _ => (STATUS_CANNOT_SET, s)
          | inr id =>
              (STATUS_SUCCESS,
               app_event_log (EvAppKey idx net_idx BT_MESH_KEY_ADDED) (app_event_log (EvStoreAppKey idx)
                 (alter_app (fun a => a <| app_net_idx := net_idx |> <| app_idx := idx |>
                                        <| app_updated := false |>
                                        <| app_key0 := mkAppCred id (take 16 key) |>) i s)))
          end
      end
  end.

Definition bt_mesh_app_key_get (idx : Z) (s : app_keys) : option nat := app_get idx s.

Definition bt_mesh_app_key_update (idx net_idx : Z) (key : bytes) (table : subnets) (s : app_keys)
    : mesh_status * app_keys :=
  match app_get idx s ≫= fun i => (i,.) <$> apps s !! i with
  | None => (STATUS_INVALID_APPKEY, s)
  | Some (i, a) =>
      if negb (net_idx =? BT_MESH_KEY_UNUSED) && negb (app_net_idx a =? net_idx)
      then (STATUS_INVALID_BINDING, s)
      else match bt_mesh_subnet_get (app_net_idx a) table ≫= fun j => subs table !! j with
      | None => (STATUS_INVALID_NETKEY, s)
      | Some sub =>
          if negb (sub_kr_phase sub =? BT_MESH_KR_PHASE_1) then (STATUS_CANNOT_UPDATE, s)
          else if app_updated a then
            if decide (cred_val (app_key1 a) = take 16 key) then (STATUS_SUCCESS, s)
            else (STATUS_IDX_ALREADY_STORED, s)
          else match bt_mesh_app_id key with
          | inl _ => (STATUS_CANNOT_UPDATE, s)
          | inr id =>
              (STATUS_SUCCESS,
               app_event_log (EvAppKey idx (app_net_idx a) BT_MESH_KEY_UPDATED) (app_event_log (EvStoreAppKey idx)
                 (alter_app (fun a => a <| app_updated := true |>
                                        <| app_key1 := mkAppCred id (take 16 key) |>) i s)))
          end
      end
  end.

Definition bt_mesh_app_key_del (idx net_idx : Z) (table : subnets) (s : app_keys) : mesh_status * app_keys :=
  if negb (net_idx =? BT_MESH_KEY_UNUSED) && negb (bt_mesh_subnet_exists net_idx table)
  then (STATUS_INVALID_NETKEY, s)
  else match app_get idx s ≫= fun i => (i,.) <$> apps s !! i with
  | None => (STATUS_SUCCESS, s)
  | Some (i, a) =>
      if negb (net_idx =? BT_MESH_KEY_UNUSED) && negb (net_idx =? app_net_idx a)
      then (STATUS_INVALID_BINDING, s)
      else (STATUS_SUCCESS, app_key_del i s)
  end.

(** A key from the storage.  On an error the bytes already copied stay. *)
Definition bt_mesh_app_key_set (idx net_idx : Z) (old_key : bytes) (new_key : option bytes) (s : app_keys)
    : ret_code * app_keys :=
  match app_key_alloc idx s ≫= fun i => (i,.) <$> apps s !! i with
  | None => (Some ENOMEM, s)
  | Some (i, a) =>
      if app_idx a =? idx then (None, s)
      else
        let s := alter_app (fun a => a <| app_key0 := (app_key0 a) <| cred_val := take 16 old_key |> |>) i s in
        match bt_mesh_app_id old_key with
        | inl _ => (Some EIO, s)
        | inr id =>
            let s := alter_app (fun a => a <| app_key0 := (app_key0 a) <| cred_id := id |> |>) i s in
            let finish s := alter_app (fun a => a <| app_net_idx := net_idx |> <| app_idx := idx |>
              <| app_updated := match new_key with Some _ => true | None => false end |>) i s in
            match new_key with
            | None => (None, finish s)
            | Some new =>
                let s := alter_app (fun a => a <| app_key1 := (app_key1 a) <| cred_val := take 16 new |> |>) i s in
                match bt_mesh_app_id new with
                | inl _ => (Some EIO, s)
                | inr id => (None, finish (alter_app
                    (fun a => a <| app_key1 := (app_key1 a) <| cred_id := id |> |>) i s))
                end
            end
        end
  end.

Definition bt_mesh_app_key_exists (idx : Z) (s : app_keys) : bool := existsb (fun a => app_idx a =? idx) (apps s).

Definition bt_mesh_app_keys_get (net_idx : Z) (max skip : nat) (s : app_keys) : errno + list Z :=
  let found := map app_idx (List.filter (fun a => negb (app_idx a =? BT_MESH_KEY_UNUSED)
                 && ((net_idx =? BT_MESH_KEY_ANY) || (app_net_idx a =? net_idx))) (apps s)) in
  if (length (drop skip found) <=? max)%nat then inr (drop skip found) else inl ENOMEM.

(** Device keys: the local one, and, with [config_cdb], those of the database. *)
Context (config_cdb : bool).

(** The subnet, the key and its AID for a message to be sent; the outer [None] for a
    composition without elements. *)
Definition bt_mesh_keys_resolve (ctx : bt_mesh_msg_ctx) (comp : bt_mesh_comp) (cdb : bt_mesh_cdb)
    (dev_key : bytes) (table : subnets) (s : app_keys) : option (errno + (nat * bytes * Z)) :=
  if BT_MESH_IS_DEV_KEY (ctx_app_idx ctx) then
    match bt_mesh_subnet_get (ctx_net_idx ctx) table with
    | None => Some (inl EINVAL)
    | Some sub =>
        if ctx_app_idx ctx =? BT_MESH_KEY_DEV_REMOTE then
          match bt_mesh_elem_find comp (ctx_addr ctx) with
          | None => None
          | Some (Some _) => Some (inr (sub, dev_key, 0))
          | Some None =>
              if negb config_cdb then Some (inl EINVAL)
              else match bt_mesh_cdb_node_get (ctx_addr ctx) cdb ≫= fun i => cdb_nodes cdb !! i with
              | None => Some (inl EINVAL)
              | Some node => Some (inr (sub, node_dev_key node, 0))
              end
          end
        else Some (inr (sub, dev_key, 0))
    end
  else match app_get (ctx_app_idx ctx) s ≫= fun i => apps s !! i with
  | None => Some (inl EINVAL)
  | Some a =>
      match bt_mesh_subnet_get (app_net_idx a) table ≫= fun j => (j,.) <$> subs table !! j with
      | None => Some (inl EINVAL)
      | Some (j, sub) =>
          let cred := if (sub_kr_phase sub =? BT_MESH_KR_PHASE_2) && app_updated a
                      then app_key1 a else app_key0 a in
          Some (inr (j, cred_val cred, cred_id cred))
      end
  end.

(** [cb key] tries a key and returns whether it fits. *)
Section Find.
Context {S : Type} (cb : bytes -> ST S bool).

(** The key tried for a received message. *)
Definition rx_cred (new_key : bool) (a : bt_mesh_app_key) : bt_mesh_app_cred :=
  if new_key && app_updated a then app_key1 a else app_key0 a.

Fixpoint app_key_find_loop (aid net_idx : Z) (new_key : bool) (l : list bt_mesh_app_key) : ST S Z :=
  match l with
  | [] => mret BT_MESH_KEY_UNUSED
  | a :: l =>
      if (app_idx a =? BT_MESH_KEY_UNUSED) || negb (app_net_idx a =? net_idx)
         || negb (cred_id (rx_cred new_key a) =? aid)
      then app_key_find_loop aid net_idx new_key l
      else
        ok ← cb (cred_val (rx_cred new_key a));
        if ok : bool then mret (app_idx a) else app_key_find_loop aid net_idx new_key l
  end.

Definition bt_mesh_app_key_find (dev : bool) (aid : Z) (rx : bt_mesh_net_rx) (cdb : bt_mesh_cdb)
    (dev_key : bytes) (table : subnets) (s : app_keys) : ST S Z :=
  if dev then
    remote ← (if config_cdb && negb (bool_decide (rx_net_if rx = BT_MESH_NET_IF_LOCAL)) then
                match bt_mesh_cdb_node_get (rx_addr rx) cdb ≫= fun i => cdb_nodes cdb !! i with
                | None => mret false
                | Some node => cb (node_dev_key node)
                end
              else mret false);
    if remote : bool then mret BT_MESH_KEY_DEV_REMOTE
    else if BT_MESH_ADDR_IS_UNICAST (ctx_recv_dst (rx_ctx rx)) then
      ok ← cb dev_key;
      mret (if ok : bool then BT_MESH_KEY_DEV_LOCAL else BT_MESH_KEY_UNUSED)
    else mret BT_MESH_KEY_UNUSED
  else
    sub ← need (subs table !! rx_sub rx);
    app_key_find_loop aid (sub_net_idx sub) (rx_new_key rx) (apps s).
End Find.

(** One slot, for the event of the subnet [net_idx]. *)
Definition subnet_evt_app (net_idx : Z) (evt : bt_mesh_key_evt) (i : nat) (s : app_keys) : app_keys :=
  match apps s !! i with
  | None => s
  | Some a =>
      if (app_idx a =? BT_MESH_KEY_UNUSED) || negb (app_net_idx a =? net_idx) then s
      else match evt with
      | BT_MESH_KEY_DELETED => app_key_del i s
      | BT_MESH_KEY_REVOKED => app_key_revoke i s
      | BT_MESH_KEY_SWAPPED => if app_updated a then app_key_evt a BT_MESH_KEY_SWAPPED s else s
      | _ => s
      end
  end.

Fixpoint subnet_evt_loop (net_idx : Z) (evt : bt_mesh_key_evt) (n i : nat) (s : app_keys) : app_keys :=
  match n with
  | O => s
  | S n => subnet_evt_loop net_idx evt n (S i) (subnet_evt_app net_idx evt i s)
  end.

Definition app_subnet_evt (net_idx : Z) (evt : bt_mesh_key_evt) (s : app_keys) : app_keys :=
  match evt with
  | BT_MESH_KEY_UPDATED | BT_MESH_KEY_ADDED => s
  | _ => subnet_evt_loop net_idx evt (length (apps s)) 0 s
  end.

Fixpoint app_keys_reset_loop (n i : nat) (s : app_keys) : app_keys :=
  match n with
  | O => s
  | S n =>
      app_keys_reset_loop n (S i)
        (match apps s !! i with
         | Some a => if app_idx a =? BT_MESH_KEY_UNUSED then s else app_key_del i s
         | None => s
         end)
  end.

Definition bt_mesh_app_keys_reset (s : app_keys) : app_keys := app_keys_reset_loop (length (apps s)) 0 s.

End AppKeys.

(** ** The two key tables together *)

(** The application keys react to the events the subnets send. *)
Definition deliver_one (s : app_keys) (e : subnet_event) : app_keys :=
  match e with EvSubnet net_idx evt => app_subnet_evt net_idx evt s | _ => s end.

Definition deliver (evts : list subnet_event) (s : app_keys) : app_keys := foldl deliver_one s evts.

Definition app_used (a : bt_mesh_app_key) : Prop := app_idx a <> BT_MESH_KEY_UNUSED.

#[export] Instance app_used_dec a : Decision (app_used a).
Proof. unfold app_used. apply _. Defined.

(** The effect of a subnet event on one slot. *)
Definition evt_effect (net_idx : Z) (evt : bt_mesh_key_evt) (a : bt_mesh_app_key) : bt_mesh_app_key :=
  if (app_idx a =? BT_MESH_KEY_UNUSED) || negb (app_net_idx a =? net_idx) then a
  else match evt with
  | BT_MESH_KEY_DELETED =>
      a <| app_net_idx := BT_MESH_KEY_UNUSED |> <| app_idx := BT_MESH_KEY_UNUSED |>
        <| app_key0 := app_cred_zero |> <| app_key1 := app_cred_zero |>
  | BT_MESH_KEY_REVOKED =>
      if app_updated a
      then a <| app_key0 := app_key1 a |> <| app_key1 := app_cred_zero |> <| app_updated := false |> else a
  | _ => a
  end.

Lemma subnet_evt_app_effect net_idx evt i s :
  apps (subnet_evt_app net_idx evt i s) = alter (evt_effect net_idx evt) i (apps s).
Proof.
  assert (forall a, apps s !! i = Some a -> evt_effect net_idx evt a = a ->
            alter (evt_effect net_idx evt) i (apps s) = apps s) as Hid.
  { intros a Ha E. apply list_eq. intros j. destruct (decide (i = j)) as [<-|N].
    - rewrite list_lookup_alter_eq, Ha. cbn. by rewrite E.
    - by rewrite list_lookup_alter_ne. }
  unfold subnet_evt_app. destruct (apps s !! i) as [a|] eqn:Ha.
  2: { symmetry. apply list_eq. intros j. destruct (decide (i = j)) as [<-|N];
       [by rewrite list_lookup_alter_eq, Ha|by rewrite list_lookup_alter_ne]. }
  assert (forall f, evt_effect net_idx evt a = f a -> alter f i (apps s) = alter (evt_effect net_idx evt) i (apps s)) as Hf.
  { intros f E. apply list_eq. intros j. destruct (decide (i = j)) as [<-|N].
    - rewrite !list_lookup_alter_eq, Ha. cbn. by rewrite E.
    - by rewrite !list_lookup_alter_ne. }
  assert (forall s', apps s' = apps s -> evt_effect net_idx evt a = a ->
            apps s' = alter (evt_effect net_idx evt) i (apps s)) as Hs by (intros s' -> E; symmetry; by apply (Hid a)).
  destruct ((app_idx a =? BT_MESH_KEY_UNUSED) || negb (app_net_idx a =? net_idx)) eqn:E.
  { apply Hs; [done|]. unfold evt_effect. by rewrite E. }
  destruct evt; try (apply Hs; [done|]; unfold evt_effect; by rewrite E).
  - unfold app_key_del. rewrite Ha. apply Hf. unfold evt_effect. by rewrite E.
  - apply Hs; [by destruct (app_updated a)|]. unfold evt_effect. by rewrite E.
  - unfold app_key_revoke. rewrite Ha. destruct (app_updated a) eqn:U; cbn [negb].
    + apply Hf. unfold evt_effect. by rewrite E, U.
    + apply Hs; [done|]. unfold evt_effect. by rewrite E, U.
Qed.

Lemma subnet_evt_loop_effect net_idx evt n i s :
  (i + n)%nat = length (apps s) ->
  apps (subnet_evt_loop net_idx evt n i s) = take i (apps s) ++ map (evt_effect net_idx evt) (drop i (apps s)).
Proof.
  revert i s. induction n as [|n IH]; intros i s H; cbn [subnet_evt_loop].
  - rewrite drop_ge, take_ge by lia. by rewrite app_nil_r.
  - pose proof (subnet_evt_app_effect net_idx evt i s) as E.
    rewrite IH by (rewrite E, length_alter; lia). rewrite E.
    destruct (lookup_lt_is_Some_2 (apps s) i) as [a Ha]; [lia|].
    rewrite (drop_S _ _ _ Ha). cbn [map].
    assert (alter (evt_effect net_idx evt) i (apps s) !! i = Some (evt_effect net_idx evt a)) as Hb
      by (by rewrite list_lookup_alter_eq, Ha).
    rewrite (take_S_r _ _ _ Hb), <- app_assoc. cbn [app].
    rewrite take_alter, drop_alter, !decide_False by lia. done.
Qed.

Lemma app_subnet_evt_effect net_idx evt s :
  apps (app_subnet_evt net_idx evt s) = map (evt_effect net_idx evt) (apps s).
Proof.
  assert (forall l, (forall a, evt_effect net_idx evt a = a) -> map (evt_effect net_idx evt) l = l) as Hid.
  { intros l H. induction l as [|a l IH]; cbn; [done|]. by rewrite H, IH. }
  unfold app_subnet_evt. destruct evt.
  1, 3: symmetry; apply Hid; intros a; unfold evt_effect; by destruct (_ || _).
  all: rewrite subnet_evt_loop_effect by done; by rewrite take_0, drop_0.
Qed.

Section Consistency.
Context {cmac : Cmac} (config_proxy : bool).

(** The identifier is derived from the key. *)
Definition cred_ok (c : bt_mesh_app_cred) : Prop := bt_mesh_app_id (cred_val c) = inr (cred_id c).

(** A key in use: identifiers that fit, a subnet that exists, and a second key only
    while that subnet is being refreshed. *)
Definition app_ok (t : subnets) (a : bt_mesh_app_key) : Prop :=
  cred_ok (app_key0 a) /\ (app_updated a = true -> cred_ok (app_key1 a)) /\
  exists j sub, subs t !! j = Some sub /\ sub_used sub /\ sub_net_idx sub = app_net_idx a /\
    (app_updated a = true -> sub_kr_phase sub <> BT_MESH_KR_NORMAL).

Definition apps_unique (s : app_keys) : Prop :=
  forall i j a b, apps s !! i = Some a -> apps s !! j = Some b -> app_used a -> app_idx a = app_idx b -> i = j.

Definition keys_inv (t : subnets) (s : app_keys) : Prop :=
  apps_unique s /\ forall i a, apps s !! i = Some a -> app_used a -> app_ok t a.

(** A subnet of [t] other than those excluded by [P] is still there in [t'], and still
    being refreshed unless excluded by [Q]. *)
Definition keeps (P Q : Z -> Prop) (t t' : subnets) : Prop :=
  forall j sub, subs t !! j = Some sub -> sub_used sub -> P (sub_net_idx sub) ->
  exists j' sub', subs t' !! j' = Some sub' /\ sub_used sub' /\ sub_net_idx sub' = sub_net_idx sub /\
    (Q (sub_net_idx sub) -> sub_kr_phase sub <> BT_MESH_KR_NORMAL -> sub_kr_phase sub' <> BT_MESH_KR_NORMAL).

Lemma evt_effect_idx n evt a : app_used (evt_effect n evt a) -> app_idx (evt_effect n evt a) = app_idx a /\ app_used a.
Proof.
  unfold evt_effect, app_used. destruct ((app_idx a =? BT_MESH_KEY_UNUSED) || _) eqn:E; [done|]. zbool.
  destruct evt; try done. by destruct (app_updated a).
Qed.

(** What an event leaves of the invariant, slot by slot. *)
Lemma keys_inv_evt t t' s n evt :
  keys_inv t s ->
  (forall a, app_used (evt_effect n evt a) -> app_ok t a -> app_ok t' (evt_effect n evt a)) ->
  keys_inv t' (app_subnet_evt n evt s).
Proof.
  intros [Hu Hok] He. split.
  - intros i j a b Ha Hb Hau E. rewrite app_subnet_evt_effect in Ha, Hb.
    apply list_lookup_fmap_Some in Ha as (a' & -> & Ha'), Hb as (b' & -> & Hb').
    destruct (evt_effect_idx n evt a' Hau) as [Ea Hua].
    assert (app_used (evt_effect n evt b')) as Hbu by (unfold app_used in *; by rewrite <- E).
    destruct (evt_effect_idx n evt b' Hbu) as [Eb _]. apply (Hu i j a' b'); congruence.
  - intros i a Ha Hau. rewrite app_subnet_evt_effect in Ha. apply list_lookup_fmap_Some in Ha as (a' & -> & Ha').
    destruct (evt_effect_idx n evt a' Hau) as [_ Hua]. by apply He, (Hok i).
Qed.

Lemma app_ok_keeps P Q t t' a :
  keeps P Q t t' -> P (app_net_idx a) -> (app_updated a = true -> Q (app_net_idx a)) -> app_ok t a -> app_ok t' a.
Proof.
  intros K HP HQ (H0 & H1 & j & sub & Hj & Hu & E & Hph). split; [done|]. split; [done|].
  destruct (K j sub Hj Hu) as (j' & sub' & Hj' & Hu' & E' & Hph'); [by rewrite E|].
  exists j', sub'. rewrite E in *. split_and!; auto.
Qed.

Lemma keys_inv_keeps t t' s : keeps (fun _ => True) (fun _ => True) t t' -> keys_inv t s -> keys_inv t' s.
Proof. intros K [Hu Hok]. split; [done|]. intros i a Ha Hau.
  apply (app_ok_keeps (fun _ => True) (fun _ => True) t); eauto. Qed.

Lemma evt_effect_used n evt a :
  app_used a -> app_net_idx a = n -> evt_effect n evt a =
  match evt with
  | BT_MESH_KEY_DELETED =>
      a <| app_net_idx := BT_MESH_KEY_UNUSED |> <| app_idx := BT_MESH_KEY_UNUSED |>
        <| app_key0 := app_cred_zero |> <| app_key1 := app_cred_zero |>
  | BT_MESH_KEY_REVOKED =>
      if app_updated a
      then a <| app_key0 := app_key1 a |> <| app_key1 := app_cred_zero |> <| app_updated := false |> else a
  | _ => a
  end.
Proof. intros Hu <-. unfold evt_effect. by rewrite (proj2 (Z.eqb_neq _ _) Hu), Z.eqb_refl. Qed.

Lemma evt_effect_other n evt a : app_net_idx a <> n -> evt_effect n evt a = a.
Proof. intros H. unfold evt_effect. by rewrite (proj2 (Z.eqb_neq _ _) H), orb_true_r. Qed.

Lemma keys_inv_deleted t t' s n :
  keeps (fun m => m <> n) (fun _ => True) t t' -> keys_inv t s ->
  keys_inv t' (app_subnet_evt n BT_MESH_KEY_DELETED s).
Proof.
  intros K H. apply (keys_inv_evt t); [done|]. intros a Hu Hok.
  destruct (decide (app_net_idx a = n)) as [E|N].
  - destruct (evt_effect_idx n BT_MESH_KEY_DELETED a Hu) as [_ Hua]. by rewrite evt_effect_used in Hu.
  - rewrite evt_effect_other by done. by eapply app_ok_keeps.
Qed.

Lemma keys_inv_revoked t t' s n :
  keeps (fun _ => True) (fun m => m <> n) t t' -> keys_inv t s ->
  keys_inv t' (app_subnet_evt n BT_MESH_KEY_REVOKED s).
Proof.
  intros K H. apply (keys_inv_evt t); [done|]. intros a Hu Hok.
  destruct (decide (app_net_idx a = n)) as [E|N].
  - destruct (evt_effect_idx n BT_MESH_KEY_REVOKED a Hu) as [_ Hua]. rewrite evt_effect_used by done.
    destruct (app_updated a) eqn:U.
    + destruct Hok as (H0 & H1 & j & sub & Hj & Hus & En & _). split; [by apply H1|]. split; [done|].
      destruct (K j sub Hj Hus I) as (j' & sub' & ? & ? & E' & _). exists j', sub'.
      split_and!; [done..|cbn; congruence|done].
    + eapply app_ok_keeps; [done|done| |done]. by rewrite U.
  - rewrite evt_effect_other by done. by eapply app_ok_keeps.
Qed.

(** An operation on the subnets whose events keep the invariant. *)
Definition step_effect (t t' : subnets) : Prop :=
  exists evts, sub_log t' = sub_log t ++ evts /\ forall s, keys_inv t s -> keys_inv t' (deliver evts s).

Lemma step_effect_refl t : step_effect t t.
Proof. exists []. by rewrite app_nil_r. Qed.

Lemma step_effect_trans t1 t2 t3 : step_effect t1 t2 -> step_effect t2 t3 -> step_effect t1 t3.
Proof.
  intros (e1 & L1 & H1) (e2 & L2 & H2). exists (e1 ++ e2). split; [by rewrite L2, L1, app_assoc|].
  intros s Hs. unfold deliver. rewrite foldl_app. by apply H2, H1.
Qed.

(** A slot in use keeps its index, or an unused one is filled. *)
Lemma keeps_alter P Q f i t t' :
  subs t' = alter f i (subs t) ->
  (forall sub, subs t !! i = Some sub -> sub_used sub -> P (sub_net_idx sub) ->
     sub_net_idx (f sub) = sub_net_idx sub /\
     (Q (sub_net_idx sub) -> sub_kr_phase sub <> BT_MESH_KR_NORMAL -> sub_kr_phase (f sub) <> BT_MESH_KR_NORMAL)) ->
  keeps P Q t t'.
Proof.
  intros E Hf j sub Hj Hu HP. rewrite E. destruct (decide (i = j)) as [->|N].
  - destruct (Hf sub Hj Hu HP) as [Hi Hph]. exists j, (f sub). rewrite list_lookup_alter_eq, Hj.
    split_and!; [done| |done|done]. unfold sub_used in *. by rewrite Hi.
  - exists j, sub. rewrite list_lookup_alter_ne by done. by split_and!.
Qed.

Lemma effect_quiet f i t t' evts :
  subs t' = alter f i (subs t) -> sub_log t' = sub_log t ++ evts ->
  (forall s, deliver evts s = s) ->
  (forall sub, subs t !! i = Some sub -> sub_used sub ->
     sub_net_idx (f sub) = sub_net_idx sub /\
     (sub_kr_phase sub <> BT_MESH_KR_NORMAL -> sub_kr_phase (f sub) <> BT_MESH_KR_NORMAL)) ->
  step_effect t t'.
Proof.
  intros E L Hd Hf. exists evts. split; [done|]. intros s Hs. rewrite Hd.
  apply (keys_inv_keeps t); [|done]. apply (keeps_alter _ _ f i); [done|]. intros sub Hi Hu _.
  destruct (Hf sub Hi Hu). auto.
Qed.

Lemma subnet_del_effect i t : step_effect t (subnet_del i t).
Proof.
  unfold subnet_del. destruct (subs t !! i) as [sub|] eqn:Hi; [|apply step_effect_refl].
  exists [EvClearSubnet (sub_net_idx sub); EvLoopbackClear (sub_net_idx sub);
          EvSubnet (sub_net_idx sub) BT_MESH_KEY_DELETED].
  split; [cbn; by rewrite <- !app_assoc|]. intros s Hs. apply (keys_inv_deleted t); [|done].
  apply (keeps_alter _ _ (fun _ => subnet_zero) i); [done|]. intros x Hx _ HP. assert (x = sub) by congruence.
  by subst.
Qed.

Lemma key_refresh_effect i phase t sub :
  subs t !! i = Some sub -> 0 <= phase <= 3 -> phase <> BT_MESH_KR_NORMAL ->
  step_effect t (key_refresh i phase t).
Proof.
  intros Hi Hp Hn. unfold key_refresh. rewrite Hi. unfold BT_MESH_KR_NORMAL in Hn.
  assert (phase = 1 \/ phase = 2 \/ phase = 3) as [-> | [-> | ->]] by lia; cbn [Z.eqb].
  - eapply effect_quiet; [reflexivity|cbn; by rewrite <- !app_assoc|done|]. intros x Hx _. done.
  - exists [EvSubnet (sub_net_idx sub) BT_MESH_KEY_SWAPPED; EvStoreSubnet (sub_net_idx sub)].
    split; [cbn; by rewrite <- !app_assoc|]. intros s Hs. cbn [deliver foldl deliver_one].
    apply (keys_inv_evt t); [done|]. intros a Ha Hok.
    assert (evt_effect (sub_net_idx sub) BT_MESH_KEY_SWAPPED a = a) as -> by (unfold evt_effect; by destruct (_ || _)).
    eapply (app_ok_keeps (fun _ => True) (fun _ => True) t); [|done..].
    eapply keeps_alter; [reflexivity|]. intros x _ _ _. done.
  - destruct (sub_kr_phase sub =? BT_MESH_KR_NORMAL); [apply step_effect_refl|].
    exists [EvSubnet (sub_net_idx sub) BT_MESH_KEY_REVOKED; EvStoreSubnet (sub_net_idx sub)].
    split; [cbn; by rewrite <- !app_assoc|]. intros s Hs. apply (keys_inv_revoked t); [|done].
    eapply keeps_alter; [reflexivity|]. intros x Hx _ _. assert (x = sub) by congruence. subst. done.
Qed.

Lemma subnet_add_effect net_idx key t : step_effect t (bt_mesh_subnet_add config_proxy net_idx key t).2.
Proof.
  unfold bt_mesh_subnet_add. destruct (subnet_alloc net_idx t) as [i|] eqn:Ha; [|apply step_effect_refl].
  destruct (subs t !! i) as [sub|] eqn:Hi; [|apply step_effect_refl].
  destruct (sub_net_idx sub =? net_idx) eqn:E; zbool; [destruct (decide _); apply step_effect_refl|].
  destruct (net_keys_create config_proxy key) as [|keys]; [apply step_effect_refl|].
  eapply effect_quiet; [reflexivity|cbn; by rewrite <- !app_assoc|done|]. intros x Hx Hu.
  destruct (subnet_alloc_free net_idx t i x Ha Hx) as [Hn _]; [congruence|done].
Qed.

Lemma subnet_update_effect net_idx key t : step_effect t (bt_mesh_subnet_update config_proxy net_idx key t).2.
Proof.
  unfold bt_mesh_subnet_update. destruct (bt_mesh_subnet_get net_idx t) as [i|] eqn:Hg; [|apply step_effect_refl].
  apply subnet_get_some in Hg as (sub & Hi & Hx). rewrite Hi.
  assert (step_effect t (match net_keys_create config_proxy key with
    | inl _ => (STATUS_CANNOT_UPDATE, t)
    | inr keys => (STATUS_SUCCESS,
        key_refresh i BT_MESH_KR_PHASE_1 (alter_sub (fun sub => sub <| sub_key1 := keys |>) i t))
    end).2) as Hup.
  { destruct (net_keys_create config_proxy key) as [|keys]; [apply step_effect_refl|]. cbn [snd].
    apply (step_effect_trans _ (alter_sub (fun sub => sub <| sub_key1 := keys |>) i t)).
    - eapply (effect_quiet _ i _ _ []); [reflexivity|by rewrite app_nil_r|done|done].
    - eapply key_refresh_effect; [by rewrite subs_alter_sub, list_lookup_alter_eq, Hi|done|done]. }
  repeat (case_match || case_decide); try done; apply step_effect_refl.
Qed.

Lemma phase_set_effect net_idx phase t :
  0 <= phase -> step_effect t (bt_mesh_subnet_kr_phase_set net_idx phase t).2.
Proof.
  intros Hp. unfold bt_mesh_subnet_kr_phase_set.
  destruct (bt_mesh_subnet_get net_idx t) as [i|] eqn:Hg; [|apply step_effect_refl].
  apply subnet_get_some in Hg as (sub & Hi & Hx). rewrite Hi.
  destruct (phase =? sub_kr_phase sub); [apply step_effect_refl|].
  destruct (valid_transitions !! _) as [mask|] eqn:Em; [|apply step_effect_refl].
  destruct (Z.testbit mask phase) eqn:Et; [|apply step_effect_refl]. cbn [snd].
  assert (mask = 8 \/ mask = 12) as Hm.
  { destruct (Z.to_nat (sub_kr_phase sub)) as [|[|[|]]]; [injection Em as <-; auto..|discriminate Em]. }
  destruct (transition_phases mask phase Hm Hp Et) as [-> | [_ ->]]; by apply (key_refresh_effect i _ t sub Hi).
Qed.

Lemma kr_update_effect i kr_flag new_key t : step_effect t (bt_mesh_kr_update i kr_flag new_key t).
Proof.
  unfold bt_mesh_kr_update. destruct (subs t !! i) as [sub|] eqn:Hi; [|apply step_effect_refl].
  destruct (negb new_key); [apply step_effect_refl|].
  destruct (_ =? BT_MESH_KR_PHASE_1); [|destruct (_ && _); [|apply step_effect_refl]];
    eapply key_refresh_effect; try done; by destruct kr_flag.
Qed.

Lemma subnet_set_effect net_idx kr_phase old_key new_key t :
  step_effect t (bt_mesh_subnet_set config_proxy net_idx kr_phase old_key new_key t).2.
Proof.
  unfold bt_mesh_subnet_set. destruct (subnet_alloc net_idx t) as [i|] eqn:Ha; [|apply step_effect_refl].
  destruct (subs t !! i) as [sub|] eqn:Hi; [|apply step_effect_refl].
  destruct (sub_net_idx sub =? net_idx) eqn:E; zbool; [apply step_effect_refl|]. cbv zeta.
  match goal with |- context [match ?c with inl _ => _ | inr k0 => _ end] => destruct c as [|k0]; [apply step_effect_refl|] end.
  match goal with |- context [match ?c with inl _ => _ | inr k1 => _ end] => destruct c as [|k1] end.
  - eapply (effect_quiet _ i _ _ []); [reflexivity|by rewrite app_nil_r|done|done].
  - eapply effect_quiet; [reflexivity|reflexivity|done|]. intros x Hx Hu.
    destruct (subnet_alloc_free net_idx t i x Ha Hx) as [Hn _]; [congruence|done].
Qed.

Lemma node_id_effect net_idx node_id t :
  step_effect t (bt_mesh_subnet_node_id_set config_proxy net_idx node_id t).2.
Proof.
  unfold bt_mesh_subnet_node_id_set.
  repeat case_match; try apply step_effect_refl; (eapply effect_quiet; [reflexivity|reflexivity|done|done]).
Qed.

Lemma net_keys_reset_effect n i t : step_effect t (net_keys_reset_loop n i t).
Proof.
  revert i t. induction n as [|n IH]; intros i t; [apply step_effect_refl|]. cbn [net_keys_reset_loop].
  eapply step_effect_trans; [|apply IH]. destruct (subs t !! i); [|apply step_effect_refl].
  destruct (negb _); [apply subnet_del_effect|apply step_effect_refl].
Qed.

Lemma subnet_step_effect t t' : subnet_step config_proxy t t' -> step_effect t t'.
Proof.
  destruct 1.
  - apply subnet_add_effect.
  - apply subnet_update_effect.
  - unfold bt_mesh_subnet_del. destruct (bt_mesh_subnet_get net_idx t); [apply subnet_del_effect|apply step_effect_refl].
  - by apply phase_set_effect.
  - apply kr_update_effect.
  - apply subnet_set_effect.
  - apply node_id_effect.
  - apply net_keys_reset_effect.
Qed.

(** *** The operations on the application keys *)

Lemma app_alloc_free idx s i a :
  app_key_alloc idx s = Some i -> apps s !! i = Some a -> app_idx a <> idx ->
  app_idx a = BT_MESH_KEY_UNUSED /\ forall j b, apps s !! j = Some b -> app_idx b <> idx.
Proof.
  intros Ha Hi Hn. destruct (find_or_free_new _ _ _ _ _ Ha Hi) as [Hu Hall]; [by apply Z.eqb_neq|].
  split; [by apply Z.eqb_eq|]. intros j b Hb. by apply Z.eqb_neq, (Hall j).
Qed.

(** Changing one slot: the new content is unused, or fine with an index that is new or
    the same. *)
Lemma keys_inv_alter f i t s s' :
  apps s' = alter f i (apps s) -> keys_inv t s ->
  (forall a, apps s !! i = Some a -> app_used (f a) ->
     app_ok t (f a) /\
     ((app_used a /\ app_idx (f a) = app_idx a) \/ forall j b, apps s !! j = Some b -> app_idx b <> app_idx (f a))) ->
  keys_inv t s'.
Proof.
  intros Es [Hu Hok] Hf. split.
  - assert (forall j b y, apps s !! j = Some b -> j <> i -> apps s !! i = Some y -> app_used (f y) ->
              app_idx b = app_idx (f y) -> False) as Hx.
    { intros j b y Hb Hj Hy Hfu E. destruct (Hf y Hy Hfu) as [_ [[Hyu H]|H]]; [|by apply (H j b)].
      apply Hj. symmetry. apply (Hu i j y b Hy Hb Hyu). congruence. }
    intros j k a b Ha Hb Hau E. rewrite Es in Ha, Hb.
    apply lookup_alter_cases in Ha as [(-> & y & Hy & ->)|[Hj Ha]];
      apply lookup_alter_cases in Hb as [(-> & z & Hz & ->)|[Hk Hb]].
    + done.
    + exfalso. eapply (Hx k b y); eauto.
    + exfalso. apply (Hx j a z); [done..| |done]. unfold app_used in *. by rewrite <- E.
    + by eapply Hu.
  - intros j a Ha Hau. rewrite Es in Ha. apply lookup_alter_cases in Ha as [(-> & y & Hy & ->)|[Hj Ha]].
    + by apply Hf.
    + by apply (Hok j).
Qed.

Lemma keys_inv_del i t s : keys_inv t s -> keys_inv t (app_key_del i s).
Proof.
  intros H. unfold app_key_del. destruct (apps s !! i) as [a|]; [|done].
  eapply keys_inv_alter; [reflexivity|done|]. intros x _ Hx. done.
Qed.

Lemma app_slot_get {A : Type} (o : option nat) (l : list A) i a :
  (o ≫= fun i => (i,.) <$> l !! i) = Some (i, a) -> o = Some i /\ l !! i = Some a.
Proof. destruct o as [j|]; [|done]. cbn. destruct (l !! j) eqn:E; [|done]. cbn. by intros [= <- <-]. Qed.

Lemma app_id_bytes key id :
  length key = 16%nat -> bt_mesh_app_id key = inr id -> cred_ok (mkAppCred id (take 16 key)).
Proof. intros L H. unfold cred_ok. cbn [cred_val cred_id]. by rewrite take_ge by lia. Qed.

Lemma keys_inv_add idx net_idx key t s :
  idx <> BT_MESH_KEY_UNUSED -> net_idx <> BT_MESH_KEY_UNUSED -> length key = 16%nat ->
  keys_inv t s -> keys_inv t (bt_mesh_app_key_add idx net_idx key t s).2.
Proof.
  intros Hi Hn Hk H. unfold bt_mesh_app_key_add. destruct (bt_mesh_subnet_get net_idx t) as [j|] eqn:Hg; [|done].
  destruct (app_key_alloc idx s ≫= _) as [[i a]|] eqn:Ha; [|done]. apply app_slot_get in Ha as [Ha Hia].
  destruct (app_idx a =? idx) eqn:E; zbool; [by repeat (case_match || case_decide)|].
  destruct (bt_mesh_app_id key) as [|id] eqn:Eid; [done|].
  destruct (app_alloc_free idx s i a Ha Hia E) as [_ Hall]. apply subnet_get_some in Hg as (sub & Hj & Hx).
  eapply keys_inv_alter; [reflexivity|done|]. intros x Hx' _. split; [|right; done].
  split; [by apply app_id_bytes|]. split; [done|]. exists j, sub. split_and!; [done| |done|done].
  unfold sub_used. by rewrite Hx.
Qed.

Lemma keys_inv_update idx net_idx key t s :
  idx <> BT_MESH_KEY_UNUSED -> length key = 16%nat ->
  keys_inv t s -> keys_inv t (bt_mesh_app_key_update idx net_idx key t s).2.
Proof.
  intros Hi Hk H. unfold bt_mesh_app_key_update.
  destruct (app_get idx s ≫= _) as [[i a]|] eqn:Ha; [|done]. apply app_slot_get in Ha as [Ha Hia].
  destruct (_ && _); [done|]. apply find_index_Some in Ha as [(x & Hx & E) _]. zbool.
  assert (x = a) as -> by congruence.
  destruct (bt_mesh_subnet_get (app_net_idx a) t) as [j|] eqn:Hg; [|done].
  apply subnet_get_some in Hg as (sub & Hj & Hn). cbn. rewrite Hj.
  destruct (sub_kr_phase sub =? BT_MESH_KR_PHASE_1) eqn:Ep; cbn [negb]; [|done]. zbool.
  destruct (app_updated a); [by case_decide|].
  destruct (bt_mesh_app_id key) as [|id] eqn:Eid; [done|].
  assert (app_used a) as Hau by (unfold app_used; by rewrite E).
  destruct (proj2 H i a Hia Hau) as (H0 & _ & j' & sub' & Hj' & Hu' & En' & _).
  eapply keys_inv_alter; [reflexivity|done|]. intros y Hy _. assert (y = a) as -> by congruence.
  split; [|left; done]. split; [done|]. split; [intros _; by apply app_id_bytes|].
  exists j, sub. split_and!; [done| |done|intros _; by rewrite Ep].
  unfold sub_used in *. congruence.
Qed.

Lemma keys_inv_reset n i t s : keys_inv t s -> keys_inv t (app_keys_reset_loop n i s).
Proof.
  revert i s. induction n as [|n IH]; intros i s H; [done|]. cbn [app_keys_reset_loop]. apply IH.
  destruct (apps s !! i); [|done]. destruct (_ =? _); [done|by apply keys_inv_del].
Qed.

(** *** Both tables *)

(** One operation on the two tables.  The events of the subnets reach the application
    keys; key indexes and keys come from messages of the configuration model, 12 bits
    and 16 bytes. *)
Inductive keys_step : subnets * app_keys -> subnets * app_keys -> Prop :=
| KSubnet t t' evts s :
    subnet_step config_proxy t t' -> sub_log t' = sub_log t ++ evts -> keys_step (t, s) (t', deliver evts s)
| KAdd t s idx net_idx key :
    0 <= idx < 4096 -> 0 <= net_idx < 4096 -> length key = 16%nat ->
    keys_step (t, s) (t, (bt_mesh_app_key_add idx net_idx key t s).2)
| KUpdate t s idx net_idx key :
    0 <= idx < 4096 -> length key = 16%nat -> keys_step (t, s) (t, (bt_mesh_app_key_update idx net_idx key t s).2)
| KDel t s idx net_idx : keys_step (t, s) (t, (bt_mesh_app_key_del idx net_idx t s).2)
| KReset t s : keys_step (t, s) (t, bt_mesh_app_keys_reset s).

Inductive keys_reachable (subnet_count app_count : nat) : subnets * app_keys -> Prop :=
| KReachInit : keys_reachable subnet_count app_count (subnets_init subnet_count, apps_init app_count)
| KReachStep c c' : keys_reachable subnet_count app_count c -> keys_step c c' -> keys_reachable subnet_count app_count c'.

Lemma key_index_used idx : 0 <= idx < 4096 -> idx <> BT_MESH_KEY_UNUSED.
Proof. unfold BT_MESH_KEY_UNUSED. lia. Qed.
Hint Resolve key_index_used : core.

Lemma keys_step_inv c c' : keys_step c c' -> keys_inv c.1 c.2 -> keys_inv c'.1 c'.2.
Proof.
  intros Hst Hinv. destruct Hst as [t t' evts s Hs L| | | |]; cbn [fst snd] in *.
  - destruct (subnet_step_effect t t' Hs) as (evts' & L' & He).
    assert (evts = evts') as -> by (apply (app_inv_head (sub_log t)); congruence). by apply He.
  - by apply keys_inv_add; auto.
  - by apply keys_inv_update; auto.
  - unfold bt_mesh_app_key_del. repeat case_match; try done. by apply keys_inv_del.
  - by apply keys_inv_reset.
Qed.

Lemma keys_reachable_inv n m c :
  keys_reachable n m c -> subnets_reachable config_proxy n c.1 /\ keys_inv c.1 c.2.
Proof.
  induction 1 as [|c c' _ [Hr Hi] Hs].
  - split; [constructor|]. split; cbn.
    + intros i j a b Ha _ Hu. apply lookup_replicate in Ha as [-> _]. done.
    + intros i a Ha Hu. apply lookup_replicate in Ha as [-> _]. done.
  - split; [|by apply (keys_step_inv c)]. destruct Hs; cbn [fst] in *; [|done..]. by eapply ReachStep.
Qed.

(** An index that occurs is found at the slot where it occurs. *)
Lemma find_index_unique {A : Type} (p : A -> bool) (l : list A) i x :
  l !! i = Some x -> p x = true -> (forall j y, l !! j = Some y -> p y = true -> j = i) -> find_index p l = Some i.
Proof.
  intros Hi Hp Hu. apply find_index_Some. split; [eauto|]. intros j y Hj Hy.
  destruct (p y) eqn:E; [|done]. pose proof (Hu j y Hy E). lia.
Qed.

Lemma subnet_get_unique n t j sub :
  subnets_reachable config_proxy n t -> subs t !! j = Some sub -> sub_used sub ->
  bt_mesh_subnet_get (sub_net_idx sub) t = Some j.
Proof.
  intros Hr Hj Hu. apply subnets_reachable_ok in Hr as [_ Hd].
  apply (find_index_unique _ _ j sub); [done|by apply Z.eqb_refl|].
  intros k y Hk E. zbool. symmetry. by apply (Hd j k sub y).
Qed.

(** C19: The two key tables stay consistent.  However provisioning, configuration
    messages, key refresh beacons and resets interleave, every application key in use
    can be used to send: the key and the subnet chosen for it exist, the key identifier
    sent is the one derived from the key, a second key is present only while its subnet
    is being refreshed, and no two slots hold the same key index. *)
Theorem keys_consistent n m t s i a ctx config_cdb comp cdb dev_key :
  keys_reachable n m (t, s) -> apps s !! i = Some a -> app_idx a <> BT_MESH_KEY_UNUSED ->
  BT_MESH_IS_DEV_KEY (app_idx a) = false -> ctx_app_idx ctx = app_idx a ->
  (exists j sub key aid,
     bt_mesh_keys_resolve config_cdb ctx comp cdb dev_key t s = Some (inr (j, key, aid)) /\
     subs t !! j = Some sub /\ sub_net_idx sub = app_net_idx a /\ bt_mesh_app_id key = inr aid /\
     (app_updated a = true -> sub_kr_phase sub = BT_MESH_KR_PHASE_1 \/ sub_kr_phase sub = BT_MESH_KR_PHASE_2)) /\
  (forall k b, apps s !! k = Some b -> app_idx b = app_idx a -> k = i).
Proof.
  intros Hr Hi Hu Hdev Hctx. destruct (keys_reachable_inv n m _ Hr) as [Hsr [Huniq Hok]]. cbn [fst snd] in *.
  assert (forall k b, apps s !! k = Some b -> app_idx b = app_idx a -> k = i) as Hk.
  { intros k b Hb E. symmetry. by apply (Huniq i k a b). }
  split; [|done]. destruct (Hok i a Hi Hu) as (H0 & H1 & j & sub & Hj & Hsu & En & Hph).
  unfold bt_mesh_keys_resolve, app_get. rewrite Hctx, Hdev.
  rewrite (find_index_unique _ _ i a Hi (Z.eqb_refl _)) by (intros k y Hy E; zbool; by apply (Hk k y)).
  cbn [mbind option_bind]. rewrite Hi, <- En, (subnet_get_unique n t j sub Hsr Hj Hsu). cbn. rewrite Hj. cbn.
  do 4 eexists. split; [reflexivity|]. split_and!; [done..| |].
  - destruct (_ && _) eqn:E; [|done]. apply H1. by destruct (app_updated a); [|rewrite andb_false_r in E].
  - intros U. specialize (Hph U). apply subnets_reachable_ok in Hsr as [Hf _].
    pose proof (Forall_lookup_1 _ _ _ _ Hf Hj) as Hs. unfold sub_ok in Hs.
    rewrite (proj2 (Z.eqb_neq _ _) Hsu) in Hs. destruct Hs as [(? & _)|[(? & _)|(? & _)]]; auto. done.
Qed.
End Consistency.

(** ** Key refresh between two nodes *)

(** How far a node is in the key refresh procedure.  In [Phase1Net] the node has the new
    network key and not yet the new application key. *)
Inductive refresh_stage : Type := Before | Phase1Net | Phase1 | Phase2 | Done.

(** The subnet and the application key of a node at a stage, with the old and the new
    network keys and the old and the new application key. *)
Definition at_stage (st : refresh_stage) (old new : bt_mesh_subnet_keys) (old_app new_app : bt_mesh_app_cred)
    (sub : bt_mesh_subnet) (a : bt_mesh_app_key) : Prop :=
  match st with
  | Before => sub_kr_phase sub = BT_MESH_KR_NORMAL /\ sub_key0 sub = old /\ keys_valid (sub_key1 sub) = false /\
      app_updated a = false /\ app_key0 a = old_app
  | Phase1Net => sub_kr_phase sub = BT_MESH_KR_PHASE_1 /\ sub_key0 sub = old /\ sub_key1 sub = new /\
      app_updated a = false /\ app_key0 a = old_app
  | Phase1 => sub_kr_phase sub = BT_MESH_KR_PHASE_1 /\ sub_key0 sub = old /\ sub_key1 sub = new /\
      app_updated a = true /\ app_key0 a = old_app /\ app_key1 a = new_app
  | Phase2 => sub_kr_phase sub = BT_MESH_KR_PHASE_2 /\ sub_key0 sub = old /\ sub_key1 sub = new /\
      app_updated a = true /\ app_key0 a = old_app /\ app_key1 a = new_app
  | Done => sub_kr_phase sub = BT_MESH_KR_NORMAL /\ sub_key0 sub = new /\ keys_valid (sub_key1 sub) = false /\
      app_updated a = false /\ app_key0 a = new_app
  end.

(** The one thing the procedure has to take care of: the sender leaves phase 1 only when
    the receiver has the new application key too. *)
Definition in_step (sender receiver : refresh_stage) : bool :=
  match sender, receiver with
  | (Phase2 | Done), Phase1Net => false
  | _, _ => true
  end.

(** The credential chosen for sending. *)
Definition tx_cred (sub : bt_mesh_subnet) (a : bt_mesh_app_key) : bt_mesh_app_cred :=
  if (sub_kr_phase sub =? BT_MESH_KR_PHASE_2) && app_updated a then app_key1 a else app_key0 a.

(** A receiver that decrypts the network layer tries the credential of the sender. *)
Lemma stages_agree stS stR old new old_app new_app subS aS subR aR new_key :
  at_stage stS old new old_app new_app subS aS -> at_stage stR old new old_app new_app subR aR ->
  in_step stS stR = true -> old <> new -> keys_valid (sub_keys new_key subR) = true ->
  sub_keys new_key subR = sub_keys (SUBNET_KEY_TX_IDX subS) subS ->
  rx_cred new_key aR = tx_cred subS aS.
Proof.
  intros HS HR Hst Hne Hv Hk. unfold SUBNET_KEY_TX_IDX, sub_keys, rx_cred, tx_cred in *.
  destruct stS, stR, new_key; cbn [at_stage in_step] in *; destruct_and!; try discriminate Hst;
    repeat match goal with
    | H : sub_kr_phase subS = _ |- _ => rewrite H in Hk |- *; clear H
    | H : app_updated _ = _ |- _ => rewrite H; clear H
    end; cbn in *; congruence.
Qed.

Lemma app_key_find_loop_finds aid net_idx new_key key idx l i a :
  l !! i = Some a -> app_used a -> app_net_idx a = net_idx ->
  rx_cred new_key a = mkAppCred aid key -> app_idx a = idx ->
  (forall b, b ∈ l -> app_used b -> app_net_idx b = net_idx -> cred_val (rx_cred new_key b) = key -> app_idx b = idx) ->
  app_key_find_loop (fun k => mret (bool_decide (k = key))) aid net_idx new_key l () = Some (idx, ()).
Proof.
  revert i. induction l as [|b l IH]; intros i Hi Hu Hn Hc Hx Hall; [done|]. cbn [app_key_find_loop].
  destruct ((app_idx b =? BT_MESH_KEY_UNUSED) || negb (app_net_idx b =? net_idx)
            || negb (cred_id (rx_cred new_key b) =? aid)) eqn:E.
  - destruct i as [|i]; [|apply (IH i); try done; intros b' Hb'; apply Hall; by right].
    injection Hi as ->. rewrite Hc, Hn, !Z.eqb_refl in E. cbn in E. unfold app_used in Hu.
    by rewrite (proj2 (Z.eqb_neq _ _) Hu) in E.
  - rewrite bind_ret. zbool. destruct (bool_decide_reflect (cred_val (rx_cred new_key b) = key)) as [Ek|Ek].
    + rewrite (Hall b); [done|by left|done|done|done].
    + destruct i as [|i]; [|apply (IH i); try done; intros b' Hb'; apply Hall; by right].
      injection Hi as ->. by rewrite Hc in Ek.
Qed.

(** C20: Application messages stay readable throughout a key refresh.  Sender and
    receiver may be at different stages: before the refresh, in phase 1 with the new
    network key but not yet the new application key, in phase 1 with both, in phase 2, or
    done; only, the sender has not left phase 1 while the receiver still lacks the new
    application key.  A message whose network layer the receiver accepts, that is, that
    matches a valid key of its subnet equal to the sender's, is tried with exactly the
    application key the sender chose: [bt_mesh_app_key_find] with the sent identifier
    returns the index of that key.  The old and the new network key differ, and no other
    application key of the receiver's subnet has the value of the right one. *)
Theorem app_key_refresh_agreement config_cdb ctx comp cdb dev_key tS sS i aS j subS
    cdb' dev_key' rx tR sR k aR subR stS stR old new old_app new_app :
  BT_MESH_IS_DEV_KEY (ctx_app_idx ctx) = false ->
  bt_mesh_app_key_get (ctx_app_idx ctx) sS = Some i -> apps sS !! i = Some aS ->
  bt_mesh_subnet_get (app_net_idx aS) tS = Some j -> subs tS !! j = Some subS ->
  subs tR !! rx_sub rx = Some subR -> apps sR !! k = Some aR -> app_idx aR <> BT_MESH_KEY_UNUSED ->
  app_net_idx aR = sub_net_idx subR ->
  at_stage stS old new old_app new_app subS aS -> at_stage stR old new old_app new_app subR aR ->
  in_step stS stR = true -> old <> new ->
  keys_valid (sub_keys (rx_new_key rx) subR) = true ->
  sub_keys (rx_new_key rx) subR = sub_keys (SUBNET_KEY_TX_IDX subS) subS ->
  (forall b, b ∈ apps sR -> app_idx b <> BT_MESH_KEY_UNUSED -> app_net_idx b = sub_net_idx subR ->
     cred_val (rx_cred (rx_new_key rx) b) = cred_val (rx_cred (rx_new_key rx) aR) -> app_idx b = app_idx aR) ->
  exists key aid,
    bt_mesh_keys_resolve config_cdb ctx comp cdb dev_key tS sS = Some (inr (j, key, aid)) /\
    bt_mesh_app_key_find config_cdb (fun k => mret (bool_decide (k = key))) false aid rx cdb' dev_key' tR sR ()
      = Some (app_idx aR, ()).
Proof.
  intros Hdev Hg Hi Hsg Hj HR Hk Hu Hn HS HSR Hst Hne Hv Heq Hall.
  exists (cred_val (tx_cred subS aS)), (cred_id (tx_cred subS aS)). split.
  - unfold bt_mesh_keys_resolve. unfold bt_mesh_app_key_get in Hg. rewrite Hdev, Hg. cbn [mbind option_bind].
    rewrite Hi, Hsg. cbn. by rewrite Hj.
  - pose proof (stages_agree _ _ _ _ _ _ _ _ _ _ _ HS HSR Hst Hne Hv Heq) as E.
    unfold bt_mesh_app_key_find. rewrite HR. rewrite <- E in *.
    cbn [need]. rewrite bind_ret.
    apply (app_key_find_loop_finds _ _ _ _ _ _ k aR); try done. by destruct (rx_cred _ aR).
Qed.

(** ** Examples *)

Definition net_keys_example (b : Z) : bt_mesh_subnet_keys :=
  match @net_keys_create toy_cmac true (replicate 16 b) with inr k => k | inl _ => keys_zero end.

(** Subnet 0 with the application keys 0 and 1. *)
Definition keys_example : subnets * app_keys := Eval vm_compute in
  let t := subnet_example in
  let add idx key s := (@bt_mesh_app_key_add toy_cmac idx 0 (replicate 16 key) t s).2 in
  (t, add 1 4 (add 0 3 (apps_init 2))).

Definition keys_ctx_example (idx : Z) : bt_mesh_msg_ctx := mkCtx 0 idx 5 0 0 0 false 5.

Lemma keys_example_reachable : @keys_reachable toy_cmac true 2 2 keys_example.
Proof.
  eapply KReachStep; [eapply KReachStep; [eapply KReachStep; [apply KReachInit|]|]|].
  - eapply (@KSubnet toy_cmac true (subnets_init 2) subnet_example
              [EvSubnet 0 BT_MESH_KEY_ADDED; EvStoreSubnet 0]); [|reflexivity].
    by apply (@StepAdd toy_cmac true (subnets_init 2) 0 (replicate 16 7)).
  - by apply (@KAdd toy_cmac true subnet_example (apps_init 2) 0 0 (replicate 16 3)).
  - by apply (@KAdd toy_cmac true subnet_example
                (@bt_mesh_app_key_add toy_cmac 0 0 (replicate 16 3) subnet_example (apps_init 2)).2
                1 0 (replicate 16 4)).
Qed.

Lemma keys_consistent_witness :
  exists a, apps keys_example.2 !! 1%nat = Some a /\
  (exists j sub key aid,
     bt_mesh_keys_resolve true (keys_ctx_example 1) comp_example (bt_mesh_cdb_init 3 3 3) zero16
       keys_example.1 keys_example.2 = Some (inr (j, key, aid)) /\
     subs keys_example.1 !! j = Some sub /\ sub_net_idx sub = app_net_idx a /\
     @bt_mesh_app_id toy_cmac key = inr aid /\
     (app_updated a = true -> sub_kr_phase sub = BT_MESH_KR_PHASE_1 \/ sub_kr_phase sub = BT_MESH_KR_PHASE_2)) /\
  (forall k b, apps keys_example.2 !! k = Some b -> app_idx b = app_idx a -> k = 1%nat).
Proof.
  eexists. split; [reflexivity|].
  apply (@keys_consistent toy_cmac true 2 2 keys_example.1 keys_example.2 1).
  - exact keys_example_reachable.
  - reflexivity.
  - discriminate.
  - reflexivity.
  - reflexivity.
Defined.

(** A sender in phase 2 and a receiver still in phase 1. *)
Definition refresh_example (phase : Z) : subnets * app_keys :=
  (mkSubnets [mkSubnet 0 phase BT_MESH_FEATURE_DISABLED (net_keys_example 7) (net_keys_example 8) beacon_zero] [],
   mkApps [mkAppKey 0 2 true (mkAppCred 3 (replicate 16 3)) (mkAppCred 3 (replicate 16 5));
           mkAppKey 0 1 true (mkAppCred 3 (replicate 16 3)) (mkAppCred 3 (replicate 16 4))] []).

Definition refresh_rx_example : bt_mesh_net_rx :=
  mkRx 0 (keys_ctx_example 0) 1 false true false false BT_MESH_NET_IF_ADV true false 0.

Lemma app_key_refresh_agreement_witness :
  exists key aid,
    bt_mesh_keys_resolve false (keys_ctx_example 1) comp_example (bt_mesh_cdb_init 3 3 3) zero16
      (refresh_example BT_MESH_KR_PHASE_2).1 (refresh_example BT_MESH_KR_PHASE_2).2 = Some (inr (0%nat, key, aid)) /\
    bt_mesh_app_key_find false (fun k => mret (bool_decide (k = key))) false aid refresh_rx_example
      (bt_mesh_cdb_init 3 3 3) zero16 (refresh_example BT_MESH_KR_PHASE_1).1 (refresh_example BT_MESH_KR_PHASE_1).2 ()
      = Some (1, ()).
Proof.
  apply (app_key_refresh_agreement false (keys_ctx_example 1) comp_example (bt_mesh_cdb_init 3 3 3) zero16
           (refresh_example BT_MESH_KR_PHASE_2).1 (refresh_example BT_MESH_KR_PHASE_2).2 1
           (mkAppKey 0 1 true (mkAppCred 3 (replicate 16 3)) (mkAppCred 3 (replicate 16 4))) 0
           (mkSubnet 0 BT_MESH_KR_PHASE_2 BT_MESH_FEATURE_DISABLED (net_keys_example 7) (net_keys_example 8) beacon_zero)
           (bt_mesh_cdb_init 3 3 3) zero16 refresh_rx_example
           (refresh_example BT_MESH_KR_PHASE_1).1 (refresh_example BT_MESH_KR_PHASE_1).2 1
           (mkAppKey 0 1 true (mkAppCred 3 (replicate 16 3)) (mkAppCred 3 (replicate 16 4)))
           (mkSubnet 0 BT_MESH_KR_PHASE_1 BT_MESH_FEATURE_DISABLED (net_keys_example 7) (net_keys_example 8) beacon_zero)
           Phase2 Phase1 (net_keys_example 7) (net_keys_example 8)
           (mkAppCred 3 (replicate 16 3)) (mkAppCred 3 (replicate 16 4))).
  1-5, 6-7: reflexivity.
  1: discriminate.
  1: reflexivity.
  1-2: repeat split.
  1: reflexivity.
  1: vm_compute; discriminate.
  1: vm_compute; reflexivity.
  1: reflexivity.
  intros b Hb _ _. repeat (apply elem_of_cons in Hb as [->|Hb]); [vm_compute; discriminate|done|].
  by apply not_elem_of_nil in Hb.
Defined.
