(* ===== verification/Net.v ===== *)
(** * The network layer

    Model of [subsys/bluetooth/mesh/net.c] with the state of [struct bt_mesh_net]
    ([net.h]): creation of the network, the IV update procedure and its timer,
    sequence numbers, the two duplicate caches, encoding, sending, decoding, receiving
    and relaying of network PDUs, and the loopback queue; together with
    [bt_mesh_net_cred_find] of [subnet.c] and the feature getters of [cfg.c].

    Parameters: the AES engine and CMAC, the configuration ([config_proxy],
    [config_friend], [config_cdb]), whether a proxy client takes a PDU ([proxy_relay]), whether an
    advertising buffer is free ([adv_buffer]), and the transport layer above
    ([trans_recv]).  Calls of other modules without a result are recorded as events. *)

From S2P Require Import Prelude ByteOrder MeshDefs Cdb NetBuf Access Rpl Ccm MeshCrypto Subnet.

(** ** State *)

Inductive net_event : Type :=
| EvStoreNet | EvStoreIv (only_duration : bool) | EvStoreSeq
| EvClearRpl | EvFriendSecUpdate | EvProxyBeaconSend | EvBeaconUpdates | EvCdbIvUpdate (iv_index : Z) (iv_update : bool)
| EvBeaconTimer (submit : bool)
| EvAdvSend (xmit : Z) (pdu : bytes) (cb : bool)
| EvProxyRelay (pdu : bytes) (dst : Z)
| EvProxyAddrAdd (addr : Z).

(** A queued loopback PDU with the subnet it was sent on. *)
Definition loopback_buf : Type := nat * bytes.

Record bt_mesh_net : Type := mkNet {
  iv_index : Z;
  net_seq : Z;
  (* flags *)
  net_valid : bool;
  ivu_in_progress : bool;
  ivu_initiator : bool;
  ivu_pending : bool;
  flag_relay : bool;
  flag_beacon : bool;
  flag_gatt_proxy : bool;
  flag_friend : bool;
  ivu_duration : Z;
  ivu_timer : bool;               (** the delayed work is submitted *)
  net_xmit : Z;
  relay_xmit : Z;
  local_queue : list loopback_buf;
  loopback_held : nat;            (** buffers of the pool taken out of the queue and not yet freed *)
  msg_cache : list (Z * Z);       (** source and low 17 bits of the sequence number *)
  msg_cache_next : nat;
  dup_cache : list Z;
  dup_cache_next : nat;
  net_rpl : list bt_mesh_rpl;
  net_subnets : subnets;
  net_friends : list (option nat * bt_mesh_net_cred * bt_mesh_net_cred);
  net_comp : bt_mesh_comp;
  net_log : list net_event;
}.

#[export] Instance bt_mesh_net_eta : Eta bt_mesh_net := fun n =>
  mkNet (iv_index n) (net_seq n) (net_valid n) (ivu_in_progress n) (ivu_initiator n) (ivu_pending n)
    (flag_relay n) (flag_beacon n) (flag_gatt_proxy n) (flag_friend n) (ivu_duration n) (ivu_timer n) (net_xmit n)
    (relay_xmit n) (local_queue n) (loopback_held n) (msg_cache n) (msg_cache_next n) (dup_cache n) (dup_cache_next n)
    (net_rpl n) (net_subnets n) (net_friends n) (net_comp n) (net_log n).

Definition net_event_log (e : net_event) (n : bt_mesh_net) : bt_mesh_net := n <| net_log := net_log n ++ [e] |>.

Definition BT_MESH_NET_HDR_LEN : nat := 9.
Definition BT_MESH_NET_MIN_PDU_LEN : nat := BT_MESH_NET_HDR_LEN + 1 + 8.
Definition IV_UPDATE_SEQ_LIMIT : Z := 8000000.
Definition BT_MESH_IVU_MIN_HOURS : Z := 96.
Definition BT_MESH_IVU_DIVIDER : Z := 4.
Definition BT_MESH_IVU_HOURS : Z := BT_MESH_IVU_MIN_HOURS / BT_MESH_IVU_DIVIDER.
Definition LOOPBACK_BUFS : nat := 3.
Definition BT_MESH_TTL_DEFAULT : Z := 255.

(** Fields of a PDU. *)
Definition IVI (pdu : bytes) : Z := Z.shiftr (byte_at pdu 0) 7.
Definition NID (pdu : bytes) : Z := Z.land (byte_at pdu 0) 127.
Definition CTL (pdu : bytes) : bool := negb (Z.shiftr (byte_at pdu 1) 7 =? 0).
Definition TTL (pdu : bytes) : Z := Z.land (byte_at pdu 1) 127.
Definition SEQ (pdu : bytes) : Z := sys_get_be24 (drop 2 pdu).
Definition SRC (pdu : bytes) : Z := sys_get_be16 (drop 5 pdu).
Definition DST (pdu : bytes) : Z := sys_get_be16 (drop 7 pdu).

Definition BT_MESH_IV_UPDATE (flags : Z) : bool := Z.testbit flags 1.
Definition BT_MESH_KEY_REFRESH (flags : Z) : bool := Z.testbit flags 0.

Definition BT_MESH_NET_IVI_TX (n : bt_mesh_net) : Z :=
  u32 (iv_index n - (if ivu_in_progress n then 1 else 0)).
Definition BT_MESH_NET_IVI_RX (rx_old_iv : bool) (n : bt_mesh_net) : Z :=
  u32 (iv_index n - (if rx_old_iv then 1 else 0)).

Definition feature (flag : bool) : bt_mesh_feat_state :=
  if flag then BT_MESH_FEATURE_ENABLED else BT_MESH_FEATURE_DISABLED.

(** A total operation in the monad. *)
Definition step {A : Type} (f : bt_mesh_net -> A * bt_mesh_net) : ST bt_mesh_net A := fun n => Some (f n).

(** ** Duplicate detection *)

(** Every PDU received from the advertising bearer; the last eight bytes. *)
Definition check_dup (data : bytes) (n : bt_mesh_net) : bool * bt_mesh_net :=
  let tail := length data in
  let val := Z.lxor (sys_get_be32 (drop (tail - 4) data)) (sys_get_be32 (drop (tail - 8) data)) in
  if existsb (Z.eqb val) (dup_cache n) then (true, n)
  else (false, n <| dup_cache := <[dup_cache_next n := val]> (dup_cache n) |>
                 <| dup_cache_next := (S (dup_cache_next n) mod length (dup_cache n))%nat |>).

Definition msg_cache_match (pdu : bytes) (n : bt_mesh_net) : bool :=
  existsb (fun '(src, seq) => (src =? SRC pdu) && (seq =? Z.land (SEQ pdu) (2 ^ 17 - 1))) (msg_cache n).

(** Bit fields of 15 and 17 bits. *)
Definition msg_cache_add (rx : bt_mesh_net_rx) (n : bt_mesh_net) : bt_mesh_net_rx * bt_mesh_net :=
  let idx := msg_cache_next n in
  (rx <| rx_msg_cache_idx := idx |>,
   n <| msg_cache := <[idx := (rx_addr rx mod 2 ^ 15, rx_seq rx mod 2 ^ 17)]> (msg_cache n) |>
     <| msg_cache_next := (S idx mod length (msg_cache n))%nat |>).

Record bt_mesh_net_tx : Type := mkTx {
  tx_sub : nat;                (** index of the subnet *)
  tx_ctx : bt_mesh_msg_ctx;
  tx_src : Z;
  tx_xmit : Z;
  tx_friend_cred : bool;
  tx_aszmic : bool;
  tx_aid : Z;
}.

#[export] Instance bt_mesh_net_tx_eta : Eta bt_mesh_net_tx := fun t =>
  mkTx (tx_sub t) (tx_ctx t) (tx_src t) (tx_xmit t) (tx_friend_cred t) (tx_aszmic t) (tx_aid t).

Section Net.
Context {ecb : Ecb} {cmac : Cmac} (config_proxy config_friend config_cdb : bool).

Definition bt_mesh_gatt_proxy_get (n : bt_mesh_net) : bt_mesh_feat_state :=
  if config_proxy then feature (flag_gatt_proxy n) else BT_MESH_FEATURE_NOT_SUPPORTED.
Definition bt_mesh_friend_get (n : bt_mesh_net) : bt_mesh_feat_state :=
  if config_friend then feature (flag_friend n) else BT_MESH_FEATURE_NOT_SUPPORTED.
Definition bt_mesh_relay_get (n : bt_mesh_net) : bt_mesh_feat_state := feature (flag_relay n).

Definition enabled (f : bt_mesh_feat_state) : bool :=
  match f with BT_MESH_FEATURE_ENABLED => true | _ => false end.

Definition bt_mesh_fixed_group_match (addr : Z) (n : bt_mesh_net) : bool :=
  if addr =? BT_MESH_ADDR_ALL_NODES then true
  else if addr =? BT_MESH_ADDR_PROXIES then enabled (bt_mesh_gatt_proxy_get n)
  else if addr =? BT_MESH_ADDR_FRIENDS then enabled (bt_mesh_friend_get n)
  else if addr =? BT_MESH_ADDR_RELAYS then enabled (bt_mesh_relay_get n)
  else false.

(** ** Creation *)

Definition bt_mesh_net_create (idx flags : Z) (key : bytes) (iv : Z) (n : bt_mesh_net)
    : ret_code * bt_mesh_net :=
  let '(err, subs) :=
    if BT_MESH_KEY_REFRESH flags
    then bt_mesh_subnet_set config_proxy idx BT_MESH_KR_PHASE_2 None (Some key) (net_subnets n)
    else bt_mesh_subnet_set config_proxy idx BT_MESH_KR_NORMAL (Some key) None (net_subnets n) in
  let n := n <| net_subnets := subs |> in
  match err with
  | Some _ => (err, n)
  | None =>
      (None,
       n <| msg_cache := replicate (length (msg_cache n)) (0, 0) |> <| msg_cache_next := 0%nat |>
         <| iv_index := iv |> <| ivu_in_progress := BT_MESH_IV_UPDATE flags |>
         <| ivu_duration := BT_MESH_IVU_MIN_HOURS |>
         <| net_subnets := sub_event (EvStoreSubnet idx) subs |>
         <| net_log := net_log n ++ [EvStoreNet; EvStoreIv false] |>)
  end.

(** ** The IV update procedure *)

(** From [do_update] on. *)
Definition do_update (iv : Z) (iv_update : bool) (n : bt_mesh_net) : bt_mesh_net :=
  let n := n <| ivu_in_progress := iv_update |> <| ivu_duration := 0 |> in
  let n := if iv_update
           then n <| iv_index := iv |> <| net_rpl := bt_mesh_rpl_reset (net_rpl n) |>
           else n <| net_seq := 0 |> in
  n <| ivu_timer := true |>
    <| net_log := net_log n
         ++ (if config_friend then [EvFriendSecUpdate] else [])
         ++ (if enabled (bt_mesh_gatt_proxy_get n) then [EvProxyBeaconSend] else [])
         ++ [EvBeaconUpdates] ++ (if config_cdb then [EvCdbIvUpdate iv iv_update] else [])
         ++ [EvStoreIv false] |>.

(** [tx_in_progress] is [bt_mesh_tx_in_progress()]. *)
Definition bt_mesh_net_iv_update (tx_in_progress : bool) (iv : Z) (iv_update : bool) (n : bt_mesh_net)
    : bool * bt_mesh_net :=
  let checked :=
    if ivu_duration n <? BT_MESH_IVU_MIN_HOURS then (false, n)
    else if negb iv_update && tx_in_progress then (false, n <| ivu_pending := true |>)
    else (true, do_update iv iv_update n) in
  if ivu_in_progress n then
    if negb (iv =? iv_index n) then (false, n)
    else if iv_update then (false, n)
    else checked
  else if iv =? iv_index n then (false, n)
  else if (iv <? iv_index n) || (u32 (iv_index n + 42) <? iv) then (false, n)
  else if u32 (iv_index n + 1) <? iv then
    (true, do_update iv iv_update
             (net_event_log EvClearRpl (n <| net_rpl := bt_mesh_rpl_clear (net_rpl n) |>)
                <| iv_index := iv |> <| net_seq := 0 |>))
  else if (iv =? u32 (iv_index n + 1)) && negb iv_update then (false, n)
  else if negb iv_update then (false, n)
  else checked.

Definition bt_mesh_beacon_ivu_initiator (enable : bool) (n : bt_mesh_net) : bt_mesh_net :=
  let n := n <| ivu_initiator := enable |> in
  if enable then net_event_log (EvBeaconTimer true) n
  else if negb (flag_beacon n) then net_event_log (EvBeaconTimer false) n
  else n.

Definition bt_mesh_next_seq (tx_in_progress : bool) (n : bt_mesh_net) : Z * bt_mesh_net :=
  let seq := net_seq n in
  let n := net_event_log EvStoreSeq (n <| net_seq := u32 (seq + 1) |>) in
  if negb (ivu_in_progress n) && (IV_UPDATE_SEQ_LIMIT <? net_seq n)
     && (match bt_mesh_subnet_get BT_MESH_KEY_PRIMARY (net_subnets n) with Some _ => true | None => false end)
  then let n := bt_mesh_beacon_ivu_initiator true n in
       (seq, snd (bt_mesh_net_iv_update tx_in_progress (u32 (iv_index n + 1)) true n))
  else (seq, n).

(** The timer work. *)
Definition ivu_refresh (tx_in_progress : bool) (n : bt_mesh_net) : bt_mesh_net :=
  let n := n <| ivu_timer := false |> <| ivu_duration := u8 (ivu_duration n + BT_MESH_IVU_HOURS) |> in
  if ivu_duration n <? BT_MESH_IVU_MIN_HOURS
  then net_event_log (EvStoreIv true) n <| ivu_timer := true |>
  else if ivu_in_progress n then
    let n := bt_mesh_beacon_ivu_initiator true n in
    snd (bt_mesh_net_iv_update tx_in_progress (iv_index n) false n)
  else net_event_log (EvStoreIv true) n.

(** ** Encoding *)

Definition tx_msg_cred (sub : bt_mesh_subnet) : bt_mesh_net_cred :=
  keys_msg (sub_keys (SUBNET_KEY_TX_IDX sub) sub).

(** The network credentials: without low-power support the friendship credentials
    are never used, and [friend_cred] is cleared. *)
Definition net_tx_cred_get (tx : bt_mesh_net_tx) (n : bt_mesh_net)
    : option (bt_mesh_net_cred * bt_mesh_net_tx) :=
  match subs (net_subnets n) !! tx_sub tx with
  | Some sub => Some (tx_msg_cred sub, tx <| tx_friend_cred := false |>)
  | None => None
  end.

Definition is_ctl (ctx : bt_mesh_msg_ctx) : bool := ctx_app_idx ctx =? BT_MESH_KEY_UNUSED.

(** Pushes the nine header bytes; [tx_in_progress] as for [bt_mesh_next_seq]. *)
Definition net_header_encode (tx_in_progress : bool) (tx : bt_mesh_net_tx) (nid : Z) (buf : net_buf_simple)
    : ST bt_mesh_net (ret_code * net_buf_simple) :=
  let ctl := is_ctl (tx_ctx tx) in
  if ctl && (net_buf_simple_tailroom buf <? 8)%nat then mret (Some EINVAL, buf)
  else if (net_buf_simple_tailroom buf <? 4)%nat then mret (Some EINVAL, buf)
  else
    '(_, buf) ← need (net_buf_simple_push_be16 (ctx_addr (tx_ctx tx)) buf);
    '(_, buf) ← need (net_buf_simple_push_be16 (tx_src tx) buf);
    seq ← step (bt_mesh_next_seq tx_in_progress);
    '(_, buf) ← need (net_buf_simple_push_be24 seq buf);
    '(_, buf) ← need (net_buf_simple_push_u8
                        (if ctl then Z.lor (ctx_send_ttl (tx_ctx tx)) 128 else ctx_send_ttl (tx_ctx tx)) buf);
    ivi ← gets BT_MESH_NET_IVI_TX;
    '(_, buf) ← need (net_buf_simple_push_u8 (Z.lor nid (Z.shiftl (Z.land ivi 1) 7)) buf);
    mret (None, buf).

(** [bt_mesh_net_obfuscate] at the data pointer; fourteen bytes are read there. *)
Definition obfuscate_buf (iv : Z) (privacy : bytes) : BUF ret_code :=
  b ← gets id;
  if (buf_size b <? buf_data b + 14)%nat then undefined
  else match bt_mesh_net_obfuscate iv privacy (drop (buf_data b) (buf_mem b)) with
  | inl _ => mret (Some EINVAL)
  | inr pdu => _ ← modify (fun b => b <| buf_mem := take (buf_data b) (buf_mem b) ++ pdu |>); mret None
  end.

Definition net_encrypt (cred : bt_mesh_net_cred) (iv : Z) (proxy : bool) : BUF ret_code :=
  err ← bt_mesh_net_encrypt config_proxy (cred_enc cred) iv proxy;
  match err with
  | Some _ => mret err
  | None => obfuscate_buf iv (cred_privacy cred)
  end.

Definition bt_mesh_net_encode (tx_in_progress : bool) (tx : bt_mesh_net_tx) (proxy : bool) (buf : net_buf_simple)
    : ST bt_mesh_net (ret_code * net_buf_simple) :=
  c ← gets (net_tx_cred_get tx); '(cred, tx) ← need c;
  '(err, buf) ← net_header_encode tx_in_progress tx (cred_nid cred) buf;
  match err with
  | Some _ => mret (err, buf)
  | None => iv ← gets BT_MESH_NET_IVI_TX; need (net_encrypt cred iv proxy buf)
  end.

(** ** Sending *)

Definition LOOPBACK_MAX_PDU_LEN : nat := BT_MESH_NET_HDR_LEN + 16.

Definition loopback (tx : bt_mesh_net_tx) (data : bytes) : ST bt_mesh_net ret_code :=
  n ← gets id;
  if (LOOPBACK_BUFS <=? length (local_queue n) + loopback_held n)%nat then mret (Some ENOMEM)
  else if (LOOPBACK_MAX_PDU_LEN <? length data)%nat then undefined
  else _ ← modify (fun n => n <| local_queue := local_queue n ++ [(tx_sub tx, data)] |>); mret None.

Definition local_address (addr : Z) (n : bt_mesh_net) : option bool :=
  if bt_mesh_fixed_group_match addr n then Some true
  else (fun e => match e with Some _ => true | None => false end) <$> bt_mesh_elem_find (net_comp n) addr.

(** [bt_mesh_proxy_relay]: whether a connected proxy client got the PDU. *)
Variable proxy_relay : bytes -> Z -> bt_mesh_net -> bool.

Definition bt_mesh_proxy_relay (pdu : bytes) (dst : Z) : ST bt_mesh_net bool :=
  relayed ← gets (proxy_relay pdu dst);
  _ ← modify (net_event_log (EvProxyRelay pdu dst));
  mret relayed.

(** [cb]: a callback is given; [xmit] is the transmit state of the advertising buffer.
    The second result tells that the callback was finalized by the call itself; with
    an advertising buffer the bearer calls it later. *)
Definition bt_mesh_net_send (tx_in_progress : bool) (tx : bt_mesh_net_tx) (xmit : Z) (buf : net_buf_simple)
    (cb : bool) : ST bt_mesh_net (ret_code * bool) :=
  let addr := ctx_addr (tx_ctx tx) in
  let ttl := ctx_send_ttl (tx_ctx tx) in
  c ← gets (net_tx_cred_get tx); '(cred, tx) ← need c;
  '(err, buf) ← net_header_encode tx_in_progress tx (cred_nid cred) buf;
  match err with
  | Some _ => mret (err, false)
  | None =>
      let transmit : ST bt_mesh_net (ret_code * bool) :=
        if ttl =? 1 then mret (Some EINVAL, false)
        else
          iv ← gets BT_MESH_NET_IVI_TX;
          '(err, buf) ← need (net_encrypt cred iv false buf);
          match err with
          | Some _ => mret (err, false)
          | None =>
              relayed ← (if config_proxy then bt_mesh_proxy_relay (contents buf) addr else mret false);
              if relayed && BT_MESH_ADDR_IS_UNICAST addr then mret (None, cb)
              else _ ← modify (net_event_log (EvAdvSend xmit (contents buf) cb)); mret (None, false)
          end in
      local ← gets (local_address addr); local ← need local;
      if local : bool then
        err ← loopback tx (contents buf);
        if BT_MESH_ADDR_IS_UNICAST addr || (ttl =? 1)
        then mret (err, cb && match err with None => true | Some _ => false end)
        else transmit
      else transmit
  end.

Definition bt_mesh_net_loopback_clear (net_idx : Z) (n : bt_mesh_net) : bt_mesh_net :=
  n <| local_queue := List.filter (fun '(i, _) =>
         negb ((net_idx =? BT_MESH_KEY_ANY)
               || match subs (net_subnets n) !! i with
                  | Some sub => net_idx =? sub_net_idx sub
                  | None => false
                  end)) (local_queue n) |>.

(** ** Decoding *)

Abbreviation DEC := (ST (bt_mesh_net_rx * net_buf_simple)).

Definition alter_rx (f : bt_mesh_net_rx -> bt_mesh_net_rx) : DEC unit := modify (fun s => (f s.1, s.2)).
Definition on_out {A : Type} (m : BUF A) : DEC A := fun s =>
  match m s.2 with Some (a, out) => Some (a, (s.1, out)) | None => None end.

Definition rx_ivi_old (pdu : bytes) (n : bt_mesh_net) : bool := negb (IVI pdu =? Z.land (iv_index n) 1).

Definition set_rx_addr (addr : Z) (rx : bt_mesh_net_rx) : bt_mesh_net_rx :=
  rx <| rx_ctx := (rx_ctx rx) <| ctx_addr := addr |> |>.

(** Try one set of credentials on the PDU [in_], writing the clear text to the buffer
    of the state. *)
Definition net_decrypt (n : bt_mesh_net) (in_ : bytes) (cred : bt_mesh_net_cred) : DEC bool :=
  if negb (NID in_ =? cred_nid cred) then mret false
  else
    let old_iv := rx_ivi_old in_ n in
    let iv := BT_MESH_NET_IVI_RX old_iv n in
    _ ← alter_rx (fun rx => rx <| rx_old_iv := old_iv |>);
    _ ← on_out (modify net_buf_simple_reset);
    _ ← on_out (net_buf_simple_add_mem in_);
    err ← on_out (obfuscate_buf iv (cred_privacy cred));
    match err with
    | Some _ => mret false
    | None =>
        out ← gets (fun s => contents s.2);
        _ ← alter_rx (set_rx_addr (SRC out));
        if negb (BT_MESH_ADDR_IS_UNICAST (SRC out)) then mret false
        else
          elem ← need (bt_mesh_elem_find (net_comp n) (SRC out));
          match elem with
          | Some _ => mret false
          | None =>
              net_if ← gets (fun s => rx_net_if s.1);
              if bool_decide (net_if = BT_MESH_NET_IF_ADV) && msg_cache_match out n then mret false
              else
                err ← on_out (bt_mesh_net_decrypt config_proxy (cred_enc cred) iv
                                (bool_decide (net_if = BT_MESH_NET_IF_PROXY_CFG)));
                mret (match err with None => true | Some _ => false end)
          end
    end.

(** Both keys of the subnet [i] in turn, with the credentials [c0] and [c1]. *)
Definition cred_find_keys (cb : bt_mesh_net_cred -> DEC bool) (i : nat) (sub : bt_mesh_subnet)
    (c0 c1 : bt_mesh_net_cred) (friend : bool) : DEC bool :=
  let try (j : bool) (c : bt_mesh_net_cred) : DEC bool :=
    if negb (keys_valid (sub_keys j sub)) then mret false
    else
      found ← cb c;
      if found : bool then
        _ ← alter_rx (fun rx => rx <| rx_new_key := j |> <| rx_friend_cred := friend |>
                                   <| rx_ctx := (rx_ctx rx) <| ctx_net_idx := sub_net_idx sub |> |>);
        mret true
      else mret false in
  _ ← alter_rx (fun rx => rx <| rx_sub := i |>);
  found ← try false c0;
  if found : bool then mret true else try true c1.

Fixpoint cred_find_friends (cb : bt_mesh_net_cred -> DEC bool) (table : list bt_mesh_subnet)
    (friends : list (option nat * bt_mesh_net_cred * bt_mesh_net_cred)) : DEC bool :=
  match friends with
  | [] => mret false
  | (None, _, _) :: friends => cred_find_friends cb table friends
  | (Some i, c0, c1) :: friends =>
      sub ← need (table !! i);
      found ← cred_find_keys cb i sub c0 c1 true;
      if found : bool then mret true else cred_find_friends cb table friends
  end.

Fixpoint cred_find_subnets (cb : bt_mesh_net_cred -> DEC bool) (i : nat) (l : list bt_mesh_subnet) : DEC bool :=
  match l with
  | [] => mret false
  | sub :: l =>
      if sub_net_idx sub =? BT_MESH_KEY_UNUSED
      then _ ← alter_rx (fun rx => rx <| rx_sub := i |>); cred_find_subnets cb (S i) l
      else
        found ← cred_find_keys cb i sub (keys_msg (sub_key0 sub)) (keys_msg (sub_key1 sub)) false;
        if found : bool then mret true else cred_find_subnets cb (S i) l
  end.

Definition bt_mesh_net_cred_find (n : bt_mesh_net) (cb : bt_mesh_net_cred -> DEC bool) : DEC bool :=
  found ← (if config_friend then cred_find_friends cb (subs (net_subnets n)) (net_friends n) else mret false);
  if found : bool then mret true else cred_find_subnets cb 0 (subs (net_subnets n)).

(** The fields read from the clear text. *)
Definition decoded_rx (out : bytes) (rx : bt_mesh_net_rx) : bt_mesh_net_rx :=
  rx <| rx_ctx := (rx_ctx rx) <| ctx_app_idx := BT_MESH_KEY_UNUSED |> <| ctx_recv_ttl := TTL out |>
                    <| ctx_send_ttl := (if TTL out =? 0 then 0 else BT_MESH_TTL_DEFAULT) |>
                    <| ctx_recv_dst := DST out |> |>
     <| rx_ctl := CTL out |> <| rx_seq := SEQ out |>.

Definition bt_mesh_net_decode (in_ : bytes) (net_if : bt_mesh_net_if) (rx : bt_mesh_net_rx)
    (out : net_buf_simple) : ST bt_mesh_net (ret_code * bt_mesh_net_rx * net_buf_simple) :=
  if (length in_ <? BT_MESH_NET_MIN_PDU_LEN)%nat then mret (Some EINVAL, rx, out)
  else
    dup ← (if bool_decide (net_if = BT_MESH_NET_IF_ADV) then step (check_dup in_) else mret false);
    if dup : bool then mret (Some EINVAL, rx, out)
    else
      n ← gets id;
      '(found, (rx, out)) ← need (bt_mesh_net_cred_find n (net_decrypt n in_) (rx <| rx_net_if := net_if |>, out));
      if negb found then mret (Some ENOENT, rx, out)
      else
        let rx := decoded_rx (contents out) rx in
        if negb (bool_decide (net_if = BT_MESH_NET_IF_PROXY_CFG)) && (ctx_recv_dst (rx_ctx rx) =? 0)
        then mret (Some EBADMSG, rx, out)
        else rx ← step (msg_cache_add rx); mret (None, rx, out).

Definition bt_mesh_net_header_parse (pdu : bytes) (rx : bt_mesh_net_rx) (n : bt_mesh_net) : bt_mesh_net_rx :=
  rx <| rx_old_iv := rx_ivi_old pdu n |> <| rx_ctl := CTL pdu |> <| rx_seq := SEQ pdu |>
     <| rx_ctx := (rx_ctx rx) <| ctx_recv_ttl := TTL pdu |> <| ctx_addr := SRC pdu |>
                    <| ctx_recv_dst := DST pdu |> |>.

(** ** Relaying *)

Definition relay_to_adv (net_if : bt_mesh_net_if) (n : bt_mesh_net) : bool :=
  match net_if with
  | BT_MESH_NET_IF_ADV => enabled (bt_mesh_relay_get n)
  | BT_MESH_NET_IF_PROXY => enabled (bt_mesh_gatt_proxy_get n)
  | _ => false
  end.

(** The header byte with the decremented TTL. *)
Definition relay_ttl (rx : bt_mesh_net_rx) (b1 : Z) : Z :=
  u8 (Z.lor (Z.land b1 128) (ctx_recv_ttl (rx_ctx rx) - 1)).

(** The first byte, whose NID is replaced for a PDU received with friendship
    credentials only. *)
Definition relay_nid (rx : bt_mesh_net_rx) (cred : bt_mesh_net_cred) (b0 : Z) : Z :=
  if rx_friend_cred rx then Z.lor (Z.land b0 128) (cred_nid cred) else b0.

Definition relay_xmit_of (rx : bt_mesh_net_rx) (n : bt_mesh_net) : Z :=
  if bool_decide (rx_net_if rx = BT_MESH_NET_IF_ADV) && negb (rx_friend_cred rx)
  then relay_xmit n else net_xmit n.

Definition BT_MESH_ADV_DATA_SIZE : nat := 29.

(** An empty advertising buffer. *)
Definition adv_buf : net_buf_simple := mkBuf 0 0 (replicate BT_MESH_ADV_DATA_SIZE 0).

(** The bytes of the relayed PDU before encryption. *)
Definition relay_pdu (rx : bt_mesh_net_rx) (cred : bt_mesh_net_cred) (pdu : bytes) : bytes :=
  alter (relay_nid rx cred) 0%nat (alter (relay_ttl rx) 1%nat pdu).

(** Whether an advertising buffer is free. *)
Variable adv_buffer : bt_mesh_net -> bool.

Definition bt_mesh_net_relay (sbuf : net_buf_simple) (rx : bt_mesh_net_rx) : ST bt_mesh_net unit :=
  n ← gets id;
  if ctx_recv_ttl (rx_ctx rx) <=? 1 then mret tt
  else if bool_decide (rx_net_if rx = BT_MESH_NET_IF_ADV) && negb (rx_friend_cred rx)
          && negb (enabled (bt_mesh_relay_get n)) && negb (enabled (bt_mesh_gatt_proxy_get n))
  then mret tt
  else if negb (adv_buffer n) then mret tt
  else
    sub ← need (subs (net_subnets n) !! rx_sub rx);
    let cred := tx_msg_cred sub in
    '(_, buf) ← need (net_buf_simple_add_mem (relay_pdu rx cred (contents sbuf)) adv_buf);
    '(err, buf) ← need (net_encrypt cred (BT_MESH_NET_IVI_RX (rx_old_iv rx) n) false buf);
    match err with
    | Some _ => mret tt
    | None =>
        _ ← (if config_proxy && (rx_friend_cred rx || enabled (bt_mesh_gatt_proxy_get n))
             then bt_mesh_proxy_relay (contents buf) (ctx_recv_dst (rx_ctx rx)) else mret false);
        when (relay_to_adv (rx_net_if rx) n || rx_friend_cred rx)
          (modify (net_event_log (EvAdvSend (relay_xmit_of rx n) (contents buf) false)))
    end.

(** ** Receiving *)

(** The receiving functions run on a state that has the network as its field [net_of]. *)
Context {S : Type} (net_of : S -> bt_mesh_net) `{!Assignable net_of}.

(** [bt_mesh_trans_recv]: the return value, and the buffer and context it leaves. *)
Variable trans_recv : net_buf_simple -> bt_mesh_net_rx -> Z -> ST S (ret_code * net_buf_simple * bt_mesh_net_rx).

Definition rx_init (rssi : Z) : bt_mesh_net_rx :=
  mkRx 0 (mkCtx 0 0 0 0 rssi 0 false 0) 0 false false false false BT_MESH_NET_IF_ADV false false 0.

(** The stack buffer of [bt_mesh_net_recv]; its bytes are all written before use. *)
Definition recv_buf : net_buf_simple := mkBuf 0 0 (replicate 29 0).

(** Undo [msg_cache_add]. *)
Definition msg_cache_forget (rx : bt_mesh_net_rx) (n : bt_mesh_net) : bt_mesh_net :=
  n <| msg_cache := alter (fun '(_, seq) => (0, seq)) (rx_msg_cache_idx rx) (msg_cache n) |>
    <| msg_cache_next := rx_msg_cache_idx rx |>.

Definition bt_mesh_net_recv (data : bytes) (rssi : Z) (net_if : bt_mesh_net_if) : ST S unit :=
  valid ← gets (fun s => net_valid (net_of s));
  if negb valid then mret tt
  else
    '(err, rx, buf) ← zoom net_of (bt_mesh_net_decode data net_if (rx_init rssi) recv_buf);
    match err with
    | Some _ => mret tt
    | None =>
        let state := net_buf_simple_save buf in
        local ← gets (fun s => local_address (ctx_recv_dst (rx_ctx rx)) (net_of s)); local ← need local;
        let rx := rx <| rx_local_match := local |> in
        let is_proxy := config_proxy && bool_decide (net_if = BT_MESH_NET_IF_PROXY) in
        _ ← when is_proxy (zoom net_of (modify (net_event_log (EvProxyAddrAdd (rx_addr rx)))));
        proxy ← gets (fun s => bt_mesh_gatt_proxy_get (net_of s));
        if is_proxy && negb (enabled proxy) && negb local then mret tt
        else
          '(err, buf, rx) ← trans_recv buf rx rssi;
          _ ← when (bool_decide (err = Some EAGAIN)) (zoom net_of (modify (msg_cache_forget rx)));
          when (negb (BT_MESH_ADDR_IS_UNICAST (ctx_recv_dst (rx_ctx rx)))
                || (negb (rx_local_match rx) && negb (rx_friend_match rx)))
            (zoom net_of (bt_mesh_net_relay (net_buf_simple_restore state buf) rx))
    end.

Definition local_rx (i : nat) (sub : bt_mesh_subnet) (pdu : bytes) (n : bt_mesh_net) : bt_mesh_net_rx :=
  mkRx i (mkCtx (sub_net_idx sub) BT_MESH_KEY_UNUSED (SRC pdu) (DST pdu) 0 (TTL pdu) false 1)
    (SEQ pdu) (rx_ivi_old pdu n) (SUBNET_KEY_TX_IDX sub) false (CTL pdu) BT_MESH_NET_IF_LOCAL true false 0.

(** The work that empties the loopback queue: at most [fuel] buffers, more are left
    queued. *)
Fixpoint bt_mesh_net_local (fuel : nat) : ST S unit :=
  match fuel with
  | O => mret tt
  | Datatypes.S fuel =>
      q ← gets (fun s => local_queue (net_of s));
      match q with
      | [] => mret tt
      | (i, pdu) :: q =>
          _ ← zoom net_of (modify (fun n =>
                n <| local_queue := q |> <| loopback_held := Datatypes.S (loopback_held n) |>));
          n ← gets net_of;
          sub ← need (subs (net_subnets n) !! i);
          _ ← trans_recv (mkBuf 0 (length pdu) (pdu ++ replicate (LOOPBACK_MAX_PDU_LEN - length pdu) 0))
                (local_rx i sub pdu n) 0;
          _ ← zoom net_of (modify (fun n => n <| loopback_held := pred (loopback_held n) |>));
          bt_mesh_net_local fuel
      end
  end.

End Net.
