(* ===== verification/NetProps.v ===== *)
(** * Properties of the network layer

    Nonces are never reused, the IV update procedure completes, network PDUs survive
    encoding and decoding, relaying forwards them, and the consequences of three
    defects of [net.c]. *)

From Stdlib Require Import Sorted.
From S2P Require Import Prelude ByteOrder MeshDefs Cdb NetBuf Access Rpl Ccm MeshCrypto Subnet Net.

(** ** Sequence numbers and the IV index *)

Section Nonces.
Context (config_proxy config_friend config_cdb : bool).

(** What the stack does to the IV index and the sequence number: a PDU takes a
    number, a secure network beacon reports an IV index, the timer expires. *)
Inductive iv_op : Type :=
| OpSeq (tx_in_progress : bool)
| OpBeacon (tx_in_progress : bool) (iv : Z) (iv_update : bool)
| OpTimer (tx_in_progress : bool).

(** The state after an operation, and the IV index and 24-bit sequence number that
    the header of the PDU and its nonce carry. *)
Definition run_iv_op (o : iv_op) (n : bt_mesh_net) : list (Z * Z) * bt_mesh_net :=
  match o with
  | OpSeq t =>
      let '(seq, n') := bt_mesh_next_seq config_proxy config_friend config_cdb t n in
      ([(BT_MESH_NET_IVI_TX n', seq mod 2 ^ 24)], n')
  | OpBeacon t iv u => ([], snd (bt_mesh_net_iv_update config_proxy config_friend config_cdb t iv u n))
  | OpTimer t => ([], ivu_refresh config_proxy config_friend config_cdb t n)
  end.

Fixpoint run_iv_ops (os : list iv_op) (n : bt_mesh_net) : list (Z * Z) :=
  match os with
  | [] => []
  | o :: os => let '(l, n') := run_iv_op o n in l ++ run_iv_ops os n'
  end.

(** The next nonce, as a pair ordered lexicographically. *)
Definition nonce_of (n : bt_mesh_net) : Z * Z := (BT_MESH_NET_IVI_TX n, net_seq n).
Definition nonce_le (a b : Z * Z) : Prop := a.1 < b.1 \/ (a.1 = b.1 /\ a.2 <= b.2).
Definition nonce_lt (a b : Z * Z) : Prop := a.1 < b.1 \/ (a.1 = b.1 /\ a.2 < b.2).

(** [k] more operations stay within the 32-bit IV index, [m] more numbers within 24 bits. *)
Definition iv_room (k m : Z) (n : bt_mesh_net) : Prop :=
  0 <= iv_index n /\ (ivu_in_progress n = true -> 1 <= iv_index n) /\
  iv_index n + 42 * (k + 1) < 2 ^ 32 /\ 0 <= net_seq n /\ net_seq n + m <= 2 ^ 24.

Lemma do_update_fields iv u n :
  let n' := do_update config_proxy config_friend config_cdb iv u n in
  iv_index n' = (if u then iv else iv_index n) /\ ivu_in_progress n' = u /\
  net_seq n' = (if u then net_seq n else 0) /\
  net_rpl n' = (if u then bt_mesh_rpl_reset (net_rpl n) else net_rpl n) /\ ivu_duration n' = 0.
Proof. by destruct u. Qed.

(** The result of [bt_mesh_net_iv_update] is the same state up to the pending flag, or
    one of the three transitions. *)
Lemma iv_update_cases t iv u n :
  0 <= iv_index n ->
  let n' := snd (bt_mesh_net_iv_update config_proxy config_friend config_cdb t iv u n) in
  (iv_index n' = iv_index n /\ ivu_in_progress n' = ivu_in_progress n /\ net_seq n' = net_seq n)
  \/ (ivu_in_progress n = true /\ iv_index n' = iv_index n /\ ivu_in_progress n' = false /\ net_seq n' = 0)
  \/ (ivu_in_progress n = false /\ iv_index n' = u32 (iv_index n + 1) /\ ivu_in_progress n' = true /\
      net_seq n' = net_seq n)
  \/ (ivu_in_progress n = false /\ iv_index n' = iv /\ ivu_in_progress n' = u /\ net_seq n' = 0 /\
      u32 (iv_index n + 1) < iv <= u32 (iv_index n + 42)).
Proof.
  intros H0. cbn zeta. unfold bt_mesh_net_iv_update.
  destruct (ivu_in_progress n) eqn:P.
  - destruct (negb (iv =? iv_index n)) eqn:E1; [auto|]. destruct u; [auto|].
    destruct (ivu_duration n <? _); [auto|]. destruct t; cbn [negb andb snd]; [auto|].
    right; left. by destruct (do_update_fields iv false n) as (-> & -> & -> & _).
  - destruct (iv =? iv_index n) eqn:E0; [auto|].
    destruct ((iv <? iv_index n) || _) eqn:E1; [auto|].
    destruct (u32 (iv_index n + 1) <? iv) eqn:E2.
    + right; right; right. cbn [snd]. zbool.
      edestruct do_update_fields as (-> & -> & -> & _). by destruct u.
    + destruct u; cbn [negb]; [|destruct ((iv =? _) && _); auto].
      rewrite andb_false_r. destruct (ivu_duration n <? _); [auto|]. cbn [negb andb snd].
      right; right; left. destruct (do_update_fields iv true n) as (-> & -> & -> & _). zbool.
      pose proof (Z.mod_le (iv_index n + 1) (2 ^ 32)). unfold u32 in *. split_and!; (done || lia).
Qed.

(** An IV update never makes the next nonce smaller. *)
Lemma iv_update_nonce k m t iv u n :
  0 <= k -> 0 <= m -> iv_room (k + 1) m n ->
  let n' := snd (bt_mesh_net_iv_update config_proxy config_friend config_cdb t iv u n) in
  iv_room k m n' /\ nonce_le (nonce_of n) (nonce_of n').
Proof.
  intros Hk Hm (H1 & H2 & H3 & H4 & H5). cbn zeta.
  pose proof (iv_update_cases t iv u n H1) as C. cbn zeta in C. revert C. generalize (snd (bt_mesh_net_iv_update
    config_proxy config_friend config_cdb t iv u n)) as n'. intros n' C.
  unfold iv_room, nonce_le, nonce_of, BT_MESH_NET_IVI_TX. cbn [fst snd].
  rewrite !(u32_id (iv_index n + _)) in C by (unfold is_u32; lia).
  destruct C as [(E1 & E2 & E3)|[(P & E1 & E2 & E3)|[(P & E1 & E2 & E3)|(P & E1 & E2 & E3 & E4)]]];
    rewrite E1, E2, E3; try rewrite P in *.
  - destruct (ivu_in_progress n); [specialize (H2 eq_refl)|]; rewrite !u32_id by (unfold is_u32; lia);
      split_and!; (done || lia).
  - specialize (H2 eq_refl). rewrite !u32_id by (unfold is_u32; lia). split_and!; (done || lia).
  - rewrite !u32_id by (unfold is_u32; lia). split_and!; (done || lia).
  - destruct u; rewrite !u32_id by (unfold is_u32; lia); split_and!; (done || lia).
Qed.

(** Starting an update changes neither the index used for sending nor the number. *)
Lemma iv_update_started t n :
  0 <= iv_index n < 2 ^ 32 - 1 -> ivu_in_progress n = false ->
  let n' := snd (bt_mesh_net_iv_update config_proxy config_friend config_cdb t (u32 (iv_index n + 1)) true n) in
  BT_MESH_NET_IVI_TX n' = BT_MESH_NET_IVI_TX n /\ net_seq n' = net_seq n.
Proof.
  intros H P. cbn zeta. pose proof (iv_update_cases t (u32 (iv_index n + 1)) true n ltac:(lia)) as C.
  cbn zeta in C. unfold BT_MESH_NET_IVI_TX. rewrite P in *.
  destruct C as [(-> & -> & ->)|[(? & _)|[(_ & -> & -> & ->)|(_ & _ & _ & _ & E)]]]; try done; [|lia].
  rewrite !u32_id by (unfold is_u32 in *; rewrite ?u32_id by (unfold is_u32; lia); lia). lia.
Qed.

Lemma iv_room_le j k m n : j <= k -> iv_room k m n -> iv_room j m n.
Proof. unfold iv_room. intros ? (? & ? & ? & ? & ?). split_and!; (done || lia). Qed.

(** States that agree on the IV index, the sequence number and the mode. *)
Lemma iv_room_same k m n n' :
  iv_index n' = iv_index n -> ivu_in_progress n' = ivu_in_progress n -> net_seq n' = net_seq n ->
  iv_room k m n -> iv_room k m n' /\ nonce_of n' = nonce_of n.
Proof. unfold iv_room, nonce_of, BT_MESH_NET_IVI_TX. by intros -> -> ->. Qed.

Lemma nonce_le_refl p : nonce_le p p.
Proof. unfold nonce_le. lia. Qed.

Lemma timer_nonce k m t n :
  0 <= k -> 0 <= m -> iv_room (k + 1) m n ->
  let n' := ivu_refresh config_proxy config_friend config_cdb t n in
  iv_room k m n' /\ nonce_le (nonce_of n) (nonce_of n').
Proof.
  intros Hk Hm H. cbn zeta. unfold ivu_refresh.
  set (n1 := n <| ivu_timer := _ |> <| ivu_duration := _ |>).
  assert (iv_room (k + 1) m n1 /\ nonce_of n1 = nonce_of n) as [R1 N1] by (by apply iv_room_same).
  rewrite <- N1.
  destruct (ivu_duration n1 <? _); [|destruct (ivu_in_progress n1)].
  2: { destruct (iv_room_same (k + 1) m n1 (bt_mesh_beacon_ivu_initiator true n1)) as [R2 N2]; try done.
       rewrite <- N2. by apply iv_update_nonce. }
  all: destruct (iv_room_same k m n1 (net_event_log (EvStoreIv true) n1)) as [R2 N2];
    try done; try (apply (iv_room_le _ (k + 1)); [lia|done]).
  all: split; [exact R2|]; rewrite <- N2 at 1; apply nonce_le_refl.
Qed.

(** A number handed out is the next nonce, and the one after it is greater. *)
Lemma seq_nonce k m t n :
  0 <= k -> 0 <= m -> iv_room (k + 1) (m + 1) n ->
  let '(seq, n') := bt_mesh_next_seq config_proxy config_friend config_cdb t n in
  iv_room k m n' /\ nonce_of n = (BT_MESH_NET_IVI_TX n', seq mod 2 ^ 24) /\ nonce_lt (nonce_of n) (nonce_of n').
Proof.
  intros Hk Hm H. unfold bt_mesh_next_seq. cbv zeta.
  set (n1 := net_event_log EvStoreSeq _).
  assert (net_seq n1 = net_seq n + 1) as S1.
  { apply u32_id. destruct H as (? & ? & ? & ? & ?). unfold is_u32. lia. }
  assert (iv_room (k + 1) m n1) as R1.
  { destruct H as (? & ? & ? & ? & ?). unfold iv_room. rewrite S1. split_and!; (done || lia). }
  assert (BT_MESH_NET_IVI_TX n1 = BT_MESH_NET_IVI_TX n) as V1 by done.
  assert (net_seq n mod 2 ^ 24 = net_seq n) as M.
  { apply Z.mod_small. destruct H as (? & ? & ? & ? & ?). lia. }
  destruct (negb (ivu_in_progress n1) && _ && _) eqn:E.
  - set (n2 := bt_mesh_beacon_ivu_initiator true n1).
    destruct (iv_room_same (k + 1) m n1 n2) as [R2 N2]; try done.
    destruct (iv_update_nonce k m t (u32 (iv_index n2 + 1)) true n2 Hk Hm R2) as [R3 L].
    pose proof (iv_update_started t n2) as St.
    destruct St as [V3 S3]; [destruct R2 as (? & ? & ? & ? & ?); lia|by apply andb_true_iff in E as [[?%negb_true_iff _]%andb_true_iff _]|].
    unfold nonce_of, nonce_lt in *. cbn [fst snd] in *. rewrite M, S3.
    change (net_seq n2) with (net_seq n1). change (BT_MESH_NET_IVI_TX n2) with (BT_MESH_NET_IVI_TX n) in V3.
    rewrite V3. split_and!; try done. right. lia.
  - split_and!; [by apply (iv_room_le _ (k + 1)); [lia|]|unfold nonce_of; by rewrite V1, M|].
    unfold nonce_of, nonce_lt. cbn [fst snd]. rewrite V1. lia.
Qed.
Lemma run_iv_op_nonce k m o n :
  0 <= k -> 0 <= m -> iv_room (k + 1) (m + 1) n ->
  let '(l, n') := run_iv_op o n in
  iv_room k m n' /\
  ((l = [] /\ nonce_le (nonce_of n) (nonce_of n')) \/ (l = [nonce_of n] /\ nonce_lt (nonce_of n) (nonce_of n'))).
Proof.
  intros Hk Hm H.
  assert (iv_room (k + 1) m n) as H' by (destruct H as (? & ? & ? & ? & ?); unfold iv_room; split_and!; (done || lia)).
  destruct o as [t|t iv u|t]; cbn [run_iv_op].
  - pose proof (seq_nonce k m t n Hk Hm H) as S. destruct (bt_mesh_next_seq _ _ _ t n) as [seq n'].
    destruct S as (R & E & L). split; [done|]. right. by rewrite E in *.
  - destruct (iv_update_nonce k m t iv u n Hk Hm H'). auto.
  - destruct (timer_nonce k m t n Hk Hm H'). auto.
Qed.

Lemma nonce_lt_trans p q r : nonce_le p q -> nonce_lt q r -> nonce_lt p r.
Proof. unfold nonce_le, nonce_lt. lia. Qed.

Lemma nonce_lt_le p q : nonce_lt p q -> nonce_le p q.
Proof. unfold nonce_le, nonce_lt. lia. Qed.

Lemma nonce_le_trans p q r : nonce_le p q -> nonce_le q r -> nonce_le p r.
Proof. unfold nonce_le. lia. Qed.

Lemma run_iv_ops_nonce os n :
  iv_room (Z.of_nat (length os)) (Z.of_nat (length os)) n ->
  Forall (nonce_le (nonce_of n)) (run_iv_ops os n) /\ StronglySorted nonce_lt (run_iv_ops os n).
Proof.
  revert n. induction os as [|o os IH]; intros n H; cbn [run_iv_ops]; [by repeat constructor|].
  cbn [length] in H. rewrite Nat2Z.inj_succ in H.
  pose proof (run_iv_op_nonce (Z.of_nat (length os)) (Z.of_nat (length os)) o n) as R.
  destruct (run_iv_op o n) as [l n']. destruct R as [R L]; [lia..|done|].
  destruct (IH n' R) as [F S].
  destruct L as [[-> L]|[-> L]]; cbn [app].
  - split; [|done]. revert F; apply Forall_impl. intros x Hx. by eapply nonce_le_trans.
  - split; constructor; try done; try apply nonce_le_refl.
    all: revert F; apply Forall_impl; intros x Hx.
    + by eapply nonce_le_trans, Hx; apply nonce_lt_le.
    + unfold nonce_le, nonce_lt in *. lia.
Qed.

(** C10: No nonce is used twice.  Over any sequence of PDUs sent, secure network
    beacons received and timer expiries, in any order and with any pending transfers,
    the pairs of IV index and 24-bit sequence number that [net_header_encode] puts
    into the PDUs increase strictly, so no two PDUs of a node are encrypted with the
    same nonce, as long as the counters do not wrap: the code does not itself stop
    at the last sequence number. *)
Theorem nonces_unique os n :
  0 <= iv_index n -> (ivu_in_progress n = true -> 1 <= iv_index n) ->
  iv_index n + 42 * (Z.of_nat (length os) + 1) < 2 ^ 32 ->
  0 <= net_seq n -> net_seq n + Z.of_nat (length os) <= 2 ^ 24 ->
  StronglySorted nonce_lt (run_iv_ops os n) /\ NoDup (run_iv_ops os n).
Proof.
  intros. destruct (run_iv_ops_nonce os n) as [_ S]; [by split_and!|]. split; [done|].
  induction S as [|p l S IH F]; constructor; [|done].
  intros Hin%list_elem_of_In. rewrite Forall_forall in F. apply F in Hin. unfold nonce_lt in Hin. lia.
Qed.

(** An expiry before the 96 hours are over only counts. *)
Lemma tick_counts t n d :
  ivu_in_progress n = true -> ivu_duration n = d -> 0 <= d < 72 ->
  let n' := ivu_refresh config_proxy config_friend config_cdb t n in
  ivu_in_progress n' = true /\ ivu_duration n' = d + 24 /\ ivu_timer n' = true /\
  iv_index n' = iv_index n /\ net_seq n' = net_seq n.
Proof.
  intros P D H. cbn zeta. unfold ivu_refresh. set (n1 := n <| ivu_timer := _ |> <| ivu_duration := _ |>).
  assert (ivu_duration n1 = d + 24) as D1.
  { change (u8 (ivu_duration n + 24) = d + 24). rewrite D. apply u8_id. unfold is_u8. lia. }
  rewrite D1, (proj2 (Z.ltb_lt _ _)) by (unfold BT_MESH_IVU_MIN_HOURS; lia). split_and!; try done.
Qed.

(** The expiry after 72 hours ends the update. *)
Lemma tick_ends n :
  ivu_in_progress n = true -> ivu_duration n = 72 ->
  let n' := ivu_refresh config_proxy config_friend config_cdb false n in
  ivu_in_progress n' = false /\ iv_index n' = iv_index n /\ net_seq n' = 0 /\ ivu_duration n' = 0.
Proof.
  intros P D. cbn zeta. unfold ivu_refresh. set (n1 := n <| ivu_timer := _ |> <| ivu_duration := _ |>).
  assert (ivu_duration n1 = 96) as D1 by (change (u8 (ivu_duration n + 24) = 96); by rewrite D).
  assert (ivu_in_progress n1 = true) as P1 by exact P.
  rewrite D1, P1. change (96 <? BT_MESH_IVU_MIN_HOURS) with false. cbv iota.
  set (n2 := bt_mesh_beacon_ivu_initiator true n1).
  unfold bt_mesh_net_iv_update.
  assert (ivu_in_progress n2 = true) as -> by exact P. assert (ivu_duration n2 = 96) as -> by exact D1.
  rewrite Z.eqb_refl. change (96 <? BT_MESH_IVU_MIN_HOURS) with false. cbn [negb andb snd].
  by destruct (do_update_fields (iv_index n2) false n2) as (-> & -> & -> & _ & ->).
Qed.

(** C23: The IV update procedure completes.  In the update state with no transfer
    pending, [ivu_refresh] runs every 24 hours; at the fourth expiry the node returns
    to normal operation, with the IV index unchanged, the sequence number reset, and
    every earlier expiry having resubmitted the timer and changed neither. *)
Theorem iv_update_completes n :
  ivu_in_progress n = true -> ivu_duration n = 0 ->
  let tick := ivu_refresh config_proxy config_friend config_cdb false in
  ivu_timer (tick n) = true /\ ivu_timer (tick (tick n)) = true /\ ivu_timer (tick (tick (tick n))) = true /\
  ivu_in_progress (tick (tick (tick n))) = true /\ net_seq (tick (tick (tick n))) = net_seq n /\
  let n' := tick (tick (tick (tick n))) in
  ivu_in_progress n' = false /\ iv_index n' = iv_index n /\ net_seq n' = 0 /\ ivu_duration n' = 0 /\
  BT_MESH_NET_IVI_TX n' = u32 (iv_index n).
Proof.
  intros P D. cbn zeta.
  pose proof (tick_counts false n 0 P D ltac:(done)) as (P1 & D1 & T1 & V1 & S1).
  pose proof (tick_counts false _ 24 P1 D1 ltac:(done)) as (P2 & D2 & T2 & V2 & S2).
  pose proof (tick_counts false _ 48 P2 D2 ltac:(done)) as (P3 & D3 & T3 & V3 & S3).
  pose proof (tick_ends _ P3 D3) as (P4 & V4 & S4 & D4).
  unfold BT_MESH_NET_IVI_TX. rewrite P4, Z.sub_0_r. split_and!; congruence.
Qed.

(** Storing the list changes no entry the check looks at. *)
Lemma covers_stored l addr old seq :
  covers l addr old seq -> covers (rpl_store_pending true l) addr old seq.
Proof.
  intros (k & r & S & L & H). exists k, (store_pending_rpl r). split_and!; try apply H.
  - rewrite <- S. unfold slot_of, rpl_store_pending, bt_mesh_rpl_foreach. clear.
    induction l as [|q l IH]; [done|]. cbn [map find_index]. by rewrite IH.
  - unfold rpl_store_pending, bt_mesh_rpl_foreach. by rewrite list_lookup_fmap, L.
Qed.

Lemma covers_replay l rx seq :
  covers l (rx_addr rx) false seq -> protected rx = true -> rx_addr rx <> 0 -> rx_seq rx <= seq ->
  (bt_mesh_rpl_check false rx l).1.1 = true.
Proof.
  intros (k & r & S & L & A & H) P N Q. unfold protected in P. apply andb_true_iff in P as [P1 P2].
  unfold bt_mesh_rpl_check. rewrite (proj1 (negb_true_iff _) P1), P2. cbn [negb].
  rewrite check_loop_slot, S, L, A, (proj2 (Z.eqb_neq _ _) N). cbn [orb].
  destruct (newer (rpl_old_iv r) (rpl_seq r) (rx_old_iv rx) (rx_seq rx)) eqn:E; [|done]. exfalso.
  unfold newer in *. destruct (rpl_old_iv r), (rx_old_iv rx); cbn in *; destruct H as [H|[H1 H2]]; zbool;
    try done; lia.
Qed.

(** IV index recovery does not clear the replay list.  A node in normal operation
    that learns of an IV index two to 42 ahead takes it over and restarts its own
    sequence number, but [bt_mesh_rpl_clear] only schedules the storage work, which
    for a provisioned node writes the entries out: the list keeps the sequence numbers
    of the previous IV index, and whatever a remembered peer sends under the new index
    with a sequence number not above its old one is rejected as a replay. *)
Theorem recovery_keeps_rpl t iv n rx seq :
  ivu_in_progress n = false -> 0 <= iv_index n -> iv_index n + 42 < 2 ^ 32 ->
  iv_index n + 1 < iv <= iv_index n + 42 ->
  covers (net_rpl n) (rx_addr rx) false seq ->
  protected rx = true -> rx_addr rx <> 0 -> rx_old_iv rx = false -> rx_seq rx <= seq ->
  let n' := snd (bt_mesh_net_iv_update config_proxy config_friend config_cdb t iv false n) in
  iv_index n' = iv /\ net_seq n' = 0 /\ ivu_in_progress n' = false /\
  (bt_mesh_rpl_check false rx (net_rpl n')).1.1 = true /\
  (bt_mesh_rpl_check false rx (rpl_store_pending true (net_rpl n'))).1.1 = true.
Proof.
  intros P V W I C Pr A O Q. cbn zeta. unfold bt_mesh_net_iv_update. rewrite P.
  rewrite (proj2 (Z.eqb_neq _ _)), !u32_id, (proj2 (Z.ltb_ge iv _)), (proj2 (Z.ltb_ge _ iv)),
    (proj2 (Z.ltb_lt _ iv)) by (unfold is_u32; lia). cbn [orb snd].
  edestruct do_update_fields as (-> & -> & -> & -> & _). split_and!; try done.
  - by apply (covers_replay _ _ seq).
  - by apply (covers_replay _ _ seq); [apply covers_stored|..].
Qed.

End Nonces.

(** ** Network PDUs in the air *)

Section Pdu.
Context {ecb : Ecb} {ecb_ok : EcbOk} (config_proxy : bool).

(** The encrypted PDU: the header bytes in clear, then payload and MIC. *)
Definition net_sealed (cred : bt_mesh_net_cred) (iv : Z) (proxy : bool) (pdu : bytes) : bytes :=
  let nonce := net_nonce config_proxy proxy pdu iv in
  take 7 pdu ++ ctr (cred_enc cred) nonce (drop 7 pdu)
    ++ ccm_mac (cred_enc cred) nonce (drop 7 pdu) [] (NET_MIC_LEN pdu) (u8 (Z.of_nat (length (drop 7 pdu)))).

(** The obfuscated PDU. *)
Definition obfuscated (iv : Z) (privacy : bytes) (pdu : bytes) : bytes :=
  take 1 pdu
  ++ zip_with Z.lxor (take 6 (drop 1 pdu))
       (take 6 (do_ecb privacy (replicate 5 0 ++ sys_put_be32 iv ++ take 7 (drop 7 pdu))))
  ++ drop 7 pdu.

Definition on_air (cred : bt_mesh_net_cred) (iv : Z) (proxy : bool) (pdu : bytes) : bytes :=
  obfuscated iv (cred_privacy cred) (net_sealed cred iv proxy pdu).

Lemma net_mic_len pdu : (4 <= NET_MIC_LEN pdu <= 8)%nat.
Proof. unfold NET_MIC_LEN. case_if; lia. Qed.

Lemma length_net_nonce proxy pdu iv : length (net_nonce config_proxy proxy pdu iv) = 13%nat.
Proof. unfold net_nonce. by case_if. Qed.

Lemma length_net_sealed cred iv proxy pdu :
  length (net_sealed cred iv proxy pdu) = (length pdu + NET_MIC_LEN pdu)%nat.
Proof.
  pose proof (net_mic_len pdu). unfold net_sealed.
  rewrite !length_app, length_ctr, length_ccm_mac, length_take, length_drop by lia. lia.
Qed.

(** The seven header bytes are those of the PDU. *)
Lemma sealed_header cred iv proxy pdu i :
  (7 <= length pdu)%nat -> (i < 7)%nat -> byte_at (net_sealed cred iv proxy pdu) i = byte_at pdu i.
Proof.
  intros H Hi. unfold net_sealed, byte_at.
  rewrite app_nth1 by (rewrite length_take; lia). rewrite <- (take_drop 7 pdu) at 2.
  by rewrite app_nth1 by (rewrite length_take; lia).
Qed.

Lemma sealed_nonce cred iv proxy pdu :
  (7 <= length pdu)%nat ->
  net_nonce config_proxy proxy (net_sealed cred iv proxy pdu) iv = net_nonce config_proxy proxy pdu iv.
Proof.
  intros H. unfold net_nonce, create_net_nonce, create_proxy_nonce.
  by rewrite !(sealed_header cred iv proxy pdu) by lia.
Qed.

Lemma sealed_mic_len cred iv proxy pdu :
  (7 <= length pdu)%nat -> NET_MIC_LEN (net_sealed cred iv proxy pdu) = NET_MIC_LEN pdu.
Proof. intros H. unfold NET_MIC_LEN. by rewrite sealed_header by lia. Qed.

Lemma bt_mesh_net_encrypt_ok cred iv proxy b :
  buf_wf b -> (7 <= buf_len b)%nat -> Z.of_nat (buf_len b) < 2 ^ 16 ->
  (NET_MIC_LEN (contents b) <= net_buf_simple_tailroom b)%nat ->
  exists b', bt_mesh_net_encrypt config_proxy (cred_enc cred) iv proxy b = Some (None, b') /\
    contents b' = net_sealed cred iv proxy (contents b) /\ buf_wf b' /\ buf_data b' = buf_data b.
Proof.
  intros Hwf H7 Hl Hr. pose proof (net_mic_len (contents b)).
  pose proof (length_contents b Hwf) as Hc. pose proof (length_net_nonce proxy (contents b) iv).
  destruct b as [d n mem]. unfold buf_wf, buf_size, net_buf_simple_tailroom, net_buf_simple_headroom in *.
  cbn [buf_data buf_len buf_mem] in *. unfold buf_size in Hr. cbn [buf_mem] in Hr.
  unfold bt_mesh_net_encrypt. rewrite bind_gets. unfold id. cbn [buf_data buf_len].
  rewrite (proj2 (Nat.ltb_ge _ _)) by lia. set (mic := NET_MIC_LEN _) in *.
  erewrite bind_some; [|apply zoom_mem_some, bt_ccm_encrypt_ok; (done || cbn; lia)].
  cbn [buf_mem buf_data buf_len].
  assert (slice (d + 7) (n - 7) mem = drop 7 (contents (mkBuf d n mem))) as ->.
  { unfold slice, contents. cbn [buf_data buf_len buf_mem]. by rewrite skipn_firstn_comm, drop_drop. }
  set (c := contents _) in *. set (w := _ ++ _).
  assert (length w = n - 7 + mic)%nat as Hw.
  { unfold w. rewrite length_app, length_ctr, length_ccm_mac, length_drop; lia. }
  exists (mkBuf d (n + mic) (list_inserts (d + 7) w mem)). split; [|split; [|split; [|done]]].
  - erewrite bind_some; [reflexivity|].
    unfold net_buf_simple_add, net_buf_simple_tailroom, net_buf_simple_headroom, buf_size.
    cbn [buf_mem buf_data buf_len]. rewrite length_inserts, (proj2 (Nat.leb_le _ _)) by lia. reflexivity.
  - rewrite (contents_sealed d n mic w mem 7) by lia. unfold net_sealed, w. fold mic.
    rewrite length_drop, Hc. f_equal. unfold c, contents. cbn [buf_data buf_len buf_mem].
    rewrite take_take. f_equal. lia.
  - unfold buf_wf, buf_size. cbn. rewrite length_inserts. lia.
Qed.
Lemma bt_mesh_net_decrypt_ok cred iv proxy b pdu :
  buf_wf b -> contents b = net_sealed cred iv proxy pdu -> (7 <= length pdu)%nat ->
  Z.of_nat (length pdu) < 2 ^ 16 ->
  exists b', bt_mesh_net_decrypt config_proxy (cred_enc cred) iv proxy b = Some (None, b') /\
    contents b' = pdu /\ buf_wf b'.
Proof.
  intros Hwf Hs H7 Hl. pose proof (net_mic_len pdu). pose proof (length_net_nonce proxy pdu iv).
  pose proof (length_contents b Hwf) as Hc. rewrite Hs, length_net_sealed in Hc.
  unfold bt_mesh_net_decrypt. rewrite bind_gets. unfold id.
  rewrite Hs, sealed_mic_len, sealed_nonce by done. set (mic := NET_MIC_LEN pdu) in *.
  rewrite (proj2 (Nat.ltb_ge _ _)) by lia. rewrite bind_modify.
  destruct b as [d n mem]. unfold buf_wf, buf_size in Hwf. cbn [buf_data buf_len buf_mem] in *. subst n.
  replace (length pdu + mic - mic)%nat with (length pdu) by lia.
  assert (slice (d + 7) (length pdu - 7) mem = ctr (cred_enc cred) (net_nonce config_proxy proxy pdu iv) (drop 7 pdu) /\
          slice (d + 7 + (length pdu - 7)) mic mem =
          ccm_mac (cred_enc cred) (net_nonce config_proxy proxy pdu iv) (drop 7 pdu) [] mic
            (u8 (Z.of_nat (length pdu - 7))) /\ take 7 (drop d mem) = take 7 pdu) as (S1 & S2 & S3).
  { unfold contents, net_sealed in Hs. cbn [buf_data buf_len buf_mem] in Hs. fold mic in Hs.
    replace (length pdu + mic)%nat with (7 + (length pdu - 7 + mic))%nat in Hs by lia.
    rewrite take_split in Hs. apply app_inj_1 in Hs as [Hs1 Hs2]; [|rewrite !length_take, length_drop; lia].
    rewrite take_split, !drop_drop in Hs2.
    apply app_inj_1 in Hs2 as [Hs2 Hs3]; [|rewrite length_ctr, length_take, !length_drop; lia].
    rewrite length_drop in Hs3. unfold slice. split_and!; [exact Hs2| |exact Hs1]. rewrite <- Hs3. do 2 f_equal; lia. }
  erewrite zoom_mem_some; [|cbn [buf_mem assign]; rewrite bt_ccm_decrypt_ok by (done || cbn; lia);
    rewrite S1, S2, ctr_involutive, decide_True by done; reflexivity].
  eexists. split; [reflexivity|]. unfold contents, buf_wf, buf_size. cbn. rewrite length_inserts. split; [|lia].
  pose proof (contents_sealed d 7 (length pdu - 7) (drop 7 pdu) mem 7) as P.
  replace (7 + (length pdu - 7))%nat with (length pdu) in P by lia.
  unfold contents in P. cbn [buf_data buf_len buf_mem] in P. rewrite P by (rewrite ?length_drop; lia). by rewrite S3, take_drop.
Qed.

Lemma obfuscated_app iv privacy pdu l :
  (14 <= length pdu)%nat -> obfuscated iv privacy (pdu ++ l) = obfuscated iv privacy pdu ++ l.
Proof.
  intros H. unfold obfuscated.
  rewrite !drop_app_le, !take_app_le by (rewrite ?length_drop; lia). by rewrite <- !app_assoc.
Qed.

Lemma length_obfuscated iv privacy pdu :
  (14 <= length pdu)%nat -> length (obfuscated iv privacy pdu) = length pdu.
Proof.
  intros H. unfold obfuscated. rewrite !length_app, length_zip_with, !length_take, !length_drop, length_do_ecb. lia.
Qed.

Lemma zip_lxor_involutive (a k : bytes) :
  (length a <= length k)%nat -> zip_with Z.lxor (zip_with Z.lxor a k) k = a.
Proof.
  revert k. induction a as [|x a IH]; intros [|y k] H; cbn in *; try done; [lia|].
  rewrite IH by lia. by rewrite Z.lxor_assoc, Z.lxor_nilpotent, Z.lxor_0_r.
Qed.

Lemma obfuscated_involutive iv privacy pdu :
  (14 <= length pdu)%nat -> obfuscated iv privacy (obfuscated iv privacy pdu) = pdu.
Proof.
  intros H. set (k := take 6 (do_ecb privacy (replicate 5 0 ++ sys_put_be32 iv ++ take 7 (drop 7 pdu)))).
  assert (length k = 6%nat) as Hk by (unfold k; rewrite length_take, length_do_ecb; lia).
  assert (length (take 6 (drop 1 pdu)) = 6%nat) as Ha by (rewrite length_take, length_drop; lia).
  assert (obfuscated iv privacy pdu = take 1 pdu ++ zip_with Z.lxor (take 6 (drop 1 pdu)) k ++ drop 7 pdu) as E by done.
  set (z := zip_with Z.lxor (take 6 (drop 1 pdu)) k) in *.
  assert (length z = 6%nat) as Hz by (unfold z; rewrite length_zip_with; lia).
  assert (length (take 1 pdu) = 1%nat) as H1 by (rewrite length_take; lia).
  assert (drop 7 (obfuscated iv privacy pdu) = drop 7 pdu) as D7.
  { rewrite E, app_assoc, drop_app_ge by (rewrite length_app; lia). rewrite length_app, Hz, H1. done. }
  unfold obfuscated at 1. rewrite D7. fold k.
  assert (take 1 (obfuscated iv privacy pdu) = take 1 pdu) as ->.
  { rewrite E, take_app_le, take_take by lia. done. }
  assert (take 6 (drop 1 (obfuscated iv privacy pdu)) = z) as ->.
  { rewrite E, drop_app_ge, H1, Nat.sub_diag, drop_0, take_app_le, take_ge by lia. done. }
  unfold z. rewrite zip_lxor_involutive by lia.
  assert (drop 7 pdu = drop 6 (drop 1 pdu)) as -> by by rewrite drop_drop. by rewrite !take_drop.
Qed.

Lemma obfuscate_buf_ok iv privacy b :
  buf_wf b -> (14 <= buf_len b)%nat ->
  exists b', obfuscate_buf iv privacy b = Some (None, b') /\
    contents b' = obfuscated iv privacy (contents b) /\ buf_wf b' /\ buf_data b' = buf_data b /\
    buf_size b' = buf_size b /\ buf_len b' = buf_len b.
Proof.
  intros Hwf Hl. pose proof (length_contents b Hwf) as Hc. destruct b as [d n mem].
  unfold buf_wf, buf_size in *. cbn [buf_data buf_len buf_mem] in *.
  assert (drop d mem = contents (mkBuf d n mem) ++ drop (d + n) mem) as Hd.
  { unfold contents. cbn [buf_data buf_len buf_mem]. rewrite <- drop_drop. by rewrite take_drop. }
  unfold obfuscate_buf. rewrite bind_gets. unfold id, buf_size. cbn [buf_data buf_mem].
  rewrite (proj2 (Nat.ltb_ge _ _)) by lia. unfold bt_mesh_net_obfuscate, bt_encrypt_be.
  fold (obfuscated iv privacy (drop d mem)). rewrite Hd, obfuscated_app by lia. set (c := contents _) in *.
  pose proof (length_obfuscated iv privacy c ltac:(lia)).
  assert (length (take d mem) = d) as Ht by (rewrite length_take; lia).
  exists (mkBuf d n (take d mem ++ obfuscated iv privacy c ++ drop (d + n) mem)).
  split; [reflexivity|]. split; [|split; [|split; [done|split; [|done]]]].
  - unfold contents at 1. cbn [buf_data buf_len buf_mem].
    rewrite drop_app_ge, Ht, Nat.sub_diag, drop_0 by lia. apply take_app_length'. congruence.
  - unfold buf_wf, buf_size. cbn [buf_data buf_len buf_mem]. rewrite !length_app, Ht, length_drop. lia.
  - cbn [buf_data buf_len buf_mem]. rewrite !length_app, Ht, length_drop. lia.
Qed.

Lemma net_encrypt_ok cred iv proxy b :
  buf_wf b -> (10 <= buf_len b)%nat -> Z.of_nat (buf_len b) < 2 ^ 16 ->
  (NET_MIC_LEN (contents b) <= net_buf_simple_tailroom b)%nat ->
  exists b', net_encrypt config_proxy cred iv proxy b = Some (None, b') /\
    contents b' = on_air cred iv proxy (contents b) /\ buf_wf b'.
Proof.
  intros Hwf Hl H16 Hr. pose proof (net_mic_len (contents b)). pose proof (length_contents b Hwf).
  destruct (bt_mesh_net_encrypt_ok cred iv proxy b) as (b1 & E1 & C1 & W1 & _); [done|lia|done..|].
  destruct (obfuscate_buf_ok iv (cred_privacy cred) b1) as (b2 & E2 & C2 & W2 & _); [done| |].
  { rewrite <- length_contents, C1, length_net_sealed by done. lia. }
  exists b2. split; [|split; [|done]].
  - unfold net_encrypt. by rewrite (bind_some _ _ _ _ _ E1).
  - by rewrite C2, C1.
Qed.

Lemma length_on_air cred iv proxy pdu :
  (10 <= length pdu)%nat -> length (on_air cred iv proxy pdu) = (length pdu + NET_MIC_LEN pdu)%nat.
Proof.
  intros H. pose proof (net_mic_len pdu). unfold on_air.
  rewrite length_obfuscated, length_net_sealed; rewrite ?length_net_sealed; lia.
Qed.

(** The first byte, with IVI and NID, travels in clear. *)
Lemma on_air_first cred iv proxy pdu :
  (10 <= length pdu)%nat -> byte_at (on_air cred iv proxy pdu) 0 = byte_at pdu 0.
Proof.
  intros H. rewrite <- (sealed_header cred iv proxy pdu 0) by lia. unfold on_air, obfuscated, byte_at.
  pose proof (length_net_sealed cred iv proxy pdu). pose proof (net_mic_len pdu).
  destruct (net_sealed cred iv proxy pdu); [cbn in *; lia|done].
Qed.
Lemma byte_at_drop n l i : byte_at (drop n l) i = byte_at l (n + i).
Proof. unfold byte_at. apply nth_skipn. Qed.

(** PDUs with the same seven header bytes have the same source and number. *)
Lemma same_header p q :
  (forall i, (i < 7)%nat -> byte_at p i = byte_at q i) -> SRC p = SRC q /\ SEQ p = SEQ q.
Proof.
  intros H. unfold SRC, SEQ, sys_get_be24, sys_get_be16. rewrite !byte_at_drop. by rewrite !H by lia.
Qed.

(** What the receiver [r] needs to accept a PDU sent under the IV index [iv]: the same
    index, or one more; a unicast source that is not one of its own elements; and, from
    the advertising bearer, no trace of it in the message cache. *)
Definition hears (r : bt_mesh_net) (iv : Z) (net_if : bt_mesh_net_if) (pdu : bytes) : Prop :=
  BT_MESH_NET_IVI_RX (rx_ivi_old pdu r) r = iv /\
  BT_MESH_ADDR_IS_UNICAST (SRC pdu) = true /\ bt_mesh_elem_find (net_comp r) (SRC pdu) = Some None /\
  net_if <> BT_MESH_NET_IF_PROXY_CFG /\ (net_if = BT_MESH_NET_IF_ADV -> msg_cache_match pdu r = false).

Lemma on_out_some {A : Type} (m : BUF A) rx out a out' :
  m out = Some (a, out') -> on_out m (rx, out) = Some (a, (rx, out')).
Proof. intros E. unfold on_out. cbn. by rewrite E. Qed.

Lemma net_decrypt_ok r cred iv pdu rx out :
  (10 <= length pdu)%nat -> (length pdu + NET_MIC_LEN pdu <= buf_size out)%nat ->
  Z.of_nat (length pdu) < 2 ^ 16 ->
  NID pdu = cred_nid cred -> hears r iv (rx_net_if rx) pdu ->
  exists out', net_decrypt config_proxy r (on_air cred iv false pdu) cred (rx, out) =
      Some (true, (set_rx_addr (SRC pdu) (rx <| rx_old_iv := rx_ivi_old pdu r |>), out')) /\
    contents out' = pdu /\ buf_wf out'.
Proof.
  intros Hl Hs H16 Hn (Hiv & Hu & He & Hc & Ha). pose proof (net_mic_len pdu).
  unfold net_decrypt, NID, rx_ivi_old, IVI in *. rewrite on_air_first, Hn, Z.eqb_refl by done. cbn [negb].
  cbv zeta. rewrite Hiv. unfold alter_rx. rewrite bind_modify. cbn [fst snd].
  erewrite bind_some; [|by apply on_out_some].
  destruct (add_mem_ok (on_air cred iv false pdu) (net_buf_simple_reset out) 0 [] (buf_size out))
    as (k & b1 & E1 & A1 & W1).
  { unfold buf_wf. cbn. lia. }
  { unfold abs, net_buf_simple_tailroom, contents. cbn. f_equal. unfold buf_size. cbn. lia. }
  { rewrite length_on_air; lia. }
  erewrite bind_some; [|by apply on_out_some].
  injection A1 as _ C1 _. cbn [app] in C1.
  assert (14 <= length (net_sealed cred iv false pdu))%nat as H14 by (rewrite length_net_sealed; lia).
  destruct (obfuscate_buf_ok iv (cred_privacy cred) b1) as (b2 & E2 & C2 & W2 & _); [done| |].
  { rewrite <- length_contents, C1, length_on_air by done. lia. }
  erewrite bind_some; [|by apply on_out_some].
  rewrite C1 in C2. unfold on_air in C2. rewrite obfuscated_involutive in C2 by done.
  cbv beta iota. rewrite bind_gets. cbn [snd]. rewrite C2. rewrite bind_modify. cbn [fst snd].
  destruct (same_header (net_sealed cred iv false pdu) pdu) as [-> ES].
  { intros i Hi. by apply sealed_header; lia. }
  rewrite Hu, He. cbn [negb need]. rewrite bind_ret, bind_gets. cbn [fst].
  change (rx_net_if (set_rx_addr _ _)) with (rx_net_if rx).
  assert (bool_decide (rx_net_if rx = BT_MESH_NET_IF_ADV) && msg_cache_match (net_sealed cred iv false pdu) r
          = false) as ->.
  { destruct (decide (rx_net_if rx = BT_MESH_NET_IF_ADV)) as [E|]; [|by rewrite bool_decide_false].
    rewrite bool_decide_true by done. cbn [andb]. etrans; [|exact (Ha E)]. unfold msg_cache_match. rewrite ES.
    destruct (same_header (net_sealed cred iv false pdu) pdu) as [-> _]; [|done].
    intros i Hi. by apply sealed_header; lia. }
  rewrite (bool_decide_false _ Hc).
  destruct (bt_mesh_net_decrypt_ok cred iv false b2 pdu) as (b3 & E3 & C3 & W3); [done..|lia|done|].
  exists b3. split; [|done]. by rewrite (bind_some _ _ _ _ _ (on_out_some _ _ _ _ _ E3)).
Qed.
(** The receiver holds the credentials in the first slot of its table. *)
Definition first_key (r : bt_mesh_net) (cred : bt_mesh_net_cred) : Prop :=
  exists sub rest, subs (net_subnets r) = sub :: rest /\ sub_net_idx sub <> BT_MESH_KEY_UNUSED /\
    keys_valid (sub_key0 sub) = true /\ keys_msg (sub_key0 sub) = cred /\ net_friends r = [].

(** The context describes the PDU. *)
Definition rx_describes (pdu : bytes) (rx : bt_mesh_net_rx) : Prop :=
  rx_addr rx = SRC pdu /\ ctx_recv_dst (rx_ctx rx) = DST pdu /\ rx_seq rx = SEQ pdu /\
  ctx_recv_ttl (rx_ctx rx) = TTL pdu /\ rx_ctl rx = CTL pdu /\ rx_sub rx = 0%nat /\
  rx_new_key rx = false /\ rx_friend_cred rx = false.

Lemma cred_find_first config_friend r cred cb rx out rx1 out1 :
  first_key r cred ->
  cb cred (rx <| rx_sub := 0%nat |>, out) = Some (true, (rx1, out1)) ->
  exists idx, bt_mesh_net_cred_find config_friend r cb (rx, out) =
    Some (true, (rx1 <| rx_new_key := false |> <| rx_friend_cred := false |>
                     <| rx_ctx := (rx_ctx rx1) <| ctx_net_idx := idx |> |>, out1)).
Proof.
  intros (sub & rest & Es & Hi & Hv & Hm & Hf) E. exists (sub_net_idx sub).
  unfold bt_mesh_net_cred_find. rewrite Es, Hf.
  erewrite bind_some; [|by destruct config_friend]. cbv beta iota. cbn [cred_find_subnets].
  rewrite (proj2 (Z.eqb_neq _ _) Hi). unfold cred_find_keys, alter_rx. rewrite Hm. cbn [sub_keys]. rewrite Hv.
  cbn [negb]. unfold mbind, ST_bind, modify. cbn [fst snd]. by rewrite E.
Qed.

(** The network after a PDU was accepted: both duplicate caches have an entry for it. *)
Definition remembered (pkt pdu : bytes) (net_if : bt_mesh_net_if) (r : bt_mesh_net) : bt_mesh_net :=
  let r := if bool_decide (net_if = BT_MESH_NET_IF_ADV) then (check_dup pkt r).2 else r in
  r <| msg_cache := <[msg_cache_next r := (SRC pdu mod 2 ^ 15, SEQ pdu mod 2 ^ 17)]> (msg_cache r) |>
    <| msg_cache_next := (S (msg_cache_next r) mod length (msg_cache r))%nat |>.

(** The rest of the context, for a PDU received by [r]. *)
Definition rx_received (r : bt_mesh_net) (pdu : bytes) (net_if : bt_mesh_net_if) (rx : bt_mesh_net_rx) : Prop :=
  rx_old_iv rx = rx_ivi_old pdu r /\ rx_net_if rx = net_if /\
  ctx_send_ttl (rx_ctx rx) = (if TTL pdu =? 0 then 0 else BT_MESH_TTL_DEFAULT).

Lemma net_decode_ok config_friend r cred iv pdu net_if rx out :
  (10 <= length pdu)%nat -> (18 <= length pdu + NET_MIC_LEN pdu <= buf_size out)%nat ->
  Z.of_nat (length pdu) < 2 ^ 16 ->
  NID pdu = cred_nid cred -> hears r iv net_if pdu -> DST pdu <> 0 -> first_key r cred ->
  (net_if = BT_MESH_NET_IF_ADV -> (check_dup (on_air cred iv false pdu) r).1 = false) ->
  exists rx' out',
    bt_mesh_net_decode config_proxy config_friend (on_air cred iv false pdu) net_if rx out r =
      Some ((None, rx', out'), remembered (on_air cred iv false pdu) pdu net_if r) /\
    contents out' = pdu /\ buf_wf out' /\ rx_describes pdu rx' /\ rx_received r pdu net_if rx'.
Proof.
  intros Hl [Hmin Hs] H16 Hn Hh Hd Hk Hdup. unfold bt_mesh_net_decode.
  rewrite length_on_air by done. rewrite (proj2 (Nat.ltb_ge _ _)) by (cbn; lia).
  set (pkt := on_air _ _ _ _) in *.
  set (r1 := if bool_decide (net_if = BT_MESH_NET_IF_ADV) then (check_dup pkt r).2 else r).
  erewrite (bind_some _ _ r false r1).
  2: { unfold r1. destruct (decide (net_if = BT_MESH_NET_IF_ADV)) as [E|E].
       - rewrite bool_decide_true by done. unfold step. specialize (Hdup E).
         destruct (check_dup pkt r). cbn in Hdup. by rewrite Hdup.
       - by rewrite bool_decide_false. }
  assert (hears r1 iv net_if pdu /\ first_key r1 cred /\ rx_ivi_old pdu r1 = rx_ivi_old pdu r) as (Hh1 & Hk1 & Hv1).
  { unfold r1, check_dup. destruct (bool_decide _); [|done]. by destruct (existsb _ _). }
  change (remembered pkt pdu net_if r) with
    (r1 <| msg_cache := <[msg_cache_next r1 := (SRC pdu mod 2 ^ 15, SEQ pdu mod 2 ^ 17)]> (msg_cache r1) |>
        <| msg_cache_next := (S (msg_cache_next r1) mod length (msg_cache r1))%nat |>).
  clearbody r1. cbv beta iota. rewrite bind_gets. unfold id.
  destruct (net_decrypt_ok r1 cred iv pdu (rx <| rx_net_if := net_if |> <| rx_sub := 0%nat |>) out)
    as (out' & E & C & W); try done.
  destruct (cred_find_first config_friend r1 cred (net_decrypt config_proxy r1 pkt)
              (rx <| rx_net_if := net_if |>) out _ _ Hk1 E) as (idx & ->).
  cbn [need]. rewrite bind_ret. cbv beta iota. cbn [negb]. rewrite C.
  set (rx1 := decoded_rx _ _). change (ctx_recv_dst (rx_ctx rx1)) with (DST pdu).
  rewrite (proj2 (Z.eqb_neq _ _) Hd), andb_false_r.
  eexists _, out'. split; [reflexivity|]. by split_and!.
Qed.
End Pdu.

(** ** Headers *)

Definition first_byte (nid ivi : Z) : Z := Z.lor nid (Z.shiftl (Z.land ivi 1) 7).
Definition ttl_byte (ctl : bool) (ttl : Z) : Z := if ctl then Z.lor ttl 128 else ttl.

Definition net_header (nid ivi : Z) (ctl : bool) (ttl seq src dst : Z) : bytes :=
  [first_byte nid ivi; ttl_byte ctl ttl] ++ sys_put_be24 seq ++ sys_put_be16 src ++ sys_put_be16 dst.

Lemma below_128 (P : Z -> bool) : forallb P (seqZ 0 128) = true -> forall x, 0 <= x < 128 -> P x = true.
Proof. rewrite forallb_forall. intros H x Hx. apply H, list_elem_of_In, elem_of_seqZ. lia. Qed.

Lemma first_byte_parts nid ivi :
  0 <= nid < 128 -> Z.land (first_byte nid ivi) 127 = nid /\ Z.shiftr (first_byte nid ivi) 7 = Z.land ivi 1.
Proof.
  intros H. unfold first_byte. change (Z.land ivi 1) with (Z.land ivi (Z.ones 1)). rewrite Z.land_ones by lia.
  assert (ivi mod 2 ^ 1 = 0 \/ ivi mod 2 ^ 1 = 1) as [-> | ->] by (pose proof (Z.mod_pos_bound ivi (2 ^ 1)); lia).
  all: pose proof (below_128 (fun x => (Z.land (Z.lor x (Z.shiftl 0 7)) 127 =? x) && (Z.shiftr (Z.lor x (Z.shiftl 0 7)) 7 =? 0)
    && (Z.land (Z.lor x (Z.shiftl 1 7)) 127 =? x) && (Z.shiftr (Z.lor x (Z.shiftl 1 7)) 7 =? 1))
    ltac:(reflexivity) nid H) as B; cbv beta in B; zbool; done.
Qed.

Lemma ttl_byte_parts ctl ttl :
  0 <= ttl < 128 -> Z.land (ttl_byte ctl ttl) 127 = ttl /\ (Z.shiftr (ttl_byte ctl ttl) 7 =? 0) = negb ctl /\
  Z.testbit (ttl_byte ctl ttl) 7 = ctl.
Proof.
  intros H. pose proof (below_128 (fun x => (Z.land (ttl_byte true x) 127 =? x) && negb (Z.shiftr (ttl_byte true x) 7 =? 0)
    && Z.testbit (ttl_byte true x) 7
    && (Z.land x 127 =? x) && (Z.shiftr x 7 =? 0) && negb (Z.testbit x 7)) ltac:(reflexivity) ttl H) as B.
  cbv beta in B. zbool. destruct ctl; cbn [negb ttl_byte]; split_and!; try done; by first [apply Z.eqb_eq | apply Z.eqb_neq].
Qed.

(** The fields read back from a header. *)
Lemma header_fields nid ivi ctl ttl seq src dst c :
  0 <= nid < 128 -> 0 <= ttl < 128 -> 0 <= seq < 2 ^ 24 -> is_u16 src -> is_u16 dst ->
  let pdu := net_header nid ivi ctl ttl seq src dst ++ c in
  NID pdu = nid /\ IVI pdu = Z.land ivi 1 /\ CTL pdu = ctl /\ TTL pdu = ttl /\ SEQ pdu = seq /\
  SRC pdu = src /\ DST pdu = dst /\ NET_MIC_LEN pdu = (if ctl then 8 else 4)%nat.
Proof.
  intros Hn Ht Hs Hr Hd pdu. destruct (first_byte_parts nid ivi Hn), (ttl_byte_parts ctl ttl Ht) as (T1 & T2 & T3).
  unfold NID, IVI, CTL, TTL, NET_MIC_LEN.
  change (byte_at pdu 0) with (first_byte nid ivi). change (byte_at pdu 1) with (ttl_byte ctl ttl).
  rewrite T1, T2, T3, negb_involutive. split_and!; try done.
  - unfold SEQ. change (drop 2 pdu) with (sys_put_be24 seq ++ (sys_put_be16 src ++ sys_put_be16 dst ++ c)).
    by apply get_put_be24.
  - unfold SRC. change (drop 5 pdu) with (sys_put_be16 src ++ (sys_put_be16 dst ++ c)). by apply get_put_be16.
  - unfold DST. change (drop 7 pdu) with (sys_put_be16 dst ++ c). by apply get_put_be16.
Qed.

Section Sending.
Context {ecb : Ecb} {ecb_ok : EcbOk} (config_proxy config_friend config_cdb : bool).

(** Taking a number leaves the IV index used for sending and the subnets alone. *)
Lemma next_seq_keeps t n :
  0 <= iv_index n < 2 ^ 32 - 1 ->
  let '(seq, n') := bt_mesh_next_seq config_proxy config_friend config_cdb t n in
  seq = net_seq n /\ BT_MESH_NET_IVI_TX n' = BT_MESH_NET_IVI_TX n.
Proof.
  intros H. unfold bt_mesh_next_seq. cbv zeta. set (n1 := net_event_log EvStoreSeq _).
  destruct (negb (ivu_in_progress n1) && _ && _) eqn:E; [|done]. split; [done|].
  destruct (iv_update_started config_proxy config_friend config_cdb t (bt_mesh_beacon_ivu_initiator true n1))
    as [-> _]; [exact H| |done].
  by apply andb_true_iff in E as [[?%negb_true_iff _]%andb_true_iff _].
Qed.

Lemma next_seq_value t n : (bt_mesh_next_seq config_proxy config_friend config_cdb t n).1 = net_seq n.
Proof. unfold bt_mesh_next_seq. cbv zeta. by destruct (_ && _). Qed.

Lemma header_encode_ok t tx nid n b h c r :
  buf_wf b -> abs b = mkAbuf h c r -> (9 <= h)%nat ->
  ((if is_ctl (tx_ctx tx) then 8 else 4) <= r)%nat ->
  let n' := (bt_mesh_next_seq config_proxy config_friend config_cdb t n).2 in
  exists b', net_header_encode config_proxy config_friend config_cdb t tx nid b n = Some ((None, b'), n') /\
    buf_wf b' /\
    abs b' = mkAbuf (h - 9) (net_header nid (BT_MESH_NET_IVI_TX n') (is_ctl (tx_ctx tx))
               (ctx_send_ttl (tx_ctx tx)) (net_seq n) (tx_src tx) (ctx_addr (tx_ctx tx)) ++ c) r.
Proof.
  intros W A Hh Hr n0. unfold net_header_encode, net_buf_simple_push_be16, net_buf_simple_push_be24, net_buf_simple_push_u8. cbv zeta.
  assert (net_buf_simple_tailroom b = r) as -> by (by injection A).
  assert (is_ctl (tx_ctx tx) && (r <? 8)%nat = false) as ->.
  { destruct (is_ctl _); [|done]. apply Nat.ltb_ge. lia. }
  rewrite (proj2 (Nat.ltb_ge r 4)) by (destruct (is_ctl _); lia).
  destruct (push_put_ok (sys_put_be16 (ctx_addr (tx_ctx tx))) b h c r) as (b1 & E1 & A1 & W1); [done..|cbn; lia|].
  rewrite E1. cbn [need]. rewrite bind_ret. cbv beta iota.
  edestruct (push_put_ok (sys_put_be16 (tx_src tx)) b1) as (b2 & E2 & A2 & W2); [done|exact A1|cbn; lia|].
  rewrite E2. cbn [need]. rewrite bind_ret. cbv beta iota.
  pose proof (next_seq_value t n) as K.
  destruct (bt_mesh_next_seq config_proxy config_friend config_cdb t n) as [seq n'] eqn:En. cbn [fst] in K. subst seq.
  cbn [snd] in n0. subst n0. erewrite bind_some; [|unfold step; by rewrite En].
  edestruct (push_put_ok (sys_put_be24 (net_seq n)) b2) as (b3 & E3 & A3 & W3); [done|exact A2|cbn; lia|].
  rewrite E3. cbn [need]. rewrite bind_ret. cbv beta iota.
  edestruct (push_put_ok [ttl_byte (is_ctl (tx_ctx tx)) (ctx_send_ttl (tx_ctx tx))] b3) as (b4 & E4 & A4 & W4);
    [done|exact A3|cbn; lia|].
  unfold ttl_byte in E4. rewrite E4. cbn [need].
  rewrite bind_ret. cbv beta iota. rewrite bind_gets.
  edestruct (push_put_ok [first_byte nid (BT_MESH_NET_IVI_TX n')] b4) as (b5 & E5 & A5 & W5);
    [done|exact A4|cbn; lia|].
  unfold first_byte in E5. rewrite E5. cbn [need]. rewrite bind_ret. cbv beta iota.
  exists b5. split_and!; try done. rewrite A5. f_equal. cbn. lia.
Qed.
(** The receiver's conditions for a PDU with these fields. *)
Lemma hears_sent r iv net_if pdu src seq :
  0 <= iv < 2 ^ 32 - 1 -> iv_index r = iv \/ iv_index r = iv + 1 -> IVI pdu = Z.land iv 1 ->
  SRC pdu = src -> SEQ pdu = seq -> BT_MESH_ADDR_IS_UNICAST src = true ->
  bt_mesh_elem_find (net_comp r) src = Some None -> net_if <> BT_MESH_NET_IF_PROXY_CFG ->
  (src, Z.land seq (2 ^ 17 - 1)) ∉ msg_cache r ->
  hears r iv net_if pdu.
Proof.
  intros Hb Hr Hi Hs Hq Hu He Hif Hc. unfold hears. rewrite Hs. split_and!; try done.
  - unfold BT_MESH_NET_IVI_RX, rx_ivi_old. rewrite Hi.
    assert (forall x, Z.land x 1 = x mod 2) as L by (intros x; apply (Z.land_ones x 1); lia). rewrite !L.
    destruct Hr as [-> | ->].
    + rewrite Z.eqb_refl. cbn [negb]. rewrite Z.sub_0_r. by apply u32_id; unfold is_u32; lia.
    + rewrite (proj2 (Z.eqb_neq _ _)) by (rewrite !Zmod_even, Z.even_add; destruct (Z.even iv); done).
      cbn [negb]. rewrite u32_id by (unfold is_u32; lia). lia.
  - intros _. unfold msg_cache_match. rewrite Hs, Hq. apply not_true_is_false. intros Hx.
    apply existsb_exists in Hx as ([a q] & Hin & Hm). zbool. subst. by apply Hc, list_elem_of_In.
Qed.

(** C6: Network PDUs survive the way from sender to receiver. A message encoded by
    [bt_mesh_net_encode], with any payload that fits, any TTL, address and IV update
    state, and decoded by [bt_mesh_net_decode] on a node that has the same network key, as
    the current key in the first slot of its table, has no friendship and is at the same
    IV index or one ahead, comes out with the same payload, source, destination, sequence
    number, TTL and control flag, unless it is known to one of the receiver's duplicate
    caches. *)
Theorem net_pdu_roundtrip t tx s b sub r net_if rx out :
  let ctx := tx_ctx tx in
  let cred := tx_msg_cred sub in
  let mic := (if is_ctl ctx then 8 else 4)%nat in
  subs (net_subnets s) !! tx_sub tx = Some sub -> 0 <= cred_nid cred < 128 ->
  0 <= iv_index s < 2 ^ 32 - 1 -> (ivu_in_progress s = true -> 1 <= iv_index s) -> 0 <= net_seq s < 2 ^ 24 ->
  BT_MESH_ADDR_IS_UNICAST (tx_src tx) = true -> is_u16 (tx_src tx) ->
  is_u16 (ctx_addr ctx) -> ctx_addr ctx <> 0 -> 0 <= ctx_send_ttl ctx < 128 ->
  buf_wf b -> (9 <= net_buf_simple_headroom b)%nat -> (mic <= net_buf_simple_tailroom b)%nat ->
  (18 <= 9 + buf_len b + mic <= buf_size out)%nat -> (buf_size out <= 29)%nat ->
  iv_index r = BT_MESH_NET_IVI_TX s \/ iv_index r = BT_MESH_NET_IVI_TX s + 1 ->
  first_key r cred -> bt_mesh_elem_find (net_comp r) (tx_src tx) = Some None ->
  net_if <> BT_MESH_NET_IF_PROXY_CFG ->
  (tx_src tx, Z.land (net_seq s) (2 ^ 17 - 1)) ∉ msg_cache r ->
  exists b' s',
    bt_mesh_net_encode config_proxy config_friend config_cdb t tx false b s = Some ((None, b'), s') /\
    ((net_if = BT_MESH_NET_IF_ADV -> (check_dup (contents b') r).1 = false) ->
     exists rx' out' r',
       bt_mesh_net_decode config_proxy config_friend (contents b') net_if rx out r =
         Some ((None, rx', out'), r') /\
       drop 9 (contents out') = contents b /\ rx_addr rx' = tx_src tx /\
       ctx_recv_dst (rx_ctx rx') = ctx_addr ctx /\ rx_seq rx' = net_seq s /\
       ctx_recv_ttl (rx_ctx rx') = ctx_send_ttl ctx /\ rx_ctl rx' = is_ctl ctx).
Proof.
  intros ctx cred mic Hsub Hnid Hiv Hivu Hseq Hu Hsrc Hdst Hd0 Httl W Hh Ht Hmin Hmax Hri Hk He Hif Hc.
  destruct (header_encode_ok t (tx <| tx_friend_cred := false |>) (cred_nid cred) s b
    (net_buf_simple_headroom b) (contents b) (net_buf_simple_tailroom b)) as (b1 & E1 & W1 & A1); try done.
  pose proof (next_seq_keeps t s Hiv) as V0. set (s' := (bt_mesh_next_seq _ _ _ _ _).2) in E1, A1.
  assert (BT_MESH_NET_IVI_TX s' = BT_MESH_NET_IVI_TX s) as V
    by (unfold s'; destruct (bt_mesh_next_seq _ _ _ t s); by destruct V0).
  rewrite V in A1.
  pose proof (length_contents b W) as Lc. injection A1 as _ C T1.
  set (pdu := contents b1) in *.
  assert (pdu = net_header (cred_nid cred) (BT_MESH_NET_IVI_TX s) (is_ctl ctx) (ctx_send_ttl ctx) (net_seq s)
                  (tx_src tx) (ctx_addr ctx) ++ contents b) as C1 by exact C.
  destruct (header_fields (cred_nid cred) (BT_MESH_NET_IVI_TX s) (is_ctl ctx) (ctx_send_ttl ctx) (net_seq s)
    (tx_src tx) (ctx_addr ctx) (contents b)) as (F1 & F2 & F3 & F4 & F5 & F6 & F7 & F8); try done.
  rewrite <- C1 in F1, F2, F3, F4, F5, F6, F7, F8. fold mic in F8.
  assert (4 <= mic <= 8)%nat as Hmic by (unfold mic; destruct (is_ctl ctx); lia).
  assert (length pdu = 9 + buf_len b)%nat as Lp by (rewrite C1, length_app, Lc; done).
  destruct (net_encrypt_ok config_proxy cred (BT_MESH_NET_IVI_TX s) false b1) as (b2 & E2 & C2 & W2);
    [done|rewrite <- length_contents by done; fold pdu; lia..|fold pdu; lia|].
  exists b2, s'. split.
  - unfold bt_mesh_net_encode. rewrite bind_gets. unfold net_tx_cred_get. rewrite Hsub. cbn [need].
    rewrite bind_ret. cbv beta iota. fold cred. rewrite (bind_some _ _ _ _ _ E1). cbv beta iota.
    rewrite bind_gets, V, E2. done.
  - rewrite C2. intros Hdup.
    destruct (net_decode_ok config_proxy config_friend r cred (BT_MESH_NET_IVI_TX s) pdu net_if rx out)
      as (rx' & out' & E3 & C3 & _ & D & _); try done; try lia.
    + apply (hears_sent r (BT_MESH_NET_IVI_TX s) net_if pdu (tx_src tx) (net_seq s)); try done.
      unfold BT_MESH_NET_IVI_TX. destruct (ivu_in_progress s); [specialize (Hivu eq_refl)|];
        rewrite u32_id by (unfold is_u32; lia); lia.
    + destruct D as (D1 & D2 & D3 & D4 & D5 & _). eexists rx', out', _.
      split_and!; [exact E3|by rewrite C3, C1|congruence..].
Qed.
(** A PDU waiting in the loopback queue: a header and the transport PDU of a message on
    a subnet of the table. *)
Definition queued_ok (count : nat) (q : loopback_buf) : Prop :=
  (q.1 < count)%nat /\ (10 <= length q.2 <= if CTL q.2 then 21 else 25)%nat.
Definition loop_ok (n : bt_mesh_net) : Prop := Forall (queued_ok (length (subs (net_subnets n)))) (local_queue n).

(** What sending leaves alone. *)
Definition net_frame (n n' : bt_mesh_net) : Prop :=
  net_subnets n' = net_subnets n /\ net_comp n' = net_comp n /\ net_xmit n' = net_xmit n /\
  net_valid n' = net_valid n /\ net_friends n' = net_friends n /\ flag_relay n' = flag_relay n /\
  flag_gatt_proxy n' = flag_gatt_proxy n /\ flag_friend n' = flag_friend n /\ (loop_ok n -> loop_ok n').

Lemma net_frame_refl n : net_frame n n.
Proof. done. Qed.

Lemma net_frame_trans n1 n2 n3 : net_frame n1 n2 -> net_frame n2 n3 -> net_frame n1 n3.
Proof. unfold net_frame. intros (-> & -> & -> & -> & -> & -> & -> & -> & ?). tauto. Qed.

Lemma iv_update_frame t iv u n :
  net_frame n (bt_mesh_net_iv_update config_proxy config_friend config_cdb t iv u n).2.
Proof. unfold bt_mesh_net_iv_update, do_update. repeat case_match; done. Qed.

Lemma next_seq_frame t n : net_frame n (bt_mesh_next_seq config_proxy config_friend config_cdb t n).2.
Proof.
  unfold bt_mesh_next_seq. cbv zeta. case_match; [|done].
  eapply net_frame_trans; [|apply iv_update_frame]. unfold bt_mesh_beacon_ivu_initiator. by repeat case_match.
Qed.

(** Far from the end of the sequence numbers nothing else happens. *)
Definition net_quiet (n : bt_mesh_net) : Prop := ivu_in_progress n = true \/ 0 <= net_seq n < IV_UPDATE_SEQ_LIMIT.

Lemma next_seq_quiet t n :
  net_quiet n -> 0 <= net_seq n < 2 ^ 24 ->
  bt_mesh_next_seq config_proxy config_friend config_cdb t n =
  (net_seq n, n <| net_seq := net_seq n + 1 |> <| net_log := net_log n ++ [EvStoreSeq] |>).
Proof.
  intros Hq Hs. unfold bt_mesh_next_seq. cbv zeta.
  change (ivu_in_progress (net_event_log _ _)) with (ivu_in_progress n).
  change (net_seq (net_event_log EvStoreSeq (n <| net_seq := u32 (net_seq n + 1) |>))) with (u32 (net_seq n + 1)).
  rewrite u32_id by (unfold is_u32; lia).
  assert (negb (ivu_in_progress n) && (IV_UPDATE_SEQ_LIMIT <? net_seq n + 1) = false) as ->.
  { destruct Hq as [-> | Hq]; [done|]. rewrite (proj2 (Z.ltb_ge _ _)) by lia. by rewrite andb_false_r. }
  done.
Qed.

(** What one message changes: nothing of the frame and of the cache of packets heard, and
    the IV index only if an update is due. *)
Definition net_sent (n n' : bt_mesh_net) : Prop :=
  net_frame n n' /\ dup_cache n' = dup_cache n /\ (net_quiet n -> iv_index n' = iv_index n).

Lemma net_sent_refl n : net_sent n n.
Proof. done. Qed.

Lemma next_seq_dup_cache t n : dup_cache (bt_mesh_next_seq config_proxy config_friend config_cdb t n).2 = dup_cache n.
Proof.
  unfold bt_mesh_next_seq. cbv zeta. case_match; [|done]. unfold bt_mesh_net_iv_update. cbn [snd].
  by repeat case_match.
Qed.

Lemma next_seq_sent t n : net_sent n (bt_mesh_next_seq config_proxy config_friend config_cdb t n).2.
Proof.
  split; [apply next_seq_frame|]. split; [apply next_seq_dup_cache|]. intros Hq. unfold bt_mesh_next_seq. cbv zeta.
  change (ivu_in_progress (net_event_log _ _)) with (ivu_in_progress n).
  change (net_seq (net_event_log _ (n <| net_seq := ?x |>))) with x.
  destruct Hq as [-> | Hq]; [done|]. unfold IV_UPDATE_SEQ_LIMIT in *. rewrite u32_id by (unfold is_u32; lia).
  rewrite (proj2 (Z.ltb_ge _ _)) by lia. by rewrite andb_false_r.
Qed.

Section Bearer.
Context (proxy_relay : bytes -> Z -> bt_mesh_net -> bool).

(** The conditions under which a message can be sent. *)
Record sendable (tx : bt_mesh_net_tx) (sub : bt_mesh_subnet) (b : net_buf_simple) (n : bt_mesh_net) : Prop := {
  snd_sub : subs (net_subnets n) !! tx_sub tx = Some sub;
  snd_nid : 0 <= cred_nid (tx_msg_cred sub) < 128;
  snd_ttl : 0 <= ctx_send_ttl (tx_ctx tx) < 128;
  snd_wf : buf_wf b;
  snd_head : (9 <= net_buf_simple_headroom b)%nat;
  snd_tail : ((if is_ctl (tx_ctx tx) then 8 else 4) <= net_buf_simple_tailroom b)%nat;
  snd_len : (1 <= buf_len b <= if is_ctl (tx_ctx tx) then 12 else 16)%nat;
  snd_comp : comp_elem (net_comp n) <> [];
}.

(** The PDU before encryption. *)
Definition clear_pdu (tx : bt_mesh_net_tx) (sub : bt_mesh_subnet) (iv seq : Z) (c : bytes) : bytes :=
  net_header (cred_nid (tx_msg_cred sub)) iv (is_ctl (tx_ctx tx)) (ctx_send_ttl (tx_ctx tx))
    seq (tx_src tx) (ctx_addr (tx_ctx tx)) ++ c.

Lemma local_address_some addr n :
  comp_elem (net_comp n) <> [] -> is_Some (local_address config_proxy config_friend addr n).
Proof.
  intros H. unfold local_address, bt_mesh_elem_find. case_match; [done|]. case_match; [|done].
  by destruct (comp_elem (net_comp n)).
Qed.

Lemma local_address_frame addr n n' :
  net_frame n n' -> local_address config_proxy config_friend addr n' = local_address config_proxy config_friend addr n.
Proof.
  intros (_ & Hc & _ & _ & _ & Hr & Hp & Hf & _). unfold local_address, bt_mesh_fixed_group_match, bt_mesh_gatt_proxy_get,
    bt_mesh_friend_get, bt_mesh_relay_get. by rewrite Hc, Hr, Hp, Hf.
Qed.

(** The message with its header, and the encrypted packet. *)
Lemma send_encodes t tx sub b n :
  sendable tx sub b n ->
  let n1 := (bt_mesh_next_seq config_proxy config_friend config_cdb t n).2 in
  let iv := BT_MESH_NET_IVI_TX n1 in
  exists b1 b2,
    net_header_encode config_proxy config_friend config_cdb t (tx <| tx_friend_cred := false |>)
      (cred_nid (tx_msg_cred sub)) b n = Some ((None, b1), n1) /\
    contents b1 = clear_pdu tx sub iv (net_seq n) (contents b) /\ queued_ok (length (subs (net_subnets n))) (tx_sub tx, contents b1) /\
    net_encrypt config_proxy (tx_msg_cred sub) iv false b1 = Some (None, b2) /\
    contents b2 = on_air config_proxy (tx_msg_cred sub) iv false (clear_pdu tx sub iv (net_seq n) (contents b)).
Proof.
  intros [Hsub Hnid Httl W Hh Ht Hl Hc] n1 iv.
  destruct (header_encode_ok t (tx <| tx_friend_cred := false |>) (cred_nid (tx_msg_cred sub)) n b
    (net_buf_simple_headroom b) (contents b) (net_buf_simple_tailroom b)) as (b1 & E1 & W1 & A1); try done.
  fold n1 in E1, A1. fold iv in A1. pose proof (length_contents b W) as Lc. injection A1 as _ C T1.
  change (contents b1 = clear_pdu tx sub iv (net_seq n) (contents b)) in C.
  assert (NET_MIC_LEN (contents b1) = (if is_ctl (tx_ctx tx) then 8 else 4)%nat) as Hm.
  { destruct (ttl_byte_parts (is_ctl (tx_ctx tx)) _ Httl) as (_ & _ & T3). rewrite C. unfold NET_MIC_LEN, clear_pdu.
    by change (byte_at (net_header _ _ ?c ?t _ _ _ ++ _) 1) with (ttl_byte c t); rewrite T3. }
  assert (length (contents b1) = 9 + buf_len b)%nat as L1 by (rewrite C; unfold clear_pdu; rewrite length_app, Lc; done).
  pose proof (length_contents b1 W1) as Lb.
  destruct (net_encrypt_ok config_proxy (tx_msg_cred sub) iv false b1) as (b2 & E2 & C2 & W2);
    [done|destruct (is_ctl _); lia..|rewrite Hm, T1; done|].
  assert (queued_ok (length (subs (net_subnets n))) (tx_sub tx, contents b1)) as Hq.
  { split; [by eapply lookup_lt_Some|]. cbn [snd]. rewrite L1, C.
    destruct (ttl_byte_parts (is_ctl (tx_ctx tx)) _ Httl) as (_ & T2 & _). unfold CTL, clear_pdu.
    change (byte_at (net_header _ _ ?c ?t _ _ _ ++ _) 1) with (ttl_byte c t). rewrite T2. destruct (is_ctl _); cbn; lia. }
  exists b1, b2. split_and!; [done|done|done|done|]. by rewrite C2, C.
Qed.

(** Sending never misbehaves. *)
Lemma net_send_safe t tx sub xmit b cb n :
  sendable tx sub b n ->
  wp (bt_mesh_net_send config_proxy config_friend config_cdb proxy_relay t tx xmit b cb) (fun _ n' => net_sent n n') n.
Proof.
  intros H. destruct (send_encodes t tx sub b n H) as (b1 & b2 & E1 & C1 & L1 & E2 & C2).
  pose proof (next_seq_sent t n) as F1. set (n1 := (bt_mesh_next_seq _ _ _ _ _).2) in *.
  unfold bt_mesh_net_send. cbv zeta. wp_step. wp_step. unfold net_tx_cred_get. rewrite (snd_sub _ _ _ _ H).
  wp_step. eapply wp_need; [done|]. cbv beta iota. wp_step. eapply wp_some; [exact E1|]. cbv beta iota.
  match goal with |- context [if _ then _ else ?m] => set (transmit := m) end.
  assert (forall n2, net_sent n n2 -> BT_MESH_NET_IVI_TX n2 = BT_MESH_NET_IVI_TX n1 ->
            wp transmit (fun _ n' => net_sent n n') n2) as Htr.
  { intros n2 F2 V2. unfold transmit. wp_if; [by wp_step|]. wp_step. wp_step. rewrite V2, E2. wp_step.
    eapply wp_need; [done|]. cbv beta iota. wp_step.
    assert (wp (if config_proxy then bt_mesh_proxy_relay proxy_relay (contents b2) (ctx_addr (tx_ctx tx)) else mret false)
              (fun _ n' => net_sent n n') n2) as Hp.
    { destruct config_proxy; [|by wp_step]. unfold bt_mesh_proxy_relay. repeat wp_step. done. }
    eapply wp_mono; [exact Hp|]. cbv beta. intros relayed n3 F3. wp_if; [by wp_step|]. by repeat wp_step. }
  wp_step. wp_step. destruct (local_address_some (ctx_addr (tx_ctx tx)) n1) as [local El].
  { destruct F1 as ((_ & -> & _) & _). apply (snd_comp _ _ _ _ H). }
  wp_step. rewrite El. eapply wp_need; [done|]. cbv beta. destruct local; [|by apply Htr].
  wp_step. assert (wp (loopback (tx <| tx_friend_cred := false |>) (contents b1))
    (fun _ n2 => net_sent n n2 /\ BT_MESH_NET_IVI_TX n2 = BT_MESH_NET_IVI_TX n1) n1) as Hl.
  { unfold loopback. wp_step. wp_step. wp_if; [by wp_step|].
    destruct L1 as [Q1 Q2]. cbn [fst snd] in Q1, Q2.
    rewrite (proj2 (Nat.ltb_ge _ _)) by (unfold LOOPBACK_MAX_PDU_LEN, BT_MESH_NET_HDR_LEN; destruct (CTL _); lia).
    repeat wp_step. split; [|done]. destruct F1 as ((F1 & F2 & F3 & F4 & F5 & F6 & F7 & F8 & F9) & F10 & F11). split; [|done]. split_and!; try done.
    intros Hn. apply F9 in Hn. apply Forall_app. split; [done|]. apply Forall_singleton. cbn. by rewrite F1. }
  eapply wp_mono; [exact Hl|]. cbv beta. intros err n2 [F2 V2]. wp_if; [by wp_step|]. by apply Htr.
Qed.

(** A message for another node goes out on the advertising bearer. *)
Lemma net_send_transmits t tx sub xmit b cb n :
  sendable tx sub b n -> local_address config_proxy config_friend (ctx_addr (tx_ctx tx)) n = Some false ->
  ctx_send_ttl (tx_ctx tx) <> 1 ->
  (config_proxy = true -> forall pdu n, proxy_relay pdu (ctx_addr (tx_ctx tx)) n = false) ->
  let n1 := (bt_mesh_next_seq config_proxy config_friend config_cdb t n).2 in
  let pkt := on_air config_proxy (tx_msg_cred sub) (BT_MESH_NET_IVI_TX n1) false
               (clear_pdu tx sub (BT_MESH_NET_IVI_TX n1) (net_seq n) (contents b)) in
  bt_mesh_net_send config_proxy config_friend config_cdb proxy_relay t tx xmit b cb n =
  Some ((None, false), n1 <| net_log := net_log n1 ++ (if config_proxy then [EvProxyRelay pkt (ctx_addr (tx_ctx tx))] else [])
                                          ++ [EvAdvSend xmit pkt cb] |>).
Proof.
  intros H Hl Ht Hp n1 pkt. destruct (send_encodes t tx sub b n H) as (b1 & b2 & E1 & C1 & L1 & E2 & C2).
  pose proof (next_seq_frame t n) as F1. fold n1 in E1, E2, C2, F1.
  unfold bt_mesh_net_send. cbv zeta. rewrite bind_gets. unfold net_tx_cred_get. rewrite (snd_sub _ _ _ _ H).
  cbn [need]. rewrite bind_ret. cbv beta iota. rewrite (bind_some _ _ _ _ _ E1). cbv beta iota.
  rewrite bind_gets, (local_address_frame _ n n1 F1), Hl. cbn [need]. rewrite bind_ret. cbv iota.
  rewrite (proj2 (Z.eqb_neq _ _) Ht). rewrite bind_gets, E2. cbn [need]. rewrite bind_ret. cbv beta iota.
  rewrite C2. fold pkt.
  assert (forall l, net_event_log (EvAdvSend xmit pkt cb) (n1 <| net_log := net_log n1 ++ l |>) =
            n1 <| net_log := net_log n1 ++ l ++ [EvAdvSend xmit pkt cb] |>) as Hlog
    by (intros l; unfold net_event_log, assign; cbn; by rewrite <- app_assoc).
  destruct config_proxy.
  - erewrite bind_some; [|unfold bt_mesh_proxy_relay; by rewrite bind_gets, Hp by done].
    cbn [andb]. rewrite bind_modify. unfold net_event_log at 2. rewrite Hlog. done.
  - rewrite bind_ret. cbn [andb]. by rewrite bind_modify.
Qed.
End Bearer.
End Sending.

(** ** Relaying *)

Section Relaying.
Context {ecb : Ecb} {ecb_ok : EcbOk} (config_proxy config_friend : bool).
Context (proxy_relay : bytes -> Z -> bt_mesh_net -> bool) (adv_buffer : bt_mesh_net -> bool).

(** The relay condition for a PDU received over advertising with network credentials. *)
Definition relays (n : bt_mesh_net) (rx : bt_mesh_net_rx) (sub : bt_mesh_subnet) (pdu : bytes) : Prop :=
  rx_net_if rx = BT_MESH_NET_IF_ADV /\ rx_friend_cred rx = false /\ flag_relay n = true /\
  adv_buffer n = true /\ subs (net_subnets n) !! rx_sub rx = Some sub /\
  ctx_recv_ttl (rx_ctx rx) = TTL pdu /\ 2 <= TTL pdu.

Lemma relay_ttl_parts b1 :
  is_u8 b1 -> 2 <= Z.land b1 127 ->
  let b := u8 (Z.lor (Z.land b1 128) (Z.land b1 127 - 1)) in
  Z.land b 127 = Z.land b1 127 - 1 /\ Z.shiftr b 7 = Z.shiftr b1 7 /\ Z.testbit b 7 = Z.testbit b1 7.
Proof.
  intros H T. cbv zeta.
  pose proof (all_bytes (fun x => (Z.land x 127 <? 2) ||
    ((Z.land (u8 (Z.lor (Z.land x 128) (Z.land x 127 - 1))) 127 =? Z.land x 127 - 1)
     && (Z.shiftr (u8 (Z.lor (Z.land x 128) (Z.land x 127 - 1))) 7 =? Z.shiftr x 7)
     && Bool.eqb (Z.testbit (u8 (Z.lor (Z.land x 128) (Z.land x 127 - 1))) 7) (Z.testbit x 7)))
    ltac:(vm_compute; reflexivity) b1 H) as B. cbv beta in B.
  apply orb_true_iff in B as [B|B]; zbool; [lia|]. split_and!; try done. by apply eqb_prop.
Qed.

(** What relaying changes in the clear text: the TTL. *)
Lemma relay_pdu_fields rx cred pdu :
  (10 <= length pdu)%nat -> wf_bytes pdu -> rx_friend_cred rx = false ->
  ctx_recv_ttl (rx_ctx rx) = TTL pdu -> 2 <= TTL pdu ->
  let q := relay_pdu rx cred pdu in
  length q = length pdu /\ byte_at q 0 = byte_at pdu 0 /\ drop 2 q = drop 2 pdu /\
  TTL q = TTL pdu - 1 /\ CTL q = CTL pdu /\ NET_MIC_LEN q = NET_MIC_LEN pdu.
Proof.
  intros Hl W F E T. cbv zeta. destruct pdu as [|b0 [|b1 p]]; cbn in Hl; [lia..|].
  apply wf_bytes_cons in W as [_ [W1 _]%wf_bytes_cons].
  unfold TTL, CTL, NET_MIC_LEN in *. cbn [byte_at nth] in *.
  destruct (relay_ttl_parts b1 W1 T) as (P1 & P2 & P3).
  unfold relay_pdu, relay_nid, relay_ttl. rewrite F, E.
  cbn [alter list_alter byte_at nth length drop skipn]. rewrite P1, P2, P3. split_and!; done.
Qed.

Lemma relay_emits n rx sub sbuf pdu :
  buf_wf sbuf -> contents sbuf = pdu -> wf_bytes pdu -> relays n rx sub pdu ->
  (10 <= length pdu)%nat -> (length pdu + NET_MIC_LEN pdu <= 29)%nat ->
  exists n', bt_mesh_net_relay config_proxy proxy_relay adv_buffer sbuf rx n = Some (tt, n') /\
    [EvAdvSend (relay_xmit n)
      (on_air config_proxy (tx_msg_cred sub) (BT_MESH_NET_IVI_RX (rx_old_iv rx) n) false
         (relay_pdu rx (tx_msg_cred sub) pdu)) false] `suffix_of` net_log n'.
Proof.
  intros Wf C W (Hif & Hf & Hr & Ha & Hs & Et & Ht) Hl Hm.
  destruct (relay_pdu_fields rx (tx_msg_cred sub) pdu) as (L & _ & _ & _ & _ & M); try done.
  set (q := relay_pdu _ _ _) in *.
  unfold bt_mesh_net_relay. rewrite bind_gets. unfold id.
  rewrite Et, (proj2 (Z.leb_gt _ _)) by lia. rewrite Hif, Hf. rewrite bool_decide_true by done.
  unfold bt_mesh_relay_get, feature. rewrite Hr, Ha, Hs. cbn [negb andb enabled need]. rewrite bind_ret.
  cbv zeta. rewrite C. fold q.
  destruct (add_mem_ok q adv_buf 0 [] 29) as (k & b1 & E1 & A1 & W1); [by apply Nat.leb_le|done|lia|].
  rewrite E1. cbn [need]. rewrite bind_ret. cbv beta iota.
  assert (buf_len b1 = length q) as L1 by (by apply (abs_len b1 0 q (29 - length q))).
  injection A1 as _ C1 T1. cbn [app] in C1.
  destruct (net_encrypt_ok config_proxy (tx_msg_cred sub) (BT_MESH_NET_IVI_RX (rx_old_iv rx) n) false b1)
    as (b2 & E2 & C2 & W2); [done|lia|lia|rewrite C1; lia|].
  rewrite E2. cbn [need]. rewrite bind_ret. cbv beta iota. rewrite C2, C1. cbn [orb].
  unfold relay_to_adv, bt_mesh_relay_get, feature, relay_xmit_of. rewrite Hr, Hif, Hf, bool_decide_true by done.
  cbn [negb andb orb enabled when].
  destruct (config_proxy && _).
  - unfold bt_mesh_proxy_relay. eexists. split; [reflexivity|]. by eexists.
  - eexists. split; [reflexivity|]. by eexists.
Qed.

(** C22: A relay passes a PDU on with its TTL decreased. A PDU that carries the NID of the
    key the relay sends with, received over advertising with network credentials and a TTL
    of at least two, is sent again by [bt_mesh_net_relay] when the relay feature is on and
    a buffer is free; the next node, holding the same network key in the first slot of its
    table and not knowing the packet, decodes from it the same source, destination,
    sequence number, control flag and payload, and a TTL that is one less. The condition
    on the NID excludes a PDU received under the old key in phase 2 of a key refresh: the
    relay encrypts it with the new key but leaves the old NID in place, and no node can
    read it ([relay_stale_nid]). *)
Theorem net_relay_forwards n rx sub sbuf pdu r out rx0 :
  let cred := tx_msg_cred sub in
  let iv := BT_MESH_NET_IVI_RX (rx_old_iv rx) n in
  buf_wf sbuf -> contents sbuf = pdu -> wf_bytes pdu -> relays n rx sub pdu -> NID pdu = cred_nid cred ->
  (10 <= length pdu)%nat -> (18 <= length pdu + NET_MIC_LEN pdu <= 29)%nat -> buf_size out = 29%nat ->
  DST pdu <> 0 -> first_key r cred -> hears r iv BT_MESH_NET_IF_ADV pdu ->
  exists n' pkt, bt_mesh_net_relay config_proxy proxy_relay adv_buffer sbuf rx n = Some (tt, n') /\
    [EvAdvSend (relay_xmit n) pkt false] `suffix_of` net_log n' /\
    ((check_dup pkt r).1 = false ->
     exists rx' out' r',
       bt_mesh_net_decode config_proxy config_friend pkt BT_MESH_NET_IF_ADV rx0 out r = Some ((None, rx', out'), r') /\
       ctx_recv_ttl (rx_ctx rx') = TTL pdu - 1 /\ rx_addr rx' = SRC pdu /\ ctx_recv_dst (rx_ctx rx') = DST pdu /\
       rx_seq rx' = SEQ pdu /\ rx_ctl rx' = CTL pdu /\ drop 9 (contents out') = drop 9 pdu).
Proof.
  intros cred iv Wf C W R N Hl Hm Ho Hd Hk Hh.
  destruct (relay_emits n rx sub sbuf pdu) as (n' & E & Lg); try done; [lia|].
  exists n'. eexists. split; [exact E|]. split; [exact Lg|]. fold cred iv.
  destruct R as (_ & Hf & _ & _ & _ & Et & Ht).
  destruct (relay_pdu_fields rx cred pdu) as (L & B0 & D2 & T & K & M); try done.
  set (q := relay_pdu rx cred pdu) in *. intros Hdup.
  assert (forall k, drop (2 + k) q = drop (2 + k) pdu) as D by (intros k; by rewrite <- !drop_drop, D2).
  assert (SRC q = SRC pdu /\ DST q = DST pdu /\ SEQ q = SEQ pdu) as (S1 & S2 & S3).
  { unfold SRC, DST, SEQ. by rewrite D2, (D 3%nat : drop 5 q = _), (D 5%nat : drop 7 q = _). }
  destruct (net_decode_ok config_proxy config_friend r cred iv q BT_MESH_NET_IF_ADV rx0 out)
    as (rx' & out' & E' & C' & _ & P & _); try done; try lia.
  - unfold NID in *. by rewrite B0.
  - unfold hears, rx_ivi_old, IVI, msg_cache_match in *. by rewrite B0, S1, S3.
  - destruct P as (P1 & P2 & P3 & P4 & P5 & _). eexists rx', out', _.
    split_and!; [exact E'|congruence..|]. by rewrite C', (D 7%nat : drop 9 q = _).
Qed.

(** During key refresh phase 2 a relay destroys traffic on the old key.  A PDU
    received with the old network key keeps its NID when [bt_mesh_net_relay] encrypts
    it again, now with the new key: the packet carries the old NID, and every node
    that tries the new credentials on it refuses it at the NID comparison. *)
Theorem relay_stale_nid n rx sub sbuf pdu :
  let old := keys_msg (sub_key0 sub) in
  let new := keys_msg (sub_key1 sub) in
  buf_wf sbuf -> contents sbuf = pdu -> wf_bytes pdu -> relays n rx sub pdu ->
  sub_kr_phase sub = BT_MESH_KR_PHASE_2 ->
  NID pdu = cred_nid old -> cred_nid old <> cred_nid new ->
  (10 <= length pdu)%nat -> (length pdu + NET_MIC_LEN pdu <= 29)%nat ->
  exists n' pkt, bt_mesh_net_relay config_proxy proxy_relay adv_buffer sbuf rx n = Some (tt, n') /\
    [EvAdvSend (relay_xmit n) pkt false] `suffix_of` net_log n' /\
    pkt = on_air config_proxy new (BT_MESH_NET_IVI_RX (rx_old_iv rx) n) false (relay_pdu rx new pdu) /\
    NID pkt = cred_nid old /\
    (forall m st, net_decrypt config_proxy m pkt new st = Some (false, st)).
Proof.
  intros old new Wf C W R Hp N Hne Hl Hm.
  destruct (relay_emits n rx sub sbuf pdu) as (n' & E & Lg); try done.
  assert (tx_msg_cred sub = new) as Ec by (unfold tx_msg_cred, SUBNET_KEY_TX_IDX; by rewrite Hp). rewrite Ec in Lg.
  destruct R as (_ & Hf & _ & _ & _ & Et & Ht).
  destruct (relay_pdu_fields rx new pdu) as (L & B0 & _); try done.
  exists n'. eexists. split; [exact E|]. split; [exact Lg|]. split; [done|].
  set (pkt := on_air _ _ _ _ _).
  assert (NID pkt = cred_nid old) as Np.
  { rewrite <- N. unfold NID, pkt. by rewrite on_air_first, B0 by lia. }
  split; [done|]. intros m st. unfold net_decrypt. by rewrite Np, (proj2 (Z.eqb_neq _ _) Hne).
Qed.

(** C34: A proxy client can overflow the receive buffer.  [bt_mesh_net_decode] checks
    the length of a PDU only from below, and the proxy collects up to 68 bytes; a PDU of
    more than 29 bytes whose NID, sent in clear by every node, is that of the first
    network key is copied past the end of the 29-byte stack buffer of
    [bt_mesh_net_recv], before anything is authenticated. *)
Theorem oversized_pdu_undefined {S : Type} (net_of : S -> bt_mesh_net) `{!Assignable net_of} trans_recv data
    rssi s cred :
  net_valid (net_of s) = true -> first_key (net_of s) cred -> NID data = cred_nid cred -> (29 < length data)%nat ->
  bt_mesh_net_recv config_proxy config_friend proxy_relay adv_buffer net_of trans_recv data rssi
    BT_MESH_NET_IF_PROXY s = None.
Proof.
  set (n := net_of s). intros V (sub & rest & Es & Hi & Hv & Hm & Hf) N L.
  unfold bt_mesh_net_recv. rewrite bind_gets. fold n. rewrite V. cbn [negb]. apply bind_none.
  unfold zoom. fold n. match goal with |- match ?m n with _ => _ end = _ => cut (m n = None); [by intros ->|] end.
  unfold bt_mesh_net_decode. rewrite (proj2 (Nat.ltb_ge _ _)) by (cbn; lia).
  erewrite bind_some; [|reflexivity]. cbv beta iota. rewrite bind_gets. unfold id. apply bind_none.
  assert (bt_mesh_net_cred_find config_friend n (net_decrypt config_proxy n data)
            (rx_init rssi <| rx_net_if := BT_MESH_NET_IF_PROXY |>, recv_buf) = None) as ->; [|done].
  unfold bt_mesh_net_cred_find. rewrite Es, Hf.
  erewrite bind_some; [|by destruct config_friend]. cbv beta iota. cbn [cred_find_subnets].
  rewrite (proj2 (Z.eqb_neq _ _) Hi). apply bind_none. unfold cred_find_keys, alter_rx. rewrite bind_modify.
  apply bind_none. cbn [sub_keys]. rewrite Hv. cbn [negb]. apply bind_none. rewrite Hm.
  unfold net_decrypt, alter_rx. rewrite N, Z.eqb_refl. cbn [negb]. rewrite bind_modify.
  erewrite bind_some; [|by apply on_out_some]. apply bind_none. unfold on_out. cbn [snd].
  unfold net_buf_simple_add_mem. rewrite bind_none; [done|]. unfold net_buf_simple_add.
  by rewrite (proj2 (Nat.leb_gt _ _)) by (cbn; lia).
Qed.

End Relaying.

(** ** Example states *)

Definition cred_example : bt_mesh_net_cred := mkCred 38 (replicate 16 5) (replicate 16 9).
Definition keys_example (cred : bt_mesh_net_cred) : bt_mesh_subnet_keys :=
  mkKeys true zero16 cred (replicate 8 0) zero16 zero16.
Definition subnet_example : bt_mesh_subnet :=
  mkSubnet 0 BT_MESH_KR_NORMAL BT_MESH_FEATURE_DISABLED (keys_example cred_example) keys_zero beacon_zero.

(** A provisioned node with three elements from address [addr], one subnet, relay and
    proxy enabled. *)
Definition node_example (addr iv : Z) (in_progress : bool) (sub : bt_mesh_subnet) : bt_mesh_net :=
  mkNet iv 7 true in_progress false false true true true false (if in_progress then 0 else 96) true 36 36
    [] 0 (replicate 4 (0, 0)) 0 (replicate 4 0) 0 [mkRpl 9 false false 70; rpl_empty]
    (mkSubnets [sub; subnet_zero] []) [] (bt_mesh_comp_provision addr comp_example) [].

Lemma nonces_unique_witness :
  let os := [OpSeq false; OpBeacon false 3 true; OpSeq true; OpTimer false; OpTimer false; OpTimer false;
             OpTimer false; OpSeq false; OpBeacon false 9 false; OpSeq false] in
  run_iv_ops true true false os (node_example 4 2 false subnet_example) = [(2, 7); (2, 8); (3, 0); (9, 0)] /\
  NoDup (run_iv_ops true true false os (node_example 4 2 false subnet_example)).
Proof.
  split; [vm_compute; reflexivity|]. apply nonces_unique; vm_compute; congruence.
Defined.

Lemma iv_update_completes_witness :
  let tick := ivu_refresh true true false false in
  let n := node_example 4 3 true subnet_example in
  ivu_in_progress n = true /\ ivu_in_progress (tick (tick (tick (tick n)))) = false.
Proof.
  split; [reflexivity|].
  apply (iv_update_completes true true false (node_example 4 3 true subnet_example)); reflexivity.
Defined.

Lemma recovery_keeps_rpl_witness :
  let n' := snd (bt_mesh_net_iv_update true true false false 9 false (node_example 4 2 false subnet_example)) in
  iv_index n' = 9 /\ (bt_mesh_rpl_check false (rx_from 9 0 false) (net_rpl n')).1.1 = true.
Proof.
  assert (covers (net_rpl (node_example 4 2 false subnet_example)) 9 false 70) as C.
  { exists 0%nat, (mkRpl 9 false false 70). split_and!; try reflexivity. right. done. }
  pose proof (recovery_keeps_rpl true true false false 9 (node_example 4 2 false subnet_example)
    (rx_from 9 0 false) 70 eq_refl ltac:(done) ltac:(done) ltac:(done) C eq_refl ltac:(done) eq_refl
    ltac:(done)) as (V & _ & _ & R & _).
  exact (conj V R).
Defined.

(** The side conditions of the theorems on the examples. *)
Ltac example_side :=
  first [ reflexivity | by apply Nat.leb_le | split; by apply Nat.leb_le | by apply (bool_decide_unpack _)
        | by left | by exists subnet_example, [subnet_zero]
        | by intros H%list_elem_of_In; vm_compute in H; naive_solver | done ].

Definition tx_example : bt_mesh_net_tx := mkTx 0 (mkCtx 0 0 16 0 0 0 false 5) 4 0 false false 0.
Definition payload_example : net_buf_simple := mkBuf 9 8 (replicate 9 0 ++ seqZ 65 8 ++ replicate 12 0).

Lemma net_pdu_roundtrip_witness :
  let s := node_example 4 3 true subnet_example in
  let r := node_example 16 2 false subnet_example in
  exists b' s' rx' out' r',
    @bt_mesh_net_encode toy_ecb true true false false tx_example false payload_example s = Some ((None, b'), s') /\
    @bt_mesh_net_decode toy_ecb true true (contents b') BT_MESH_NET_IF_PROXY (rx_init 0) recv_buf r =
      Some ((None, rx', out'), r') /\
    drop 9 (contents out') = seqZ 65 8 /\ rx_addr rx' = 4 /\ rx_seq rx' = 7.
Proof.
  intros s r.
  destruct (@net_pdu_roundtrip toy_ecb toy_ecb_ok true true false false tx_example s payload_example
    subnet_example r BT_MESH_NET_IF_PROXY (rx_init 0) recv_buf) as (b' & s' & E & D); [example_side..|].
  destruct D as (rx' & out' & r' & D & C & A & _ & Q & _); [done|].
  exists b', s', rx', out', r'. split; [exact E|]. split; [exact D|]. split; [exact C|]. split; [exact A|exact Q].
Defined.

(** A decoded PDU of the node 40 for the node 30, received by the node 4. *)
Definition pdu_example : bytes := net_header 38 2 false 5 100 40 30 ++ seqZ 65 8.
Definition rx_example : bt_mesh_net_rx := (rx_from 40 100 false) <| rx_ctx := mkCtx 0 0 40 30 0 5 false 0 |>.

Lemma net_relay_forwards_witness :
  let n := node_example 4 2 false subnet_example in
  exists n' pkt,
    @bt_mesh_net_relay toy_ecb true (fun _ _ _ => false) (fun _ => true) (mkBuf 0 17 pdu_example) rx_example n
      = Some (tt, n') /\ [EvAdvSend 36 pkt false] `suffix_of` net_log n'.
Proof.
  intros n. destruct (@net_relay_forwards toy_ecb toy_ecb_ok true true (fun _ _ _ => false) (fun _ => true) n
    rx_example subnet_example (mkBuf 0 17 pdu_example) pdu_example (node_example 16 2 false subnet_example)
    recv_buf (rx_init 0)) as (n' & pkt & E & S & _); [example_side..|].
  exists n', pkt. exact (conj E S).
Defined.

(** A subnet in phase 2 of a key refresh. *)
Definition subnet_refreshing : bt_mesh_subnet :=
  mkSubnet 0 BT_MESH_KR_PHASE_2 BT_MESH_FEATURE_DISABLED (keys_example cred_example)
    (keys_example (mkCred 77 (replicate 16 6) (replicate 16 8))) beacon_zero.

Lemma relay_stale_nid_witness :
  let n := node_example 4 2 false subnet_refreshing in
  exists n' pkt,
    @bt_mesh_net_relay toy_ecb true (fun _ _ _ => false) (fun _ => true) (mkBuf 0 17 pdu_example) rx_example n
      = Some (tt, n') /\ [EvAdvSend 36 pkt false] `suffix_of` net_log n' /\ NID pkt = 38.
Proof.
  intros n. destruct (@relay_stale_nid toy_ecb toy_ecb_ok true (fun _ _ _ => false) (fun _ => true) n
    rx_example subnet_refreshing (mkBuf 0 17 pdu_example) pdu_example) as (n' & pkt & E & S & _ & N & _); [example_side..|].
  exists n', pkt. exact (conj E (conj S N)).
Defined.

Lemma oversized_pdu_undefined_witness :
  @bt_mesh_net_recv toy_ecb true true (fun _ _ _ => false) (fun _ => true) _ fst (fun n s => (n, s.2))
    (fun b rx _ => mret (None, b, rx)) (38 :: replicate 39 0) 0 BT_MESH_NET_IF_PROXY (node_example 4 2 false subnet_example, tt) = None.
Proof.
  apply (@oversized_pdu_undefined toy_ecb true true (fun _ _ _ => false) (fun _ => true) _ fst (fun n s => (n, s.2))
    (fun b rx _ => mret (None, b, rx)) (38 :: replicate 39 0) 0 (node_example 4 2 false subnet_example, tt)
    cred_example).
  - reflexivity.
  - by exists subnet_example, [subnet_zero].
  - reflexivity.
  - by apply Nat.leb_le.
Defined.
