(* ===== verification/NetRecv.v ===== *)
(** * Reception of arbitrary packets

    Whatever bytes arrive on the bearer, [bt_mesh_net_decode] and [bt_mesh_net_relay]
    are free of undefined behaviour as long as the packet fits an advertising PDU, and
    what they hand to the transport layer has the sizes that layer relies on. *)

From S2P Require Import Prelude ByteOrder MeshDefs Cdb NetBuf Access Rpl Ccm MeshCrypto Subnet Net NetProps.

Section Reception.
Context {ecb : Ecb} {ecb_ok : EcbOk} (config_proxy config_friend : bool).
Context (proxy_relay : bytes -> Z -> bt_mesh_net -> bool) (adv_buffer : bt_mesh_net -> bool).

(** A decrypted PDU: a header, a transport PDU of at least one byte, and no more than
    what fits with its MIC. *)
Record clear_ok (out : net_buf_simple) : Prop := {
  clr_wf : buf_wf out;
  clr_b1 : is_u8 (byte_at (contents out) 1);
  clr_len : (10 <= buf_len out <= if CTL (contents out) then 21 else 25)%nat;
}.

Lemma mic_ctl pdu : is_u8 (byte_at pdu 1) -> NET_MIC_LEN pdu = (if CTL pdu then 8 else 4)%nat.
Proof.
  intros H. unfold NET_MIC_LEN, CTL. assert (Z.testbit (byte_at pdu 1) 7 = negb (Z.shiftr (byte_at pdu 1) 7 =? 0)) as ->; [|done].
  apply eqb_prop. exact (all_bytes (fun x => Bool.eqb (Z.testbit x 7) (negb (Z.shiftr x 7 =? 0)))
    ltac:(vm_compute; reflexivity) (byte_at pdu 1) H).
Qed.

Lemma wf_byte_at l i : wf_bytes l -> is_u8 (byte_at l i).
Proof.
  intros H. unfold byte_at. rewrite nth_lookup. destruct (l !! i) as [x|] eqn:E; cbn; [by apply (Forall_lookup_1 _ _ _ _ H E)|].
  unfold is_u8. lia.
Qed.

Lemma obfuscated_wf iv privacy pdu : wf_bytes pdu -> wf_bytes (obfuscated iv privacy pdu).
Proof.
  intros H. unfold obfuscated. rewrite !wf_bytes_app. split_and!; [by apply wf_bytes_take| |by apply wf_bytes_drop].
  apply Forall_lookup. intros i x. rewrite lookup_zip_with_Some. intros (a & b & -> & Ha & Hb).
  apply lxor_u8; eapply Forall_lookup_1; [by apply wf_bytes_take, wf_bytes_drop|exact Ha|apply wf_bytes_take, do_ecb_wf|exact Hb].
Qed.

(** The MIC is the part of the PDU that is cut off. *)
Lemma net_decrypt_defined key iv proxy b :
  buf_wf b -> wf_bytes (contents b) -> (18 <= buf_len b <= 29)%nat ->
  wp (bt_mesh_net_decrypt config_proxy key iv proxy) (fun _ b' => clear_ok b' /\ buf_size b' = buf_size b) b.
Proof.
  intros W Hb Hl. unfold bt_mesh_net_decrypt. apply wp_bind, wp_gets. unfold id. cbv zeta.
  pose proof (wf_byte_at _ 1 Hb) as H1. pose proof (mic_ctl _ H1) as Hm. pose proof (net_mic_len (contents b)).
  rewrite (proj2 (Nat.ltb_ge _ _)) by lia. apply wp_bind, wp_modify.
  set (mic := NET_MIC_LEN (contents b)) in *. set (nonce := net_nonce _ _ _ _).
  apply wp_zoom. eapply wp_some.
  { apply bt_ccm_decrypt_ok; unfold nonce; rewrite ?length_net_nonce; cbn; unfold buf_wf, buf_size in W; (done || lia). }
  set (w := ctr _ _ _). match goal with |- clear_ok ?x /\ _ => set (b' := x) end.
  assert (length (buf_mem b') = buf_size b) as Sz by (cbn; apply length_inserts).
  assert (byte_at (contents b') 1 = byte_at (contents b) 1) as E1.
  { unfold byte_at, contents. rewrite !nth_lookup. unfold b'. cbn. rewrite !lookup_take_lt, !lookup_drop by lia.
    by rewrite list_lookup_inserts_lt by lia. }
  split; [|done]. split.
  - unfold buf_wf, buf_size in *. rewrite Sz. cbn. lia.
  - by rewrite E1.
  - assert (CTL (contents b') = CTL (contents b)) as -> by (unfold CTL; by rewrite E1).
    change (buf_len b') with (buf_len b - mic)%nat. rewrite Hm. destruct (CTL _); lia.
Qed.

(** ** Trying the credentials *)

Lemma wp_on_out {A : Type} (m : BUF A) (Q : A -> bt_mesh_net_rx * net_buf_simple -> Prop) s :
  wp m (fun a out => Q a (s.1, out)) s.2 -> wp (on_out m) Q s.
Proof. intros (a & out & E & H). exists a, (s.1, out). split; [|done]. unfold on_out. by rewrite E. Qed.

(** The buffer the clear text is written to. *)
Definition has_room (s : bt_mesh_net_rx * net_buf_simple) : Prop := buf_size s.2 = 29%nat.

(** The result of a try for the subnet [i]. *)
Definition tried (i : nat) (found : bool) (s : bt_mesh_net_rx * net_buf_simple) : Prop :=
  has_room s /\ rx_sub s.1 = i /\ (found = true -> clear_ok s.2).

Lemma net_decrypt_safe n in_ cred s :
  wf_bytes in_ -> (18 <= length in_ <= 29)%nat -> comp_elem (net_comp n) <> [] -> has_room s ->
  wp (net_decrypt config_proxy n in_ cred) (tried (rx_sub s.1)) s.
Proof.
  intros Hb Hl Hc Hs. unfold net_decrypt. wp_if; [by apply wp_ret|]. cbv zeta.
  apply wp_bind, wp_modify, wp_bind, wp_on_out, wp_modify. cbn [fst snd].
  set (rx1 := s.1 <| rx_old_iv := _ |>). set (b0 := net_buf_simple_reset s.2).
  assert (buf_wf b0 /\ abs b0 = mkAbuf 0 [] 29) as [W0 A0].
  { unfold has_room in Hs. unfold b0, buf_wf, abs, contents, net_buf_simple_tailroom, net_buf_simple_headroom, buf_size in *. cbn.
    split; [lia|]. f_equal. lia. }
  destruct (add_mem_ok in_ b0 0 [] 29) as (p & b1 & E1 & A1 & W1); [done|done|lia|].
  apply wp_bind, wp_on_out. cbn [fst snd]. eapply wp_some; [exact E1|].
  pose proof (abs_len _ _ _ _ W1 A1) as L1. cbn [app] in L1. injection A1 as D1 C1 T1. cbn [app] in C1.
  destruct (obfuscate_buf_ok (BT_MESH_NET_IVI_RX (rx_ivi_old in_ n) n) (cred_privacy cred) b1) as (b2 & E2 & C2 & W2 & D2 & S2 & L2); [done|lia|].
  apply wp_bind, wp_on_out. cbn [fst snd]. eapply wp_some; [exact E2|]. cbv iota.
  assert (buf_size b2 = 29%nat) as Sz.
  { rewrite S2. unfold net_buf_simple_tailroom, net_buf_simple_headroom, buf_wf in *. lia. }
  assert (forall rx, rx_sub rx = rx_sub s.1 -> wp (mret false) (tried (rx_sub s.1)) (rx, b2)) as Hno.
  { intros rx Hrx. apply wp_ret. by split_and!. }
  apply wp_bind, wp_gets. cbn [fst snd]. apply wp_bind, wp_modify. cbn [fst snd]. set (rx2 := set_rx_addr _ rx1).
  wp_if; [by apply Hno|].
  assert (is_Some (bt_mesh_elem_find (net_comp n) (SRC (contents b2)))) as [e He].
  { unfold bt_mesh_elem_find. case_match; [|done]. by destruct (comp_elem (net_comp n)). }
  apply wp_bind. eapply wp_need; [exact He|]. destruct e; [by apply Hno|]. apply wp_bind, wp_gets. cbn [fst snd].
  wp_if; [by apply Hno|]. apply wp_bind, wp_on_out. cbn [fst snd].
  eapply wp_mono; [apply net_decrypt_defined; [done| |lia]|].
  - rewrite C2, C1. by apply obfuscated_wf.
  - cbv beta. intros err b3 [H3 S3]. apply wp_ret. split; [unfold has_room; cbn; lia|]. by split; [|intros _].
Qed.

Section Find.
Context (n : bt_mesh_net) (cb : bt_mesh_net_cred -> ST (bt_mesh_net_rx * net_buf_simple) bool).
Hypothesis cb_safe : forall cred s, has_room s -> wp (cb cred) (tried (rx_sub s.1)) s.

Lemma find_keys_safe i sub c0 c1 friend s :
  has_room s -> wp (cred_find_keys cb i sub c0 c1 friend) (tried i) s.
Proof.
  intros Hs. unfold cred_find_keys. cbv zeta.
  assert (forall (j : bool) c s, has_room s -> rx_sub s.1 = i ->
    wp (if negb (keys_valid (sub_keys j sub)) then mret false
        else
          found ← cb c;
          if found : bool then
            _ ← alter_rx (fun rx => rx <| rx_new_key := j |> <| rx_friend_cred := friend |>
                                       <| rx_ctx := (rx_ctx rx) <| ctx_net_idx := sub_net_idx sub |> |>);
            mret true
          else mret false) (tried i) s) as Htry.
  { intros j c s' Hr Hi. wp_if; [by apply wp_ret|]. apply wp_bind. eapply wp_mono; [by apply cb_safe|].
    cbv beta. intros found s2 (R2 & I2 & G2). rewrite Hi in I2. wp_if; [|by apply wp_ret].
    apply wp_bind, wp_modify, wp_ret. by split; [|split; [|intros _; apply G2]]. }
  apply wp_bind, wp_modify. apply wp_bind. eapply wp_mono; [by apply Htry|]. cbv beta. intros found s2 (R2 & I2 & G2).
  wp_if; [by apply wp_ret; split_and!|]. by apply Htry.
Qed.

(** The subnet found is one of the table. *)
Definition located (found : bool) (s : bt_mesh_net_rx * net_buf_simple) : Prop :=
  has_room s /\ (found = true -> (rx_sub s.1 < length (subs (net_subnets n)))%nat /\ clear_ok s.2).

Lemma tried_located i found s : (i < length (subs (net_subnets n)))%nat -> tried i found s -> located found s.
Proof. intros Hi (H1 & H2 & H3). split; [done|]. intros ->. rewrite H2. auto. Qed.

(** Friendship credentials belong to subnets of the table. *)
Definition friends_ok : Prop :=
  Forall (fun f => match f.1.1 with Some i => (i < length (subs (net_subnets n)))%nat | None => True end) (net_friends n).

Lemma cred_find_safe s :
  has_room s -> (config_friend = true -> friends_ok) -> wp (bt_mesh_net_cred_find config_friend n cb) located s.
Proof.
  intros Hs Hf. unfold bt_mesh_net_cred_find. apply wp_bind. apply wp_mono with (Q := located).
  { destruct config_friend; [|by apply wp_ret; split]. specialize (Hf eq_refl). unfold friends_ok in Hf.
    revert s Hs. induction Hf as [|[[[i|] c0] c1] l Hi Hl IH]; intros s Hs; cbn [cred_find_friends]; [by apply wp_ret|  |by apply IH].
    cbn in Hi. destruct (lookup_lt_is_Some_2 _ _ Hi) as [sub Hsub]. apply wp_bind. eapply wp_need; [done|].
    apply wp_bind. eapply wp_mono; [by apply find_keys_safe|]. cbv beta. intros found s2 H2.
    apply (tried_located _ _ _ Hi) in H2. wp_if; [by apply wp_ret|]. apply IH. apply H2. }
  intros found s1 [R1 G1]. wp_if; [by apply wp_ret|]. clear G1.
  assert (forall l i, (i + length l <= length (subs (net_subnets n)))%nat -> forall s, has_room s ->
    wp (cred_find_subnets cb i l) located s) as Hl; [|by apply Hl].
  induction l as [|sub l IH]; intros i Hi s2 R2; cbn [cred_find_subnets]; [by apply wp_ret|]. cbn in Hi. wp_if.
  - apply wp_bind, wp_modify. apply IH; [lia|done].
  - apply wp_bind. eapply wp_mono; [by apply find_keys_safe|]. cbv beta. intros found' s3 H3.
    apply tried_located in H3; [|lia]. wp_if; [by apply wp_ret|]. apply IH; [lia|]. apply H3.
Qed.
End Find.

(** ** Decoding *)

(** What the network layer hands to the transport layer. *)
Record decoded_ok (n : bt_mesh_net) (rx : bt_mesh_net_rx) (out : net_buf_simple) : Prop := {
  dec_clear : clear_ok out;
  dec_sub : (rx_sub rx < length (subs (net_subnets n)))%nat;
  dec_ctl : rx_ctl rx = CTL (contents out);
  dec_ttl : 0 <= ctx_send_ttl (rx_ctx rx);
  dec_recv : ctx_recv_ttl (rx_ctx rx) = TTL (contents out);
}.

Lemma net_decode_safe in_ net_if rx out n :
  wf_bytes in_ -> (length in_ <= 29)%nat -> buf_size out = 29%nat -> comp_elem (net_comp n) <> [] ->
  (config_friend = true -> friends_ok n) ->
  wp (bt_mesh_net_decode config_proxy config_friend in_ net_if rx out)
    (fun r n' => net_frame n n' /\ match r with (None, rx', out') => decoded_ok n' rx' out' | _ => True end) n.
Proof.
  intros Hb Hl Hs Hc Hf. unfold bt_mesh_net_decode. wp_if; [by apply wp_ret|]. apply Nat.ltb_ge in E.
  unfold BT_MESH_NET_MIN_PDU_LEN, BT_MESH_NET_HDR_LEN in E. apply wp_bind.
  apply wp_mono with (Q := fun _ n' => net_frame n n').
  { wp_if; [|by apply wp_ret]. apply (wp_total (check_dup in_)). unfold check_dup. cbv zeta. by destruct (existsb _ _). }
  intros dup n1 F1. wp_if; [by apply wp_ret|]. apply wp_bind, wp_gets. unfold id.
  assert (friends_ok n -> friends_ok n1) as Hf1.
  { destruct F1 as (F1 & _ & _ & _ & F2 & _). unfold friends_ok. by rewrite F1, F2. }
  destruct (cred_find_safe n1 (net_decrypt config_proxy n1 in_)) with (s := (rx <| rx_net_if := net_if |>, out))
    as (found & [rx1 out1] & Ef & R1 & G1).
  { intros cred s Hr. apply net_decrypt_safe; [done|lia| |done]. destruct F1 as (_ & -> & _). done. }
  { done. }
  { intros Hcf. apply Hf1. by apply Hf. }
  apply wp_bind. eapply wp_need; [exact Ef|]. cbv beta iota zeta. destruct found; cbn [negb]; [|by apply wp_ret].
  destruct (G1 eq_refl) as [Hsub Hclear]. cbn [fst snd] in Hsub, Hclear. set (rx2 := decoded_rx _ rx1).
  wp_if; [by apply wp_ret|]. apply wp_bind. apply (wp_total (msg_cache_add rx2)). apply wp_ret.
  split; [by eapply net_frame_trans|]. unfold msg_cache_add. cbn [fst snd].
  split; try done. change (0 <= if TTL (contents out1) =? 0 then 0 else BT_MESH_TTL_DEFAULT).
  unfold BT_MESH_TTL_DEFAULT. destruct (TTL (contents out1) =? 0); lia.
Qed.

(** ** Relaying *)

Lemma net_relay_safe sbuf rx n :
  clear_ok sbuf -> (rx_sub rx < length (subs (net_subnets n)))%nat -> ctx_recv_ttl (rx_ctx rx) = TTL (contents sbuf) ->
  wp (bt_mesh_net_relay config_proxy proxy_relay adv_buffer sbuf rx) (fun _ n' => net_frame n n') n.
Proof.
  intros [W H1 Hl] Hs Ht. unfold bt_mesh_net_relay. apply wp_bind, wp_gets. unfold id.
  wp_if; [by apply wp_ret|]. zbool. wp_if; [by apply wp_ret|]. wp_if; [by apply wp_ret|].
  destruct (lookup_lt_is_Some_2 _ _ Hs) as [sub Hsub]. apply wp_bind. eapply wp_need; [done|]. cbv zeta.
  set (cred := tx_msg_cred sub). set (pdu := relay_pdu rx cred (contents sbuf)).
  assert (length pdu = buf_len sbuf) as Lp by (unfold pdu, relay_pdu; by rewrite !length_alter, length_contents).
  assert (NET_MIC_LEN pdu = if CTL (contents sbuf) then 8 else 4)%nat as Hm.
  { rewrite <- (mic_ctl _ H1). unfold TTL in Ht. destruct (relay_ttl_parts _ H1) as (_ & _ & P3); [lia|].
    unfold NET_MIC_LEN. rewrite <- P3. f_equal. unfold pdu, relay_pdu, relay_ttl. rewrite Ht.
    pose proof (length_contents sbuf W) as Lc. destruct (contents sbuf) as [|b0 [|b1 p]]; cbn in Lc; [lia..|done]. }
  destruct (add_mem_ok pdu adv_buf 0 [] 29) as (p & b1 & E3 & A3 & W3); [by vm_compute; lia|done|destruct (CTL _); lia|].
  apply wp_bind. eapply wp_need; [exact E3|]. cbv beta iota. pose proof (abs_len _ _ _ _ W3 A3) as L3. injection A3 as _ C3 T3.
  cbn [app] in C3, L3. destruct (net_encrypt_ok config_proxy cred (BT_MESH_NET_IVI_RX (rx_old_iv rx) n) false b1) as (b2 & E4 & _).
  { done. }
  { lia. }
  { destruct (CTL _); lia. }
  { rewrite C3, Hm, T3. destruct (CTL _); lia. }
  apply wp_bind. eapply wp_need; [exact E4|]. cbv beta iota. apply wp_bind. apply wp_mono with (Q := fun _ n' => net_frame n n').
  - wp_if; [|by apply wp_ret]. unfold bt_mesh_proxy_relay. by repeat wp_step.
  - intros _ n1 F1. apply wp_when; intros _; [by apply wp_modify|done].
Qed.
End Reception.
