(* ===== verification/Transport.v ===== *)
(** * The transport layer

    Model of [subsys/bluetooth/mesh/transport.c] with the constants of [transport.h]:
    unsegmented and segmented sending with acknowledgements and retransmission,
    reassembly, the acknowledgement timer, control messages, and virtual addresses.

    The state has the network layer, the application keys, the segmentation contexts,
    the pool of segment blocks and the label table as fields.  A pointer to a context is
    an index; a delayed work is the time that remains until it runs.  Callbacks of the
    caller are events.  The friendship functions of [friend.c] are the class
    [FriendOps]; the access layer ([model_recv]) and heartbeats ([hb_recv]) are
    parameters.  CONFIG_BT_MESH_LOW_POWER is not set in either build. *)

From S2P Require Import Prelude ByteOrder MeshDefs Cdb NetBuf Access Rpl Ccm MeshCrypto Subnet AppKeys Net.

(** ** Constants and macros *)

Definition TRANS_SEQ_AUTH_NVAL : Z := 2 ^ 64 - 1.
Definition BT_MESH_SDU_UNSEG_MAX : nat := 11.
Definition BT_MESH_CTL_SEG_SDU_MAX : nat := 8.
Definition BT_MESH_APP_SEG_SDU_MAX : nat := 12.
Definition CONFIG_BT_MESH_TX_SEG_MAX : nat := 6.
Definition CONFIG_BT_MESH_RX_SEG_MAX : nat := 3.
Definition CONFIG_BT_MESH_TX_SEG_MSG_COUNT : nat := 3.
Definition CONFIG_BT_MESH_RX_SEG_MSG_COUNT : nat := 3.
Definition CONFIG_BT_MESH_TX_SEG_RETRANS_COUNT : Z := 4.
Definition CONFIG_BT_MESH_TX_SEG_RETRANS_TIMEOUT_UNICAST : Z := 400.
Definition CONFIG_BT_MESH_TX_SEG_RETRANS_TIMEOUT_GROUP : Z := 50.
Definition BT_MESH_TX_SDU_MAX : nat := CONFIG_BT_MESH_TX_SEG_MAX * BT_MESH_APP_SEG_SDU_MAX.
Definition BT_MESH_RX_SDU_MAX : nat := CONFIG_BT_MESH_RX_SEG_MAX * BT_MESH_APP_SEG_SDU_MAX.
Definition BT_MESH_RX_CTL_MAX : nat := CONFIG_BT_MESH_RX_SEG_MAX * BT_MESH_CTL_SEG_SDU_MAX.
Definition BT_MESH_TTL_MAX : Z := 127.

Definition TRANS_SEQ_ZERO_MASK : Z := 2 ^ 13 - 1.
Definition TRANS_CTL_OP (hdr : Z) : Z := Z.land hdr 127.
Definition TRANS_CTL_HDR (op : Z) (seg : bool) : Z := Z.lor (Z.land op 127) (if seg then 128 else 0).

Definition TRANS_CTL_OP_ACK : Z := 0.
Definition TRANS_CTL_OP_FRIEND_POLL : Z := 1.
Definition TRANS_CTL_OP_FRIEND_REQ : Z := 3.
Definition TRANS_CTL_OP_FRIEND_CLEAR : Z := 5.
Definition TRANS_CTL_OP_FRIEND_CLEAR_CFM : Z := 6.
Definition TRANS_CTL_OP_FRIEND_SUB_ADD : Z := 7.
Definition TRANS_CTL_OP_FRIEND_SUB_REM : Z := 8.
Definition TRANS_CTL_OP_HEARTBEAT : Z := 10.

Definition AID_MASK : Z := 63.
Definition SEG (hdr : Z) : bool := negb (Z.shiftr hdr 7 =? 0).
Definition AKF (hdr : Z) : bool := negb (Z.land (Z.shiftr hdr 6) 1 =? 0).
Definition AID (hdr : Z) : Z := Z.land hdr AID_MASK.
Definition ASZMIC (b1 : Z) : Z := Z.land (Z.shiftr b1 7) 1.
Definition UNSEG_HDR (akf : bool) (aid : Z) : Z := Z.lor (if akf then 64 else 0) (Z.land aid AID_MASK).
Definition SEG_HDR (akf : bool) (aid : Z) : Z := Z.lor (UNSEG_HDR akf aid) 128.
Definition BLOCK_COMPLETE (seg_n : Z) : Z := u32 (Z.shiftl 1 (seg_n + 1) - 1).
Definition SEQ_AUTH (iv_index seq : Z) : Z := Z.lor (Z.shiftl iv_index 24) seq.

Definition seg_len (ctl : bool) : nat := if ctl then BT_MESH_CTL_SEG_SDU_MAX else BT_MESH_APP_SEG_SDU_MAX.

(** ** State *)

(** A caller's callbacks; [cb_data] tells them apart. *)
Record bt_mesh_send_cb : Type := mkCb { cb_start : bool; cb_end : bool; cb_data : Z }.

Record seg_tx : Type := mkSegTx {
  stx_sub : option nat;
  stx_seg : list (option bytes);     (** blocks of the pool *)
  stx_seq_auth : Z;
  stx_src : Z;
  stx_dst : Z;
  stx_len : nat;
  stx_hdr : Z;
  stx_xmit : Z;
  stx_seg_n : Z;
  stx_seg_o : Z;
  stx_nack_count : Z;
  stx_attempts : Z;
  stx_ttl : Z;
  stx_seg_pending : Z;
  stx_blocked : bool;
  stx_ctl : bool;
  stx_aszmic : bool;
  stx_started : bool;
  stx_sending : bool;
  stx_friend_cred : bool;
  stx_cb : option bt_mesh_send_cb;
  stx_retransmit : option Z;
}.

#[export] Instance seg_tx_eta : Eta seg_tx := fun t =>
  mkSegTx (stx_sub t) (stx_seg t) (stx_seq_auth t) (stx_src t) (stx_dst t) (stx_len t) (stx_hdr t) (stx_xmit t)
    (stx_seg_n t) (stx_seg_o t) (stx_nack_count t) (stx_attempts t) (stx_ttl t) (stx_seg_pending t)
    (stx_blocked t) (stx_ctl t) (stx_aszmic t) (stx_started t) (stx_sending t) (stx_friend_cred t) (stx_cb t)
    (stx_retransmit t).

Record seg_rx : Type := mkSegRx {
  srx_sub : option nat;
  srx_seg : list (option bytes);
  srx_seq_auth : Z;
  srx_src : Z;
  srx_dst : Z;
  srx_len : nat;
  srx_hdr : Z;
  srx_seg_n : Z;
  srx_ctl : bool;
  srx_in_use : bool;
  srx_obo : bool;
  srx_ttl : Z;
  srx_block : Z;
  srx_last : Z;
  srx_ack : option Z;
}.

#[export] Instance seg_rx_eta : Eta seg_rx := fun r =>
  mkSegRx (srx_sub r) (srx_seg r) (srx_seq_auth r) (srx_src r) (srx_dst r) (srx_len r) (srx_hdr r) (srx_seg_n r)
    (srx_ctl r) (srx_in_use r) (srx_obo r) (srx_ttl r) (srx_block r) (srx_last r) (srx_ack r).

Record bt_mesh_va : Type := mkVa { va_ref : Z; va_changed : bool; va_addr : Z; va_uuid : bytes }.

#[export] Instance bt_mesh_va_eta : Eta bt_mesh_va := fun v =>
  mkVa (va_ref v) (va_changed v) (va_addr v) (va_uuid v).

Inductive trans_event : Type :=
| EvCbStart (data duration : Z) (err : ret_code)
| EvCbEnd (data : Z) (err : ret_code)
| EvStoreLabel.

(** [F] is the state of the friendship functions. *)
Record trans (F : Type) : Type := mkTrans {
  tr_net : bt_mesh_net;
  tr_apps : app_keys;
  tr_cdb : bt_mesh_cdb;
  tr_dev_key : bytes;
  tr_default_ttl : Z;
  tr_seg_tx : list seg_tx;
  tr_seg_rx : list seg_rx;
  tr_segs_free : nat;
  tr_virtual_addrs : list bt_mesh_va;
  tr_friend : F;
  tr_log : list trans_event;
}.

Arguments mkTrans {F} _ _ _ _ _ _ _ _ _ _ _ : assert.
Arguments tr_net {F} _ : assert.
Arguments tr_apps {F} _ : assert.
Arguments tr_cdb {F} _ : assert.
Arguments tr_dev_key {F} _ : assert.
Arguments tr_default_ttl {F} _ : assert.
Arguments tr_seg_tx {F} _ : assert.
Arguments tr_seg_rx {F} _ : assert.
Arguments tr_segs_free {F} _ : assert.
Arguments tr_virtual_addrs {F} _ : assert.
Arguments tr_friend {F} _ : assert.
Arguments tr_log {F} _ : assert.

#[export] Instance trans_eta F : Eta (trans F) := fun t =>
  mkTrans (tr_net t) (tr_apps t) (tr_cdb t) (tr_dev_key t) (tr_default_ttl t) (tr_seg_tx t) (tr_seg_rx t)
    (tr_segs_free t) (tr_virtual_addrs t) (tr_friend t) (tr_log t).

(** ** The interface of the friendship functions *)

Inductive bt_mesh_friend_pdu_type : Type :=
| BT_MESH_FRIEND_PDU_SINGLE | BT_MESH_FRIEND_PDU_PARTIAL | BT_MESH_FRIEND_PDU_COMPLETE.

(** The functions of [friend.c] called by the transport layer.  They may use the whole
    state: queueing a message takes a sequence number. *)
Class FriendOps (F : Type) : Type := {
  bt_mesh_friend_match : Z -> Z -> trans F -> bool;
  bt_mesh_friend_queue_has_space : Z -> Z -> Z -> option Z -> Z -> trans F -> bool;
  bt_mesh_friend_enqueue_tx :
    bt_mesh_net_tx -> bt_mesh_friend_pdu_type -> option Z -> Z -> bytes -> ST (trans F) bool;
  bt_mesh_friend_enqueue_rx :
    bt_mesh_net_rx -> bt_mesh_friend_pdu_type -> option Z -> Z -> bytes -> ST (trans F) unit;
  bt_mesh_friend_clear_incomplete : option nat -> Z -> Z -> Z -> ST (trans F) unit;
  bt_mesh_friend_ctl : Z -> bt_mesh_net_rx -> bytes -> ST (trans F) ret_code;
}.

Section Transport.
Context {ecb : Ecb} {cmac : Cmac} (config_proxy config_friend config_cdb : bool).
Context (proxy_relay : bytes -> Z -> bt_mesh_net -> bool) (adv_buffer : bt_mesh_net -> bool).
Context {F : Type} {friend : FriendOps F}.

Abbreviation TRANS := (ST (trans F)).

Definition on_net {A : Type} (m : ST bt_mesh_net A) : TRANS A := zoom tr_net m.
Definition event (e : trans_event) : TRANS unit := modify (fun t => t <| tr_log := tr_log t ++ [e] |>).

(** [send_cb_finalize] of [net.h]. *)
Definition send_cb_finalize (cb : option bt_mesh_send_cb) : TRANS unit :=
  match cb with
  | None => mret tt
  | Some cb =>
      _ ← when (cb_start cb) (event (EvCbStart (cb_data cb) 0 None));
      when (cb_end cb) (event (EvCbEnd (cb_data cb) None))
  end.

(** The context [i]; out of the array is undefined. *)
Definition get_tx (i : nat) : TRANS seg_tx := t ← gets (fun t => tr_seg_tx t !! i); need t.
Definition set_tx (f : seg_tx -> seg_tx) (i : nat) : TRANS unit :=
  modify (fun t => t <| tr_seg_tx := alter f i (tr_seg_tx t) |>).
Definition get_rx (i : nat) : TRANS seg_rx := t ← gets (fun t => tr_seg_rx t !! i); need t.
Definition set_rx (f : seg_rx -> seg_rx) (i : nat) : TRANS unit :=
  modify (fun t => t <| tr_seg_rx := alter f i (tr_seg_rx t) |>).

(** The index of the subnet [i]. *)
Definition net_idx_of (i : nat) : TRANS Z :=
  sub ← gets (fun t => subs (net_subnets (tr_net t)) !! i); sub ← need sub; mret (sub_net_idx sub).

Definition k_mem_slab_free : TRANS unit := modify (fun t => t <| tr_segs_free := S (tr_segs_free t) |>).

(** ** Sending *)

Definition bt_mesh_tx_in_progress (t : trans F) : bool :=
  existsb (fun tx => negb (stx_nack_count tx =? 0)) (tr_seg_tx t).

Definition net_send (tx : bt_mesh_net_tx) (xmit : Z) (buf : net_buf_simple) (cb : bool) : TRANS (ret_code * bool) :=
  busy ← gets bt_mesh_tx_in_progress;
  on_net (bt_mesh_net_send config_proxy config_friend config_cdb proxy_relay busy tx xmit buf cb).

(** [bt_mesh_adv_create] followed by [net_buf_reserve]. *)
Definition adv_create : TRANS (option net_buf_simple) :=
  free ← gets (fun t => adv_buffer (tr_net t));
  mret (if free : bool then Some (net_buf_simple_init BT_MESH_NET_HDR_LEN adv_buf) else None).

Definition unseg_hdr (ctl_op : option Z) (tx : bt_mesh_net_tx) : Z :=
  match ctl_op with
  | Some op => TRANS_CTL_HDR op false
  | None => if BT_MESH_IS_DEV_KEY (ctx_app_idx (tx_ctx tx)) then UNSEG_HDR false 0 else UNSEG_HDR true (tx_aid tx)
  end.

Definition send_unseg (tx : bt_mesh_net_tx) (sdu : bytes) (cb : option bt_mesh_send_cb) (ctl_op : option Z)
    : TRANS ret_code :=
  let dst := ctx_addr (tx_ctx tx) in
  buf ← adv_create;
  match buf with
  | None => mret (Some ENOBUFS)
  | Some buf =>
      '(_, buf) ← need (net_buf_simple_add_u8 (unseg_hdr ctl_op tx) buf);
      '(_, buf) ← need (net_buf_simple_add_mem sdu buf);
      let send : TRANS ret_code :=
        '(err, fin) ← net_send tx (tx_xmit tx) buf (match cb with Some _ => true | None => false end);
        _ ← when fin (send_cb_finalize cb);
        mret err in
      if config_friend then
        net_idx ← net_idx_of (tx_sub tx);
        space ← gets (bt_mesh_friend_queue_has_space net_idx (tx_src tx) dst None 1);
        if negb space then
          if BT_MESH_ADDR_IS_UNICAST dst then mret (Some ENOBUFS) else send
        else
          queued ← bt_mesh_friend_enqueue_tx tx BT_MESH_FRIEND_PDU_SINGLE None 1 (contents buf);
          if queued && BT_MESH_ADDR_IS_UNICAST dst then _ ← send_cb_finalize cb; mret None
          else send
      else send
  end.

Definition seg_tx_done (i seg_idx : nat) : TRANS unit :=
  _ ← k_mem_slab_free;
  set_tx (fun tx => tx <| stx_seg := <[seg_idx := None]> (stx_seg tx) |>
                       <| stx_nack_count := u8 (stx_nack_count tx - 1) |>) i.

Definition seg_tx_blocks (tx : seg_tx) (src dst : Z) : bool := (stx_src tx =? src) && (stx_dst tx =? dst).

(** The blocked context with the parameters of [tx] and the least SeqAuth. *)
Fixpoint find_blocked (tx : seg_tx) (i j : nat) (blocked : option (nat * Z)) (l : list seg_tx) : option (nat * Z) :=
  match l with
  | [] => blocked
  | x :: l =>
      find_blocked tx i (S j)
        (if negb (j =? i)%nat && stx_blocked x && seg_tx_blocks tx (stx_src x) (stx_dst x)
            && match blocked with None => true | Some (_, auth) => stx_seq_auth x <? auth end
         then Some (j, stx_seq_auth x) else blocked) l
  end.

Definition seg_tx_unblock_check (i : nat) : TRANS unit :=
  tx ← get_tx i;
  l ← gets tr_seg_tx;
  match find_blocked tx i 0 None l with
  | None => mret tt
  | Some (j, _) => set_tx (fun x => x <| stx_blocked := false |> <| stx_retransmit := Some 0 |>) j
  end.

(** Frees the blocks from [k] on. *)
Fixpoint seg_tx_free_loop (i n k : nat) : TRANS unit :=
  match n with
  | O => mret tt
  | S n =>
      tx ← get_tx i;
      if stx_nack_count tx =? 0 then mret tt
      else
        seg ← need (stx_seg tx !! k);
        _ ← when (match seg with Some _ => true | None => false end) (seg_tx_done i k);
        seg_tx_free_loop i n (S k)
  end.

Definition seg_tx_reset (i : nat) : TRANS unit :=
  _ ← set_tx (fun tx => tx <| stx_retransmit := None |> <| stx_cb := None |> <| stx_seq_auth := 0 |>
                           <| stx_sub := None |> <| stx_src := BT_MESH_ADDR_UNASSIGNED |>
                           <| stx_dst := BT_MESH_ADDR_UNASSIGNED |> <| stx_blocked := false |>) i;
  tx ← get_tx i;
  _ ← seg_tx_free_loop i (S (Z.to_nat (stx_seg_n tx))) 0;
  _ ← set_tx (fun tx => tx <| stx_nack_count := 0 |>) i;
  pending ← gets (fun t => ivu_pending (tr_net t));
  if pending : bool then
    _ ← on_net (modify (fun n => n <| ivu_pending := false |>));
    busy ← gets bt_mesh_tx_in_progress;
    _ ← on_net (fun n => Some (bt_mesh_net_iv_update config_proxy config_friend config_cdb busy (iv_index n) false n));
    mret tt
  else mret tt.

Definition seg_tx_complete (i : nat) (err : ret_code) : TRANS unit :=
  tx ← get_tx i;
  _ ← seg_tx_unblock_check i;
  _ ← seg_tx_reset i;
  match stx_cb tx with
  | Some cb => when (cb_end cb) (event (EvCbEnd (cb_data cb) err))
  | None => mret tt
  end.

Definition SEG_RETRANSMIT_TIMEOUT (tx : seg_tx) : Z :=
  if BT_MESH_ADDR_IS_UNICAST (stx_dst tx)
  then CONFIG_BT_MESH_TX_SEG_RETRANS_TIMEOUT_UNICAST + 50 * stx_ttl tx
  else CONFIG_BT_MESH_TX_SEG_RETRANS_TIMEOUT_GROUP.

Definition schedule_retransmit (i : nat) : TRANS unit :=
  tx ← get_tx i;
  if stx_nack_count tx =? 0 then mret tt
  else
    _ ← set_tx (fun tx => tx <| stx_seg_pending := u8 (stx_seg_pending tx - 1) |>) i;
    tx ← get_tx i;
    if negb (stx_seg_pending tx =? 0) || stx_sending tx then mret tt
    else set_tx (fun tx => tx <| stx_retransmit :=
                   Some (if negb (stx_seg_o tx =? 0) then 0 else SEG_RETRANSMIT_TIMEOUT tx) |>) i.

(** The callbacks the bearer calls for a segment. *)
Definition seg_send_start (duration : Z) (err : ret_code) (i : nat) : TRANS unit :=
  tx ← get_tx i;
  _ ← match stx_cb tx with
      | Some cb =>
          if negb (stx_started tx) && cb_start cb then
            _ ← event (EvCbStart (cb_data cb) duration err);
            set_tx (fun tx => tx <| stx_started := true |>) i
          else mret tt
      | None => mret tt
      end;
  match err with None => mret tt | Some _ => schedule_retransmit i end.

Definition seg_sent (i : nat) : TRANS unit := schedule_retransmit i.

(** Bytes of a segment that was written to a block. *)
Definition block_read (seg : option bytes) (len : nat) : option bytes :=
  match seg with
  | Some b => if (len <=? length b)%nat then Some (take len b) else None
  | None => None
  end.

(** The number of bytes of the segment [seg_o] of a message of [len] bytes. *)
Definition seg_size (ctl : bool) (len : nat) (seg_o : Z) : nat :=
  Z.to_nat (u8 (Z.min (Z.of_nat (seg_len ctl)) (Z.of_nat len - Z.of_nat (seg_len ctl) * seg_o))).

Definition seg_tx_buf_build (tx : seg_tx) (seg_o : Z) : BUF unit :=
  let seq_zero := Z.land (stx_seq_auth tx) TRANS_SEQ_ZERO_MASK in
  _ ← net_buf_simple_add_u8 (stx_hdr tx);
  _ ← net_buf_simple_add_u8 (u8 (Z.lor (if stx_aszmic tx then 128 else 0) (Z.shiftr seq_zero 6)));
  _ ← net_buf_simple_add_u8 (u8 (Z.lor (Z.shiftl (Z.land seq_zero 63) 2) (Z.shiftr seg_o 3)));
  _ ← net_buf_simple_add_u8 (u8 (Z.lor (Z.shiftl (Z.land seg_o 7) 5) (stx_seg_n tx)));
  data ← need (stx_seg tx !! Z.to_nat seg_o ≫= fun seg => block_read seg (seg_size (stx_ctl tx) (stx_len tx) seg_o));
  _ ← net_buf_simple_add_mem data;
  mret tt.

(** The loop over the segments, [n] of them left: whether it ran to its end. *)
Fixpoint send_unacked_loop (net_tx : bt_mesh_net_tx) (i n : nat) : TRANS bool :=
  match n with
  | O => mret true
  | S n =>
      tx ← get_tx i;
      let next := _ ← set_tx (fun tx => tx <| stx_seg_o := u8 (stx_seg_o tx + 1) |>) i; send_unacked_loop net_tx i n in
      seg ← need (stx_seg tx !! Z.to_nat (stx_seg_o tx));
      match seg with
      | None => next
      | Some _ =>
          buf ← adv_create;
          match buf with
          | None => mret false
          | Some buf =>
              '(_, buf) ← need (seg_tx_buf_build tx (stx_seg_o tx) buf);
              _ ← set_tx (fun tx => tx <| stx_seg_pending := u8 (stx_seg_pending tx + 1) |>) i;
              '(err, fin) ← net_send net_tx (stx_xmit tx) buf true;
              _ ← when fin (_ ← seg_send_start 0 None i; seg_sent i);
              match err with
              | Some _ => _ ← set_tx (fun tx => tx <| stx_seg_pending := u8 (stx_seg_pending tx - 1) |>) i; mret false
              | None => next
              end
          end
      end
  end.

Definition seg_net_tx (tx : seg_tx) (sub : nat) (net_idx : Z) : bt_mesh_net_tx :=
  mkTx sub (mkCtx net_idx (if stx_ctl tx then BT_MESH_KEY_UNUSED else 0) (stx_dst tx) 0 0 0 true (stx_ttl tx))
    (stx_src tx) (stx_xmit tx) (stx_friend_cred tx) false (Z.land (stx_hdr tx) AID_MASK).

Definition seg_tx_send_unacked (i : nat) : TRANS unit :=
  tx ← get_tx i;
  if stx_nack_count tx =? 0 then mret tt
  else
    sub ← need (stx_sub tx);
    net_idx ← net_idx_of sub;
    if stx_attempts tx =? 0 then
      seg_tx_complete i (if BT_MESH_ADDR_IS_UNICAST (stx_dst tx) then Some ETIMEDOUT else None)
    else
      _ ← set_tx (fun tx => tx <| stx_sending := true |>) i;
      all ← send_unacked_loop (seg_net_tx tx sub net_idx) i (Z.to_nat (stx_seg_n tx + 1 - stx_seg_o tx));
      _ ← when all (set_tx (fun tx => tx <| stx_seg_o := 0 |> <| stx_attempts := u8 (stx_attempts tx - 1) |>) i);
      _ ← set_tx (fun tx => if stx_seg_pending tx =? 0
                            then tx <| stx_retransmit := Some (SEG_RETRANSMIT_TIMEOUT tx) |> else tx) i;
      set_tx (fun tx => tx <| stx_sending := false |>) i.

(** The retransmit work of the context [i], which has expired. *)
Definition seg_retransmit (i : nat) : TRANS unit :=
  _ ← set_tx (fun tx => tx <| stx_retransmit := None |>) i;
  seg_tx_send_unacked i.

Definition seg_hdr (ctl_op : option Z) (tx : bt_mesh_net_tx) : Z :=
  match ctl_op with
  | Some op => TRANS_CTL_HDR op true
  | None => if BT_MESH_IS_DEV_KEY (ctx_app_idx (tx_ctx tx)) then SEG_HDR false 0 else SEG_HDR true (tx_aid tx)
  end.

(** The fields of a context that starts to send [len] bytes. *)
Definition seg_tx_start (net_tx : bt_mesh_net_tx) (len : nat) (cb : option bt_mesh_send_cb) (ctl_op : option Z)
    (blocked : bool) (n : bt_mesh_net) (tx : seg_tx) : seg_tx :=
  let ctl := match ctl_op with Some _ => true | None => false end in
  let seg_n := u8 (Z.quot (Z.of_nat len - 1) (Z.of_nat (seg_len ctl))) in
  mkSegTx (Some (tx_sub net_tx)) (stx_seg tx) (SEQ_AUTH (BT_MESH_NET_IVI_TX n) (net_seq n))
    (tx_src net_tx) (ctx_addr (tx_ctx net_tx)) len (seg_hdr ctl_op net_tx) (tx_xmit net_tx)
    seg_n 0 (u8 (seg_n + 1)) CONFIG_BT_MESH_TX_SEG_RETRANS_COUNT (ctx_send_ttl (tx_ctx net_tx)) 0
    blocked ctl (tx_aszmic net_tx) false (stx_sending tx) (tx_friend_cred net_tx) cb (stx_retransmit tx).

(** The loop that copies the message into blocks, from segment [seg_o] on; each round
    takes at least one byte, so [fuel] above the length is enough. *)
Fixpoint send_seg_loop (net_tx : bt_mesh_net_tx) (ctl_op : option Z) (i fuel seg_o : nat) (sdu : net_buf_simple)
    : TRANS ret_code :=
  if (buf_len sdu =? 0)%nat then mret None
  else match fuel with
  | O => undefined
  | S fuel =>
      free ← gets tr_segs_free;
      if (free =? 0)%nat then _ ← seg_tx_reset i; mret (Some ENOBUFS)
      else
        _ ← modify (fun t => t <| tr_segs_free := pred (tr_segs_free t) |>);
        let ctl := match ctl_op with Some _ => true | None => false end in
        '(data, sdu) ← need (net_buf_simple_pull_mem (Nat.min (buf_len sdu) (seg_len ctl)) sdu);
        tx ← get_tx i;
        if (length (stx_seg tx) <=? seg_o)%nat then undefined
        else
          _ ← set_tx (fun tx => tx <| stx_seg := <[seg_o := Some data]> (stx_seg tx) |>) i;
          _ ← when config_friend
                (tx ← get_tx i;
                 '(_, seg) ← need (seg_tx_buf_build tx (Z.of_nat seg_o) (mkBuf 0 0 (replicate 16 0)));
                 queued ← bt_mesh_friend_enqueue_tx net_tx
                            (if Z.of_nat seg_o =? stx_seg_n tx then BT_MESH_FRIEND_PDU_COMPLETE
                             else BT_MESH_FRIEND_PDU_PARTIAL)
                            (if ctl then None else Some (stx_seq_auth tx)) (stx_seg_n tx + 1) (contents seg);
                 when (queued && BT_MESH_ADDR_IS_UNICAST (ctx_addr (tx_ctx net_tx)))
                   (_ ← k_mem_slab_free;
                    set_tx (fun tx => tx <| stx_seg := <[seg_o := None]> (stx_seg tx) |>) i));
          send_seg_loop net_tx ctl_op i fuel (S seg_o) sdu
  end.

Definition send_seg (net_tx : bt_mesh_net_tx) (sdu : net_buf_simple) (cb : option bt_mesh_send_cb)
    (ctl_op : option Z) : TRANS ret_code :=
  l ← gets tr_seg_tx;
  let dst := ctx_addr (tx_ctx net_tx) in
  let blocked := existsb (fun tx => negb (stx_nack_count tx =? 0) && seg_tx_blocks tx (tx_src net_tx) dst) l in
  match find_index (fun tx => stx_nack_count tx =? 0) l with
  | None => mret (Some EBUSY)
  | Some i =>
      n ← gets tr_net;
      _ ← set_tx (seg_tx_start net_tx (buf_len sdu) cb ctl_op blocked n) i;
      tx ← get_tx i;
      full ← (if config_friend then
                net_idx ← net_idx_of (tx_sub net_tx);
                space ← gets (bt_mesh_friend_queue_has_space net_idx (tx_src net_tx) dst (Some (stx_seq_auth tx))
                                (stx_seg_n tx + 1));
                mret (negb space && BT_MESH_ADDR_IS_UNICAST dst)
              else mret false);
      if full : bool then _ ← seg_tx_reset i; mret (Some ENOBUFS)
      else
        err ← send_seg_loop net_tx ctl_op i (S (buf_len sdu)) 0 sdu;
        match err with
        | Some _ => mret err
        | None =>
            tx ← get_tx i;
            if config_friend && match stx_seg tx !! 0%nat with Some (Some _) => false | _ => true end then
              _ ← seg_tx_reset i; _ ← send_cb_finalize cb; mret None
            else if blocked then
              busy ← gets bt_mesh_tx_in_progress;
              _ ← on_net (fun n => Some (bt_mesh_next_seq config_proxy config_friend config_cdb busy n));
              mret None
            else _ ← seg_tx_send_unacked i; mret None
        end
  end.

(** ** Virtual addresses *)

Definition bt_mesh_va_label_get (addr : Z) (t : trans F) : option bytes :=
  va_uuid <$> List.find (fun va => negb (va_ref va =? 0) && (va_addr va =? addr)) (tr_virtual_addrs t).

Definition bt_mesh_va_get (index : nat) (t : trans F) : option bt_mesh_va := tr_virtual_addrs t !! index.

Definition va_matches (uuid : bytes) (va : bt_mesh_va) : bool :=
  negb (va_ref va =? 0) && bool_decide (uuid = va_uuid va).

Definition bt_mesh_va_find (uuid : bytes) (t : trans F) : option nat :=
  find_index (va_matches uuid) (tr_virtual_addrs t).

Definition set_va (f : bt_mesh_va -> bt_mesh_va) (i : nat) : TRANS unit :=
  modify (fun t => t <| tr_virtual_addrs := alter f i (tr_virtual_addrs t) |>).

Definition va_store (i : nat) : TRANS unit :=
  _ ← set_va (fun va => va <| va_changed := true |>) i; event EvStoreLabel.

(** Fifteen bits of reference count. *)
Definition va_ref_add (d : Z) (va : bt_mesh_va) : bt_mesh_va := va <| va_ref := (va_ref va + d) mod 2 ^ 15 |>.

(** The status and the address stored in [*addr]. *)
Definition bt_mesh_va_add (uuid : bytes) : TRANS (mesh_status * option Z) :=
  l ← gets tr_virtual_addrs;
  match find_or_free (va_matches uuid) (fun va => va_ref va =? 0) 0 None l ≫= fun i => (i,.) <$> l !! i with
  | None => mret (STATUS_INSUFF_RESOURCES, None)
  | Some (i, va) =>
      if va_matches uuid va then
        _ ← set_va (va_ref_add 1) i; _ ← va_store i; mret (STATUS_SUCCESS, Some (va_addr va))
      else
        _ ← set_va (fun va => va <| va_uuid := uuid |>) i;
        match bt_mesh_virtual_addr uuid with
        | inl _ => _ ← set_va (fun va => va <| va_addr := BT_MESH_ADDR_UNASSIGNED |>) i; mret (STATUS_UNSPECIFIED, None)
        | inr addr =>
            _ ← set_va (fun va => va <| va_addr := addr |> <| va_ref := 1 |>) i;
            _ ← va_store i; mret (STATUS_SUCCESS, Some addr)
        end
  end.

Definition bt_mesh_va_del (uuid : bytes) : TRANS (mesh_status * option Z) :=
  l ← gets tr_virtual_addrs;
  match find_index (va_matches uuid) l ≫= fun i => (i,.) <$> l !! i with
  | None => mret (STATUS_CANNOT_REMOVE, None)
  | Some (i, va) => _ ← set_va (va_ref_add (-1)) i; _ ← va_store i; mret (STATUS_SUCCESS, Some (va_addr va))
  end.

(** ** Sending of access messages *)

(** The message is encrypted in place. *)
Definition trans_encrypt (tx : bt_mesh_net_tx) (key : bytes) (msg : net_buf_simple) (t : trans F)
    : option (ret_code * net_buf_simple) :=
  let dst := ctx_addr (tx_ctx tx) in
  bt_mesh_app_encrypt key
    (mkAppCtx (BT_MESH_IS_DEV_KEY (ctx_app_idx (tx_ctx tx))) (if tx_aszmic tx then 1 else 0) (tx_src tx) dst
       (net_seq (tr_net t)) (BT_MESH_NET_IVI_TX (tr_net t))
       (if BT_MESH_ADDR_IS_VIRTUAL dst then bt_mesh_va_label_get dst t else None)) msg.

Definition set_ctx (f : bt_mesh_msg_ctx -> bt_mesh_msg_ctx) (tx : bt_mesh_net_tx) : bt_mesh_net_tx :=
  tx <| tx_ctx := f (tx_ctx tx) |>.

(** The TTL of a message, [None] when it is too large. *)
Definition resolve_ttl (default_ttl : Z) (tx : bt_mesh_net_tx) : option bt_mesh_net_tx :=
  if ctx_send_ttl (tx_ctx tx) =? BT_MESH_TTL_DEFAULT
  then Some (set_ctx (fun c => c <| ctx_send_ttl := default_ttl |>) tx)
  else if BT_MESH_TTL_MAX <? ctx_send_ttl (tx_ctx tx) then None else Some tx.

Definition bt_mesh_trans_send (tx : bt_mesh_net_tx) (msg : net_buf_simple) (cb : option bt_mesh_send_cb)
    : TRANS ret_code :=
  if (buf_len msg <? 1)%nat then mret (Some EINVAL)
  else if (BT_MESH_TX_SDU_MAX <? buf_len msg)%nat then mret (Some EMSGSIZE)
  else if (net_buf_simple_tailroom msg <? 4)%nat then mret (Some EINVAL)
  else
    default_ttl ← gets tr_default_ttl;
    match resolve_ttl default_ttl tx with
    | None => mret (Some EINVAL)
    | Some tx =>
        let tx := if (BT_MESH_SDU_UNSEG_MAX <? buf_len msg)%nat
                  then set_ctx (fun c => c <| ctx_send_rel := true |>) tx else tx in
        let dst := ctx_addr (tx_ctx tx) in
        if (dst =? BT_MESH_ADDR_UNASSIGNED)
           || (negb (BT_MESH_ADDR_IS_UNICAST dst) && BT_MESH_IS_DEV_KEY (ctx_app_idx (tx_ctx tx)))
        then mret (Some EINVAL)
        else
          resolved ← gets (fun t => bt_mesh_keys_resolve config_cdb (tx_ctx tx) (net_comp (tr_net t)) (tr_cdb t)
                                      (tr_dev_key t) (net_subnets (tr_net t)) (tr_apps t));
          r ← need resolved;
          match r with
          | inl err => mret (Some err)
          | inr (sub, key, aid) =>
              xmit ← gets (fun t => net_xmit (tr_net t));
              let tx := tx <| tx_sub := sub |> <| tx_xmit := xmit |> <| tx_aid := Z.land aid AID_MASK |>
                           <| tx_aszmic := ctx_send_rel (tx_ctx tx) && (8 <=? net_buf_simple_tailroom msg)%nat |> in
              enc ← gets (trans_encrypt tx key msg);
              '(err, msg) ← need enc;
              match err with
              | Some _ => mret err
              | None => if ctx_send_rel (tx_ctx tx) then send_seg tx msg cb None
                        else send_unseg tx (contents msg) cb None
              end
          end
    end.

(** ** Control messages *)

Definition bt_mesh_ctl_send (tx : bt_mesh_net_tx) (ctl_op : Z) (data : bytes) (cb : option bt_mesh_send_cb)
    : TRANS ret_code :=
  default_ttl ← gets tr_default_ttl;
  match resolve_ttl default_ttl tx with
  | None => mret (Some EINVAL)
  | Some tx =>
      let tx := if (BT_MESH_SDU_UNSEG_MAX <? length data)%nat
                then set_ctx (fun c => c <| ctx_send_rel := true |>) tx else tx in
      let tx := set_ctx (fun c => c <| ctx_app_idx := BT_MESH_KEY_UNUSED |>) tx in
      let dst := ctx_addr (tx_ctx tx) in
      if (dst =? BT_MESH_ADDR_UNASSIGNED) || BT_MESH_ADDR_IS_VIRTUAL dst then mret (Some EINVAL)
      else if ctx_send_rel (tx_ctx tx) then send_seg tx (mkBuf 0 (length data) data) cb (Some ctl_op)
      else send_unseg tx data cb (Some ctl_op)
  end.

Definition ack_pdu (seq_auth block : Z) (obo : bool) : bytes :=
  sys_put_be16 (Z.lor (Z.land (Z.shiftl (Z.land seq_auth TRANS_SEQ_ZERO_MASK) 2) 32764) (if obo then 32768 else 0))
  ++ sys_put_be32 block.

Definition send_ack (sub : nat) (src dst ttl seq_auth block : Z) (obo : bool) : TRANS ret_code :=
  net_idx ← net_idx_of sub;
  primary ← gets (fun t => bt_mesh_primary_addr (net_comp (tr_net t)));
  xmit ← gets (fun t => net_xmit (tr_net t));
  if negb (BT_MESH_ADDR_IS_UNICAST src) then mret None
  else bt_mesh_ctl_send
         (mkTx sub (mkCtx net_idx BT_MESH_KEY_UNUSED dst 0 0 0 false ttl) (if obo then primary else src) xmit
            false false 0)
         TRANS_CTL_OP_ACK (ack_pdu seq_auth block obo) None.

(** ** Reassembly *)

(** The bytes of one segment of a received message. *)
Definition rx_seg_bytes (rx : seg_rx) (i : nat) : option bytes :=
  srx_seg rx !! i ≫= fun seg =>
  let len := Z.min (Z.of_nat (seg_len (srx_ctl rx))) (Z.of_nat (srx_len rx) - Z.of_nat (i * seg_len (srx_ctl rx))) in
  if len <? 0 then None else block_read seg (Z.to_nat len).

Definition seg_rx_assemble (rx : seg_rx) (aszmic : Z) : BUF unit :=
  _ ← modify net_buf_simple_reset;
  _ ← for_loop (S (Z.to_nat (srx_seg_n rx))) 0
        (fun i => data ← need (rx_seg_bytes rx i); _ ← net_buf_simple_add_mem data; mret tt);
  when (negb (srx_ctl rx))
    (b ← gets id;
     if (buf_len b <? APP_MIC_LEN aszmic)%nat then undefined
     else modify (fun b => b <| buf_len := (buf_len b - APP_MIC_LEN aszmic)%nat |>)).

(** [sdu_try_decrypt] of an unsegmented message: from [buf] to [sdu]. *)
Definition sdu_try_decrypt (crypto : bt_mesh_app_crypto_ctx) (buf : net_buf_simple) (key : bytes)
    : ST net_buf_simple bool :=
  _ ← modify net_buf_simple_reset;
  sdu ← gets id;
  '(err, sdu) ← need (bt_mesh_app_decrypt key crypto buf sdu);
  _ ← modify (fun _ => sdu);
  mret (match err with None => true | Some _ => false end).

(** [sdu_try_decrypt] of a segmented message, which is assembled again for each key and
    decrypted in place; the SDU is the front of the assembly buffer. *)
Definition sdu_try_decrypt_seg (crypto : bt_mesh_app_crypto_ctx) (rx : seg_rx) (key : bytes)
    : ST net_buf_simple bool :=
  '(_, buf) ← need (seg_rx_assemble rx (ac_aszmic crypto) (mkBuf 0 0 (replicate BT_MESH_RX_SDU_MAX 0)));
  '(err, buf) ← need (bt_mesh_app_decrypt_in_place key crypto buf);
  let ok := match err with None => true | Some _ => false end in
  _ ← modify (fun _ => mkBuf 0 (if ok then buf_len buf else 0) (take (buf_len buf) (buf_mem buf)));
  mret ok.

(** [bt_mesh_model_recv]; the receive context may change. *)
Variable model_recv : bt_mesh_net_rx -> net_buf_simple -> Z -> TRANS bt_mesh_net_rx.

Definition rx_crypto (rx : bt_mesh_net_rx) (hdr aszmic seq_num : Z) (t : trans F) : bt_mesh_app_crypto_ctx :=
  let dst := ctx_recv_dst (rx_ctx rx) in
  mkAppCtx (negb (AKF hdr)) aszmic (rx_addr rx) dst seq_num (BT_MESH_NET_IVI_RX (rx_old_iv rx) (tr_net t))
    (if BT_MESH_ADDR_IS_VIRTUAL dst then bt_mesh_va_label_get dst t else None).

(** [try] decrypts with a key, starting from the buffer [out]; [seq_num] is that of the
    message, or of its first segment. *)
Definition sdu_recv (rx : bt_mesh_net_rx) (hdr aszmic seq_num : Z)
    (try : bt_mesh_app_crypto_ctx -> bytes -> ST net_buf_simple bool) (out : net_buf_simple) (rssi : Z)
    : TRANS (ret_code * bt_mesh_net_rx) :=
  if config_friend && negb (rx_local_match rx) then mret (None, rx)
  else
    crypto ← gets (rx_crypto rx hdr aszmic seq_num);
    t ← gets id;
    '(app_idx, sdu) ← need (bt_mesh_app_key_find config_cdb (try crypto) (ac_dev_key crypto) (AID hdr) rx (tr_cdb t)
                              (tr_dev_key t) (net_subnets (tr_net t)) (tr_apps t) out);
    let rx := rx <| rx_ctx := (rx_ctx rx) <| ctx_app_idx := app_idx |> |> in
    if app_idx =? BT_MESH_KEY_UNUSED then mret (None, rx)
    else rx ← model_recv rx sdu rssi; mret (None, rx).

(** ** Acknowledgements *)

(** The context an acknowledgement is for; with OBO set, a Friend may answer for the
    destination, whose address it then replaces. *)
Fixpoint seg_tx_lookup_loop (seq_zero addr : Z) (obo : bool) (i : nat) (l : list seg_tx) : option (nat * bool) :=
  match l with
  | [] => None
  | tx :: l =>
      if negb (Z.land (stx_seq_auth tx) TRANS_SEQ_ZERO_MASK =? seq_zero) then
        seg_tx_lookup_loop seq_zero addr obo (S i) l
      else if stx_dst tx =? addr then Some (i, false)
      else if obo && (stx_nack_count tx =? stx_seg_n tx + 1) then Some (i, true)
      else seg_tx_lookup_loop seq_zero addr obo (S i) l
  end.

Definition seg_tx_lookup (seq_zero : Z) (obo : bool) (addr : Z) : TRANS (option nat) :=
  l ← gets tr_seg_tx;
  match seg_tx_lookup_loop seq_zero addr obo 0 l with
  | None => mret None
  | Some (i, replace) => _ ← when replace (set_tx (fun tx => tx <| stx_dst := addr |>) i); mret (Some i)
  end.

(** Frees the acknowledged segments, lowest bit first. *)
Definition ack_segments (i : nat) (ack : Z) : TRANS unit :=
  for_loop 32 0 (fun k =>
    when (Z.testbit ack (Z.of_nat k))
      (tx ← get_tx i; seg ← need (stx_seg tx !! k);
       when (match seg with Some _ => true | None => false end) (seg_tx_done i k))).

(** The result and the value of [*seq_auth], which stays as it is for [None]. *)
Definition trans_ack (rx : bt_mesh_net_rx) (buf : bytes) : TRANS (ret_code * option Z) :=
  if (length buf <? 6)%nat then mret (Some EINVAL, None)
  else
    let w := sys_get_be16 buf in
    let obo := negb (Z.shiftr w 15 =? 0) in
    let seq_zero := Z.land (Z.shiftr w 2) TRANS_SEQ_ZERO_MASK in
    if config_friend && rx_friend_match rx then
      n ← gets tr_net; mret (None, Some (SEQ_AUTH (BT_MESH_NET_IVI_RX (rx_old_iv rx) n) seq_zero))
    else
      let ack := u32 (sys_get_be32 (drop 2 buf)) in
      found ← seg_tx_lookup seq_zero obo (rx_addr rx);
      match found with
      | None => mret (Some EINVAL, None)
      | Some i =>
          tx ← get_tx i;
          if negb (BT_MESH_ADDR_IS_UNICAST (stx_dst tx)) then mret (Some EINVAL, None)
          else
            let seq_auth := Some (stx_seq_auth tx) in
            if ack =? 0 then _ ← seg_tx_complete i (Some ECANCELED); mret (None, seq_auth)
            else if stx_seg_n tx <? Z.log2 ack then mret (Some EINVAL, seq_auth)
            else
              _ ← set_tx (fun tx => tx <| stx_retransmit := None |>) i;
              _ ← ack_segments i ack;
              tx ← get_tx i;
              _ ← (if negb (stx_nack_count tx =? 0) then seg_tx_send_unacked i else seg_tx_complete i None);
              mret (None, seq_auth)
      end.

(** [bt_mesh_hb_recv] *)
Variable hb_recv : bt_mesh_net_rx -> bytes -> TRANS ret_code.

Definition is_friend_op (op : Z) : bool :=
  existsb (Z.eqb op)
    [TRANS_CTL_OP_FRIEND_POLL; TRANS_CTL_OP_FRIEND_REQ; TRANS_CTL_OP_FRIEND_CLEAR; TRANS_CTL_OP_FRIEND_CLEAR_CFM;
     TRANS_CTL_OP_FRIEND_SUB_ADD; TRANS_CTL_OP_FRIEND_SUB_REM].

Definition ctl_recv (rx : bt_mesh_net_rx) (hdr : Z) (buf : bytes) : TRANS (ret_code * option Z) :=
  let ctl_op := TRANS_CTL_OP hdr in
  if ctl_op =? TRANS_CTL_OP_ACK then trans_ack rx buf
  else if ctl_op =? TRANS_CTL_OP_HEARTBEAT then err ← hb_recv rx buf; mret (err, None)
  else if negb (rx_local_match rx) then mret (None, None)
  else if config_friend && is_friend_op ctl_op then err ← bt_mesh_friend_ctl ctl_op rx buf; mret (err, None)
  else mret (Some ENOENT, None).

(** ** Receiving *)

Definition rpl_check (want_match : bool) (rx : bt_mesh_net_rx) : TRANS (bool * option nat) :=
  on_net (fun n => let '(replay, slot, l) := bt_mesh_rpl_check want_match rx (net_rpl n) in
                   Some ((replay, slot), n <| net_rpl := l |>)).

Definition rpl_update (slot : option nat) (rx : bt_mesh_net_rx) : TRANS unit :=
  match slot with
  | Some i => on_net (modify (fun n => n <| net_rpl := alter (bt_mesh_rpl_update rx) i (net_rpl n) |>))
  | None => mret tt
  end.

(** The result, the context, and the value of [*seq_auth] if it is set. *)
Definition trans_unseg (buf : net_buf_simple) (rx : bt_mesh_net_rx) (rssi : Z)
    : TRANS (ret_code * bt_mesh_net_rx * option Z) :=
  if (buf_len buf <? 1)%nat then mret (Some EINVAL, rx, None)
  else
    '(replay, _) ← rpl_check false rx;
    if replay : bool then mret (Some EINVAL, rx, None)
    else
      '(hdr, buf) ← need (net_buf_simple_pull_u8 buf);
      if rx_ctl rx then
        '(err, seq_auth) ← ctl_recv rx hdr (contents buf); mret (err, rx, seq_auth)
      else if (buf_len buf <? 1 + APP_MIC_LEN 0)%nat then mret (Some EINVAL, rx, None)
      else
        let buf := buf <| buf_len := (buf_len buf - APP_MIC_LEN 0)%nat |> in
        '(err, rx) ← sdu_recv rx hdr 0 (rx_seq rx) (fun crypto => sdu_try_decrypt crypto buf)
                       (mkBuf 0 0 (replicate BT_MESH_SDU_UNSEG_MAX 0)) rssi;
        mret (err, rx, None).

(** The number of bits set in [block]. *)
Definition popcount (block : Z) : Z :=
  Z.of_nat (length (List.filter (fun k => Z.testbit block (Z.of_nat k)) (seq 0 32))).

Definition ack_timeout (default_ttl : Z) (rx : seg_rx) : Z :=
  let ttl := if srx_ttl rx =? BT_MESH_TTL_DEFAULT then default_ttl else srx_ttl rx in
  Z.max (150 + ttl * 50 + ((srx_seg_n rx + 1) - popcount (srx_block rx)) * 100) 400.

(** Frees the blocks 0 to [seg_n]. *)
Definition seg_rx_free (i : nat) : TRANS unit :=
  rx ← get_rx i;
  for_loop (S (Z.to_nat (srx_seg_n rx))) 0 (fun k =>
    rx ← get_rx i; seg ← need (srx_seg rx !! k);
    when (match seg with Some _ => true | None => false end)
      (_ ← k_mem_slab_free; set_rx (fun rx => rx <| srx_seg := <[k := None]> (srx_seg rx) |>) i)).

Definition seg_rx_reset (i : nat) (full_reset : bool) : TRANS unit :=
  _ ← set_rx (fun rx => rx <| srx_ack := None |>) i;
  rx ← get_rx i;
  _ ← when (config_friend && srx_obo rx && negb (srx_block rx =? BLOCK_COMPLETE (srx_seg_n rx)))
        (bt_mesh_friend_clear_incomplete (srx_sub rx) (srx_src rx) (srx_dst rx) (srx_seq_auth rx));
  _ ← seg_rx_free i;
  _ ← set_rx (fun rx => rx <| srx_in_use := false |>) i;
  when full_reset
    (set_rx (fun rx => rx <| srx_seq_auth := 0 |> <| srx_sub := None |> <| srx_src := BT_MESH_ADDR_UNASSIGNED |>
                          <| srx_dst := BT_MESH_ADDR_UNASSIGNED |>) i).

(** The acknowledgement work of the context [i], which has expired; [now] is
    [k_uptime_get_32()]. *)
Definition seg_ack (now : Z) (i : nat) : TRANS unit :=
  _ ← set_rx (fun rx => rx <| srx_ack := None |>) i;
  rx ← get_rx i;
  if 60000 <? u32 (now - srx_last rx) then seg_rx_reset i false
  else
    sub ← need (srx_sub rx);
    _ ← send_ack sub (srx_dst rx) (srx_src rx) (srx_ttl rx) (srx_seq_auth rx) (srx_block rx) (srx_obo rx);
    ttl ← gets tr_default_ttl;
    set_rx (fun rx => rx <| srx_ack := Some (ack_timeout ttl rx) |>) i.

Definition sdu_len_is_ok (seg_n : Z) : bool := seg_n <? Z.of_nat CONFIG_BT_MESH_RX_SEG_MAX.

(** The context of a message with this or a newer SeqAuth; an older one still in use is
    reset. *)
Fixpoint seg_rx_find_loop (src dst seq_auth : Z) (i : nat) (l : list seg_rx) : option (nat * bool) :=
  match l with
  | [] => None
  | rx :: l =>
      if negb (srx_src rx =? src) || negb (srx_dst rx =? dst) then seg_rx_find_loop src dst seq_auth (S i) l
      else if seq_auth <=? srx_seq_auth rx then Some (i, true)
      else if srx_in_use rx then Some (i, false)
      else seg_rx_find_loop src dst seq_auth (S i) l
  end.

Definition seg_rx_find (net_rx : bt_mesh_net_rx) (seq_auth : Z) : TRANS (option nat) :=
  l ← gets tr_seg_rx;
  match seg_rx_find_loop (rx_addr net_rx) (ctx_recv_dst (rx_ctx net_rx)) seq_auth 0 l with
  | None => mret None
  | Some (i, true) => mret (Some i)
  | Some (i, false) => _ ← seg_rx_reset i true; mret None
  end.

Definition seg_rx_is_valid (rx : seg_rx) (net_rx : bt_mesh_net_rx) (hdr seg_n : Z) : bool :=
  (srx_hdr rx =? hdr) && (srx_seg_n rx =? seg_n) && (srx_src rx =? rx_addr net_rx)
  && (srx_dst rx =? ctx_recv_dst (rx_ctx net_rx)) && bool_decide (srx_ctl rx = rx_ctl net_rx).

Definition seg_rx_start (net_rx : bt_mesh_net_rx) (hdr seq_auth seg_n : Z) (rx : seg_rx) : seg_rx :=
  rx <| srx_in_use := true |> <| srx_sub := Some (rx_sub net_rx) |> <| srx_ctl := rx_ctl net_rx |>
     <| srx_seq_auth := seq_auth |> <| srx_seg_n := seg_n |> <| srx_hdr := hdr |>
     <| srx_ttl := ctx_send_ttl (rx_ctx net_rx) |> <| srx_src := rx_addr net_rx |>
     <| srx_dst := ctx_recv_dst (rx_ctx net_rx) |> <| srx_block := 0 |>.

Definition seg_rx_alloc (net_rx : bt_mesh_net_rx) (hdr seq_auth seg_n : Z) : TRANS (option nat) :=
  t ← gets id;
  if (tr_segs_free t <? 1)%nat then mret None
  else match find_index (fun rx => negb (srx_in_use rx)) (tr_seg_rx t) with
  | None => mret None
  | Some i => _ ← set_rx (seg_rx_start net_rx hdr seq_auth seg_n) i; mret (Some i)
  end.

(** The header of a segment: SeqZero, SegO and SegN. *)
Definition seg_fields (buf : bytes) : Z * Z * Z :=
  let w := sys_get_be16 (drop 1 buf) in
  let b := byte_at buf 3 in
  (Z.land (Z.shiftr w 2) TRANS_SEQ_ZERO_MASK, u8 (Z.lor (Z.shiftl (Z.land w 3) 3) (Z.shiftr b 5)), Z.land b 31).

(** The sequence number of the first segment, from the one of this segment. *)
Definition seq_first (seq seq_zero : Z) : Z :=
  u32 (seq - Z.land (u32 (Z.land seq (2 ^ 14 - 1) - seq_zero)) (2 ^ 13 - 1)).

(** The result, the context, the type and the value of [*seq_auth]. *)
Definition seg_out : Type := ret_code * bt_mesh_net_rx * bt_mesh_friend_pdu_type * Z.

(** All segments of the context [i] have been received. *)
Definition trans_seg_complete (net_rx : bt_mesh_net_rx) (hdr aszmic seq_auth : Z) (slot : option nat) (i : nat)
    (rssi : Z) : TRANS seg_out :=
  _ ← rpl_update slot net_rx;
  _ ← set_rx (fun rx => rx <| srx_ack := None |>) i;
  rx ← get_rx i;
  _ ← send_ack (rx_sub net_rx) (ctx_recv_dst (rx_ctx net_rx)) (rx_addr net_rx) (ctx_send_ttl (rx_ctx net_rx)) seq_auth
        (srx_block rx) (srx_obo rx);
  rx ← get_rx i;
  '(err, net_rx, seq_auth) ←
    (if rx_ctl net_rx then
       '(_, sdu) ← need (seg_rx_assemble rx 0 (mkBuf 0 0 (replicate BT_MESH_RX_CTL_MAX 0)));
       '(err, auth) ← ctl_recv net_rx hdr (contents sdu);
       mret (err, net_rx, default seq_auth auth)
     else if (srx_len rx <? 1 + APP_MIC_LEN aszmic)%nat then mret (Some EINVAL, net_rx, seq_auth)
     else
       '(err, net_rx) ← sdu_recv net_rx hdr aszmic (Z.land (srx_seq_auth rx) (2 ^ 24 - 1))
                          (fun crypto => sdu_try_decrypt_seg crypto rx)
                          (mkBuf 0 (srx_len rx - APP_MIC_LEN aszmic)
                             (replicate (srx_len rx - APP_MIC_LEN aszmic) 0)) rssi;
       mret (err, net_rx, seq_auth));
  _ ← seg_rx_reset i false;
  mret (err, net_rx, BT_MESH_FRIEND_PDU_COMPLETE, seq_auth).

(** From [found_rx] on: the segment [seg_o] with the payload [data] for the context [i]. *)
Definition trans_seg_found (now : Z) (net_rx : bt_mesh_net_rx) (hdr aszmic seg_o seg_n seq_auth : Z)
    (slot : option nat) (data : bytes) (i : nat) (rssi : Z) : TRANS seg_out :=
  let fail e := mret (Some e, net_rx, BT_MESH_FRIEND_PDU_SINGLE, seq_auth) in
  rx ← get_rx i;
  if Z.testbit (srx_block rx) seg_o then fail EALREADY
  else
    let len := (Z.to_nat seg_n * seg_len (srx_ctl rx) + length data)%nat in
    _ ← when (seg_o =? seg_n) (set_rx (fun rx => rx <| srx_len := len |>) i);
    if (seg_o =? seg_n) && (BT_MESH_RX_SDU_MAX <? len)%nat then
      _ ← send_ack (rx_sub net_rx) (ctx_recv_dst (rx_ctx net_rx)) (rx_addr net_rx) (ctx_send_ttl (rx_ctx net_rx))
            seq_auth 0 (srx_obo rx);
      _ ← seg_rx_reset i true;
      fail EMSGSIZE
    else if negb (seg_o =? seg_n) && negb (length data =? seg_len (srx_ctl rx))%nat then fail EINVAL
    else
      _ ← set_rx (fun rx => rx <| srx_last := now |>) i;
      ttl ← gets tr_default_ttl;
      _ ← set_rx (fun rx => match srx_ack rx with
                            | Some d => if d =? 0 then rx <| srx_ack := Some (ack_timeout ttl rx) |> else rx
                            | None => rx <| srx_ack := Some (ack_timeout ttl rx) |>
                            end) i;
      free ← gets tr_segs_free;
      if (free =? 0)%nat then fail ENOBUFS
      else if (BT_MESH_APP_SEG_SDU_MAX <? length data)%nat || (length (srx_seg rx) <=? Z.to_nat seg_o)%nat then undefined
      else
        _ ← modify (fun t => t <| tr_segs_free := pred (tr_segs_free t) |>);
        _ ← set_rx (fun rx => rx <| srx_seg := <[Z.to_nat seg_o := Some data]> (srx_seg rx) |>
                                 <| srx_block := Z.setbit (srx_block rx) seg_o |>) i;
        rx ← get_rx i;
        if negb (srx_block rx =? BLOCK_COMPLETE seg_n)
        then mret (None, net_rx, BT_MESH_FRIEND_PDU_PARTIAL, seq_auth)
        else trans_seg_complete net_rx hdr aszmic seq_auth slot i rssi.

(** A segment of a message that has no context yet. *)
Definition trans_seg_new (now : Z) (net_rx : bt_mesh_net_rx) (hdr aszmic seg_o seg_n seq_auth : Z)
    (slot : option nat) (data : bytes) (rssi : Z) : TRANS seg_out :=
  let fail e := mret (Some e, net_rx, BT_MESH_FRIEND_PDU_SINGLE, seq_auth) in
  let cancel := send_ack (rx_sub net_rx) (ctx_recv_dst (rx_ctx net_rx)) (rx_addr net_rx)
                  (ctx_send_ttl (rx_ctx net_rx)) seq_auth 0 (rx_friend_match net_rx) in
  if negb (sdu_len_is_ok seg_n) then _ ← cancel; fail EMSGSIZE
  else
    full ← (if config_friend && rx_friend_match net_rx && negb (rx_local_match net_rx) then
              net_idx ← net_idx_of (rx_sub net_rx);
              space ← gets (bt_mesh_friend_queue_has_space net_idx (rx_addr net_rx) (ctx_recv_dst (rx_ctx net_rx))
                              (Some seq_auth) (seg_n + 1));
              mret (negb space)
            else mret false);
    if full : bool then _ ← cancel; fail ENOBUFS
    else
      ctx ← seg_rx_alloc net_rx hdr seq_auth seg_n;
      match ctx with
      | None => fail ENOMEM
      | Some i =>
          _ ← set_rx (fun rx => rx <| srx_obo := rx_friend_match net_rx |>) i;
          trans_seg_found now net_rx hdr aszmic seg_o seg_n seq_auth slot data i rssi
      end.

(** The result, the context, the type, [*seq_auth] if it is set, and [*seg_count]. *)
Definition trans_seg (now : Z) (buf : bytes) (net_rx : bt_mesh_net_rx) (rssi : Z)
    : TRANS (ret_code * bt_mesh_net_rx * bt_mesh_friend_pdu_type * option Z * Z) :=
  let early e := mret (Some e, net_rx, BT_MESH_FRIEND_PDU_SINGLE, None, 0) in
  if (length buf <? 5)%nat then early EINVAL
  else
    '(replay, slot) ← rpl_check true net_rx;
    if replay : bool then early EINVAL
    else
      let hdr := byte_at buf 0 in
      let aszmic := ASZMIC (byte_at buf 1) in
      let '(seq_zero, seg_o, seg_n) := seg_fields buf in
      if seg_n <? seg_o then early EINVAL
      else
        n ← gets tr_net;
        let seq_auth := SEQ_AUTH (BT_MESH_NET_IVI_RX (rx_old_iv net_rx) n) (seq_first (rx_seq net_rx) seq_zero) in
        found ← seg_rx_find net_rx seq_auth;
        '(err, net_rx, type, seq_auth) ←
          match found with
          | None => trans_seg_new now net_rx hdr aszmic seg_o seg_n seq_auth slot (drop 4 buf) rssi
          | Some i =>
              rx ← get_rx i;
              let fail e := mret (Some e, net_rx, BT_MESH_FRIEND_PDU_SINGLE, seq_auth) in
              if seq_auth <? srx_seq_auth rx then fail EINVAL
              else if negb (seg_rx_is_valid rx net_rx hdr seg_n) then fail EINVAL
              else if srx_in_use rx then
                trans_seg_found now net_rx hdr aszmic seg_o seg_n seq_auth slot (drop 4 buf) i rssi
              else if srx_block rx =? BLOCK_COMPLETE (srx_seg_n rx) then
                _ ← send_ack (rx_sub net_rx) (ctx_recv_dst (rx_ctx net_rx)) (rx_addr net_rx)
                      (ctx_send_ttl (rx_ctx net_rx)) seq_auth (srx_block rx) (srx_obo rx);
                _ ← rpl_update slot net_rx;
                fail EALREADY
              else fail EINVAL
          end;
        mret (err, net_rx, type, Some seq_auth, seg_n + 1).

(** [now] is [k_uptime_get_32()]; [rx_sub] is the index of a subnet. *)
Definition bt_mesh_trans_recv (now : Z) (buf : net_buf_simple) (rx : bt_mesh_net_rx) (rssi : Z)
    : TRANS (ret_code * net_buf_simple * bt_mesh_net_rx) :=
  rx ← (if config_friend then
          net_idx ← net_idx_of (rx_sub rx);
          m ← gets (bt_mesh_friend_match net_idx (ctx_recv_dst (rx_ctx rx)));
          mret (rx <| rx_friend_match := m |>)
        else mret (rx <| rx_friend_match := false |>));
  '(_, buf) ← need (net_buf_simple_pull BT_MESH_NET_HDR_LEN buf);
  let state := net_buf_simple_save buf in
  if SEG (byte_at (contents buf) 0) && negb (rx_local_match rx) && negb (rx_friend_match rx)
  then mret (None, buf, rx)
  else
    '(err, rx, type, seq_auth, seg_count) ←
      (if SEG (byte_at (contents buf) 0) then trans_seg now (contents buf) rx rssi
       else '(err, rx, seq_auth) ← trans_unseg buf rx rssi; mret (err, rx, BT_MESH_FRIEND_PDU_SINGLE, seq_auth, 1));
    let buf := net_buf_simple_restore state buf in
    _ ← when (config_friend && rx_friend_match rx && match err with None => true | Some _ => false end)
          (bt_mesh_friend_enqueue_rx rx type
             (match seq_auth with
              | Some a => if a =? TRANS_SEQ_AUTH_NVAL then None else Some a
              | None => None
              end) seg_count (contents buf));
    mret (err, buf, rx).

(** ** Reset and start *)

Definition bt_mesh_rx_reset : TRANS unit :=
  n ← gets (fun t => length (tr_seg_rx t)); for_loop n 0 (fun i => seg_rx_reset i true).

Definition va_reset (va : bt_mesh_va) : bt_mesh_va :=
  if va_ref va =? 0 then va else va <| va_ref := 0 |> <| va_changed := true |>.

Definition bt_mesh_trans_reset : TRANS unit :=
  _ ← bt_mesh_rx_reset;
  n ← gets (fun t => length (tr_seg_tx t));
  _ ← for_loop n 0 seg_tx_reset;
  _ ← modify (fun t => t <| tr_virtual_addrs := map va_reset (tr_virtual_addrs t) |>);
  _ ← on_net (modify (fun n => net_event_log EvClearRpl (n <| net_rpl := bt_mesh_rpl_clear (net_rpl n) |>)));
  event EvStoreLabel.

Definition bt_mesh_trans_init : TRANS unit :=
  modify (fun t => t <| tr_seg_tx := map (fun tx => tx <| stx_retransmit := None |>) (tr_seg_tx t) |>
                     <| tr_seg_rx := map (fun rx => rx <| srx_ack := None |>) (tr_seg_rx t) |>).

(** ** The network and transport layers together *)

Definition net_recv (now : Z) (data : bytes) (rssi : Z) (net_if : bt_mesh_net_if) : TRANS unit :=
  bt_mesh_net_recv config_proxy config_friend proxy_relay adv_buffer tr_net (bt_mesh_trans_recv now) data rssi net_if.

Definition net_local (now : Z) (fuel : nat) : TRANS unit :=
  bt_mesh_net_local tr_net (bt_mesh_trans_recv now) fuel.

End Transport.
