(* ===== verification/TransportProps.v ===== *)
(** * Properties of the transport layer

    The invariant of the segmentation contexts and of the pool of segment blocks, with
    the proof that the operations that send keep it and never misbehave. *)

From S2P Require Import Prelude ByteOrder MeshDefs Cdb NetBuf Access Rpl Ccm MeshCrypto Subnet AppKeys Net NetProps Transport.

(** ** Blocks of the pool *)

Definition is_block (o : option bytes) : bool := match o with Some _ => true | None => false end.
Definition blocks (l : list (option bytes)) : nat := countb is_block l.

Arguments blocks : simpl never.

Lemma blocks_insert l k (o o' : option bytes) :
  l !! k = Some o ->
  (blocks (<[k := o']> l) + (if is_block o then 1 else 0) = blocks l + (if is_block o' then 1 else 0))%nat.
Proof.
  intros H. rewrite <- (take_drop_middle l k o H) at 2.
  rewrite insert_take_drop by (by eapply lookup_lt_Some). unfold blocks. rewrite !countb_app. cbn [countb].
  destruct (is_block o), (is_block o'); lia.
Qed.

Lemma blocks_insert_none l k b : l !! k = Some (Some b) -> S (blocks (<[k := None]> l)) = blocks l.
Proof. intros H. pose proof (blocks_insert l k _ None H) as E. cbn in E. lia. Qed.

Lemma blocks_insert_some l k b : l !! k = Some None -> blocks (<[k := Some b]> l) = S (blocks l).
Proof. intros H. pose proof (blocks_insert l k _ (Some b) H) as E. cbn in E. lia. Qed.

Lemma blocks_none l : (forall k, l !! k = None \/ l !! k = Some None) <-> blocks l = 0%nat.
Proof.
  unfold blocks. split.
  - induction l as [|o l IH]; intros H; [done|]. cbn. destruct (H 0%nat) as [?|[= ->]]; [done|]. cbn.
    apply IH. intros k. apply (H (S k)).
  - induction l as [|o l IH]; intros H k; [left; by rewrite lookup_nil|]. cbn in H. destruct o; [cbn in H; lia|].
    destruct k as [|k]; [by right|]. by apply IH.
Qed.

Lemma blocks_replicate n : blocks (replicate n None) = 0%nat.
Proof. apply blocks_none. intros k. destruct (decide (k < n)%nat).
  - right. by apply lookup_replicate_2.
  - left. apply lookup_replicate_None. lia. Qed.

Lemma sum_insert {A : Type} (f : A -> nat) l i x y :
  l !! i = Some x -> (sum_list_with f (<[i := y]> l) + f x = sum_list_with f l + f y)%nat.
Proof.
  intros H. rewrite <- (take_drop_middle l i x H) at 2.
  rewrite insert_take_drop by (by eapply lookup_lt_Some). rewrite !sum_list_with_app. cbn. lia.
Qed.

Lemma alter_insert {A : Type} (f : A -> A) i x (l : list A) : alter f i (<[i := x]> l) = <[i := f x]> l.
Proof. rewrite !list_insert_alter. apply alter_alter. Qed.

Lemma alter_lookup_insert {A : Type} (f : A -> A) i x (l : list A) : l !! i = Some x -> alter f i l = <[i := f x]> l.
Proof. intros H. rewrite <- (list_insert_id l i x H) at 1. apply alter_insert. Qed.

(** What [friend.c] does while this node is the Friend of no other node: no address
    matches, the queues have space for messages that match nobody, and nothing is
    queued. *)
Class FriendIdle {F : Type} (ops : FriendOps F) : Prop := {
  idle_match net_idx dst t : bt_mesh_friend_match net_idx dst t = false;
  idle_space net_idx src dst auth n t : bt_mesh_friend_queue_has_space net_idx src dst auth n t = true;
  idle_enqueue tx type auth n pdu t : bt_mesh_friend_enqueue_tx tx type auth n pdu t = Some (false, t);
}.

(** ** One sending context

    The operations on a context change that context and the number of free blocks. *)

Section Context_.
Context {ecb : Ecb} {ecb_ok : EcbOk} {cmac : Cmac} (config_proxy config_friend config_cdb : bool).
Context (proxy_relay : bytes -> Z -> bt_mesh_net -> bool) (adv_buffer : bt_mesh_net -> bool).
Context {F : Type} {friend : FriendOps F} {idle : FriendIdle friend}.

Definition st (i : nat) (tx : seg_tx) (free : nat) (n : bt_mesh_net) (lg : list trans_event) (t : trans F) : trans F :=
  t <| tr_net := n |> <| tr_seg_tx := <[i := tx]> (tr_seg_tx t) |> <| tr_segs_free := free |> <| tr_log := lg |>.

Lemma st_id i tx t : tr_seg_tx t !! i = Some tx -> t = st i tx (tr_segs_free t) (tr_net t) (tr_log t) t.
Proof. intros H. unfold st, assign. cbn. rewrite list_insert_id by done. by destruct t. Qed.

Lemma st_lookup i tx free n lg t : (i < length (tr_seg_tx t))%nat -> tr_seg_tx (st i tx free n lg t) !! i = Some tx.
Proof. intros H. cbn. by apply list_lookup_insert_eq. Qed.

Lemma wp_get_tx i tx free n lg (Q : seg_tx -> trans F -> Prop) t :
  (i < length (tr_seg_tx t))%nat -> Q tx (st i tx free n lg t) -> wp (get_tx i) Q (st i tx free n lg t).
Proof.
  intros Hi H. unfold get_tx. apply wp_bind, wp_gets. rewrite st_lookup by done. by eapply wp_need.
Qed.

Lemma wp_set_tx f i tx free n lg (Q : unit -> trans F -> Prop) t :
  Q tt (st i (f tx) free n lg t) -> wp (set_tx f i) Q (st i tx free n lg t).
Proof.
  intros H. unfold set_tx. apply wp_modify. unfold st, assign in *. cbn in *. by rewrite alter_insert.
Qed.

Lemma wp_event e i tx free n lg (Q : unit -> trans F -> Prop) t :
  Q tt (st i tx free n (lg ++ [e]) t) -> wp (event e) Q (st i tx free n lg t).
Proof. intros H. by apply wp_modify. Qed.

Lemma wp_on_net {A : Type} (m : ST bt_mesh_net A) i tx free n lg (Q : A -> trans F -> Prop) t :
  wp m (fun a n' => Q a (st i tx free n' lg t)) n -> wp (on_net m) Q (st i tx free n lg t).
Proof. intros H. by apply wp_zoom. Qed.

Lemma wp_done i k tx free n lg (Q : unit -> trans F -> Prop) t :
  Q tt (st i (tx <| stx_seg := <[k := None]> (stx_seg tx) |> <| stx_nack_count := u8 (stx_nack_count tx - 1) |>)
          (S free) n lg t) ->
  wp (seg_tx_done i k) Q (st i tx free n lg t).
Proof.
  intros H. unfold seg_tx_done. apply wp_bind. eapply (wp_modify _ (fun _ s => wp _ Q s)).
  by apply (wp_set_tx _ i tx (S free) n lg).
Qed.

(** ** The invariant of a sending context *)

Definition seg_none (l : list (option bytes)) (k : nat) : Prop := l !! k = None \/ l !! k = Some None.

(** Six places, the segments 0 to [seg_n], each with the bytes of its part of the message. *)
Record tx_shape (tx : seg_tx) : Prop := {
  txs_len : length (stx_seg tx) = CONFIG_BT_MESH_TX_SEG_MAX;
  txs_n : 0 <= stx_seg_n tx < Z.of_nat CONFIG_BT_MESH_TX_SEG_MAX;
  txs_high k : (Z.to_nat (stx_seg_n tx) < k)%nat -> seg_none (stx_seg tx) k;
  txs_size k b : stx_seg tx !! k = Some (Some b) ->
    length b = seg_size (stx_ctl tx) (stx_len tx) (Z.of_nat k) /\ (1 <= length b <= seg_len (stx_ctl tx))%nat;
}.

(** Between operations the number of unacknowledged segments is the number of blocks,
    and a context that still has some belongs to a subnet. *)
Record tx_ok (subnet_count : nat) (tx : seg_tx) : Prop := {
  txo_shape :> tx_shape tx;
  txo_count : stx_nack_count tx = Z.of_nat (blocks (stx_seg tx));
  txo_seg_o : 0 <= stx_seg_o tx <= stx_seg_n tx;
  txo_ttl : 0 <= stx_ttl tx < 128;
  txo_attempts : 0 <= stx_attempts tx < 256;
  txo_sub : stx_nack_count tx <> 0 -> exists j, stx_sub tx = Some j /\ (j < subnet_count)%nat;
}.

Lemma tx_ok_same count tx tx' :
  tx_ok count tx ->
  (stx_seg tx', stx_seg_n tx', stx_ctl tx', stx_len tx', stx_nack_count tx', stx_seg_o tx', stx_ttl tx', stx_attempts tx',
   stx_sub tx') =
  (stx_seg tx, stx_seg_n tx, stx_ctl tx, stx_len tx, stx_nack_count tx, stx_seg_o tx, stx_ttl tx, stx_attempts tx,
   stx_sub tx) -> tx_ok count tx'.
Proof.
  intros [[H1 H2 H3 H4] H5 H6 H7 H8 H9] [= E1 E2 E3 E4 E5 E6 E7 E8 E9].
  split; [split|..]; rewrite ?E1, ?E2, ?E3, ?E4, ?E5, ?E6, ?E7, ?E8, ?E9; done.
Qed.

Lemma blocks_le tx : tx_shape tx -> (blocks (stx_seg tx) <= 6)%nat.
Proof. intros H. unfold blocks. pose proof (countb_le_length is_block (stx_seg tx)). rewrite (txs_len tx H) in *. done. Qed.

(** Freeing the blocks from [k] on, those before it being free. *)
Lemma wp_free_loop i m k tx free n lg (Q : unit -> trans F -> Prop) t :
  (i < length (tr_seg_tx t))%nat -> length (stx_seg tx) = 6%nat -> (k + m <= 6)%nat ->
  (forall j, (j < k)%nat -> seg_none (stx_seg tx) j) -> (forall j, (k + m <= j)%nat -> seg_none (stx_seg tx) j) ->
  Z.of_nat (blocks (stx_seg tx)) <= stx_nack_count tx < 256 ->
  (forall l nack, length l = 6%nat -> blocks l = 0%nat ->
     Q tt (st i (tx <| stx_seg := l |> <| stx_nack_count := nack |>) (free + blocks (stx_seg tx)) n lg t)) ->
  wp (seg_tx_free_loop i m k) Q (st i tx free n lg t).
Proof.
  intros Hi. revert k tx free. induction m as [|m IH]; intros k tx free L Hk Hlo Hhi Hn HQ; cbn [seg_tx_free_loop].
  - assert (blocks (stx_seg tx) = 0%nat) as E.
    { apply blocks_none. intros j. destruct (decide (j < k)%nat); [by apply Hlo|apply Hhi; lia]. }
    specialize (HQ (stx_seg tx) (stx_nack_count tx) L E). rewrite E, Nat.add_0_r in HQ. apply wp_ret. by destruct tx.
  - apply wp_bind, wp_get_tx; [done|]. destruct (stx_nack_count tx =? 0) eqn:E0; zbool.
    + assert (blocks (stx_seg tx) = 0%nat) as E by lia.
      specialize (HQ (stx_seg tx) (stx_nack_count tx) L E). rewrite E, Nat.add_0_r in HQ. apply wp_ret. by destruct tx.
    + destruct (lookup_lt_is_Some_2 (stx_seg tx) k) as [seg Hseg]; [lia|].
      apply wp_bind. eapply wp_need; [done|]. apply wp_bind. destruct seg as [b|]; cbn [when].
      * apply wp_done. pose proof (blocks_insert_none _ _ _ Hseg) as Eb.
        apply IH; cbn; rewrite ?length_insert; try lia.
        -- intros j Hj. unfold seg_none. destruct (decide (j = k)) as [->|Nj];
             [right; apply list_lookup_insert_eq; lia|rewrite list_lookup_insert_ne by done; apply Hlo; lia].
        -- intros j Hj. unfold seg_none. rewrite list_lookup_insert_ne by lia. apply Hhi. lia.
        -- unfold u8. rewrite Z.mod_small by lia. lia.
        -- intros l nack Ll El. specialize (HQ l nack Ll El).
           replace (S (free + blocks (<[k := None]> (stx_seg tx))))%nat with (free + blocks (stx_seg tx))%nat by lia. done.
      * apply wp_ret. apply IH; try done; [lia| |]; intros j Hj; [|apply Hhi; lia].
        destruct (decide (j = k)) as [->|Nj]; [by right|apply Hlo; lia].
Qed.

(** A context after [seg_tx_reset], with the places [l]. *)
Definition reset_tx (l : list (option bytes)) (tx : seg_tx) : seg_tx :=
  tx <| stx_retransmit := None |> <| stx_cb := None |> <| stx_seq_auth := 0 |> <| stx_sub := None |>
     <| stx_src := BT_MESH_ADDR_UNASSIGNED |> <| stx_dst := BT_MESH_ADDR_UNASSIGNED |> <| stx_blocked := false |>
     <| stx_seg := l |> <| stx_nack_count := 0 |>.

Lemma wp_reset i tx free n lg (Q : unit -> trans F -> Prop) t :
  (i < length (tr_seg_tx t))%nat -> tx_shape tx -> Z.of_nat (blocks (stx_seg tx)) <= stx_nack_count tx < 256 ->
  (forall l n', length l = 6%nat -> blocks l = 0%nat -> net_frame n n' ->
     Q tt (st i (reset_tx l tx) (free + blocks (stx_seg tx)) n' lg t)) ->
  wp (seg_tx_reset config_proxy config_friend config_cdb i) Q (st i tx free n lg t).
Proof.
  intros Hi Hs Hn HQ. unfold seg_tx_reset. apply wp_bind, wp_set_tx, wp_bind, wp_get_tx; [done|].
  pose proof (txs_n tx Hs) as Hsn. change (Z.of_nat CONFIG_BT_MESH_TX_SEG_MAX) with 6 in Hsn.
  apply wp_bind. apply wp_free_loop; try done; cbn.
  - apply (txs_len tx Hs).
  - lia.
  - intros j Hj. lia.
  - intros j Hj. apply (txs_high tx Hs). lia.
  - intros l nack Ll El. apply wp_bind, wp_set_tx, wp_bind, wp_gets.
    match goal with |- wp (if ?b then _ else _) _ _ => destruct b end.
    + apply wp_bind, wp_on_net, wp_modify, wp_bind, wp_gets, wp_bind, wp_on_net.
      apply (wp_total (fun n => bt_mesh_net_iv_update _ _ _ _ (iv_index n) _ n)). apply wp_ret, HQ; [done..|].
      eapply net_frame_trans; [|apply iv_update_frame]. done.
    + apply wp_ret. by apply HQ.
Qed.

Lemma reset_ok l tx count : tx_shape tx -> length l = 6%nat -> blocks l = 0%nat ->
  0 <= stx_ttl tx < 128 -> 0 <= stx_attempts tx < 256 -> 0 <= stx_seg_o tx <= stx_seg_n tx -> tx_ok count (reset_tx l tx).
Proof.
  intros [H1 H2 H3 H4] L E. split; cbn; try done; [|by rewrite E]. split; cbn; try done.
  - intros k _. by apply blocks_none.
  - intros k b Hk. destruct (proj2 (blocks_none l) E k); congruence.
Qed.

(** *** Completion *)

(** Another context may have been released to send. *)
Inductive unblocked (i : nat) (t : trans F) : trans F -> Prop :=
| UnblockNone : unblocked i t t
| UnblockOne j x : i <> j -> tr_seg_tx t !! j = Some x ->
    unblocked i t (t <| tr_seg_tx := <[j := x <| stx_blocked := false |> <| stx_retransmit := Some 0 |>]> (tr_seg_tx t) |>).

Lemma find_blocked_spec tx i j0 best l j auth :
  find_blocked tx i j0 best l = Some (j, auth) -> best = Some (j, auth) \/ (i <> j /\ (j0 <= j)%nat /\ is_Some (l !! (j - j0)%nat)).
Proof.
  revert j0 best. induction l as [|x l IH]; intros j0 best H; cbn [find_blocked] in H; [by left|].
  apply IH in H as [H|(N & Hj & Hl)].
  - destruct (negb (j0 =? i)%nat && _ && _ && _) eqn:E; [|by left]. injection H as <- _. right.
    rewrite !andb_true_iff, negb_true_iff, Nat.eqb_neq in E. destruct E as [[[E _] _] _].
    rewrite Nat.sub_diag. split; [done|]. split; [done|by eexists].
  - right. split; [done|]. split; [lia|]. by replace (j - j0)%nat with (S (j - S j0)) by lia.
Qed.

Lemma wp_unblock_check i tx free n lg (Q : unit -> trans F -> Prop) t :
  (i < length (tr_seg_tx t))%nat -> (forall t1, unblocked i t t1 -> Q tt (st i tx free n lg t1)) ->
  wp (seg_tx_unblock_check i) Q (st i tx free n lg t).
Proof.
  intros Hi HQ. unfold seg_tx_unblock_check. apply wp_bind, wp_get_tx; [done|]. apply wp_bind, wp_gets.
  destruct (find_blocked _ _ _ _ _) as [[j auth]|] eqn:E; [|apply wp_ret, HQ; constructor].
  apply find_blocked_spec in E as [?|(N & _ & x & Hx)]; [done|]. rewrite Nat.sub_0_r in Hx. cbn in Hx.
  rewrite list_lookup_insert_ne in Hx by done.
  specialize (HQ _ (UnblockOne i t j x N Hx)). apply wp_modify. unfold st, assign in *. cbn in *.
  rewrite list_insert_insert_ne in HQ by done. erewrite (alter_lookup_insert _ j); [done|].
  by rewrite list_lookup_insert_ne.
Qed.

Lemma wp_complete i err tx free n lg (Q : unit -> trans F -> Prop) t :
  (i < length (tr_seg_tx t))%nat -> tx_shape tx -> Z.of_nat (blocks (stx_seg tx)) <= stx_nack_count tx < 256 ->
  (forall l n' t1, length l = 6%nat -> blocks l = 0%nat -> net_frame n n' -> unblocked i t t1 ->
     Q tt (st i (reset_tx l tx) (free + blocks (stx_seg tx)) n'
             (lg ++ match stx_cb tx with Some cb => if cb_end cb then [EvCbEnd (cb_data cb) err] else [] | None => [] end)
             t1)) ->
  wp (seg_tx_complete config_proxy config_friend config_cdb i err) Q (st i tx free n lg t).
Proof.
  intros Hi Hs Hn HQ. unfold seg_tx_complete. apply wp_bind, wp_get_tx; [done|]. apply wp_bind, wp_unblock_check; [done|].
  intros t1 Hu. assert (length (tr_seg_tx t1) = length (tr_seg_tx t)) as Lt by (destruct Hu; cbn; rewrite ?length_insert; done).
  apply wp_bind, wp_reset; [by rewrite Lt|done..|]. intros l n' Ll El Hf. specialize (HQ l n' t1 Ll El Hf Hu).
  destruct (stx_cb tx) as [cb|]; [|apply wp_ret; by rewrite app_nil_r in HQ].
  destruct (cb_end cb); cbn [when]; [by apply wp_event|apply wp_ret; by rewrite app_nil_r in HQ].
Qed.

(** *** Transmission *)

(** The bytes of a segment on the way to the network layer. *)
Definition seg_pdu (tx : seg_tx) (seg_o : Z) (b : bytes) : bytes :=
  let seq_zero := Z.land (stx_seq_auth tx) TRANS_SEQ_ZERO_MASK in
  [stx_hdr tx; u8 (Z.lor (if stx_aszmic tx then 128 else 0) (Z.shiftr seq_zero 6));
   u8 (Z.lor (Z.shiftl (Z.land seq_zero 63) 2) (Z.shiftr seg_o 3));
   u8 (Z.lor (Z.shiftl (Z.land seg_o 7) 5) (stx_seg_n tx))] ++ b.

Lemma wp_need_run {S A : Type} (m : ST S A) (s : S) {T : Type} (Q : A * S -> T -> Prop) (u : T) a s' :
  m s = Some (a, s') -> Q (a, s') u -> wp (need (m s)) Q u.
Proof. intros E H. rewrite E. by eapply wp_need. Qed.

Lemma buf_build_ok tx seg_o b buf h c r :
  tx_shape tx -> 0 <= seg_o -> stx_seg tx !! Z.to_nat seg_o = Some (Some b) ->
  buf_wf buf -> abs buf = mkAbuf h c r -> (4 + length b <= r)%nat ->
  exists buf', seg_tx_buf_build tx seg_o buf = Some (tt, buf') /\ buf_wf buf' /\
    abs buf' = mkAbuf h (c ++ seg_pdu tx seg_o b) (r - (4 + length b)).
Proof.
  intros Hs Ho Hb W A Hr. unfold seg_tx_buf_build, net_buf_simple_add_u8. cbv zeta.
  edestruct (add_put_ok [stx_hdr tx] buf) as (b1 & E1 & A1 & W1); [done..|cbn; lia|].
  rewrite (bind_some _ _ _ _ _ E1).
  edestruct (add_put_ok [u8 (Z.lor (if stx_aszmic tx then 128 else 0)
    (Z.shiftr (Z.land (stx_seq_auth tx) TRANS_SEQ_ZERO_MASK) 6))] b1) as (b2 & E2 & A2 & W2); [done..|cbn; lia|].
  rewrite (bind_some _ _ _ _ _ E2).
  edestruct (add_put_ok [u8 (Z.lor (Z.shiftl (Z.land (Z.land (stx_seq_auth tx) TRANS_SEQ_ZERO_MASK) 63) 2)
    (Z.shiftr seg_o 3))] b2) as (b3 & E3 & A3 & W3); [done..|cbn; lia|].
  rewrite (bind_some _ _ _ _ _ E3).
  edestruct (add_put_ok [u8 (Z.lor (Z.shiftl (Z.land seg_o 7) 5) (stx_seg_n tx))] b3) as (b4 & E4 & A4 & W4);
    [done..|cbn; lia|].
  rewrite (bind_some _ _ _ _ _ E4). rewrite Hb. cbn [mbind option_bind block_read].
  destruct (txs_size tx Hs _ _ Hb) as [Hl _]. rewrite Z2Nat.id in Hl by done.
  rewrite <- Hl, Nat.leb_refl, take_ge by lia. cbn [need]. rewrite bind_ret.
  edestruct (add_mem_ok b b4) as (t5 & b5 & E5 & A5 & W5); [done..|cbn; lia|].
  rewrite (bind_some _ _ _ _ _ E5). exists b5. split; [done|]. split; [done|].
  rewrite A5. unfold seg_pdu. rewrite <- !app_assoc. cbn [length app]. f_equal. lia.
Qed.

(** The advertising buffer with the header room reserved. *)
Definition adv_empty : net_buf_simple := net_buf_simple_init BT_MESH_NET_HDR_LEN adv_buf.

Lemma adv_empty_abs : buf_wf adv_empty /\ abs adv_empty = mkAbuf 9 [] 20.
Proof. split; [vm_compute; lia|reflexivity]. Qed.

Lemma wp_adv_create (Q : option net_buf_simple -> trans F -> Prop) t :
  Q None t -> Q (Some adv_empty) t -> wp (adv_create adv_buffer) Q t.
Proof. intros H1 H2. unfold adv_create. apply wp_bind, wp_gets, wp_ret. by destruct (adv_buffer _). Qed.

(** What the network needs to know of the subnet [j] and the composition. *)
Definition net_ready (j : nat) (n : bt_mesh_net) : Prop :=
  comp_elem (net_comp n) <> [] /\
  exists sub, subs (net_subnets n) !! j = Some sub /\ 0 <= cred_nid (tx_msg_cred sub) < 128.

Lemma net_ready_frame j n n' : net_frame n n' -> net_ready j n -> net_ready j n'.
Proof. unfold net_ready. by intros (-> & -> & _). Qed.

Lemma wp_net_send net_tx xmit buf cb (Q : ret_code * bool -> trans F -> Prop) t :
  net_ready (tx_sub net_tx) (tr_net t) -> 0 <= ctx_send_ttl (tx_ctx net_tx) < 128 ->
  buf_wf buf -> (9 <= net_buf_simple_headroom buf)%nat ->
  ((if is_ctl (tx_ctx net_tx) then 8 else 4) <= net_buf_simple_tailroom buf)%nat ->
  (1 <= buf_len buf <= if is_ctl (tx_ctx net_tx) then 12 else 16)%nat ->
  (forall r n', net_sent (tr_net t) n' -> Q r (t <| tr_net := n' |>)) ->
  wp (net_send config_proxy config_friend config_cdb proxy_relay net_tx xmit buf cb) Q t.
Proof.
  intros (Hc & sub & Hsub & Hnid) Ht W Hh Hr Hl HQ. unfold net_send. apply wp_bind, wp_gets, wp_zoom.
  eapply wp_mono; [apply (net_send_safe _ _ _ _ _ _ sub); by split|]. cbv beta. auto.
Qed.

Lemma wp_schedule_sending i tx free n lg (Q : unit -> trans F -> Prop) t :
  (i < length (tr_seg_tx t))%nat -> stx_sending tx = true ->
  (forall p, Q tt (st i (tx <| stx_seg_pending := p |>) free n lg t)) ->
  wp (schedule_retransmit i) Q (st i tx free n lg t).
Proof.
  intros Hi Hs HQ. unfold schedule_retransmit. apply wp_bind, wp_get_tx; [done|]. wp_if.
  - apply wp_ret. specialize (HQ (stx_seg_pending tx)). by destruct tx.
  - apply wp_bind, wp_set_tx, wp_bind, wp_get_tx; [done|]. cbn. rewrite Hs, orb_true_r. by apply wp_ret.
Qed.

(** The fields that change while the segments are sent. *)
Definition sent (o p : Z) (s : bool) (tx : seg_tx) : seg_tx :=
  tx <| stx_seg_o := o |> <| stx_seg_pending := p |> <| stx_started := s |>.

Lemma wp_finalized i tx free n lg (Q : unit -> trans F -> Prop) t :
  (i < length (tr_seg_tx t))%nat -> stx_sending tx = true ->
  (forall p s lg', Q tt (st i (sent (stx_seg_o tx) p s tx) free n lg' t)) ->
  wp (_ ← seg_send_start 0 None i; seg_sent i) Q (st i tx free n lg t).
Proof.
  intros Hi Hs HQ.
  assert (forall s lg', wp (schedule_retransmit i) Q (st i (tx <| stx_started := s |>) free n lg' t)) as Hsch.
  { intros s lg'. apply wp_schedule_sending; [done..|]. intros p. specialize (HQ p s lg'). by destruct tx. }
  apply wp_bind. unfold seg_send_start. apply wp_bind, wp_get_tx; [done|]. apply wp_bind.
  assert (wp (schedule_retransmit i) Q (st i tx free n lg t)) as H0 by (specialize (Hsch (stx_started tx) lg); by destruct tx).
  destruct (stx_cb tx) as [cb|]; [|by repeat wp_step]. wp_if; [|by repeat wp_step].
  apply wp_bind, wp_event, wp_set_tx, wp_ret. apply Hsch.
Qed.

Lemma sent_sent o p s o' p' s' tx : sent o p s (sent o' p' s' tx) = sent o p s tx.
Proof. done. Qed.

Lemma wp_unacked_loop net_tx i m tx free n lg (Q : bool -> trans F -> Prop) t :
  (i < length (tr_seg_tx t))%nat -> tx_shape tx -> stx_sending tx = true ->
  0 <= stx_seg_o tx -> stx_seg_o tx + Z.of_nat m = stx_seg_n tx + 1 ->
  net_ready (tx_sub net_tx) n -> 0 <= ctx_send_ttl (tx_ctx net_tx) < 128 -> is_ctl (tx_ctx net_tx) = stx_ctl tx ->
  (forall b o p s n' lg', net_frame n n' -> stx_seg_o tx <= o ->
     (if b : bool then o = stx_seg_n tx + 1 else o <= stx_seg_n tx) -> Q b (st i (sent o p s tx) free n' lg' t)) ->
  wp (send_unacked_loop config_proxy config_friend config_cdb proxy_relay adv_buffer net_tx i m) Q (st i tx free n lg t).
Proof.
  intros Hi. revert tx n lg.
  induction m as [|m IH]; intros tx n lg Hs Hsd Ho Hm Hr Ht Hc HQ; cbn [send_unacked_loop].
  { apply wp_ret. specialize (HQ true (stx_seg_o tx) (stx_seg_pending tx) (stx_started tx) n lg).
    replace (sent _ _ _ tx) with tx in HQ by (by destruct tx). apply HQ; [apply net_frame_refl|lia..]. }
  pose proof (txs_n tx Hs) as Hn. change (Z.of_nat CONFIG_BT_MESH_TX_SEG_MAX) with 6 in Hn.
  assert (forall o p s n' lg', net_frame n n' -> o = stx_seg_o tx ->
    wp (_ ← set_tx (fun tx => tx <| stx_seg_o := u8 (stx_seg_o tx + 1) |>) i;
        send_unacked_loop config_proxy config_friend config_cdb proxy_relay adv_buffer net_tx i m) Q
       (st i (sent o p s tx) free n' lg' t)) as Hnext.
  { intros o p s n' lg' Hf ->. apply wp_bind, wp_set_tx.
    change (stx_seg_o (sent ?o _ _ _)) with o. rewrite u8_id by (unfold is_u8; lia).
    apply IH; try done; cbn; [by destruct Hs|lia..| |].
    - by apply (net_ready_frame _ n).
    - intros b o' p' s' n2 lg2 Hf2 Ho2 Hb. apply (HQ b o' p' s' n2 lg2); [by eapply net_frame_trans|lia|done]. }
  apply wp_bind, wp_get_tx; [done|]. cbv zeta.
  destruct (lookup_lt_is_Some_2 (stx_seg tx) (Z.to_nat (stx_seg_o tx))) as [seg Hseg].
  { rewrite (txs_len tx Hs). unfold CONFIG_BT_MESH_TX_SEG_MAX. lia. }
  assert (tx = sent (stx_seg_o tx) (stx_seg_pending tx) (stx_started tx) tx) as Etx by (by destruct tx).
  apply wp_bind. eapply wp_need; [done|]. destruct seg as [b|]; [|rewrite Etx; by apply Hnext].
  apply wp_bind, wp_adv_create.
  { apply wp_ret. rewrite Etx. apply HQ; [apply net_frame_refl|lia..]. }
  destruct adv_empty_abs as [We Ae]. destruct (txs_size tx Hs _ _ Hseg) as [_ Hl].
  assert (length b <= 12)%nat as Hl12 by (unfold seg_len, BT_MESH_CTL_SEG_SDU_MAX, BT_MESH_APP_SEG_SDU_MAX in Hl; destruct (stx_ctl tx); lia).
  destruct (buf_build_ok tx (stx_seg_o tx) b adv_empty 9 [] 20) as (buf & Eb & Wb & Ab); [done..|lia|].
  apply wp_bind. eapply wp_need_run; [done|]. cbv beta iota. apply wp_bind, wp_set_tx, wp_bind.
  pose proof (abs_len buf _ _ _ Wb Ab) as Lb. injection Ab as Hh Hcont Htail.
  apply wp_net_send; try done; try lia.
  { rewrite Htail, Hc. unfold seg_len, BT_MESH_CTL_SEG_SDU_MAX, BT_MESH_APP_SEG_SDU_MAX in Hl. destruct (stx_ctl tx); lia. }
  { rewrite Lb, Hc. unfold seg_pdu. rewrite !length_app. cbn [length app].
    unfold seg_len, BT_MESH_CTL_SEG_SDU_MAX, BT_MESH_APP_SEG_SDU_MAX in Hl. destruct (stx_ctl tx); lia. }
  intros [err fin] n1 [Hf1 _]. cbv beta iota. change (tr_net (st _ _ _ n _ _)) with n in Hf1.
  change (st ?i ?x ?f _ ?l ?u <| tr_net := n1 |>) with (st i x f n1 l u).
  assert (forall p s lg', wp (match err with
    | Some _ => _ ← set_tx (fun tx => tx <| stx_seg_pending := u8 (stx_seg_pending tx - 1) |>) i; mret false
    | None => _ ← set_tx (fun tx => tx <| stx_seg_o := u8 (stx_seg_o tx + 1) |>) i;
        send_unacked_loop config_proxy config_friend config_cdb proxy_relay adv_buffer net_tx i m
    end) Q (st i (sent (stx_seg_o tx) p s tx) free n1 lg' t)) as Hend.
  { intros p s lg'. destruct err; [|by apply Hnext]. apply wp_bind, wp_set_tx, wp_ret.
    apply (HQ false (stx_seg_o tx) _ s n1 lg'); [done|lia..]. }
  apply wp_bind. destruct fin; cbn [when].
  - apply wp_finalized; [done..|]. intros p s lg'. apply (Hend p s lg').
  - apply wp_ret. specialize (Hend (u8 (stx_seg_pending tx + 1)) (stx_started tx) lg).
    replace (sent _ _ _ tx) with (tx <| stx_seg_pending := u8 (stx_seg_pending tx + 1) |>) in Hend by (by destruct tx).
    exact Hend.
Qed.

Lemma wp_net_idx_of j (Q : Z -> trans F -> Prop) t :
  net_ready j (tr_net t) -> (forall x, Q x t) -> wp (net_idx_of j) Q t.
Proof.
  intros (_ & sub & Hsub & _) HQ. unfold net_idx_of. apply wp_bind, wp_gets. rewrite Hsub.
  apply wp_bind. eapply wp_need; [done|]. apply wp_ret, HQ.
Qed.

(** An operation on the context that keeps its invariant and the number of blocks. *)
Definition kept (count i : nat) (tx : seg_tx) (free : nat) (n : bt_mesh_net) (t : trans F) (Q : trans F -> Prop) : Prop :=
  forall tx' free' n' lg' t1, tx_ok count tx' -> (free' + blocks (stx_seg tx') = free + blocks (stx_seg tx))%nat ->
    net_frame n n' -> unblocked i t t1 -> Q (st i tx' free' n' lg' t1).

Lemma complete_kept count i err tx free n lg (Q : trans F -> Prop) t :
  (i < length (tr_seg_tx t))%nat -> tx_ok count tx -> kept count i tx free n t Q ->
  wp (seg_tx_complete config_proxy config_friend config_cdb i err) (fun _ => Q) (st i tx free n lg t).
Proof.
  intros Hi Hok HQ. pose proof (blocks_le tx (txo_shape _ _ Hok)). pose proof (txo_count _ _ Hok).
  apply wp_complete; [done|apply Hok|lia|]. intros l n' t1 Ll El Hf Hu.
  apply HQ; try done; [apply reset_ok; try done; apply Hok|]. cbn. rewrite El. lia.
Qed.

Lemma seg_net_ctl tx sub net_idx : is_ctl (tx_ctx (seg_net_tx tx sub net_idx)) = stx_ctl tx.
Proof. unfold seg_net_tx. cbn. by destruct (stx_ctl tx). Qed.

Lemma send_unacked_kept count i tx free n lg (Q : trans F -> Prop) t :
  (i < length (tr_seg_tx t))%nat -> tx_ok count tx -> (forall j, (j < count)%nat -> net_ready j n) ->
  kept count i tx free n t Q ->
  wp (seg_tx_send_unacked config_proxy config_friend config_cdb proxy_relay adv_buffer i) (fun _ => Q) (st i tx free n lg t).
Proof.
  intros Hi Hok Hnet HQ. unfold seg_tx_send_unacked. apply wp_bind, wp_get_tx; [done|]. wp_if; zbool.
  { apply wp_ret. apply HQ; [done..|apply net_frame_refl|constructor]. }
  destruct (txo_sub _ _ Hok E) as (j & Hj & Hlt). rewrite Hj. apply wp_bind. eapply wp_need; [done|].
  apply wp_bind, wp_net_idx_of; [by apply Hnet|]. intros net_idx. wp_if; zbool; [by apply (complete_kept count)|].
  destruct Hok as [Hs Hcnt Ho Httl Hat Hsub].
  apply wp_bind, wp_set_tx, wp_bind. apply wp_unacked_loop; try done; cbn; try lia; [by destruct Hs|by apply Hnet| |].
  { apply (seg_net_ctl tx 0 0). }
  intros b o p s n' lg' Hf Ho' Hb. apply wp_bind.
  assert (forall o a, 0 <= o <= stx_seg_n tx -> 0 <= a < 256 ->
    wp (_ ← set_tx (fun tx => if stx_seg_pending tx =? 0
                              then tx <| stx_retransmit := Some (SEG_RETRANSMIT_TIMEOUT tx) |> else tx) i;
        set_tx (fun tx => tx <| stx_sending := false |>) i) (fun _ => Q)
       (st i (sent o p s (tx <| stx_sending := true |> <| stx_attempts := a |>)) free n' lg' t)) as Hend.
  { intros o1 a H1 H2. apply wp_bind, wp_set_tx, wp_set_tx.
    match goal with |- Q (st i (assign _ _ ?y) _ _ _ _) => assert (tx_shape y /\ stx_seg y = stx_seg tx /\
      stx_nack_count y = stx_nack_count tx /\ stx_seg_o y = o1 /\ stx_seg_n y = stx_seg_n tx /\ stx_ttl y = stx_ttl tx
      /\ stx_attempts y = a /\ stx_sub y = stx_sub tx) as (Y1 & Y2 & Y3 & Y4 & Y5 & Y6 & Y7 & Y8)
      by (cbn; destruct (p =? 0); split_and!; try done; by destruct Hs); set (tx1 := y) in * end.
    apply HQ; [|cbn; by rewrite Y2|done|constructor].
    split; cbn; rewrite ?Y2, ?Y3, ?Y4, ?Y5, ?Y6, ?Y7, ?Y8; try done. by destruct Y1. }
  destruct b; cbn [when].
  - apply wp_set_tx. apply (Hend 0 (u8 (stx_attempts tx - 1))); [lia|apply u8_range].
  - apply wp_ret. specialize (Hend o (stx_attempts tx)).
    replace (tx <| stx_sending := true |> <| stx_attempts := stx_attempts tx |>) with (tx <| stx_sending := true |>) in Hend
      by (by destruct tx). apply Hend; lia.
Qed.

(** *** Unsegmented messages and acknowledgements *)

(** Only the network layer and the log change. *)
Definition net_only (Q : trans F -> Prop) (t : trans F) : Prop :=
  forall n' lg', net_sent (tr_net t) n' -> Q (t <| tr_net := n' |> <| tr_log := lg' |>).

Lemma trans_same (t : trans F) : t = t <| tr_net := tr_net t |> <| tr_log := tr_log t |>.
Proof. by destruct t. Qed.

Lemma net_only_id (Q : trans F -> Prop) t : net_only Q t -> Q t.
Proof. intros H. rewrite trans_same. apply H, net_sent_refl. Qed.

Lemma finalize_net_only cb (Q : trans F -> Prop) t n' :
  net_only Q t -> net_sent (tr_net t) n' -> wp (send_cb_finalize cb) (fun _ => Q) (t <| tr_net := n' |>).
Proof.
  intros HQ Hf. assert (forall lg', Q (t <| tr_net := n' |> <| tr_log := lg' |>)) as H by (intros lg'; by apply HQ).
  unfold send_cb_finalize. destruct cb as [cb|].
  2: { apply wp_ret. apply (H (tr_log t)). }
  apply wp_bind, wp_when; intros _; [apply wp_modify|]; apply wp_when; intros _.
  - apply wp_modify. apply H.
  - apply H.
  - apply wp_modify. apply H.
  - apply (H (tr_log t)).
Qed.

Lemma send_unseg_safe tx sdu cb ctl_op (Q : trans F -> Prop) t :
  net_ready (tx_sub tx) (tr_net t) -> 0 <= ctx_send_ttl (tx_ctx tx) < 128 ->
  (length sdu <= if is_ctl (tx_ctx tx) then 11 else 15)%nat -> net_only Q t ->
  wp (send_unseg config_proxy config_friend config_cdb proxy_relay adv_buffer tx sdu cb ctl_op) (fun _ => Q) t.
Proof.
  intros Hn Ht Hl HQ. unfold send_unseg. cbv zeta. apply wp_bind, wp_adv_create.
  { apply wp_ret. by apply net_only_id. }
  destruct adv_empty_abs as [We Ae].
  destruct (add_put_ok [unseg_hdr ctl_op tx] adv_empty 9 [] 20) as (b1 & E1 & A1 & W1); [done..|cbn; lia|].
  apply wp_bind. eapply wp_need_run; [exact E1|]. cbv beta iota.
  destruct (add_mem_ok sdu b1 9 ([] ++ [unseg_hdr ctl_op tx]) (20 - length [unseg_hdr ctl_op tx])) as (t2 & b2 & E2 & A2 & W2);
    [done..|cbn; destruct (is_ctl _); lia|].
  apply wp_bind. eapply wp_need_run; [exact E2|]. cbv beta iota.
  pose proof (abs_len b2 _ _ _ W2 A2) as Lb. injection A2 as Hh _ Htail. rewrite length_app in Lb. cbn in Lb, Htail.
  match goal with |- wp (if _ then _ else ?m) _ _ => set (send := m); assert (wp send (fun _ => Q) t) as Hsend end.
  { unfold send. apply wp_bind, wp_net_send; try done; [lia|rewrite Htail; destruct (is_ctl _); lia|destruct (is_ctl _); lia|].
    intros [err fin] n' Hf. cbv beta iota. apply wp_bind, wp_when; intros _; [|apply wp_ret; by apply (HQ n' (tr_log t))].
    eapply wp_mono; [by apply finalize_net_only|]. cbv beta. intros _ s' H. by apply wp_ret. }
  wp_if; [|done]. apply wp_bind, wp_net_idx_of; [done|]. intros x. apply wp_bind, wp_gets. rewrite idle_space. cbn [negb].
  apply wp_bind. eapply wp_some; [apply idle_enqueue|]. cbn [andb]. done.
Qed.

Lemma ctl_send_safe tx op data cb (Q : trans F -> Prop) t :
  net_ready (tx_sub tx) (tr_net t) -> 0 <= tr_default_ttl t < 128 -> 0 <= ctx_send_ttl (tx_ctx tx) ->
  (length data <= 11)%nat -> ctx_send_rel (tx_ctx tx) = false -> net_only Q t ->
  wp (bt_mesh_ctl_send config_proxy config_friend config_cdb proxy_relay adv_buffer tx op data cb) (fun _ => Q) t.
Proof.
  intros Hn Hd Ht Hl Hrel HQ. unfold bt_mesh_ctl_send. apply wp_bind, wp_gets.
  assert (wp (mret (Some EINVAL)) (fun _ : ret_code => Q) t) as Hret by (apply wp_ret; by apply net_only_id).
  unfold resolve_ttl, BT_MESH_TTL_MAX.
  assert (forall tx', tx_sub tx' = tx_sub tx -> 0 <= ctx_send_ttl (tx_ctx tx') < 128 ->
    ctx_send_rel (tx_ctx tx') = false ->
    wp (let tx' := if (BT_MESH_SDU_UNSEG_MAX <? length data)%nat
                   then set_ctx (fun c => c <| ctx_send_rel := true |>) tx' else tx' in
        let tx' := set_ctx (fun c => c <| ctx_app_idx := BT_MESH_KEY_UNUSED |>) tx' in
        let dst := ctx_addr (tx_ctx tx') in
        if (dst =? BT_MESH_ADDR_UNASSIGNED) || BT_MESH_ADDR_IS_VIRTUAL dst then mret (Some EINVAL)
        else if ctx_send_rel (tx_ctx tx')
        then send_seg config_proxy config_friend config_cdb proxy_relay adv_buffer tx' (mkBuf 0 (length data) data) cb (Some op)
        else send_unseg config_proxy config_friend config_cdb proxy_relay adv_buffer tx' data cb (Some op))
       (fun _ => Q) t) as Hgo.
  { intros tx' Hs Htt Hr'. cbv zeta. rewrite (proj2 (Nat.ltb_ge _ _)) by (unfold BT_MESH_SDU_UNSEG_MAX; lia).
    wp_if; [done|]. cbn. rewrite Hr'. apply send_unseg_safe; cbn; rewrite ?Hs; (done || lia). }
  destruct (ctx_send_ttl (tx_ctx tx) =? BT_MESH_TTL_DEFAULT); [by apply Hgo|].
  destruct (127 <? ctx_send_ttl (tx_ctx tx)) eqn:E; [done|]. zbool. apply Hgo; [done|lia|done].
Qed.

Lemma send_ack_safe sub src dst ttl auth block obo (Q : trans F -> Prop) t :
  net_ready sub (tr_net t) -> 0 <= tr_default_ttl t < 128 -> 0 <= ttl -> net_only Q t ->
  wp (send_ack config_proxy config_friend config_cdb proxy_relay adv_buffer sub src dst ttl auth block obo) (fun _ => Q) t.
Proof.
  intros Hn Hd Ht HQ. unfold send_ack. apply wp_bind, wp_net_idx_of; [done|]. intros x. do 2 apply wp_bind, wp_gets.
  wp_if; [apply wp_ret; by apply net_only_id|]. apply ctl_send_safe; try done. cbn. lia.
Qed.

(** *** Filling a context *)

(** Segment [k] of the message [data]. *)
Definition chunk (ctl : bool) (data : bytes) (k : nat) : bytes := take (seg_len ctl) (drop (k * seg_len ctl) data).

(** The number of segments of a message. *)
Definition seg_total (ctl : bool) (len : nat) : nat := S ((len - 1) / seg_len ctl).

(** The places of a context with the first [o] segments. *)
Definition filled (ctl : bool) (data : bytes) (o : nat) : list (option bytes) :=
  ((fun k => Some (chunk ctl data k)) <$> seq 0 o) ++ replicate (CONFIG_BT_MESH_TX_SEG_MAX - o) None.

Lemma seg_len_cases ctl : (seg_len ctl = 8 \/ seg_len ctl = 12)%nat.
Proof. destruct ctl; auto. Qed.

Lemma seg_total_bound ctl len k :
  (1 <= len)%nat -> ((k < seg_total ctl len)%nat <-> (k * seg_len ctl < len)%nat).
Proof.
  intros H. unfold seg_total. pose proof (Nat.div_mod_eq (len - 1) (seg_len ctl)).
  pose proof (Nat.mod_upper_bound (len - 1) (seg_len ctl)).
  destruct (seg_len_cases ctl) as [E|E]; rewrite E in *; lia.
Qed.

Lemma length_filled ctl data o : (o <= 6)%nat -> length (filled ctl data o) = 6%nat.
Proof. intros H. unfold filled, CONFIG_BT_MESH_TX_SEG_MAX. rewrite length_app, length_fmap, length_seq, length_replicate. lia. Qed.

Lemma filled_lookup ctl data o k :
  filled ctl data o !! k =
  if decide (k < o)%nat then Some (Some (chunk ctl data k)) else if decide (k < Nat.max o 6)%nat then Some None else None.
Proof.
  unfold filled, CONFIG_BT_MESH_TX_SEG_MAX. destruct (decide (k < o)%nat).
  - rewrite lookup_app_l by (rewrite length_fmap, length_seq; lia). rewrite list_lookup_fmap, lookup_seq_lt by lia. done.
  - rewrite lookup_app_r by (rewrite length_fmap, length_seq; lia). rewrite length_fmap, length_seq.
    destruct (decide _); [apply lookup_replicate_2; lia|apply lookup_replicate_None; lia].
Qed.

Lemma filled_insert ctl data o :
  (o < 6)%nat -> <[o := Some (chunk ctl data o)]> (filled ctl data o) = filled ctl data (S o).
Proof.
  intros H. apply list_eq. intros k. destruct (decide (k = o)) as [->|N].
  - rewrite list_lookup_insert_eq by (rewrite length_filled; lia). rewrite filled_lookup, decide_True by lia. done.
  - rewrite list_lookup_insert_ne by done. rewrite !filled_lookup.
    destruct (decide (k < o)%nat), (decide (k < S o)%nat); try lia; try done.
    repeat case_decide; (done || lia).
Qed.

Lemma blocks_filled ctl data o : (o <= 6)%nat -> blocks (filled ctl data o) = o.
Proof.
  induction o as [|o IH]; intros H; [apply blocks_replicate|].
  rewrite <- filled_insert by lia. rewrite blocks_insert_some; [by rewrite IH by lia|].
  rewrite filled_lookup, decide_False, decide_True by lia. done.
Qed.

Lemma length_chunk ctl data k :
  (k < seg_total ctl (length data))%nat -> (1 <= length data <= 72)%nat ->
  length (chunk ctl data k) = seg_size ctl (length data) (Z.of_nat k) /\ (1 <= length (chunk ctl data k) <= seg_len ctl)%nat.
Proof.
  intros Hk Hl. apply seg_total_bound in Hk; [|lia]. unfold chunk, seg_size. rewrite length_take, length_drop.
  destruct (seg_len_cases ctl) as [E|E]; rewrite E in *; (rewrite u8_id by (unfold is_u8; lia)); lia.
Qed.

(** The context of a message that is being copied. *)
Record tx_filling (data : bytes) (o : nat) (tx : seg_tx) : Prop := {
  txf_seg : stx_seg tx = filled (stx_ctl tx) data o;
  txf_len : stx_len tx = length data;
  txf_n : stx_seg_n tx + 1 = Z.of_nat (seg_total (stx_ctl tx) (length data));
  txf_total : (seg_total (stx_ctl tx) (length data) <= 6)%nat;
  txf_data : (1 <= length data <= 72)%nat;
}.

Lemma filling_shape data o tx :
  tx_filling data o tx -> (o <= seg_total (stx_ctl tx) (length data))%nat -> tx_shape tx.
Proof.
  intros [Es El En Ht Hd] Ho. split.
  - rewrite Es. apply length_filled. lia.
  - unfold CONFIG_BT_MESH_TX_SEG_MAX. unfold seg_total in *. lia.
  - intros k Hk. rewrite Es. unfold seg_none. rewrite filled_lookup, decide_False by lia. case_decide; auto.
  - intros k b. rewrite Es, filled_lookup, El. case_decide; [|by case_decide]. intros [= <-].
    apply length_chunk; lia.
Qed.

Lemma filling_step data o tx :
  tx_filling data o tx -> (o < seg_total (stx_ctl tx) (length data))%nat ->
  tx_filling data (S o) (tx <| stx_seg := <[o := Some (chunk (stx_ctl tx) data o)]> (stx_seg tx) |>).
Proof. intros [Es El En Ht Hd] Ho. split; cbn; try done. rewrite Es. apply filled_insert. lia. Qed.

Lemma drop_chunk ctl data o :
  (o < seg_total ctl (length data))%nat -> (1 <= length data)%nat ->
  drop (o * seg_len ctl) data = chunk ctl data o ++ drop (S o * seg_len ctl) data /\
  length (chunk ctl data o) = Nat.min (length (drop (o * seg_len ctl) data)) (seg_len ctl) /\
  (length (drop (S o * seg_len ctl) data) < length (drop (o * seg_len ctl) data))%nat.
Proof.
  intros Ho Hd. apply seg_total_bound in Ho; [|done]. unfold chunk. split_and!.
  - replace (S o * seg_len ctl)%nat with (o * seg_len ctl + seg_len ctl)%nat by lia. rewrite <- drop_drop. by rewrite take_drop.
  - rewrite length_take. lia.
  - rewrite !length_drop. destruct (seg_len_cases ctl) as [E|E]; rewrite E in *; lia.
Qed.

Definition is_ctl_op (ctl_op : option Z) : bool := match ctl_op with Some _ => true | None => false end.

Lemma wp_fill net_tx ctl_op data i fuel o sdu h r tx free n lg (Q : ret_code -> trans F -> Prop) t :
  (i < length (tr_seg_tx t))%nat -> stx_ctl tx = is_ctl_op ctl_op ->
  let ctl := stx_ctl tx in let total := seg_total ctl (length data) in
  tx_filling data o tx -> (o <= total)%nat -> stx_nack_count tx = Z.of_nat total ->
  buf_wf sdu -> abs sdu = mkAbuf h (drop (o * seg_len ctl) data) r -> (length (drop (o * seg_len ctl) data) < fuel)%nat ->
  ((total <= o + free)%nat ->
     Q None (st i (tx <| stx_seg := filled ctl data total |>) (free - (total - o)) n lg t)) ->
  (forall l n', (o + free < total)%nat -> length l = 6%nat -> blocks l = 0%nat -> net_frame n n' ->
     Q (Some ENOBUFS) (st i (reset_tx l tx) (free + o) n' lg t)) ->
  wp (send_seg_loop config_proxy config_friend config_cdb net_tx ctl_op i fuel o sdu) Q (st i tx free n lg t).
Proof.
  intros Hi. revert o sdu h tx free. induction fuel as [|fuel IH]; intros o sdu h tx free Hctl ctl total Hf Ho Hn W A Hfuel HQ1 HQ2; [lia|].
  pose proof (txf_data _ _ _ Hf) as Hd. pose proof (txf_total _ _ _ Hf) as Ht. fold ctl in Ht. fold total in Ht.
  pose proof (txf_seg _ _ _ Hf) as Esg. fold ctl in Esg.
  pose proof (abs_len sdu _ _ _ W A) as Ls. cbn [send_seg_loop]. rewrite Ls.
  destruct (Nat.eq_dec o total) as [->|No].
  { assert (drop (total * seg_len ctl) data = []) as E.
    { apply drop_ge. destruct (Nat.le_gt_cases (length data) (total * seg_len ctl)) as [|Hlt]; [done|].
      apply seg_total_bound in Hlt; [|lia]. unfold total in Hlt. lia. }
    rewrite E. cbn [length Nat.eqb]. apply wp_ret. replace (free - (total - total))%nat with free in HQ1 by lia.
    rewrite <- Esg in HQ1. replace (tx <| stx_seg := stx_seg tx |>) with tx in HQ1 by (by destruct tx).
    apply HQ1. lia. }
  destruct (drop_chunk ctl data o) as (Ed & Lc & Hlt); [unfold total in *; lia|lia|].
  rewrite (proj2 (Nat.eqb_neq _ _)) by lia. apply wp_bind, wp_gets. cbn [tr_segs_free st assign].
  change (tr_segs_free (st i tx free n lg t)) with free. wp_if; [apply Nat.eqb_eq in E as ->|apply Nat.eqb_neq in E].
  { apply wp_bind, wp_reset; [done|by apply (filling_shape data o)| |].
    - rewrite Esg, blocks_filled by lia. unfold total in *. lia.
    - intros l n' Ll El Hfr. apply wp_ret. rewrite Esg, blocks_filled by lia. apply HQ2; try done; lia. }
  apply wp_bind, wp_modify. change (st i tx free n lg t <| tr_segs_free := _ |>) with (st i tx (pred free) n lg t).
  rewrite Ed in A.
  destruct (pull_mem_ok (length (chunk ctl data o)) sdu h (chunk ctl data o) (drop (S o * seg_len ctl) data) r)
    as (sdu' & Ep & A' & W'); [done|done|done|].
  apply wp_bind. unfold is_ctl_op in Hctl. rewrite <- Hctl. fold ctl. rewrite <- Lc.
  eapply wp_need_run; [exact Ep|]. cbv beta iota.
  apply wp_bind, wp_get_tx; [done|]. rewrite Esg, length_filled by lia.
  rewrite (proj2 (Nat.leb_gt _ _)) by (unfold total in *; lia).
  assert (o < total)%nat as Hot by lia. pose proof (filling_step data o tx Hf Hot) as Hf'. fold ctl in Hf'.
  apply wp_bind, wp_set_tx, wp_bind. set (tx1 := tx <| stx_seg := _ |>).
  assert (wp (send_seg_loop config_proxy config_friend config_cdb net_tx ctl_op i fuel (S o) sdu') Q
            (st i tx1 (pred free) n lg t)) as Hnext.
  { apply (IH (S o) sdu' (h + length (chunk ctl data o))%nat tx1 (pred free)); try done.
    - change (stx_ctl tx1) with ctl. lia.
    - change (stx_ctl tx1) with ctl. fold total. intros H.
      change (tx1 <| stx_seg := _ |>) with (tx <| stx_seg := filled ctl data total |>).
      replace (pred free - (total - S o))%nat with (free - (total - o))%nat by lia. apply HQ1. lia.
    - change (stx_ctl tx1) with ctl. fold total. intros l n' H Ll El Hfr.
      change (reset_tx l tx1) with (reset_tx l tx).
      replace (pred free + S o)%nat with (free + o)%nat by lia. apply HQ2; try done. lia. }
  apply wp_when; intros _; [|done].
  apply wp_bind, wp_get_tx; [done|].
  destruct (buf_build_ok tx1 (Z.of_nat o) (chunk ctl data o) (mkBuf 0 0 (replicate 16 0)) 0 [] 16)
    as (seg & Es & _ & _); [|lia| | |done| |].
  { apply (filling_shape data (S o)); [done|]. change (S o <= total)%nat. lia. }
  { unfold tx1. cbn. rewrite Nat2Z.id. apply list_lookup_insert_eq. rewrite Esg, length_filled; lia. }
  { by vm_compute; lia. }
  { rewrite Lc. destruct (seg_len_cases ctl) as [E'|E']; rewrite E'; lia. }
  apply wp_bind. eapply wp_need_run; [exact Es|]. cbv beta iota. apply wp_bind.
  eapply wp_some; [apply idle_enqueue|]. cbn [andb when]. by apply wp_ret.
Qed.

Lemma no_blocks l : length l = 6%nat -> blocks l = 0%nat -> forall ctl data, l = filled ctl data 0.
Proof.
  intros L E ctl data. unfold filled, CONFIG_BT_MESH_TX_SEG_MAX. cbn [seq fmap list_fmap app]. rewrite Nat.sub_0_r.
  apply list_eq. intros k. destruct (proj2 (blocks_none l) E k) as [H|H]; rewrite H; symmetry.
  - apply lookup_replicate_None. apply lookup_ge_None in H. lia.
  - apply lookup_replicate_2. apply lookup_lt_Some in H. lia.
Qed.

Lemma seg_start_n ctl len : (1 <= len <= 72)%nat ->
  u8 (Z.quot (Z.of_nat len - 1) (Z.of_nat (seg_len ctl))) + 1 = Z.of_nat (seg_total ctl len).
Proof.
  intros H. unfold seg_total. replace (Z.of_nat len - 1) with (Z.of_nat (len - 1)) by lia.
  rewrite Z.quot_div_nonneg by (pose proof (seg_len_cases ctl); lia). rewrite <- Nat2Z.inj_div.
  pose proof (Nat.Div0.div_le_upper_bound (len - 1) (seg_len ctl) (len - 1)).
  rewrite u8_id; [lia|]. unfold is_u8. destruct (seg_len_cases ctl) as [E|E]; rewrite E in *; lia.
Qed.

(** A context that starts to send is filled with no segment yet. *)
Lemma start_filling count net_tx data cb ctl_op blocked n tx :
  tx_ok count tx -> stx_nack_count tx = 0 -> (1 <= length data <= 72)%nat ->
  (seg_total (is_ctl_op ctl_op) (length data) <= 6)%nat ->
  let tx' := seg_tx_start net_tx (length data) cb ctl_op blocked n tx in
  tx_filling data 0 tx' /\ stx_ctl tx' = is_ctl_op ctl_op /\
  stx_nack_count tx' = Z.of_nat (seg_total (is_ctl_op ctl_op) (length data)).
Proof.
  intros Hok Hn Hd Ht tx'. pose proof (seg_start_n (is_ctl_op ctl_op) (length data) Hd) as En.
  split; [|split; [by destruct ctl_op|]].
  - split; try done. apply no_blocks; [apply Hok|]. pose proof (txo_count _ _ Hok) as Hc. change (stx_seg tx') with (stx_seg tx). lia.
  - change (stx_nack_count tx') with (u8 (u8 (Z.quot (Z.of_nat (length data) - 1) (Z.of_nat (seg_len (is_ctl_op ctl_op)))) + 1)).
    rewrite En. apply u8_id. unfold is_u8. lia.
Qed.

(** The context with all its segments. *)
Lemma full_ok count net_tx data cb ctl_op blocked n tx :
  tx_ok count tx -> stx_nack_count tx = 0 -> (1 <= length data <= 72)%nat ->
  (seg_total (is_ctl_op ctl_op) (length data) <= 6)%nat -> (tx_sub net_tx < count)%nat ->
  0 <= ctx_send_ttl (tx_ctx net_tx) < 128 ->
  let total := seg_total (is_ctl_op ctl_op) (length data) in
  let tx' := seg_tx_start net_tx (length data) cb ctl_op blocked n tx <| stx_seg := filled (is_ctl_op ctl_op) data total |> in
  tx_ok count tx' /\ blocks (stx_seg tx') = total.
Proof.
  intros Hok Hn Hd Ht Hsub Httl total tx'.
  destruct (start_filling count net_tx data cb ctl_op blocked n tx) as ([_ F2 F3 F4 F5] & Hc & Hnack); try done.
  set (tx0 := seg_tx_start net_tx (length data) cb ctl_op blocked n tx) in *.
  assert (blocks (stx_seg tx') = total) as Hb by (apply blocks_filled; done). split; [|done].
  assert (stx_ctl tx' = is_ctl_op ctl_op) as Hc' by exact Hc. rewrite Hc in F3, F4. fold total in F3, F4.
  assert (tx_shape tx') as Hs.
  { apply (filling_shape data total); [split; rewrite ?Hc'; done|by rewrite Hc']. }
  split; try done.
  - rewrite Hb. done.
  - change (0 <= 0 <= stx_seg_n tx0). unfold total, seg_total in F3. lia.
  - intros _. by exists (tx_sub net_tx).
Qed.

(** The context of a message with all its segments. *)
Definition full_tx (net_tx : bt_mesh_net_tx) (data : bytes) (cb : option bt_mesh_send_cb) (ctl_op : option Z) (blocked : bool)
    (n : bt_mesh_net) (tx : seg_tx) : seg_tx :=
  seg_tx_start net_tx (length data) cb ctl_op blocked n tx
    <| stx_seg := filled (is_ctl_op ctl_op) data (seg_total (is_ctl_op ctl_op) (length data)) |>.

(** A message waits behind another one with the same addresses. *)
Definition is_blocked (net_tx : bt_mesh_net_tx) (t : trans F) : bool :=
  existsb (fun tx => negb (stx_nack_count tx =? 0) && seg_tx_blocks tx (tx_src net_tx) (ctx_addr (tx_ctx net_tx))) (tr_seg_tx t).

Lemma seg_total_fits (ctl : bool) (len : nat) :
  (1 <= len <= if ctl then 48 else 72)%nat -> (1 <= len <= 72)%nat /\ (seg_total ctl len <= 6)%nat.
Proof.
  intros Hl. split; [destruct ctl; lia|]. destruct (Nat.le_gt_cases (seg_total ctl len) 6) as [|H]; [done|].
  apply seg_total_bound in H; [|lia]. destruct ctl; cbn in H, Hl; lia.
Qed.

(** [send_seg] up to the point where the context is filled. *)
Lemma wp_send_seg count net_tx sdu cb ctl_op (Q : ret_code -> trans F -> Prop) t :
  Forall (tx_ok count) (tr_seg_tx t) -> net_ready (tx_sub net_tx) (tr_net t) -> buf_wf sdu ->
  (1 <= buf_len sdu <= if is_ctl_op ctl_op then 48 else 72)%nat ->
  (find_index (fun tx => stx_nack_count tx =? 0) (tr_seg_tx t) = None -> Q (Some EBUSY) t) ->
  (forall i tx, find_index (fun tx => stx_nack_count tx =? 0) (tr_seg_tx t) = Some i -> tr_seg_tx t !! i = Some tx ->
     stx_nack_count tx = 0 ->
     let data := contents sdu in let total := seg_total (is_ctl_op ctl_op) (length data) in
     let blocked := is_blocked net_tx t in
     ((tr_segs_free t < total)%nat -> forall l n', length l = 6%nat -> blocks l = 0%nat -> net_frame (tr_net t) n' ->
        Q (Some ENOBUFS) (st i (reset_tx l (seg_tx_start net_tx (length data) cb ctl_op blocked (tr_net t) tx)) (tr_segs_free t) n' (tr_log t) t)) /\
     ((total <= tr_segs_free t)%nat ->
        wp (if blocked
            then (busy ← gets bt_mesh_tx_in_progress;
                  _ ← on_net (fun n => Some (bt_mesh_next_seq config_proxy config_friend config_cdb busy n));
                  mret None)
            else (_ ← seg_tx_send_unacked config_proxy config_friend config_cdb proxy_relay adv_buffer i; mret None)) Q
           (st i (full_tx net_tx data cb ctl_op blocked (tr_net t) tx) (tr_segs_free t - total) (tr_net t) (tr_log t) t))) ->
  wp (send_seg config_proxy config_friend config_cdb proxy_relay adv_buffer net_tx sdu cb ctl_op) Q t.
Proof.
  intros Htx Hnet W Hl HQb HQ. unfold send_seg. apply wp_bind, wp_gets. cbv zeta.
  destruct (find_index _ (tr_seg_tx t)) as [i|] eqn:Ef; [|by apply wp_ret, HQb].
  pose proof Ef as Ei. apply find_index_Some in Ei as [(tx & Hi & Hn) _]. zbool.
  pose proof (Forall_lookup_1 _ _ _ _ Htx Hi) as Hok. specialize (HQ i tx eq_refl Hi Hn). cbv zeta in HQ. destruct HQ as [HQ1 HQ2].
  pose proof (lookup_lt_Some _ _ _ Hi) as Hlt. set (n := tr_net t) in *.
  apply wp_bind, wp_gets. fold n. rewrite (st_id i tx t Hi) at 2. fold n. apply wp_bind, wp_set_tx, wp_bind, wp_get_tx; [done|].
  fold (is_blocked net_tx t). set (blocked := is_blocked net_tx t) in *.
  pose proof (length_contents sdu W) as Lc. set (data := contents sdu) in *. rewrite <- Lc in *.
  destruct (seg_total_fits (is_ctl_op ctl_op) (length data) Hl) as [Hd Ht].
  destruct (start_filling count net_tx data cb ctl_op blocked n tx) as (Hf & Hc & Hnack); try done.
  unfold full_tx in HQ2. set (tx0 := seg_tx_start net_tx (length data) cb ctl_op blocked n tx) in *.
  apply wp_bind. apply wp_mono with (Q := fun full t' => full = false /\ t' = st i tx0 (tr_segs_free t) n (tr_log t) t).
  { wp_if; [|by apply wp_ret]. apply wp_bind, wp_net_idx_of; [done|]. intros x. apply wp_bind, wp_gets, wp_ret.
    by rewrite idle_space. }
  intros full t' [-> ->]. apply wp_bind.
  apply (wp_fill net_tx ctl_op data i _ 0 sdu (net_buf_simple_headroom sdu) (net_buf_simple_tailroom sdu)); try done.
  - rewrite Hc. lia.
  - cbn [Nat.mul]. rewrite drop_0. lia.
  - cbn [Nat.add]. rewrite Hc, Nat.sub_0_r. intros Hfree. apply wp_bind, wp_get_tx; [done|].
    rewrite andb_false_intro2; [by apply HQ2|].
    cbn [stx_seg assign]. rewrite filled_lookup, decide_True by (unfold seg_total; lia). done.
  - cbn [Nat.add]. rewrite Hc. intros l n' Hfree Ll El Hfr. apply wp_ret. rewrite Nat.add_0_r. by apply HQ1.
Qed.

Lemma send_seg_kept count net_tx sdu cb ctl_op (Q : trans F -> Prop) t :
  Forall (tx_ok count) (tr_seg_tx t) -> (forall j, (j < count)%nat -> net_ready j (tr_net t)) ->
  (tx_sub net_tx < count)%nat -> 0 <= ctx_send_ttl (tx_ctx net_tx) < 128 -> buf_wf sdu ->
  (1 <= buf_len sdu <= if is_ctl_op ctl_op then 48 else 72)%nat ->
  Q t -> (forall i tx, tr_seg_tx t !! i = Some tx -> kept count i tx (tr_segs_free t) (tr_net t) t Q) ->
  wp (send_seg config_proxy config_friend config_cdb proxy_relay adv_buffer net_tx sdu cb ctl_op) (fun _ => Q) t.
Proof.
  intros Htx Hnet Hsub Httl W Hl HQ HQk. apply (wp_send_seg count); [done|by apply Hnet|done..|]. intros i tx _ Hi Hn.
  pose proof (Forall_lookup_1 _ _ _ _ Htx Hi) as Hok. specialize (HQk i tx Hi). cbv zeta.
  pose proof (length_contents sdu W) as Lc. set (data := contents sdu) in *. set (blocked := is_blocked net_tx t). rewrite <- Lc in Hl.
  pose proof (lookup_lt_Some _ _ _ Hi) as Hlt.
  destruct (seg_total_fits (is_ctl_op ctl_op) (length data) Hl) as [Hd Ht].
  destruct (start_filling count net_tx data cb ctl_op blocked (tr_net t) tx) as (Hf & Hc & Hnack); try done.
  destruct (full_ok count net_tx data cb ctl_op blocked (tr_net t) tx) as (Hfull & Hb); try done.
  assert (blocks (stx_seg tx) = 0%nat) as Hb0 by (pose proof (txo_count _ _ Hok); lia). split.
  - intros _ l n' Ll El Hfr. apply HQk; try done; [|cbn; rewrite El, Hb0; lia|constructor].
    apply (reset_ok l); try done; [by apply (filling_shape data 0); [|lia]|]. destruct Hfull as [_ _ Ho _ _ _]. apply Ho.
  - intros Hfree. fold (full_tx net_tx data cb ctl_op blocked (tr_net t) tx) in Hfull, Hb.
    assert (kept count i (full_tx net_tx data cb ctl_op blocked (tr_net t) tx)
              (tr_segs_free t - seg_total (is_ctl_op ctl_op) (length data)) (tr_net t) t Q) as HQ'.
    { intros tx' free' n' lg' t1 H1 H2 H3 H4. apply HQk; try done. rewrite H2, Hb, Hb0. lia. }
    destruct blocked.
    + apply wp_bind, wp_gets, wp_bind, wp_on_net.
      apply (wp_total (fun n => bt_mesh_next_seq _ _ _ _ n)). apply wp_ret. apply HQ'; try done; [apply next_seq_frame|constructor].
    + apply (wp_then (fun _ => None)). by apply (send_unacked_kept count).
Qed.

(** ** One receiving context *)

Definition srt (i : nat) (rx : seg_rx) (free : nat) (t : trans F) : trans F :=
  t <| tr_seg_rx := <[i := rx]> (tr_seg_rx t) |> <| tr_segs_free := free |>.

Lemma srt_id i rx t : tr_seg_rx t !! i = Some rx -> t = srt i rx (tr_segs_free t) t.
Proof. intros H. unfold srt, assign. cbn. rewrite list_insert_id by done. by destruct t. Qed.

Lemma wp_get_rx i rx free (Q : seg_rx -> trans F -> Prop) t :
  (i < length (tr_seg_rx t))%nat -> Q rx (srt i rx free t) -> wp (get_rx i) Q (srt i rx free t).
Proof.
  intros Hi H. unfold get_rx. apply wp_bind, wp_gets. cbn. rewrite list_lookup_insert_eq by done. by eapply wp_need.
Qed.

Lemma wp_set_rx f i rx free (Q : unit -> trans F -> Prop) t :
  Q tt (srt i (f rx) free t) -> wp (set_rx f i) Q (srt i rx free t).
Proof.
  intros H. unfold set_rx. apply wp_modify. unfold srt, assign in *. cbn in *. by rewrite alter_insert.
Qed.

Record rx_ok (subnet_count : nat) (rx : seg_rx) : Prop := {
  rxo_len : length (srx_seg rx) = CONFIG_BT_MESH_RX_SEG_MAX;
  rxo_n : 0 <= srx_seg_n rx < Z.of_nat CONFIG_BT_MESH_RX_SEG_MAX;
  rxo_high k : (Z.to_nat (srx_seg_n rx) < k)%nat -> seg_none (srx_seg rx) k;
  rxo_idle : srx_in_use rx = false -> blocks (srx_seg rx) = 0%nat;
  rxo_bits k : srx_in_use rx = true -> (k <= Z.to_nat (srx_seg_n rx))%nat ->
    (Z.testbit (srx_block rx) (Z.of_nat k) = true <-> exists b, srx_seg rx !! k = Some (Some b));
  rxo_size k b : srx_seg rx !! k = Some (Some b) ->
    if decide (k = Z.to_nat (srx_seg_n rx))
    then (srx_len rx = k * seg_len (srx_ctl rx) + length b)%nat /\ (length b <= seg_len (srx_ctl rx))%nat
    else length b = seg_len (srx_ctl rx);
  rxo_sub : srx_in_use rx = true -> exists j, srx_sub rx = Some j /\ (j < subnet_count)%nat;
  rxo_ack : is_Some (srx_ack rx) -> srx_in_use rx = true;
  rxo_ttl : 0 <= srx_ttl rx;
  rxo_obo : srx_obo rx = false;
}.

Lemma wp_rx_free i rx free (Q : unit -> trans F -> Prop) t :
  (i < length (tr_seg_rx t))%nat -> length (srx_seg rx) = 3%nat -> 0 <= srx_seg_n rx < 3 ->
  (forall k, (Z.to_nat (srx_seg_n rx) < k)%nat -> seg_none (srx_seg rx) k) ->
  (forall l, length l = 3%nat -> blocks l = 0%nat ->
     Q tt (srt i (rx <| srx_seg := l |>) (free + blocks (srx_seg rx)) t)) ->
  wp (seg_rx_free i) Q (srt i rx free t).
Proof.
  intros Hi L Hn Hh HQ. unfold seg_rx_free. apply wp_bind, wp_get_rx; [done|].
  set (I := fun k t' => exists l free', t' = srt i (rx <| srx_seg := l |>) free' t /\ length l = 3%nat /\
              (free' + blocks l = free + blocks (srx_seg rx))%nat /\
              forall j, (j < k \/ Z.to_nat (srx_seg_n rx) < j)%nat -> seg_none l j).
  eapply wp_mono; [apply (wp_for_loop I)|].
  - exists (srx_seg rx), free. split_and!; try done; [by destruct rx|]. intros j [|]; [lia|by apply Hh].
  - intros k t' Hk (l & free' & -> & Ll & Hb & Hl). apply wp_bind, wp_get_rx; [done|]. cbn [srx_seg assign].
    destruct (lookup_lt_is_Some_2 l k) as [o Ho]; [lia|]. change (srx_seg (rx <| srx_seg := l |>)) with l.
    apply wp_bind. eapply wp_need; [done|]. destruct o as [b|]; cbn [when].
    + apply wp_bind. eapply (wp_modify _ (fun _ s => wp _ _ s)).
      apply (wp_set_rx _ i (rx <| srx_seg := l |>) (S free')).
      exists (<[k := None]> l), (S free'). split_and!; [done|by rewrite length_insert| |].
      * pose proof (blocks_insert_none _ _ _ Ho). lia.
      * intros j Hj. unfold seg_none. destruct (decide (j = k)) as [->|N].
        -- right. apply list_lookup_insert_eq. lia.
        -- rewrite list_lookup_insert_ne by done. apply Hl. lia.
    + apply wp_ret. exists l, free'. split_and!; try done. intros j Hj. destruct (decide (j = k)) as [->|N]; [by right|].
      apply Hl. lia.
  - cbv beta. intros [] t' (l & free' & -> & Ll & Hb & Hl). assert (blocks l = 0%nat) as E.
    { apply blocks_none. intros j. apply Hl. lia. }
    rewrite E, Nat.add_0_r in Hb. rewrite Hb. by apply HQ.
Qed.

(** A context after [seg_rx_reset], with the places [l]. *)
Definition reset_rx (full : bool) (l : list (option bytes)) (rx : seg_rx) : seg_rx :=
  let rx := rx <| srx_ack := None |> <| srx_seg := l |> <| srx_in_use := false |> in
  if full then rx <| srx_seq_auth := 0 |> <| srx_sub := None |> <| srx_src := BT_MESH_ADDR_UNASSIGNED |>
                  <| srx_dst := BT_MESH_ADDR_UNASSIGNED |> else rx.

Lemma wp_rx_reset count i full rx free (Q : unit -> trans F -> Prop) t :
  (i < length (tr_seg_rx t))%nat -> rx_ok count rx ->
  (forall l, length l = 3%nat -> blocks l = 0%nat ->
     Q tt (srt i (reset_rx full l rx) (free + blocks (srx_seg rx)) t)) ->
  wp (seg_rx_reset config_friend i full) Q (srt i rx free t).
Proof.
  intros Hi Hok HQ. unfold seg_rx_reset. apply wp_bind, wp_set_rx, wp_bind, wp_get_rx; [done|].
  change (srx_obo (rx <| srx_ack := None |>)) with (srx_obo rx). rewrite (rxo_obo _ _ Hok), andb_false_r. cbn [andb when].
  apply wp_bind, wp_ret, wp_bind, wp_rx_free; try apply Hok; [done|]. intros l Ll El. specialize (HQ l Ll El).
  apply wp_bind, wp_set_rx. destruct full; cbn [when]; [by apply wp_set_rx|by apply wp_ret].
Qed.

Lemma reset_rx_ok count full l rx : rx_ok count rx -> length l = 3%nat -> blocks l = 0%nat -> rx_ok count (reset_rx full l rx).
Proof.
  intros Hok L E. assert (forall k, seg_none l k) as Hn by (intros k; by apply blocks_none).
  destruct full; (split; cbn;
    [done|apply (rxo_n _ _ Hok)|by intros; apply Hn|done|done|intros k b H; destruct (Hn k); congruence|done
    |by intros [? ?]|apply (rxo_ttl _ _ Hok)|apply (rxo_obo _ _ Hok)]).
Qed.
End Context_.
