(* ===== verification/TransportSafe.v ===== *)
(** * Safety of the transport layer

    The invariant of the whole transport layer and the proof that every operation, on
    every branch, is free of undefined behaviour, keeps the invariant and neither loses
    nor duplicates a segment block. *)

From S2P Require Import Prelude ByteOrder MeshDefs Cdb NetBuf Access Rpl Ccm MeshCrypto Subnet AppKeys Net NetProps NetRecv Transport TransportProps.

Section Safety.
Context {ecb : Ecb} {ecb_ok : EcbOk} {cmac : Cmac} (config_proxy config_friend config_cdb : bool).
Context (proxy_relay : bytes -> Z -> bt_mesh_net -> bool) (adv_buffer : bt_mesh_net -> bool).
Context {F : Type} {friend : FriendOps F} {idle : FriendIdle friend}.

(** CONFIG_BT_MESH_SUBNET_COUNT *)
Context (subnets_max : nat).

Definition subnet_count (t : trans F) : nat := length (subs (net_subnets (tr_net t))).

(** [pool] is CONFIG_BT_MESH_SEG_BUFS. *)
Record trans_ok (pool : nat) (t : trans F) : Prop := {
  tok_comp : comp_elem (net_comp (tr_net t)) <> [];
  tok_nids : Forall (fun sub => 0 <= cred_nid (tx_msg_cred sub) < 128) (subs (net_subnets (tr_net t)));
  tok_ttl : 0 <= tr_default_ttl t < 128;
  tok_subnets : subnet_count t = subnets_max;
  tok_loop : loop_ok (tr_net t);
  tok_friends : friends_ok (tr_net t);
  tok_count : length (tr_seg_tx t) = CONFIG_BT_MESH_TX_SEG_MSG_COUNT /\ length (tr_seg_rx t) = CONFIG_BT_MESH_RX_SEG_MSG_COUNT;
  tok_tx : Forall (tx_ok (subnet_count t)) (tr_seg_tx t);
  tok_rx : Forall (rx_ok (subnet_count t)) (tr_seg_rx t);
  tok_pool : (tr_segs_free t + sum_list_with (fun tx => blocks (stx_seg tx)) (tr_seg_tx t)
              + sum_list_with (fun rx => blocks (srx_seg rx)) (tr_seg_rx t) = pool)%nat;
}.

Lemma tok_ready pool t j : trans_ok pool t -> (j < subnet_count t)%nat -> net_ready j (tr_net t).
Proof.
  intros H Hj. split; [apply H|]. destruct (lookup_lt_is_Some_2 _ _ Hj) as [sub Hs]. exists sub. split; [done|].
  exact (Forall_lookup_1 _ _ _ _ (tok_nids _ _ H) Hs).
Qed.

Lemma st_ok pool i tx tx' free' n' lg' t :
  trans_ok pool t -> tr_seg_tx t !! i = Some tx -> tx_ok (subnet_count t) tx' ->
  (free' + blocks (stx_seg tx') = tr_segs_free t + blocks (stx_seg tx))%nat -> net_frame (tr_net t) n' ->
  trans_ok pool (st i tx' free' n' lg' t).
Proof.
  intros [H1 H2 H3 Hsn Hq Hfr Hl H4 H5 H6] Hi Hok Hb Hf. unfold subnet_count in *.
  destruct Hf as (Hs & Hc & _ & _ & Hff & _ & _ & _ & Hf).
  split; unfold subnet_count, friends_ok; cbn; rewrite ?Hs, ?Hc, ?Hff; try done.
  - by apply Hf.
  - by rewrite length_insert.
  - by apply Forall_insert.
  - pose proof (sum_insert (fun tx => blocks (stx_seg tx)) _ _ _ tx' Hi). lia.
Qed.

Lemma srt_ok pool i rx rx' free' t :
  trans_ok pool t -> tr_seg_rx t !! i = Some rx -> rx_ok (subnet_count t) rx' ->
  (free' + blocks (srx_seg rx') = tr_segs_free t + blocks (srx_seg rx))%nat -> trans_ok pool (srt i rx' free' t).
Proof.
  intros [H1 H2 H3 Hsn Hq Hfr Hl H4 H5 H6] Hi Hok Hb. split; try done; cbn.
  - by rewrite length_insert.
  - by apply Forall_insert.
  - pose proof (sum_insert (fun rx => blocks (srx_seg rx)) _ _ _ rx' Hi). lia.
Qed.

Lemma net_frame_ok pool t n' lg' :
  trans_ok pool t -> net_frame (tr_net t) n' -> trans_ok pool (t <| tr_net := n' |> <| tr_log := lg' |>).
Proof.
  intros [H1 H2 H3 Hsn Hq Hfr Hl H4 H5 H6] (Hs & Hc & _ & _ & Hff & _ & _ & _ & Hf). unfold subnet_count in *.
  split; unfold subnet_count, friends_ok; cbn; rewrite ?Hs, ?Hc, ?Hff; try done. by apply Hf.
Qed.

Lemma net_only_ok pool t : trans_ok pool t -> net_only (trans_ok pool) t.
Proof. intros H n' lg' [Hf _]. by apply net_frame_ok. Qed.

Lemma unblocked_ok pool i t t1 : trans_ok pool t -> unblocked i t t1 ->
  trans_ok pool t1 /\ tr_seg_tx t1 !! i = tr_seg_tx t !! i /\ tr_segs_free t1 = tr_segs_free t /\ tr_net t1 = tr_net t /\
  length (tr_seg_tx t1) = length (tr_seg_tx t).
Proof.
  intros H [|j x N Hj]; [done|]. split_and!; try done; cbn; [|by rewrite list_lookup_insert_ne|by rewrite length_insert].
  destruct H as [H1 H2 H3 Hsn Hq Hfr Hl H4 H5 H6]. pose proof (Forall_lookup_1 _ _ _ _ H4 Hj) as Hx.
  split; try done; cbn.
  - by rewrite length_insert.
  - apply Forall_insert; [done|]. by apply (tx_ok_same _ x).
  - pose proof (sum_insert (fun tx => blocks (stx_seg tx)) _ _ _
      (x <| stx_blocked := false |> <| stx_retransmit := Some 0 |>) Hj) as Hsum. cbn in Hsum. lia.
Qed.

Lemma kept_ok pool i tx t :
  trans_ok pool t -> tr_seg_tx t !! i = Some tx ->
  kept (subnet_count t) i tx (tr_segs_free t) (tr_net t) t (trans_ok pool).
Proof.
  intros H Hi tx' free' n' lg' t1 H1 H2 H3 H4. destruct (unblocked_ok pool i t t1 H H4) as (H5 & E1 & E2 & E3 & _).
  apply (st_ok pool i tx); try done; [by rewrite E1| | |].
  - unfold subnet_count. by rewrite E3.
  - by rewrite E2.
  - by rewrite E3.
Qed.

(** ** Sending *)

Lemma seg_retransmit_ok pool i t :
  trans_ok pool t -> (i < length (tr_seg_tx t))%nat ->
  wp (seg_retransmit config_proxy config_friend config_cdb proxy_relay adv_buffer i) (fun _ => trans_ok pool) t.
Proof.
  intros H Hi. destruct (lookup_lt_is_Some_2 _ _ Hi) as [tx Htx]. rewrite (st_id i tx t Htx). unfold seg_retransmit.
  pose proof (Forall_lookup_1 _ _ _ _ (tok_tx _ _ H) Htx) as Hok. apply wp_bind, wp_set_tx.
  apply (send_unacked_kept _ _ _ _ _ (subnet_count t)); [done| |intros j; by apply (tok_ready pool)|].
  - by apply (tx_ok_same _ tx).
  - exact (kept_ok pool i tx t H Htx).
Qed.

Lemma schedule_ok pool i t :
  trans_ok pool t -> (i < length (tr_seg_tx t))%nat -> wp (schedule_retransmit i) (fun _ => trans_ok pool) t.
Proof.
  intros H Hi. destruct (lookup_lt_is_Some_2 _ _ Hi) as [tx Htx]. rewrite (st_id i tx t Htx).
  pose proof (Forall_lookup_1 _ _ _ _ (tok_tx _ _ H) Htx) as Hok. unfold schedule_retransmit.
  apply wp_bind, wp_get_tx; [done|]. wp_if.
  { apply wp_ret. by rewrite <- (st_id i tx t Htx). }
  apply wp_bind, wp_set_tx, wp_bind, wp_get_tx; [done|].
  wp_if; [apply wp_ret|apply wp_set_tx]; (apply (st_ok pool i tx); [done..| |done|apply net_frame_refl]);
    by apply (tx_ok_same _ tx).
Qed.

Lemma seg_send_start_ok pool duration err i t :
  trans_ok pool t -> (i < length (tr_seg_tx t))%nat -> wp (seg_send_start duration err i) (fun _ => trans_ok pool) t.
Proof.
  intros H Hi. destruct (lookup_lt_is_Some_2 _ _ Hi) as [tx Htx]. unfold seg_send_start.
  pose proof (Forall_lookup_1 _ _ _ _ (tok_tx _ _ H) Htx) as Hok.
  apply wp_bind. rewrite (st_id i tx t Htx) at 1. apply wp_get_tx; [done|]. rewrite <- (st_id i tx t Htx).
  assert (forall t', trans_ok pool t' -> length (tr_seg_tx t') = length (tr_seg_tx t) ->
    wp (match err with None => mret tt | Some _ => schedule_retransmit i end) (fun _ => trans_ok pool) t') as Hend.
  { intros t' H' L. destruct err; [apply schedule_ok; [done|by rewrite L]|by apply wp_ret]. }
  apply wp_bind. destruct (stx_cb tx) as [cb|]; [|by apply wp_ret, Hend]. wp_if; [|by apply wp_ret, Hend].
  rewrite (st_id i tx t Htx). apply wp_bind, wp_event, wp_set_tx. apply Hend; [|cbn; by rewrite length_insert].
  apply (st_ok pool i tx); [done..| |done|apply net_frame_refl]. by apply (tx_ok_same _ tx).
Qed.

(** *** Access messages *)

Lemma subnet_get_lt net_idx table j : bt_mesh_subnet_get net_idx table = Some j -> (j < length (subs table))%nat.
Proof. intros H. apply find_index_Some in H as [(x & Hx & _) _]. by eapply lookup_lt_Some. Qed.

Ltac fin := eexists; split; [reflexivity|done].

Lemma resolve_defined ctx comp cdb dev_key table s :
  comp_elem comp <> [] ->
  exists r, bt_mesh_keys_resolve config_cdb ctx comp cdb dev_key table s = Some r /\
    match r with inl _ => True | inr (j, _, _) => (j < length (subs table))%nat end.
Proof.
  intros Hc. unfold bt_mesh_keys_resolve. destruct (BT_MESH_IS_DEV_KEY _).
  - destruct (bt_mesh_subnet_get (ctx_net_idx ctx) table) as [j|] eqn:E; [|fin]. apply subnet_get_lt in E.
    destruct (_ =? _); [|fin].
    assert (is_Some (bt_mesh_elem_find comp (ctx_addr ctx))) as [e ->].
    { unfold bt_mesh_elem_find. destruct (BT_MESH_ADDR_IS_UNICAST _); [|done]. by destruct (comp_elem comp). }
    repeat case_match; fin.
  - destruct (app_get _ s ≫= _) as [a|]; [|fin].
    destruct (bt_mesh_subnet_get (app_net_idx a) table) as [j|] eqn:E; cbn; [|fin]. apply subnet_get_lt in E.
    destruct (lookup_lt_is_Some_2 _ _ E) as [sub ->]. cbn. fin.
Qed.

(** The size of the MIC chosen for a message. *)
Definition sends_rel (tx : bt_mesh_net_tx) (msg : net_buf_simple) : bool :=
  ctx_send_rel (tx_ctx tx) || (BT_MESH_SDU_UNSEG_MAX <? buf_len msg)%nat.
Definition mic_size (tx : bt_mesh_net_tx) (msg : net_buf_simple) : nat :=
  if sends_rel tx msg && (8 <=? net_buf_simple_tailroom msg)%nat then 8 else 4.

(** What [bt_mesh_trans_send] makes of its argument before it sends: the TTL is resolved,
    long messages are segmented, and the key decides subnet and identifier. *)
Definition send_rel_tx (msg : net_buf_simple) (tx : bt_mesh_net_tx) : bt_mesh_net_tx :=
  if (BT_MESH_SDU_UNSEG_MAX <? buf_len msg)%nat then set_ctx (fun c => c <| ctx_send_rel := true |>) tx else tx.

Definition send_key_tx (t : trans F) (msg : net_buf_simple) (j : nat) (aid : Z) (tx : bt_mesh_net_tx) : bt_mesh_net_tx :=
  tx <| tx_sub := j |> <| tx_xmit := net_xmit (tr_net t) |> <| tx_aid := Z.land aid AID_MASK |>
     <| tx_aszmic := ctx_send_rel (tx_ctx tx) && (8 <=? net_buf_simple_tailroom msg)%nat |>.

Definition send_crypto (t : trans F) (tx : bt_mesh_net_tx) : bt_mesh_app_crypto_ctx :=
  let dst := ctx_addr (tx_ctx tx) in
  mkAppCtx (BT_MESH_IS_DEV_KEY (ctx_app_idx (tx_ctx tx))) (if tx_aszmic tx then 1 else 0) (tx_src tx) dst
    (net_seq (tr_net t)) (BT_MESH_NET_IVI_TX (tr_net t))
    (if BT_MESH_ADDR_IS_VIRTUAL dst then bt_mesh_va_label_get dst t else None).

Definition send_allowed (tx : bt_mesh_net_tx) : bool :=
  let dst := ctx_addr (tx_ctx tx) in
  negb ((dst =? BT_MESH_ADDR_UNASSIGNED)
        || (negb (BT_MESH_ADDR_IS_UNICAST dst) && BT_MESH_IS_DEV_KEY (ctx_app_idx (tx_ctx tx)))).

Definition resolve_keys (t : trans F) (tx : bt_mesh_net_tx) : option (errno + nat * bytes * Z) :=
  bt_mesh_keys_resolve config_cdb (tx_ctx tx) (net_comp (tr_net t)) (tr_cdb t) (tr_dev_key t) (net_subnets (tr_net t)) (tr_apps t).

(** The message that is sent in the end, encrypted. *)
Lemma trans_send_run tx msg cb t tx1 j key aid :
  buf_wf msg -> (1 <= buf_len msg <= BT_MESH_TX_SDU_MAX)%nat -> (4 <= net_buf_simple_tailroom msg)%nat ->
  resolve_ttl (tr_default_ttl t) tx = Some tx1 ->
  let tx2 := send_rel_tx msg tx1 in
  let tx3 := send_key_tx t msg j aid tx2 in
  send_allowed tx2 = true -> resolve_keys t tx2 = Some (inr (j, key, aid)) ->
  exists msg', contents msg' = app_sealed key (send_crypto t tx3) (contents msg) /\ buf_wf msg' /\
    bt_mesh_trans_send config_proxy config_friend config_cdb proxy_relay adv_buffer tx msg cb t =
    (if ctx_send_rel (tx_ctx tx2)
     then send_seg config_proxy config_friend config_cdb proxy_relay adv_buffer tx3 msg' cb None
     else send_unseg config_proxy config_friend config_cdb proxy_relay adv_buffer tx3 (contents msg') cb None) t.
Proof.
  intros W Hl Ht Er tx2 tx3 Ha Ek. unfold bt_mesh_trans_send.
  rewrite (proj2 (Nat.ltb_ge _ _)), (proj2 (Nat.ltb_ge _ _)), (proj2 (Nat.ltb_ge _ _)) by lia.
  rewrite bind_gets, Er. cbv zeta. fold (send_rel_tx msg tx1). fold tx2. unfold send_allowed in Ha. apply negb_true_iff in Ha.
  cbv zeta in Ha. rewrite Ha. rewrite bind_gets. fold (resolve_keys t tx2). rewrite Ek. cbn [need]. rewrite bind_ret. cbv iota.
  rewrite bind_gets. fold (send_key_tx t msg j aid tx2). fold tx3. rewrite bind_gets. unfold trans_encrypt. cbv zeta. fold (send_crypto t tx3).
  destruct (app_encrypt_ok key (send_crypto t tx3) msg W) as (msg' & Ee & Cm & Wm & _).
  { unfold BT_MESH_TX_SDU_MAX, CONFIG_BT_MESH_TX_SEG_MAX, BT_MESH_APP_SEG_SDU_MAX in Hl. lia. }
  { change (ac_aszmic (send_crypto t tx3)) with
      (if ctx_send_rel (tx_ctx tx2) && (8 <=? net_buf_simple_tailroom msg)%nat then 1 else 0).
    destruct (ctx_send_rel (tx_ctx tx2) && _) eqn:E; [|exact Ht]. apply andb_true_iff in E as [_ E]. by apply Nat.leb_le in E. }
  exists msg'. split; [done|]. split; [done|]. rewrite Ee. cbn [need]. rewrite bind_ret. cbv beta iota.
  change (ctx_send_rel (tx_ctx tx3)) with (ctx_send_rel (tx_ctx tx2)). done.
Qed.

Lemma resolve_ttl_some d tx tx1 :
  0 <= d < 128 -> 0 <= ctx_send_ttl (tx_ctx tx) -> resolve_ttl d tx = Some tx1 ->
  0 <= ctx_send_ttl (tx_ctx tx1) < 128 /\ ctx_app_idx (tx_ctx tx1) = ctx_app_idx (tx_ctx tx) /\
  ctx_send_rel (tx_ctx tx1) = ctx_send_rel (tx_ctx tx).
Proof.
  intros Hd Ht. unfold resolve_ttl, BT_MESH_TTL_MAX. destruct (_ =? _); [by intros [= <-]|].
  destruct (127 <? _) eqn:E; [done|]. intros [= <-]. zbool. split; [lia|done].
Qed.

(** The length after encryption. *)
Lemma sealed_length t tx1 tx msg j aid key :
  buf_wf msg -> ctx_send_rel (tx_ctx tx1) = ctx_send_rel (tx_ctx tx) ->
  length (app_sealed key (send_crypto t (send_key_tx t msg j aid (send_rel_tx msg tx1))) (contents msg)) =
  (buf_len msg + mic_size tx msg)%nat.
Proof.
  intros W Es. set (tx2 := send_rel_tx msg tx1).
  assert (ctx_send_rel (tx_ctx tx2) = sends_rel tx msg) as E2.
  { unfold tx2, send_rel_tx, sends_rel. destruct (_ <? _)%nat; cbn; rewrite ?Es, ?orb_true_r, ?orb_false_r; done. }
  set (ctx := send_crypto _ _). assert (APP_MIC_LEN (ac_aszmic ctx) = mic_size tx msg) as Hm.
  { change (ac_aszmic ctx) with (if ctx_send_rel (tx_ctx tx2) && (8 <=? net_buf_simple_tailroom msg)%nat then 1 else 0).
    rewrite E2. unfold mic_size. by destruct (sends_rel tx msg && _). }
  unfold app_sealed. rewrite length_app, length_ctr, length_ccm_mac, length_contents, Hm; try done.
  pose proof (app_mic_len (ac_aszmic ctx)). lia.
Qed.

Lemma trans_send_ok pool tx msg cb t :
  trans_ok pool t -> buf_wf msg -> 0 <= ctx_send_ttl (tx_ctx tx) -> ctx_app_idx (tx_ctx tx) <> BT_MESH_KEY_UNUSED ->
  (buf_len msg + mic_size tx msg <= BT_MESH_TX_SDU_MAX)%nat ->
  wp (bt_mesh_trans_send config_proxy config_friend config_cdb proxy_relay adv_buffer tx msg cb) (fun _ => trans_ok pool) t.
Proof.
  intros H W Ht Ha Hl.
  destruct (decide (1 <= buf_len msg)%nat) as [L1|L1].
  2: { unfold bt_mesh_trans_send. rewrite (proj2 (Nat.ltb_lt _ _)) by lia. by apply wp_ret. }
  destruct (decide (4 <= net_buf_simple_tailroom msg)%nat) as [L2|L2].
  2: { unfold bt_mesh_trans_send. wp_if; [by apply wp_ret|]. wp_if; [by apply wp_ret|].
       rewrite (proj2 (Nat.ltb_lt _ _)) by lia. by apply wp_ret. }
  destruct (resolve_ttl (tr_default_ttl t) tx) as [tx1|] eqn:Er.
  2: { unfold bt_mesh_trans_send. do 3 (wp_if; [by apply wp_ret|]). apply wp_bind, wp_gets. rewrite Er. by apply wp_ret. }
  destruct (resolve_ttl_some _ _ _ (tok_ttl _ _ H) Ht Er) as (Ht1 & Ea & Es).
  set (tx2 := send_rel_tx msg tx1).
  assert (ctx_app_idx (tx_ctx tx2) = ctx_app_idx (tx_ctx tx) /\ ctx_send_rel (tx_ctx tx2) = sends_rel tx msg /\
          ctx_send_ttl (tx_ctx tx2) = ctx_send_ttl (tx_ctx tx1)) as (Ea2 & Es2 & Et2).
  { unfold tx2, send_rel_tx, sends_rel. destruct (_ <? _)%nat; cbn; rewrite ?Es, ?orb_true_r, ?orb_false_r; done. }
  destruct (send_allowed tx2) eqn:Ead.
  2: { unfold bt_mesh_trans_send. do 3 (wp_if; [by apply wp_ret|]). apply wp_bind, wp_gets. rewrite Er. cbv zeta.
       fold (send_rel_tx msg tx1). fold tx2. unfold send_allowed in Ead. apply negb_false_iff in Ead. cbv zeta in Ead.
       rewrite Ead. by apply wp_ret. }
  destruct (resolve_defined (tx_ctx tx2) (net_comp (tr_net t)) (tr_cdb t) (tr_dev_key t) (net_subnets (tr_net t)) (tr_apps t))
    as (r & Ek & Hr); [apply H|]. destruct r as [err|[[j key] aid]].
  { unfold bt_mesh_trans_send. do 3 (wp_if; [by apply wp_ret|]). apply wp_bind, wp_gets. rewrite Er. cbv zeta.
    fold (send_rel_tx msg tx1). fold tx2. wp_if; [by apply wp_ret|]. apply wp_bind, wp_gets. rewrite Ek. apply wp_bind.
    eapply wp_need; [done|]. by apply wp_ret. }
  destruct (trans_send_run tx msg cb t tx1 j key aid) as (msg' & Cm & Wm & E); try done; [lia|]. fold tx2 in Cm, E.
  pose proof (sealed_length t tx1 tx msg j aid key W Es) as Lm. fold tx2 in Lm. rewrite <- Cm in Lm.
  apply (wp_eq _ _ _ _ E). rewrite Es2. clear E.
  unfold BT_MESH_TX_SDU_MAX, CONFIG_BT_MESH_TX_SEG_MAX, BT_MESH_APP_SEG_SDU_MAX in Hl. cbn [Nat.mul Nat.add] in Hl. wp_if.
  - apply (send_seg_kept _ _ _ _ _ (subnet_count t)); try done.
    + apply H.
    + intros k. by apply (tok_ready pool).
    + cbn. by rewrite Et2.
    + cbn [is_ctl_op]. rewrite <- length_contents by done. lia.
    + intros i tx'. by apply kept_ok.
  - apply send_unseg_safe; [done|apply (tok_ready pool t j H Hr)| | |by apply net_only_ok].
    + cbn. by rewrite Et2.
    + rewrite Lm. unfold is_ctl. change (ctx_app_idx (tx_ctx (send_key_tx _ _ _ _ tx2))) with (ctx_app_idx (tx_ctx tx2)). rewrite Ea2.
      rewrite (proj2 (Z.eqb_neq _ _) Ha). unfold mic_size. rewrite E. unfold sends_rel in E.
      apply orb_false_iff in E as [_ E]. apply Nat.ltb_ge in E. unfold BT_MESH_SDU_UNSEG_MAX in E. cbn [andb]. lia.
Qed.
End Safety.
