(* ===== verification/TransportRecv.v ===== *)
(** * Safety of reception

    The operations of the transport layer that receive: acknowledgements, control
    messages, reassembly, decryption and delivery, the acknowledgement timer, and the
    network layer that feeds them with whatever arrives on the bearer. *)

From S2P Require Import Prelude ByteOrder MeshDefs Cdb NetBuf Access Rpl Ccm MeshCrypto Subnet AppKeys Net NetProps NetRecv Transport TransportProps TransportSafe.

Section Reception.
Context {ecb : Ecb} {ecb_ok : EcbOk} {cmac : Cmac} (config_proxy config_friend config_cdb : bool).
Context (proxy_relay : bytes -> Z -> bt_mesh_net -> bool) (adv_buffer : bt_mesh_net -> bool).
Context {F : Type} {friend : FriendOps F} {idle : FriendIdle friend}.
Context (subnets_max pool : nat).

Abbreviation OK := (trans_ok (F := F) subnets_max pool).

(** Only the network layer, in its frame, and the log have changed. *)
Definition net_change (t t' : trans F) : Prop :=
  exists n' lg', net_sent (tr_net t) n' /\ t' = t <| tr_net := n' |> <| tr_log := lg' |>.

Lemma net_change_only t : net_only (net_change t) t.
Proof. intros n' lg' Hf. by exists n', lg'. Qed.

Lemma net_change_ok t t' : OK t -> net_change t t' -> OK t' /\ subnet_count t' = subnet_count t /\ tr_seg_rx t' = tr_seg_rx t.
Proof.
  intros H (n' & lg' & Hf & ->). split; [by apply net_only_ok|]. destruct Hf as ((Hs & _) & _).
  unfold subnet_count. cbn. by rewrite Hs.
Qed.

(** ** The receiving contexts *)

Lemma rx_lookup t i : OK t -> (i < 3)%nat -> exists rx, tr_seg_rx t !! i = Some rx /\ rx_ok (subnet_count t) rx.
Proof.
  intros H Hi. destruct (lookup_lt_is_Some_2 (tr_seg_rx t) i) as [rx Hrx].
  { by rewrite (proj2 (tok_count _ _ _ H)). }
  exists rx. split; [done|]. exact (Forall_lookup_1 _ _ _ _ (tok_rx _ _ _ H) Hrx).
Qed.

Lemma rx_index t i rx : OK t -> tr_seg_rx t !! i = Some rx -> (i < length (tr_seg_rx t))%nat /\ (i < 3)%nat.
Proof.
  intros H Hi. apply lookup_lt_Some in Hi. pose proof (proj2 (tok_count _ _ _ H)) as L.
  unfold CONFIG_BT_MESH_RX_SEG_MSG_COUNT in L. lia.
Qed.

Lemma rx_reset_ok t i full : OK t -> (i < 3)%nat -> wp (seg_rx_reset config_friend i full) (fun _ => OK) t.
Proof.
  intros H Hi. destruct (rx_lookup t i H Hi) as (rx & Hrx & Hok). destruct (rx_index t i rx H Hrx) as [Hl _].
  rewrite (srt_id i rx t Hrx). apply (wp_rx_reset _ (subnet_count t)); [done..|]. intros l Ll El.
  apply (srt_ok subnets_max pool i rx); try done; [by apply reset_rx_ok|]. unfold reset_rx. destruct full; cbn; lia.
Qed.

(** An update of a context that leaves its segments alone. *)
Lemma rx_ok_same count rx rx' :
  rx_ok count rx ->
  (srx_seg rx', srx_seg_n rx', srx_in_use rx', srx_block rx', srx_len rx', srx_ctl rx', srx_sub rx', srx_ttl rx', srx_obo rx') =
  (srx_seg rx, srx_seg_n rx, srx_in_use rx, srx_block rx, srx_len rx, srx_ctl rx, srx_sub rx, srx_ttl rx, srx_obo rx) ->
  (is_Some (srx_ack rx') -> srx_in_use rx = true) -> rx_ok count rx'.
Proof.
  intros [H1 H2 H3 H4 H5 H6 H7 H8 H9 H10] [= E1 E2 E3 E4 E5 E6 E7 E8 E9] Ha.
  split; rewrite ?E1, ?E2, ?E3, ?E4, ?E5, ?E6, ?E7, ?E8, ?E9; done.
Qed.

(** The contexts besides [i] are as before. *)
Definition others_kept (i : nat) (t t' : trans F) : Prop :=
  forall k, k <> i -> tr_seg_rx t' !! k = tr_seg_rx t !! k.

(** The acknowledgement work runs only for contexts in use, and changes only its own. *)
Lemma seg_ack_kept t now i rx :
  OK t -> tr_seg_rx t !! i = Some rx -> is_Some (srx_ack rx) ->
  wp (seg_ack config_proxy config_friend config_cdb proxy_relay adv_buffer now i)
    (fun _ t' => OK t' /\ others_kept i t t') t.
Proof.
  intros H Hrx Ha. pose proof (Forall_lookup_1 _ _ _ _ (tok_rx _ _ _ H) Hrx) as Hok. destruct (rx_index t i rx H Hrx) as [Hl Hi].
  pose proof (rxo_ack _ _ Hok Ha) as Hu. unfold seg_ack.
  match goal with |- wp ?m ?Q t => cut (wp m Q (srt i rx (tr_segs_free t) t)); [by rewrite <- (srt_id i rx t Hrx)|] end.
  assert (forall a, OK (srt i (rx <| srx_ack := a |>) (tr_segs_free t) t)) as Hset.
  { intros a. apply (srt_ok subnets_max pool i rx); try done. by apply (rx_ok_same _ rx). }
  apply wp_bind, wp_set_rx, wp_bind, wp_get_rx; [done|]. wp_if.
  { apply (wp_rx_reset _ (subnet_count t)); [done|by apply (rx_ok_same _ rx)|]. intros l Ll El. split.
    - apply (srt_ok subnets_max pool i rx); try done; [by apply reset_rx_ok; [apply (rx_ok_same _ rx)|..]|cbn; lia].
    - intros k Hk. cbn. by apply list_lookup_insert_ne. }
  destruct (rxo_sub _ _ Hok Hu) as (j & Hj & Hlt). change (srx_sub (rx <| srx_ack := None |>)) with (srx_sub rx).
  rewrite Hj. apply wp_bind. eapply wp_need; [done|]. apply wp_bind.
  specialize (Hset None) as H0. set (t0 := srt i _ _ t) in *.
  eapply wp_mono; [apply (send_ack_safe _ _ _ _ _ _ _ _ _ _ _ _ (net_change t0))|].
  - exact (tok_ready subnets_max pool t0 j H0 Hlt).
  - apply H0.
  - apply (rxo_ttl _ _ Hok).
  - apply net_change_only.
  - cbv beta. intros _ t1 (n' & lg' & Hf & ->). apply wp_bind, wp_gets.
    unfold set_rx. apply wp_modify. pose proof (net_only_ok subnets_max pool _ (Hset (Some (ack_timeout (tr_default_ttl t) rx))) n' lg' Hf) as HQ.
    unfold t0, srt, assign, others_kept in *. cbn in *. rewrite alter_insert. split; [done|]. intros k Hk. by apply list_lookup_insert_ne.
Qed.
(** ** Acknowledgements *)

Lemma lookup_loop_some seq_zero addr obo i l j b :
  seg_tx_lookup_loop seq_zero addr obo i l = Some (j, b) -> (i <= j < i + length l)%nat.
Proof.
  revert i. induction l as [|tx l IH]; intros i; cbn [seg_tx_lookup_loop length]; [done|]. intros H.
  destruct (negb _); [apply IH in H; lia|]. destruct (_ =? _); [injection H as -> _; lia|].
  destruct (obo && _); [injection H as -> _; lia|]. apply IH in H. lia.
Qed.

(** Freeing one acknowledged segment. *)
Lemma done_ok count k b tx :
  tx_ok count tx -> stx_seg tx !! k = Some (Some b) ->
  let tx' := tx <| stx_seg := <[k := None]> (stx_seg tx) |> <| stx_nack_count := u8 (stx_nack_count tx - 1) |> in
  tx_ok count tx' /\ S (blocks (stx_seg tx')) = blocks (stx_seg tx).
Proof.
  intros [[H1 H2 H3 H4] H5 H6 H7 H8 H9] Hk tx'. pose proof (blocks_insert_none _ _ _ Hk) as Hb.
  pose proof (blocks_le tx (Build_tx_shape tx H1 H2 H3 H4)) as Hle. split; [|done].
  split; cbn; try done.
  - split; cbn; try done.
    + by rewrite length_insert.
    + intros j Hj. unfold seg_none. destruct (decide (j = k)) as [->|N].
      * right. apply list_lookup_insert_eq. by eapply lookup_lt_Some.
      * rewrite list_lookup_insert_ne by done. by apply H3.
    + intros j c Hj. destruct (decide (j = k)) as [->|N].
      * rewrite list_lookup_insert_eq in Hj by (by eapply lookup_lt_Some). done.
      * rewrite list_lookup_insert_ne in Hj by done. by apply H4.
  - rewrite u8_id by (unfold is_u8; lia). lia.
  - rewrite u8_id by (unfold is_u8; lia). intros _. apply H9. lia.
Qed.

Lemma wp_ack_segments count i ack tx free n lg (Q : unit -> trans F -> Prop) t :
  (i < length (tr_seg_tx t))%nat -> tx_ok count tx -> 0 < ack -> Z.log2 ack <= stx_seg_n tx ->
  (forall tx' free', tx_ok count tx' -> (free' + blocks (stx_seg tx') = free + blocks (stx_seg tx))%nat ->
     Q tt (st i tx' free' n lg t)) ->
  wp (ack_segments i ack) Q (st i tx free n lg t).
Proof.
  intros Hi Hok Hp Ha HQ. unfold ack_segments.
  set (I := fun (_ : nat) t' => exists tx' free', t' = st i tx' free' n lg t /\ tx_ok count tx' /\
              (free' + blocks (stx_seg tx') = free + blocks (stx_seg tx))%nat /\ stx_seg_n tx' = stx_seg_n tx).
  eapply wp_mono; [apply (wp_for_loop I)|]; [by exists tx, free| |].
  - intros k t' _ (tx' & free' & -> & Hok' & Hb & Hn). apply wp_when; intros Hbit; [|by exists tx', free'].
    assert (k < length (stx_seg tx'))%nat as Hk.
    { destruct (Z.lt_ge_cases (Z.log2 ack) (Z.of_nat k)) as [H|H]; [by rewrite Z.bits_above_log2 in Hbit by lia|].
      pose proof (txs_n tx' Hok') as H2. rewrite (txs_len tx' Hok'). lia. }
    destruct (lookup_lt_is_Some_2 _ _ Hk) as [seg Hseg].
    apply wp_bind, wp_get_tx; [done|]. apply wp_bind. eapply wp_need; [done|].
    apply wp_when; intros E; [|by exists tx', free']. destruct seg as [b|]; [|done].
    destruct (done_ok count k b tx' Hok' Hseg) as [H1 H2]. apply wp_done. eexists _, _. split; [done|].
    split; [done|]. split; [lia|done].
  - cbv beta. intros [] t' (tx' & free' & -> & H1 & H2 & _). by apply HQ.
Qed.

Lemma trans_ack_ok t rx buf :
  OK t ->
  wp (trans_ack config_proxy config_friend config_cdb proxy_relay adv_buffer rx buf) (fun _ => OK) t.
Proof.
  intros H. unfold trans_ack. wp_if; [by apply wp_ret|]. cbv zeta. wp_if; [by repeat wp_step|].
  apply wp_bind. unfold seg_tx_lookup. apply wp_bind, wp_gets.
  destruct (seg_tx_lookup_loop _ _ _ _ _) as [[i replace]|] eqn:El; [|by repeat wp_step].
  apply lookup_loop_some in El. destruct (lookup_lt_is_Some_2 (tr_seg_tx t) i) as [tx Htx]; [lia|].
  pose proof (Forall_lookup_1 _ _ _ _ (tok_tx _ _ _ H) Htx) as Hok.
  assert (i < length (tr_seg_tx t))%nat as Hi by lia. rewrite (st_id i tx t Htx). apply wp_bind.
  pose proof (kept_ok subnets_max pool i tx t H Htx) as HK.
  assert (forall tx', tx_ok (subnet_count t) tx' -> stx_seg tx' = stx_seg tx -> stx_seg_n tx' = stx_seg_n tx ->
    wp (tx ← get_tx i;
        if negb (BT_MESH_ADDR_IS_UNICAST (stx_dst tx)) then mret (Some EINVAL, None)
        else if u32 (sys_get_be32 (drop 2 buf)) =? 0
        then _ ← seg_tx_complete config_proxy config_friend config_cdb i (Some ECANCELED); mret (None, Some (stx_seq_auth tx))
        else if stx_seg_n tx <? Z.log2 (u32 (sys_get_be32 (drop 2 buf))) then mret (Some EINVAL, Some (stx_seq_auth tx))
        else
          _ ← set_tx (fun tx => tx <| stx_retransmit := None |>) i;
          _ ← ack_segments i (u32 (sys_get_be32 (drop 2 buf)));
          tx0 ← get_tx i;
          _ ← (if negb (stx_nack_count tx0 =? 0)
               then seg_tx_send_unacked config_proxy config_friend config_cdb proxy_relay adv_buffer i
               else seg_tx_complete config_proxy config_friend config_cdb i None);
          mret (None, Some (stx_seq_auth tx)))
      (fun _ => OK) (st i tx' (tr_segs_free t) (tr_net t) (tr_log t) t)) as Hgo.
  { intros tx' Hok' Es En. apply wp_bind, wp_get_tx; [done|].
    assert (OK (st i tx' (tr_segs_free t) (tr_net t) (tr_log t) t)) as H0.
    { apply (st_ok subnets_max pool i tx); try done. by rewrite Es. }
    wp_if; [by apply wp_ret|]. wp_if; [|wp_if; [by apply wp_ret|]].
    { apply (wp_then (fun _ => _)), (complete_kept _ _ _ (subnet_count t) i); [done..|].
      intros tx1 free1 n1 lg1 t1 A1 A2 A3 A4. apply HK; try done. by rewrite A2, Es. }
    zbool. apply wp_bind, wp_set_tx, wp_bind. apply (wp_ack_segments (subnet_count t)); try done.
    { by apply (tx_ok_same _ tx'). }
    { pose proof (u32_range (sys_get_be32 (drop 2 buf))) as R. unfold is_u32 in R. lia. }
    intros tx2 free2 Hok2 Hb2. cbn in Hb2. apply wp_bind, wp_get_tx; [done|].
    assert (kept (subnet_count t) i tx2 free2 (tr_net t) t OK) as HK2.
    { intros tx1 free1 n1 lg1 t1 A1 A2 A3 A4. apply HK; try done. by rewrite A2, Hb2, Es. }
    apply (wp_then (fun _ => _)). wp_if; [apply (send_unacked_kept _ _ _ _ _ (subnet_count t))|apply (complete_kept _ _ _ (subnet_count t))]; try done.
    intros j. by apply (tok_ready subnets_max pool). }
  apply wp_when; intros _; [apply wp_set_tx|]; apply wp_ret; apply Hgo; try done. by apply (tx_ok_same _ tx).
Qed.
(** ** Decryption *)

(** Trying keys keeps what every try keeps. *)
Lemma key_find_safe {S : Type} (J : S -> Prop) (cb : bytes -> ST S bool) dev aid rx cdb dev_key table apps s :
  (forall key s, J s -> wp (cb key) (fun _ => J) s) -> (rx_sub rx < length (subs table))%nat -> J s ->
  wp (bt_mesh_app_key_find config_cdb cb dev aid rx cdb dev_key table apps) (fun _ => J) s.
Proof.
  intros Hcb Hsub HJ. unfold bt_mesh_app_key_find. destruct dev.
  - apply (wp_seq J).
    { destruct (config_cdb && _); [|by apply wp_ret]. destruct (_ ≫= _); [by apply Hcb|by apply wp_ret]. }
    intros remote s' Hs. wp_if; [by apply wp_ret|]. wp_if; [|by apply wp_ret].
    apply (wp_then (fun ok : bool => _)). by apply Hcb.
  - destruct (lookup_lt_is_Some_2 _ _ Hsub) as [sub Hs]. apply wp_bind. eapply wp_need; [done|].
    generalize (AppKeys.apps apps). intros l. revert s HJ.
    induction l as [|a l IH]; intros s HJ; cbn [app_key_find_loop]; [by apply wp_ret|].
    destruct (_ || _); [by apply IH|]. apply (wp_seq J); [by apply Hcb|]. intros ok s' Hs'. wp_if; [by apply wp_ret|by apply IH].
Qed.

Lemma try_decrypt_safe crypto buf key sdu :
  (buf_len buf <= 11)%nat -> (buf_data buf + buf_len buf + APP_MIC_LEN (ac_aszmic crypto) <= buf_size buf)%nat ->
  buf_size sdu = 11%nat -> wp (sdu_try_decrypt crypto buf key) (fun _ s => buf_size s = 11%nat) sdu.
Proof.
  intros Hl Hb Hs. unfold sdu_try_decrypt. apply wp_bind, wp_modify, wp_bind, wp_gets. unfold id.
  destruct (app_decrypt_defined key crypto buf (net_buf_simple_reset sdu)) as (err & out & E & S); try done; [lia| |].
  { cbn. unfold buf_size in *. cbn. lia. }
  rewrite E. apply wp_bind. eapply wp_need; [done|]. apply wp_bind, wp_modify, wp_ret. rewrite S. done.
Qed.

(** ** Reassembly *)

(** All segments are there, with the sizes of a message of [srx_len] bytes. *)
Record rx_full (rx : seg_rx) : Prop := {
  rxf_n : 0 <= srx_seg_n rx < Z.of_nat CONFIG_BT_MESH_RX_SEG_MAX;
  rxf_seg k : (k <= Z.to_nat (srx_seg_n rx))%nat -> exists b, srx_seg rx !! k = Some (Some b);
  rxf_size k b : srx_seg rx !! k = Some (Some b) ->
    if decide (k = Z.to_nat (srx_seg_n rx))
    then (srx_len rx = k * seg_len (srx_ctl rx) + length b)%nat /\ (length b <= seg_len (srx_ctl rx))%nat
    else length b = seg_len (srx_ctl rx);
}.

(** The first [k] segments. *)
Definition rx_joined (rx : seg_rx) (k : nat) : bytes := concat (omap id (take k (srx_seg rx))).

Lemma joined_step rx k b : srx_seg rx !! k = Some (Some b) -> rx_joined rx (S k) = rx_joined rx k ++ b.
Proof.
  intros H. unfold rx_joined. rewrite (take_S_r _ _ _ H), omap_app, concat_app. cbn. by rewrite app_nil_r.
Qed.

Lemma length_joined rx k : rx_full rx -> (k <= Z.to_nat (srx_seg_n rx))%nat -> length (rx_joined rx k) = (k * seg_len (srx_ctl rx))%nat.
Proof.
  intros [Hn Hs Hz]. induction k as [|k IH]; intros Hk; [done|]. destruct (Hs k) as [b Hb]; [lia|].
  rewrite (joined_step _ _ _ Hb), length_app, IH by lia. specialize (Hz k b Hb). rewrite decide_False in Hz by lia. lia.
Qed.

Lemma length_rx_all rx : rx_full rx -> length (rx_joined rx (S (Z.to_nat (srx_seg_n rx)))) = srx_len rx.
Proof.
  intros H. destruct (rxf_seg _ H (Z.to_nat (srx_seg_n rx))) as [b Hb]; [done|].
  rewrite (joined_step _ _ _ Hb), length_app, length_joined by done.
  pose proof (rxf_size _ H _ _ Hb) as Hz. rewrite decide_True in Hz by done. lia.
Qed.

Lemma seg_bytes_ok rx k b : rx_full rx -> (k <= Z.to_nat (srx_seg_n rx))%nat -> srx_seg rx !! k = Some (Some b) -> rx_seg_bytes rx k = Some b.
Proof.
  intros H Hk Hb. pose proof (rxf_size _ H _ _ Hb) as Hz. destruct (rxf_seg _ H (Z.to_nat (srx_seg_n rx))) as [c Hc]; [done|].
  pose proof (rxf_size _ H _ _ Hc) as Hzc. rewrite decide_True in Hzc by done.
  unfold rx_seg_bytes. rewrite Hb. cbn [mbind option_bind]. cbv zeta.
  assert (Z.min (Z.of_nat (seg_len (srx_ctl rx))) (Z.of_nat (srx_len rx) - Z.of_nat (k * seg_len (srx_ctl rx))) = Z.of_nat (length b)) as ->.
  { case_decide; [subst; lia|]. assert (S k <= Z.to_nat (srx_seg_n rx))%nat by lia.
    assert (S k * seg_len (srx_ctl rx) <= Z.to_nat (srx_seg_n rx) * seg_len (srx_ctl rx))%nat by (by apply Nat.mul_le_mono_r). lia. }
  rewrite (proj2 (Z.ltb_ge _ _)) by lia. unfold block_read. rewrite Nat2Z.id, Nat.leb_refl. by rewrite take_ge by lia.
Qed.

Lemma assemble_ok rx aszmic cap :
  rx_full rx -> (srx_len rx <= cap)%nat -> (srx_ctl rx = false -> (APP_MIC_LEN aszmic <= srx_len rx)%nat) ->
  exists b, seg_rx_assemble rx aszmic (mkBuf 0 0 (replicate cap 0)) = Some (tt, b) /\ buf_data b = 0%nat /\
    buf_size b = cap /\ buf_len b = (if srx_ctl rx then srx_len rx else srx_len rx - APP_MIC_LEN aszmic)%nat /\
    take (srx_len rx) (buf_mem b) = rx_joined rx (S (Z.to_nat (srx_seg_n rx))).
Proof.
  intros H Hcap Hmic. unfold seg_rx_assemble. set (seg_n := Z.to_nat (srx_seg_n rx)).
  set (I := fun k b => (k <= S seg_n)%nat /\ buf_wf b /\ abs b = mkAbuf 0 (rx_joined rx k) (cap - length (rx_joined rx k))).
  assert (wp (for_loop (S seg_n) 0 (fun i => data ← need (rx_seg_bytes rx i); _ ← net_buf_simple_add_mem data; mret tt))
            (fun _ => I (0 + S seg_n)%nat) (mkBuf 0 0 (replicate cap 0))) as Hloop.
  { apply wp_for_loop.
    - unfold I. split; [lia|]. unfold buf_wf, abs, contents, net_buf_simple_headroom, net_buf_simple_tailroom, net_buf_simple_headroom, buf_size.
      cbn. rewrite !length_replicate, !Nat.sub_0_r. split; [lia|done].
    - intros k b Hk (_ & W & A). destruct (rxf_seg _ H k) as [c Hc]; [lia|]. apply wp_bind.
      eapply wp_need; [apply seg_bytes_ok; [done|lia|done]|].
      assert (length (rx_joined rx k) + length c <= cap)%nat as Hroom.
      { rewrite <- length_app, <- (joined_step _ _ _ Hc). destruct (decide (k = seg_n)) as [->|].
        - unfold seg_n. by rewrite length_rx_all.
        - rewrite length_joined by (done || lia). pose proof (length_joined rx seg_n H ltac:(done)) as L1.
          pose proof (length_rx_all rx H) as L2. fold seg_n in L2. destruct (rxf_seg _ H seg_n) as [d Hd]; [done|].
          rewrite (joined_step _ _ _ Hd), length_app in L2.
          assert (S k * seg_len (srx_ctl rx) <= seg_n * seg_len (srx_ctl rx))%nat by (apply Nat.mul_le_mono_r; lia). lia. }
      destruct (add_mem_ok c b 0 (rx_joined rx k) (cap - length (rx_joined rx k))) as (p & b' & E & A' & W'); [done|done|lia|].
      apply wp_bind. eapply wp_some; [exact E|]. apply wp_ret. split; [lia|]. split; [done|].
      rewrite (joined_step _ _ _ Hc), A', length_app. f_equal. lia. }
  rewrite bind_modify. change (net_buf_simple_reset _) with (mkBuf 0 0 (replicate cap 0)).
  destruct Hloop as ([] & b & E & _ & W & A). rewrite (bind_some _ _ _ _ _ E). cbn [Nat.add] in A.
  pose proof (length_rx_all rx H) as L. fold seg_n in L. pose proof (abs_len _ _ _ _ W A) as Lb. injection A as Hh Hcont Htl.
  unfold net_buf_simple_tailroom, net_buf_simple_headroom, buf_wf in *. assert (buf_size b = cap) as Sz by lia.
  assert (take (srx_len rx) (buf_mem b) = rx_joined rx (S seg_n)) as Hmem.
  { rewrite <- Hcont. unfold contents. rewrite Hh, drop_0. f_equal. lia. }
  destruct (srx_ctl rx) eqn:Ec; cbn [negb when].
  - exists b. split_and!; try done. lia.
  - rewrite bind_gets. unfold id. rewrite (proj2 (Nat.ltb_ge _ _)) by (specialize (Hmic eq_refl); lia).
    eexists. split; [reflexivity|]. split_and!; try done. cbn. lia.
Qed.
Lemma try_decrypt_seg_safe crypto rx key sdu :
  rx_full rx -> srx_ctl rx = false -> (APP_MIC_LEN (ac_aszmic crypto) <= srx_len rx <= BT_MESH_RX_SDU_MAX)%nat ->
  wp (sdu_try_decrypt_seg crypto rx key) (fun _ _ => True) sdu.
Proof.
  intros H Hc Hl. unfold sdu_try_decrypt_seg.
  destruct (assemble_ok rx (ac_aszmic crypto) BT_MESH_RX_SDU_MAX H) as (b & E & Hd & Hs & Hlen & _); [lia|lia|].
  rewrite Hc in Hlen. apply wp_bind. rewrite E. eapply wp_need; [done|]. cbv beta iota.
  assert (BT_MESH_RX_SDU_MAX = 36)%nat as E36 by done.
  destruct (app_decrypt_in_place_defined key crypto b) as (err & mem & E2 & _); [lia|lia|].
  apply wp_bind. rewrite E2. eapply wp_need; [done|]. cbv beta iota. by apply wp_bind, wp_modify, wp_ret.
Qed.

(** ** Delivery *)

(** What the layers above may do to the context of a received message. *)
Definition keeps_rx (rx rx' : bt_mesh_net_rx) : Prop :=
  rx_sub rx' = rx_sub rx /\ ctx_recv_ttl (rx_ctx rx') = ctx_recv_ttl (rx_ctx rx) /\ rx_friend_match rx' = rx_friend_match rx.

Lemma keeps_rx_refl rx : keeps_rx rx rx.
Proof. done. Qed.

Context (model_recv : bt_mesh_net_rx -> net_buf_simple -> Z -> ST (trans F) bt_mesh_net_rx).
Context (hb_recv : bt_mesh_net_rx -> bytes -> ST (trans F) ret_code).

(** The layers above use the transport layer through its operations. *)
Hypothesis model_recv_ok : forall rx sdu rssi t,
  OK t -> (rx_sub rx < subnets_max)%nat -> wp (model_recv rx sdu rssi) (fun rx' t' => OK t' /\ keeps_rx rx rx') t.
Hypothesis hb_recv_ok : forall rx buf t, OK t -> (rx_sub rx < subnets_max)%nat -> wp (hb_recv rx buf) (fun _ => OK) t.
Hypothesis friend_ctl_ok : forall op rx buf t,
  OK t -> (rx_sub rx < subnets_max)%nat -> wp (bt_mesh_friend_ctl op rx buf) (fun _ => OK) t.

Lemma sdu_recv_ok {J : net_buf_simple -> Prop} rx hdr aszmic seq_num try out rssi t :
  OK t -> (rx_sub rx < subnets_max)%nat -> J out ->
  (forall crypto key s, ac_aszmic crypto = aszmic -> J s -> wp (try crypto key) (fun _ => J) s) ->
  wp (sdu_recv config_friend config_cdb model_recv rx hdr aszmic seq_num try out rssi)
    (fun r t' => OK t' /\ keeps_rx rx r.2) t.
Proof.
  intros H Hsub HJ Htry. unfold sdu_recv. wp_if; [by apply wp_ret|]. apply wp_bind, wp_gets, wp_bind, wp_gets. unfold id.
  assert (wp (bt_mesh_app_key_find config_cdb (try (rx_crypto rx hdr aszmic seq_num t))
                (ac_dev_key (rx_crypto rx hdr aszmic seq_num t)) (AID hdr) rx (tr_cdb t)
                (tr_dev_key t) (net_subnets (tr_net t)) (tr_apps t)) (fun _ => J) out) as (app_idx & sdu & Ef & _).
  { apply key_find_safe; try done; [intros key s Hs; by apply Htry|].
    pose proof (tok_subnets _ _ _ H) as L. unfold subnet_count in L. lia. }
  rewrite Ef. apply wp_bind. eapply wp_need; [done|]. cbv beta iota. wp_if; [by apply wp_ret|].
  apply wp_bind. eapply wp_mono; [by apply model_recv_ok|]. cbv beta. intros rx' t' [Hok Hk]. by apply wp_ret.
Qed.

Lemma ctl_recv_ok rx hdr buf t :
  OK t -> (rx_sub rx < subnets_max)%nat ->
  wp (ctl_recv config_proxy config_friend config_cdb proxy_relay adv_buffer hb_recv rx hdr buf) (fun _ => OK) t.
Proof.
  intros H Hsub. unfold ctl_recv. cbv zeta. wp_if; [by apply trans_ack_ok|].
  wp_if; [apply (wp_then (fun err => _)); by apply hb_recv_ok|]. wp_if; [by apply wp_ret|].
  wp_if; [apply (wp_then (fun err => _)); by apply friend_ctl_ok|by apply wp_ret].
Qed.

(** The replay list is not part of the frame. *)
Lemma rpl_check_ok want rx t : OK t -> wp (rpl_check want rx) (fun _ => OK) t.
Proof.
  intros H. unfold rpl_check, on_net. apply wp_zoom.
  unfold wp. destruct (bt_mesh_rpl_check want rx (net_rpl (tr_net t))) as [[replay slot] l].
  eexists _, _. split; [reflexivity|].
  exact (net_frame_ok subnets_max pool t (tr_net t <| net_rpl := l |>) (tr_log t) H ltac:(done)).
Qed.

Lemma rpl_update_ok slot rx t : OK t -> wp (rpl_update slot rx) (fun _ => net_change t) t.
Proof.
  intros H. unfold rpl_update, on_net. destruct slot as [i|]; [apply wp_zoom, wp_modify|apply wp_ret].
  - by exists (tr_net t <| net_rpl := alter (bt_mesh_rpl_update rx) i (net_rpl (tr_net t)) |>), (tr_log t).
  - exists (tr_net t), (tr_log t). split; [apply net_sent_refl|by destruct t].
Qed.

Lemma trans_unseg_ok buf rx rssi t :
  OK t -> (rx_sub rx < subnets_max)%nat -> buf_wf buf -> (buf_len buf <= if rx_ctl rx then 12 else 16)%nat ->
  wp (trans_unseg config_proxy config_friend config_cdb proxy_relay adv_buffer model_recv hb_recv buf rx rssi)
    (fun r t' => OK t' /\ keeps_rx rx r.1.2) t.
Proof.
  intros H Hsub W Hl. unfold trans_unseg. wp_if; [by apply wp_ret|]. apply Nat.ltb_ge in E.
  apply (wp_seq OK); [by apply rpl_check_ok|]. intros [replay slot] t1 H1. wp_if; [by apply wp_ret|].
  unfold net_buf_simple_pull_u8. rewrite (pull_get_run 1 _ buf) by done. apply wp_bind. eapply wp_need; [done|]. cbv beta iota.
  set (hdr := byte_at _ 0). set (buf1 := pulled 1 buf).
  wp_if. { apply (wp_seq OK); [by apply ctl_recv_ok|]. intros [err auth] t2 H2. by apply wp_ret. }
  change (buf_len buf1) with (buf_len buf - 1)%nat. change (APP_MIC_LEN 0) with 4%nat. wp_if; [by apply wp_ret|].
  apply Nat.ltb_ge in E2. apply wp_bind.
  eapply wp_mono; [apply (sdu_recv_ok (J := fun s => buf_size s = 11%nat)); try done|].
  - intros crypto key s Ha Hs. unfold buf_wf, buf_size in W. apply try_decrypt_safe; [cbn; lia| |done].
    rewrite Ha. cbn. unfold buf_size. cbn. lia.
  - cbv beta. intros [err rx'] t2 H2. by apply wp_ret.
Qed.
(** *** Segments *)

Lemma wp_get_rx_at i rx (Q : seg_rx -> trans F -> Prop) t : tr_seg_rx t !! i = Some rx -> Q rx t -> wp (get_rx i) Q t.
Proof. intros Hi H. unfold get_rx. apply wp_bind, wp_gets. rewrite Hi. by eapply wp_need. Qed.

Lemma wp_set_rx_at f i rx (Q : unit -> trans F -> Prop) t :
  OK t -> tr_seg_rx t !! i = Some rx -> rx_ok subnets_max (f rx) -> blocks (srx_seg (f rx)) = blocks (srx_seg rx) ->
  (forall t', OK t' -> tr_seg_rx t' !! i = Some (f rx) -> Q tt t') -> wp (set_rx f i) Q t.
Proof.
  intros H Hi Hok Hb HQ. destruct (rx_index t i rx H Hi) as [Hl _]. rewrite (srt_id i rx t Hi). apply wp_set_rx, HQ.
  - apply (srt_ok subnets_max pool i rx); try done; [by rewrite (tok_subnets _ _ _ H)|by rewrite Hb].
  - cbn. by rewrite list_lookup_insert_eq.
Qed.

Lemma send_ack_ok sub src dst ttl auth block obo t :
  OK t -> (sub < subnets_max)%nat -> 0 <= ttl ->
  wp (send_ack config_proxy config_friend config_cdb proxy_relay adv_buffer sub src dst ttl auth block obo)
    (fun _ => net_change t) t.
Proof.
  intros H Hs Ht. apply send_ack_safe; [done|apply (tok_ready subnets_max pool); [done|by rewrite (tok_subnets _ _ _ H)]|apply H|done|].
  apply net_change_only.
Qed.

(** A received message on its way through the transport layer. *)
Record rx_in (net_rx : bt_mesh_net_rx) : Prop := {
  rxi_sub : (rx_sub net_rx < subnets_max)%nat;
  rxi_ttl : 0 <= ctx_send_ttl (rx_ctx net_rx);
  rxi_friend : rx_friend_match net_rx = false;
}.

Lemma block_complete_bits n k : 0 <= n < 3 -> (k <= Z.to_nat n)%nat -> Z.testbit (BLOCK_COMPLETE n) (Z.of_nat k) = true.
Proof.
  intros Hn Hk. assert (n = 0 \/ n = 1 \/ n = 2) as [-> | [-> | ->]] by lia.
  - by replace k with 0%nat by lia.
  - destruct k as [|[|]]; (done || lia).
  - destruct k as [|[|[|]]]; (done || lia).
Qed.

Lemma complete_full rx :
  rx_ok subnets_max rx -> srx_in_use rx = true -> srx_block rx = BLOCK_COMPLETE (srx_seg_n rx) ->
  rx_full rx /\ (srx_len rx <= 3 * seg_len (srx_ctl rx))%nat.
Proof.
  intros Hok Hu Hb. assert (rx_full rx) as Hf.
  { split; [apply Hok| |apply Hok]. intros k Hk. apply (rxo_bits _ _ Hok k Hu Hk). rewrite Hb.
    apply block_complete_bits; [apply Hok|done]. }
  split; [done|]. destruct (rxf_seg _ Hf (Z.to_nat (srx_seg_n rx))) as [b Hbl]; [done|].
  pose proof (rxf_size _ Hf _ _ Hbl) as Hz. rewrite decide_True in Hz by done.
  pose proof (rxf_n _ Hf) as Hn. unfold CONFIG_BT_MESH_RX_SEG_MAX in Hn.
  assert (Z.to_nat (srx_seg_n rx) * seg_len (srx_ctl rx) <= 2 * seg_len (srx_ctl rx))%nat by (apply Nat.mul_le_mono_r; lia). lia.
Qed.

Lemma seg_complete_ok net_rx hdr aszmic auth slot i rx rssi t :
  OK t -> rx_in net_rx -> tr_seg_rx t !! i = Some rx -> srx_in_use rx = true -> srx_ctl rx = rx_ctl net_rx ->
  srx_block rx = BLOCK_COMPLETE (srx_seg_n rx) ->
  wp (trans_seg_complete config_proxy config_friend config_cdb proxy_relay adv_buffer model_recv hb_recv
        net_rx hdr aszmic auth slot i rssi) (fun r t' => OK t' /\ keeps_rx net_rx r.1.1.2) t.
Proof.
  intros H [Hs Ht Hf] Hi Hu Hc Hb. destruct (rx_index t i rx H Hi) as [_ Hi3]. unfold trans_seg_complete.
  apply (wp_seq (net_change t)); [by apply rpl_update_ok|]. intros [] t1 Hn. destruct (net_change_ok t t1 H Hn) as (H1 & _ & E1).
  rewrite <- E1 in Hi. pose proof (Forall_lookup_1 _ _ _ _ (tok_rx _ _ _ H1) Hi) as Hok. rewrite (tok_subnets _ _ _ H1) in Hok.
  apply wp_bind, (wp_set_rx_at _ i rx); [done..|by apply (rx_ok_same _ rx)|done|]. intros t2 H2 Hi2.
  set (rx2 := rx <| srx_ack := None |>) in *.
  assert (rx_ok subnets_max rx2) as Hok2 by (by apply (rx_ok_same _ rx)).
  apply wp_bind, (wp_get_rx_at i rx2); [done|].
  apply (wp_seq (net_change t2)); [by apply send_ack_ok|]. intros _ t3 Hn3. destruct (net_change_ok t2 t3 H2 Hn3) as (H3 & _ & E3).
  rewrite <- E3 in Hi2. apply wp_bind, (wp_get_rx_at i rx2); [done|].
  destruct (complete_full rx2 Hok2 Hu Hb) as [Hfull Hlen].
  assert (forall (r : ret_code * bt_mesh_net_rx * Z) t', OK t' /\ keeps_rx net_rx r.1.2 ->
    wp (let '(err, net_rx, seq_auth) := r in
        _ ← seg_rx_reset config_friend i false; mret (err, net_rx, BT_MESH_FRIEND_PDU_COMPLETE, seq_auth))
      (fun r t' => OK t' /\ keeps_rx net_rx r.1.1.2) t') as Hend.
  { intros [[err rx'] a] t' [H' Hk]. apply (wp_seq OK); [by apply rx_reset_ok|]. intros _ t4 H4. by apply wp_ret. }
  apply wp_bind. eapply wp_mono; [|exact Hend]. wp_if.
  - destruct (assemble_ok rx2 0 BT_MESH_RX_CTL_MAX Hfull) as (b & Ea & _).
    { change (srx_ctl rx2) with (srx_ctl rx) in Hlen. rewrite Hc in Hlen. exact Hlen. }
    { change (srx_ctl rx2) with (srx_ctl rx). by rewrite Hc. }
    rewrite Ea. apply wp_bind. eapply wp_need; [done|]. cbv beta iota.
    apply (wp_seq OK); [by apply ctl_recv_ok|]. intros [err a] t4 H4. by apply wp_ret.
  - wp_if; [by apply wp_ret|]. apply Nat.ltb_ge in E0. apply wp_bind.
    eapply wp_mono; [apply (sdu_recv_ok (J := fun _ => True)); try done|].
    + intros crypto key s Ha _. apply try_decrypt_seg_safe; [done| |].
      * done.
      * rewrite Ha. change (srx_ctl rx2) with (srx_ctl rx) in Hlen. rewrite Hc in Hlen.
        change (BT_MESH_RX_SDU_MAX) with 36%nat. change (seg_len false) with 12%nat in Hlen. lia.
    + cbv beta. intros [err rx'] t4 H4. by apply wp_ret.
Qed.
(** A context that gets a segment it does not have yet. *)
Lemma rx_ok_len rx len :
  rx_ok subnets_max rx -> srx_in_use rx = true -> Z.testbit (srx_block rx) (srx_seg_n rx) = false ->
  rx_ok subnets_max (rx <| srx_len := len |>).
Proof.
  intros [H1 H2 H3 H4 H5 H6 H7 H8 H9 H10] Hu Hbit. split; cbn; try done.
  intros k b Hk. specialize (H6 k b Hk). case_decide; [|done]. exfalso. subst k.
  assert (Z.testbit (srx_block rx) (Z.of_nat (Z.to_nat (srx_seg_n rx))) = true) as E by (apply H5; [done..|by exists b]).
  rewrite Z2Nat.id in E by lia. congruence.
Qed.

Lemma rx_ok_store rx seg_o data :
  rx_ok subnets_max rx -> srx_in_use rx = true -> 0 <= seg_o <= srx_seg_n rx -> Z.testbit (srx_block rx) seg_o = false ->
  (if decide (seg_o = srx_seg_n rx)
   then srx_len rx = Z.to_nat seg_o * seg_len (srx_ctl rx) + length data /\ length data <= seg_len (srx_ctl rx)
   else length data = seg_len (srx_ctl rx))%nat ->
  let rx' := rx <| srx_seg := <[Z.to_nat seg_o := Some data]> (srx_seg rx) |> <| srx_block := Z.setbit (srx_block rx) seg_o |> in
  rx_ok subnets_max rx' /\ blocks (srx_seg rx') = S (blocks (srx_seg rx)).
Proof.
  intros [H1 H2 H3 H4 H5 H6 H7 H8 H9 H10] Hu Ho Hbit Hd rx'. set (o := Z.to_nat seg_o) in *.
  assert (Z.of_nat o = seg_o) as Eo by (unfold o; lia).
  assert (o <= Z.to_nat (srx_seg_n rx) /\ o < length (srx_seg rx))%nat as [Ho1 Ho2] by lia.
  assert (srx_seg rx !! o = Some None) as Hn.
  { destruct (lookup_lt_is_Some_2 _ _ Ho2) as [[b|] Hb]; [|done]. exfalso.
    assert (Z.testbit (srx_block rx) (Z.of_nat o) = true) as E by (apply H5; [done..|by exists b]). congruence. }
  split; [|by apply blocks_insert_some]. split; cbn; try done.
  - by rewrite length_insert.
  - intros k Hk. unfold seg_none. rewrite list_lookup_insert_ne by lia. by apply H3.
  - by rewrite Hu.
  - intros k _ Hk. rewrite Z.setbit_eqb by lia. destruct (decide (k = o)) as [->|N].
    + rewrite Eo, Z.eqb_refl. split; [|done]. intros _. exists data. by apply list_lookup_insert_eq.
    + rewrite (proj2 (Z.eqb_neq _ _)) by lia. rewrite list_lookup_insert_ne by done. by apply H5.
  - intros k b. destruct (decide (k = o)) as [->|N].
    + rewrite list_lookup_insert_eq by done. intros [= <-].
      destruct (decide (seg_o = srx_seg_n rx)) as [E|E]; [rewrite decide_True by lia|rewrite decide_False by lia]; done.
    + rewrite list_lookup_insert_ne by done. apply H6.
Qed.

(** From the allocation of a block on. *)
Lemma seg_store_ok net_rx hdr aszmic seg_o seg_n auth slot data i rx rssi t :
  OK t -> rx_in net_rx -> tr_seg_rx t !! i = Some rx -> srx_in_use rx = true -> srx_ctl rx = rx_ctl net_rx ->
  srx_seg_n rx = seg_n -> 0 <= seg_o <= seg_n -> Z.testbit (srx_block rx) seg_o = false ->
  (length data <= seg_len (rx_ctl net_rx))%nat ->
  (if decide (seg_o = seg_n) then srx_len rx = Z.to_nat seg_o * seg_len (rx_ctl net_rx) + length data
   else length data = seg_len (rx_ctl net_rx))%nat ->
  wp (free ← gets tr_segs_free;
      if (free =? 0)%nat then mret (Some ENOBUFS, net_rx, BT_MESH_FRIEND_PDU_SINGLE, auth)
      else if (BT_MESH_APP_SEG_SDU_MAX <? length data)%nat || (length (srx_seg rx) <=? Z.to_nat seg_o)%nat then undefined
      else
        _ ← modify (fun t => t <| tr_segs_free := pred (tr_segs_free t) |>);
        _ ← set_rx (fun rx => rx <| srx_seg := <[Z.to_nat seg_o := Some data]> (srx_seg rx) |>
                                 <| srx_block := Z.setbit (srx_block rx) seg_o |>) i;
        rx ← get_rx i;
        if negb (srx_block rx =? BLOCK_COMPLETE seg_n)
        then mret (None, net_rx, BT_MESH_FRIEND_PDU_PARTIAL, auth)
        else trans_seg_complete config_proxy config_friend config_cdb proxy_relay adv_buffer model_recv hb_recv
               net_rx hdr aszmic auth slot i rssi) (fun (r : seg_out) t' => OK t' /\ keeps_rx net_rx r.1.1.2) t.
Proof.
  intros H Hin Hi Hu Hc Hn Ho Hbit Hd Hsize. destruct (rx_index t i rx H Hi) as [Hl _].
  pose proof (Forall_lookup_1 _ _ _ _ (tok_rx _ _ _ H) Hi) as Hok. rewrite (tok_subnets _ _ _ H) in Hok.
  apply wp_bind, wp_gets. wp_if; [by apply wp_ret|]. apply Nat.eqb_neq in E.
  pose proof (rxo_n _ _ Hok) as Hn'. rewrite Hn in Hn'. unfold CONFIG_BT_MESH_RX_SEG_MAX in Hn'.
  assert ((BT_MESH_APP_SEG_SDU_MAX <? length data)%nat || (length (srx_seg rx) <=? Z.to_nat seg_o)%nat = false) as ->.
  { rewrite (rxo_len _ _ Hok). apply orb_false_iff. split; [apply Nat.ltb_ge|apply Nat.leb_gt].
    - unfold BT_MESH_APP_SEG_SDU_MAX. pose proof (seg_len_cases (rx_ctl net_rx)). lia.
    - unfold CONFIG_BT_MESH_RX_SEG_MAX. lia. }
  destruct (rx_ok_store rx seg_o data) as [Hok4 Hb4]; try done; [by rewrite Hn|rewrite Hn, Hc; by case_decide|].
  rewrite (srt_id i rx t Hi) at 1. apply wp_bind. eapply (wp_modify _ (fun _ s => wp _ _ s)).
  change (srt i rx (tr_segs_free t) t <| tr_segs_free := _ |>) with (srt i rx (pred (tr_segs_free t)) t).
  apply wp_bind, wp_set_rx. set (rx4 := rx <| srx_seg := _ |> <| srx_block := _ |>) in *.
  apply wp_bind, wp_get_rx; [done|].
  assert (OK (srt i rx4 (pred (tr_segs_free t)) t)) as H4.
  { apply (srt_ok subnets_max pool i rx); try done; [by rewrite (tok_subnets _ _ _ H)|]. lia. }
  wp_if; [by apply wp_ret|]. apply negb_false_iff, Z.eqb_eq in E0.
  apply (seg_complete_ok _ _ _ _ _ _ rx4); try done; [cbn; by apply list_lookup_insert_eq|].
  change (srx_seg_n rx4) with (srx_seg_n rx). by rewrite Hn.
Qed.

Lemma seg_found_ok now net_rx hdr aszmic seg_o seg_n auth slot data i rx rssi t :
  OK t -> rx_in net_rx -> tr_seg_rx t !! i = Some rx -> srx_in_use rx = true -> srx_ctl rx = rx_ctl net_rx ->
  srx_seg_n rx = seg_n -> 0 <= seg_o <= seg_n -> (length data <= seg_len (rx_ctl net_rx))%nat ->
  wp (trans_seg_found config_proxy config_friend config_cdb proxy_relay adv_buffer model_recv hb_recv
        now net_rx hdr aszmic seg_o seg_n auth slot data i rssi) (fun r t' => OK t' /\ keeps_rx net_rx r.1.1.2) t.
Proof.
  intros H Hin Hi Hu Hc Hn Ho Hd. destruct (rx_index t i rx H Hi) as [_ Hi3]. unfold trans_seg_found. cbv zeta.
  pose proof (Forall_lookup_1 _ _ _ _ (tok_rx _ _ _ H) Hi) as Hok. rewrite (tok_subnets _ _ _ H) in Hok.
  assert (forall e t', OK t' -> wp (mret (Some e, net_rx, BT_MESH_FRIEND_PDU_SINGLE, auth))
    (fun (r : seg_out) t' => OK t' /\ keeps_rx net_rx r.1.1.2) t') as Hfail by (intros e t' H'; by apply wp_ret).
  apply wp_bind, (wp_get_rx_at i rx); [done|]. wp_if; [by apply Hfail|]. rename E into Hbit.
  set (len := (Z.to_nat seg_n * seg_len (srx_ctl rx) + length data)%nat).
  set (rx1 := if seg_o =? seg_n then rx <| srx_len := len |> else rx).
  apply (wp_seq (fun t' => OK t' /\ tr_seg_rx t' !! i = Some rx1)).
  { apply wp_when; intros E; unfold rx1; rewrite E; [|done]. zbool.
    apply (wp_set_rx_at _ i rx); try done. apply rx_ok_len; try done. by rewrite Hn, <- E. }
  intros [] t1 [H1 Hi1]. pose proof (Forall_lookup_1 _ _ _ _ (tok_rx _ _ _ H1) Hi1) as Hok1. rewrite (tok_subnets _ _ _ H1) in Hok1.
  assert (srx_in_use rx1 = true /\ srx_ctl rx1 = rx_ctl net_rx /\ srx_seg_n rx1 = seg_n /\ srx_block rx1 = srx_block rx /\
          srx_seg rx1 = srx_seg rx) as (Hu1 & Hc1 & Hn1 & Hb1 & Hs1) by (unfold rx1; by destruct (seg_o =? seg_n)).
  wp_if.
  { apply (wp_seq (net_change t1)); [apply send_ack_ok; [done|apply Hin..]|]. intros _ t2 N2.
    destruct (net_change_ok t1 t2 H1 N2) as (H2 & _ & _).
    apply (wp_seq OK); [by apply rx_reset_ok|]. intros _ t3 H3. by apply Hfail. }
  wp_if; [by apply Hfail|]. apply wp_bind, (wp_set_rx_at _ i rx1); [done..|by apply (rx_ok_same _ rx1)|done|].
  intros t2 H2 Hi2. apply wp_bind, wp_gets. set (rx2 := rx1 <| srx_last := now |>) in *.
  apply wp_bind, (wp_set_rx_at _ i rx2); [done..| |by repeat case_match|].
  { destruct (srx_ack rx2) as [d|]; [destruct (d =? 0)|]; by apply (rx_ok_same _ rx1). }
  intros t3 H3. set (rx3 := match srx_ack rx2 with Some d => _ | None => _ end). intros Hi3'.
  assert (srx_in_use rx3 = true /\ srx_ctl rx3 = rx_ctl net_rx /\ srx_seg_n rx3 = seg_n /\ srx_block rx3 = srx_block rx /\
          srx_seg rx3 = srx_seg rx /\ srx_len rx3 = srx_len rx1) as (Hu3 & Hc3 & Hn3 & Hb3 & Hs3 & Hl3).
  { unfold rx3. destruct (srx_ack rx2) as [d|]; [destruct (d =? 0)|]; by split_and!. }
  clearbody rx3. pose proof (Forall_lookup_1 _ _ _ _ (tok_rx _ _ _ H3) Hi3') as Hok3. rewrite (tok_subnets _ _ _ H3) in Hok3.
  rewrite <- Hs3. apply seg_store_ok; try done; [by rewrite Hb3|]. rewrite Hl3, <- Hc. case_decide as Eo.
  - unfold rx1. rewrite (proj2 (Z.eqb_eq _ _) Eo). cbn. unfold len. by rewrite Eo.
  - rewrite (proj2 (Z.eqb_neq _ _) Eo) in E0. cbn in E0. apply negb_false_iff, Nat.eqb_eq in E0. by rewrite E0.
Qed.

(** An idle context that starts a message. *)
Lemma rx_ok_start net_rx hdr auth seg_n rx :
  rx_ok subnets_max rx -> srx_in_use rx = false -> rx_in net_rx -> 0 <= seg_n < Z.of_nat CONFIG_BT_MESH_RX_SEG_MAX ->
  rx_ok subnets_max (seg_rx_start net_rx hdr auth seg_n rx).
Proof.
  intros Hok Hidle Hin Hn.
  assert (forall k, seg_none (srx_seg rx) k) as Hnone by (intros k; by apply blocks_none, (rxo_idle _ _ Hok)).
  destruct Hok as [H1 H2 H3 H4 H5 H6 H7 H8 H9 H10]. split; cbn; try done; try lia.
  - intros k _ _. rewrite Z.testbit_0_l. split; [done|]. intros [b Hb]. destruct (Hnone k); congruence.
  - intros k b Hb. destruct (Hnone k); congruence.
  - intros _. exists (rx_sub net_rx). split; [done|apply Hin].
  - apply Hin.
Qed.

Lemma seg_new_ok now net_rx hdr aszmic seg_o seg_n auth slot data rssi t :
  OK t -> rx_in net_rx -> 0 <= seg_o <= seg_n -> (length data <= seg_len (rx_ctl net_rx))%nat ->
  wp (trans_seg_new config_proxy config_friend config_cdb proxy_relay adv_buffer model_recv hb_recv
        now net_rx hdr aszmic seg_o seg_n auth slot data rssi) (fun r t' => OK t' /\ keeps_rx net_rx r.1.1.2) t.
Proof.
  intros H Hin Ho Hd. unfold trans_seg_new. cbv zeta.
  assert (forall e t', OK t' -> wp (mret (Some e, net_rx, BT_MESH_FRIEND_PDU_SINGLE, auth))
    (fun (r : seg_out) t' => OK t' /\ keeps_rx net_rx r.1.1.2) t') as Hfail by (intros e t' H'; by apply wp_ret).
  wp_if.
  { apply (wp_seq (net_change t)); [apply send_ack_ok; [done|apply Hin..]|]. intros _ t2 N2.
    apply Hfail. by apply (net_change_ok t t2). }
  apply negb_false_iff in E. unfold sdu_len_is_ok in E. zbool.
  rewrite (rxi_friend _ Hin), andb_false_r. cbn [andb]. apply wp_bind, wp_ret. unfold seg_rx_alloc. apply wp_bind, wp_bind, wp_gets.
  unfold id. wp_if; [by apply wp_ret, Hfail|].
  destruct (find_index _ (tr_seg_rx t)) as [i|] eqn:Ei; [|by apply wp_ret, Hfail].
  apply find_index_Some in Ei as [(rx & Hi & Hidle) _]. apply negb_true_iff in Hidle.
  pose proof (Forall_lookup_1 _ _ _ _ (tok_rx _ _ _ H) Hi) as Hok. rewrite (tok_subnets _ _ _ H) in Hok.
  set (rx1 := seg_rx_start net_rx hdr auth seg_n rx).
  assert (rx_ok subnets_max rx1) as Hok1 by (apply rx_ok_start; [done..|lia]).
  apply wp_bind, (wp_set_rx_at _ i rx); [done..|]. intros t1 H1 Hi1. apply wp_ret. apply wp_bind.
  apply (wp_set_rx_at _ i rx1); [done..| |done|].
  { apply (rx_ok_same _ rx1); [done|by rewrite (rxo_obo _ _ Hok1)|done]. }
  intros t2 H2 Hi2. apply (seg_found_ok _ _ _ _ _ _ _ _ _ _ (rx1 <| srx_obo := false |>)); try done.
Qed.

Lemma find_loop_some src dst auth i l j b : seg_rx_find_loop src dst auth i l = Some (j, b) ->
  exists rx, l !! (j - i)%nat = Some rx /\ (i <= j)%nat.
Proof.
  revert i. induction l as [|rx l IH]; intros i; cbn [seg_rx_find_loop]; [done|]. intros H.
  assert (seg_rx_find_loop src dst auth (S i) l = Some (j, b) -> exists rx0, (rx :: l) !! (j - i)%nat = Some rx0 /\ (i <= j)%nat) as Hnext.
  { intros [rx0 [H0 H1]]%IH. exists rx0. split; [|lia]. by replace (j - i)%nat with (S (j - S i)) by lia. }
  destruct (_ || _); [by apply Hnext|]. destruct (_ <=? _); [injection H as -> _; exists rx; by rewrite Nat.sub_diag|].
  destruct (srx_in_use rx); [injection H as -> _; exists rx; by rewrite Nat.sub_diag|by apply Hnext].
Qed.

Lemma rx_find_ok net_rx auth t :
  OK t -> wp (seg_rx_find config_friend net_rx auth) (fun r t' => OK t' /\ match r with Some i => (i < 3)%nat | None => True end) t.
Proof.
  intros H. unfold seg_rx_find. apply wp_bind, wp_gets.
  destruct (seg_rx_find_loop _ _ _ _ _) as [[i b]|] eqn:E; [|by apply wp_ret].
  apply find_loop_some in E as (rx & Hi & _). rewrite Nat.sub_0_r in Hi. destruct (rx_index t i rx H Hi) as [_ Hi3].
  destruct b; [by apply wp_ret|]. apply (wp_seq OK); [by apply rx_reset_ok|]. intros [] t' H'. by apply wp_ret.
Qed.

Lemma seg_o_range buf : 0 <= (seg_fields buf).1.2.
Proof. unfold seg_fields. cbv zeta. cbn [fst snd]. apply u8_range. Qed.

Lemma trans_seg_ok now buf net_rx rssi t :
  OK t -> rx_in net_rx -> (length buf <= 4 + seg_len (rx_ctl net_rx))%nat ->
  wp (trans_seg config_proxy config_friend config_cdb proxy_relay adv_buffer model_recv hb_recv now buf net_rx rssi)
    (fun r t' => OK t' /\ keeps_rx net_rx r.1.1.1.2) t.
Proof.
  intros H Hin Hl. unfold trans_seg. cbv zeta. wp_if; [by apply wp_ret|].
  apply (wp_seq OK); [by apply rpl_check_ok|]. intros [replay slot] t1 H1. wp_if; [by apply wp_ret|].
  pose proof (seg_o_range buf) as Ho. destruct (seg_fields buf) as [[seq_zero seg_o] seg_n]. cbn [fst snd] in Ho.
  wp_if; [by apply wp_ret|]. zbool. apply wp_bind, wp_gets. set (auth := SEQ_AUTH _ _).
  assert (length (drop 4 buf) <= seg_len (rx_ctl net_rx))%nat as Hd by (rewrite length_drop; lia).
  apply wp_bind. eapply wp_mono; [by apply rx_find_ok|]. cbv beta. intros found t2 [H2 Hf].
  assert (forall (r : seg_out) t', OK t' /\ keeps_rx net_rx r.1.1.2 ->
    wp (let '(err, net_rx, type, seq_auth) := r in mret (err, net_rx, type, Some seq_auth, seg_n + 1))
      (fun r t' => OK t' /\ keeps_rx net_rx r.1.1.1.2) t') as Hend.
  { intros [[[err rx'] ty] a] t' [H' Hk]. by apply wp_ret. }
  apply wp_bind. eapply wp_mono; [|exact Hend]. destruct found as [i|]; [|by apply seg_new_ok].
  destruct (rx_lookup t2 i H2 Hf) as (rx & Hi & Hok). apply wp_bind, (wp_get_rx_at i rx); [done|].
  wp_if; [by apply wp_ret|]. wp_if; [by apply wp_ret|]. apply negb_false_iff in E3. unfold seg_rx_is_valid in E3.
  apply andb_true_iff in E3 as [E3 Ec]. apply bool_decide_eq_true in Ec.
  do 3 apply andb_true_iff in E3 as [E3 ?]. zbool.
  wp_if; [by apply (seg_found_ok _ _ _ _ _ _ _ _ _ _ rx)|]. wp_if; [|by apply wp_ret].
  apply (wp_seq (net_change t2)); [apply send_ack_ok; [done|apply Hin..]|]. intros _ t3 N3.
  destruct (net_change_ok t2 t3 H2 N3) as (Ht3 & _ & _).
  apply (wp_seq (net_change t3)); [by apply rpl_update_ok|]. intros _ t4 N4. apply wp_ret. by split; [apply (net_change_ok t3 t4)|].
Qed.
(** ** The network layer underneath *)

Lemma trans_recv_ok now buf rx rssi t :
  OK t -> (rx_sub rx < subnets_max)%nat -> 0 <= ctx_send_ttl (rx_ctx rx) ->
  buf_wf buf -> (9 <= buf_len buf <= if rx_ctl rx then 21 else 25)%nat ->
  wp (bt_mesh_trans_recv config_proxy config_friend config_cdb proxy_relay adv_buffer model_recv hb_recv now buf rx rssi)
    (fun r t' => OK t' /\ buf_mem r.1.2 = buf_mem buf /\ rx_sub r.2 = rx_sub rx /\
                 ctx_recv_ttl (rx_ctx r.2) = ctx_recv_ttl (rx_ctx rx)) t.
Proof.
  intros H Hs Ht W Hl. unfold bt_mesh_trans_recv. set (rx1 := rx <| rx_friend_match := false |>).
  assert (rx_in rx1) as Hin by (by split).
  apply wp_bind. apply wp_mono with (Q := fun r t' => r = rx1 /\ t' = t).
  { wp_if; [|by apply wp_ret]. apply wp_bind, wp_net_idx_of.
    - apply (tok_ready subnets_max pool); [done|]. by rewrite (tok_subnets _ _ _ H).
    - intros x. apply wp_bind, wp_gets, wp_ret. by rewrite idle_match. }
  intros r t' [-> ->]. apply wp_bind. rewrite pull_run by (unfold BT_MESH_NET_HDR_LEN; lia). eapply wp_need; [done|].
  cbv beta iota zeta. set (buf1 := pulled _ buf).
  assert (buf_wf buf1 /\ (buf_len buf1 <= if rx_ctl rx then 12 else 16)%nat) as [W1 Hl1].
  { unfold buf1, pulled, buf_wf, buf_size, BT_MESH_NET_HDR_LEN in *. cbn. destruct (rx_ctl rx); lia. }
  wp_if; [by apply wp_ret|].
  apply (wp_bind (A := ret_code * bt_mesh_net_rx * bt_mesh_friend_pdu_type * option Z * Z)).
  apply wp_mono with (Q := fun r t' => OK t' /\ keeps_rx rx1 r.1.1.1.2).
  { wp_if.
    - apply trans_seg_ok; [done..|]. rewrite length_contents by done. change (rx_ctl rx1) with (rx_ctl rx).
      unfold seg_len, BT_MESH_CTL_SEG_SDU_MAX, BT_MESH_APP_SEG_SDU_MAX. destruct (rx_ctl rx); lia.
    - apply wp_bind. eapply wp_mono; [by apply trans_unseg_ok|]. cbv beta. intros [[err rx'] a] t' [H' Hk]. by apply wp_ret. }
  intros [[[[err rx'] ty] a] c] t' [H' (K1 & K2 & K3)]. cbn [fst snd] in K1, K2, K3. cbv zeta.
  rewrite K3. change (rx_friend_match rx1) with false. rewrite andb_false_r. cbn [andb when]. apply wp_bind, wp_ret, wp_ret. done.
Qed.
Lemma on_net_ok {A : Type} (m : ST bt_mesh_net A) t :
  OK t -> wp m (fun _ n' => net_frame (tr_net t) n') (tr_net t) -> wp (zoom tr_net m) (fun _ => OK) t.
Proof.
  intros H Hm. apply wp_zoom. eapply wp_mono; [exact Hm|]. cbv beta. intros _ n' Hf.
  exact (net_frame_ok subnets_max pool t n' (tr_log t) H Hf).
Qed.

(** Any packet of the size of an advertising PDU. *)
Lemma net_recv_ok now data rssi net_if t :
  OK t -> wf_bytes data -> (length data <= 29)%nat ->
  wp (net_recv config_proxy config_friend config_cdb proxy_relay adv_buffer model_recv hb_recv now data rssi net_if)
    (fun _ => OK) t.
Proof.
  intros H Hb Hl. unfold net_recv, bt_mesh_net_recv. apply wp_bind, wp_gets. wp_if; [by apply wp_ret|].
  apply wp_bind, wp_zoom. eapply wp_mono.
  { apply net_decode_safe; [done|done|done|apply H|intros _; apply H]. }
  cbv beta. intros [[err rx] buf] n1 [F1 Hd].
  set (t1 := t <| tr_net := n1 |>). assert (OK t1) as H1 by exact (net_frame_ok subnets_max pool t n1 (tr_log t) H F1).
  destruct err as [e|]; [by apply wp_ret|]. cbv zeta. apply wp_bind, wp_gets.
  destruct (local_address_some config_proxy config_friend (ctx_recv_dst (rx_ctx rx)) n1) as [local El]; [apply H1|].
  change (tr_net t1) with n1. rewrite El. apply wp_bind. eapply wp_need; [done|].
  set (rx1 := rx <| rx_local_match := local |>).
  apply (wp_seq OK). { apply wp_when; intros _; [|done]. apply on_net_ok; [done|]. by apply wp_modify. }
  intros [] t2 H2. apply wp_bind, wp_gets. wp_if; [by apply wp_ret|].
  assert (rx_sub rx1 < subnets_max)%nat as Hs1.
  { pose proof (dec_sub _ _ _ Hd) as Hs. pose proof (tok_subnets _ _ _ H1) as L. unfold subnet_count in L. cbn in L. cbn. lia. }
  destruct (dec_clear _ _ _ Hd) as [W Hb1 Hlen].
  apply wp_bind. eapply wp_mono; [apply (trans_recv_ok now buf rx1 rssi t2); [done|done|apply (dec_ttl _ _ _ Hd)|done|]|].
  { change (rx_ctl rx1) with (rx_ctl rx). rewrite (dec_ctl _ _ _ Hd). lia. }
  cbv beta. intros [[err buf'] rx'] t3 (H3 & Hm & Hsub & Htt). cbn [fst snd] in Hm, Hsub, Htt.
  apply (wp_seq OK). { apply wp_when; intros _; [|done]. apply on_net_ok; [done|]. by apply wp_modify. }
  intros [] t4 H4. apply wp_when; intros _; [|done]. apply on_net_ok; [done|].
  assert (contents (net_buf_simple_restore (net_buf_simple_save buf) buf') = contents buf /\
          buf_size (net_buf_simple_restore (net_buf_simple_save buf) buf') = buf_size buf) as [Ec Es].
  { unfold contents, buf_size. cbn. by rewrite Hm. }
  apply net_relay_safe.
  - split; [unfold buf_wf in *; by rewrite Es|by rewrite Ec|by rewrite Ec].
  - rewrite Hsub. pose proof (tok_subnets _ _ _ H4) as L. unfold subnet_count in L. lia.
  - rewrite Ec, Htt. apply (dec_recv _ _ _ Hd).
Qed.

(** Every PDU of the loopback queue. *)
Lemma net_local_ok now fuel t :
  OK t ->
  wp (net_local config_proxy config_friend config_cdb proxy_relay adv_buffer model_recv hb_recv now fuel) (fun _ => OK) t.
Proof.
  unfold net_local. revert t. induction fuel as [|fuel IH]; intros t H; cbn [bt_mesh_net_local]; [by apply wp_ret|].
  apply wp_bind, wp_gets. destruct (local_queue (tr_net t)) as [|[i pdu] q] eqn:Eq; [by apply wp_ret|].
  pose proof (tok_loop _ _ _ H) as Hq. unfold loop_ok in Hq. rewrite Eq in Hq. apply Forall_cons_1 in Hq as [[Hi Hp] Hq].
  cbn [fst snd] in Hi, Hp.
  apply (wp_seq OK). { apply on_net_ok; [done|]. apply wp_modify. by split_and!. }
  intros [] t1 H1. apply wp_bind, wp_gets.
  assert (i < subnet_count t1)%nat as Hi1 by (by rewrite (tok_subnets _ _ _ H1), <- (tok_subnets _ _ _ H)).
  destruct (lookup_lt_is_Some_2 _ _ Hi1) as [sub Hsub]. apply wp_bind. eapply wp_need; [done|].
  apply wp_bind. eapply wp_mono; [apply trans_recv_ok; [done|..]|].
  - cbn. by rewrite <- (tok_subnets _ _ _ H1).
  - done.
  - unfold buf_wf, buf_size. cbn. rewrite length_app. lia.
  - cbn. destruct (CTL pdu); lia.
  - cbv beta. intros r t2 (H2 & _). apply (wp_seq OK). { apply on_net_ok; [done|]. by apply wp_modify. }
    intros [] t3 H3. by apply IH.
Qed.
End Reception.
