(* ===== verification/TransportOps.v ===== *)
(** * Runs of the transport layer

    The operations of the transport layer, with the network layer underneath, as the
    steps of a machine: messages to send, packets that arrive, the delayed works, the
    callbacks of the bearer and resets, in any order.  Every run is free of undefined
    behaviour and keeps the invariant. *)

From S2P Require Import Prelude ByteOrder MeshDefs Cdb NetBuf Access Rpl Ccm MeshCrypto Subnet AppKeys Net NetProps NetRecv Transport TransportProps TransportSafe TransportRecv.

Section Runs.
Context {ecb : Ecb} {ecb_ok : EcbOk} {cmac : Cmac} (config_proxy config_friend config_cdb : bool).
Context (proxy_relay : bytes -> Z -> bt_mesh_net -> bool) (adv_buffer : bt_mesh_net -> bool).
Context {F : Type} {friend : FriendOps F} {idle : FriendIdle friend}.
Context (model_recv : bt_mesh_net_rx -> net_buf_simple -> Z -> ST (trans F) bt_mesh_net_rx).
Context (hb_recv : bt_mesh_net_rx -> bytes -> ST (trans F) ret_code).
Context (subnets_max pool : nat).

Abbreviation OK := (trans_ok (F := F) subnets_max pool).

Inductive trans_op : Type :=
| OpSend (tx : bt_mesh_net_tx) (msg : net_buf_simple) (cb : option bt_mesh_send_cb)
| OpCtlSend (tx : bt_mesh_net_tx) (ctl_op : Z) (data : bytes) (cb : option bt_mesh_send_cb)
| OpRecv (now : Z) (data : bytes) (rssi : Z) (net_if : bt_mesh_net_if)
| OpLocal (now : Z) (count : nat)
| OpRetransmit (i : nat)
| OpSegStart (duration : Z) (err : ret_code) (i : nat)
| OpSegEnd (i : nat)
| OpAck (now : Z) (i : nat)
| OpVaAdd (uuid : bytes)
| OpVaDel (uuid : bytes)
| OpReset
| OpInit.

(** A delayed work runs when it is submitted. *)
Definition run_op (o : trans_op) : ST (trans F) unit :=
  match o with
  | OpSend tx msg cb =>
      _ ← bt_mesh_trans_send config_proxy config_friend config_cdb proxy_relay adv_buffer tx msg cb; mret tt
  | OpCtlSend tx op data cb =>
      _ ← bt_mesh_ctl_send config_proxy config_friend config_cdb proxy_relay adv_buffer tx op data cb; mret tt
  | OpRecv now data rssi net_if =>
      net_recv config_proxy config_friend config_cdb proxy_relay adv_buffer model_recv hb_recv now data rssi net_if
  | OpLocal now count =>
      net_local config_proxy config_friend config_cdb proxy_relay adv_buffer model_recv hb_recv now count
  | OpRetransmit i =>
      tx ← get_tx i;
      when (match stx_retransmit tx with Some _ => true | None => false end)
        (seg_retransmit config_proxy config_friend config_cdb proxy_relay adv_buffer i)
  | OpSegStart duration err i => seg_send_start duration err i
  | OpSegEnd i => seg_sent i
  | OpAck now i =>
      rx ← get_rx i;
      when (match srx_ack rx with Some _ => true | None => false end)
        (seg_ack config_proxy config_friend config_cdb proxy_relay adv_buffer now i)
  | OpVaAdd uuid => _ ← bt_mesh_va_add uuid; mret tt
  | OpVaDel uuid => _ ← bt_mesh_va_del uuid; mret tt
  | OpReset => bt_mesh_trans_reset config_proxy config_friend config_cdb
  | OpInit => bt_mesh_trans_init
  end.

Fixpoint run_ops (os : list trans_op) : ST (trans F) unit :=
  match os with
  | [] => mret tt
  | o :: os => _ ← run_op o; run_ops os
  end.

(** What the callers guarantee: an access message has room for its MIC within the six
    segments, a control message is at most six segments long and not sent on a subnet
    that is not there, a packet is at most an advertising PDU, a context is one of the
    three. *)
Definition op_fits (o : trans_op) : Prop :=
  match o with
  | OpSend tx msg _ =>
      buf_wf msg /\ 0 <= ctx_send_ttl (tx_ctx tx) /\ ctx_app_idx (tx_ctx tx) <> BT_MESH_KEY_UNUSED /\
      (buf_len msg + mic_size tx msg <= BT_MESH_TX_SDU_MAX)%nat
  | OpCtlSend tx _ data _ =>
      (tx_sub tx < subnets_max)%nat /\ 0 <= ctx_send_ttl (tx_ctx tx) /\
      (length data <= CONFIG_BT_MESH_TX_SEG_MAX * BT_MESH_CTL_SEG_SDU_MAX)%nat /\
      (ctx_send_rel (tx_ctx tx) = true -> data <> [])
  | OpRecv _ data _ _ => wf_bytes data /\ (length data <= BT_MESH_ADV_DATA_SIZE)%nat
  | OpRetransmit i | OpSegStart _ _ i | OpSegEnd i => (i < CONFIG_BT_MESH_TX_SEG_MSG_COUNT)%nat
  | OpAck _ i => (i < CONFIG_BT_MESH_RX_SEG_MSG_COUNT)%nat
  | _ => True
  end.

(** ** The operations not treated before *)

Lemma ctl_send_ok tx op data cb t :
  OK t -> op_fits (OpCtlSend tx op data cb) ->
  wp (bt_mesh_ctl_send config_proxy config_friend config_cdb proxy_relay adv_buffer tx op data cb) (fun _ => OK) t.
Proof.
  intros H (Hs & Ht & Hl & Hrel). unfold bt_mesh_ctl_send. apply wp_bind, wp_gets.
  pose proof (tok_ttl _ _ _ H) as Hd.
  assert (forall j, (j < subnet_count t)%nat -> net_ready j (tr_net t)) as Hr by (intros j; by apply (tok_ready subnets_max pool)).
  destruct (resolve_ttl (tr_default_ttl t) tx) as [tx1|] eqn:Er; [|by apply wp_ret].
  assert (0 <= ctx_send_ttl (tx_ctx tx1) < 128 /\ tx_sub tx1 = tx_sub tx /\ ctx_send_rel (tx_ctx tx1) = ctx_send_rel (tx_ctx tx))
    as (Ht1 & Hs1 & Hrel1).
  { unfold resolve_ttl, BT_MESH_TTL_MAX in Er. destruct (_ =? BT_MESH_TTL_DEFAULT); [by injection Er as <-|].
    destruct (127 <? _) eqn:E; [done|]. injection Er as <-. zbool. split_and!; try done; lia. }
  rewrite <- Hs1, <- (tok_subnets _ _ _ H) in Hs. cbv zeta.
  set (tx2 := if (BT_MESH_SDU_UNSEG_MAX <? length data)%nat then _ else tx1).
  assert (ctx_send_ttl (tx_ctx tx2) = ctx_send_ttl (tx_ctx tx1) /\ tx_sub tx2 = tx_sub tx1 /\
          (ctx_send_rel (tx_ctx tx2) = true -> data <> []) /\
          (ctx_send_rel (tx_ctx tx2) = false -> (length data <= 11)%nat)) as (Ht2 & Hs2 & Hrel2 & Hl2).
  { unfold tx2. destruct (_ <? length data)%nat eqn:E; split_and!; try done.
    - intros _ ->. done.
    - rewrite Hrel1. done.
    - intros _. by apply Nat.ltb_ge in E. }
  wp_if; [by apply wp_ret|]. cbn. wp_if.
  - apply (send_seg_kept _ _ _ _ _ (subnet_count t)); try done; cbn.
    + apply H.
    + by rewrite Hs2.
    + by rewrite Ht2.
    + unfold buf_wf, buf_size. cbn. lia.
    + destruct data; [by destruct (Hrel2 eq_refl)|]. cbn in Hl |- *. lia.
    + intros i tx'. by apply kept_ok.
  - apply send_unseg_safe; [done|..]; cbn.
    + rewrite Hs2. by apply Hr.
    + by rewrite Ht2.
    + by apply Hl2.
    + by apply net_only_ok.
Qed.
(** The labels are independent of the rest. *)
Lemma labels_ok l lg t : OK t -> OK (t <| tr_virtual_addrs := l |> <| tr_log := lg |>).
Proof. intros [H1 H2 H3 H4 H5 H6 H7 H8 H9 H10]. by split. Qed.

Lemma set_va_ok f i t : OK t -> wp (set_va f i) (fun _ => OK) t.
Proof. intros H. apply wp_modify. exact (labels_ok _ (tr_log t) t H). Qed.

Lemma va_store_ok i t : OK t -> wp (va_store i) (fun _ => OK) t.
Proof.
  intros H. apply (wp_seq OK); [by apply set_va_ok|]. intros [] t1 H1. apply wp_modify.
  exact (labels_ok (tr_virtual_addrs t1) _ t1 H1).
Qed.

Lemma va_add_ok uuid t : OK t -> wp (bt_mesh_va_add uuid) (fun _ => OK) t.
Proof.
  intros H. unfold bt_mesh_va_add. apply wp_bind, wp_gets. destruct (_ ≫= _) as [[i va]|]; [|by apply wp_ret].
  destruct (va_matches uuid va).
  - apply (wp_seq OK); [by apply set_va_ok|]. intros [] t1 H1. apply (wp_then (fun _ => _)). by apply va_store_ok.
  - apply (wp_seq OK); [by apply set_va_ok|]. intros [] t1 H1. destruct (bt_mesh_virtual_addr uuid).
    + apply (wp_then (fun _ => _)). by apply set_va_ok.
    + apply (wp_seq OK); [by apply set_va_ok|]. intros [] t2 H2. apply (wp_then (fun _ => _)). by apply va_store_ok.
Qed.

Lemma va_del_ok uuid t : OK t -> wp (bt_mesh_va_del uuid) (fun _ => OK) t.
Proof.
  intros H. unfold bt_mesh_va_del. apply wp_bind, wp_gets. destruct (_ ≫= _) as [[i va]|]; [|by apply wp_ret].
  apply (wp_seq OK); [by apply set_va_ok|]. intros [] t1 H1. apply (wp_then (fun _ => _)). by apply va_store_ok.
Qed.

Lemma tx_reset_ok i t :
  OK t -> (i < length (tr_seg_tx t))%nat -> wp (seg_tx_reset config_proxy config_friend config_cdb i) (fun _ => OK) t.
Proof.
  intros H Hi. destruct (lookup_lt_is_Some_2 _ _ Hi) as [tx Htx].
  pose proof (Forall_lookup_1 _ _ _ _ (tok_tx _ _ _ H) Htx) as Hok. rewrite (st_id i tx t Htx).
  pose proof (blocks_le tx (txo_shape _ _ Hok)). pose proof (txo_count _ _ Hok).
  apply wp_reset; [done|apply Hok|lia|]. intros l n' Ll El Hf.
  apply (st_ok subnets_max pool i tx); try done; [apply reset_ok; try done; apply Hok|]. cbn. rewrite El. lia.
Qed.

Lemma trans_reset_ok t : OK t -> wp (bt_mesh_trans_reset config_proxy config_friend config_cdb) (fun _ => OK) t.
Proof.
  intros H. unfold bt_mesh_trans_reset.
  assert (forall n (body : nat -> ST (trans F) unit) t, OK t -> (forall i t, (i < n)%nat -> OK t -> wp (body i) (fun _ => OK) t) ->
    wp (for_loop n 0 body) (fun _ => OK) t) as Hloop.
  { intros n body t0 H0 Hb. apply (wp_for_loop (fun _ => OK)); [done|]. intros k s Hk Hs. apply Hb; [lia|done]. }
  apply (wp_seq OK).
  { unfold bt_mesh_rx_reset. apply wp_bind, wp_gets. rewrite (proj2 (tok_count _ _ _ H)). apply Hloop; [done|].
    intros i t1 Hi H1. by apply (rx_reset_ok config_friend subnets_max pool). }
  intros [] t1 H1. apply wp_bind, wp_gets. rewrite (proj1 (tok_count _ _ _ H1)). apply (wp_seq OK).
  { apply Hloop; [done|]. intros i t2 Hi H2. apply tx_reset_ok; [done|]. by rewrite (proj1 (tok_count _ _ _ H2)). }
  intros [] t2 H2. apply (wp_seq OK).
  { apply wp_modify. exact (labels_ok _ (tr_log t2) t2 H2). }
  intros [] t3 H3. apply (wp_seq OK).
  { apply (on_net_ok subnets_max pool); [done|]. by apply wp_modify. }
  intros [] t4 H4. apply wp_modify. exact (labels_ok (tr_virtual_addrs t4) _ t4 H4).
Qed.

Lemma sum_map {A : Type} (f : A -> nat) (g : A -> A) l : (forall x, f (g x) = f x) -> sum_list_with f (map g l) = sum_list_with f l.
Proof. intros H. induction l as [|x l IH]; cbn; [done|]. by rewrite H, IH. Qed.

Lemma trans_init_ok t : OK t -> wp bt_mesh_trans_init (fun _ => OK) t.
Proof.
  intros [H1 H2 H3 H4 H5 H6 H7 H8 H9 H10]. apply wp_modify. split; try done; cbn.
  - by rewrite !length_map.
  - apply Forall_fmap. eapply Forall_impl; [|exact H8]. intros tx Hok. by apply (tx_ok_same _ tx).
  - apply Forall_fmap. eapply Forall_impl; [|exact H9]. intros rx Hok. apply (rx_ok_same _ rx); [done..|by intros [? ?]].
  - by rewrite !sum_map.
Qed.

(** ** Runs *)

(** The layers above the transport layer use it through its operations. *)
Hypothesis model_recv_ok : forall rx sdu rssi t,
  OK t -> (rx_sub rx < subnets_max)%nat -> wp (model_recv rx sdu rssi) (fun rx' t' => OK t' /\ keeps_rx rx rx') t.
Hypothesis hb_recv_ok : forall rx buf t, OK t -> (rx_sub rx < subnets_max)%nat -> wp (hb_recv rx buf) (fun _ => OK) t.
Hypothesis friend_ctl_ok : forall op rx buf t,
  OK t -> (rx_sub rx < subnets_max)%nat -> wp (bt_mesh_friend_ctl op rx buf) (fun _ => OK) t.

Lemma run_op_ok o t : OK t -> op_fits o -> wp (run_op o) (fun _ => OK) t.
Proof.
  intros H Hf. pose proof (tok_count _ _ _ H) as [Ltx Lrx].
  destruct o as [tx msg cb|tx op data cb|now data rssi net_if|now count|i|d err i|i|now i|uuid|uuid| |]; cbn [run_op op_fits] in *.
  - destruct Hf as (W & Ht & Ha & Hl). apply (wp_then (fun _ => tt)). by apply trans_send_ok.
  - apply (wp_then (fun _ => tt)). by apply ctl_send_ok.
  - destruct Hf as [Hb Hl]. by apply (net_recv_ok config_proxy config_friend config_cdb proxy_relay adv_buffer subnets_max pool).
  - by apply (net_local_ok config_proxy config_friend config_cdb proxy_relay adv_buffer subnets_max pool).
  - rewrite <- Ltx in Hf. destruct (lookup_lt_is_Some_2 _ _ Hf) as [tx Htx]. apply wp_bind. unfold get_tx.
    apply wp_bind, wp_gets. rewrite Htx. eapply wp_need; [done|]. apply wp_when; intros _; [|done]. by apply seg_retransmit_ok.
  - rewrite <- Ltx in Hf. by apply seg_send_start_ok.
  - rewrite <- Ltx in Hf. by apply schedule_ok.
  - rewrite <- Lrx in Hf. destruct (lookup_lt_is_Some_2 _ _ Hf) as [rx Hrx]. apply wp_bind, (wp_get_rx_at i rx); [done|].
    apply wp_when; intros Ha; [|done]. eapply wp_mono; [apply (seg_ack_kept _ _ _ _ _ subnets_max pool _ _ _ rx); try done; by destruct (srx_ack rx)|by intros ? ? []].
  - apply (wp_then (fun _ => tt)). by apply va_add_ok.
  - apply (wp_then (fun _ => tt)). by apply va_del_ok.
  - by apply trans_reset_ok.
  - by apply trans_init_ok.
Qed.

(** C3: The transport layer with the network layer under it is free of undefined
    behaviour, on a node that is nobody's Friend and within the limits of its callers. In
    whatever order messages are sent, packets of up to 29 bytes of any content arrive,
    delayed works run, the bearer reports and the layer is reset, every operation is
    defined: no array of segments is overrun, no block is read that was not written, no
    missing subnet or key is used. The invariant of the contexts holds after each, and the
    blocks in them and the free ones add up to the pool. Excluded is what the code does
    not check: an access message over six segments with its MIC
    ([long_message_undefined]), a PDU of more than 29 bytes from a proxy client
    ([oversized_pdu_undefined]), a control message of more than six segments or on a
    missing subnet, and a context index out of range; and a Friend, for which the reset of
    a context can dereference NULL. The access layer, the heartbeat and the friend
    callbacks keep the invariant. *)
Theorem trans_safe os t :
  OK t -> Forall op_fits os -> exists t', run_ops os t = Some (tt, t') /\ OK t'.
Proof.
  revert t. induction os as [|o os IH]; intros t H Ho; [by exists t|]. apply Forall_cons_1 in Ho as [Ho Hos].
  destruct (run_op_ok o t H Ho) as ([] & t1 & E & H1). destruct (IH t1 H1 Hos) as (t2 & E2 & H2).
  exists t2. split; [|done]. cbn [run_ops]. by rewrite (bind_some _ _ _ _ _ E).
Qed.
End Runs.

(** ** A node *)

(** A node that is nobody's Friend. *)
#[export] Instance no_friends {F : Type} : FriendOps F := {
  bt_mesh_friend_match _ _ _ := false;
  bt_mesh_friend_queue_has_space _ _ _ _ _ _ := true;
  bt_mesh_friend_enqueue_tx _ _ _ _ _ := mret false;
  bt_mesh_friend_enqueue_rx _ _ _ _ _ := mret tt;
  bt_mesh_friend_clear_incomplete _ _ _ _ := mret tt;
  bt_mesh_friend_ctl _ _ _ := mret None;
}.

#[export] Instance no_friends_idle {F : Type} : FriendIdle (no_friends (F := F)).
Proof. by split. Qed.

Definition seg_tx_zero : seg_tx :=
  mkSegTx None (replicate CONFIG_BT_MESH_TX_SEG_MAX None) 0 0 0 0 0 0 0 0 0 0 0 0 false false false false false false None None.
Definition seg_rx_zero : seg_rx :=
  mkSegRx None (replicate CONFIG_BT_MESH_RX_SEG_MAX None) 0 0 0 0 0 0 false false false 0 0 0 None.

(** The state of the transport layer at start, on top of the network [n] and the keys [a]. *)
Definition trans_zero {F : Type} (f : F) (n : bt_mesh_net) (a : app_keys) : trans F :=
  mkTrans n a (bt_mesh_cdb_init 0 0 0) (replicate 16 2) 7 (replicate CONFIG_BT_MESH_TX_SEG_MSG_COUNT seg_tx_zero)
    (replicate CONFIG_BT_MESH_RX_SEG_MSG_COUNT seg_rx_zero) 64 (replicate 3 (mkVa 0 false 0 (replicate 16 0))) f [].

Definition apps_example : app_keys := mkApps [mkAppKey 0 0 false (mkAppCred 25 (replicate 16 6)) app_cred_zero; app_key_zero] [].

Definition trans_example (addr : Z) : trans unit := trans_zero tt (node_example addr 2 false subnet_example) apps_example.

Lemma seg_tx_zero_ok count : tx_ok count seg_tx_zero.
Proof.
  split; try done. split; try done; cbn [stx_seg seg_tx_zero].
  - intros k _. apply blocks_none, (blocks_replicate CONFIG_BT_MESH_TX_SEG_MAX).
  - intros k b Hk. apply lookup_replicate in Hk as [? _]. done.
Qed.

Lemma seg_rx_zero_ok count : rx_ok count seg_rx_zero.
Proof.
  split; try done; cbn [srx_seg seg_rx_zero].
  - intros k _. apply blocks_none, (blocks_replicate CONFIG_BT_MESH_RX_SEG_MAX).
  - intros k b Hk. apply lookup_replicate in Hk as [? _]. done.
  - by intros [? ?].
Qed.

Lemma trans_zero_ok {F : Type} (f : F) n a :
  comp_elem (net_comp n) <> [] -> Forall (fun sub => 0 <= cred_nid (tx_msg_cred sub) < 128) (subs (net_subnets n)) ->
  loop_ok n -> friends_ok n -> trans_ok (length (subs (net_subnets n))) 64 (trans_zero f n a).
Proof.
  intros H1 H2 H3 H4. split; try done.
  - apply Forall_replicate, seg_tx_zero_ok.
  - apply Forall_replicate, seg_rx_zero_ok.
Qed.

Definition send_example (c : bytes) : trans_op :=
  OpSend (mkTx 0 (mkCtx 0 0 9 0 0 0 false 5) 4 0 false false 0) (mkBuf 0 (length c) (c ++ replicate 8 0)) None.

Definition model_recv_none (rx : bt_mesh_net_rx) (sdu : net_buf_simple) (rssi : Z) : ST (trans unit) bt_mesh_net_rx := mret rx.
Definition hb_recv_none (rx : bt_mesh_net_rx) (buf : bytes) : ST (trans unit) ret_code := mret None.

Lemma trans_safe_witness :
  let os := [send_example (seqZ 1 20); OpRecv 5 (seqZ 38 29) 0 BT_MESH_NET_IF_ADV; OpSegEnd 0; OpSegEnd 0; OpRetransmit 0;
             OpAck 9 1; OpReset] in
  exists t', @run_ops toy_ecb toy_cmac true true false (fun _ _ _ => false) (fun _ => true) unit no_friends
               model_recv_none hb_recv_none os (trans_example 4) = Some (tt, t') /\ trans_ok 2 64 t'.
Proof.
  cbv zeta. apply (@trans_safe toy_ecb toy_ecb_ok toy_cmac true true false (fun _ _ _ => false) (fun _ => true) unit no_friends
    no_friends_idle model_recv_none hb_recv_none 2 64).
  - intros rx sdu rssi t H _. by apply wp_ret.
  - intros rx buf t H _. by apply wp_ret.
  - intros op rx buf t H _. by apply wp_ret.
  - apply (trans_zero_ok tt (node_example 4 2 false subnet_example)); try (by vm_compute).
    repeat constructor; vm_compute; congruence.
  - repeat constructor; try (vm_compute; (congruence || lia)).
Defined.
