(* ===== verification/Retransmit.v ===== *)
(** * The retransmission procedure

    A segmented message is sent again until it is acknowledged or its attempts are used
    up, after which the context is free again and the caller has been told; except for
    messages with TTL 1, which are never given up. *)

From S2P Require Import Prelude ByteOrder MeshDefs Cdb NetBuf Access Rpl Ccm MeshCrypto Subnet AppKeys Net NetProps NetRecv Transport TransportProps TransportSafe TransportRecv TransportOps.

Section Retransmission.
Context {ecb : Ecb} {ecb_ok : EcbOk} {cmac : Cmac} (config_proxy config_friend config_cdb : bool).
Context (proxy_relay : bytes -> Z -> bt_mesh_net -> bool) (adv_buffer : bt_mesh_net -> bool).
Context {F : Type} {friend : FriendOps F} {idle : FriendIdle friend}.
Context (model_recv : bt_mesh_net_rx -> net_buf_simple -> Z -> ST (trans F) bt_mesh_net_rx).
Context (hb_recv : bt_mesh_net_rx -> bytes -> ST (trans F) ret_code).

(** Advertising buffers are free, and no proxy client takes the packets. *)
Hypothesis buffers_free : forall n, adv_buffer n = true.
Hypothesis no_proxy_client : forall pdu dst n, proxy_relay pdu dst n = false.

Abbreviation retransmit := (seg_retransmit config_proxy config_friend config_cdb proxy_relay adv_buffer).

(** A segment goes out, or is refused if its TTL is 1; in both cases it takes a sequence
    number. *)
Lemma wp_net_send_remote net_tx xmit buf cb (Q : ret_code * bool -> trans F -> Prop) t :
  net_ready (tx_sub net_tx) (tr_net t) -> 0 <= ctx_send_ttl (tx_ctx net_tx) < 128 ->
  buf_wf buf -> (9 <= net_buf_simple_headroom buf)%nat ->
  ((if is_ctl (tx_ctx net_tx) then 8 else 4) <= net_buf_simple_tailroom buf)%nat ->
  (1 <= buf_len buf <= if is_ctl (tx_ctx net_tx) then 12 else 16)%nat ->
  local_address config_proxy config_friend (ctx_addr (tx_ctx net_tx)) (tr_net t) = Some false ->
  (forall n', net_frame (tr_net t) n' ->
     Q (if ctx_send_ttl (tx_ctx net_tx) =? 1 then Some EINVAL else None, false) (t <| tr_net := n' |>)) ->
  wp (net_send config_proxy config_friend config_cdb proxy_relay net_tx xmit buf cb) Q t.
Proof.
  intros (Hc & sub & Hsub & Hnid) Ht W Hh Hr Hl Hloc HQ. unfold net_send. apply wp_bind, wp_gets, wp_zoom.
  assert (sendable net_tx sub buf (tr_net t)) as Hs by (by split).
  set (busy := bt_mesh_tx_in_progress t). pose proof (next_seq_frame config_proxy config_friend config_cdb busy (tr_net t)) as F1.
  destruct (ctx_send_ttl (tx_ctx net_tx) =? 1) eqn:E1.
  - destruct (send_encodes config_proxy config_friend config_cdb busy net_tx sub buf (tr_net t) Hs) as (b1 & b2 & E & _).
    set (n1 := (bt_mesh_next_seq _ _ _ _ _).2) in *.
    unfold bt_mesh_net_send. cbv zeta. wp_step. wp_step. unfold net_tx_cred_get. rewrite Hsub.
    wp_step. eapply wp_need; [done|]. cbv beta iota. wp_step. eapply wp_some; [exact E|]. cbv beta iota.
    wp_step. wp_step. rewrite (local_address_frame _ _ _ _ _ F1), Hloc. wp_step. eapply wp_need; [done|]. cbv iota.
    rewrite E1. apply wp_ret. by apply HQ.
  - zbool. eapply wp_some; [apply (net_send_transmits config_proxy config_friend config_cdb proxy_relay busy net_tx sub); try done|].
    apply HQ. by eapply net_frame_trans.
Qed.

(** The context with unacknowledged segments, between two rounds. *)
Record waiting (subnet_count : nat) (tx : seg_tx) : Prop := {
  wai_ok :> tx_ok subnet_count tx;
  wai_nack : stx_nack_count tx <> 0;
  wai_o : stx_seg_o tx = 0;
  wai_pending : stx_seg_pending tx = 0;
  wai_sending : stx_sending tx = false;
}.

Definition remote (dst : Z) (n : bt_mesh_net) : Prop := local_address config_proxy config_friend dst n = Some false.

Lemma remote_frame dst n n' : net_frame n n' -> remote dst n -> remote dst n'.
Proof. intros Hf. unfold remote. by rewrite (local_address_frame _ _ _ _ _ Hf). Qed.

Lemma blocks_tail_none tx k : tx_shape tx -> stx_seg_n tx < Z.of_nat k -> blocks (drop k (stx_seg tx)) = 0%nat.
Proof.
  intros H Hk. apply blocks_none. intros j. unfold seg_none in *.
  rewrite lookup_drop. apply (txs_high tx H). pose proof (txs_n tx H). lia.
Qed.

(** All segments are sent, from [seg_o] on. *)
Lemma wp_unacked_all net_tx i m tx free n lg (Q : bool -> trans F -> Prop) t :
  (i < length (tr_seg_tx t))%nat -> tx_shape tx -> stx_sending tx = true ->
  0 <= stx_seg_o tx -> stx_seg_o tx + Z.of_nat m = stx_seg_n tx + 1 ->
  0 <= stx_seg_pending tx <= stx_seg_o tx ->
  net_ready (tx_sub net_tx) n -> 0 <= ctx_send_ttl (tx_ctx net_tx) < 128 -> ctx_send_ttl (tx_ctx net_tx) <> 1 ->
  is_ctl (tx_ctx net_tx) = stx_ctl tx -> remote (ctx_addr (tx_ctx net_tx)) n ->
  (forall n', net_frame n n' ->
     Q true (st i (sent (stx_seg_n tx + 1) (stx_seg_pending tx + Z.of_nat (blocks (drop (Z.to_nat (stx_seg_o tx)) (stx_seg tx))))
                     (stx_started tx) tx) free n' lg t)) ->
  wp (send_unacked_loop config_proxy config_friend config_cdb proxy_relay adv_buffer net_tx i m) Q (st i tx free n lg t).
Proof.
  intros Hi. revert tx n lg.
  induction m as [|m IH]; intros tx n lg Hs Hsd Ho Hm Hp Hr Ht Ht1 Hc Hrem HQ; cbn [send_unacked_loop].
  { apply wp_ret. specialize (HQ n (net_frame_refl n)). rewrite blocks_tail_none in HQ by (done || lia).
    replace (sent _ _ _ tx) with tx in HQ by (rewrite Z.add_0_r; replace (stx_seg_n tx + 1) with (stx_seg_o tx) by lia; by destruct tx).
    done. }
  pose proof (txs_n tx Hs) as Hn. change (Z.of_nat CONFIG_BT_MESH_TX_SEG_MAX) with 6 in Hn.
  set (o := Z.to_nat (stx_seg_o tx)) in *.
  assert (forall p n', net_frame n n' -> 0 <= p <= stx_seg_o tx + 1 ->
    p + Z.of_nat (blocks (drop (S o) (stx_seg tx))) = stx_seg_pending tx + Z.of_nat (blocks (drop o (stx_seg tx))) ->
    wp (_ ← set_tx (fun tx => tx <| stx_seg_o := u8 (stx_seg_o tx + 1) |>) i;
        send_unacked_loop config_proxy config_friend config_cdb proxy_relay adv_buffer net_tx i m) Q
       (st i (tx <| stx_seg_pending := p |>) free n' lg t)) as Hnext.
  { intros p n' Hf Hp' Hb. apply wp_bind, wp_set_tx.
    change (stx_seg_o (tx <| stx_seg_pending := p |>)) with (stx_seg_o tx). rewrite u8_id by (unfold is_u8; lia).
    apply IH; try done; cbn; [by destruct Hs|lia..| | |].
    - by apply (net_ready_frame _ n).
    - by apply (remote_frame _ n).
    - intros n2 Hf2. replace (Z.to_nat (stx_seg_o tx + 1)) with (S o) by (unfold o; lia). rewrite Hb.
      apply (HQ n2). by eapply net_frame_trans. }
  apply wp_bind, wp_get_tx; [done|]. cbv zeta. fold o.
  destruct (lookup_lt_is_Some_2 (stx_seg tx) o) as [seg Hseg].
  { rewrite (txs_len tx Hs). unfold CONFIG_BT_MESH_TX_SEG_MAX, o. lia. }
  assert (drop o (stx_seg tx) = seg :: drop (S o) (stx_seg tx)) as Ed by (by apply drop_S).
  apply wp_bind. eapply wp_need; [done|]. destruct seg as [b|].
  2: { specialize (Hnext (stx_seg_pending tx) n (net_frame_refl n)).
       replace (tx <| stx_seg_pending := stx_seg_pending tx |>) with tx in Hnext by (by destruct tx).
       apply Hnext; [lia|]. by rewrite Ed. }
  apply wp_bind. unfold adv_create. apply wp_bind, wp_gets. rewrite buffers_free. apply wp_ret. fold adv_empty.
  destruct adv_empty_abs as [We Ae]. destruct (txs_size tx Hs _ _ Hseg) as [_ Hl].
  destruct (buf_build_ok tx (stx_seg_o tx) b adv_empty 9 [] 20) as (buf & Eb & Wb & Ab);
    [done..|pose proof (seg_len_cases (stx_ctl tx)); lia|].
  apply wp_bind. eapply wp_need_run; [done|]. cbv beta iota. apply wp_bind, wp_set_tx, wp_bind.
  pose proof (abs_len buf _ _ _ Wb Ab) as Lb. injection Ab as Hh Hcont Htail.
  apply wp_net_send_remote; try done; try lia.
  { rewrite Htail, Hc. unfold seg_len, BT_MESH_CTL_SEG_SDU_MAX, BT_MESH_APP_SEG_SDU_MAX in Hl. destruct (stx_ctl tx); lia. }
  { rewrite Lb, Hc. unfold seg_pdu. rewrite !length_app. cbn [length app].
    unfold seg_len, BT_MESH_CTL_SEG_SDU_MAX, BT_MESH_APP_SEG_SDU_MAX in Hl. destruct (stx_ctl tx); lia. }
  intros n1 Hf1. rewrite (proj2 (Z.eqb_neq _ _) Ht1). cbv beta iota. change (tr_net (st _ _ _ n _ _)) with n in Hf1.
  change (st ?i ?x ?f _ ?l ?u <| tr_net := n1 |>) with (st i x f n1 l u). cbn [when]. apply wp_bind, wp_ret.
  rewrite u8_id by (unfold is_u8; lia). apply Hnext; [done|lia|]. rewrite Ed. unfold blocks. cbn [countb is_block]. lia.
Qed.
(** *** One round: the segments go out, and the bearer reports each of them *)

Abbreviation run := (run_ops config_proxy config_friend config_cdb proxy_relay adv_buffer model_recv hb_recv).

Definition round (i : nat) (tx : seg_tx) : list trans_op := OpRetransmit i :: replicate (blocks (stx_seg tx)) (OpSegEnd i).

Definition after_round (tx : seg_tx) : seg_tx :=
  tx <| stx_attempts := stx_attempts tx - 1 |> <| stx_retransmit := Some (SEG_RETRANSMIT_TIMEOUT tx) |>.

Lemma wp_retransmit_submitted i tx free n lg (Q : unit -> trans F -> Prop) t :
  (i < length (tr_seg_tx t))%nat -> is_Some (stx_retransmit tx) ->
  wp (retransmit i) Q (st i tx free n lg t) ->
  wp (run_op config_proxy config_friend config_cdb proxy_relay adv_buffer model_recv hb_recv (OpRetransmit i)) Q (st i tx free n lg t).
Proof. intros Hi [d Hd] H. cbn [run_op]. apply wp_bind, wp_get_tx; [done|]. rewrite Hd. done. Qed.

Lemma wp_reports i m tx free n lg (Q : unit -> trans F -> Prop) t :
  (i < length (tr_seg_tx t))%nat -> stx_nack_count tx <> 0 -> stx_sending tx = false -> stx_seg_o tx = 0 ->
  stx_seg_pending tx = Z.of_nat (S m) -> (m < 6)%nat ->
  Q tt (st i (tx <| stx_seg_pending := 0 |> <| stx_retransmit := Some (SEG_RETRANSMIT_TIMEOUT tx) |>) free n lg t) ->
  wp (run (replicate (S m) (OpSegEnd i))) Q (st i tx free n lg t).
Proof.
  intros Hi Hn Hs Ho. revert tx Hn Hs Ho. induction m as [|m IH]; intros tx Hn Hs Ho Hp Hm HQ.
  all: cbn [replicate run_ops run_op]; apply wp_bind; unfold seg_sent, schedule_retransmit.
  all: apply wp_bind, wp_get_tx; [done|]; rewrite (proj2 (Z.eqb_neq _ _) Hn).
  all: apply wp_bind, wp_set_tx, wp_bind, wp_get_tx; [done|].
  all: change (stx_seg_pending (tx <| stx_seg_pending := ?p |>)) with p; rewrite Hp, u8_id by (unfold is_u8; lia).
  - cbn [stx_sending assign]. change (stx_sending (tx <| stx_seg_pending := _ |>)) with (stx_sending tx). rewrite Hs.
    apply wp_set_tx, wp_ret. cbn [stx_seg_o assign]. change (stx_seg_o (tx <| stx_seg_pending := _ |>)) with (stx_seg_o tx).
    rewrite Ho. exact HQ.
  - rewrite (proj2 (Z.eqb_neq _ _)) by lia. cbn [negb orb]. apply wp_ret.
    apply (IH (tx <| stx_seg_pending := Z.of_nat (S (S m)) - 1 |>)); try done; [cbn; lia|lia].
Qed.

Lemma round_ok count i tx free n lg (Q : unit -> trans F -> Prop) t :
  (i < length (tr_seg_tx t))%nat -> waiting count tx -> is_Some (stx_retransmit tx) -> 0 < stx_attempts tx ->
  (forall j, (j < count)%nat -> net_ready j n) -> stx_ttl tx <> 1 -> remote (stx_dst tx) n ->
  (forall n', net_frame n n' -> Q tt (st i (after_round tx) free n' lg t)) ->
  wp (run (round i tx)) Q (st i tx free n lg t).
Proof.
  intros Hi [Hok Hn Ho Hp Hsd] Hre Ha Hnet Httl Hrem HQ. unfold round. cbn [run_ops]. apply wp_bind, wp_retransmit_submitted; [done..|].
  unfold seg_retransmit, seg_tx_send_unacked. apply wp_bind, wp_set_tx, wp_bind, wp_get_tx; [done|].
  set (tx0 := tx <| stx_retransmit := None |>). change (stx_nack_count tx0) with (stx_nack_count tx).
  rewrite (proj2 (Z.eqb_neq _ _) Hn). destruct (txo_sub _ _ Hok Hn) as (j & Hj & Hlt). change (stx_sub tx0) with (stx_sub tx).
  rewrite Hj. apply wp_bind. eapply wp_need; [done|]. apply wp_bind, wp_net_idx_of; [by apply Hnet|]. intros net_idx.
  change (stx_attempts tx0) with (stx_attempts tx). rewrite (proj2 (Z.eqb_neq _ _)) by lia.
  pose proof (txo_shape _ _ Hok) as Hs. pose proof (blocks_le tx Hs) as Hle. pose proof (txo_count _ _ Hok) as Hcnt.
  pose proof (txo_attempts _ _ Hok). pose proof (txo_ttl _ _ Hok). pose proof (txs_n tx Hs).
  apply wp_bind, wp_set_tx, wp_bind. apply wp_unacked_all; try done; cbn; try lia; [by destruct Hs|by apply Hnet| |].
  { apply (seg_net_ctl tx 0 0). }
  rewrite Ho, Hp. change (Z.to_nat 0) with 0%nat. rewrite drop_0, Z.add_0_l. intros n1 Hf1.
  apply wp_bind, wp_set_tx, wp_bind, wp_set_tx, wp_set_tx.
  match goal with |- wp _ _ (st i (assign _ _ ?y) _ _ _ _) => assert (y = sent 0 (Z.of_nat (blocks (stx_seg tx))) (stx_started tx)
    (tx0 <| stx_sending := true |> <| stx_attempts := stx_attempts tx - 1 |>)) as -> end.
  { cbn. rewrite (proj2 (Z.eqb_neq _ _)) by lia. rewrite u8_id by (unfold is_u8; lia). done. }
  destruct (blocks (stx_seg tx)) as [|m] eqn:Eb; [lia|].
  apply wp_reports; try done. specialize (HQ n1 Hf1).
  match goal with |- Q tt (st i ?x _ _ _ _) => replace x with (after_round tx); [done|] end.
  unfold after_round, sent, tx0. destruct tx. cbn in Ho, Hp, Hsd. by subst.
Qed.

Lemma after_round_waiting count tx : waiting count tx -> 0 < stx_attempts tx -> waiting count (after_round tx).
Proof.
  intros [[H1 H2 H3 H4 H5 H6] H7 H8 H9 H10] Ha. split; try done. split; try done; [by destruct H1|]. cbn. lia.
Qed.

Lemma wp_run_app os os' (Q : unit -> trans F -> Prop) t : wp (run os) (fun _ => wp (run os') Q) t -> wp (run (os ++ os')) Q t.
Proof.
  revert t. induction os as [|o os IH]; cbn [run_ops app]; intros t (a & t1 & E & H).
  - injection E as _ <-. done.
  - apply bind_inv in E as (b & t2 & E1 & E2). apply wp_bind. eapply wp_some; [exact E1|]. apply IH. by exists a, t1.
Qed.

(** The round after the last attempt. *)
Lemma wp_last_round count i tx free n lg (Q : unit -> trans F -> Prop) t :
  (i < length (tr_seg_tx t))%nat -> waiting count tx -> stx_attempts tx = 0 ->
  (forall j, (j < count)%nat -> net_ready j n) ->
  (forall l n' t1, length l = 6%nat -> blocks l = 0%nat -> net_frame n n' -> unblocked i t t1 ->
     Q tt (st i (reset_tx l (tx <| stx_retransmit := None |>)) (free + blocks (stx_seg tx)) n'
             (lg ++ match stx_cb tx with
                    | Some cb => if cb_end cb
                                 then [EvCbEnd (cb_data cb) (if BT_MESH_ADDR_IS_UNICAST (stx_dst tx) then Some ETIMEDOUT else None)]
                                 else []
                    | None => [] end) t1)) ->
  wp (retransmit i) Q (st i tx free n lg t).
Proof.
  intros Hi [Hok Hn Ho Hp Hsd] Ha Hnet HQ. unfold seg_retransmit, seg_tx_send_unacked.
  apply wp_bind, wp_set_tx, wp_bind, wp_get_tx; [done|]. set (tx0 := tx <| stx_retransmit := None |>) in *.
  change (stx_nack_count tx0) with (stx_nack_count tx). rewrite (proj2 (Z.eqb_neq _ _) Hn).
  destruct (txo_sub _ _ Hok Hn) as (j & Hj & Hlt). change (stx_sub tx0) with (stx_sub tx). rewrite Hj.
  apply wp_bind. eapply wp_need; [done|]. apply wp_bind, wp_net_idx_of; [by apply Hnet|]. intros net_idx.
  change (stx_attempts tx0) with (stx_attempts tx). rewrite Ha. cbn [Z.eqb].
  pose proof (txo_shape _ _ Hok) as Hs. pose proof (blocks_le tx Hs). pose proof (txo_count _ _ Hok).
  apply wp_complete; [done|by destruct Hs|cbn; lia|done].
Qed.

(** C18: Retransmission comes to an end.  If nobody acknowledges a segmented message
    while its segments can be sent, then after the remaining attempts, each of which
    sends every segment again and waits for the bearer and the timer, the next expiry
    of the timer gives the message up: the context is free, its blocks are back in the
    pool, and the caller is told -ETIMEDOUT for a unicast destination and success for a
    group. *)
Theorem retransmission_ends subnets_max pool i tx cb t :
  trans_ok subnets_max pool t -> tr_seg_tx t !! i = Some tx -> waiting subnets_max tx -> is_Some (stx_retransmit tx) ->
  stx_ttl tx <> 1 -> remote (stx_dst tx) (tr_net t) -> stx_cb tx = Some cb -> cb_end cb = true ->
  exists t', run (mjoin (replicate (Z.to_nat (stx_attempts tx)) (round i tx)) ++ [OpRetransmit i]) t = Some (tt, t') /\
    (exists tx', tr_seg_tx t' !! i = Some tx' /\ stx_nack_count tx' = 0) /\
    tr_segs_free t' = (tr_segs_free t + blocks (stx_seg tx))%nat /\
    tr_log t' = tr_log t ++ [EvCbEnd (cb_data cb) (if BT_MESH_ADDR_IS_UNICAST (stx_dst tx) then Some ETIMEDOUT else None)].
Proof.
  intros H Hi Hw Hre Httl Hrem Hcb He. pose proof (lookup_lt_Some _ _ _ Hi) as Hlt.
  set (Q := fun (_ : unit) (t' : trans F) => (exists tx', tr_seg_tx t' !! i = Some tx' /\ stx_nack_count tx' = 0) /\
    tr_segs_free t' = (tr_segs_free t + blocks (stx_seg tx))%nat /\
    tr_log t' = tr_log t ++ [EvCbEnd (cb_data cb) (if BT_MESH_ADDR_IS_UNICAST (stx_dst tx) then Some ETIMEDOUT else None)]).
  assert (wp (run (mjoin (replicate (Z.to_nat (stx_attempts tx)) (round i tx)) ++ [OpRetransmit i])) Q t) as ([] & t' & E & HQ);
    [|by exists t'].
  assert (forall j, (j < subnets_max)%nat -> net_ready j (tr_net t)) as Hnet.
  { intros j Hj. apply (tok_ready subnets_max pool); [done|]. by rewrite (tok_subnets _ _ _ H). }
  assert (forall k tx0 n, Z.to_nat (stx_attempts tx0) = k -> waiting subnets_max tx0 -> is_Some (stx_retransmit tx0) ->
    (stx_seg tx0, stx_ttl tx0, stx_dst tx0, stx_cb tx0) = (stx_seg tx, stx_ttl tx, stx_dst tx, stx_cb tx) ->
    net_frame (tr_net t) n ->
    wp (run (mjoin (replicate k (round i tx)) ++ [OpRetransmit i])) Q (st i tx0 (tr_segs_free t) n (tr_log t) t)) as Hk.
  2: { rewrite (st_id i tx t Hi). by apply Hk. }
  clear Hi Hw Hre. induction k as [|k IH]; intros tx0 n Hk Hw Hre [= Es Et Ed Ec] Hf; cbn [replicate].
  - cbn [mjoin list_join app run_ops]. apply wp_bind, wp_retransmit_submitted; [done..|].
    apply (wp_last_round subnets_max); try done.
    + pose proof (txo_attempts _ _ Hw). lia.
    + intros j Hj. by apply (net_ready_frame _ (tr_net t)), Hnet.
    + intros l n' t1 Ll El Hf' Hu. apply wp_ret. rewrite Es, Ed, Ec, Hcb, He. split_and!; try done.
      exists (reset_tx l (tx0 <| stx_retransmit := None |>)). split; [|done]. cbn. apply list_lookup_insert_eq.
      destruct Hu; cbn; rewrite ?length_insert; done.
  - cbn [mjoin list_join]. rewrite <- app_assoc. apply wp_run_app. unfold round at 1. rewrite <- Es. fold (round i tx0).
    apply (round_ok subnets_max); try done.
    + lia.
    + intros j Hj. by apply (net_ready_frame _ (tr_net t)), Hnet.
    + by rewrite Et.
    + rewrite Ed. by apply (remote_frame _ (tr_net t)).
    + intros n' Hf'. apply IH; try done; [cbn; lia| | |by eapply net_frame_trans].
      * apply after_round_waiting; [done|lia].
      * cbn. by rewrite Es, Et, Ed, Ec.
Qed.
(** *** TTL 1 *)

(** The first segment to send is refused. *)
Lemma wp_unacked_refused net_tx i m tx free n lg (Q : bool -> trans F -> Prop) t :
  (i < length (tr_seg_tx t))%nat -> tx_shape tx -> 0 <= stx_seg_o tx -> stx_seg_o tx + Z.of_nat m = stx_seg_n tx + 1 ->
  stx_seg_pending tx = 0 -> blocks (drop (Z.to_nat (stx_seg_o tx)) (stx_seg tx)) <> 0%nat ->
  net_ready (tx_sub net_tx) n -> ctx_send_ttl (tx_ctx net_tx) = 1 ->
  is_ctl (tx_ctx net_tx) = stx_ctl tx -> remote (ctx_addr (tx_ctx net_tx)) n ->
  (forall o n', net_frame n n' -> 0 <= o <= stx_seg_n tx -> blocks (drop (Z.to_nat o) (stx_seg tx)) <> 0%nat ->
     Q false (st i (tx <| stx_seg_o := o |>) free n' lg t)) ->
  wp (send_unacked_loop config_proxy config_friend config_cdb proxy_relay adv_buffer net_tx i m) Q (st i tx free n lg t).
Proof.
  intros Hi. revert tx n lg.
  induction m as [|m IH]; intros tx n lg Hs Ho Hm Hp Hb Hr Ht Hc Hrem HQ; cbn [send_unacked_loop].
  { rewrite blocks_tail_none in Hb by (done || lia). done. }
  pose proof (txs_n tx Hs) as Hn. change (Z.of_nat CONFIG_BT_MESH_TX_SEG_MAX) with 6 in Hn.
  set (o := Z.to_nat (stx_seg_o tx)) in *. apply wp_bind, wp_get_tx; [done|]. cbv zeta. fold o.
  destruct (lookup_lt_is_Some_2 (stx_seg tx) o) as [seg Hseg].
  { rewrite (txs_len tx Hs). unfold CONFIG_BT_MESH_TX_SEG_MAX, o. lia. }
  assert (drop o (stx_seg tx) = seg :: drop (S o) (stx_seg tx)) as Ed by (by apply drop_S).
  apply wp_bind. eapply wp_need; [done|]. destruct seg as [b|].
  2: { apply wp_bind, wp_set_tx. rewrite u8_id by (unfold is_u8; lia).
       apply IH; try done; cbn; [by destruct Hs|lia|lia|]. replace (Z.to_nat (stx_seg_o tx + 1)) with (S o) by (unfold o; lia).
       rewrite Ed in Hb. exact Hb. }
  apply wp_bind. unfold adv_create. apply wp_bind, wp_gets. rewrite buffers_free. apply wp_ret. fold adv_empty.
  destruct adv_empty_abs as [We Ae]. destruct (txs_size tx Hs _ _ Hseg) as [_ Hl].
  destruct (buf_build_ok tx (stx_seg_o tx) b adv_empty 9 [] 20) as (buf & Eb & Wb & Ab);
    [done..|pose proof (seg_len_cases (stx_ctl tx)); lia|].
  apply wp_bind. eapply wp_need_run; [done|]. cbv beta iota. apply wp_bind, wp_set_tx, wp_bind.
  pose proof (abs_len buf _ _ _ Wb Ab) as Lb. injection Ab as Hh Hcont Htail.
  apply wp_net_send_remote; try done; try lia.
  { rewrite Htail, Hc. unfold seg_len, BT_MESH_CTL_SEG_SDU_MAX, BT_MESH_APP_SEG_SDU_MAX in Hl. destruct (stx_ctl tx); lia. }
  { rewrite Lb, Hc. unfold seg_pdu. rewrite !length_app. cbn [length app].
    unfold seg_len, BT_MESH_CTL_SEG_SDU_MAX, BT_MESH_APP_SEG_SDU_MAX in Hl. destruct (stx_ctl tx); lia. }
  intros n1 Hf1. rewrite Ht. cbn [Z.eqb Pos.eqb]. cbv beta iota. change (tr_net (st _ _ _ n _ _)) with n in Hf1.
  change (st ?i ?x ?f _ ?l ?u <| tr_net := n1 |>) with (st i x f n1 l u). cbn [when]. apply wp_bind, wp_ret.
  apply wp_bind, wp_set_tx, wp_ret. specialize (HQ (stx_seg_o tx) n1 Hf1 ltac:(lia) Hb).
  match goal with |- Q false (st i ?x _ _ _ _) => replace x with (tx <| stx_seg_o := stx_seg_o tx |>); [done|] end.
  destruct tx. cbn in Hp. by subst.
Qed.

(** A message with TTL 1 for another node. *)
Record stuck (subnet_count : nat) (tx : seg_tx) : Prop := {
  stk_ok :> tx_ok subnet_count tx;
  stk_ttl : stx_ttl tx = 1;
  stk_blocks : blocks (drop (Z.to_nat (stx_seg_o tx)) (stx_seg tx)) <> 0%nat;
  stk_attempts : stx_attempts tx <> 0;
  stk_pending : stx_seg_pending tx = 0;
  stk_submitted : is_Some (stx_retransmit tx);
}.

Lemma stuck_nack count tx : stuck count tx -> stx_nack_count tx <> 0.
Proof.
  intros [Hok _ Hb _ _ _] E. rewrite (txo_count _ _ Hok) in E. assert (blocks (stx_seg tx) = 0%nat) as E0 by lia. apply Hb.
  apply blocks_none. intros k. rewrite lookup_drop. by apply blocks_none.
Qed.

Lemma stuck_round count i tx free n lg (Q : unit -> trans F -> Prop) t :
  (i < length (tr_seg_tx t))%nat -> stuck count tx -> (forall j, (j < count)%nat -> net_ready j n) -> remote (stx_dst tx) n ->
  (forall tx' n', net_frame n n' -> stuck count tx' -> stx_dst tx' = stx_dst tx -> stx_attempts tx' = stx_attempts tx ->
     stx_nack_count tx' = stx_nack_count tx -> Q tt (st i tx' free n' lg t)) ->
  wp (retransmit i) Q (st i tx free n lg t).
Proof.
  intros Hi Hst Hnet Hrem HQ. pose proof (stuck_nack _ _ Hst) as Hn. destruct Hst as [Hok Httl Hb Ha Hp _].
  unfold seg_retransmit, seg_tx_send_unacked.
  pose proof (txo_shape _ _ Hok) as Hs. pose proof (txo_count _ _ Hok) as Hcnt. pose proof (txo_seg_o _ _ Hok) as Hso.
  apply wp_bind, wp_set_tx, wp_bind, wp_get_tx; [done|]. set (tx0 := tx <| stx_retransmit := None |>).
  change (stx_nack_count tx0) with (stx_nack_count tx). rewrite (proj2 (Z.eqb_neq _ _) Hn).
  destruct (txo_sub _ _ Hok Hn) as (j & Hj & Hlt). change (stx_sub tx0) with (stx_sub tx). rewrite Hj.
  apply wp_bind. eapply wp_need; [done|]. apply wp_bind, wp_net_idx_of; [by apply Hnet|]. intros net_idx.
  change (stx_attempts tx0) with (stx_attempts tx). rewrite (proj2 (Z.eqb_neq _ _) Ha).
  apply wp_bind, wp_set_tx, wp_bind. apply wp_unacked_refused; try done; cbn; try lia; [by destruct Hs|by apply Hnet| |].
  { apply (seg_net_ctl tx 0 0). }
  intros o n' Hf Ho Hbo. cbn [when]. apply wp_bind, wp_ret, wp_bind, wp_set_tx, wp_set_tx.
  apply HQ; try done; cbn; rewrite Hp; cbn; try done.
  destruct Hok as [[H1 H2 H3 H4] H5 H6 H7 H8 H9]. split; cbn; rewrite ?Hp; cbn; try done.
Qed.

(** A segmented message with TTL 1 to another node is never given up.  The network
    layer refuses its first segment, which neither counts as an attempt nor is reported
    to the caller; the retransmission is submitted again, however often it has run
    before: the context, its blocks and the caller wait for ever, and each time a
    sequence number is used up. *)
Theorem ttl_one_never_ends subnets_max pool i tx k t :
  trans_ok subnets_max pool t -> tr_seg_tx t !! i = Some tx -> stuck subnets_max tx -> remote (stx_dst tx) (tr_net t) ->
  exists t', run (replicate k (OpRetransmit i)) t = Some (tt, t') /\
    (exists tx', tr_seg_tx t' !! i = Some tx' /\ is_Some (stx_retransmit tx') /\ stx_attempts tx' = stx_attempts tx /\
                 stx_nack_count tx' = stx_nack_count tx /\ stx_nack_count tx' <> 0) /\
    tr_segs_free t' = tr_segs_free t /\ tr_log t' = tr_log t.
Proof.
  intros H Hi Hst Hrem. pose proof (lookup_lt_Some _ _ _ Hi) as Hlt.
  set (Q := fun (_ : unit) (t' : trans F) => (exists tx', tr_seg_tx t' !! i = Some tx' /\ is_Some (stx_retransmit tx') /\
      stx_attempts tx' = stx_attempts tx /\ stx_nack_count tx' = stx_nack_count tx /\ stx_nack_count tx' <> 0) /\
    tr_segs_free t' = tr_segs_free t /\ tr_log t' = tr_log t).
  assert (wp (run (replicate k (OpRetransmit i))) Q t) as ([] & t' & E & HQ); [|by exists t'].
  assert (forall j, (j < subnets_max)%nat -> net_ready j (tr_net t)) as Hnet.
  { intros j Hj. apply (tok_ready subnets_max pool); [done|]. by rewrite (tok_subnets _ _ _ H). }
  assert (forall tx0 n, stuck subnets_max tx0 -> stx_dst tx0 = stx_dst tx -> stx_attempts tx0 = stx_attempts tx ->
    stx_nack_count tx0 = stx_nack_count tx -> net_frame (tr_net t) n ->
    wp (run (replicate k (OpRetransmit i))) Q (st i tx0 (tr_segs_free t) n (tr_log t) t)) as Hk.
  2: { rewrite (st_id i tx t Hi). by apply Hk. }
  clear Hi Hst. induction k as [|k IH]; intros tx0 n Hst Ed Ea En Hf; cbn [replicate run_ops].
  - apply wp_ret. split; [|done]. exists tx0. split; [cbn; by apply list_lookup_insert_eq|].
    split; [apply Hst|]. split; [done|]. split; [done|]. by apply stuck_nack with subnets_max.
  - apply wp_bind, wp_retransmit_submitted; [done|apply Hst|]. apply (stuck_round subnets_max); [done..| | |].
    + intros j Hj. by apply (net_ready_frame _ (tr_net t)), Hnet.
    + rewrite Ed. by apply (remote_frame _ (tr_net t)).
    + intros tx' n' Hf' Hst' E1 E2 E3. apply IH; [done|congruence..|by eapply net_frame_trans].
Qed.
End Retransmission.

(** ** Examples *)

(** A message of sixteen bytes for node 9, with the given TTL, that nobody acknowledges. *)
Definition seg_tx_example (ttl : Z) : seg_tx :=
  mkSegTx (Some 0%nat) [Some (seqZ 0 12); Some (seqZ 12 4); None; None; None; None] 33554439 4 9 16 217 36 1 0 2 4 ttl 0
    false false false true false false (Some (mkCb true true 5)) (Some 650).

Definition waiting_example (ttl : Z) : trans unit :=
  (trans_example 4) <| tr_seg_tx := [seg_tx_example ttl; seg_tx_zero; seg_tx_zero] |> <| tr_segs_free := 62%nat |>.

Lemma seg_tx_example_ok ttl : 0 <= ttl < 128 -> tx_ok 2 (seg_tx_example ttl).
Proof.
  intros H. split; try done; [split; try done|]; cbn.
  - intros k Hk. unfold seg_none. destruct k as [|[|[|[|[|[|k]]]]]]; cbn; auto; lia.
  - intros k b Hk. destruct k as [|[|[|[|[|[|k]]]]]]; cbn in Hk; try done; injection Hk as <-; by vm_compute; lia.
  - intros _. exists 0%nat. split; [done|lia].
Qed.

Lemma waiting_example_ok ttl : 0 <= ttl < 128 -> trans_ok 2 64 (waiting_example ttl).
Proof.
  intros H. destruct (trans_zero_ok tt (node_example 4 2 false subnet_example) apps_example) as [H1 H2 H3 H4 H5 H6 H7 H8 H9 H10].
  { done. }
  { repeat constructor; vm_compute; congruence. }
  { constructor. }
  { constructor. }
  split; try done. apply Forall_cons_2; [by apply seg_tx_example_ok|]. apply (Forall_replicate _ 2), seg_tx_zero_ok.
Qed.

Lemma retransmission_ends_witness :
  exists t', @run_ops toy_ecb toy_cmac true true false (fun _ _ _ => false) (fun _ => true) unit no_friends
               model_recv_none hb_recv_none
               (mjoin (replicate 4 (round 0 (seg_tx_example 5))) ++ [OpRetransmit 0]) (waiting_example 5) = Some (tt, t') /\
    (exists tx', tr_seg_tx t' !! 0%nat = Some tx' /\ stx_nack_count tx' = 0) /\ tr_segs_free t' = 64%nat /\
    tr_log t' = [EvCbEnd 5 (Some ETIMEDOUT)].
Proof.
  apply (@retransmission_ends toy_ecb toy_ecb_ok toy_cmac true true false (fun _ _ _ => false) (fun _ => true) unit no_friends
    model_recv_none hb_recv_none ltac:(done) ltac:(done) 2 64 0 (seg_tx_example 5) (mkCb true true 5)
    (waiting_example 5)); try done.
  - by apply waiting_example_ok.
  - split; [by apply seg_tx_example_ok|done..].
Defined.

Lemma ttl_one_never_ends_witness :
  exists t', @run_ops toy_ecb toy_cmac true true false (fun _ _ _ => false) (fun _ => true) unit no_friends
               model_recv_none hb_recv_none (replicate 1000 (OpRetransmit 0)) (waiting_example 1) = Some (tt, t') /\
    (exists tx', tr_seg_tx t' !! 0%nat = Some tx' /\ is_Some (stx_retransmit tx') /\ stx_attempts tx' = 4 /\
                 stx_nack_count tx' = 2 /\ stx_nack_count tx' <> 0) /\
    tr_segs_free t' = 62%nat /\ tr_log t' = [].
Proof.
  apply (@ttl_one_never_ends toy_ecb toy_ecb_ok toy_cmac true true false (fun _ _ _ => false) (fun _ => true) unit no_friends
    model_recv_none hb_recv_none ltac:(done) ltac:(done) 2 64 0 (seg_tx_example 1) 1000 (waiting_example 1)); try done.
  - by apply waiting_example_ok.
  - split; [by apply seg_tx_example_ok|done..].
Defined.
