(* ===== verification/Segments.v ===== *)
(** * Facts about segmented messages

    The sequence number of the first segment is recovered from that of any segment; and
    three faults: a message that overruns the segments of its context, a receiving
    context that is lost, and two messages encrypted with the same nonce. *)

From S2P Require Import Prelude ByteOrder MeshDefs Cdb NetBuf Access Rpl Ccm MeshCrypto Subnet AppKeys Net NetProps NetRecv Transport TransportProps TransportSafe TransportRecv TransportOps.

(** Every segment identifies its message: from the sequence number of a segment and the
    thirteen bits of the first one it carries follows the number of the first one. *)
Lemma seq_first_of first seq :
  0 <= first -> first <= seq < first + 2 ^ 13 -> seq < 2 ^ 24 ->
  seq_first seq (Z.land first TRANS_SEQ_ZERO_MASK) = first.
Proof.
  intros H0 Hs Hm. unfold seq_first, TRANS_SEQ_ZERO_MASK.
  change (2 ^ 13 - 1) with (Z.ones 13). change (2 ^ 14 - 1) with (Z.ones 14). rewrite !Z.land_ones by lia.
  assert (u32 (seq mod 2 ^ 14 - first mod 2 ^ 13) mod 2 ^ 13 = seq - first) as ->.
  { unfold u32. change (2 ^ 32) with (2 ^ 13 * 2 ^ 19). rewrite Z.rem_mul_r by lia.
    rewrite Z.mul_comm, Z_mod_plus_full, Z.mod_mod by lia.
    rewrite Zminus_mod, Z.mod_mod by lia.
    assert ((seq mod 2 ^ 14) mod 2 ^ 13 = seq mod 2 ^ 13) as ->.
    { change (2 ^ 14) with (2 ^ 13 * 2). rewrite Z.rem_mul_r by lia. rewrite Z.mul_comm, Z_mod_plus_full. apply Z.mod_mod. lia. }
    rewrite <- Zminus_mod. apply Z.mod_small. lia. }
  rewrite u32_id by (unfold is_u32; lia). lia.
Qed.

(** ** Too long for the context *)

Section Faults.
Context {ecb : Ecb} {ecb_ok : EcbOk} {cmac : Cmac} (config_proxy config_friend config_cdb : bool).
Context (proxy_relay : bytes -> Z -> bt_mesh_net -> bool) (adv_buffer : bt_mesh_net -> bool).
Context {F : Type} {friend : FriendOps F} {idle : FriendIdle friend}.

Lemma get_tx_run i (t : trans F) tx : tr_seg_tx t !! i = Some tx -> get_tx i t = Some (tx, t).
Proof. intros H. unfold get_tx. rewrite bind_gets. by rewrite H. Qed.

Lemma set_tx_run f i (t : trans F) : set_tx f i t = Some (tt, t <| tr_seg_tx := alter f i (tr_seg_tx t) |>).
Proof. done. Qed.

(** The loop that fills a context fails when more than six segments are needed. *)
Lemma fill_overrun net_tx i fuel o sdu tx (t : trans F) :
  tr_seg_tx t !! i = Some tx -> length (stx_seg tx) = 6%nat -> (o <= 6)%nat -> (7 - o <= tr_segs_free t)%nat ->
  buf_wf sdu -> ((6 - o) * 12 < buf_len sdu)%nat ->
  send_seg_loop config_proxy config_friend config_cdb net_tx None i fuel o sdu t = None.
Proof.
  revert o sdu tx t. induction fuel as [|fuel IH]; intros o sdu tx t Hi Hl Ho Hf W Hlen; cbn [send_seg_loop].
  all: rewrite (proj2 (Nat.eqb_neq _ _)) by lia.
  { done. }
  rewrite bind_gets, (proj2 (Nat.eqb_neq _ _)) by lia. rewrite bind_modify. cbv zeta.
  set (k := Nat.min (buf_len sdu) (seg_len false)).
  assert (k <= 12 /\ k <= buf_len sdu)%nat as [Hk Hk'] by (unfold k, seg_len, BT_MESH_APP_SEG_SDU_MAX; lia).
  rewrite (pull_mem_run k sdu Hk'). cbn [need]. rewrite bind_ret. cbv beta iota. set (data := take k _).
  set (t1 := t <| tr_segs_free := _ |>). rewrite (bind_some _ _ t1 tx t1) by (by apply get_tx_run).
  destruct (length (stx_seg tx) <=? o)%nat eqn:Eo; [done|]. apply Nat.leb_gt in Eo. rewrite (bind_some _ _ _ _ _ (set_tx_run _ _ _)).
  set (tx' := tx <| stx_seg := <[o := Some data]> (stx_seg tx) |>). set (t2 := t1 <| tr_seg_tx := _ |>).
  assert (tr_seg_tx t2 !! i = Some tx') as Hi2 by (cbn; by rewrite list_lookup_alter_eq, Hi).
  assert (send_seg_loop config_proxy config_friend config_cdb net_tx None i fuel (S o) (pulled k sdu) t2 = None) as Hnext.
  { apply (IH _ _ tx'); try done.
    - cbn. by rewrite length_insert.
    - lia.
    - cbn. lia.
    - unfold buf_wf, buf_size in *. cbn. lia.
    - cbn [buf_len pulled assign]. change (buf_len (pulled k sdu)) with (buf_len sdu - k)%nat. lia. }
  destruct config_friend; cbn [when]; [|by rewrite bind_ret].
  destruct (seg_tx_buf_build tx' (Z.of_nat o) (mkBuf 0 0 (replicate 16 0))) as [[[] seg]|] eqn:Eb.
  - erewrite bind_some; [exact Hnext|]. rewrite (bind_some _ _ t2 tx' t2) by (by apply get_tx_run). rewrite Eb. cbn [need].
    rewrite bind_ret. cbv beta iota. erewrite bind_some; [|apply idle_enqueue]. done.
  - rewrite bind_none; [done|]. rewrite (bind_some _ _ t2 tx' t2) by (by apply get_tx_run). by rewrite Eb.
Qed.

(** C31: A long message is written past the end of its context.  [bt_mesh_trans_send]
    compares the length of a message with the six segments of a context before it adds
    the MIC: a message of 69 to 72 bytes passes, its seventh segment is stored behind
    the array of segments.  The caller needs nothing but a key, a free context and free
    blocks. *)
Theorem long_message_undefined subnets_max pool tx msg cb t tx1 j key aid :
  trans_ok subnets_max pool t -> buf_wf msg -> (69 <= buf_len msg <= BT_MESH_TX_SDU_MAX)%nat ->
  (4 <= net_buf_simple_tailroom msg)%nat -> resolve_ttl (tr_default_ttl t) tx = Some tx1 ->
  send_allowed (send_rel_tx msg tx1) = true -> resolve_keys config_cdb t (send_rel_tx msg tx1) = Some (inr (j, key, aid)) ->
  Exists (fun tx => stx_nack_count tx = 0) (tr_seg_tx t) -> (7 <= tr_segs_free t)%nat ->
  bt_mesh_trans_send config_proxy config_friend config_cdb proxy_relay adv_buffer tx msg cb t = None.
Proof.
  intros H W Hl Ht Er Ha Ek Hfree Hf.
  destruct (trans_send_run config_proxy config_friend config_cdb proxy_relay adv_buffer tx msg cb t tx1 j key aid)
    as (msg' & Cm & Wm & E); try done; [lia|]. rewrite E. clear E.
  set (tx2 := send_rel_tx msg tx1) in *. set (tx3 := send_key_tx t msg j aid tx2) in *.
  assert (ctx_send_rel (tx_ctx tx2) = true) as ->.
  { unfold tx2, send_rel_tx. rewrite (proj2 (Nat.ltb_lt _ _)); [done|]. unfold BT_MESH_SDU_UNSEG_MAX. lia. }
  assert (73 <= buf_len msg')%nat as Lm.
  { rewrite <- length_contents, Cm by done. unfold app_sealed. rewrite length_app, length_ctr, length_ccm_mac, length_contents; try done.
    - unfold APP_MIC_LEN. case_if; lia.
    - pose proof (app_mic_len (ac_aszmic (send_crypto t tx3))). lia. }
  unfold send_seg. rewrite bind_gets. cbv zeta. destruct (find_index _ (tr_seg_tx t)) as [i|] eqn:Ei.
  2: { exfalso. apply find_index_None in Ei. induction Hfree as [x l Hx|x l _ IH]; apply Forall_cons_1 in Ei as [E1 E2]; [|auto].
       by rewrite Hx in E1. }
  apply find_index_Some in Ei as [(tx0 & Hi & Hn) _]. rewrite bind_gets. set (blocked := existsb _ _). set (n := tr_net t).
  rewrite (bind_some _ _ _ _ _ (set_tx_run _ _ _)). set (t1 := t <| tr_seg_tx := _ |>). set (tx0' := seg_tx_start tx3 (buf_len msg') cb None blocked n tx0).
  assert (tr_seg_tx t1 !! i = Some tx0') as Hi1 by (cbn; by rewrite list_lookup_alter_eq, Hi).
  rewrite (bind_some _ _ t1 tx0' t1) by (by apply get_tx_run).
  pose proof (Forall_lookup_1 _ _ _ _ (tok_tx _ _ _ H) Hi) as Hok.
  assert (send_seg_loop config_proxy config_friend config_cdb tx3 None i (S (buf_len msg')) 0 msg' t1 = None) as Hloop.
  { apply (fill_overrun _ _ _ _ _ tx0'); try done; [apply (txs_len tx0 (txo_shape _ _ Hok))|lia..]. }
  destruct (resolve_defined config_cdb (tx_ctx tx2) (net_comp n) (tr_cdb t) (tr_dev_key t) (net_subnets n) (tr_apps t))
    as (r & Ek' & Hr); [apply H|]. unfold resolve_keys in Ek. fold n in Ek. rewrite Ek in Ek'. injection Ek' as <-.
  match goal with |- (?m ≫= _) t1 = None => assert (m t1 = Some (false, t1)) as Ef end.
  { destruct config_friend; [|done].
    assert (wp (net_idx_of (tx_sub tx3)) (fun _ t' => t' = t1) t1) as (x & t' & Ex & ->).
    { apply wp_net_idx_of; [|done]. apply (tok_ready subnets_max pool t); done. }
    rewrite (bind_some _ _ _ _ _ Ex), bind_gets. by rewrite idle_space. }
  rewrite (bind_some _ _ _ _ _ Ef). by rewrite bind_none.
Qed.
(** ** A lost context *)

Context (model_recv : bt_mesh_net_rx -> net_buf_simple -> Z -> ST (trans F) bt_mesh_net_rx).
Context (hb_recv : bt_mesh_net_rx -> bytes -> ST (trans F) ret_code).

(** Acknowledgement works, each with its time and its context. *)
Definition ack_works (acks : list (Z * nat)) : list trans_op := (fun a => OpAck a.1 a.2) <$> acks.

Abbreviation run := (run_ops config_proxy config_friend config_cdb proxy_relay adv_buffer model_recv hb_recv).

(** A context without a running acknowledgement timer is left alone by all of them. *)
Lemma acks_keep subnets_max pool i rx acks t :
  trans_ok subnets_max pool t -> tr_seg_rx t !! i = Some rx -> srx_ack rx = None ->
  Forall (fun a => a.2 < CONFIG_BT_MESH_RX_SEG_MSG_COUNT)%nat acks ->
  exists t', run (ack_works acks) t = Some (tt, t') /\ tr_seg_rx t' !! i = Some rx.
Proof.
  intros H Hi Hack Hall. revert t H Hi. induction Hall as [|[now j] acks Hj _ IH]; intros t H Hi; [by exists t|].
  unfold ack_works. cbn [fmap list_fmap run_ops fst snd]. destruct (rx_lookup subnets_max pool t j H Hj) as (rxj & Hrx & _).
  assert (wp (run_op config_proxy config_friend config_cdb proxy_relay adv_buffer model_recv hb_recv (OpAck now j))
    (fun _ t' => trans_ok subnets_max pool t' /\ tr_seg_rx t' !! i = Some rx) t) as ([] & t1 & E & H1 & Hi1).
  { cbn [run_op]. apply wp_bind, (wp_get_rx_at j rxj); [done|]. apply wp_when; intros Ha; [|done].
    eapply wp_mono; [apply (seg_ack_kept _ _ _ _ _ subnets_max pool _ _ _ rxj); try done; by destruct (srx_ack rxj)|].
    intros [] t1 [H1 Hk]. split; [done|]. rewrite Hk; [done|]. intros ->. assert (rxj = rx) as -> by congruence. by rewrite Hack in Ha. }
  rewrite (bind_some _ _ _ _ _ E). by apply IH.
Qed.

(** C32: A first segment of the wrong size costs a receiving context.  When the first
    segment that arrives of a message is not the last one and does not have the full
    size, it is refused only after a context was taken for it, and the acknowledgement
    timer of that context is not started.  So the incomplete timeout, which this timer
    checks, never ends it: whatever acknowledgement works run afterwards, in any order
    and at any time, the context stays in use.  What else can free it comes from outside:
    a good segment of the same message, which starts the timer, a newer message between
    the same two addresses, or a reset of the layer; if the sender is silent, one of the
    three contexts is lost.  The comment at the allocation promises that slots are
    eventually freed. *)
Theorem rx_context_leak subnets_max pool now net_rx hdr aszmic seg_o seg_n auth slot data rssi t :
  trans_ok subnets_max pool t -> rx_in subnets_max net_rx ->
  0 <= seg_o < seg_n -> seg_n < Z.of_nat CONFIG_BT_MESH_RX_SEG_MAX ->
  length data <> seg_len (rx_ctl net_rx) -> (1 <= tr_segs_free t)%nat ->
  Exists (fun rx => srx_in_use rx = false) (tr_seg_rx t) ->
  exists i rx t',
    trans_seg_new config_proxy config_friend config_cdb proxy_relay adv_buffer model_recv hb_recv
      now net_rx hdr aszmic seg_o seg_n auth slot data rssi t =
    Some ((Some EINVAL, net_rx, BT_MESH_FRIEND_PDU_SINGLE, auth), t') /\
    tr_seg_rx t' !! i = Some rx /\ srx_in_use rx = true /\
    forall acks, Forall (fun a => a.2 < CONFIG_BT_MESH_RX_SEG_MSG_COUNT)%nat acks ->
      exists t'', run (ack_works acks) t' = Some (tt, t'') /\ tr_seg_rx t'' !! i = Some rx.
Proof.
  intros H Hin Ho Hn Hd Hfree Hidle. unfold trans_seg_new. cbv zeta. unfold sdu_len_is_ok.
  rewrite (proj2 (Z.ltb_lt _ _) Hn). cbn [negb]. rewrite (rxi_friend _ _ Hin), andb_false_r. cbn [andb]. rewrite bind_ret.
  unfold seg_rx_alloc. destruct (find_index (fun rx => negb (srx_in_use rx)) (tr_seg_rx t)) as [i|] eqn:Ei.
  2: { exfalso. apply find_index_None in Ei. induction Hidle as [x l Hx|x l _ IH]; apply Forall_cons_1 in Ei as [E1 E2]; [|auto].
       by rewrite Hx in E1. }
  pose proof Ei as Ei'. apply find_index_Some in Ei' as [(rx & Hi & Hu) _]. apply negb_true_iff in Hu.
  pose proof (Forall_lookup_1 _ _ _ _ (tok_rx _ _ _ H) Hi) as Hok.
  assert (srx_ack rx = None) as Hack.
  { destruct (srx_ack rx) as [d|] eqn:E; [|done]. rewrite (rxo_ack _ _ Hok) in Hu; [done|by rewrite E]. }
  set (rx1 := seg_rx_start net_rx hdr auth seg_n rx). set (rx2 := rx1 <| srx_obo := false |>).
  set (t2 := srt i rx2 (tr_segs_free t) t).
  exists i, rx2, t2. pose proof (lookup_lt_Some _ _ _ Hi) as Hlt.
  assert (tr_seg_rx t2 !! i = Some rx2) as Hi2 by (cbn; by apply list_lookup_insert_eq).
  assert (get_rx i t2 = Some (rx2, t2)) as Eg by (unfold get_rx; rewrite bind_gets; by rewrite Hi2).
  split_and!; try done.
  - erewrite bind_some.
    2: { rewrite bind_gets. unfold id. rewrite (proj2 (Nat.ltb_ge _ _)) by lia. rewrite Ei. unfold set_rx. by rewrite bind_modify. }
    cbv iota. unfold set_rx at 1. rewrite bind_modify.
    match goal with |- _ ?t3 = _ => replace t3 with t2 end.
    2: { unfold t2, rx2, rx1, srt, assign. destruct t. cbn. cbn in Hi. rewrite alter_alter. by rewrite (alter_lookup_insert _ i rx) by done. }
    unfold trans_seg_found. rewrite (bind_some _ _ _ _ _ Eg). change (srx_block rx2) with 0. rewrite Z.testbit_0_l.
    rewrite (proj2 (Z.eqb_neq _ _)) by lia. cbv zeta. cbn [when andb negb]. rewrite bind_ret.
    change (srx_ctl rx2) with (rx_ctl net_rx). by rewrite (proj2 (Nat.eqb_neq _ _) Hd).
  - intros acks Hacks. apply (acks_keep subnets_max pool); try done.
    apply (srt_ok subnets_max pool i rx); try done. rewrite (tok_subnets _ _ _ H) in Hok |- *.
    pose proof (rx_ok_start subnets_max net_rx hdr auth seg_n rx Hok Hu Hin ltac:(lia)) as Hok1. fold rx1 in Hok1.
    apply (rx_ok_same _ rx1); [done|by rewrite (rxo_obo _ _ Hok1)|done].
Qed.

(** ** Two messages, one nonce *)

(** Without an advertising buffer nothing is sent, and no sequence number is used. *)
Lemma wp_unacked_starved net_tx i m tx free n lg (Q : bool -> trans F -> Prop) t b :
  (i < length (tr_seg_tx t))%nat -> stx_seg tx !! Z.to_nat (stx_seg_o tx) = Some (Some b) -> adv_buffer n = false ->
  Q false (st i tx free n lg t) ->
  wp (send_unacked_loop config_proxy config_friend config_cdb proxy_relay adv_buffer net_tx i (S m)) Q (st i tx free n lg t).
Proof.
  intros Hi Hb Ha HQ. cbn [send_unacked_loop]. apply wp_bind, wp_get_tx; [done|]. cbv zeta. rewrite Hb.
  apply wp_bind. eapply wp_need; [done|]. apply wp_bind. unfold adv_create. apply wp_bind, wp_gets.
  change (tr_net (st i tx free n lg t)) with n. rewrite Ha. by apply wp_ret, wp_ret.
Qed.

(** C33: Two messages can be encrypted with the same nonce.  A segmented message takes the
    next sequence number for its nonce, but only its first transmission uses the number
    up.  When no advertising buffer is free, [bt_mesh_trans_send] accepts the message and
    leaves the sequence number as it is: whatever is sent next is encrypted exactly as if
    this message had never been, with the same nonce, and the same key stream, for
    another message with the same addresses. *)
Theorem message_nonce_reused subnets_max pool tx msg cb t tx1 j key aid :
  trans_ok subnets_max pool t -> buf_wf msg -> (1 <= buf_len msg)%nat -> (buf_len msg + mic_size tx msg <= BT_MESH_TX_SDU_MAX)%nat ->
  (4 <= net_buf_simple_tailroom msg)%nat -> 0 <= ctx_send_ttl (tx_ctx tx) -> resolve_ttl (tr_default_ttl t) tx = Some tx1 ->
  send_allowed (send_rel_tx msg tx1) = true -> resolve_keys config_cdb t (send_rel_tx msg tx1) = Some (inr (j, key, aid)) ->
  sends_rel tx msg = true -> is_blocked (send_rel_tx msg tx1) t = false ->
  Exists (fun tx => stx_nack_count tx = 0) (tr_seg_tx t) -> (6 <= tr_segs_free t)%nat -> adv_buffer (tr_net t) = false ->
  exists t', bt_mesh_trans_send config_proxy config_friend config_cdb proxy_relay adv_buffer tx msg cb t = Some (None, t') /\
    forall tx' key' msg', trans_encrypt tx' key' msg' t' = trans_encrypt tx' key' msg' t.
Proof.
  intros H W Hl1 Hl Ht Httl Er Ha Ek Hrel Hbl Hidle Hfree Hadv.
  set (Q := fun (r : ret_code) (t' : trans F) => r = None /\ tr_net t' = tr_net t /\ tr_virtual_addrs t' = tr_virtual_addrs t).
  assert (wp (bt_mesh_trans_send config_proxy config_friend config_cdb proxy_relay adv_buffer tx msg cb) Q t) as (r & t' & E & -> & En & Ev).
  2: { exists t'. split; [done|]. intros tx' key' msg'. unfold trans_encrypt, bt_mesh_va_label_get. by rewrite En, Ev. }
  destruct (trans_send_run config_proxy config_friend config_cdb proxy_relay adv_buffer tx msg cb t tx1 j key aid)
    as (msg' & Cm & Wm & E); try done; [lia|]. apply (wp_eq _ _ _ _ E). clear E.
  destruct (resolve_ttl_some _ _ _ (tok_ttl _ _ _ H) Httl Er) as (Ht1 & Ea & Es).
  pose proof (sealed_length t tx1 tx msg j aid key W Es) as Lm. rewrite <- Cm, length_contents in Lm by done.
  set (tx2 := send_rel_tx msg tx1) in *. set (tx3 := send_key_tx t msg j aid tx2) in *.
  assert (ctx_send_rel (tx_ctx tx2) = true) as ->.
  { rewrite <- Hrel. unfold tx2, send_rel_tx, sends_rel. destruct (_ <? _)%nat; cbn; by rewrite ?Es, ?orb_true_r, ?orb_false_r. }
  destruct (resolve_defined config_cdb (tx_ctx tx2) (net_comp (tr_net t)) (tr_cdb t) (tr_dev_key t) (net_subnets (tr_net t)) (tr_apps t))
    as (r & Ek' & Hr); [apply H|]. unfold resolve_keys in Ek. rewrite Ek in Ek'. injection Ek' as <-.
  unfold BT_MESH_TX_SDU_MAX, CONFIG_BT_MESH_TX_SEG_MAX, BT_MESH_APP_SEG_SDU_MAX in Hl. cbn [Nat.mul Nat.add] in Hl.
  assert (net_ready j (tr_net t)) as Hj by (by apply (tok_ready subnets_max pool)).
  apply (wp_send_seg _ _ _ _ _ (subnet_count t)); [apply H|exact Hj|done|cbn; lia| |].
  { intros Ei. exfalso. apply find_index_None in Ei. induction Hidle as [x l Hx|x l _ IH]; apply Forall_cons_1 in Ei as [E1 E2]; [|auto].
    by rewrite Hx in E1. }
  intros i tx0 _ Hi Hn. cbv zeta. cbn [is_ctl_op]. change (is_blocked tx3 t) with (is_blocked tx2 t). rewrite Hbl.
  pose proof (length_contents msg' Wm) as Lc. set (data := contents msg') in *.
  destruct (seg_total_fits false (length data)) as [Hd Ht6]; [cbn; lia|]. split; [intros Hlt; lia|]. intros _.
  pose proof (lookup_lt_Some _ _ _ Hi) as Hlt. pose proof (Forall_lookup_1 _ _ _ _ (tok_tx _ _ _ H) Hi) as Hok.
  destruct (full_ok (subnet_count t) tx3 data cb None false (tr_net t) tx0) as (Hfull & Hb); try done.
  { cbn. unfold tx2, send_rel_tx. by destruct (_ <? _)%nat. }
  fold (full_tx tx3 data cb None false (tr_net t) tx0) in Hfull, Hb.
  set (txf := full_tx tx3 data cb None false (tr_net t) tx0) in *.
  apply wp_bind. unfold seg_tx_send_unacked. apply wp_bind, wp_get_tx; [done|].
  rewrite (txo_count _ _ Hfull), Hb. rewrite (proj2 (Z.eqb_neq _ _)) by (unfold seg_total; lia).
  apply wp_bind. eapply wp_need; [done|]. apply wp_bind, wp_net_idx_of; [done|]. intros x.
  change (stx_attempts txf) with 4. cbn [Z.eqb]. apply wp_bind, wp_set_tx, wp_bind.
  change (stx_seg_o txf) with 0. pose proof (txs_n _ (txo_shape _ _ Hfull)) as Hsn.
  replace (Z.to_nat (stx_seg_n txf + 1 - 0)) with (S (Z.to_nat (stx_seg_n txf))) by lia.
  eapply (wp_unacked_starved _ i _ _ _ _ _ _ _ (chunk false data 0)); try done.
  cbn [when]. apply wp_bind, wp_ret, wp_bind, wp_set_tx, wp_set_tx, wp_ret. done.
Qed.
End Faults.

(** ** Examples *)

Lemma trans_example_ok addr : trans_ok 2 64 (trans_example addr).
Proof.
  apply (trans_zero_ok tt (node_example addr 2 false subnet_example)); try (by vm_compute).
  repeat constructor; vm_compute; congruence.
Qed.

(** A message of [len] bytes from node 4 to node 9. *)
Definition tx_to_nine : bt_mesh_net_tx := mkTx 0 (mkCtx 0 0 9 0 0 0 false 5) 4 0 false false 0.
Definition msg_example (len room : nat) : net_buf_simple := mkBuf 0 len (replicate (len + room) 65).

Lemma long_message_undefined_witness :
  bt_mesh_trans_send (ecb := toy_ecb) true true false (fun _ _ _ => false) (fun _ => true)
    tx_to_nine (msg_example 69 4) None (trans_example 4) = None.
Proof.
  apply (long_message_undefined (ecb := toy_ecb) (ecb_ok := toy_ecb_ok) true true false (fun _ _ _ => false) (fun _ => true) 2 64 tx_to_nine (msg_example 69 4) None (trans_example 4) tx_to_nine 0 (replicate 16 6) 25);
    try reflexivity; try (vm_compute; lia).
  - apply trans_example_ok.
  - by left.
Defined.

Definition short_segment_rx : bt_mesh_net_rx :=
  mkRx 0 (mkCtx 0 0 9 4 0 5 false 255) 100 false false false false BT_MESH_NET_IF_ADV true false 0.

Lemma rx_context_leak_witness :
  exists i rx t',
    trans_seg_new (ecb := toy_ecb) true true false (fun _ _ _ => false) (fun _ => true) model_recv_none hb_recv_none
      0 short_segment_rx 217 0 0 1 100 None [1] 0 (trans_example 4) =
    Some ((Some EINVAL, short_segment_rx, BT_MESH_FRIEND_PDU_SINGLE, 100), t') /\
    tr_seg_rx t' !! i = Some rx /\ srx_in_use rx = true /\
    forall acks, Forall (fun a => a.2 < CONFIG_BT_MESH_RX_SEG_MSG_COUNT)%nat acks ->
      exists t'', run_ops (ecb := toy_ecb) (cmac := toy_cmac) true true false (fun _ _ _ => false) (fun _ => true)
                    model_recv_none hb_recv_none (ack_works acks) t' = Some (tt, t'') /\ tr_seg_rx t'' !! i = Some rx.
Proof.
  apply (rx_context_leak (ecb := toy_ecb) (ecb_ok := toy_ecb_ok) (cmac := toy_cmac) true true false (fun _ _ _ => false) (fun _ => true)
    model_recv_none hb_recv_none 2 64);
    [apply trans_example_ok|split; vm_compute; (lia || done)|lia|done|done|vm_compute; lia|by left].
Defined.

Lemma message_nonce_reused_witness :
  exists t', bt_mesh_trans_send (ecb := toy_ecb) true true false (fun _ _ _ => false) (fun _ => false)
      tx_to_nine (msg_example 20 4) None (trans_example 4) = Some (None, t') /\
    forall tx' key' msg', trans_encrypt (ecb := toy_ecb) tx' key' msg' t' = trans_encrypt (ecb := toy_ecb) tx' key' msg' (trans_example 4).
Proof.
  apply (message_nonce_reused (ecb := toy_ecb) (ecb_ok := toy_ecb_ok) true true false (fun _ _ _ => false) (fun _ => false) 2 64 tx_to_nine (msg_example 20 4) None (trans_example 4) tx_to_nine 0 (replicate 16 6) 25);
    try reflexivity; try (vm_compute; (lia || congruence)).
  - apply trans_example_ok.
  - by left.
Defined.
