(* ===== verification/Reassembly.v ===== *)
(** * Reassembly of a message from its packets

    What a receiver makes of the packets of one segmented access message, in whatever
    order they arrive: the segments collect in one context, and the last one hands the
    decrypted message to the access layer, once. *)

From S2P Require Import Prelude ByteOrder MeshDefs Cdb NetBuf Access Rpl Ccm MeshCrypto Subnet AppKeys Net NetProps NetRecv Transport TransportProps TransportSafe TransportRecv TransportOps Segments.

(** ** The format of a segment *)

Definition seg_bytes (hdr seq_zero : Z) (long : bool) (o n : Z) (b : bytes) : bytes :=
  [hdr; u8 (Z.lor (if long then 128 else 0) (Z.shiftr seq_zero 6));
   u8 (Z.lor (Z.shiftl (Z.land seq_zero 63) 2) (Z.shiftr o 3)); u8 (Z.lor (Z.shiftl (Z.land o 7) 5) n)] ++ b.

Lemma lor_flag (long : bool) x : 0 <= x < 128 -> Z.lor (if long then 128 else 0) x = (if long then 128 else 0) + x.
Proof. intros H. destruct long; [by apply (lor_shiftl_add 1 x 7); lia|by rewrite Z.lor_0_l]. Qed.

Lemma seg_bytes_fields hdr z long o n b :
  0 <= z < 2 ^ 13 -> 0 <= o < 32 -> 0 <= n < 32 ->
  seg_fields (seg_bytes hdr z long o n b) = (z, o, n) /\
  ASZMIC (byte_at (seg_bytes hdr z long o n b) 1) = if long then 1 else 0.
Proof.
  intros Hz Ho Hn. unfold seg_fields, seg_bytes, ASZMIC, byte_at, TRANS_SEQ_ZERO_MASK. cbn [app nth].
  change (drop 1 (?a :: ?l)) with l. rewrite get_be16_cons by apply u8_range.
  assert (forall x, Z.land x 63 = x mod 64) as L6 by (intros; apply (land_mask _ 6); lia).
  assert (forall x, Z.land x 7 = x mod 8) as L3 by (intros; apply (land_mask _ 3); lia).
  assert (forall x, Z.land x 31 = x mod 32) as L5 by (intros; apply (land_mask _ 5); lia).
  assert (forall x, Z.land x 3 = x mod 4) as L2 by (intros; apply (land_mask _ 2); lia).
  assert (forall x, Z.land x 1 = x mod 2) as L1 by (intros; apply (land_mask _ 1); lia).
  assert (forall x, Z.land x (2 ^ 13 - 1) = x mod 2 ^ 13) as L13 by (intros; apply (land_mask _ 13); lia).
  rewrite L6, L3, L5, L2, L1, L13. rewrite !(shiftr_div z), !(shiftr_div o) by lia.
  rewrite lor_flag by divmod. rewrite !(lor_shiftl_add (z mod 64)), !(lor_shiftl_add (o mod 8)) by divmod.
  rewrite !shiftr_div by lia. unfold u8. rewrite (lor_shiftl_add _ _ 3) by divmod.
  split; [f_equal; [f_equal|]|]; destruct long; divmod.
Qed.

(** ** Messages *)

(** A segmented access message on its way: the network credentials and IV index it is
    sent with, its header fields, and the encrypted payload with its MIC. *)
Record message : Type := mkMessage {
  m_cred : bt_mesh_net_cred;
  m_iv : Z;
  m_ttl : Z;
  m_src : Z;
  m_dst : Z;
  m_seq : Z;          (** sequence number of the first segment *)
  m_hdr : Z;
  m_long : bool;      (** a MIC of eight bytes *)
  m_data : bytes;
}.

Definition m_total (m : message) : nat := seg_total false (length (m_data m)).
Definition m_auth (m : message) : Z := SEQ_AUTH (m_iv m) (m_seq m).
Definition m_mic (m : message) : Z := if m_long m then 1 else 0.

(** The transport and the network PDU of the segment [k]. *)
Definition m_segment (m : message) (k : nat) : bytes :=
  seg_bytes (m_hdr m) (Z.land (m_seq m) TRANS_SEQ_ZERO_MASK) (m_long m) (Z.of_nat k) (Z.of_nat (m_total m) - 1)
    (chunk false (m_data m) k).
Definition m_clear (m : message) (k : nat) : bytes :=
  net_header (cred_nid (m_cred m)) (m_iv m) false (m_ttl m) (m_seq m + Z.of_nat k) (m_src m) (m_dst m) ++ m_segment m k.

(** At most three segments, the most a context has room for. *)
Record message_ok (m : message) : Prop := {
  mok_nid : 0 <= cred_nid (m_cred m) < 128;
  mok_iv : 0 <= m_iv m < 2 ^ 32 - 1;
  mok_ttl : 0 <= m_ttl m < 128;
  mok_seq : 0 <= m_seq m /\ m_seq m + Z.of_nat (m_total m) <= 2 ^ 24;
  mok_src : BT_MESH_ADDR_IS_UNICAST (m_src m) = true /\ 0 <= m_src m;
  mok_dst : BT_MESH_ADDR_IS_UNICAST (m_dst m) = true /\ 0 <= m_dst m;
  mok_hdr : SEG (m_hdr m) = true /\ AKF (m_hdr m) = true;
  mok_data : (APP_MIC_LEN (m_mic m) < length (m_data m) <= BT_MESH_RX_SDU_MAX)%nat;
}.

Lemma message_total m : message_ok m -> (1 <= m_total m <= 3)%nat.
Proof.
  intros H. pose proof (mok_data _ H) as Hd. change BT_MESH_RX_SDU_MAX with 36%nat in Hd.
  split; [unfold m_total, seg_total; lia|]. destruct (Nat.le_gt_cases (m_total m) 3) as [|Hgt]; [done|].
  apply seg_total_bound in Hgt; [|lia]. change (seg_len false) with 12%nat in Hgt. lia.
Qed.

Lemma message_chunk m k :
  message_ok m -> (k < m_total m)%nat ->
  (1 <= length (chunk false (m_data m) k) <= 12)%nat /\
  length (chunk false (m_data m) k) = (if decide (k = m_total m - 1)%nat then length (m_data m) - k * 12 else 12)%nat.
Proof.
  intros H Hk. pose proof (mok_data _ H) as Hd. change BT_MESH_RX_SDU_MAX with 36%nat in Hd.
  destruct (length_chunk false (m_data m) k) as [_ Hl]; [done|lia|]. change (seg_len false) with 12%nat in Hl.
  split; [done|]. pose proof (proj1 (seg_total_bound false (length (m_data m)) k ltac:(lia)) Hk) as Hlt.
  change (seg_len false) with 12%nat in Hlt. unfold chunk. change (seg_len false) with 12%nat. rewrite length_take, length_drop.
  case_decide as E.
  - assert (~ (S k < m_total m)%nat) as Hge by lia. unfold m_total in Hge. rewrite seg_total_bound in Hge by lia.
    change (seg_len false) with 12%nat in Hge. lia.
  - assert (S k < m_total m)%nat as Hge by lia. unfold m_total in Hge. apply seg_total_bound in Hge; [|lia].
    change (seg_len false) with 12%nat in Hge. lia.
Qed.

Lemma clear_fields m k :
  message_ok m -> (k < m_total m)%nat ->
  NID (m_clear m k) = cred_nid (m_cred m) /\ IVI (m_clear m k) = Z.land (m_iv m) 1 /\ CTL (m_clear m k) = false /\
  TTL (m_clear m k) = m_ttl m /\ SEQ (m_clear m k) = m_seq m + Z.of_nat k /\ SRC (m_clear m k) = m_src m /\
  DST (m_clear m k) = m_dst m /\ NET_MIC_LEN (m_clear m k) = 4%nat.
Proof.
  intros H Hk. destruct (mok_seq _ H). apply (header_fields _ _ false); [apply H|apply H|lia| |].
  - destruct (mok_src _ H) as [Hu ?]. apply unicast_iff in Hu. unfold is_u16. lia.
  - destruct (mok_dst _ H) as [Hu ?]. apply unicast_iff in Hu. unfold is_u16. lia.
Qed.

Lemma length_clear m k :
  message_ok m -> (k < m_total m)%nat -> length (m_clear m k) = (13 + length (chunk false (m_data m) k))%nat.
Proof. intros. unfold m_clear. by rewrite length_app. Qed.

(** ** The context of a message *)

(** The context has the segments [got] of the message. *)
Record partial (m : message) (got : list nat) (rx : seg_rx) : Prop := {
  par_use : srx_in_use rx = true;
  par_addr : srx_src rx = m_src m /\ srx_dst rx = m_dst m;
  par_auth : srx_seq_auth rx = m_auth m;
  par_hdr : srx_hdr rx = m_hdr m;
  par_n : srx_seg_n rx = Z.of_nat (m_total m) - 1;
  par_ctl : srx_ctl rx = false;
  par_seg k : (k < m_total m)%nat ->
    srx_seg rx !! k = Some (if decide (k ∈ got) then Some (chunk false (m_data m) k) else None);
  par_bits z : 0 <= z -> Z.testbit (srx_block rx) z = bool_decide (Z.to_nat z ∈ got);
  par_got k : k ∈ got -> (k < m_total m)%nat;
  par_len : (m_total m - 1)%nat ∈ got -> srx_len rx = length (m_data m);
}.

(** A context left from an earlier message, or of another pair of nodes. *)
Definition stale (m : message) (rx : seg_rx) : Prop :=
  srx_src rx = m_src m -> srx_dst rx = m_dst m -> srx_in_use rx = false /\ srx_seq_auth rx < m_auth m.

Lemma find_stale m l i : Forall (stale m) l -> seg_rx_find_loop (m_src m) (m_dst m) (m_auth m) i l = None.
Proof.
  intros H. revert i. induction H as [|rx l Hrx _ IH]; intros i; [done|]. cbn [seg_rx_find_loop].
  destruct (negb _ || negb _) eqn:E; [apply IH|]. zbool. destruct (Hrx ltac:(done) ltac:(done)) as [-> Hlt].
  rewrite (proj2 (Z.leb_gt _ _)) by done. apply IH.
Qed.

Lemma find_partial m got l i0 i rx :
  l !! i = Some rx -> partial m got rx -> (forall j y, (j < i)%nat -> l !! j = Some y -> stale m y) ->
  seg_rx_find_loop (m_src m) (m_dst m) (m_auth m) i0 l = Some ((i0 + i)%nat, true).
Proof.
  revert i0 i. induction l as [|y l IH]; intros i0 i Hi Hp Hst; [done|]. cbn [seg_rx_find_loop]. destruct i as [|i].
  - injection Hi as ->. destruct (par_addr _ _ _ Hp) as [-> ->]. rewrite !Z.eqb_refl, (par_auth _ _ _ Hp), Z.leb_refl. cbn.
    by rewrite Nat.add_0_r.
  - assert (seg_rx_find_loop (m_src m) (m_dst m) (m_auth m) (S i0) l = Some ((i0 + S i)%nat, true)) as Hnext.
    { rewrite (IH (S i0) i); [f_equal; f_equal; lia|done|done|]. intros j z Hj Hz. apply (Hst (S j) z); [lia|done]. }
    destruct (negb _ || negb _) eqn:E; [done|]. zbool. destruct (Hst 0%nat y ltac:(lia) eq_refl ltac:(done) ltac:(done)) as [-> Hlt].
    by rewrite (proj2 (Z.leb_gt _ _)) by done.
Qed.

Lemma block_complete_ones n : 0 <= n < 31 -> BLOCK_COMPLETE n = Z.ones (n + 1).
Proof.
  intros H. unfold BLOCK_COMPLETE. rewrite Z.ones_equiv, Z.shiftl_1_l, <- Z.sub_1_r. apply u32_id. unfold is_u32.
  pose proof (Z.pow_le_mono_r 2 (n + 1) 31). pose proof (Z.pow_pos_nonneg 2 (n + 1)). lia.
Qed.

(** The block bits are all set exactly when every segment is there. *)
Lemma partial_complete m got rx :
  message_ok m -> partial m got rx ->
  (srx_block rx = BLOCK_COMPLETE (Z.of_nat (m_total m) - 1) <-> forall k, (k < m_total m)%nat -> k ∈ got).
Proof.
  intros Hm Hp. pose proof (message_total m Hm). rewrite block_complete_ones by lia. rewrite Z.sub_add. split.
  - intros E k Hk. pose proof (par_bits _ _ _ Hp (Z.of_nat k) ltac:(lia)) as Hb.
    rewrite E, Z.ones_spec_low in Hb by lia. symmetry in Hb. apply bool_decide_eq_true in Hb. by rewrite Nat2Z.id in Hb.
  - intros Hall. apply Z.bits_inj'. intros z Hz. rewrite (par_bits _ _ _ Hp z Hz).
    destruct (decide (z < Z.of_nat (m_total m))) as [Hlt|Hge].
    + rewrite Z.ones_spec_low by lia. apply bool_decide_eq_true. apply Hall. lia.
    + rewrite Z.ones_spec_high by lia. apply bool_decide_eq_false. intros Hin. apply (par_got _ _ _ Hp) in Hin. lia.
Qed.

Lemma contents_pulled n b : (n <= buf_len b)%nat -> contents (pulled n b) = drop n (contents b).
Proof.
  intros H. unfold contents, pulled. cbn. rewrite <- drop_drop, take_drop_commute. do 2 f_equal. lia.
Qed.

(** ** The receiver *)

(** A message handed to the access layer. *)
Record delivery : Type := mkDelivery {
  dl_src : Z;
  dl_dst : Z;
  dl_app_idx : Z;
  dl_data : bytes;
}.

(** An access layer that keeps what it is handed. *)
Definition model_recv_record (rx : bt_mesh_net_rx) (sdu : net_buf_simple) (rssi : Z) : ST (trans (list delivery)) bt_mesh_net_rx :=
  _ ← modify (fun t => t <| tr_friend := tr_friend t ++ [mkDelivery (rx_addr rx) (ctx_recv_dst (rx_ctx rx))
                                                          (ctx_app_idx (rx_ctx rx)) (contents sdu)] |>);
  mret rx.
Definition hb_recv_ignore (rx : bt_mesh_net_rx) (buf : bytes) : ST (trans (list delivery)) ret_code := mret None.

Section Receiver.
Context {ecb : Ecb} {ecb_ok : EcbOk} (config_proxy config_friend config_cdb : bool).
Context (proxy_relay : bytes -> Z -> bt_mesh_net -> bool) (adv_buffer : bt_mesh_net -> bool).
Context (subnets_max pool : nat).

Abbreviation TR := (trans (list delivery)).
Abbreviation OK := (trans_ok (F := list delivery) subnets_max pool).

Lemma record_ok rx sdu rssi (t : TR) :
  OK t -> (rx_sub rx < subnets_max)%nat -> wp (model_recv_record rx sdu rssi) (fun rx' t' => OK t' /\ keeps_rx rx rx') t.
Proof. intros [] _. apply wp_bind, wp_modify, wp_ret. by split. Qed.

Lemma ignore_ok rx buf (t : TR) : OK t -> (rx_sub rx < subnets_max)%nat -> wp (hb_recv_ignore rx buf) (fun _ => OK) t.
Proof. intros. by apply wp_ret. Qed.

Lemma no_friend_ctl_ok op rx buf (t : TR) :
  OK t -> (rx_sub rx < subnets_max)%nat -> wp (bt_mesh_friend_ctl op rx buf) (fun _ => OK) t.
Proof. intros. by apply wp_ret. Qed.

(** *** The message *)

Context (m : message) (key payload : bytes) (idx : Z) (Hm : message_ok m).

(** The payload of the message is encrypted with [key]. *)
Definition m_crypto : bt_mesh_app_crypto_ctx := mkAppCtx false (m_mic m) (m_src m) (m_dst m) (m_seq m) (m_iv m) None.
Hypothesis Hsealed : m_data m = app_sealed key m_crypto payload.

(** The first application key with the identifier of the message is [key]. *)
Definition app_matches (net_idx aid : Z) (a : bt_mesh_app_key) : bool :=
  negb ((app_idx a =? BT_MESH_KEY_UNUSED) || negb (app_net_idx a =? net_idx) || negb (cred_id (app_key0 a) =? aid)).
Definition holds_key (t : TR) : Prop :=
  exists sub i a, subs (net_subnets (tr_net t)) !! 0%nat = Some sub /\
    find_index (app_matches (sub_net_idx sub) (AID (m_hdr m))) (apps (tr_apps t)) = Some i /\
    apps (tr_apps t) !! i = Some a /\ app_idx a = idx /\ cred_val (app_key0 a) = key.

(** No message of the source with this or a later sequence number has been accepted. *)
Definition rpl_fresh (n : bt_mesh_net) : Prop :=
  forall rx, rx_addr rx = m_src m -> m_seq m <= rx_seq rx -> BT_MESH_NET_IVI_RX (rx_old_iv rx) n = m_iv m ->
  exists i, rpl_check_loop rx 0 (net_rpl n) = (false, Some i).

(** The destination, ready for the message. *)
Record listening (t : TR) : Prop := {
  lis_valid : net_valid (tr_net t) = true;
  lis_key : first_key (tr_net t) (m_cred m);
  lis_iv : iv_index (tr_net t) = m_iv m \/ iv_index (tr_net t) = m_iv m + 1;
  lis_src : bt_mesh_elem_find (net_comp (tr_net t)) (m_src m) = Some None;
  lis_dst : exists e, bt_mesh_elem_find (net_comp (tr_net t)) (m_dst m) = Some (Some e);
  lis_quiet : net_quiet (tr_net t);
  lis_rpl : rpl_fresh (tr_net t);
  lis_app : holds_key t;
}.

(** The context of the packet of the segment [k]. *)
Record rx_of (k : nat) (n : bt_mesh_net) (rx : bt_mesh_net_rx) : Prop := {
  rxk_describes : rx_describes (m_clear m k) rx;
  rxk_iv : BT_MESH_NET_IVI_RX (rx_old_iv rx) n = m_iv m;
  rxk_if : rx_net_if rx = BT_MESH_NET_IF_ADV;
  rxk_ttl : 0 <= ctx_send_ttl (rx_ctx rx);
  rxk_match : rx_local_match rx = true /\ rx_friend_match rx = false;
}.

Definition delivered : delivery := mkDelivery (m_src m) (m_dst m) idx payload.
Definition handed_over (t t' : TR) : Prop :=
  tr_friend t' = tr_friend t ++ [delivered] /\ dup_cache (tr_net t') = dup_cache (tr_net t).

Lemma payload_length : length (m_data m) = (length payload + APP_MIC_LEN (m_mic m))%nat.
Proof.
  rewrite Hsealed. unfold app_sealed. pose proof (app_mic_len (m_mic m)). rewrite length_app, length_ctr, length_ccm_mac; try done.
  cbn. lia.
Qed.

(** *** The last segment *)

Lemma partial_full got rx :
  partial m got rx -> (forall k, (k < m_total m)%nat -> k ∈ got) -> rx_ok subnets_max rx ->
  rx_full rx /\ srx_len rx = length (m_data m) /\ rx_joined rx (m_total m) = m_data m.
Proof.
  intros Hp Hall Hok. pose proof (message_total m Hm) as Ht.
  assert (srx_len rx = length (m_data m)) as Hl by (apply (par_len _ _ _ Hp), Hall; lia).
  destruct (complete_full subnets_max rx Hok (par_use _ _ _ Hp)) as [Hf _].
  { rewrite (par_n _ _ _ Hp). by apply (partial_complete m got). }
  split_and!; [done|done|].
  assert (forall k, (k <= m_total m)%nat -> rx_joined rx k = take (k * 12) (m_data m)) as Hj.
  { induction k as [|k IH]; intros Hk; [done|]. pose proof (par_seg _ _ _ Hp k ltac:(lia)) as Hs.
    rewrite decide_True in Hs by (apply Hall; lia). rewrite (joined_step _ _ _ Hs), IH by lia.
    replace (S k * 12)%nat with (k * 12 + 12)%nat by lia. by rewrite take_split. }
  rewrite Hj by done. apply take_ge. destruct (message_chunk m (m_total m - 1) Hm ltac:(lia)) as [_ Hc].
  rewrite decide_True in Hc by done. pose proof (message_chunk m (m_total m - 1) Hm ltac:(lia)) as [? _]. lia.
Qed.

Lemma try_key_ok got rx out :
  partial m got rx -> (forall k, (k < m_total m)%nat -> k ∈ got) -> rx_ok subnets_max rx ->
  exists b, sdu_try_decrypt_seg m_crypto rx key out = Some (true, b) /\ contents b = payload.
Proof.
  intros Hp Hall Hok. destruct (partial_full got rx Hp Hall Hok) as (Hf & Hl & Hj).
  pose proof (mok_data _ Hm) as Hd. pose proof payload_length as Lp. pose proof (message_total m Hm) as Ht. unfold sdu_try_decrypt_seg.
  destruct (assemble_ok rx (m_mic m) BT_MESH_RX_SDU_MAX Hf) as (b & E & Hbd & Hbs & Hbl & Hbm); [lia|lia|].
  rewrite (par_ctl _ _ _ Hp) in Hbl. change (ac_aszmic m_crypto) with (m_mic m). rewrite E. cbn [need]. rewrite bind_ret. cbv beta iota.
  rewrite (par_n _ _ _ Hp), Hl in Hbm. replace (S (Z.to_nat (Z.of_nat (m_total m) - 1))) with (m_total m) in Hbm by lia.
  rewrite Hj in Hbm. change BT_MESH_RX_SDU_MAX with 36%nat in *.
  erewrite app_decrypt_in_place_ok with (text := payload).
  - cbn [need]. rewrite bind_ret. cbv beta iota. rewrite bind_modify. eexists. split; [reflexivity|].
    unfold contents. cbn. rewrite Hbd, drop_0. rewrite take_take, Nat.min_id. unfold buf_size in Hbs.
    replace (buf_len b) with (length payload) by lia. rewrite <- (drop_0 (list_inserts _ _ _)). apply slice_inserts_same. lia.
  - rewrite <- Hsealed, <- Hbm, Hbd. unfold slice. rewrite drop_0. f_equal. change (ac_aszmic m_crypto) with (m_mic m). lia.
  - lia.
  - lia.
  - change (ac_aszmic m_crypto) with (m_mic m). lia.
Qed.

Lemma find_loop_first {S : Type} (cb : bytes -> ST S bool) net_idx aid l i a s s' :
  find_index (app_matches net_idx aid) l = Some i -> l !! i = Some a -> cb (cred_val (app_key0 a)) s = Some (true, s') ->
  app_key_find_loop cb aid net_idx false l s = Some (app_idx a, s') /\ app_idx a <> BT_MESH_KEY_UNUSED.
Proof.
  intros Hf Hi Hcb. revert i Hf Hi. induction l as [|b l IH]; intros i; cbn [find_index app_key_find_loop]; [done|].
  unfold app_matches at 1. change (rx_cred false b) with (app_key0 b). destruct (_ || _) eqn:E; cbn [negb].
  - intros (j & Hj & ->)%fmap_Some Hi. by apply (IH j).
  - intros [= <-] [= ->]. rewrite (bind_some _ _ _ _ _ Hcb). split; [done|].
    apply orb_false_iff in E as [E _]. apply orb_false_iff in E as [E _]. by apply Z.eqb_neq in E.
Qed.

Lemma key_found got rx net_rx out t :
  holds_key t -> partial m got rx -> (forall k, (k < m_total m)%nat -> k ∈ got) -> rx_ok subnets_max rx ->
  rx_sub net_rx = 0%nat -> rx_new_key net_rx = false ->
  idx <> BT_MESH_KEY_UNUSED /\
  exists b, bt_mesh_app_key_find config_cdb (sdu_try_decrypt_seg m_crypto rx) false (AID (m_hdr m)) net_rx (tr_cdb t)
      (tr_dev_key t) (net_subnets (tr_net t)) (tr_apps t) out = Some (idx, b) /\ contents b = payload.
Proof.
  intros (sub & i & a & Hs & Hf & Ha & <- & Hk) Hp Hall Hok Hsub Hnew.
  destruct (try_key_ok got rx out Hp Hall Hok) as (b & E & C). rewrite <- Hk in E.
  destruct (find_loop_first _ _ _ _ _ _ _ _ Hf Ha E) as [E' Hu]. split; [done|]. exists b. split; [|done].
  unfold bt_mesh_app_key_find. rewrite Hsub, Hs, Hnew. cbn [need]. by rewrite bind_ret.
Qed.

Lemma auth_seq : Z.land (m_auth m) (2 ^ 24 - 1) = m_seq m.
Proof.
  pose proof (mok_seq _ Hm). pose proof (message_total m Hm). unfold m_auth, SEQ_AUTH.
  rewrite lor_shiftl_add by lia. rewrite (land_mask _ 24) by lia. rewrite Z.add_comm, Z_mod_plus_full. apply Z.mod_small. lia.
Qed.

Lemma crypto_ok k net_rx (t : TR) :
  (k < m_total m)%nat -> rx_of k (tr_net t) net_rx -> rx_crypto net_rx (m_hdr m) (m_mic m) (m_seq m) t = m_crypto.
Proof.
  intros Hk [(Ha & Hd & _) Hiv _ _ _]. destruct (clear_fields m k Hm Hk) as (_ & _ & _ & _ & _ & Es & Ed & _).
  rewrite Es in Ha. rewrite Ed in Hd. unfold rx_crypto, m_crypto. rewrite Ha, Hd, Hiv, (proj2 (mok_hdr _ Hm)).
  destruct (mok_dst _ Hm) as [Hu _]. apply unicast_iff in Hu. unfold BT_MESH_ADDR_IS_VIRTUAL.
  by rewrite (proj2 (Z.leb_gt 32768 _)) by lia.
Qed.

(** The transport layer hands the message on. *)
Lemma sdu_delivered k got rx net_rx out rssi (t : TR) :
  (k < m_total m)%nat -> rx_of k (tr_net t) net_rx -> holds_key t ->
  partial m got rx -> (forall k, (k < m_total m)%nat -> k ∈ got) -> rx_ok subnets_max rx ->
  wp (sdu_recv config_friend config_cdb model_recv_record net_rx (m_hdr m) (m_mic m) (m_seq m)
        (fun crypto => sdu_try_decrypt_seg crypto rx) out rssi)
    (fun r t' => r = (None, net_rx <| rx_ctx := (rx_ctx net_rx) <| ctx_app_idx := idx |> |>) /\
                 t' = t <| tr_friend := tr_friend t ++ [delivered] |>) t.
Proof.
  intros Hk Hrx Hh Hp Hall Hok. pose proof (rxk_match _ _ _ Hrx) as [Hl _]. unfold sdu_recv. rewrite Hl, andb_false_r.
  apply wp_bind, wp_gets, wp_bind, wp_gets. unfold id. rewrite (crypto_ok k net_rx t Hk Hrx).
  destruct (rxk_describes _ _ _ Hrx) as (Ha & Hd & _ & _ & _ & Hs & Hn & _).
  destruct (clear_fields m k Hm Hk) as (_ & _ & _ & _ & _ & Es & Ed & _).
  destruct (key_found got rx net_rx out t Hh Hp Hall Hok Hs Hn) as (Hu & b & E & C).
  change (ac_dev_key m_crypto) with false. rewrite E. apply wp_bind. eapply wp_need; [done|]. cbv beta iota.
  rewrite (proj2 (Z.eqb_neq _ _) Hu). apply wp_bind, wp_bind, wp_modify, wp_ret, wp_ret. split; [done|].
  unfold delivered. rewrite Es in Ha. rewrite Ed in Hd. rewrite <- Ha, <- Hd, <- C. done.
Qed.

(** What stays of the state while the acknowledgement is sent. *)
Lemma net_change_kept k net_rx t t' :
  holds_key t -> net_quiet (tr_net t) -> rx_of k (tr_net t) net_rx -> net_change t t' ->
  holds_key t' /\ rx_of k (tr_net t') net_rx /\ tr_friend t' = tr_friend t /\ tr_seg_rx t' = tr_seg_rx t /\
  dup_cache (tr_net t') = dup_cache (tr_net t).
Proof.
  intros Hh Hnq [H1 H2 H3 H4 H5] (n' & lg & (Hf & Hd & Hq) & ->). destruct Hf as (Hs & _). split_and!; try done.
  - unfold holds_key. cbn. by rewrite Hs.
  - split; try done. cbn. unfold BT_MESH_NET_IVI_RX. by rewrite (Hq Hnq).
Qed.

Lemma wp_rpl_update slot net_rx (Q : unit -> TR -> Prop) t :
  (forall l, Q tt (t <| tr_net := tr_net t <| net_rpl := l |> |>)) -> wp (rpl_update slot net_rx) Q t.
Proof.
  intros HQ. unfold rpl_update. destruct slot as [i|].
  - apply wp_zoom, wp_modify, HQ.
  - apply wp_ret. specialize (HQ (net_rpl (tr_net t))). destruct t as [[] ? ? ? ? ? ? ? ? ?]. exact HQ.
Qed.

Lemma partial_ack got rx a : partial m got rx -> partial m got (rx <| srx_ack := a |>).
Proof. intros []. by split. Qed.

Lemma complete_delivers k net_rx got slot i rx rssi t :
  OK t -> listening t -> (k < m_total m)%nat -> rx_of k (tr_net t) net_rx -> (0 < subnets_max)%nat ->
  tr_seg_rx t !! i = Some rx -> partial m got rx -> (forall k, (k < m_total m)%nat -> k ∈ got) ->
  wp (trans_seg_complete config_proxy config_friend config_cdb proxy_relay adv_buffer model_recv_record hb_recv_ignore
        net_rx (m_hdr m) (m_mic m) (m_auth m) slot i rssi)
    (fun r t' => r = (None, net_rx <| rx_ctx := (rx_ctx net_rx) <| ctx_app_idx := idx |> |>, BT_MESH_FRIEND_PDU_COMPLETE, m_auth m) /\
                 handed_over t t') t.
Proof.
  intros H Hlis Hk Hrx Hsub Hi Hp Hall. unfold trans_seg_complete.
  destruct (rxk_describes _ _ _ Hrx) as (_ & _ & _ & _ & Hc & Hs & _).
  assert (Hctl : rx_ctl net_rx = false) by (rewrite Hc; apply (clear_fields m k Hm Hk)).
  apply wp_bind, wp_rpl_update. intros l. set (t1 := t <| tr_net := _ |>).
  assert (OK t1) as H1 by exact (net_frame_ok subnets_max pool t (tr_net t <| net_rpl := l |>) (tr_log t) H ltac:(done)).
  pose proof (Forall_lookup_1 _ _ _ _ (tok_rx _ _ _ H) Hi) as Hok. rewrite (tok_subnets _ _ _ H) in Hok.
  destruct (rx_index subnets_max pool t i rx H Hi) as [Hil _].
  rewrite (srt_id i rx t1 Hi). apply wp_bind, wp_set_rx, wp_bind, wp_get_rx; [done|].
  set (rx2 := rx <| srx_ack := None |>). set (t2 := srt i rx2 _ t1).
  assert (rx_ok subnets_max rx2) as Hok2 by (apply (rx_ok_same _ rx); [done..|]; by intros [? ?]).
  assert (OK t2) as H2. { apply (srt_ok subnets_max pool i rx); try done. by rewrite (tok_subnets _ _ _ H1). }
  apply (wp_seq (net_change t2)); [apply (send_ack_ok _ _ _ _ _ subnets_max pool); [done|by rewrite Hs|apply Hrx]|].
  intros _ t3 N3.
  destruct (net_change_kept k net_rx t2 t3 (lis_app _ Hlis) (lis_quiet _ Hlis)) as (Hh3 & Hrx3 & F3 & R3 & D3); [by destruct Hrx|done|].
  assert (tr_seg_rx t3 !! i = Some rx2) as Hi3 by (rewrite R3; cbn; by apply list_lookup_insert_eq).
  apply wp_bind, (wp_get_rx_at i rx2); [done|]. rewrite Hctl.
  assert (partial m got rx2) as Hp2 by (by apply partial_ack).
  destruct (partial_full got rx2 Hp2 Hall Hok2) as (_ & Hlen & _). pose proof (mok_data _ Hm) as Hd.
  rewrite (proj2 (Nat.ltb_ge _ _)) by lia. rewrite (par_auth _ _ _ Hp2), auth_seq.
  apply wp_bind, wp_bind. eapply wp_mono; [by apply (sdu_delivered k got)|]. cbv beta. intros r t4 [-> ->]. cbv beta iota.
  apply wp_ret. cbv beta iota. apply wp_bind. set (t4 := t3 <| tr_friend := _ |>).
  rewrite (srt_id i rx2 t4 Hi3). apply (wp_rx_reset _ subnets_max); [by apply lookup_lt_Some in Hi3|done|]. intros l' _ _.
  apply wp_ret. split; [done|]. split; cbn; [by rewrite F3|by rewrite D3].
Qed.

(** *** Any segment *)

Definition all_in (got : list nat) : Prop := forall k, (k < m_total m)%nat -> k ∈ got.

(** The segment is stored in the context [i], or the message is complete and delivered. *)
Definition stored (k : nat) (got : list nat) (i : nat) (t t' : TR) : Prop :=
  (all_in (k :: got) /\ handed_over t t') \/
  (~ all_in (k :: got) /\ exists rx', partial m (k :: got) rx' /\ t' = srt i rx' (pred (tr_segs_free t)) t).

Definition same_rx (rx rx' : bt_mesh_net_rx) : Prop :=
  ctx_recv_dst (rx_ctx rx') = ctx_recv_dst (rx_ctx rx) /\ rx_local_match rx' = rx_local_match rx /\
  rx_friend_match rx' = rx_friend_match rx.

Lemma partial_same got rx rx' :
  partial m got rx ->
  (srx_in_use rx', srx_src rx', srx_dst rx', srx_seq_auth rx', srx_hdr rx', srx_seg_n rx', srx_ctl rx', srx_seg rx', srx_block rx') =
  (srx_in_use rx, srx_src rx, srx_dst rx, srx_seq_auth rx, srx_hdr rx, srx_seg_n rx, srx_ctl rx, srx_seg rx, srx_block rx) ->
  ((m_total m - 1)%nat ∈ got -> srx_len rx' = srx_len rx) -> partial m got rx'.
Proof.
  intros [H1 H2 H3 H4 H5 H6 H7 H8 H9 H10] [= E1 E2 E3 E4 E5 E6 E7 E8 E9] El.
  split; rewrite ?E1, ?E2, ?E3, ?E4, ?E5, ?E6, ?E7, ?E8, ?E9; try done. intros Hin. rewrite El by done. by apply H10.
Qed.

Lemma partial_store got rx k :
  partial m got rx -> (k < m_total m)%nat -> (k = m_total m - 1 -> srx_len rx = length (m_data m))%nat ->
  partial m (k :: got) (rx <| srx_seg := <[k := Some (chunk false (m_data m) k)]> (srx_seg rx) |>
                           <| srx_block := Z.setbit (srx_block rx) (Z.of_nat k) |>).
Proof.
  intros [H1 H2 H3 H4 H5 H6 H7 H8 H9 H10] Hk Hl. split; try done; cbn.
  - intros j Hj. destruct (decide (j = k)) as [->|N].
    + rewrite list_lookup_insert_eq by (apply lookup_lt_is_Some; rewrite (H7 k Hk); by eexists).
      by rewrite decide_True by by left.
    + rewrite list_lookup_insert_ne, H7 by done. do 2 f_equal. apply decide_ext. rewrite elem_of_cons. tauto.
  - intros z Hz. rewrite Z.setbit_eqb by lia. rewrite H8 by done. destruct (Z.eqb_spec (Z.of_nat k) z) as [<-|N]; cbn [orb].
    + symmetry. apply bool_decide_eq_true. rewrite Nat2Z.id. by left.
    + apply bool_decide_ext. rewrite elem_of_cons. split; [by right|]. intros [E|?]; [lia|done].
  - intros j [->|Hj]%elem_of_cons; [done|by apply H9].
  - intros [<-|Hj]%elem_of_cons; [by apply Hl|by apply H10].
Qed.

(** From the allocation of a block on. *)
Lemma alloc_stores k net_rx got slot i rx rssi t :
  OK t -> listening t -> (k < m_total m)%nat -> rx_of k (tr_net t) net_rx -> (0 < subnets_max)%nat ->
  (exists rx0, tr_seg_rx t !! i = Some rx0 /\ rx_ok subnets_max rx0 /\ srx_seg rx0 = srx_seg rx) ->
  partial m got rx -> rx_ok subnets_max rx -> k ∉ got -> tr_segs_free t <> 0%nat ->
  (k = m_total m - 1 -> srx_len rx = length (m_data m))%nat ->
  wp (free ← gets tr_segs_free;
      if (free =? 0)%nat then mret (Some ENOBUFS, net_rx, BT_MESH_FRIEND_PDU_SINGLE, m_auth m)
      else if (BT_MESH_APP_SEG_SDU_MAX <? length (chunk false (m_data m) k))%nat || (length (srx_seg rx) <=? Z.to_nat (Z.of_nat k))%nat
      then undefined
      else
        _ ← modify (fun t => t <| tr_segs_free := pred (tr_segs_free t) |>);
        _ ← set_rx (fun rx => rx <| srx_seg := <[Z.to_nat (Z.of_nat k) := Some (chunk false (m_data m) k)]> (srx_seg rx) |>
                                 <| srx_block := Z.setbit (srx_block rx) (Z.of_nat k) |>) i;
        rx ← get_rx i;
        if negb (srx_block rx =? BLOCK_COMPLETE (Z.of_nat (m_total m) - 1))
        then mret (None, net_rx, BT_MESH_FRIEND_PDU_PARTIAL, m_auth m)
        else trans_seg_complete config_proxy config_friend config_cdb proxy_relay adv_buffer model_recv_record hb_recv_ignore
               net_rx (m_hdr m) (m_mic m) (m_auth m) slot i rssi)
    (fun (r : seg_out) t' => r.1.1.1 = None /\ same_rx net_rx r.1.1.2 /\ stored k got i t t') (srt i rx (tr_segs_free t) t).
Proof.
  intros H Hlis Hk Hrx Hsub (rx0 & Hi & Hok0 & Hs0) Hp Hok Hnew Hfree Hlast.
  destruct (rx_index subnets_max pool t i rx0 H Hi) as [Hil _]. pose proof (message_chunk m k Hm Hk) as [Hc1 Hc2].
  pose proof (message_total m Hm) as Ht. apply wp_bind, wp_gets. change (tr_segs_free (srt _ _ ?f _)) with f.
  rewrite (proj2 (Nat.eqb_neq _ _)) by done. rewrite Nat2Z.id, (proj2 (orb_false_iff _ _)).
  2: { rewrite (rxo_len _ _ Hok). split; [apply Nat.ltb_ge|apply Nat.leb_gt].
       - unfold BT_MESH_APP_SEG_SDU_MAX. lia.
       - unfold CONFIG_BT_MESH_RX_SEG_MAX. lia. }
  apply wp_bind. eapply (wp_modify _ (fun _ s => wp _ _ s)).
  change (srt i rx (tr_segs_free t) t <| tr_segs_free := _ |>) with (srt i rx (pred (tr_segs_free t)) t).
  apply wp_bind, wp_set_rx. pose proof (partial_store got rx k Hp Hk Hlast) as Hp4.
  destruct (rx_ok_store subnets_max rx (Z.of_nat k) (chunk false (m_data m) k) Hok (par_use _ _ _ Hp)) as [Hok4 Hb4].
  { rewrite (par_n _ _ _ Hp). lia. }
  { rewrite (par_bits _ _ _ Hp), Nat2Z.id by lia. by apply bool_decide_eq_false. }
  { rewrite (par_n _ _ _ Hp), (par_ctl _ _ _ Hp), Nat2Z.id. change (seg_len false) with 12%nat.
    destruct (decide (k = m_total m - 1)%nat) as [E|E]; [rewrite decide_True by lia|by rewrite decide_False by lia].
    rewrite Hlast by lia. lia. }
  rewrite Nat2Z.id in Hok4, Hb4. set (rx4 := rx <| srx_seg := _ |> <| srx_block := _ |>) in *.
  apply wp_bind, wp_get_rx; [done|]. clearbody rx4. pose proof (partial_complete m (k :: got) rx4 Hm Hp4) as Hall.
  wp_if.
  - apply wp_ret. split; [done|]. split; [done|]. right. apply negb_true_iff, Z.eqb_neq in E. split; [by intros ?%Hall|]. by exists rx4.
  - apply negb_false_iff, Z.eqb_eq in E. set (t4 := srt i rx4 _ t).
    assert (OK t4) as H4. { apply (srt_ok subnets_max pool i rx0); try done; [by rewrite (tok_subnets _ _ _ H)|]. rewrite Hb4, Hs0. lia. }
    eapply wp_mono; [apply (complete_delivers k net_rx (k :: got) slot i rx4 rssi t4); try done|].
    + by destruct Hlis.
    + cbn. by apply list_lookup_insert_eq.
    + exact (proj1 Hall E).
    + cbv beta. intros r t' [-> E']. split; [done|]. split; [done|]. left. split; [exact (proj1 Hall E)|done].
Qed.

Lemma found_stores k net_rx got slot i rx now rssi t :
  OK t -> listening t -> (k < m_total m)%nat -> rx_of k (tr_net t) net_rx -> (0 < subnets_max)%nat ->
  tr_seg_rx t !! i = Some rx -> partial m got rx -> k ∉ got -> tr_segs_free t <> 0%nat ->
  wp (trans_seg_found config_proxy config_friend config_cdb proxy_relay adv_buffer model_recv_record hb_recv_ignore
        now net_rx (m_hdr m) (m_mic m) (Z.of_nat k) (Z.of_nat (m_total m) - 1) (m_auth m) slot (chunk false (m_data m) k) i rssi)
    (fun r t' => r.1.1.1 = None /\ same_rx net_rx r.1.1.2 /\ stored k got i t t') t.
Proof.
  intros H Hlis Hk Hrx Hsub Hi Hp Hnew Hfree. unfold trans_seg_found. cbv zeta.
  pose proof (Forall_lookup_1 _ _ _ _ (tok_rx _ _ _ H) Hi) as Hok. rewrite (tok_subnets _ _ _ H) in Hok.
  destruct (rx_index subnets_max pool t i rx H Hi) as [Hil _]. pose proof (message_chunk m k Hm Hk) as [Hc1 Hc2].
  pose proof (mok_data _ Hm) as Hd. pose proof (message_total m Hm) as Ht. change BT_MESH_RX_SDU_MAX with 36%nat in *.
  rewrite (srt_id i rx t Hi) at 1. apply wp_bind, wp_get_rx; [done|].
  assert (Z.testbit (srx_block rx) (Z.of_nat k) = false) as Hbit.
  { rewrite (par_bits _ _ _ Hp), Nat2Z.id by lia. by apply bool_decide_eq_false. }
  rewrite Hbit, (par_ctl _ _ _ Hp).
  change (seg_len false) with 12%nat. set (len := (_ + length _)%nat).
  set (rx1 := if Z.of_nat k =? Z.of_nat (m_total m) - 1 then rx <| srx_len := len |> else rx).
  apply wp_bind. apply wp_mono with (Q := fun _ t' => t' = srt i rx1 (tr_segs_free t) t).
  { unfold rx1. destruct (_ =? _); cbn [when]; [by apply wp_set_rx|by apply wp_ret]. }
  intros [] t1 ->.
  assert (k = m_total m - 1 -> len = length (m_data m))%nat as Hlen.
  { intros E. rewrite decide_True in Hc2 by done. unfold len. lia. }
  rewrite (proj2 (andb_false_iff _ _)).
  2: { destruct (Z.eqb_spec (Z.of_nat k) (Z.of_nat (m_total m) - 1)); [right|by left]. apply Nat.ltb_ge. rewrite Hlen; lia. }
  rewrite (proj2 (andb_false_iff _ _)).
  2: { destruct (Z.eqb_spec (Z.of_nat k) (Z.of_nat (m_total m) - 1)); [by left|right].
       rewrite decide_False in Hc2 by lia. by rewrite Hc2. }
  assert (partial m got rx1 /\ (k = m_total m - 1 -> srx_len rx1 = length (m_data m))%nat /\ rx_ok subnets_max rx1 /\
          srx_seg rx1 = srx_seg rx) as (Hp1 & Hl1 & Hok1 & Hs1).
  { unfold rx1. destruct (Z.eqb_spec (Z.of_nat k) (Z.of_nat (m_total m) - 1)) as [E|E]; [|split_and!; (done || lia)].
    split_and!; [|done| |done].
    - apply (partial_same got rx); [done..|]. intros Hin. exfalso. apply Hnew. by replace k with (m_total m - 1)%nat by lia.
    - apply rx_ok_len; [done|apply Hp|]. by rewrite (par_n _ _ _ Hp), <- E. }
  clearbody rx1. apply wp_bind, wp_set_rx, wp_bind, wp_gets, wp_bind, wp_set_rx.
  set (rx3 := match srx_ack _ with Some _ => _ | None => _ end).
  assert (partial m got rx3 /\ srx_len rx3 = srx_len rx1 /\ rx_ok subnets_max rx3 /\ srx_seg rx3 = srx_seg rx) as (Hp3 & Hl3 & Hok3 & Hs3).
  { pose proof (par_use _ _ _ Hp1). unfold rx3. destruct (srx_ack _) as [d|]; [destruct (d =? 0)|];
      (split_and!; [by apply (partial_same got rx1)|done|by apply (rx_ok_same _ rx1)|done]). }
  rewrite <- Hs3. apply alloc_stores; try done; [by exists rx|by rewrite Hl3].
Qed.

(** *** Collecting the rest *)

(** The receiver has the segments [got]. *)
Definition collecting (got : list nat) (t : TR) : Prop :=
  (m_total m <= tr_segs_free t + length got)%nat /\
  ((got = [] /\ Forall (stale m) (tr_seg_rx t) /\ Exists (fun rx => srx_in_use rx = false) (tr_seg_rx t)) \/
   (exists i rx, tr_seg_rx t !! i = Some rx /\ partial m got rx /\
      forall j y, j <> i -> tr_seg_rx t !! j = Some y -> stale m y)).

(** The effect of the segment [k]: one more, or the message is delivered. *)
Definition advanced (k : nat) (got : list nat) (t t' : TR) : Prop :=
  (all_in (k :: got) /\ handed_over t t') \/
  (~ all_in (k :: got) /\ collecting (k :: got) t' /\ tr_friend t' = tr_friend t /\ tr_net t' = tr_net t /\ tr_apps t' = tr_apps t).

Lemma stored_advanced k got i rx0 t t1 t' :
  (m_total m <= tr_segs_free t + length got)%nat -> tr_segs_free t <> 0%nat ->
  tr_seg_rx t !! i = Some rx0 -> (forall j y, j <> i -> tr_seg_rx t !! j = Some y -> stale m y) ->
  (exists rx1, t1 = srt i rx1 (tr_segs_free t) t) -> stored k got i t1 t' -> advanced k got t t'.
Proof.
  intros Hfree Hf Hi Hst (rx1 & ->) [[Hall E]|(Hall & rx' & Hp & ->)]; [by left|right]. split; [done|]. split; [|done]. split.
  - cbn. lia.
  - right. exists i, rx'. cbn. rewrite list_insert_insert_eq. pose proof (lookup_lt_Some _ _ _ Hi). split_and!; [by apply list_lookup_insert_eq|done|].
    intros j y Hj. rewrite list_lookup_insert_ne by done. by apply Hst.
Qed.

Lemma missing_length got k :
  (forall j, j ∈ got -> (j < m_total m)%nat) -> NoDup got -> (k < m_total m)%nat -> k ∉ got -> (length got < m_total m)%nat.
Proof.
  intros Hin Hnd Hk Hnew. assert (length (k :: got) <= length (seq 0 (m_total m)))%nat as Hle.
  { apply submseteq_length, NoDup_submseteq; [by constructor|]. intros j [->|Hj]%elem_of_cons; apply elem_of_seq; [lia|].
    specialize (Hin j Hj). lia. }
  rewrite length_seq in Hle. cbn in Hle. lia.
Qed.

Lemma partial_start k net_rx n rx o :
  rx_of k n net_rx -> (k < m_total m)%nat -> rx_ok subnets_max rx -> srx_in_use rx = false ->
  partial m [] (seg_rx_start net_rx (m_hdr m) (m_auth m) (Z.of_nat (m_total m) - 1) rx <| srx_obo := o |>).
Proof.
  intros Hrx Hk Hok Hidle. destruct (rxk_describes _ _ _ Hrx) as (Ha & Hd & _ & _ & Hc & _).
  destruct (clear_fields m k Hm Hk) as (_ & _ & Ec & _ & _ & Es & Ed & _). rewrite Es in Ha. rewrite Ed in Hd. rewrite Ec in Hc.
  pose proof (message_total m Hm) as Ht.
  split; cbn; try done.
  - intros j Hj. rewrite decide_False by apply not_elem_of_nil.
    destruct (lookup_lt_is_Some_2 (srx_seg rx) j) as [x Hx]; [rewrite (rxo_len _ _ Hok); unfold CONFIG_BT_MESH_RX_SEG_MAX; lia|].
    destruct (proj2 (blocks_none (srx_seg rx)) (rxo_idle _ _ Hok Hidle) j); congruence.
  - intros z _. rewrite Z.testbit_0_l. symmetry. apply bool_decide_eq_false, not_elem_of_nil.
  - intros j Hj. by apply elem_of_nil in Hj.
  - intros Hj. by apply elem_of_nil in Hj.
Qed.

Lemma new_stores k net_rx slot now rssi t :
  OK t -> listening t -> (k < m_total m)%nat -> rx_of k (tr_net t) net_rx -> (0 < subnets_max)%nat ->
  collecting [] t -> Forall (stale m) (tr_seg_rx t) -> Exists (fun rx => srx_in_use rx = false) (tr_seg_rx t) ->
  wp (trans_seg_new config_proxy config_friend config_cdb proxy_relay adv_buffer model_recv_record hb_recv_ignore
        now net_rx (m_hdr m) (m_mic m) (Z.of_nat k) (Z.of_nat (m_total m) - 1) (m_auth m) slot (chunk false (m_data m) k) rssi)
    (fun r t' => r.1.1.1 = None /\ same_rx net_rx r.1.1.2 /\ advanced k [] t t') t.
Proof.
  intros H Hlis Hk Hrx Hsub [Hfree _] Hst Hex. pose proof (message_total m Hm) as Ht. unfold trans_seg_new. cbv zeta.
  assert (tr_segs_free t <> 0%nat) as Hf by (cbn in Hfree; lia).
  unfold sdu_len_is_ok, CONFIG_BT_MESH_RX_SEG_MAX. rewrite (proj2 (Z.ltb_lt _ _)) by lia. cbn [negb].
  destruct (rxk_match _ _ _ Hrx) as [Hlm Hfm]. rewrite Hfm, andb_false_r. cbn [andb]. apply wp_bind, wp_ret.
  unfold seg_rx_alloc. apply wp_bind, wp_bind, wp_gets. unfold id. rewrite (proj2 (Nat.ltb_ge _ _)) by lia.
  destruct (find_index _ (tr_seg_rx t)) as [i|] eqn:Ei.
  2: { exfalso. apply find_index_None in Ei. apply Exists_exists in Hex as (rx & Hin & E).
       rewrite Forall_forall in Ei. specialize (Ei rx Hin). by rewrite E in Ei. }
  apply find_index_Some in Ei as [(rx & Hi & Hidle) _]. apply negb_true_iff in Hidle.
  pose proof (Forall_lookup_1 _ _ _ _ (tok_rx _ _ _ H) Hi) as Hok. rewrite (tok_subnets _ _ _ H) in Hok.
  destruct (rx_index subnets_max pool t i rx H Hi) as [Hil _].
  rewrite (srt_id i rx t Hi) at 1. apply wp_bind, wp_set_rx, wp_ret, wp_bind, wp_set_rx.
  set (rx0 := seg_rx_start _ _ _ _ rx). set (rx1 := rx0 <| srx_obo := _ |>). set (t1 := srt i rx1 _ t).
  assert (rx_ok subnets_max rx1) as Hok1.
  { assert (rx_ok subnets_max rx0) as Hok0.
    { apply rx_ok_start; try done; [|unfold CONFIG_BT_MESH_RX_SEG_MAX; lia]. split; [|apply Hrx|done].
      destruct (rxk_describes _ _ _ Hrx) as (_ & _ & _ & _ & _ & Hs & _). by rewrite Hs. }
    apply (rx_ok_same _ rx0); [done| |done]. unfold rx1. cbn. by rewrite (rxo_obo _ _ Hok). }
  assert (OK t1) as H1. { apply (srt_ok subnets_max pool i rx); try done. by rewrite (tok_subnets _ _ _ H). }
  eapply wp_mono; [apply (found_stores k net_rx [] slot i rx1 now rssi t1); try done|].
  - by destruct Hlis.
  - cbn. by apply list_lookup_insert_eq.
  - by apply (partial_start k net_rx (tr_net t)).
  - by apply not_elem_of_nil.
  - cbv beta. intros r t' (E1 & E2 & E3). split; [done|]. split; [done|].
    apply (stored_advanced k [] i rx t t1); try done; [|by exists rx1].
    intros j y _ Hy. exact (Forall_lookup_1 _ _ _ _ Hst Hy).
Qed.

(** A segment that is new passes the replay list, which it leaves alone. *)
Lemma rpl_check_new k net_rx (Q : bool * option nat -> TR -> Prop) t :
  listening t -> (k < m_total m)%nat -> rx_of k (tr_net t) net_rx ->
  (forall i, Q (false, Some i) t) -> wp (rpl_check true net_rx) Q t.
Proof.
  intros Hlis Hk Hrx HQ. destruct (rxk_describes _ _ _ Hrx) as (Ha & _ & Hs & _).
  destruct (clear_fields m k Hm Hk) as (_ & _ & _ & _ & Eq & Es & _). rewrite Es in Ha. rewrite Eq in Hs.
  destruct (lis_rpl _ Hlis net_rx Ha ltac:(lia) (rxk_iv _ _ _ Hrx)) as [i Ei].
  unfold rpl_check, on_net. apply wp_zoom. unfold wp, bt_mesh_rpl_check.
  rewrite bool_decide_eq_false_2 by (by rewrite (rxk_if _ _ _ Hrx)).
  rewrite (proj1 (rxk_match _ _ _ Hrx)), Ei. cbn [negb]. eexists _, _. split; [reflexivity|].
  specialize (HQ i). destruct t as [[] ? ? ? ? ? ? ? ? ?]. exact HQ.
Qed.

Lemma segment_fields k :
  (k < m_total m)%nat ->
  byte_at (m_segment m k) 0 = m_hdr m /\ ASZMIC (byte_at (m_segment m k) 1) = m_mic m /\
  seg_fields (m_segment m k) = (Z.land (m_seq m) TRANS_SEQ_ZERO_MASK, Z.of_nat k, Z.of_nat (m_total m) - 1) /\
  drop 4 (m_segment m k) = chunk false (m_data m) k /\ length (m_segment m k) = (4 + length (chunk false (m_data m) k))%nat.
Proof.
  intros Hk. pose proof (message_total m Hm) as Ht. unfold m_segment.
  destruct (seg_bytes_fields (m_hdr m) (Z.land (m_seq m) TRANS_SEQ_ZERO_MASK) (m_long m) (Z.of_nat k) (Z.of_nat (m_total m) - 1)
              (chunk false (m_data m) k)) as [E1 E2]; [|lia|lia|].
  { unfold TRANS_SEQ_ZERO_MASK. change (2 ^ 13 - 1) with (Z.ones 13). rewrite Z.land_ones by lia. by apply Z.mod_pos_bound. }
  by split_and!.
Qed.

Lemma trans_seg_advances k net_rx got now rssi t :
  OK t -> listening t -> (k < m_total m)%nat -> rx_of k (tr_net t) net_rx -> (0 < subnets_max)%nat ->
  collecting got t -> NoDup got -> k ∉ got ->
  wp (trans_seg config_proxy config_friend config_cdb proxy_relay adv_buffer model_recv_record hb_recv_ignore
        now (m_segment m k) net_rx rssi)
    (fun r t' => r.1.1.1.1 = None /\ same_rx net_rx r.1.1.1.2 /\ advanced k got t t') t.
Proof.
  intros H Hlis Hk Hrx Hsub Hw Hnd Hnew. destruct (segment_fields k Hk) as (Eh & Ez & Ef & Ed & El).
  pose proof (message_chunk m k Hm Hk) as [Hc _]. unfold trans_seg. cbv zeta. rewrite (proj2 (Nat.ltb_ge _ _)) by lia.
  apply wp_bind, (rpl_check_new k); [done..|]. intros slot. rewrite Eh, Ez, Ef, Ed. cbv beta iota.
  rewrite (proj2 (Z.ltb_ge _ _)) by lia. apply wp_bind, wp_gets. rewrite (rxk_iv _ _ _ Hrx).
  destruct (rxk_describes _ _ _ Hrx) as (Ha & Hd & Hs & _ & Hctl & _).
  destruct (clear_fields m k Hm Hk) as (_ & _ & Ec & _ & Eq & Es & Ed' & _). rewrite Eq in Hs. rewrite Es in Ha. rewrite Ed' in Hd. rewrite Ec in Hctl.
  pose proof (mok_seq _ Hm). pose proof (message_total m Hm) as Ht.
  rewrite Hs, seq_first_of by lia. change (SEQ_AUTH (m_iv m) (m_seq m)) with (m_auth m).
  apply wp_bind. unfold seg_rx_find. apply wp_bind, wp_gets. rewrite Ha, Hd.
  assert (forall (r : seg_out) t', r.1.1.1 = None /\ same_rx net_rx r.1.1.2 /\ advanced k got t t' ->
    wp (let '(err, net_rx, type, seq_auth) := r in mret (err, net_rx, type, Some seq_auth, Z.of_nat (m_total m) - 1 + 1))
      (fun r t' => r.1.1.1.1 = None /\ same_rx net_rx r.1.1.1.2 /\ advanced k got t t') t') as Hend.
  { intros [[[err rx'] ty] a] t' Hr. by apply wp_ret. }
  destruct Hw as [Hfree [(-> & Hst & Hex)|(i & rx & Hi & Hp & Hst)]].
  - rewrite (find_stale m) by done. apply wp_ret, wp_bind. eapply wp_mono; [|exact Hend].
    apply new_stores; try done. split; [done|]. by left.
  - rewrite (find_partial m got _ 0 i rx) by (try done; intros j y Hj; apply Hst; lia). cbn [Nat.add].
    apply wp_ret, wp_bind. eapply wp_mono; [|exact Hend]. apply wp_bind, (wp_get_rx_at i rx); [done|].
    rewrite (par_auth _ _ _ Hp), Z.ltb_irrefl. unfold seg_rx_is_valid. destruct (par_addr _ _ _ Hp) as [E1 E2].
    rewrite (par_hdr _ _ _ Hp), (par_n _ _ _ Hp), E1, E2, Ha, Hd, (par_ctl _ _ _ Hp), Hctl, !Z.eqb_refl, bool_decide_eq_true_2 by done. cbn [andb negb].
    rewrite (par_use _ _ _ Hp).
    assert (tr_segs_free t <> 0%nat) as Hf by (pose proof (missing_length got k (par_got _ _ _ Hp) Hnd Hk Hnew); lia).
    eapply wp_mono; [by apply (found_stores k net_rx got _ i rx)|]. cbv beta. intros r t' (R1 & R2 & R3). split_and!; [done..|].
    apply (stored_advanced k got i rx t t); try done. exists rx. by apply srt_id.
Qed.

(** *** Packets *)

Definition m_packet (k : nat) : bytes := on_air config_proxy (m_cred m) (m_iv m) false (m_clear m k).

(** The value of a packet in the cache of duplicates. *)
Definition dup_value (data : bytes) : Z :=
  Z.lxor (sys_get_be32 (drop (length data - 4) data)) (sys_get_be32 (drop (length data - 8) data)).

(** The packet of the segment [k] is in neither cache. *)
Definition unheard (n : bt_mesh_net) (k : nat) : Prop :=
  ((m_src m, Z.land (m_seq m + Z.of_nat k) (2 ^ 17 - 1)) ∉ msg_cache n) /\ (dup_value (m_packet k) ∉ dup_cache n).

Lemma check_dup_new n k :
  unheard n k ->
  check_dup (m_packet k) n =
  (false, n <| dup_cache := <[dup_cache_next n := dup_value (m_packet k)]> (dup_cache n) |>
            <| dup_cache_next := (S (dup_cache_next n) mod length (dup_cache n))%nat |>).
Proof.
  intros [_ Hd]. unfold check_dup. cbv zeta. change (Z.lxor _ _) with (dup_value (m_packet k)).
  destruct (existsb _ _) eqn:E; [|done]. exfalso. apply existsb_exists in E as (x & Hx & <-%Z.eqb_eq). by apply Hd, list_elem_of_In.
Qed.

(** The network layer accepts the packet. *)
Definition accepted (k : nat) (n : bt_mesh_net) : bt_mesh_net := remembered (m_packet k) (m_clear m k) BT_MESH_NET_IF_ADV n.

Lemma elem_insert {A : Type} (x y : A) (i : nat) (l : list A) : x ∈ <[i := y]> l -> x = y \/ x ∈ l.
Proof.
  intros (j & Hj)%list_elem_of_lookup_1. destruct (decide (i = j)) as [->|N].
  - apply list_lookup_insert_Some in Hj as [(_ & -> & _)|(N & _)]; [by left|done].
  - rewrite list_lookup_insert_ne in Hj by done. right. by eapply list_elem_of_lookup_2.
Qed.

Lemma unheard_accepted n j k :
  (j < m_total m)%nat -> (k < m_total m)%nat -> j <> k -> dup_value (m_packet j) <> dup_value (m_packet k) ->
  unheard n k -> unheard n j -> unheard (accepted k n) j.
Proof.
  intros Hj Hk Hjk Hv Hk' [Hc Hd]. unfold accepted, remembered. rewrite bool_decide_eq_true_2 by done. rewrite check_dup_new by done.
  destruct (clear_fields m k Hm Hk) as (_ & _ & _ & _ & Eq & Es & _). rewrite Eq, Es. pose proof (message_total m Hm).
  split; cbn.
  - intros [E|?]%elem_insert; [|done]. injection E as _ E. change (2 ^ 17 - 1) with (Z.ones 17) in E. rewrite Z.land_ones in E by lia. divmod.
  - intros [E|?]%elem_insert; done.
Qed.

Lemma trans_recv_advances k net_rx got now rssi buf t :
  OK t -> listening t -> (k < m_total m)%nat -> rx_of k (tr_net t) (net_rx <| rx_friend_match := false |>) -> (0 < subnets_max)%nat ->
  collecting got t -> NoDup got -> k ∉ got -> buf_wf buf -> contents buf = m_clear m k ->
  wp (bt_mesh_trans_recv config_proxy config_friend config_cdb proxy_relay adv_buffer model_recv_record hb_recv_ignore
        now buf net_rx rssi)
    (fun r t' => OK t' /\ r.1.1 = None /\ same_rx (net_rx <| rx_friend_match := false |>) r.2 /\ advanced k got t t') t.
Proof.
  intros H Hlis Hk Hrx Hsub Hw Hnd Hnew W C. pose proof (length_clear m k Hm Hk) as Hl. pose proof (message_chunk m k Hm Hk) as [Hc _].
  rewrite <- C, length_contents in Hl by done. set (rx1 := net_rx <| rx_friend_match := false |>) in *.
  destruct (rxk_describes _ _ _ Hrx) as (_ & _ & _ & _ & Hctl & Hs & _). change (rx_sub rx1) with (rx_sub net_rx) in Hs.
  apply wp_and.
  { eapply wp_mono; [apply (trans_recv_ok _ _ _ _ _ subnets_max pool _ _ record_ok ignore_ok no_friend_ctl_ok)|]; try done.
    - by rewrite Hs.
    - apply Hrx.
    - change (rx_ctl net_rx) with (rx_ctl rx1). rewrite Hctl, (proj1 (proj2 (proj2 (clear_fields m k Hm Hk)))). lia.
    - cbv beta. tauto. }
  unfold bt_mesh_trans_recv. apply wp_bind. apply wp_mono with (Q := fun r t' => r = rx1 /\ t' = t).
  { wp_if; [|by apply wp_ret]. apply wp_bind, wp_net_idx_of.
    - apply (tok_ready subnets_max pool); [done|]. by rewrite (tok_subnets _ _ _ H), Hs.
    - intros x. by apply wp_bind, wp_gets, wp_ret. }
  intros r t' [-> ->]. apply wp_bind. rewrite pull_run by (unfold BT_MESH_NET_HDR_LEN; lia). eapply wp_need; [done|].
  cbv beta iota zeta. set (buf1 := pulled _ buf).
  assert (contents buf1 = m_segment m k) as C1.
  { unfold buf1. rewrite contents_pulled, C; [done|]. unfold BT_MESH_NET_HDR_LEN. lia. }
  destruct (segment_fields k Hk) as (Eh & _). destruct (rxk_match _ _ _ Hrx) as [Hlm _].
  rewrite C1, Eh, (proj1 (mok_hdr _ Hm)), Hlm. cbn [andb negb].
  apply wp_bind. eapply wp_mono; [by apply (trans_seg_advances k rx1 got)|].
  cbv beta. intros [[[[err rx'] ty] a] c] t' (E1 & E2 & E3). cbn [fst snd] in E1, E2. subst err.
  rewrite (proj2 (proj2 E2)). change (rx_friend_match rx1) with false. rewrite andb_false_r. cbn [andb when]. by apply wp_bind, wp_ret, wp_ret.
Qed.

Lemma accepted_net k n :
  unheard n k -> exists dups dnext msgs mnext,
    accepted k n = n <| dup_cache := dups |> <| dup_cache_next := dnext |> <| msg_cache := msgs |> <| msg_cache_next := mnext |>.
Proof.
  intros Hn. unfold accepted, remembered. rewrite bool_decide_eq_true_2 by done. rewrite check_dup_new by done.
  by eexists _, _, _, _.
Qed.

Lemma listening_accepted k t t' :
  listening t -> unheard (tr_net t) k -> tr_net t' = accepted k (tr_net t) -> tr_apps t' = tr_apps t -> listening t'.
Proof.
  intros Hlis Hn E Ea. destruct (accepted_net k _ Hn) as (d & dn & ms & mn & Ek). rewrite Ek in E.
  destruct Hlis as [H1 H2 H3 H4 H5 H6 H7 H8]. unfold holds_key in H8. rewrite <- Ea in H8.
  split; rewrite ?E; try done. unfold holds_key. by rewrite E.
Qed.

(** The packet is for this node. *)
Lemma packet_heard k t :
  (k < m_total m)%nat -> listening t -> unheard (tr_net t) k -> hears (tr_net t) (m_iv m) BT_MESH_NET_IF_ADV (m_clear m k).
Proof.
  intros Hk Hlis [Hn _]. destruct (clear_fields m k Hm Hk) as (_ & Ei & _ & _ & Eq & Es & _).
  apply (hears_sent _ _ _ _ (m_src m) (m_seq m + Z.of_nat k)); try done; [apply Hm|apply Hlis|apply Hm|apply Hlis].
Qed.

Lemma packet_advances k got now rssi t :
  OK t -> listening t -> (k < m_total m)%nat -> (0 < subnets_max)%nat ->
  collecting got t -> NoDup got -> k ∉ got -> unheard (tr_net t) k ->
  wp (net_recv config_proxy config_friend config_cdb proxy_relay adv_buffer model_recv_record hb_recv_ignore
        now (m_packet k) rssi BT_MESH_NET_IF_ADV)
    (fun _ t' => OK t' /\
       ((all_in (k :: got) /\ tr_friend t' = tr_friend t ++ [delivered] /\ dup_cache (tr_net t') = dup_cache (accepted k (tr_net t))) \/
        (~ all_in (k :: got) /\ collecting (k :: got) t' /\ listening t' /\ tr_friend t' = tr_friend t /\
         tr_net t' = accepted k (tr_net t)))) t.
Proof.
  intros H Hlis Hk Hsub Hw Hnd Hnew Hn. unfold net_recv, bt_mesh_net_recv. apply wp_bind, wp_gets. rewrite (lis_valid _ Hlis). cbn [negb].
  pose proof (length_clear m k Hm Hk) as Hl. pose proof (message_chunk m k Hm Hk) as [Hc _].
  destruct (clear_fields m k Hm Hk) as (En & _ & Ec & _ & Eq & Es & Ed & Emic).
  destruct (net_decode_ok config_proxy config_friend (tr_net t) (m_cred m) (m_iv m) (m_clear m k) BT_MESH_NET_IF_ADV (rx_init rssi) recv_buf)
    as (rx & buf & E & C & W & Hd & Hr).
  { lia. } { rewrite Emic. change (buf_size recv_buf) with 29%nat. lia. } { lia. } { done. } { by apply packet_heard. }
  { rewrite Ed. destruct (mok_dst _ Hm) as [Hu _]. apply unicast_iff in Hu. tauto. } { apply Hlis. }
  { intros _. change (on_air _ _ _ _ _) with (m_packet k). by rewrite check_dup_new. }
  change (on_air _ _ _ _ _) with (m_packet k) in E. change (remembered _ _ _ _) with (accepted k (tr_net t)) in E.
  apply wp_bind, wp_zoom. eapply wp_some; [exact E|]. cbv beta iota zeta. set (t1 := t <| tr_net := _ |>).
  destruct (accepted_net k _ Hn) as (d & dn & ms & mn & Ek).
  assert (net_frame (tr_net t) (accepted k (tr_net t))) as Hf by (by rewrite Ek).
  assert (OK t1) as H1 by exact (net_frame_ok subnets_max pool t _ (tr_log t) H Hf).
  assert (listening t1) as Hlis1 by (by apply (listening_accepted k t)).
  destruct Hd as (Ha & Hdst & Hd). rewrite Ed in Hdst. apply wp_bind, wp_gets. rewrite Hdst.
  assert (local_address config_proxy config_friend (m_dst m) (tr_net t1) = Some true) as El.
  { unfold local_address. destruct (bt_mesh_fixed_group_match _ _ _ _); [done|]. destruct (lis_dst _ Hlis1) as [e He]. by rewrite He. }
  rewrite El. apply wp_bind. eapply wp_need; [done|]. rewrite andb_false_r. cbn [andb when]. apply wp_bind, wp_ret, wp_bind, wp_gets.
  set (rx1 := rx <| rx_local_match := true |>).
  assert (rx_of k (tr_net t1) (rx1 <| rx_friend_match := false |>)) as Hrx1.
  { destruct Hr as (R1 & R2 & R3). split; try done.
    - split_and!; try done; [by rewrite Ed|apply Hd..].
    - cbn. rewrite R1. destruct (packet_heard k t Hk Hlis Hn) as [Hiv _]. by rewrite Ek.
    - cbn. rewrite R3. unfold BT_MESH_TTL_DEFAULT. case_if; lia. }
  apply wp_bind. eapply wp_mono; [apply (trans_recv_advances k rx1 got now rssi buf t1); try done|].
  cbv beta. intros [[err buf'] rx'] t2 (H2 & E1 & (E2 & E3 & E4) & Hadv). cbn [fst snd] in E1, E2, E3, E4. subst err.
  rewrite bool_decide_eq_false_2 by done. cbn [when]. apply wp_bind, wp_ret. rewrite E2, E3. cbn. rewrite Hdst, (proj1 (mok_dst _ Hm)). cbn [negb orb andb when].
  apply wp_ret. split; [done|]. destruct Hadv as [Hadv|(A1 & A2 & A3 & A4 & A5)]; [by left|right].
  split_and!; try done. by apply (listening_accepted k t).
Qed.

(** *** All packets, in any order *)

(** The packets that arrive, each with its time and signal strength. *)
Fixpoint receive (l : list (Z * bytes * Z)) : ST TR unit :=
  match l with
  | [] => mret tt
  | (now, data, rssi) :: l =>
      _ ← net_recv config_proxy config_friend config_cdb proxy_relay adv_buffer model_recv_record hb_recv_ignore
            now data rssi BT_MESH_NET_IF_ADV;
      receive l
  end.

(** The cache of duplicates has the last packets: [got], the latest first. *)
Definition remembers (got : list nat) (n : bt_mesh_net) : Prop :=
  let len := length (dup_cache n) in
  (dup_cache_next n < len)%nat /\
  forall j k, got !! j = Some k -> dup_cache n !! ((dup_cache_next n + len - 1 - j) mod len)%nat = Some (dup_value (m_packet k)).

Lemma remembers_in got n k : remembers got n -> k ∈ got -> dup_value (m_packet k) ∈ dup_cache n.
Proof. intros [_ H] (j & Hj)%list_elem_of_lookup_1. by eapply list_elem_of_lookup_2, H. Qed.

Lemma remembers_accepted got n k :
  remembers got n -> (length got < length (dup_cache n))%nat -> unheard n k ->
  remembers (k :: got) (accepted k n) /\ length (dup_cache (accepted k n)) = length (dup_cache n).
Proof.
  intros [Hn Hr] Hl Hu. unfold accepted, remembered. rewrite bool_decide_eq_true_2 by done. rewrite check_dup_new by done.
  unfold remembers. cbn [snd dup_cache dup_cache_next assign]. cbn. rewrite length_insert. split; [|done].
  set (len := length (dup_cache n)) in *. set (p := dup_cache_next n) in *.
  split; [by apply Nat.mod_upper_bound; lia|]. intros [|j] x Hx.
  - injection Hx as <-. replace ((S p mod len + len - 1 - 0) mod len)%nat with p; [by apply list_lookup_insert_eq|].
    destruct (decide (S p = len)) as [E|E].
    + rewrite E, Nat.Div0.mod_same. cbn. rewrite Nat.mod_small; lia.
    + rewrite (Nat.mod_small (S p)) by lia. replace (S p + len - 1 - 0)%nat with (p + 1 * len)%nat by lia.
      rewrite Nat.Div0.mod_add, Nat.mod_small; lia.
  - pose proof (lookup_lt_Some _ _ _ Hx) as Hj. cbn in Hj.
    assert ((S p mod len + len - 1 - S j) mod len = (p + len - 1 - j) mod len)%nat as ->.
    { destruct (decide (S p = len)) as [E|E].
      - rewrite E, Nat.Div0.mod_same. replace (p + len - 1 - j)%nat with ((0 + len - 1 - S j) + 1 * len)%nat by lia. by rewrite Nat.Div0.mod_add.
      - rewrite (Nat.mod_small (S p)) by lia. f_equal. lia. }
    rewrite list_lookup_insert_ne; [by apply Hr|].
    destruct (decide (p + len - 1 - j < len)%nat).
    + rewrite Nat.mod_small by lia. lia.
    + replace (p + len - 1 - j)%nat with ((p - 1 - j) + 1 * len)%nat by lia. rewrite Nat.Div0.mod_add, Nat.mod_small; lia.
Qed.

(** A packet heard before is dropped. *)
Lemma packet_dropped k now rssi t :
  (k < m_total m)%nat -> dup_value (m_packet k) ∈ dup_cache (tr_net t) ->
  net_recv config_proxy config_friend config_cdb proxy_relay adv_buffer model_recv_record hb_recv_ignore
    now (m_packet k) rssi BT_MESH_NET_IF_ADV t = Some (tt, t).
Proof.
  intros Hk Hd. unfold net_recv, bt_mesh_net_recv. rewrite bind_gets. destruct (net_valid (tr_net t)); [|done]. cbn [negb].
  erewrite bind_some; [|apply zoom_some; unfold bt_mesh_net_decode].
  2: { pose proof (length_clear m k Hm Hk) as Hl. pose proof (message_chunk m k Hm Hk) as [Hc _].
       destruct (clear_fields m k Hm Hk) as (_ & _ & _ & _ & _ & _ & _ & Emic).
       rewrite (proj2 (Nat.ltb_ge _ _)).
       2: { unfold m_packet. rewrite length_on_air by lia. change BT_MESH_NET_MIN_PDU_LEN with 18%nat. lia. }
       rewrite (bool_decide_eq_true_2 (BT_MESH_NET_IF_ADV = BT_MESH_NET_IF_ADV)) by done. erewrite bind_some.
       2: { unfold step, check_dup. cbv zeta. change (Z.lxor _ _) with (dup_value (m_packet k)).
            rewrite (proj2 (existsb_exists _ _)); [reflexivity|]. exists (dup_value (m_packet k)). rewrite Z.eqb_refl.
            split; [by apply list_elem_of_In|done]. }
       reflexivity. }
  cbv beta iota. f_equal. f_equal. by destruct t.
Qed.

Lemma receive_dropped ks arrivals t :
  (fun a => a.1.2) <$> arrivals = m_packet <$> ks -> (forall k, k ∈ ks -> (k < m_total m)%nat) ->
  (forall k, (k < m_total m)%nat -> dup_value (m_packet k) ∈ dup_cache (tr_net t)) -> receive arrivals t = Some (tt, t).
Proof.
  revert arrivals. induction ks as [|k ks IH]; intros [|[[now data] rssi] arrivals] Ha Hks Hd; try done.
  cbn in Ha. injection Ha as -> Ha. cbn [receive].
  assert (k < m_total m)%nat as Hk by (apply Hks; by left).
  rewrite (bind_some _ _ _ _ _ (packet_dropped k now rssi t Hk (Hd k Hk))). apply IH; [done| |done]. intros j Hj. apply Hks. by right.
Qed.

(** The packets arrive in any order, any of them any number of times. *)
Lemma receive_rest ks arrivals got t :
  (fun a => a.1.2) <$> arrivals = m_packet <$> ks -> (forall k, k ∈ ks -> (k < m_total m)%nat) ->
  (forall k, (k < m_total m)%nat -> k ∈ got \/ k ∈ ks) -> ~ all_in got -> NoDup got -> (forall k, k ∈ got -> (k < m_total m)%nat) ->
  OK t -> listening t -> (0 < subnets_max)%nat -> collecting got t ->
  (forall k, (k < m_total m)%nat -> k ∉ got -> unheard (tr_net t) k) ->
  (forall j k, (j < m_total m)%nat -> (k < m_total m)%nat -> j <> k -> dup_value (m_packet j) <> dup_value (m_packet k)) ->
  remembers got (tr_net t) -> (m_total m <= length (dup_cache (tr_net t)))%nat ->
  wp (receive arrivals) (fun _ t' => OK t' /\ tr_friend t' = tr_friend t ++ [delivered]) t.
Proof.
  revert arrivals got t. induction ks as [|k ks IH];
    intros arrivals got t Ha Hks Hcov Hpart Hnd Hin H Hlis Hsub Hw Hun Hdup Hrem Hlen.
  { exfalso. apply Hpart. intros k Hk. destruct (Hcov k Hk) as [|Hk']; [done|by apply elem_of_nil in Hk']. }
  destruct arrivals as [|[[now data] rssi] arrivals]; [done|]. cbn in Ha. injection Ha as -> Ha. cbn [receive].
  assert (k < m_total m)%nat as Hk by (apply Hks; by left).
  assert (forall j, j ∈ ks -> (j < m_total m)%nat) as Hks' by (intros j Hj; apply Hks; by right).
  assert (forall j, (j < m_total m)%nat -> j ∈ k :: got \/ j ∈ ks) as Hcov'.
  { intros j Hj. destruct (Hcov j Hj) as [|[->|]%elem_of_cons]; [left; by right|left; by left|by right]. }
  destruct (decide (k ∈ got)) as [Hold|Hnew].
  { apply wp_bind. eapply wp_some; [apply packet_dropped; [done|by apply (remembers_in got)]|].
    apply (IH arrivals got); try done. intros j Hj. destruct (Hcov' j Hj) as [[->|]%elem_of_cons|]; auto. }
  pose proof (missing_length got k Hin Hnd Hk Hnew) as Hlg.
  destruct (remembers_accepted got (tr_net t) k Hrem ltac:(lia) (Hun k Hk Hnew)) as [Hrem' Hlen'].
  apply wp_bind. eapply wp_mono; [apply (packet_advances k got now rssi t); try done; by apply Hun|].
  cbv beta. intros [] t1 [H1 [(Hall & E & Ed)|(Hall & Hw1 & Hlis1 & E & En)]].
  - eapply wp_some; [apply (receive_dropped ks); [done..|]|done]. intros j Hj. rewrite Ed. by apply (remembers_in (k :: got)); [|apply Hall].
  - rewrite <- E. apply (IH arrivals (k :: got)); try done; rewrite ?En; try done; [by constructor|..].
    + intros j [->|Hj]%elem_of_cons; [done|by apply Hin].
    + intros j Hj [Hjk Hjg]%not_elem_of_cons. apply unheard_accepted; try done; [by apply Hdup|by apply Hun..].
    + by rewrite Hlen'.
Qed.
End Receiver.
