(* ===== verification/Delivery.v ===== *)
(** * From the sender to the receiver

    A segmented access message from [bt_mesh_trans_send] on one node to the access layer
    of another: the packets the sender puts on the air, and their reception in any
    order. *)

From S2P Require Import Prelude ByteOrder MeshDefs Cdb NetBuf Access Rpl Ccm MeshCrypto Subnet AppKeys Net NetProps NetRecv Transport TransportProps TransportSafe TransportRecv TransportOps Retransmit Segments Reassembly.

(** ** The sender *)

(** The packets given to the advertising bearer. *)
Definition adv_packet (e : net_event) : option bytes := match e with EvAdvSend _ pdu _ => Some pdu | _ => None end.
Definition sent_packets (n : bt_mesh_net) : list bytes := omap adv_packet (net_log n).

(** [k] more sequence numbers start no IV update. *)
Definition quiet_for (k : nat) (n : bt_mesh_net) : Prop :=
  0 <= net_seq n /\ net_seq n + Z.of_nat k <= 2 ^ 24 /\
  (ivu_in_progress n = true \/ net_seq n + Z.of_nat k <= IV_UPDATE_SEQ_LIMIT).

(** The network after sending [pkts]. *)
Definition has_sent (n : bt_mesh_net) (pkts : list bytes) (n' : bt_mesh_net) : Prop :=
  net_frame n n' /\ sent_packets n' = sent_packets n ++ pkts /\ net_seq n' = net_seq n + Z.of_nat (length pkts) /\
  iv_index n' = iv_index n /\ ivu_in_progress n' = ivu_in_progress n.

Lemma has_sent_refl n : has_sent n [] n.
Proof. split_and!; try done; [by rewrite app_nil_r|cbn; lia]. Qed.

Lemma has_sent_trans n1 n2 n3 l1 l2 : has_sent n1 l1 n2 -> has_sent n2 l2 n3 -> has_sent n1 (l1 ++ l2) n3.
Proof.
  intros (F1 & P1 & S1 & I1 & U1) (F2 & P2 & S2 & I2 & U2). split_and!; [by eapply net_frame_trans| | |congruence..].
  - by rewrite P2, P1, app_assoc.
  - rewrite length_app. lia.
Qed.

Lemma quiet_for_le j k n : (j <= k)%nat -> quiet_for k n -> quiet_for j n.
Proof. intros Hj (H1 & H2 & H3). split_and!; [lia..|]. destruct H3; [by left|right; lia]. Qed.

Lemma quiet_for_step k n pkt n' : quiet_for (S k) n -> has_sent n [pkt] n' -> quiet_for k n'.
Proof. intros (H1 & H2 & H3) (_ & _ & S1 & _ & U1). cbn in S1. split_and!; [lia..|]. rewrite U1. destruct H3; [by left|right; lia]. Qed.

Section Sender.
Context {ecb : Ecb} {ecb_ok : EcbOk} {cmac : Cmac} (config_proxy config_friend config_cdb : bool).
Context (proxy_relay : bytes -> Z -> bt_mesh_net -> bool) (adv_buffer : bt_mesh_net -> bool).
Context {F : Type} {friend : FriendOps F} {idle : FriendIdle friend}.

(** Advertising buffers are free, and no proxy client takes the packets. *)
Hypothesis buffers_free : forall n, adv_buffer n = true.
Hypothesis no_proxy_client : forall pdu dst n, proxy_relay pdu dst n = false.

(** One packet goes out, encrypted with the network key. *)
Lemma wp_net_send_packet net_tx sub xmit buf cb (Q : ret_code * bool -> trans F -> Prop) t :
  sendable net_tx sub buf (tr_net t) -> local_address config_proxy config_friend (ctx_addr (tx_ctx net_tx)) (tr_net t) = Some false ->
  ctx_send_ttl (tx_ctx net_tx) <> 1 -> quiet_for 1 (tr_net t) ->
  (let iv := BT_MESH_NET_IVI_TX (tr_net t) in
   forall n', has_sent (tr_net t) [on_air config_proxy (tx_msg_cred sub) iv false
                                     (clear_pdu net_tx sub iv (net_seq (tr_net t)) (contents buf))] n' ->
     Q (None, false) (t <| tr_net := n' |>)) ->
  wp (net_send config_proxy config_friend config_cdb proxy_relay net_tx xmit buf cb) Q t.
Proof.
  intros Hs Hl Ht (Hq1 & Hq2 & Hq3) HQ. unfold net_send. apply wp_bind, wp_gets, wp_zoom. set (busy := bt_mesh_tx_in_progress t).
  eapply wp_some; [apply (net_send_transmits config_proxy config_friend config_cdb proxy_relay busy net_tx sub); try done|].
  pose proof (next_seq_frame config_proxy config_friend config_cdb busy (tr_net t)) as F1.
  assert (net_quiet (tr_net t)) as Hq by (destruct Hq3; [by left|right; lia]).
  rewrite (next_seq_quiet _ _ _ busy (tr_net t) Hq ltac:(lia)) in *. cbn [snd] in *.
  apply HQ. split_and!; try done. unfold sent_packets. cbn. rewrite !omap_app. cbn. rewrite app_nil_r.
  by destruct config_proxy.
Qed.

(** A context with all the segments of a message. *)
Record sending (m : message) (tx : seg_tx) : Prop := {
  sdg_shape : tx_shape tx;
  sdg_seg : stx_seg tx = filled false (m_data m) (m_total m);
  sdg_hdr : stx_hdr tx = m_hdr m;
  sdg_auth : stx_seq_auth tx = m_auth m;
  sdg_long : stx_aszmic tx = m_long m;
  sdg_n : stx_seg_n tx = Z.of_nat (m_total m) - 1;
  sdg_ctl : stx_ctl tx = false;
}.

(** The network context the segments are sent with. *)
Record carries (m : message) (sub : bt_mesh_subnet) (net_tx : bt_mesh_net_tx) : Prop := {
  car_cred : tx_msg_cred sub = m_cred m;
  car_src : tx_src net_tx = m_src m;
  car_dst : ctx_addr (tx_ctx net_tx) = m_dst m;
  car_ttl : ctx_send_ttl (tx_ctx net_tx) = m_ttl m;
  car_ctl : is_ctl (tx_ctx net_tx) = false;
}.

Lemma seq_auth_zero iv seq : Z.land (SEQ_AUTH iv seq) TRANS_SEQ_ZERO_MASK = Z.land seq TRANS_SEQ_ZERO_MASK.
Proof.
  unfold SEQ_AUTH, TRANS_SEQ_ZERO_MASK. change (2 ^ 13 - 1) with (Z.ones 13). apply Z.bits_inj'. intros b Hb.
  rewrite !Z.land_spec, Z.lor_spec, Z.shiftl_spec by done. destruct (decide (b < 13)).
  - by rewrite (Z.testbit_neg_r iv) by lia.
  - rewrite Z.ones_spec_high by lia. by rewrite !andb_false_r.
Qed.

Lemma seg_pdu_message m tx k :
  sending m tx -> seg_pdu tx (Z.of_nat k) (chunk false (m_data m) k) = m_segment m k.
Proof.
  intros [_ _ Hh Ha Hl Hn _]. unfold seg_pdu, m_segment, seg_bytes. rewrite Hh, Ha, Hl, Hn. unfold m_auth. by rewrite seq_auth_zero.
Qed.

Lemma clear_pdu_message m sub net_tx k :
  carries m sub net_tx ->
  clear_pdu net_tx sub (m_iv m) (m_seq m + Z.of_nat k) (m_segment m k) = m_clear m k.
Proof. intros [Hc Hs Hd Ht Hx]. unfold clear_pdu, m_clear. by rewrite Hc, Hs, Hd, Ht, Hx. Qed.

(** The segments from [o] on are sent, one packet each. *)
Lemma wp_unacked_sends m sub net_tx i c o tx free n lg (Q : bool -> trans F -> Prop) t :
  message_ok m -> (i < length (tr_seg_tx t))%nat -> sending m tx -> carries m sub net_tx ->
  stx_seg_o tx = Z.of_nat o -> (o + c = m_total m)%nat -> 
  subs (net_subnets n) !! tx_sub net_tx = Some sub -> comp_elem (net_comp n) <> [] ->
  remote config_proxy config_friend (m_dst m) n -> m_ttl m <> 1 -> quiet_for c n ->
  BT_MESH_NET_IVI_TX n = m_iv m -> net_seq n = m_seq m + Z.of_nat o ->
  (forall tx' n', has_sent n (m_packet config_proxy m <$> seq o c) n' -> Q true (st i tx' free n' lg t)) ->
  wp (send_unacked_loop config_proxy config_friend config_cdb proxy_relay adv_buffer net_tx i c) Q (st i tx free n lg t).
Proof.
  intros Hm Hi. revert o tx n. induction c as [|c IH]; intros o tx n Hs Hc Ho Hoc Hsub Hcomp Hrem Ht1 Hq Hiv Hseq HQ; cbn [send_unacked_loop].
  { apply wp_ret. apply HQ, has_sent_refl. }
  pose proof (message_total m Hm) as Ht. pose proof (message_chunk m o Hm ltac:(lia)) as [Hl _].
  apply wp_bind, wp_get_tx; [done|]. cbv zeta. rewrite Ho, Nat2Z.id, (sdg_seg _ _ Hs), filled_lookup, decide_True by lia.
  apply wp_bind. eapply wp_need; [done|]. cbv iota. apply wp_bind. unfold adv_create. apply wp_bind, wp_gets. rewrite buffers_free. apply wp_ret. fold adv_empty.
  destruct adv_empty_abs as [We Ae].
  destruct (buf_build_ok tx (Z.of_nat o) (chunk false (m_data m) o) adv_empty 9 [] 20) as (buf & Eb & Wb & Ab); try done; [apply Hs|lia| |lia|].
  { rewrite Nat2Z.id, (sdg_seg _ _ Hs), filled_lookup, decide_True by lia. done. }
  apply wp_bind. eapply wp_need_run; [done|]. cbv beta iota. apply wp_bind, wp_set_tx, wp_bind.
  pose proof (abs_len buf _ _ _ Wb Ab) as Lb. injection Ab as Hh Hcont Htail. rewrite (seg_pdu_message m) in Lb, Hcont by done.
  cbn [app] in Lb, Hcont.
  assert (length (m_segment m o) = 4 + length (chunk false (m_data m) o))%nat as Lm by done.
  apply (wp_net_send_packet net_tx sub).
  { split; try done; [rewrite (car_cred _ _ _ Hc)|rewrite (car_ttl _ _ _ Hc)|rewrite Hh|rewrite Htail|rewrite Lb]; rewrite ?(car_ctl _ _ _ Hc); try apply Hm; lia. }
  { by rewrite (car_dst _ _ _ Hc). } { by rewrite (car_ttl _ _ _ Hc). }
  { apply (quiet_for_le 1 (S c)); [lia|done]. }
  cbv zeta. change (tr_net (st _ _ _ n _ _)) with n. rewrite Hiv, Hseq, Hcont, (clear_pdu_message m), (car_cred _ _ _ Hc) by done.
  change (on_air _ _ _ _ _) with (m_packet config_proxy m o). intros n1 Hn1. cbn [when]. apply wp_bind, wp_ret.
  change (st ?i ?x ?f _ ?l ?u <| tr_net := n1 |>) with (st i x f n1 l u). apply wp_bind, wp_set_tx.
  set (tx1 := tx <| stx_seg_pending := _ |> <| stx_seg_o := _ |>).
  assert (stx_seg_o tx1 = Z.of_nat (S o)) as Ho1.
  { change (stx_seg_o tx1) with (u8 (stx_seg_o tx + 1)). rewrite Ho, u8_id by (unfold is_u8; lia). lia. }
  pose proof (quiet_for_step c n _ n1 Hq Hn1) as Hq1. destruct Hn1 as (F1 & P1 & S1 & I1 & U1). pose proof F1 as (Fs & Fc & _).
  apply (IH (S o) tx1 n1); try done.
  - destruct Hs as [[? ? ? ?] ? ? ? ? ? ?]. by split.
  - lia.
  - by rewrite Fs.
  - by rewrite Fc.
  - by apply (remote_frame _ _ _ n).
  - unfold BT_MESH_NET_IVI_TX. by rewrite I1, U1.
  - rewrite S1, Hseq. cbn. lia.
  - intros tx' n' Hn'. apply HQ. apply (has_sent_trans n n1 n' [m_packet config_proxy m o] _); [by split_and!|done].
Qed.

(** *** The message *)

(** A message of the application that goes out in segments: [tx1] is [tx] with its TTL,
    and [j], [sub], [key], [aid] are what its key index stands for. *)
Record ready_to_send (subnets_max pool : nat) (tx tx1 : bt_mesh_net_tx) (msg : net_buf_simple) (j : nat) (sub : bt_mesh_subnet)
    (key : bytes) (aid : Z) (t : trans F) : Prop := {
  rts_ok : trans_ok subnets_max pool t;
  rts_wf : buf_wf msg;
  rts_len : (1 <= buf_len msg)%nat /\ (buf_len msg + mic_size tx msg <= BT_MESH_RX_SDU_MAX)%nat;
  rts_room : (4 <= net_buf_simple_tailroom msg)%nat;
  rts_ttl : 0 <= ctx_send_ttl (tx_ctx tx) /\ resolve_ttl (tr_default_ttl t) tx = Some tx1 /\ ctx_send_ttl (tx_ctx tx1) <> 1;
  rts_src : BT_MESH_ADDR_IS_UNICAST (tx_src tx1) = true /\ 0 <= tx_src tx1;
  rts_dst : BT_MESH_ADDR_IS_UNICAST (ctx_addr (tx_ctx tx1)) = true /\ 0 <= ctx_addr (tx_ctx tx1);
  rts_remote : remote config_proxy config_friend (ctx_addr (tx_ctx tx1)) (tr_net t);
  rts_app : BT_MESH_IS_DEV_KEY (ctx_app_idx (tx_ctx tx)) = false;
  rts_key : resolve_keys config_cdb t (send_rel_tx msg tx1) = Some (inr (j, key, aid));
  rts_sub : subs (net_subnets (tr_net t)) !! j = Some sub;
  rts_rel : sends_rel tx msg = true;
  rts_unblocked : is_blocked (send_rel_tx msg tx1) t = false;
  rts_context : Exists (fun tx => stx_nack_count tx = 0) (tr_seg_tx t);
  rts_free : (3 <= tr_segs_free t)%nat;
  rts_quiet : quiet_for 3 (tr_net t);
  rts_iv : 0 <= BT_MESH_NET_IVI_TX (tr_net t) < 2 ^ 32 - 1;
}.

Definition outgoing_message (tx1 : bt_mesh_net_tx) (msg : net_buf_simple) (j : nat) (sub : bt_mesh_subnet) (key : bytes) (aid : Z)
    (t : trans F) : message :=
  let tx3 := send_key_tx t msg j aid (send_rel_tx msg tx1) in
  mkMessage (tx_msg_cred sub) (BT_MESH_NET_IVI_TX (tr_net t)) (ctx_send_ttl (tx_ctx tx1)) (tx_src tx1) (ctx_addr (tx_ctx tx1))
    (net_seq (tr_net t)) (seg_hdr None tx3) (tx_aszmic tx3) (app_sealed key (send_crypto t tx3) (contents msg)).

Lemma seg_hdr_bits a : SEG (SEG_HDR true (Z.land a AID_MASK)) = true /\ AKF (SEG_HDR true (Z.land a AID_MASK)) = true /\
  AID (SEG_HDR true (Z.land a AID_MASK)) = Z.land a AID_MASK.
Proof.
  assert (0 <= Z.land a AID_MASK < 64) as Hr by (unfold AID_MASK; change 63 with (Z.ones 6); rewrite Z.land_ones by lia; by apply Z.mod_pos_bound).
  revert Hr. generalize (Z.land a AID_MASK). intros x Hx.
  pose proof (below_128 (fun x => (64 <=? x) || SEG (SEG_HDR true x) && AKF (SEG_HDR true x) && (AID (SEG_HDR true x) =? x)) eq_refl x ltac:(lia)) as H.
  cbv beta in H. rewrite (proj2 (Z.leb_gt 64 x)) in H by lia. cbn [orb] in H.
  zbool. done.
Qed.

Section Message.
Context (subnets_max pool : nat) (tx tx1 : bt_mesh_net_tx) (msg : net_buf_simple) (j : nat) (sub : bt_mesh_subnet)
  (key : bytes) (aid : Z) (t : trans F).
Hypothesis H : ready_to_send subnets_max pool tx tx1 msg j sub key aid t.

Abbreviation tx2 := (send_rel_tx msg tx1).
Abbreviation tx3 := (send_key_tx t msg j aid tx2).
Abbreviation m := (outgoing_message tx1 msg j sub key aid t).

(** What making the message segmented leaves alone. *)
Lemma send_rel_same :
  ctx_addr (tx_ctx tx2) = ctx_addr (tx_ctx tx1) /\ tx_src tx2 = tx_src tx1 /\ ctx_send_ttl (tx_ctx tx2) = ctx_send_ttl (tx_ctx tx1) /\
  ctx_app_idx (tx_ctx tx2) = ctx_app_idx (tx_ctx tx).
Proof.
  destruct (rts_ttl _ _ _ _ _ _ _ _ _ _ H) as (Ht & Hr & _).
  destruct (resolve_ttl_some _ _ _ (tok_ttl _ _ _ (rts_ok _ _ _ _ _ _ _ _ _ _ H)) Ht Hr) as (_ & E & _).
  rewrite <- E. unfold send_rel_tx. by destruct (_ <? _)%nat.
Qed.

Lemma ready_segmented : ctx_send_rel (tx_ctx tx2) = true.
Proof.
  destruct (rts_ttl _ _ _ _ _ _ _ _ _ _ H) as (Ht & Hr & _).
  destruct (resolve_ttl_some _ _ _ (tok_ttl _ _ _ (rts_ok _ _ _ _ _ _ _ _ _ _ H)) Ht Hr) as (_ & _ & E).
  rewrite <- (rts_rel _ _ _ _ _ _ _ _ _ _ H). unfold send_rel_tx, sends_rel. destruct (_ <? _)%nat; cbn; by rewrite ?E, ?orb_true_r, ?orb_false_r.
Qed.

Lemma message_hdr : m_hdr m = SEG_HDR true (Z.land aid AID_MASK).
Proof.
  cbn. destruct send_rel_same as (_ & _ & _ & E). change (ctx_app_idx (tx_ctx tx3)) with (ctx_app_idx (tx_ctx tx2)).
  by rewrite E, (rts_app _ _ _ _ _ _ _ _ _ _ H).
Qed.

Lemma message_crypto : send_crypto t tx3 = m_crypto m.
Proof.
  destruct send_rel_same as (Ea & Es & _ & Ei). unfold send_crypto, m_crypto, m_mic. cbn [m_long m_src m_dst m_seq m_iv outgoing_message].
  change (tx_ctx tx3) with (tx_ctx tx2). change (tx_src tx3) with (tx_src tx2).
  rewrite Ea, Es, Ei, (rts_app _ _ _ _ _ _ _ _ _ _ H). destruct (rts_dst _ _ _ _ _ _ _ _ _ _ H) as [Hu _].
  apply unicast_iff in Hu. unfold BT_MESH_ADDR_IS_VIRTUAL. by rewrite (proj2 (Z.leb_gt 32768 _)) by lia.
Qed.

Lemma message_length : length (m_data m) = (buf_len msg + mic_size tx msg)%nat.
Proof.
  destruct (rts_ttl _ _ _ _ _ _ _ _ _ _ H) as (Ht & Hr & _).
  destruct (resolve_ttl_some _ _ _ (tok_ttl _ _ _ (rts_ok _ _ _ _ _ _ _ _ _ _ H)) Ht Hr) as (_ & _ & E).
  exact (sealed_length t tx1 tx msg j aid key (rts_wf _ _ _ _ _ _ _ _ _ _ H) E).
Qed.

Lemma message_mic : APP_MIC_LEN (m_mic m) = mic_size tx msg.
Proof.
  unfold m_mic, mic_size. cbn [m_long outgoing_message]. change (tx_aszmic tx3) with (ctx_send_rel (tx_ctx tx2) && (8 <=? net_buf_simple_tailroom msg)%nat).
  rewrite ready_segmented, (rts_rel _ _ _ _ _ _ _ _ _ _ H). cbn [andb]. by destruct (8 <=? _)%nat.
Qed.

Lemma ready_message : message_ok m.
Proof.
  pose proof message_length as Hl. pose proof message_mic as Hmic. destruct (rts_len _ _ _ _ _ _ _ _ _ _ H) as [H1 H2].
  destruct (rts_ttl _ _ _ _ _ _ _ _ _ _ H) as (Ht & Hr & _).
  assert (m_total m <= 3)%nat as H3.
  { destruct (Nat.le_gt_cases (m_total m) 3) as [|Hgt]; [done|]. apply seg_total_bound in Hgt; [|lia].
    change BT_MESH_RX_SDU_MAX with 36%nat in H2. change (seg_len false) with 12%nat in Hgt. lia. }
  destruct (rts_quiet _ _ _ _ _ _ _ _ _ _ H) as (Q1 & Q2 & _).
  split; try apply H.
  - pose proof (tok_nids _ _ _ (rts_ok _ _ _ _ _ _ _ _ _ _ H)) as Hn.
    exact (Forall_lookup_1 _ _ _ _ Hn (rts_sub _ _ _ _ _ _ _ _ _ _ H)).
  - apply (resolve_ttl_some _ _ _ (tok_ttl _ _ _ (rts_ok _ _ _ _ _ _ _ _ _ _ H)) Ht Hr).
  - change (m_seq m) with (net_seq (tr_net t)). lia.
  - rewrite message_hdr. split; apply seg_hdr_bits.
  - rewrite Hl, Hmic. lia.
Qed.

(** The context of the message. *)
Lemma full_sending tx0 cb :
  tx_ok (subnet_count t) tx0 -> stx_nack_count tx0 = 0 -> (j < subnet_count t)%nat ->
  let txf := full_tx tx3 (m_data m) cb None false (tr_net t) tx0 in
  tx_ok (subnet_count t) txf /\ blocks (stx_seg txf) = m_total m /\ sending m txf.
Proof.
  intros Hok Hn Hj txf. pose proof ready_message as Hm. pose proof (message_total m Hm) as Ht. pose proof (mok_data _ Hm) as Hd.
  change BT_MESH_RX_SDU_MAX with 36%nat in Hd. destruct send_rel_same as (Ea & Es & Et & _).
  destruct (full_ok (subnet_count t) tx3 (m_data m) cb None false (tr_net t) tx0) as (Hfull & Hb); try done.
  { lia. } { change (m_total m <= 6)%nat. lia. } { cbn. rewrite Et. apply (mok_ttl _ Hm). }
  split; [exact Hfull|]. split; [exact Hb|]. split; try done; [apply Hfull|].
  pose proof (seg_start_n false (length (m_data m)) ltac:(lia)) as En. fold (m_total m) in En. rewrite <- En. cbn. lia.
Qed.

(** [bt_mesh_trans_send] puts exactly the packets of the message on the air. *)
Lemma message_sent cb :
  wp (bt_mesh_trans_send config_proxy config_friend config_cdb proxy_relay adv_buffer tx msg cb)
    (fun r t' => r = None /\ has_sent (tr_net t) (m_packet config_proxy m <$> seq 0 (m_total m)) (tr_net t')) t.
Proof.
  pose proof ready_message as Hm. pose proof (message_total m Hm) as Htot. destruct (rts_len _ _ _ _ _ _ _ _ _ _ H) as [H1 H2].
  destruct (rts_ttl _ _ _ _ _ _ _ _ _ _ H) as (Ht & Hr & Ht1). destruct send_rel_same as (Ea & Es & Et & Ei).
  assert (send_allowed tx2 = true) as Ha.
  { unfold send_allowed. cbv zeta. rewrite Ea, Ei. destruct (rts_dst _ _ _ _ _ _ _ _ _ _ H) as [Hu _]. rewrite Hu.
    apply unicast_iff in Hu. by rewrite (proj2 (Z.eqb_neq _ _)) by tauto. }
  destruct (trans_send_run config_proxy config_friend config_cdb proxy_relay adv_buffer tx msg cb t tx1 j key aid)
    as (msg' & Cm & Wm & E); try done; try apply H.
  { split; [done|]. change BT_MESH_RX_SDU_MAX with 36%nat in H2. change BT_MESH_TX_SDU_MAX with 72%nat. lia. }
  apply (wp_eq _ _ _ _ E). clear E. rewrite ready_segmented. change (app_sealed key _ _) with (m_data m) in Cm.
  pose proof (length_contents msg' Wm) as Lm. rewrite Cm in Lm. pose proof (mok_data _ Hm) as Hd. change BT_MESH_RX_SDU_MAX with 36%nat in Hd.
  assert (j < subnet_count t)%nat as Hj by (eapply lookup_lt_Some, H).
  assert (net_ready j (tr_net t)) as Hnr by (apply (tok_ready subnets_max pool); [apply H|done]).
  apply (wp_send_seg _ _ _ _ _ (subnet_count t)); [apply H|exact Hnr|done|cbn; lia| |].
  { intros Hf. exfalso. apply find_index_None in Hf. pose proof (rts_context _ _ _ _ _ _ _ _ _ _ H) as (x & Hin & Hx)%Exists_exists.
    rewrite Forall_forall in Hf. specialize (Hf x Hin). by rewrite Hx in Hf. }
  intros i tx0 _ Hi Hn. cbv zeta. cbn [is_ctl_op]. rewrite Cm. fold (m_total m). change (is_blocked tx3 t) with (is_blocked tx2 t).
  rewrite (rts_unblocked _ _ _ _ _ _ _ _ _ _ H). pose proof (rts_free _ _ _ _ _ _ _ _ _ _ H) as Hfree.
  split; [lia|]. intros _.
  pose proof (lookup_lt_Some _ _ _ Hi) as Hlt.
  pose proof (Forall_lookup_1 _ _ _ _ (tok_tx _ _ _ (rts_ok _ _ _ _ _ _ _ _ _ _ H)) Hi) as Hok.
  destruct (full_sending tx0 cb Hok Hn Hj) as (Hfull & Hb & Hsend). set (txf := full_tx _ _ _ _ _ _ _) in *.
  apply wp_bind. unfold seg_tx_send_unacked. apply wp_bind, wp_get_tx; [done|].
  rewrite (txo_count _ _ Hfull), Hb. rewrite (proj2 (Z.eqb_neq _ _)) by lia.
  apply wp_bind. eapply wp_need; [done|]. apply wp_bind, wp_net_idx_of; [done|]. intros x.
  change (stx_attempts txf) with 4. cbn [Z.eqb]. apply wp_bind, wp_set_tx, wp_bind.
  change (stx_seg_o txf) with 0. rewrite (sdg_n _ _ Hsend). replace (Z.to_nat (Z.of_nat (m_total m) - 1 + 1 - 0)) with (m_total m) by lia.
  assert (carries m sub (seg_net_tx txf (tx_sub tx3) x)) as Hcar by (by split).
  apply (wp_unacked_sends m sub _ i (m_total m) 0); try done.
  - destruct Hsend as [[? ? ? ?] ? ? ? ? ? ?]. by split.
  - apply (rts_sub _ _ _ _ _ _ _ _ _ _ H).
  - apply (rts_ok _ _ _ _ _ _ _ _ _ _ H).
  - apply (rts_remote _ _ _ _ _ _ _ _ _ _ H).
  - apply (quiet_for_le _ 3); [lia|apply H].
  - cbn. lia.
  - intros tx' n' Hs. cbn [when]. apply wp_bind, wp_set_tx, wp_bind, wp_set_tx, wp_set_tx, wp_ret. done.
Qed.
End Message.
End Sender.

(** ** Delivery *)

(** A receiver that has never heard of the message, with room for it. *)
Record ready_to_receive {ecb : Ecb} (config_proxy : bool) (subnets_max pool : nat) (m : message) (key : bytes) (idx : Z)
    (t : trans (list delivery)) : Prop := {
  rtr_ok : trans_ok subnets_max pool t;
  rtr_listening : listening m key idx t;
  rtr_free : (m_total m <= tr_segs_free t)%nat;
  rtr_stale : Forall (stale m) (tr_seg_rx t);
  rtr_context : Exists (fun rx => srx_in_use rx = false) (tr_seg_rx t);
  rtr_unheard k : (k < m_total m)%nat -> unheard config_proxy m (tr_net t) k;
  rtr_distinct j k : (j < m_total m)%nat -> (k < m_total m)%nat -> j <> k ->
    dup_value (m_packet config_proxy m j) <> dup_value (m_packet config_proxy m k);
  rtr_cache : (dup_cache_next (tr_net t) < length (dup_cache (tr_net t)))%nat /\ (m_total m <= length (dup_cache (tr_net t)))%nat;
}.

(** Every packet is one of [pkts], and each of these arrives. *)
Definition all_arrive (pkts : list bytes) (arrivals : list (Z * bytes * Z)) : Prop :=
  forall pkt, pkt ∈ (fun a => a.1.2) <$> arrivals <-> pkt ∈ pkts.

Section Delivery.
Context {ecb : Ecb} {ecb_ok : EcbOk} (config_proxy config_friend config_cdb : bool).
Context (proxy_relay : bytes -> Z -> bt_mesh_net -> bool) (adv_buffer : bt_mesh_net -> bool).
(** The receiver's configuration. *)
Context (config_friend' config_cdb' : bool) (proxy_relay' : bytes -> Z -> bt_mesh_net -> bool) (adv_buffer' : bt_mesh_net -> bool).
Context {F : Type} {friend : FriendOps F} {idle : FriendIdle friend}.
Context (subnets_max pool subnets_max' pool' : nat).

Lemma arrivals_numbered {A : Type} (f : nat -> A) n (l : list A) :
  (forall x, x ∈ l <-> x ∈ f <$> seq 0 n) ->
  exists ks, l = f <$> ks /\ (forall k, k ∈ ks -> (k < n)%nat) .
Proof.
  intros H. assert (forall x, x ∈ l -> x ∈ f <$> seq 0 n) as Hin by (intros x; apply H). clear H.
  induction l as [|x l IH]; [by exists []; split; [|intros k ?%elem_of_nil]|].
  destruct IH as (ks & -> & Hks); [intros y Hy; apply Hin; by right|].
  destruct (proj1 (list_elem_of_fmap _ _ _) (Hin x ltac:(by left))) as (k & -> & Hk%elem_of_seq).
  exists (k :: ks). split; [done|]. intros j [->|Hj]%elem_of_cons; [lia|by apply Hks].
Qed.

(** C1: A segmented message of up to three segments arrives, exactly once and unchanged.
    [bt_mesh_trans_send] encrypts an application message and sends one packet per segment.
    When these reach the receiver, in any order and any of them any number of times, its
    layers decrypt and reassemble them and hand the access layer one message, with the
    bytes, source, destination and application key index of the one sent. Conditions: an
    application key; message and MIC at most 36 bytes, the receiver's limit (the sender
    sends up to 72, which do not arrive); a unicast address of another node; a TTL other
    than 1 (never sent out); at the sender advertising buffers, a free context and blocks,
    no other message to this destination in progress, no IV update due; at the receiver
    the network key in its first slot, the application key, the sender's IV index or the
    next, a free context and blocks, and no trace of the message in its caches; no Friend
    on either side; packets told apart by the duplicate cache. *)
Theorem message_delivered tx tx1 msg j sub key aid idx cb tS tR :
  (forall n, adv_buffer n = true) -> (forall pdu dst n, proxy_relay pdu dst n = false) ->
  ready_to_send config_proxy config_friend config_cdb subnets_max pool tx tx1 msg j sub key aid tS ->
  ready_to_receive config_proxy subnets_max' pool' (outgoing_message tx1 msg j sub key aid tS) key idx tR ->
  exists tS' pkts,
    bt_mesh_trans_send config_proxy config_friend config_cdb proxy_relay adv_buffer tx msg cb tS = Some (None, tS') /\
    sent_packets (tr_net tS') = sent_packets (tr_net tS) ++ pkts /\
    forall arrivals, all_arrive pkts arrivals ->
    exists tR',
      receive config_proxy config_friend' config_cdb' proxy_relay' adv_buffer' arrivals tR = Some (tt, tR') /\
      tr_friend tR' = tr_friend tR ++ [mkDelivery (tx_src tx) (ctx_addr (tx_ctx tx)) idx (contents msg)].
Proof.
  intros Hadv Hproxy HS HR. set (m := outgoing_message tx1 msg j sub key aid tS) in *.
  pose proof (ready_message _ _ _ _ _ _ _ _ _ _ _ _ _ HS) as Hm. fold m in Hm.
  destruct (message_sent config_proxy config_friend config_cdb proxy_relay adv_buffer Hadv Hproxy _ _ _ _ _ _ _ _ _ _ HS cb)
    as (r & tS' & E & -> & (_ & Hp & _)). fold m in Hp.
  exists tS', (m_packet config_proxy m <$> seq 0 (m_total m)). split; [done|]. split; [done|]. intros arrivals Harr.
  destruct (arrivals_numbered _ _ _ Harr) as (ks & Ek & Hks). pose proof (message_total m Hm) as Ht.
  assert (forall k, (k < m_total m)%nat -> k ∈ ks) as Hcov.
  { intros k Hk. assert (m_packet config_proxy m k ∈ m_packet config_proxy m <$> ks) as (k' & Ek' & Hk')%list_elem_of_fmap.
    { rewrite <- Ek. apply Harr, list_elem_of_fmap. exists k. split; [done|]. apply elem_of_seq. lia. }
    destruct (decide (k = k')) as [->|N]; [done|]. exfalso. apply (rtr_distinct _ _ _ _ _ _ _ HR k k'); auto. by rewrite Ek'. }
  destruct HR as [HO HL Hfree Hst Hctx Hun Hdist [Hc1 Hc2]].
  assert (0 < subnets_max')%nat as Hsub.
  { destruct (lis_key _ _ _ _ HL) as (s & rest & Es & _). rewrite <- (tok_subnets _ _ _ HO). unfold subnet_count. rewrite Es. cbn. lia. }
  destruct (receive_rest config_proxy config_friend' config_cdb' proxy_relay' adv_buffer' subnets_max' pool' m key (contents msg) idx Hm)
    with (ks := ks) (arrivals := arrivals) (got := @nil nat) (t := tR) as ([] & tR' & E' & _ & Hf); try done.
  - cbn [m_data m outgoing_message]. unfold m, outgoing_message. cbn [m_data]. by erewrite message_crypto.
  - intros k Hk. right. by apply Hcov.
  - intros Hall. destruct (proj1 (elem_of_nil 0%nat) (Hall 0%nat ltac:(lia))).
  - constructor.
  - intros k Hk. by apply elem_of_nil in Hk.
  - split; [cbn; lia|]. left. done.
  - intros k Hk _. by apply Hun.
  - exists tR'. split; [done|]. rewrite Hf. unfold delivered. do 2 f_equal.
    destruct (rts_ttl _ _ _ _ _ _ _ _ _ _ _ _ _ HS) as (_ & Hr & _). unfold resolve_ttl in Hr.
    destruct (_ =? _); [by injection Hr as <-|]. destruct (_ <? _); [done|by injection Hr as <-].
Qed.
End Delivery.

(** ** Example *)

(** Node 4 sends 20 bytes to node 9. *)
Definition receiver_example : trans (list delivery) :=
  trans_zero [] (node_example 9 2 false subnet_example) apps_example.

Lemma message_example_ready :
  ready_to_send true true false 2 64 tx_to_nine tx_to_nine (msg_example 20 4) 0 subnet_example (replicate 16 6) 25
    (trans_example 4).
Proof.
  split; [apply trans_example_ok|..]; try (by vm_compute); try (vm_compute; lia); try (split; vm_compute; lia).
  - by left.
  - split_and!; [vm_compute; congruence..|]. right. vm_compute. congruence.
Qed.

Definition message_example : message :=
  outgoing_message (ecb := toy_ecb) tx_to_nine (msg_example 20 4) 0 subnet_example (replicate 16 6) 25 (trans_example 4).

Lemma below_two (P : nat -> Prop) : P 0%nat -> P 1%nat -> forall k, (k < m_total message_example)%nat -> P k.
Proof. intros H0 H1 k Hk. change (m_total message_example) with 2%nat in Hk. destruct k as [|[|k]]; [done..|lia]. Qed.

Lemma receiver_example_ready :
  ready_to_receive (ecb := toy_ecb) true 2 64 message_example (replicate 16 6) 0 receiver_example.
Proof.
  split.
  - apply (trans_zero_ok [] (node_example 9 2 false subnet_example)); try (by vm_compute). repeat constructor; vm_compute; congruence.
  - split.
    + done.
    + eexists _, _. split_and!; [reflexivity|done..].
    + by left.
    + by vm_compute.
    + eexists. by vm_compute.
    + right. vm_compute. split; congruence.
    + intros rx Ha _ _. exists 1%nat. change (m_src message_example) with 4 in Ha. unfold receiver_example. cbn. by rewrite Ha.
    + eexists _, 0%nat, _. split_and!; [reflexivity|by vm_compute|reflexivity|done|done].
  - vm_compute. lia.
  - apply Forall_replicate. by intros [=].
  - by left.
  - apply below_two; apply (bool_decide_unpack (_ /\ _)); by vm_compute.
  - intros j k Hj Hk N. change (m_total message_example) with 2%nat in Hj, Hk.
    destruct j as [|[|j]], k as [|[|k]]; try lia; vm_compute; congruence.
  - vm_compute. lia.
Qed.

Lemma message_delivered_witness :
  exists tS' pkts,
    bt_mesh_trans_send (ecb := toy_ecb) true true false (fun _ _ _ => false) (fun _ => true) tx_to_nine (msg_example 20 4) None
      (trans_example 4) = Some (None, tS') /\
    sent_packets (tr_net tS') = sent_packets (tr_net (trans_example 4)) ++ pkts /\
    forall arrivals, all_arrive pkts arrivals ->
    exists tR',
      receive (ecb := toy_ecb) true false true (fun _ _ _ => false) (fun _ => true) arrivals receiver_example = Some (tt, tR') /\
      tr_friend tR' = tr_friend receiver_example ++ [mkDelivery 4 9 0 (replicate 20 65)].
Proof.
  apply (message_delivered (ecb := toy_ecb) (ecb_ok := toy_ecb_ok) true true false (fun _ _ _ => false) (fun _ => true)
    false true (fun _ _ _ => false) (fun _ => true) 2 64 2 64 tx_to_nine tx_to_nine (msg_example 20 4) 0 subnet_example
    (replicate 16 6) 25 0 None (trans_example 4) receiver_example);
    [done|done|exact message_example_ready|exact receiver_example_ready].
Defined.
