(* ===== verification/Mesh.v ===== *)
(** * The state above the transport layer

    What the modules above the transport layer keep ([heartbeat.c], [beacon.c],
    [main.c], [cfg.c]): the heartbeat publication and subscription, their timers, the
    beacon timer and the suspended flag.  It is the parameter [F] of the transport
    state [trans F], so that the handlers the transport layer calls act on it
    directly.  [G] is the state of the friendship functions.

    A delayed work is the time at which it is due, in milliseconds, or [None] when it
    is not submitted. *)

From S2P Require Import Prelude ByteOrder MeshDefs Cdb NetBuf Access Rpl Ccm MeshCrypto Subnet AppKeys Net Transport.

(** ** Heartbeat parameters (include/bluetooth/mesh/heartbeat.h) *)

Record bt_mesh_hb_pub : Type := mkHbPub {
  hbp_dst : Z;
  hbp_count : Z;
  hbp_ttl : Z;
  hbp_feat : Z;
  hbp_net_idx : Z;
  hbp_period : Z;
}.

#[export] Instance bt_mesh_hb_pub_eta : Eta bt_mesh_hb_pub := fun p =>
  mkHbPub (hbp_dst p) (hbp_count p) (hbp_ttl p) (hbp_feat p) (hbp_net_idx p) (hbp_period p).

Record bt_mesh_hb_sub : Type := mkHbSub {
  hbs_period : Z;
  hbs_remaining : Z;
  hbs_src : Z;
  hbs_dst : Z;
  hbs_count : Z;
  hbs_min_hops : Z;
  hbs_max_hops : Z;
}.

#[export] Instance bt_mesh_hb_sub_eta : Eta bt_mesh_hb_sub := fun s =>
  mkHbSub (hbs_period s) (hbs_remaining s) (hbs_src s) (hbs_dst s) (hbs_count s) (hbs_min_hops s) (hbs_max_hops s).

(** Calls of the application, of the storage, of the advertiser and of the proxy. *)
Inductive mesh_event : Type :=
| EvStoreCfg | EvStoreHbPub | EvStoreModSub | EvStoreModPub | EvStoreModBind | EvClearNet
| EvHbRecv (sub : bt_mesh_hb_sub) (hops feat : Z)
| EvHbSubEnd (sub : bt_mesh_hb_sub)
| EvFriendsClear | EvFriendInit
| EvScanEnable | EvScanDisable | EvAdvEnable
| EvProxyGattEnable | EvProxyGattDisable | EvProxyIdentityEnable
| EvProxyProvEnable | EvProxyProvDisable
| EvModelStart | EvModelReset
| EvBeaconAdv (xmit : Z) (pdu : bytes) | EvUriAdv (xmit : Z) (uri : bytes)
| EvUnprovisionedBeacon (uuid : bytes) (oob_info : Z) (uri_hash : option Z)
| EvProvComplete (net_idx addr : Z)
| EvModelSend (ctx : bt_mesh_msg_ctx) (msg : bytes) | EvProxyOnIdle.

Record mesh (G : Type) : Type := mkMesh {
  ms_friend : G;
  hb_pub : bt_mesh_hb_pub;
  hb_sub : bt_mesh_hb_sub;
  hb_pub_timer : option Z;
  hb_sub_timer : option Z;
  beacon_timer : option Z;
  beacon_first_half : bool;
  ms_suspended : bool;
  ms_log : list mesh_event;
}.

Arguments mkMesh {G} _ _ _ _ _ _ _ _ _ : assert.
Arguments ms_friend {G} _ : assert.
Arguments hb_pub {G} _ : assert.
Arguments hb_sub {G} _ : assert.
Arguments hb_pub_timer {G} _ : assert.
Arguments hb_sub_timer {G} _ : assert.
Arguments beacon_timer {G} _ : assert.
Arguments beacon_first_half {G} _ : assert.
Arguments ms_suspended {G} _ : assert.
Arguments ms_log {G} _ : assert.

#[export] Instance mesh_eta G : Eta (mesh G) := fun m =>
  mkMesh (ms_friend m) (hb_pub m) (hb_sub m) (hb_pub_timer m) (hb_sub_timer m) (beacon_timer m)
    (beacon_first_half m) (ms_suspended m) (ms_log m).

(** The variables before [bt_mesh_init], with [f] for the friendships. *)
Definition mesh_zero {G : Type} (f : G) : mesh G :=
  mkMesh f (mkHbPub 0 0 0 0 0 0) (mkHbSub 0 0 0 0 0 0 0) None None None false false [].

(** [k_delayed_work_remaining_get] *)
Definition work_remaining (now : Z) (work : option Z) : Z :=
  match work with Some due => Z.max 0 (due - now) | None => 0 end.

Section Mesh.
Context {G : Type}.

Abbreviation MESH := (ST (trans (mesh G))).

(** The fields of the upper state, read and written through the transport state. *)
Definition up {A : Type} (f : mesh G -> A) : MESH A := gets (fun t => f (tr_friend t)).
Definition set_up (f : mesh G -> mesh G) : MESH unit := modify (fun t => t <| tr_friend := f (tr_friend t) |>).
Definition mesh_event_log (e : mesh_event) : MESH unit := set_up (fun m => m <| ms_log := ms_log m ++ [e] |>).
Definition set_net (f : bt_mesh_net -> bt_mesh_net) : MESH unit := modify (fun t => t <| tr_net := f (tr_net t) |>).

(** [bt_mesh_is_provisioned] *)
Definition bt_mesh_is_provisioned (t : trans (mesh G)) : bool := net_valid (tr_net t).

Lemma wp_up {A : Type} (f : mesh G -> A) Q (t : trans (mesh G)) : Q (f (tr_friend t)) t -> wp (up f) Q t.
Proof. intros H. unfold up. by apply wp_gets. Qed.

Lemma wp_set_up f Q (t : trans (mesh G)) : Q tt (t <| tr_friend := f (tr_friend t) |>) -> wp (set_up f) Q t.
Proof. intros H. by apply (wp_modify _ Q). Qed.

Lemma wp_mesh_event e Q (t : trans (mesh G)) :
  Q tt (t <| tr_friend := (tr_friend t) <| ms_log := ms_log (tr_friend t) ++ [e] |> |>) -> wp (mesh_event_log e) Q t.
Proof. intros H. by apply wp_set_up. Qed.

Lemma wp_set_net f Q (t : trans (mesh G)) : Q tt (t <| tr_net := f (tr_net t) |>) -> wp (set_net f) Q t.
Proof. intros H. by apply (wp_modify _ Q). Qed.
End Mesh.

(** One step of a program on this state. *)
Ltac mesh_step :=
  first
    [ wp_step
    | lazymatch goal with
      | |- wp (up _) _ _ => apply wp_up
      | |- wp (set_up _) _ _ => apply wp_set_up
      | |- wp (mesh_event_log _) _ _ => apply wp_mesh_event
      | |- wp (set_net _) _ _ => apply wp_set_net
      end; cbv beta ].
