(* ===== verification/Heartbeat.v ===== *)
(** * Heartbeats (subsys/bluetooth/mesh/heartbeat.c)

    Publication and subscription.  The publication work and the callbacks of the
    bearer are operations of their own, run by the system work queue and the
    advertiser. *)

From S2P Require Import Prelude ByteOrder MeshDefs Cdb NetBuf Access Rpl Ccm MeshCrypto Subnet AppKeys Net Transport Mesh.

Definition MSEC_PER_SEC : Z := 1000.
Definition BT_MESH_FEAT_RELAY : Z := 1.
Definition BT_MESH_FEAT_PROXY : Z := 2.
Definition BT_MESH_FEAT_FRIEND : Z := 4.
Definition BT_MESH_FEAT_LOW_POWER : Z := 8.
Definition BT_MESH_FEAT_SUPPORTED : Z := 15.

(** [heartbeat.h]: counts and periods as logarithms.  A shift of the width of [int] or
    more is undefined. *)
Definition bt_mesh_hb_pwr2 (val : Z) : option Z :=
  if val =? 0 then Some 0
  else if (val =? 255) || (val =? 17) then Some 65535
  else if val - 1 <? 31 then Some (u16 (Z.shiftl 1 (val - 1)))
  else None.

(** [32 - __builtin_clz(val)] is the number of significant bits. *)
Definition bt_mesh_hb_log (val : Z) : Z :=
  if val =? 0 then 0 else if val =? 65535 then 255 else Z.log2 val + 1.

Section Heartbeat.
Context {ecb : Ecb} {cmac : Cmac} (config_proxy config_friend config_cdb config_settings : bool).
Context (proxy_relay : bytes -> Z -> bt_mesh_net -> bool) (adv_buffer : bt_mesh_net -> bool).
Context {G : Type} {friend : FriendOps (mesh G)}.

Abbreviation MESH := (ST (trans (mesh G))).

Definition set_hb_pub (f : bt_mesh_hb_pub -> bt_mesh_hb_pub) : MESH unit := set_up (fun m => m <| hb_pub := f (hb_pub m) |>).
Definition set_hb_sub (f : bt_mesh_hb_sub -> bt_mesh_hb_sub) : MESH unit := set_up (fun m => m <| hb_sub := f (hb_sub m) |>).
Definition set_pub_timer (due : option Z) : MESH unit := set_up (fun m => m <| hb_pub_timer := due |>).
Definition set_sub_timer (due : option Z) : MESH unit := set_up (fun m => m <| hb_sub_timer := due |>).

Definition sub_remaining (now : Z) (m : mesh G) : Z :=
  if hbs_dst (hb_sub m) =? BT_MESH_ADDR_UNASSIGNED then 0
  else work_remaining now (hb_sub_timer m) / MSEC_PER_SEC.

(** [pub.count] is [uint16_t]. *)
Definition hb_publish_end_cb (now : Z) (err : ret_code) : MESH unit :=
  pub ← up hb_pub;
  _ ← when (negb (hbp_period pub =? 0) && (1 <? hbp_count pub))
        (set_pub_timer (Some (now + hbp_period pub * MSEC_PER_SEC)));
  when (negb (hbp_count pub =? 65535)) (set_hb_pub (fun p => p <| hbp_count := u16 (hbp_count p - 1) |>)).

Definition notify_recv (now hops feat : Z) : MESH unit :=
  remaining ← up (sub_remaining now);
  _ ← set_hb_sub (fun s => s <| hbs_remaining := u32 remaining |>);
  sub ← up hb_sub;
  mesh_event_log (EvHbRecv sub hops feat).

Definition notify_sub_end : MESH unit :=
  _ ← set_hb_sub (fun s => s <| hbs_remaining := 0 |>);
  sub ← up hb_sub;
  mesh_event_log (EvHbSubEnd sub).

(** The subscription work: it is no longer submitted when it runs. *)
Definition sub_end : MESH unit := _ ← set_sub_timer None; notify_sub_end.

Definition hb_features (n : bt_mesh_net) : Z :=
  let feat := if enabled (bt_mesh_relay_get n) then BT_MESH_FEAT_RELAY else 0 in
  let feat := if enabled (bt_mesh_gatt_proxy_get config_proxy n) then Z.lor feat BT_MESH_FEAT_PROXY else feat in
  if enabled (bt_mesh_friend_get config_friend n) then Z.lor feat BT_MESH_FEAT_FRIEND else feat.

(** The subnet [bt_mesh_subnet_get] returns; NULL is an index outside the table, whose
    use is undefined. *)
Definition subnet_ptr (net_idx : Z) (n : bt_mesh_net) : nat :=
  match bt_mesh_subnet_get net_idx (net_subnets n) with Some i => i | None => length (subs (net_subnets n)) end.

Definition heartbeat_send (cb : option bt_mesh_send_cb) : MESH ret_code :=
  pub ← up hb_pub;
  sub ← gets (fun t => subnet_ptr (hbp_net_idx pub) (tr_net t));
  src ← gets (fun t => bt_mesh_primary_addr (net_comp (tr_net t)));
  xmit ← gets (fun t => net_xmit (tr_net t));
  if hbp_dst pub =? BT_MESH_ADDR_UNASSIGNED then mret None
  else
    feat ← gets (fun t => hb_features (tr_net t));
    let ctx := mkCtx (hbp_net_idx pub) BT_MESH_KEY_UNUSED (hbp_dst pub) 0 0 0 false (hbp_ttl pub) in
    let tx := mkTx sub ctx src xmit false false 0 in
    bt_mesh_ctl_send config_proxy config_friend config_cdb proxy_relay adv_buffer tx TRANS_CTL_OP_HEARTBEAT
      (hbp_ttl pub :: sys_put_be16 feat) cb.

Definition hb_publish_start_cb (now : Z) (err : ret_code) : MESH unit :=
  match err with Some _ => hb_publish_end_cb now err | None => mret tt end.

(** [publish_cb] with its two functions. *)
Definition publish_cb : bt_mesh_send_cb := mkCb true true 0.

(** The publication work. *)
Definition hb_publish (now : Z) : MESH unit :=
  _ ← set_pub_timer None;
  pub ← up hb_pub;
  sub ← gets (fun t => bt_mesh_subnet_get (hbp_net_idx pub) (net_subnets (tr_net t)));
  match sub with
  | None => set_hb_pub (fun p => p <| hbp_dst := BT_MESH_ADDR_UNASSIGNED |>)
  | Some _ =>
      if hbp_count pub =? 0 then mret tt
      else
        err ← heartbeat_send (Some publish_cb);
        match err with Some _ => hb_publish_end_cb now err | None => mret tt end
  end.

(** [hops] is [uint8_t]. *)
Definition bt_mesh_hb_recv (now : Z) (rx : bt_mesh_net_rx) (buf : bytes) : MESH ret_code :=
  if (length buf <? 3)%nat then mret (Some EINVAL)
  else
    let init_ttl := Z.land (byte_at buf 0) 127 in
    let feat := sys_get_be16 (drop 1 buf) in
    let hops := u8 (init_ttl - ctx_recv_ttl (rx_ctx rx) + 1) in
    sub ← up hb_sub;
    pending ← up hb_sub_timer;
    if negb (rx_addr rx =? hbs_src sub) || negb (ctx_recv_dst (rx_ctx rx) =? hbs_dst sub) then mret None
    else if bool_decide (pending = None) then mret None
    else
      _ ← set_hb_sub (fun s => s <| hbs_min_hops := Z.min (hbs_min_hops s) hops |>
                                 <| hbs_max_hops := Z.max (hbs_max_hops s) hops |>
                                 <| hbs_count := if hbs_count s <? 65535 then hbs_count s + 1 else hbs_count s |>);
      _ ← notify_recv now hops feat;
      mret None.

Definition pub_disable : MESH unit :=
  _ ← set_hb_pub (fun p => p <| hbp_dst := BT_MESH_ADDR_UNASSIGNED |> <| hbp_count := 0 |> <| hbp_ttl := 0 |>
                             <| hbp_period := 0 |>);
  set_pub_timer None.

(** [new_pub] may be NULL. *)
Definition bt_mesh_hb_pub_set (now : Z) (new_pub : option bt_mesh_hb_pub) : MESH mesh_status :=
  provisioned ← gets bt_mesh_is_provisioned;
  let disable :=
    _ ← pub_disable;
    _ ← when (config_settings && provisioned) (mesh_event_log EvStoreHbPub);
    mret STATUS_SUCCESS in
  match new_pub with
  | None => disable
  | Some p =>
      if hbp_dst p =? BT_MESH_ADDR_UNASSIGNED then disable
      else
        sub ← gets (fun t => bt_mesh_subnet_get (hbp_net_idx p) (net_subnets (tr_net t)));
        match sub with
        | None => mret STATUS_INVALID_NETKEY
        | Some _ =>
            let p := p <| hbp_feat := Z.land (hbp_feat p) BT_MESH_FEAT_SUPPORTED |> in
            _ ← set_hb_pub (fun _ => p);
            if negb provisioned then mret STATUS_SUCCESS
            else
              _ ← set_pub_timer (if negb (hbp_period p =? 0) && negb (hbp_count p =? 0) then Some now else None);
              _ ← when config_settings (mesh_event_log EvStoreHbPub);
              mret STATUS_SUCCESS
        end
  end.

(** [k_delayed_work_cancel] returns 0 only when the work was submitted. *)
Definition sub_stop (now : Z) : MESH unit :=
  remaining ← up (sub_remaining now);
  _ ← set_hb_sub (fun s => s <| hbs_period := u32 (hbs_period s - remaining) |>);
  pending ← up hb_sub_timer;
  _ ← set_sub_timer None;
  when (bool_decide (is_Some pending)) notify_sub_end.

Definition bt_mesh_hb_sub_set (now src dst period : Z) : MESH mesh_status :=
  primary ← gets (fun t => bt_mesh_primary_addr (net_comp (tr_net t)));
  if negb (src =? BT_MESH_ADDR_UNASSIGNED) && negb (BT_MESH_ADDR_IS_UNICAST src) then mret STATUS_INVALID_ADDRESS
  else if BT_MESH_ADDR_IS_VIRTUAL dst || BT_MESH_ADDR_IS_RFU dst
          || (BT_MESH_ADDR_IS_UNICAST dst && negb (dst =? primary)) then mret STATUS_INVALID_ADDRESS
  else if 65536 <? period then mret STATUS_CANNOT_SET
  else if (src =? BT_MESH_ADDR_UNASSIGNED) || (dst =? BT_MESH_ADDR_UNASSIGNED) then
    _ ← set_hb_sub (fun s => s <| hbs_src := BT_MESH_ADDR_UNASSIGNED |> <| hbs_dst := BT_MESH_ADDR_UNASSIGNED |>
                               <| hbs_min_hops := 0 |> <| hbs_max_hops := 0 |> <| hbs_count := 0 |>);
    _ ← sub_stop now; mret STATUS_SUCCESS
  else if negb (period =? 0) then
    _ ← set_hb_sub (fun s => s <| hbs_src := src |> <| hbs_dst := dst |> <| hbs_min_hops := BT_MESH_TTL_MAX |>
                               <| hbs_max_hops := 0 |> <| hbs_count := 0 |> <| hbs_period := period |>);
    _ ← set_sub_timer (Some (now + period * MSEC_PER_SEC)); mret STATUS_SUCCESS
  else _ ← sub_stop now; mret STATUS_SUCCESS.

Definition bt_mesh_hb_sub_get (now : Z) (m : mesh G) : bt_mesh_hb_sub :=
  hb_sub m <| hbs_remaining := u32 (sub_remaining now m) |>.

Definition bt_mesh_hb_feature_changed (features : Z) : MESH unit :=
  pub ← up hb_pub;
  if hbp_dst pub =? BT_MESH_ADDR_UNASSIGNED then mret tt
  else if Z.land (hbp_feat pub) features =? 0 then mret tt
  else _ ← heartbeat_send None; mret tt.

Definition bt_mesh_hb_init : MESH unit :=
  _ ← set_hb_pub (fun p => p <| hbp_net_idx := BT_MESH_KEY_UNUSED |>);
  _ ← set_pub_timer None; set_sub_timer None.

(** [bt_mesh_hb_start] and [bt_mesh_hb_resume] have the same body. *)
Definition bt_mesh_hb_start (now : Z) : MESH unit :=
  pub ← up hb_pub;
  when (negb (hbp_count pub =? 0) && negb (hbp_period pub =? 0)) (set_pub_timer (Some now)).

Definition bt_mesh_hb_suspend : MESH unit := set_pub_timer None.

Definition bt_mesh_hb_resume (now : Z) : MESH unit :=
  pub ← up hb_pub;
  when (negb (hbp_period pub =? 0) && negb (hbp_count pub =? 0)) (set_pub_timer (Some now)).

End Heartbeat.
