(* ===== verification/HeartbeatProps.v ===== *)
(** * Heartbeat subscriptions

    The statistics of a subscription are those of the heartbeats that match it. *)

From S2P Require Import Prelude ByteOrder MeshDefs Cdb NetBuf Access Rpl Ccm MeshCrypto Subnet AppKeys Net NetProps Transport TransportOps Mesh Heartbeat.

Section Statistics.
Context {G : Type}.

Abbreviation MESH := (ST (trans (mesh G))).

(** A heartbeat as the transport layer passes it on: when, from whom, and its payload. *)
Record heartbeat : Type := mkHeartbeat { beat_at : Z; beat_rx : bt_mesh_net_rx; beat_data : bytes }.

Definition matches (src dst : Z) (h : heartbeat) : bool :=
  (rx_addr (beat_rx h) =? src) && (ctx_recv_dst (rx_ctx (beat_rx h)) =? dst) && (3 <=? length (beat_data h))%nat.

(** The number of hops of a heartbeat sent with the initial TTL of its first byte. *)
Definition hops_of (h : heartbeat) : Z := u8 (Z.land (byte_at (beat_data h) 0) 127 - ctx_recv_ttl (rx_ctx (beat_rx h)) + 1).

Fixpoint hb_recv_all (hs : list heartbeat) : MESH unit :=
  match hs with
  | [] => mret tt
  | h :: hs => _ ← bt_mesh_hb_recv (beat_at h) (beat_rx h) (beat_data h); hb_recv_all hs
  end.

(** The statistics of the hops [l], on top of those of the subscription. *)
Record stats (src dst period : Z) (lo hi n : Z) (l : list Z) (m : mesh G) : Prop := {
  stats_src : hbs_src (hb_sub m) = src;
  stats_dst : hbs_dst (hb_sub m) = dst;
  stats_period : hbs_period (hb_sub m) = period;
  stats_timer : is_Some (hb_sub_timer m);
  stats_min : hbs_min_hops (hb_sub m) = foldr Z.min lo l;
  stats_max : hbs_max_hops (hb_sub m) = foldr Z.max hi l;
  stats_count : hbs_count (hb_sub m) = Z.min 65535 (n + Z.of_nat (length l));
}.

Lemma foldr_snoc_min lo l x : foldr Z.min lo (l ++ [x]) = Z.min (foldr Z.min lo l) x.
Proof. induction l as [|y l IH]; cbn; [lia|]. rewrite IH. lia. Qed.

Lemma foldr_snoc_max hi l x : foldr Z.max hi (l ++ [x]) = Z.max (foldr Z.max hi l) x.
Proof. induction l as [|y l IH]; cbn; [lia|]. rewrite IH. lia. Qed.

Lemma recv_stats src dst period lo hi n l h (t : trans (mesh G)) :
  0 <= n -> stats src dst period lo hi n l (tr_friend t) ->
  wp (bt_mesh_hb_recv (beat_at h) (beat_rx h) (beat_data h))
    (fun _ t' => stats src dst period lo hi n (l ++ (if matches src dst h then [hops_of h] else [])) (tr_friend t') /\ tr_net t' = tr_net t) t.
Proof.
  intros Hn [S1 S2 S7 S3 S4 S5 S6]. unfold bt_mesh_hb_recv, matches.
  destruct (Nat.ltb_spec (length (beat_data h)) 3) as [Hl|Hl].
  { wp_step. rewrite (proj2 (Nat.leb_gt 3 _)) by lia. by rewrite andb_false_r, app_nil_r. }
  rewrite (proj2 (Nat.leb_le 3 _)), andb_true_r by lia. repeat mesh_step. rewrite S1, S2, <- negb_andb.
  destruct ((rx_addr (beat_rx h) =? src) && _) eqn:E; cbn [negb]; [|mesh_step; by rewrite app_nil_r].
  destruct (hb_sub_timer (tr_friend t)) as [due|] eqn:Et; [|by destruct S3]. rewrite bool_decide_false by done.
  unfold set_hb_sub, notify_recv, set_hb_sub. repeat mesh_step. split; [|done].
  split; cbn; rewrite ?foldr_snoc_min, ?foldr_snoc_max, ?length_app, ?S4, ?S5, ?S6; try done; try (by rewrite Et).
  cbn. destruct (Z.ltb_spec (Z.min 65535 (n + Z.of_nat (length l))) 65535); lia.
Qed.

Lemma recv_all_stats src dst period lo hi n hs : forall l (t : trans (mesh G)),
  0 <= n -> stats src dst period lo hi n l (tr_friend t) ->
  wp (hb_recv_all hs) (fun _ t' => stats src dst period lo hi n (l ++ map hops_of (List.filter (matches src dst) hs)) (tr_friend t') /\ tr_net t' = tr_net t) t.
Proof.
  induction hs as [|h hs IH]; intros l t Hn H; cbn [hb_recv_all List.filter map]; [wp_step; by rewrite app_nil_r|].
  wp_step. eapply wp_mono; [by apply recv_stats|]. intros ? t1 [H1 N1]. eapply wp_mono; [by apply IH|].
  intros ? t2 [H2 N2]. split; [|congruence]. rewrite <- app_assoc in H2. by destruct (matches src dst h).
Qed.

(** C30: A heartbeat subscription counts what it should.  After a subscription to the
    heartbeats of a unicast address to the node's own or a group address, for a period
    of 1 to 65536 seconds, and while the period lasts, handling any sequence of
    heartbeats is defined and leaves the number of those that match (at most 65535), the
    least and the greatest of their hops (127 and 0 before the first), and the network
    state as it was. *)
Theorem heartbeat_statistics now src dst period hs (t : trans (mesh G)) :
  BT_MESH_ADDR_IS_UNICAST src = true -> dst <> BT_MESH_ADDR_UNASSIGNED ->
  BT_MESH_ADDR_IS_VIRTUAL dst = false -> BT_MESH_ADDR_IS_RFU dst = false ->
  (BT_MESH_ADDR_IS_UNICAST dst = true -> dst = bt_mesh_primary_addr (net_comp (tr_net t))) -> 1 <= period <= 65536 ->
  let hops := map hops_of (List.filter (matches src dst) hs) in
  exists t1 t2, bt_mesh_hb_sub_set now src dst period t = Some (STATUS_SUCCESS, t1) /\ hb_recv_all hs t1 = Some (tt, t2) /\
    tr_net t2 = tr_net t /\
    let s := hb_sub (tr_friend t2) in
    hbs_count s = Z.min 65535 (Z.of_nat (length hops)) /\ hbs_min_hops s = foldr Z.min BT_MESH_TTL_MAX hops /\
    hbs_max_hops s = foldr Z.max 0 hops /\ hbs_period s = period.
Proof.
  intros Hu Hd Hv Hr Hp Hper hops. set (primary := bt_mesh_primary_addr (net_comp (tr_net t))) in *.
  assert (src <> BT_MESH_ADDR_UNASSIGNED) as Hs by (intros ->; done).
  set (Q := fun t2 : trans (mesh G) => tr_net t2 = tr_net t /\ stats src dst period BT_MESH_TTL_MAX 0 0 hops (tr_friend t2)).
  enough (wp (bt_mesh_hb_sub_set now src dst period) (fun st t1 => st = STATUS_SUCCESS /\ wp (hb_recv_all hs) (fun _ => Q) t1) t)
    as (st & t1 & E1 & -> & [] & t2 & E2 & N2 & [S1 S2 S3 S4 S5 S6 S7]) by (by exists t1, t2).
  unfold bt_mesh_hb_sub_set. repeat mesh_step. fold primary. rewrite Hu, Hv, Hr. cbn [negb andb orb]. rewrite andb_false_r.
  assert (BT_MESH_ADDR_IS_UNICAST dst && negb (dst =? primary) = false) as ->.
  { destruct (BT_MESH_ADDR_IS_UNICAST dst); [|done]. by rewrite <- Hp, Z.eqb_refl. }
  rewrite (proj2 (Z.ltb_ge 65536 period)), (proj2 (Z.eqb_neq src _) Hs), (proj2 (Z.eqb_neq dst _) Hd), (proj2 (Z.eqb_neq period 0)) by lia.
  cbn [orb negb]. unfold set_hb_sub, set_sub_timer. repeat mesh_step. split; [done|].
  eapply wp_mono; [apply (recv_all_stats src dst period BT_MESH_TTL_MAX 0 0 hs []); [done|by split]|]. intros ? t2 [H N]. by split.
Qed.
End Statistics.

(** ** Example *)

(** Heartbeats with an initial TTL of 5, received with [recv_ttl]. *)
Definition beat_example (src recv_ttl : Z) : heartbeat :=
  mkHeartbeat 1000 (mkRx 0 (mkCtx 0 BT_MESH_KEY_UNUSED src 49152 0 recv_ttl false 0) 0 false false false true BT_MESH_NET_IF_ADV true false 0)
    (5 :: sys_put_be16 0).

Lemma heartbeat_statistics_witness :
  let hs := [beat_example 9 5; beat_example 8 5; beat_example 9 2; beat_example 9 4] in
  let t := trans_zero (mesh_zero tt) (node_example 4 2 false subnet_zero) apps_example in
  exists t1 t2, bt_mesh_hb_sub_set 0 9 49152 60 t = Some (STATUS_SUCCESS, t1) /\ hb_recv_all hs t1 = Some (tt, t2) /\
    tr_net t2 = tr_net t /\
    let s := hb_sub (tr_friend t2) in hbs_count s = 3 /\ hbs_min_hops s = 1 /\ hbs_max_hops s = 4 /\ hbs_period s = 60.
Proof.
  apply (heartbeat_statistics 0 9 49152 60 [beat_example 9 5; beat_example 8 5; beat_example 9 2; beat_example 9 4]
           (trans_zero (mesh_zero tt) (node_example 4 2 false subnet_zero) apps_example)).
  - done.
  - done.
  - done.
  - done.
  - done.
  - lia.
Defined.
