(* ===== verification/SecureBeacon.v ===== *)
(** * Beacons (subsys/bluetooth/mesh/beacon.c)

    The secure network beacons of a provisioned node, which carry the key refresh flag
    and the IV index, and the unprovisioned device beacons.  The timer work
    [beacon_send] is an operation of its own. *)

From S2P Require Import Prelude ByteOrder MeshDefs Cdb NetBuf Access Rpl Ccm MeshCrypto Subnet AppKeys Net Transport Mesh.

Definition PROVISIONED_INTERVAL : Z := 10000.
Definition BEACON_TYPE_UNPROVISIONED : Z := 0.
Definition BEACON_TYPE_SECURE : Z := 1.
(** [BT_MESH_TRANSMIT(2, 20)] and [BT_MESH_TRANSMIT(0, 20)] *)
Definition UNPROV_XMIT : Z := 10.
Definition PROV_XMIT : Z := 8.
Definition BT_MESH_PROV_OOB_URI : Z := 2.
(** [BT_MESH_ADV_DATA_SIZE] *)
Definition adv_data_size : nat := 29.

(** What [bt_mesh_prov] gives to the beacons. *)
Record prov_beacon : Type := mkProvBeacon {
  pb_uuid : bytes;
  pb_uri : option bytes;
  pb_oob_info : Z;
  pb_unprovisioned_beacon : bool;   (** the callback is set *)
}.

Definition set_beacon (f : subnet_beacon -> subnet_beacon) (sub : bt_mesh_subnet) : bt_mesh_subnet :=
  sub <| sub_beacon := f (sub_beacon sub) |>.

Definition cache_check (beacon_data : bytes) (sub : bt_mesh_subnet) : bool :=
  bool_decide (beacon_cache (sub_beacon sub) = take 21 beacon_data).

Definition cache_add (data : bytes) (sub : bt_mesh_subnet) : bt_mesh_subnet :=
  set_beacon (fun b => b <| beacon_cache := take 21 data |>) sub.

Definition BEACON_THRESHOLD (sub : bt_mesh_subnet) : Z := 10 * (beacons_last (sub_beacon sub) + 1) * 1000 - 5 * 1000.

Record beacon_params : Type := mkParams { bp_net_id : bytes; bp_auth : bytes; bp_iv_index : Z; bp_flags : Z }.

Section Beacon.
Context {ecb : Ecb} {cmac : Cmac} (config_proxy config_friend config_cdb config_pb_adv : bool).
Context {G : Type}.
(** Whether [bt_mesh_adv_create] finds a free buffer, after the advertisements so far. *)
Context (beacon_buf : list mesh_event -> bool).

Abbreviation MESH := (ST (trans (mesh G))).

Definition set_subnet (f : bt_mesh_subnet -> bt_mesh_subnet) (i : nat) : MESH unit :=
  set_net (fun n => n <| net_subnets := alter_sub f i (net_subnets n) |>).

Definition beacon_complete (now : Z) (i : nat) : MESH unit :=
  set_subnet (set_beacon (fun b => b <| beacon_sent := u32 now |>)) i.

Definition tx_keys (sub : bt_mesh_subnet) : bt_mesh_subnet_keys := sub_keys (SUBNET_KEY_TX_IDX sub) sub.

Definition bt_mesh_beacon_create (n : bt_mesh_net) (sub : bt_mesh_subnet) : bytes :=
  [BEACON_TYPE_SECURE; bt_mesh_net_flags (ivu_in_progress n) (Some sub)]
  ++ take 8 (keys_net_id (tx_keys sub)) ++ sys_put_be32 (iv_index n) ++ take 8 (beacon_auth (sub_beacon sub)).

(** The advertisement of [sub], unless it is too early; the result is the [int]
    returned. *)
Definition secure_beacon_send (now : Z) (sub : bt_mesh_subnet) : MESH ret_code :=
  let time_diff := u32 (u32 now - beacon_sent (sub_beacon sub)) in
  if (time_diff <? 600 * 1000) && (time_diff <? BEACON_THRESHOLD sub) then mret None
  else
    free ← up (fun m => beacon_buf (ms_log m));
    if negb (free : bool) then mret (Some ENOMEM)
    else
      pdu ← gets (fun t => bt_mesh_beacon_create (tr_net t) sub);
      _ ← mesh_event_log (EvBeaconAdv PROV_XMIT pdu);
      mret None.

(** [bt_mesh_subnet_find(secure_beacon_send, NULL)]: up to the first error. *)
Fixpoint secure_beacons_send (now : Z) (l : list bt_mesh_subnet) : MESH unit :=
  match l with
  | [] => mret tt
  | sub :: l =>
      if sub_net_idx sub =? BT_MESH_KEY_UNUSED then secure_beacons_send now l
      else
        err ← secure_beacon_send now sub;
        match err with Some _ => mret tt | None => secure_beacons_send now l end
  end.

Definition unprovisioned_beacon_send (prov : prov_beacon) : MESH ret_code :=
  free ← up (fun m => beacon_buf (ms_log m));
  if negb (free : bool) then mret (Some ENOBUFS)
  else
    let '(oob_info, uri_hash) :=
      match pb_uri prov with
      | None => (pb_oob_info prov, replicate 16 0)
      | Some uri => match bt_mesh_s1 uri with
                    | inl _ => (pb_oob_info prov, replicate 16 0)
                    | inr hash => (Z.lor (pb_oob_info prov) BT_MESH_PROV_OOB_URI, hash)
                    end
      end in
    _ ← mesh_event_log (EvBeaconAdv UNPROV_XMIT
          ([BEACON_TYPE_UNPROVISIONED] ++ take 16 (pb_uuid prov) ++ sys_put_be16 oob_info ++ take 4 uri_hash));
    match pb_uri prov with
    | None => mret None
    | Some uri =>
        free ← up (fun m => beacon_buf (ms_log m));
        if negb (free : bool) then mret (Some ENOBUFS)
        else _ ← when (length uri <=? adv_data_size)%nat (mesh_event_log (EvUriAdv UNPROV_XMIT uri)); mret None
    end.

Definition unprovisioned_beacon_recv (prov : prov_beacon) (buf : bytes) : MESH unit :=
  if negb (length buf =? 18)%nat && negb (length buf =? 22)%nat then mret tt
  else
    let uuid := take 16 buf in
    let oob_info := sys_get_be16 (drop 16 buf) in
    let rest := drop 18 buf in
    let uri_hash := if (length rest =? 4)%nat then Some (sys_get_be32 rest) else None in
    when (pb_unprovisioned_beacon prov) (mesh_event_log (EvUnprovisionedBeacon uuid oob_info uri_hash)).

Definition sub_update_beacon_observation (sub : bt_mesh_subnet) : bt_mesh_subnet :=
  set_beacon (fun b => b <| beacons_last := beacons_cur b |> <| beacons_cur := 0 |>) sub.

Definition foreach_subnet (f : bt_mesh_subnet -> bt_mesh_subnet) : MESH unit :=
  set_net (fun n => n <| net_subnets := snd (bt_mesh_subnet_foreach f (net_subnets n)) |>).

Definition update_beacon_observation : MESH unit :=
  half ← up beacon_first_half;
  _ ← set_up (fun m => m <| beacon_first_half := negb half |>);
  when half (foreach_subnet sub_update_beacon_observation).

Definition set_beacon_timer (due : option Z) : MESH unit := set_up (fun m => m <| beacon_timer := due |>).

(** The timer work.  [prov_active] is [bt_mesh_prov_active()], [unprov_int] the value of
    CONFIG_BT_MESH_UNPROV_BEACON_INT. *)
Definition beacon_send (prov_active : bool) (prov : prov_beacon) (unprov_int now : Z) : MESH unit :=
  _ ← set_beacon_timer None;
  if config_pb_adv && prov_active then set_beacon_timer (Some (now + unprov_int * 1000))
  else
    provisioned ← gets bt_mesh_is_provisioned;
    if provisioned : bool then
      _ ← update_beacon_observation;
      l ← gets (fun t => subs (net_subnets (tr_net t)));
      _ ← secure_beacons_send now l;
      again ← gets (fun t => flag_beacon (tr_net t) || ivu_initiator (tr_net t));
      when again (set_beacon_timer (Some (now + PROVISIONED_INTERVAL)))
    else if config_pb_adv then
      _ ← unprovisioned_beacon_send prov;
      set_beacon_timer (Some (now + unprov_int * 1000))
    else mret tt.

(** When the computation fails the comparison would read an indeterminate array: undefined
    behaviour. *)
Definition auth_match (keys : bt_mesh_subnet_keys) (params : beacon_params) : option bool :=
  if negb (bool_decide (bp_net_id params = keys_net_id keys)) then Some false
  else match bt_mesh_beacon_auth (keys_beacon keys) (bp_flags params) (keys_net_id keys) (bp_iv_index params) with
       | inl _ => None
       | inr net_auth => Some (bool_decide (bp_auth params = net_auth))
       end.

(** [Some new_key] when a valid key of the subnet authenticates the beacon. *)
Definition subnet_by_id (params : beacon_params) (sub : bt_mesh_subnet) : option (option bool) :=
  m0 ← (if keys_valid (sub_key0 sub) then auth_match (sub_key0 sub) params else Some false);
  if m0 : bool then Some (Some false)
  else
    m1 ← (if keys_valid (sub_key1 sub) then auth_match (sub_key1 sub) params else Some false);
    Some (if m1 : bool then Some true else None).

(** [bt_mesh_subnet_find(subnet_by_id, &params)] *)
Fixpoint find_by_id (params : beacon_params) (i : nat) (l : list bt_mesh_subnet) : option (option (nat * bool)) :=
  match l with
  | [] => Some None
  | sub :: l =>
      if sub_net_idx sub =? BT_MESH_KEY_UNUSED then find_by_id params (S i) l
      else
        m ← subnet_by_id params sub;
        match m with Some new_key => Some (Some (i, new_key)) | None => find_by_id params (S i) l end
  end.

(** [update_stats] *)
Definition update_stats (i : nat) : MESH unit :=
  beacons ← gets (fun t => flag_beacon (tr_net t));
  set_subnet (fun sub => if (beacons : bool) && (beacons_cur (sub_beacon sub) <? 255)
                         then set_beacon (fun b => b <| beacons_cur := beacons_cur b + 1 |>) sub else sub) i.

Definition beacon_params_of (data : bytes) : beacon_params :=
  mkParams (take 8 (drop 1 data)) (take 8 (drop 13 data)) (sys_get_be32 (drop 9 data)) (byte_at data 0).

(** A failed computation leaves the old value. *)
Definition bt_mesh_beacon_update (n : bt_mesh_net) (sub : bt_mesh_subnet) : bt_mesh_subnet :=
  let keys := tx_keys sub in
  match bt_mesh_beacon_auth (keys_beacon keys) (bt_mesh_net_flags (ivu_in_progress n) (Some sub)) (keys_net_id keys)
          (iv_index n) with
  | inl _ => sub
  | inr auth => set_beacon (fun b => b <| beacon_auth := auth |>) sub
  end.

(** [subnet_evt] of [beacon.c], for the events of the subnets. *)
Fixpoint beacons_deliver (evts : list subnet_event) (n : bt_mesh_net) : bt_mesh_net :=
  match evts with
  | [] => n
  | EvSubnet _ BT_MESH_KEY_DELETED :: evts => beacons_deliver evts n
  | EvSubnet net_idx _ :: evts =>
      beacons_deliver evts
        match bt_mesh_subnet_get net_idx (net_subnets n) with
        | Some i => n <| net_subnets := alter_sub (bt_mesh_beacon_update n) i (net_subnets n) |>
        | None => n
        end
  | _ :: evts => beacons_deliver evts n
  end.

(** The subnets after a key refresh; the application keys and the beacons hear of its
    events.  It deletes no application key, so that the models hear nothing. *)
Definition subnets_refresh (f : subnets -> subnets) : MESH unit :=
  old ← gets (fun t => net_subnets (tr_net t));
  let new := f old in
  let evts := drop (length (sub_log old)) (sub_log new) in
  _ ← set_net (fun n => beacons_deliver evts (n <| net_subnets := new |>));
  modify (fun t => t <| tr_apps := deliver evts (tr_apps t) |>).

(** A beacon authenticated by the key [new_key] of the subnet [i]. *)
Definition secure_beacon_apply (data : bytes) (i : nat) (new_key : bool) : MESH unit :=
  let params := beacon_params_of data in
  sub ← gets (fun t => subs (net_subnets (tr_net t)) !! i);
  sub ← need sub;
  if (sub_kr_phase sub =? BT_MESH_KR_PHASE_2) && negb new_key then mret tt
  else
    _ ← set_subnet (cache_add data) i;
    _ ← subnets_refresh (bt_mesh_kr_update i (BT_MESH_KEY_REFRESH (bp_flags params)) new_key);
    primary ← gets (fun t => bool_decide (is_Some (bt_mesh_subnet_get BT_MESH_KEY_PRIMARY (net_subnets (tr_net t)))));
    if primary && negb (sub_net_idx sub =? BT_MESH_KEY_PRIMARY) then update_stats i
    else
      busy ← gets bt_mesh_tx_in_progress;
      _ ← set_net (fun n =>
            if ivu_initiator n && Bool.eqb (ivu_in_progress n) (BT_MESH_IV_UPDATE (bp_flags params))
            then bt_mesh_beacon_ivu_initiator false n else n);
      _ ← set_net (fun n => snd (bt_mesh_net_iv_update config_proxy config_friend config_cdb busy (bp_iv_index params)
                                   (BT_MESH_IV_UPDATE (bp_flags params)) n));
      update_stats i.

Definition secure_beacon_recv (data : bytes) : MESH unit :=
  if (length data <? 21)%nat then mret tt
  else
    cached ← gets (fun t => bt_mesh_subnet_find (Some (cache_check data)) (net_subnets (tr_net t)));
    match cached with
    | Some i => update_stats i
    | None =>
        found ← gets (fun t => find_by_id (beacon_params_of data) 0 (subs (net_subnets (tr_net t))));
        found ← need found;
        match found with
        | None => mret tt
        | Some (i, new_key) => secure_beacon_apply data i new_key
        end
    end.

Definition bt_mesh_beacon_recv (prov : prov_beacon) (buf : bytes) : MESH unit :=
  match buf with
  | [] => mret tt
  | type :: buf =>
      if type =? BEACON_TYPE_UNPROVISIONED then when config_pb_adv (unprovisioned_beacon_recv prov buf)
      else if type =? BEACON_TYPE_SECURE then secure_beacon_recv buf
      else mret tt
  end.

Definition subnet_beacon_enable (n : bt_mesh_net) (sub : bt_mesh_subnet) : bt_mesh_subnet :=
  bt_mesh_beacon_update n (set_beacon (fun b => b <| beacons_last := 0 |> <| beacons_cur := 0 |>) sub).

Definition bt_mesh_beacon_enable (now : Z) : MESH unit :=
  provisioned ← gets bt_mesh_is_provisioned;
  _ ← when provisioned (n ← gets tr_net; foreach_subnet (subnet_beacon_enable n));
  set_beacon_timer (Some now).

Definition bt_mesh_beacon_disable : MESH unit :=
  initiator ← gets (fun t => ivu_initiator (tr_net t));
  when (negb initiator) (set_beacon_timer None).

End Beacon.
