(* ===== verification/BeaconSync.v ===== *)
(** * What secure network beacons do to a node

    Only an authenticated beacon changes the IV index, the keys or the replay list; a
    node that gets the beacon of another node of its subnet follows it in the IV update
    and in the key refresh procedure. *)

From S2P Require Import Prelude ByteOrder MeshDefs Cdb NetBuf Access Rpl Ccm MeshCrypto Subnet AppKeys Net NetProps Transport TransportProps TransportOps Mesh SecureBeacon.

(** ** The state a beacon is about *)

(** A subnet without what is kept about its beacons. *)
Definition strip (sub : bt_mesh_subnet) : bt_mesh_subnet := sub <| sub_beacon := mkBeacon 0 0 0 [] [] |>.

Section Sync.
Context {cmac : Cmac} (config_proxy config_friend config_cdb config_pb_adv : bool) {G : Type}.

Abbreviation MESH := (ST (trans (mesh G))).
Local Abbreviation RECV := (bt_mesh_beacon_recv config_proxy config_friend config_cdb config_pb_adv).

(** The IV index and its update, the sequence number, the replay list and the keys. *)
Definition still (t t' : trans (mesh G)) : Prop :=
  let n := tr_net t in let n' := tr_net t' in
  iv_index n' = iv_index n /\ ivu_in_progress n' = ivu_in_progress n /\ ivu_pending n' = ivu_pending n /\
  ivu_initiator n' = ivu_initiator n /\ net_seq n' = net_seq n /\ net_rpl n' = net_rpl n /\
  map strip (subs (net_subnets n')) = map strip (subs (net_subnets n)).

(** A valid key of a subnet in use gives the authentication value of the beacon. *)
Definition authentic (data : bytes) (t : trans (mesh G)) : Prop :=
  let p := beacon_params_of data in
  exists i sub b, subs (net_subnets (tr_net t)) !! i = Some sub /\ sub_net_idx sub <> BT_MESH_KEY_UNUSED /\
    keys_valid (sub_keys b sub) = true /\ keys_net_id (sub_keys b sub) = bp_net_id p /\
    bt_mesh_beacon_auth (keys_beacon (sub_keys b sub)) (bp_flags p) (bp_net_id p) (bp_iv_index p) = inr (bp_auth p).

Lemma still_refl t : still t t.
Proof. by repeat split. Qed.

(** A change of one entry that a projection does not see. *)
Lemma map_alter_same {A B : Type} (g : A -> B) f i l : (forall x, g (f x) = g x) -> map g (alter f i l) = map g l.
Proof.
  intros H. revert i. induction l as [|s l IH]; intros [|i]; cbn; [done|done|by rewrite H|]. f_equal. apply IH.
Qed.

Lemma update_stats_net i (t : trans (mesh G)) Q :
  (forall s', map strip (subs s') = map strip (subs (net_subnets (tr_net t))) ->
              map beacon_cache (map sub_beacon (subs s')) = map beacon_cache (map sub_beacon (subs (net_subnets (tr_net t)))) ->
              Q tt (t <| tr_net := tr_net t <| net_subnets := s' |> |>)) ->
  wp (update_stats i) Q t.
Proof.
  intros H. unfold update_stats, set_subnet. repeat mesh_step. apply H.
  - apply map_alter_same. intros sub. by destruct (_ && _).
  - rewrite !map_map. apply map_alter_same. intros sub. by destruct (_ && _).
Qed.

(** A key refresh changes, besides the subnets, the beacons and the application keys. *)
Lemma beacons_deliver_net evts : forall n, exists s',
  beacons_deliver evts n = n <| net_subnets := s' |> /\ map strip (subs s') = map strip (subs (net_subnets n)) /\
  map beacon_cache (map sub_beacon (subs s')) = map beacon_cache (map sub_beacon (subs (net_subnets n))).
Proof.
  induction evts as [|e evts IH]; intros n; cbn [beacons_deliver]; [exists (net_subnets n); by destruct n|].
  destruct e as [net_idx evt| | | | |]; try apply IH.
  assert (exists s', beacons_deliver evts (match bt_mesh_subnet_get net_idx (net_subnets n) with
            | Some i => n <| net_subnets := alter_sub (bt_mesh_beacon_update n) i (net_subnets n) |> | None => n end) = n <| net_subnets := s' |> /\
          map strip (subs s') = map strip (subs (net_subnets n)) /\
          map beacon_cache (map sub_beacon (subs s')) = map beacon_cache (map sub_beacon (subs (net_subnets n)))) as H.
  { destruct (bt_mesh_subnet_get _ _) as [i|]; [|apply IH].
    destruct (IH (n <| net_subnets := alter_sub (bt_mesh_beacon_update n) i (net_subnets n) |>)) as (s' & E & H1 & H2).
    exists s'. split; [exact E|]. split; [rewrite H1|rewrite H2]; cbn.
    - apply map_alter_same. intros sub. unfold bt_mesh_beacon_update. by destruct (bt_mesh_beacon_auth _ _ _ _).
    - rewrite !map_map. apply map_alter_same. intros sub. unfold bt_mesh_beacon_update. by destruct (bt_mesh_beacon_auth _ _ _ _). }
  by destruct evt.
Qed.

Lemma subnets_refresh_net f (t : trans (mesh G)) Q :
  (forall s' a, map strip (subs s') = map strip (subs (f (net_subnets (tr_net t)))) ->
     map beacon_cache (map sub_beacon (subs s')) = map beacon_cache (map sub_beacon (subs (f (net_subnets (tr_net t))))) ->
     Q tt (t <| tr_net := tr_net t <| net_subnets := s' |> |> <| tr_apps := a |>)) ->
  wp (subnets_refresh f) Q t.
Proof.
  intros H. unfold subnets_refresh. repeat mesh_step.
  destruct (beacons_deliver_net (drop (length (sub_log (net_subnets (tr_net t)))) (sub_log (f (net_subnets (tr_net t)))))
    (tr_net t <| net_subnets := f (net_subnets (tr_net t)) |>)) as (s' & E & H1 & H2). rewrite E. by apply H.
Qed.

(** ** Authentication *)

Lemma auth_match_ok (total : forall key sg, exists mac, bt_mesh_aes_cmac key sg = inr mac) keys p :
  exists b, auth_match keys p = Some b /\
    (b = true -> keys_net_id keys = bp_net_id p /\
       bt_mesh_beacon_auth (keys_beacon keys) (bp_flags p) (bp_net_id p) (bp_iv_index p) = inr (bp_auth p)).
Proof.
  unfold auth_match. case_bool_decide as E; cbn [negb]; [|by exists false].
  destruct (bt_mesh_beacon_auth _ _ _ _) as [err|a] eqn:Ea.
  - exfalso. unfold bt_mesh_beacon_auth, bt_mesh_aes_cmac_one, mbind, result_bind in Ea.
    destruct (total (keys_beacon keys) [[bp_flags p] ++ take 8 (keys_net_id keys) ++ sys_put_be32 (bp_iv_index p)]) as [mac Em].
    by rewrite Em in Ea.
  - eexists. split; [reflexivity|]. intros H%bool_decide_eq_true. rewrite E. by rewrite Ea, H.
Qed.

Lemma find_by_id_ok (total : forall key sg, exists mac, bt_mesh_aes_cmac key sg = inr mac) p l : forall k,
  exists o, find_by_id p k l = Some o /\
    forall j b, o = Some (j, b) -> exists i sub, j = (k + i)%nat /\ l !! i = Some sub /\ sub_net_idx sub <> BT_MESH_KEY_UNUSED /\
      keys_valid (sub_keys b sub) = true /\ keys_net_id (sub_keys b sub) = bp_net_id p /\
      bt_mesh_beacon_auth (keys_beacon (sub_keys b sub)) (bp_flags p) (bp_net_id p) (bp_iv_index p) = inr (bp_auth p).
Proof.
  induction l as [|sub l IH]; intros k; cbn [find_by_id]; [by exists None|].
  destruct (IH (S k)) as (o & Eo & Ho).
  assert (exists o', find_by_id p (S k) l = Some o' /\ forall j b, o' = Some (j, b) ->
            exists i sub', j = (k + i)%nat /\ (sub :: l) !! i = Some sub' /\ sub_net_idx sub' <> BT_MESH_KEY_UNUSED /\
              keys_valid (sub_keys b sub') = true /\ keys_net_id (sub_keys b sub') = bp_net_id p /\
              bt_mesh_beacon_auth (keys_beacon (sub_keys b sub')) (bp_flags p) (bp_net_id p) (bp_iv_index p) = inr (bp_auth p)) as Rest.
  { exists o. split; [done|]. intros j b E. destruct (Ho j b E) as (i & sub' & -> & H). exists (S i), sub'. split; [lia|done]. }
  destruct (sub_net_idx sub =? BT_MESH_KEY_UNUSED) eqn:U; [done|]. apply Z.eqb_neq in U. clear IH Eo Ho.
  destruct (auth_match_ok total (sub_key0 sub) p) as (b0 & E0 & H0). destruct (auth_match_ok total (sub_key1 sub) p) as (b1 & E1 & H1).
  unfold subnet_by_id. rewrite E0, E1. unfold mbind, option_bind.
  destruct (keys_valid (sub_key0 sub)) eqn:V0; [destruct b0|]; [|destruct (keys_valid (sub_key1 sub)) eqn:V1; [destruct b1|]..]; try done.
  all: eexists; split; [reflexivity|]; intros j b [= <- <-]; exists 0%nat, sub.
  all: split; [lia|]; split; [done|]; split; [done|]; split; [done|]; auto.
Qed.

Lemma cache_strip data sub : strip (cache_add data sub) = strip sub.
Proof. done. Qed.

(** C13: Only an authenticated beacon changes what the node knows of the network.  When
    the CMAC can be computed, handling any advertised beacon is defined; the IV index
    and its update, the sequence number, the replay list and the subnets with their keys
    stay as they are, unless it is a secure network beacon of at least 21 bytes whose
    authentication value is the one a valid key of a subnet in use gives for the flags,
    the network identifier and the IV index it carries. *)
Theorem beacon_changes_authentic prov buf t :
  (forall key sg, exists mac, bt_mesh_aes_cmac key sg = inr mac) ->
  exists t', RECV prov buf t = Some (tt, t') /\
    (still t t' \/ exists data, buf = BEACON_TYPE_SECURE :: data /\ (21 <= length data)%nat /\ authentic data t).
Proof.
  intros total.
  enough (wp (RECV prov buf) (fun _ t' =>
            still t t' \/ exists data, buf = BEACON_TYPE_SECURE :: data /\ (21 <= length data)%nat /\ authentic data t) t)
    as ([] & t' & H) by eauto.
  unfold bt_mesh_beacon_recv. destruct buf as [|type data]; [mesh_step; left; apply still_refl|].
  wp_if; [|wp_if; [|mesh_step; left; apply still_refl]].
  { unfold unprovisioned_beacon_recv. apply wp_when; intros _; [|left; apply still_refl]. wp_if; [mesh_step; left; apply still_refl|].
    apply wp_when; intros _; [mesh_step|]; left; by repeat split. }
  zbool. subst type. unfold secure_beacon_recv. destruct (Nat.ltb_spec (length data) 21); [mesh_step; left; apply still_refl|].
  mesh_step. mesh_step. destruct (bt_mesh_subnet_find _ _) as [i|].
  { apply update_stats_net. intros s' Hs _. left. by repeat split. }
  mesh_step. mesh_step. mesh_step.
  destruct (find_by_id_ok total (beacon_params_of data) (subs (net_subnets (tr_net t))) 0) as (o & Eo & Ho).
  eapply wp_need; [exact Eo|]. destruct o as [[i b]|]; [|mesh_step; left; apply still_refl].
  destruct (Ho i b eq_refl) as (i' & sub & -> & Ls & Ha).
  apply (wp_mono _ (fun _ _ => True)); [|intros ? ? _; right; exists data; split; [done|]; split; [lia|]; by exists i', sub, b].
  unfold secure_beacon_apply. mesh_step. mesh_step. mesh_step. eapply wp_need; [exact Ls|].
  wp_if; [by mesh_step|]. unfold set_subnet. repeat mesh_step. apply subnets_refresh_net. intros s' a _ _. repeat mesh_step.
  wp_if; [by apply update_stats_net|]. repeat mesh_step. by apply update_stats_net.
Qed.

(** ** Following another node *)

(** The sender [n], its subnet [sub] with an up-to-date authentication value. *)
Definition beacon_of (n : bt_mesh_net) (sub : bt_mesh_subnet) : bytes := bt_mesh_beacon_create n (bt_mesh_beacon_update n sub).

(** The receiver has the sender's key in slot [b] of its primary subnet [i], and no
    subnet or key looked at before it has the same network identifier. *)
Record hears (n : bt_mesh_net) (sub : bt_mesh_subnet) (i : nat) (r : bt_mesh_subnet) (b : bool) (t : trans (mesh G)) : Prop := {
  hears_sub : subs (net_subnets (tr_net t)) !! i = Some r;
  hears_primary : sub_net_idx r = BT_MESH_KEY_PRIMARY;
  hears_valid : keys_valid (sub_keys b r) = true;
  hears_id : keys_net_id (sub_keys b r) = keys_net_id (tx_keys sub);
  hears_key : keys_beacon (sub_keys b r) = keys_beacon (tx_keys sub);
  hears_first j r' b' : (j < i)%nat -> subs (net_subnets (tr_net t)) !! j = Some r' -> keys_net_id (sub_keys b' r') <> keys_net_id (tx_keys sub);
  hears_new : b = true -> keys_net_id (sub_key0 r) <> keys_net_id (tx_keys sub);
  hears_phase : sub_kr_phase r = BT_MESH_KR_PHASE_2 -> b = true;
  hears_fresh j r' : subs (net_subnets (tr_net t)) !! j = Some r' -> beacon_cache (sub_beacon r') <> drop 1 (beacon_of n sub);
}.

(** The IV state of [s] is one the node [n] accepts in its own: the same one, the start
    or the end of an update after 96 hours in the old state, or one it recovers to. *)
Definition can_follow (busy : bool) (n s : bt_mesh_net) : Prop :=
  0 <= iv_index n /\ iv_index n + 42 < 2 ^ 32 /\
  ((iv_index s = iv_index n /\ ivu_in_progress s = ivu_in_progress n) \/
   (ivu_in_progress n = false /\ ivu_in_progress s = true /\ iv_index s = iv_index n + 1 /\ 96 <= ivu_duration n) \/
   (ivu_in_progress n = true /\ ivu_in_progress s = false /\ iv_index s = iv_index n /\ 96 <= ivu_duration n /\ busy = false) \/
   (ivu_in_progress n = false /\ iv_index n + 1 < iv_index s <= iv_index n + 42)).

Lemma iv_follows busy n s :
  can_follow busy n s ->
  let n' := snd (bt_mesh_net_iv_update config_proxy config_friend config_cdb busy (iv_index s) (ivu_in_progress s) n) in
  iv_index n' = iv_index s /\ ivu_in_progress n' = ivu_in_progress s /\ net_subnets n' = net_subnets n.
Proof.
  intros (Hn & Hm & H). unfold bt_mesh_net_iv_update.
  assert (u32 (iv_index n + 42) = iv_index n + 42) as -> by (apply u32_id; unfold is_u32; lia).
  assert (u32 (iv_index n + 1) = iv_index n + 1) as -> by (apply u32_id; unfold is_u32; lia).
  destruct H as [(E & P)|[(P & P' & E & D)|[(P & P' & E & D & ->)|(P & E)]]].
  - rewrite E, P, Z.eqb_refl. cbn [negb]. destruct (ivu_in_progress n) eqn:I; by rewrite ?I.
  - rewrite P, P', E. rewrite (proj2 (Z.eqb_neq _ _)), (proj2 (Z.ltb_ge (iv_index n + 1) (iv_index n))),
      (proj2 (Z.ltb_ge (iv_index n + 42) _)), (proj2 (Z.ltb_ge (iv_index n + 1) (iv_index n + 1))) by lia.
    cbn [orb negb andb]. rewrite andb_false_r, (proj2 (Z.ltb_ge (ivu_duration n) _)) by (unfold BT_MESH_IVU_MIN_HOURS; lia). done.
  - rewrite P, P', E, Z.eqb_refl. cbn [negb andb]. by rewrite (proj2 (Z.ltb_ge (ivu_duration n) _)) by (unfold BT_MESH_IVU_MIN_HOURS; lia).
  - rewrite P, (proj2 (Z.eqb_neq _ _)), (proj2 (Z.ltb_ge (iv_index s) (iv_index n))),
      (proj2 (Z.ltb_ge (iv_index n + 42) _)), (proj2 (Z.ltb_lt (iv_index n + 1) _)) by lia.
    cbn [orb snd]. by destruct (ivu_in_progress s).
Qed.

(** The receiver's subnet after a beacon secured with its key [b], with the key refresh
    flag [kr]: a new key in use takes an unfinished key refresh to phase 2, or to its end. *)
Definition refreshed (b kr : bool) (r : bt_mesh_subnet) : bt_mesh_subnet :=
  if b && ((sub_kr_phase r =? BT_MESH_KR_PHASE_1) || (sub_kr_phase r =? BT_MESH_KR_PHASE_2)) then
    if kr then r <| sub_kr_phase := BT_MESH_KR_PHASE_2 |>
    else r <| sub_kr_phase := BT_MESH_KR_NORMAL |> <| sub_key0 := sub_key1 r |>
           <| sub_key1 := (sub_key1 r) <| keys_valid := false |> |>
  else r.

Lemma phase_set (r : bt_mesh_subnet) p : sub_kr_phase r = p -> r <| sub_kr_phase := p |> = r.
Proof. destruct r; cbn. by intros <-. Qed.

Lemma kr_follows i b kr s r :
  subs s !! i = Some r -> subs (bt_mesh_kr_update i kr b s) = <[i := refreshed b kr r]> (subs s).
Proof.
  intros H. unfold bt_mesh_kr_update, refreshed. rewrite H. pose proof (list_insert_id _ _ _ H) as Same.
  destruct b; cbn [negb andb]; [|done].
  destruct (Z.eqb_spec (sub_kr_phase r) BT_MESH_KR_PHASE_1) as [E|N1]; cbn [orb].
  - unfold key_refresh. rewrite H, E. destruct kr; cbn; by rewrite (alter_lookup_insert _ _ _ _ H).
  - destruct (Z.eqb_spec (sub_kr_phase r) BT_MESH_KR_PHASE_2) as [E|N2]; cbn [andb]; [|done].
    destruct kr; cbn [negb]; [by rewrite phase_set|]. unfold key_refresh. rewrite H, E. cbn. by rewrite (alter_lookup_insert _ _ _ _ H).
Qed.

Lemma flags_parts n sub :
  let f := bt_mesh_net_flags (ivu_in_progress n) (Some sub) in
  BT_MESH_IV_UPDATE f = ivu_in_progress n /\ BT_MESH_KEY_REFRESH f = (sub_kr_phase sub =? BT_MESH_KR_PHASE_2).
Proof. unfold bt_mesh_net_flags. by destruct (_ =? _), (ivu_in_progress n). Qed.

Lemma length_beacon_auth {cmac_ok : CmacOk} key flags id iv auth : bt_mesh_beacon_auth key flags id iv = inr auth -> length auth = 8%nat.
Proof.
  unfold bt_mesh_beacon_auth, bt_mesh_aes_cmac_one, mbind, result_bind. destruct (bt_mesh_aes_cmac _ _) as [|mac] eqn:E; [done|].
  intros [= <-]. rewrite length_take, (proj1 (cmac_result _ _ _ E)). done.
Qed.

(** The beacon as the receiver reads it. *)
Lemma beacon_of_params n sub auth :
  is_u32 (iv_index n) -> length (keys_net_id (tx_keys sub)) = 8%nat ->
  bt_mesh_beacon_auth (keys_beacon (tx_keys sub)) (bt_mesh_net_flags (ivu_in_progress n) (Some sub))
    (keys_net_id (tx_keys sub)) (iv_index n) = inr auth -> length auth = 8%nat ->
  exists data, beacon_of n sub = BEACON_TYPE_SECURE :: data /\ length data = 21%nat /\
    beacon_params_of data = mkParams (keys_net_id (tx_keys sub)) auth (iv_index n) (bt_mesh_net_flags (ivu_in_progress n) (Some sub)).
Proof.
  intros Hi Hl Ha Hal. unfold beacon_of, bt_mesh_beacon_create, bt_mesh_beacon_update. rewrite Ha.
  change (tx_keys (set_beacon _ sub)) with (tx_keys sub). change (bt_mesh_net_flags _ (Some (set_beacon _ sub)))
    with (bt_mesh_net_flags (ivu_in_progress n) (Some sub)).
  cbn [sub_beacon set_beacon beacon_auth]. change (beacon_auth _) with auth. rewrite (take_ge auth), (take_ge (keys_net_id _)) by lia.
  set (id := keys_net_id (tx_keys sub)) in *. eexists. split; [reflexivity|]. split; [cbn [app length]; rewrite !length_app, Hl, Hal; done|].
  unfold beacon_params_of. cbn [drop]. f_equal.
  - by rewrite drop_0, take_app_length'.
  - rewrite drop_app_ge by (rewrite Hl; lia). rewrite Hl. cbn [Nat.sub]. change (drop 4 _) with (drop 0 auth). by rewrite drop_0, take_ge by lia.
  - rewrite drop_app_ge by (rewrite Hl; lia). rewrite Hl. cbn [Nat.sub]. rewrite drop_0. by rewrite get_put_be32.
Qed.

Lemma find_by_id_hit p l r b : forall i k,
  l !! i = Some r -> sub_net_idx r <> BT_MESH_KEY_UNUSED -> keys_valid (sub_keys b r) = true ->
  keys_net_id (sub_keys b r) = bp_net_id p ->
  bt_mesh_beacon_auth (keys_beacon (sub_keys b r)) (bp_flags p) (bp_net_id p) (bp_iv_index p) = inr (bp_auth p) ->
  (forall j r' b', (j < i)%nat -> l !! j = Some r' -> keys_net_id (sub_keys b' r') <> bp_net_id p) ->
  (b = true -> keys_net_id (sub_key0 r) <> bp_net_id p) ->
  find_by_id p k l = Some (Some ((k + i)%nat, b)).
Proof.
  assert (forall keys, keys_net_id keys <> bp_net_id p -> auth_match keys p = Some false) as Miss.
  { intros keys H. unfold auth_match. by rewrite bool_decide_false. }
  induction l as [|sub l IH]; intros i k Hl Hu Hv Hi Ha Hf Hn; [done|]. cbn [find_by_id]. destruct i as [|i].
  - injection Hl as ->. rewrite (proj2 (Z.eqb_neq _ _)) by done. rewrite Nat.add_0_r.
    assert (auth_match (sub_keys b r) p = Some true) as Hit.
    { unfold auth_match. rewrite bool_decide_true by done. cbn [negb]. rewrite Hi, Ha. by rewrite bool_decide_true. }
    unfold subnet_by_id. destruct b; cbn [sub_keys] in *.
    + rewrite (Miss _ (Hn eq_refl)), Hv, Hit. by destruct (keys_valid (sub_key0 r)).
    + by rewrite Hv, Hit.
  - specialize (IH i (S k) Hl Hu Hv Hi Ha). rewrite <- Nat.add_succ_comm. rewrite <- IH; [|intros j r' b' Hj; by apply (Hf (S j) r'); lia|done].
    pose proof (Miss _ (Hf 0%nat sub false ltac:(lia) eq_refl)) as M0. pose proof (Miss _ (Hf 0%nat sub true ltac:(lia) eq_refl)) as M1.
    cbn [sub_keys] in M0, M1. destruct (_ =? _); [done|]. unfold subnet_by_id. rewrite M0, M1.
    by destruct (keys_valid (sub_key0 sub)), (keys_valid (sub_key1 sub)).
Qed.

Lemma not_cached n sub i r b t data :
  hears n sub i r b t -> beacon_of n sub = BEACON_TYPE_SECURE :: data -> length data = 21%nat ->
  bt_mesh_subnet_find (Some (cache_check data)) (net_subnets (tr_net t)) = None.
Proof.
  intros H E L. apply find_index_None, list.Forall_forall. intros r' (j & Hj)%list_elem_of_lookup.
  apply andb_false_iff. right. apply bool_decide_eq_false. rewrite take_ge by lia.
  pose proof (hears_fresh _ _ _ _ _ _ H j r' Hj) as F. by rewrite E in F.
Qed.

(** The initiator flag has no part in the IV state. *)
Definition initiator_done (c : bool) (n : bt_mesh_net) : bt_mesh_net := if c then bt_mesh_beacon_ivu_initiator false n else n.

Lemma initiator_done_iv c n :
  let n' := initiator_done c n in
  iv_index n' = iv_index n /\ ivu_in_progress n' = ivu_in_progress n /\ ivu_duration n' = ivu_duration n /\ net_subnets n' = net_subnets n.
Proof. unfold initiator_done, bt_mesh_beacon_ivu_initiator. destruct c; [|done]. cbn. by destruct (flag_beacon n). Qed.

(** What handling an authenticated beacon comes to: the key refresh, then the IV update
    from a state [nx] that differs from the old one in nothing the update looks at. *)
Definition applied (n : bt_mesh_net) (sub : bt_mesh_subnet) (i : nat) (r : bt_mesh_subnet) (b : bool) (data : bytes) (t t' : trans (mesh G)) : Prop :=
  exists nx s',
    let n' := snd (bt_mesh_net_iv_update config_proxy config_friend config_cdb (bt_mesh_tx_in_progress t) (iv_index n) (ivu_in_progress n) nx) in
    iv_index nx = iv_index (tr_net t) /\ ivu_in_progress nx = ivu_in_progress (tr_net t) /\ ivu_duration nx = ivu_duration (tr_net t) /\
    let l := <[i := refreshed b (sub_kr_phase sub =? BT_MESH_KR_PHASE_2) (cache_add data r)]> (alter (cache_add data) i (subs (net_subnets (tr_net t)))) in
    map strip (subs (net_subnets nx)) = map strip l /\
    map beacon_cache (map sub_beacon (subs (net_subnets nx))) = map beacon_cache (map sub_beacon l) /\
    tr_net t' = n' <| net_subnets := s' |> /\
    map strip (subs s') = map strip (subs (net_subnets n')) /\
    map beacon_cache (map sub_beacon (subs s')) = map beacon_cache (map sub_beacon (subs (net_subnets n'))).

Lemma apply_runs n sub i r b t data :
  hears n sub i r b t ->
  bp_iv_index (beacon_params_of data) = iv_index n -> bp_flags (beacon_params_of data) = bt_mesh_net_flags (ivu_in_progress n) (Some sub) ->
  wp (secure_beacon_apply config_proxy config_friend config_cdb data i b) (fun _ t' => applied n sub i r b data t t') t.
Proof.
  intros H Hi Hf. destruct (flags_parts n sub) as [F1 F2]. pose proof (hears_sub _ _ _ _ _ _ H) as Ls.
  unfold secure_beacon_apply. rewrite Hi, Hf, F1, F2. repeat mesh_step. eapply wp_need; [exact Ls|].
  assert ((sub_kr_phase r =? BT_MESH_KR_PHASE_2) && negb b = false) as ->.
  { destruct (Z.eqb_spec (sub_kr_phase r) BT_MESH_KR_PHASE_2) as [E|]; [|done]. by rewrite (hears_phase _ _ _ _ _ _ H E). }
  unfold set_subnet. repeat mesh_step. apply subnets_refresh_net. intros s1 a Hk Hk'. cbn [tr_net] in Hk, Hk'.
  rewrite kr_follows with (r := cache_add data r) in Hk, Hk' by (cbn; by rewrite list_lookup_alter_eq, Ls).
  repeat mesh_step. rewrite (hears_primary _ _ _ _ _ _ H), Z.eqb_refl. cbn [negb]. rewrite andb_false_r.
  repeat mesh_step. apply update_stats_net. intros s' Hs Hs'.
  match type of Hs with context [snd (bt_mesh_net_iv_update _ _ _ _ _ _ ?x)] => exists x, s' end.
  destruct (initiator_done_iv (ivu_initiator (tr_net t) && Bool.eqb (ivu_in_progress (tr_net t)) (ivu_in_progress n))
      (tr_net t <| net_subnets := s1 |>)) as (Y1 & Y2 & Y3 & Y4).
  split; [exact Y1|]. split; [exact Y2|]. split; [exact Y3|].
  split; [|split; [|split; [reflexivity|split; [exact Hs|exact Hs']]]].
  - etransitivity; [|exact Hk]. apply f_equal, f_equal. exact Y4.
  - etransitivity; [|exact Hk']. do 3 apply f_equal. exact Y4.
Qed.

Lemma applied_follows n sub i r b data t t' :
  hears n sub i r b t -> can_follow (bt_mesh_tx_in_progress t) (tr_net t) n -> applied n sub i r b data t t' ->
  iv_index (tr_net t') = iv_index n /\ ivu_in_progress (tr_net t') = ivu_in_progress n /\
  exists r', subs (net_subnets (tr_net t')) !! i = Some r' /\
    strip r' = strip (refreshed b (sub_kr_phase sub =? BT_MESH_KR_PHASE_2) r).
Proof.
  intros H Hc (nx & s' & X1 & X2 & X3 & X4 & _ & Hn & Hs & _). pose proof (hears_sub _ _ _ _ _ _ H) as Ls.
  destruct (iv_follows (bt_mesh_tx_in_progress t) nx n) as (Z1 & Z2 & Z3); [unfold can_follow in *; by rewrite X1, X2, X3|].
  rewrite Hn. split; [exact Z1|]. split; [exact Z2|]. rewrite Z3, X4 in Hs.
  assert (map strip (subs s') !! i = Some (strip (refreshed b (sub_kr_phase sub =? BT_MESH_KR_PHASE_2) r))) as Hl.
  { rewrite Hs, list_lookup_fmap, list_lookup_insert_eq by (rewrite length_alter; by eapply lookup_lt_Some).
    cbn. f_equal. unfold refreshed. cbn. by destruct (_ && _), (_ =? _). }
  rewrite list_lookup_fmap in Hl. change (subs (net_subnets (_ <| net_subnets := s' |>))) with (subs s').
  destruct (subs s' !! i) as [r'|]; [|done]. exists r'. split; [done|]. cbn in Hl. congruence.
Qed.

(** Up to the authenticated part. *)
Lemma recv_applies prov n sub auth i r b t data :
  hears n sub i r b t -> beacon_of n sub = BEACON_TYPE_SECURE :: data -> length data = 21%nat ->
  bt_mesh_beacon_auth (keys_beacon (tx_keys sub)) (bt_mesh_net_flags (ivu_in_progress n) (Some sub))
    (keys_net_id (tx_keys sub)) (iv_index n) = inr auth ->
  beacon_params_of data = mkParams (keys_net_id (tx_keys sub)) auth (iv_index n) (bt_mesh_net_flags (ivu_in_progress n) (Some sub)) ->
  wp (RECV prov (beacon_of n sub)) (fun _ t' => applied n sub i r b data t t') t.
Proof.
  intros H Ed Ld Ha Hp.
  rewrite Ed. unfold bt_mesh_beacon_recv. change (BEACON_TYPE_SECURE =? BEACON_TYPE_UNPROVISIONED) with false. rewrite Z.eqb_refl.
  unfold secure_beacon_recv. rewrite Ld. change (21 <? 21)%nat with false. cbv iota.
  mesh_step. mesh_step. rewrite (not_cached _ _ _ _ _ _ _ H Ed Ld). cbv iota. mesh_step. mesh_step. mesh_step.
  eapply wp_need.
  { rewrite Hp. apply (find_by_id_hit _ _ r b i 0); cbn [bp_net_id bp_flags bp_iv_index bp_auth]; try apply H.
    - by rewrite (hears_primary _ _ _ _ _ _ H).
    - by rewrite (hears_key _ _ _ _ _ _ H). }
  apply (apply_runs n sub); [done|by rewrite Hp..].
Qed.

(** C12: A node follows the beacons of another node of its primary subnet.  The receiver
    has the key the sender sends with, as its new one if it is itself in phase 2 of a key
    refresh; no key it looks at before that one has the same network identifier; no
    subnet has the beacon in its cache; and its IV state is one from which the sender's
    can be reached: the same one; normal operation for 96 hours, when the sender is in
    the update to the next index; an update for 96 hours with no segmented message being
    sent, when the sender has left it; or normal operation with an index that is 2 to 42
    behind.  Handling the beacon the sender creates is then defined, and leaves the
    receiver with the sender's IV index and in the sender's IV update state; a receiver
    in a key refresh that has the key as its new one is in phase 2 afterwards when the
    sender is, and otherwise uses the new key only. *)
Theorem beacon_followed {cmac_ok : CmacOk} prov n sub auth i r b t :
  is_u32 (iv_index n) -> length (keys_net_id (tx_keys sub)) = 8%nat ->
  bt_mesh_beacon_auth (keys_beacon (tx_keys sub)) (bt_mesh_net_flags (ivu_in_progress n) (Some sub))
    (keys_net_id (tx_keys sub)) (iv_index n) = inr auth ->
  hears n sub i r b t -> can_follow (bt_mesh_tx_in_progress t) (tr_net t) n ->
  exists t' r', RECV prov (beacon_of n sub) t = Some (tt, t') /\
    iv_index (tr_net t') = iv_index n /\ ivu_in_progress (tr_net t') = ivu_in_progress n /\
    subs (net_subnets (tr_net t')) !! i = Some r' /\
    strip r' = strip (refreshed b (sub_kr_phase sub =? BT_MESH_KR_PHASE_2) r).
Proof.
  intros Hi Hl Ha H Hc. pose proof (length_beacon_auth _ _ _ _ _ Ha) as La.
  destruct (beacon_of_params n sub auth Hi Hl Ha La) as (data & Ed & Ld & Hp).
  destruct (recv_applies prov n sub auth i r b t data H Ed Ld Ha Hp) as ([] & t' & E & A).
  destruct (applied_follows _ _ _ _ _ _ _ _ H Hc A) as (H1 & H2 & r' & H3 & H4). by exists t', r'.
Qed.

Definition caches (t : trans (mesh G)) : list bytes := map beacon_cache (map sub_beacon (subs (net_subnets (tr_net t)))).

(** A beacon that is in the cache of a subnet in use only counts. *)
Lemma cached_ignored prov data t i r :
  length data = 21%nat -> subs (net_subnets (tr_net t)) !! i = Some r -> sub_net_idx r <> BT_MESH_KEY_UNUSED ->
  beacon_cache (sub_beacon r) = data ->
  wp (RECV prov (BEACON_TYPE_SECURE :: data)) (fun _ t' => still t t' /\ caches t' = caches t) t.
Proof.
  intros Ld Ls Hu Hc. unfold bt_mesh_beacon_recv. change (BEACON_TYPE_SECURE =? BEACON_TYPE_UNPROVISIONED) with false. rewrite Z.eqb_refl.
  unfold secure_beacon_recv. rewrite Ld. change (21 <? 21)%nat with false. cbv iota. mesh_step. mesh_step.
  destruct (bt_mesh_subnet_find _ _) as [j|] eqn:E.
  - apply update_stats_net. intros s' Hs Hb. by repeat split.
  - exfalso. apply find_index_None in E. rewrite list.Forall_forall in E. specialize (E r ltac:(by eapply list_elem_of_lookup_2)).
    rewrite (proj2 (Z.eqb_neq _ _) Hu) in E. cbn [negb andb] in E. apply bool_decide_eq_false in E. rewrite take_ge in E by lia. done.
Qed.

Lemma refused_same busy n iv :
  ivu_in_progress n = false -> iv = iv_index n + 1 -> is_u32 iv -> ivu_duration n < 96 ->
  snd (bt_mesh_net_iv_update config_proxy config_friend config_cdb busy iv true n) = n.
Proof.
  intros P E Hu Hd. unfold bt_mesh_net_iv_update. rewrite P, <- E, (u32_id iv) by done.
  rewrite (proj2 (Z.eqb_neq _ _)) by lia. destruct (_ || _); [done|]. rewrite Z.ltb_irrefl. cbn [negb]. rewrite andb_false_r.
  by rewrite (proj2 (Z.ltb_lt (ivu_duration n) _)) by (unfold BT_MESH_IVU_MIN_HOURS; lia).
Qed.

(** The node is in normal operation at the index [iv], and the beacon is in the cache of
    its primary subnet. *)
Definition stuck (iv : Z) (data : bytes) (t : trans (mesh G)) : Prop :=
  iv_index (tr_net t) = iv /\ ivu_in_progress (tr_net t) = false /\
  exists i r, subs (net_subnets (tr_net t)) !! i = Some r /\ sub_net_idx r = BT_MESH_KEY_PRIMARY /\
    beacon_cache (sub_beacon r) = data.

(** The beacon comes again and again, [hours] being the hours counted each time. *)
Fixpoint comes_again (prov : prov_beacon) (pkt : bytes) (hours : list Z) : ST (trans (mesh G)) unit :=
  match hours with
  | [] => mret tt
  | h :: hours =>
      _ ← modify (fun t => t <| tr_net := tr_net t <| ivu_duration := h |> |>);
      _ ← RECV prov pkt;
      comes_again prov pkt hours
  end.

Lemma stuck_again prov iv data hours t :
  length data = 21%nat -> stuck iv data t -> wp (comes_again prov (BEACON_TYPE_SECURE :: data) hours) (fun _ => stuck iv data) t.
Proof.
  intros Ld. revert t. induction hours as [|h hours IH]; intros t (Hi & Hp & i & r & Ls & Hu & Hc); [by apply wp_ret; split_and!; [..|exists i, r]|].
  cbn [comes_again]. apply wp_bind. mesh_step. apply wp_bind.
  set (t0 := t <| tr_net := _ |>).
  apply (wp_mono _ (fun _ t' => still t0 t' /\ caches t' = caches t0)); [apply (cached_ignored prov data t0 i r Ld Ls); [by rewrite Hu|done]|].
  intros [] t' [(S1 & S2 & _ & _ & _ & _ & Hs) Hb]. apply IH. split; [by rewrite S1|]. split; [by rewrite S2|].
  change (map strip (subs (net_subnets (tr_net t'))) = map strip (subs (net_subnets (tr_net t)))) in Hs.
  change (caches t' = caches t) in Hb. unfold caches in Hb. rewrite !map_map in Hb.
  apply (f_equal (fun l => l !! i)) in Hs, Hb. rewrite !list_lookup_fmap, Ls in Hs. rewrite !list_lookup_fmap, Ls in Hb.
  destruct (subs (net_subnets (tr_net t')) !! i) as [r'|] eqn:L'; [|done]. cbn in Hs, Hb. exists i, r'. split; [done|].
  injection Hs as Hs _ _ _ _. injection Hb as Hb. split; congruence.
Qed.

(** A beacon with an IV update that is refused for its time is in the cache afterwards. *)
Lemma refused_stuck n sub i r b data t t' :
  hears n sub i r b t -> length data = 21%nat -> is_u32 (iv_index n) ->
  ivu_in_progress n = true -> ivu_in_progress (tr_net t) = false -> iv_index n = iv_index (tr_net t) + 1 -> ivu_duration (tr_net t) < 96 ->
  applied n sub i r b data t t' -> stuck (iv_index (tr_net t)) data t'.
Proof.
  intros H Ld Hi Pn Pt Ei Hd (nx & s' & X1 & X2 & X3 & X4 & X5 & Hn & Hs & Hc).
  pose proof (refused_same (bt_mesh_tx_in_progress t) nx (iv_index n) ltac:(congruence) ltac:(congruence) Hi ltac:(congruence)) as Hr.
  rewrite Pn, Hr in Hn, Hs, Hc. rewrite X4 in Hs. rewrite X5 in Hc. pose proof (hears_sub _ _ _ _ _ _ H) as Ls.
  assert (i < length (alter (cache_add data) i (subs (net_subnets (tr_net t)))))%nat as Hlt by (rewrite length_alter; by eapply lookup_lt_Some).
  unfold stuck. rewrite Hn. split; [exact X1|]. split; [by rewrite <- Pt|]. exists i.
  change (net_subnets (_ <| net_subnets := s' |>)) with s'.
  rewrite !map_map in Hc. apply (f_equal (fun l => l !! i)) in Hs, Hc.
  rewrite !list_lookup_fmap, list_lookup_insert_eq in Hs by done. rewrite !list_lookup_fmap, list_lookup_insert_eq in Hc by done.
  destruct (subs s' !! i) as [r'|]; [|done]. cbn in Hs, Hc. exists r'. split; [done|].
  injection Hs as Hs _ _ _ _. injection Hc as Hc. split.
  - etransitivity; [exact Hs|]. unfold refreshed. cbn. pose proof (hears_primary _ _ _ _ _ _ H). by destruct (_ && _), (_ =? _).
  - rewrite Hc. transitivity (take 21 data); [|apply take_ge; lia]. unfold refreshed. by destruct (_ && _), (_ =? _).
Qed.

(** C39: A node that refuses the start of an IV update because it comes too early does
    not take it from the repetitions of that beacon.  The beacon goes into the subnet's
    cache before the 96 hours are checked, so that however often it comes again and
    however many hours have been counted each time, it only counts: the node stays in
    normal operation with the old IV index.  This lasts as long as the subnet hears
    nothing else: the cache has one entry, and a different beacon replaces it. *)
Theorem refused_beacon_stays_refused {cmac_ok : CmacOk} prov n sub auth i r b t :
  is_u32 (iv_index n) -> length (keys_net_id (tx_keys sub)) = 8%nat ->
  bt_mesh_beacon_auth (keys_beacon (tx_keys sub)) (bt_mesh_net_flags (ivu_in_progress n) (Some sub))
    (keys_net_id (tx_keys sub)) (iv_index n) = inr auth ->
  hears n sub i r b t ->
  ivu_in_progress n = true -> ivu_in_progress (tr_net t) = false -> iv_index n = iv_index (tr_net t) + 1 -> ivu_duration (tr_net t) < 96 ->
  exists t1, RECV prov (beacon_of n sub) t = Some (tt, t1) /\
    forall hours, exists t2, comes_again prov (beacon_of n sub) hours t1 = Some (tt, t2) /\
      iv_index (tr_net t2) = iv_index (tr_net t) /\ ivu_in_progress (tr_net t2) = false.
Proof.
  intros Hi Hl Ha H Pn Pt Ei Hd. pose proof (length_beacon_auth _ _ _ _ _ Ha) as La.
  destruct (beacon_of_params n sub auth Hi Hl Ha La) as (data & Ed & Ld & Hp).
  destruct (recv_applies prov n sub auth i r b t data H Ed Ld Ha Hp) as ([] & t1 & E & A).
  exists t1. split; [exact E|]. intros hours. rewrite Ed.
  destruct (stuck_again prov (iv_index (tr_net t)) data hours t1 Ld) as ([] & t2 & E2 & S1 & S2 & _); [|by exists t2].
  by apply (refused_stuck n sub i r b).
Qed.
End Sync.

(** ** Example *)

(** Two nodes in a key refresh: the sender is in phase 2 and in an IV update, the
    receiver still in phase 1 and in normal operation for [hours] hours. *)
Definition keys_example (k : Z) : bt_mesh_subnet_keys :=
  mkKeys true (replicate 16 k) (keys_msg (sub_key0 subnet_zero)) (replicate 8 (k + 1)) (replicate 16 (k + 2)) (replicate 16 (k + 3)).

Definition refresh_example (phase : Z) : bt_mesh_subnet :=
  mkSubnet BT_MESH_KEY_PRIMARY phase BT_MESH_FEATURE_DISABLED (keys_example 10) (keys_example 20) (sub_beacon subnet_zero).

Definition sender_example : bt_mesh_net := node_example 4 3 true (refresh_example BT_MESH_KR_PHASE_2).
Definition receiver_example (hours : Z) : trans (mesh unit) :=
  trans_zero (mesh_zero tt) (node_example 9 2 false (refresh_example BT_MESH_KR_PHASE_1) <| ivu_duration := hours |>) apps_example.
Definition prov_beacon_example : prov_beacon := mkProvBeacon (replicate 16 1) None 0 false.

Lemma hears_example hours :
  @hears toy_cmac unit sender_example (refresh_example BT_MESH_KR_PHASE_2) 0 (refresh_example BT_MESH_KR_PHASE_1) true (receiver_example hours).
Proof.
  split; try done; try lia. intros [|[|j]] r' E; cbn in E; simplify_eq; by vm_compute.
Qed.

Lemma beacon_changes_authentic_witness :
  exists t', @bt_mesh_beacon_recv toy_cmac true true false true unit prov_beacon_example [1; 2; 3] (receiver_example 96) = Some (tt, t') /\
    (still (receiver_example 96) t' \/
     exists data, [1; 2; 3] = BEACON_TYPE_SECURE :: data /\ (21 <= length data)%nat /\ @authentic toy_cmac unit data (receiver_example 96)).
Proof. apply (@beacon_changes_authentic toy_cmac). exact toy_cmac_total. Defined.

Lemma beacon_followed_witness :
  exists t' r',
    @bt_mesh_beacon_recv toy_cmac true true false true unit prov_beacon_example
      (@beacon_of toy_cmac sender_example (refresh_example BT_MESH_KR_PHASE_2)) (receiver_example 96) = Some (tt, t') /\
    iv_index (tr_net t') = 3 /\ ivu_in_progress (tr_net t') = true /\ subs (net_subnets (tr_net t')) !! 0%nat = Some r' /\
    strip r' = strip (refresh_example BT_MESH_KR_PHASE_2).
Proof.
  eapply (@beacon_followed toy_cmac true true false true unit toy_cmac_ok prov_beacon_example sender_example
            (refresh_example BT_MESH_KR_PHASE_2) _ 0 (refresh_example BT_MESH_KR_PHASE_1) true (receiver_example 96)).
  - split; by vm_compute.
  - done.
  - vm_compute. reflexivity.
  - exact (hears_example 96).
  - split; [by vm_compute|]. split; [by vm_compute|]. right. left. repeat split; by vm_compute.
Defined.

Lemma refused_beacon_stays_refused_witness :
  let b := @beacon_of toy_cmac sender_example (refresh_example BT_MESH_KR_PHASE_2) in
  exists t1, @bt_mesh_beacon_recv toy_cmac true true false true unit prov_beacon_example b (receiver_example 24) = Some (tt, t1) /\
    forall hours, exists t2,
      @comes_again toy_cmac true true false true unit prov_beacon_example b hours t1 = Some (tt, t2) /\
      iv_index (tr_net t2) = 2 /\ ivu_in_progress (tr_net t2) = false.
Proof.
  eapply (@refused_beacon_stays_refused toy_cmac true true false true unit toy_cmac_ok prov_beacon_example sender_example
            (refresh_example BT_MESH_KR_PHASE_2) _ 0 (refresh_example BT_MESH_KR_PHASE_1) true (receiver_example 24)).
  - split; by vm_compute.
  - done.
  - vm_compute. reflexivity.
  - exact (hears_example 24).
  - done.
  - done.
  - done.
  - by vm_compute.
Defined.
