(* ===== verification/Cfg.v ===== *)
(** * Configuration of the node's features (subsys/bluetooth/mesh/cfg.c) *)

From S2P Require Import Prelude ByteOrder MeshDefs Cdb NetBuf Access Rpl Ccm MeshCrypto Subnet AppKeys Net Transport Mesh Heartbeat SecureBeacon.

Section Cfg.
Context {ecb : Ecb} {cmac : Cmac} (config_proxy config_friend config_cdb config_relay config_settings : bool).
Context (proxy_relay : bytes -> Z -> bt_mesh_net -> bool) (adv_buffer : bt_mesh_net -> bool).
Context {G : Type} {friend : FriendOps (mesh G)}.

Abbreviation MESH := (ST (trans (mesh G))).

(** The configuration is stored once the node is provisioned. *)
Definition store_cfg : MESH unit :=
  provisioned ← gets bt_mesh_is_provisioned;
  when (config_settings && provisioned) (mesh_event_log EvStoreCfg).

Definition bt_mesh_beacon_set (now : Z) (beacon : bool) : MESH unit :=
  cur ← gets (fun t => flag_beacon (tr_net t));
  if Bool.eqb cur beacon then mret tt
  else
    _ ← set_net (fun n => n <| flag_beacon := beacon |>);
    _ ← (if beacon then bt_mesh_beacon_enable now else bt_mesh_beacon_disable);
    store_cfg.

(** [feature_set] of the flag [get], written by [set]. *)
Definition feature_set (get : bt_mesh_net -> bool) (set : bool -> bt_mesh_net -> bt_mesh_net) (state : bt_mesh_feat_state)
    : MESH ret_code :=
  match state with
  | BT_MESH_FEATURE_NOT_SUPPORTED => mret (Some EINVAL)
  | _ =>
      cur ← gets (fun t => get (tr_net t));
      if Bool.eqb cur (enabled state) then mret (Some EALREADY)
      else _ ← set_net (set (enabled state)); mret None
  end.

Definition hb_feature_changed (features : Z) : MESH unit :=
  bt_mesh_hb_feature_changed config_proxy config_friend config_cdb proxy_relay adv_buffer features.

Definition bt_mesh_gatt_proxy_set (gatt_proxy : bt_mesh_feat_state) : MESH ret_code :=
  if negb config_proxy then mret (Some ENOTSUP)
  else
    err ← feature_set flag_gatt_proxy (fun v n => n <| flag_gatt_proxy := v |>) gatt_proxy;
    match err with
    | Some _ => mret err
    | None => _ ← hb_feature_changed BT_MESH_FEAT_PROXY; _ ← store_cfg; mret None
    end.

Definition bt_mesh_default_ttl_set (default_ttl : Z) : MESH ret_code :=
  if (default_ttl =? 1) || (BT_MESH_TTL_MAX <? default_ttl) then mret (Some EINVAL)
  else
    cur ← gets tr_default_ttl;
    if default_ttl =? cur then mret None
    else _ ← modify (fun t => t <| tr_default_ttl := default_ttl |>); _ ← store_cfg; mret None.

Definition bt_mesh_friend_set (friendship : bt_mesh_feat_state) : MESH ret_code :=
  if negb config_friend then mret (Some ENOTSUP)
  else
    err ← feature_set flag_friend (fun v n => n <| flag_friend := v |>) friendship;
    match err with
    | Some _ => mret err
    | None =>
        _ ← hb_feature_changed BT_MESH_FEAT_FRIEND;
        _ ← store_cfg;
        _ ← when (negb (enabled friendship)) (mesh_event_log EvFriendsClear);
        mret None
    end.

Definition bt_mesh_net_transmit_set (xmit : Z) : MESH unit :=
  cur ← gets (fun t => net_xmit (tr_net t));
  if cur =? xmit then mret tt
  else _ ← set_net (fun n => n <| net_xmit := xmit |>); store_cfg.

Definition bt_mesh_relay_set (relay : bt_mesh_feat_state) (xmit : Z) : MESH ret_code :=
  if negb config_relay then mret (Some ENOTSUP)
  else
    err ← feature_set flag_relay (fun v n => n <| flag_relay := v |>) relay;
    cur ← gets (fun t => relay_xmit (tr_net t));
    if bool_decide (err = Some EINVAL) then mret err
    else if bool_decide (err = Some EALREADY) && (cur =? xmit) then mret (Some EALREADY)
    else
      _ ← set_net (fun n => n <| relay_xmit := xmit |>);
      _ ← hb_feature_changed BT_MESH_FEAT_RELAY;
      _ ← store_cfg;
      mret None.

Definition bt_mesh_relay_retransmit_get (n : bt_mesh_net) : Z := if config_relay then relay_xmit n else 0.

(** The values of the build's configuration. *)
Record cfg_defaults : Type := mkDefaults {
  def_ttl : Z;
  def_net_xmit : Z;
  def_relay_xmit : Z;
  def_relay : bool;
  def_beacon : bool;
  def_gatt_proxy : bool;
  def_friend : bool;
}.

(** A feature is switched on by default, never off. *)
Definition bt_mesh_cfg_init (d : cfg_defaults) : MESH unit :=
  _ ← modify (fun t => t <| tr_default_ttl := def_ttl d |>);
  set_net (fun n => n <| net_xmit := def_net_xmit d |>
                      <| relay_xmit := if config_relay then def_relay_xmit d else relay_xmit n |>
                      <| flag_relay := def_relay d || flag_relay n |>
                      <| flag_beacon := def_beacon d || flag_beacon n |>
                      <| flag_gatt_proxy := def_gatt_proxy d || flag_gatt_proxy n |>
                      <| flag_friend := def_friend d || flag_friend n |>).

End Cfg.
