(* ===== verification/CfgModels.v ===== *)
(** * The configuration of the models (subsys/bluetooth/mesh/cfg_srv.c)

    What the Configuration Server changes in the node's models: publication,
    bindings of application keys and subscriptions, and the reaction of the models to
    the deletion of an application key.  The changes of the key tables are composed
    here with the listeners they notify: the application keys ([app_keys.c]), the
    secure network beacons ([beacon.c]) and the models ([cfg_srv.c]).  The handlers of
    the configuration messages are in [CfgSrv.v]. *)

From S2P Require Import Prelude ByteOrder MeshDefs Cdb NetBuf Access Rpl Ccm MeshCrypto Subnet AppKeys Net Transport Mesh Heartbeat SecureBeacon.

Section CfgModels.
Context {ecb : Ecb} {cmac : Cmac} (config_settings config_labels : bool).
(** Whether the model's publication has an [update] callback. *)
Context (has_update : bt_mesh_model -> bool).
Context {G : Type}.

Abbreviation MESH := (ST (trans (mesh G))).

(** ** Walks over the models *)

Fixpoint map_models (f : bt_mesh_model -> MESH bt_mesh_model) (l : list bt_mesh_model) : MESH (list bt_mesh_model) :=
  match l with
  | [] => mret []
  | m :: l => m ← f m; l ← map_models f l; mret (m :: l)
  end.

Fixpoint map_elems (f : bt_mesh_model -> MESH bt_mesh_model) (l : list bt_mesh_elem) : MESH (list bt_mesh_elem) :=
  match l with
  | [] => mret []
  | e :: l =>
      ms ← map_models f (elem_models e);
      vs ← map_models f (elem_vnd_models e);
      l ← map_elems f l;
      mret ((e <| elem_models := ms |> <| elem_vnd_models := vs |>) :: l)
  end.

(** [bt_mesh_model_foreach] of [access.c]. *)
Definition model_foreach (f : bt_mesh_model -> MESH bt_mesh_model) : MESH unit :=
  l ← gets (fun t => comp_elem (net_comp (tr_net t)));
  l ← map_elems f l;
  set_net (fun n => n <| net_comp := (net_comp n) <| comp_elem := l |> |>).

(** ** Publication *)

Definition clear_pub (update : bool) (p : bt_mesh_model_pub) : bt_mesh_model_pub :=
  p <| pub_addr := BT_MESH_ADDR_UNASSIGNED |> <| pub_key := 0 |> <| pub_cred := false |> <| pub_ttl := 0 |>
    <| pub_period := 0 |> <| pub_retransmit := 0 |> <| pub_count := 0 |>
    <| pub_timer := if update then None else pub_timer p |>.

(** The label of a virtual publication address is released. *)
Definition pub_label_del (addr : Z) : MESH unit :=
  if config_labels && BT_MESH_ADDR_IS_VIRTUAL addr then
    label ← gets (bt_mesh_va_label_get addr);
    match label with Some uuid => _ ← bt_mesh_va_del uuid; mret tt | None => mret tt end
  else mret tt.

Definition store_mod_pub (store : bool) : MESH unit := when (config_settings && store) (mesh_event_log EvStoreModPub).

(** The status and the model.  Low power is not configured, so friendship credentials
    are refused. *)
Definition _mod_pub_set (m : bt_mesh_model) (addr app_idx : Z) (cred_flag : bool) (ttl period retransmit : Z)
    (store : bool) : MESH (mesh_status * bt_mesh_model) :=
  match mod_pub m with
  | None => mret (STATUS_NVAL_PUB_PARAM, m)
  | Some pub =>
      if cred_flag then mret (STATUS_FEAT_NOT_SUPP, m)
      else if negb (has_update m) && negb (period =? 0) then mret (STATUS_NVAL_PUB_PARAM, m)
      else if addr =? BT_MESH_ADDR_UNASSIGNED then
        if pub_addr pub =? BT_MESH_ADDR_UNASSIGNED then mret (STATUS_SUCCESS, m)
        else
          _ ← store_mod_pub store;
          mret (STATUS_SUCCESS, m <| mod_pub := Some (clear_pub (has_update m) pub) |>)
      else
        exist ← gets (fun t => bt_mesh_app_key_exists app_idx (tr_apps t));
        if negb exist then mret (STATUS_INVALID_APPKEY, m)
        else
          _ ← pub_label_del (pub_addr pub);
          let pub := pub <| pub_addr := addr |> <| pub_key := app_idx |> <| pub_cred := cred_flag |> <| pub_ttl := ttl |>
                         <| pub_period := period |> <| pub_retransmit := retransmit |> in
          let period_ms := pub_period_ms pub in
          let pub := if has_update m
                     then pub <| pub_timer := if 0 <? period_ms then Some period_ms else None |> else pub in
          _ ← store_mod_pub store;
          mret (STATUS_SUCCESS, m <| mod_pub := Some pub |>)
  end.

(** ** Bindings *)

Definition mod_bind (m : bt_mesh_model) (key_idx : Z) : MESH (mesh_status * bt_mesh_model) :=
  exist ← gets (fun t => bt_mesh_app_key_exists key_idx (tr_apps t));
  if negb exist then mret (STATUS_INVALID_APPKEY, m)
  else if existsb (Z.eqb key_idx) (mod_keys m) then mret (STATUS_SUCCESS, m)
  else
    match find_index (Z.eqb BT_MESH_KEY_UNUSED) (mod_keys m) with
    | None => mret (STATUS_INSUFF_RESOURCES, m)
    | Some i =>
        _ ← when config_settings (mesh_event_log EvStoreModBind);
        mret (STATUS_SUCCESS, m <| mod_keys := <[i := key_idx]> (mod_keys m) |>)
    end.

(** The loop of [mod_unbind] over the [n] keys from [i] on. *)
Fixpoint mod_unbind_loop (key_idx : Z) (store : bool) (n i : nat) (m : bt_mesh_model) : MESH bt_mesh_model :=
  match n with
  | O => mret m
  | S n =>
      match mod_keys m !! i with
      | None => mret m
      | Some k =>
          if negb (k =? key_idx) then mod_unbind_loop key_idx store n (S i) m
          else
            let m := m <| mod_keys := <[i := BT_MESH_KEY_UNUSED]> (mod_keys m) |> in
            _ ← when (config_settings && store) (mesh_event_log EvStoreModBind);
            m ← (if match mod_pub m with Some pub => pub_key pub =? key_idx | None => false end
                 then '(_, m) ← _mod_pub_set m BT_MESH_ADDR_UNASSIGNED 0 false 0 0 0 store; mret m
                 else mret m);
            mod_unbind_loop key_idx store n (S i) m
      end
  end.

(** [exist]: the key is in the table. *)
Definition mod_unbind (exist : bool) (m : bt_mesh_model) (key_idx : Z) (store : bool)
    : MESH (mesh_status * bt_mesh_model) :=
  if negb exist then mret (STATUS_INVALID_APPKEY, m)
  else m ← mod_unbind_loop key_idx store (length (mod_keys m)) 0 m; mret (STATUS_SUCCESS, m).

(** The key is cleared from the table after the callbacks, so they find it there. *)
Definition mod_app_key_del (app_idx : Z) (m : bt_mesh_model) : MESH bt_mesh_model :=
  '(_, m) ← mod_unbind true m app_idx true; mret m.

(** [app_key_evt] of [cfg_srv.c] for the events of the application keys. *)
Fixpoint models_deliver (evts : list app_event) : MESH unit :=
  match evts with
  | [] => mret tt
  | EvAppKey app_idx _ BT_MESH_KEY_DELETED :: evts => _ ← model_foreach (mod_app_key_del app_idx); models_deliver evts
  | _ :: evts => models_deliver evts
  end.

(** ** The key tables and their listeners *)

(** An operation on the application keys; the models hear of its events. *)
Definition apps_op {A : Type} (f : subnets -> app_keys -> A * app_keys) : MESH A :=
  table ← gets (fun t => net_subnets (tr_net t));
  old ← gets tr_apps;
  let (r, new) := f table old in
  _ ← modify (fun t => t <| tr_apps := new |>);
  _ ← models_deliver (drop (length (app_log old)) (app_log new));
  mret r.

(** An operation on the subnets; the application keys and the beacons hear of its
    events. *)
Definition subnets_op {A : Type} (f : subnets -> A * subnets) : MESH A :=
  old ← gets (fun t => net_subnets (tr_net t));
  let (r, new) := f old in
  let evts := drop (length (sub_log old)) (sub_log new) in
  _ ← set_net (fun n => n <| net_subnets := new |>);
  _ ← apps_op (fun _ s => (tt, deliver evts s));
  _ ← set_net (beacons_deliver evts);
  mret r.

(** ** Subscriptions *)

(** The number of groups cleared and the groups. *)
Fixpoint mod_sub_list_clear (groups : list Z) : MESH (nat * list Z) :=
  match groups with
  | [] => mret (0%nat, [])
  | g :: groups =>
      label ← gets (bt_mesh_va_label_get g);
      _ ← (if BT_MESH_ADDR_IS_VIRTUAL g then
             match label with Some uuid => _ ← bt_mesh_va_del uuid; mret tt | None => mret tt end
           else mret tt);
      '(count, groups) ← mod_sub_list_clear groups;
      mret (((if Z.eqb g BT_MESH_ADDR_UNASSIGNED then 0 else 1) + count)%nat, BT_MESH_ADDR_UNASSIGNED :: groups)
  end.

(** ** Reset *)

Definition mod_reset (m : bt_mesh_model) : MESH bt_mesh_model :=
  '(count, groups) ← mod_sub_list_clear (mod_groups m);
  _ ← when (config_settings && (0 <? count)%nat) (mesh_event_log EvStoreModSub);
  _ ← mesh_event_log EvModelReset;
  mret (m <| mod_groups := groups |>).

Definition bt_mesh_cfg_reset : MESH unit := model_foreach mod_reset.

(** [bt_mesh_app_keys_reset] and [bt_mesh_net_keys_reset]: the application keys are
    deleted before the subnets. *)
Definition keys_reset : MESH unit :=
  _ ← apps_op (fun _ s => (tt, bt_mesh_app_keys_reset s));
  subnets_op (fun s => (tt, bt_mesh_net_keys_reset s)).

End CfgModels.
