(* ===== verification/Main.v ===== *)
(** * Start, provisioning and reset of the node (subsys/bluetooth/mesh/main.c)

    [bt_mesh_provision] composes the network keys, the address, the device key and the
    start of the stack; [bt_mesh_reset] undoes it.  The advertiser, the scanner and the
    proxy are called through the log; what they return is a parameter. *)

From S2P Require Import Prelude ByteOrder MeshDefs Cdb NetBuf Access Rpl Ccm MeshCrypto Subnet AppKeys Net Transport Mesh Heartbeat SecureBeacon Cfg CfgModels.

(** What the bearers answer. *)
Record main_env : Type := mkEnv {
  adv_enable : ret_code;
  scan_enable : ret_code;
  scan_disable : ret_code;
  proxy_prov_disable : ret_code;
}.

Section Main.
Context {ecb : Ecb} {cmac : Cmac} (config_proxy config_friend config_cdb config_pb_gatt config_settings config_labels : bool).
(** Whether the publication of a model has an [update] callback. *)
Context (has_update : bt_mesh_model -> bool).
Context (env : main_env).
Context {G : Type} {friend : FriendOps (mesh G)}.

Abbreviation MESH := (ST (trans (mesh G))).

Definition set_valid (v : bool) : MESH unit := set_net (fun n => n <| net_valid := v |>).

Definition bt_mesh_scan_enable : MESH ret_code := _ ← mesh_event_log EvScanEnable; mret (scan_enable env).
Definition bt_mesh_scan_disable : MESH ret_code := _ ← mesh_event_log EvScanDisable; mret (scan_disable env).

Definition bt_mesh_start (now : Z) : MESH ret_code :=
  _ ← mesh_event_log EvAdvEnable;
  match adv_enable env with
  | Some e => mret (Some e)
  | None =>
      beacon ← gets (fun t => flag_beacon (tr_net t));
      _ ← (if beacon : bool then bt_mesh_beacon_enable now else bt_mesh_beacon_disable);
      _ ← when config_proxy (mesh_event_log EvProxyGattEnable);
      _ ← bt_mesh_scan_enable;
      _ ← when config_friend (mesh_event_log EvFriendInit);
      sub ← gets (fun t => bt_mesh_subnet_next None (net_subnets (tr_net t)) ≫= fun i => subs (net_subnets (tr_net t)) !! i);
      addr ← gets (fun t => bt_mesh_primary_addr (net_comp (tr_net t)));
      sub ← need sub;
      _ ← mesh_event_log (EvProvComplete (sub_net_idx sub) addr);
      _ ← bt_mesh_hb_start now;
      _ ← mesh_event_log EvModelStart;
      mret None
  end.

(** The part of [bt_mesh_provision] for a node with a configuration database: the
    address and the IV index are the database's. *)
Definition provision_cdb (uuid : bytes) (net_idx iv addr : Z) (dev_key : bytes) : MESH (errno + (Z * Z)) :=
  cdb ← gets tr_cdb;
  elems ← gets (fun t => Z.of_nat (length (comp_elem (net_comp (tr_net t)))));
  if negb (Z.testbit (cdb_flags cdb) BT_MESH_CDB_VALID) then mret (inl EINVAL)
  else if bool_decide (bt_mesh_cdb_subnet_get net_idx cdb = None) then mret (inl ENOENT)
  else
    let '(node, cdb) := bt_mesh_cdb_node_alloc uuid addr elems net_idx cdb in
    _ ← modify (fun t => t <| tr_cdb := cdb |>);
    match node with
    | None => mret (inl ENOMEM)
    | Some i =>
        let cdb := with_nodes (alter (fun n => {| node_uuid := node_uuid n; node_addr := node_addr n;
                     node_net_idx := node_net_idx n; node_num_elem := node_num_elem n;
                     node_dev_key := take 16 dev_key; node_flags := node_flags n |}) i) cdb in
        n ← need (cdb_nodes cdb !! i);
        _ ← modify (fun t => t <| tr_cdb := if config_settings then bt_mesh_cdb_node_store i cdb else cdb |>);
        mret (inr (node_addr n, cdb_iv_index cdb))
    end.

Definition bt_mesh_provision (now : Z) (uuid net_key : bytes) (net_idx flags iv addr : Z) (dev_key : bytes)
    : MESH ret_code :=
  valid ← gets bt_mesh_is_provisioned;
  _ ← set_valid true;
  if valid : bool then mret (Some EALREADY)
  else
    _ ← when config_pb_gatt (mesh_event_log EvProxyProvDisable);
    let pb_gatt_enabled := config_pb_gatt && bool_decide (proxy_prov_disable env = None) in
    where_ ← (if config_cdb then provision_cdb uuid net_idx iv addr dev_key else mret (inr (addr, iv)));
    match where_ with
    | inl e => _ ← set_valid false; mret (Some e)
    | inr (addr, iv) =>
        n ← gets tr_net;
        let '(err, n) := bt_mesh_net_create config_proxy net_idx flags net_key iv n in
        _ ← set_net (fun _ => n);
        match err with
        | Some e =>
            _ ← set_valid false;
            _ ← when pb_gatt_enabled (mesh_event_log EvProxyProvEnable);
            mret (Some e)
        | None =>
            _ ← set_net (fun n => n <| net_seq := 0 |> <| net_comp := bt_mesh_comp_provision addr (net_comp n) |>);
            _ ← modify (fun t => t <| tr_dev_key := take 16 dev_key |>);
            _ ← bt_mesh_start now;
            mret None
        end
    end.

(** ** Reset *)

(** The features are flags of the word that is cleared. *)
Definition clear_flags (n : bt_mesh_net) : bt_mesh_net :=
  n <| net_valid := false |> <| ivu_in_progress := false |> <| ivu_initiator := false |> <| ivu_pending := false |>
    <| flag_relay := false |> <| flag_beacon := false |> <| flag_gatt_proxy := false |> <| flag_friend := false |>.

(** [prov_reset] is [bt_mesh_prov_reset()]. *)
Definition bt_mesh_reset (prov_reset : MESH unit) : MESH unit :=
  valid ← gets bt_mesh_is_provisioned;
  if negb valid then mret tt
  else
    _ ← set_net (fun n => clear_flags (n <| iv_index := 0 |> <| net_seq := 0 |>) <| ivu_timer := false |>);
    _ ← set_up (fun m => m <| ms_suspended := false |>);
    _ ← bt_mesh_cfg_reset config_settings;
    _ ← bt_mesh_trans_reset config_proxy config_friend config_cdb;
    _ ← keys_reset config_settings config_labels has_update;
    _ ← set_net (bt_mesh_net_loopback_clear BT_MESH_KEY_ANY);
    _ ← when config_friend (mesh_event_log EvFriendsClear);
    _ ← when config_proxy (mesh_event_log EvProxyGattDisable);
    _ ← when config_settings (mesh_event_log EvClearNet);
    _ ← modify (fun t => t <| tr_dev_key := replicate 16 0 |>);
    _ ← bt_mesh_scan_disable;
    _ ← bt_mesh_beacon_disable;
    _ ← set_net (fun n => n <| net_comp := bt_mesh_comp_unprovision (net_comp n) |>);
    prov_reset.

(** ** Suspension *)

Definition model_suspend (m : bt_mesh_model) : MESH bt_mesh_model :=
  mret (if has_update m
        then m <| mod_pub := (fun p => p <| pub_count := 0 |> <| pub_timer := None |>) <$> mod_pub m |> else m).

Definition bt_mesh_suspend : MESH ret_code :=
  valid ← gets bt_mesh_is_provisioned;
  suspended ← up ms_suspended;
  if negb valid then mret (Some EINVAL)
  else if suspended : bool then mret (Some EALREADY)
  else
    _ ← set_up (fun m => m <| ms_suspended := true |>);
    err ← bt_mesh_scan_disable;
    match err with
    | Some _ => _ ← set_up (fun m => m <| ms_suspended := false |>); mret err
    | None =>
        _ ← bt_mesh_hb_suspend;
        beacon ← gets (fun t => flag_beacon (tr_net t));
        _ ← when beacon bt_mesh_beacon_disable;
        _ ← model_foreach model_suspend;
        mret None
    end.

Definition model_resume (m : bt_mesh_model) : MESH bt_mesh_model :=
  let period := bt_mesh_model_pub_period_get m in
  mret (if has_update m && negb (period =? 0)
        then m <| mod_pub := (fun p => p <| pub_timer := Some period |>) <$> mod_pub m |> else m).

Definition bt_mesh_resume (now : Z) : MESH ret_code :=
  valid ← gets bt_mesh_is_provisioned;
  suspended ← up ms_suspended;
  if negb valid then mret (Some EINVAL)
  else if negb suspended then mret (Some EALREADY)
  else
    _ ← set_up (fun m => m <| ms_suspended := false |>);
    err ← bt_mesh_scan_enable;
    match err with
    | Some _ => _ ← set_up (fun m => m <| ms_suspended := true |>); mret err
    | None =>
        _ ← bt_mesh_hb_resume now;
        beacon ← gets (fun t => flag_beacon (tr_net t));
        _ ← when beacon (bt_mesh_beacon_enable now);
        _ ← model_foreach model_resume;
        mret None
    end.

End Main.
