(* ===== verification/CfgSrv.v ===== *)
(** * The Configuration Server (subsys/bluetooth/mesh/cfg_srv.c)

    One definition for each handler of [bt_mesh_cfg_srv_op], and the table.  A handler
    gets the payload of the message and acts on the state of the stack: the
    composition, the key tables with their listeners ([CfgModels.v]), the features
    ([Cfg.v]), the heartbeats ([Heartbeat.v]) and, for a reset, the whole node
    ([Main.v]).  A response is the event [EvModelSend] with the opcode and the
    parameters; a payload larger than the buffer the handler declares for it is
    undefined, as is reading past the end of the request.

    In the configuration of the two applications low power nodes are not supported. *)

From S2P Require Import Prelude ByteOrder MeshDefs Cdb NetBuf Access Rpl Ccm MeshCrypto Subnet AppKeys Net Transport Mesh Heartbeat SecureBeacon Cfg CfgModels Main.

(** ** Opcodes and status codes (foundation.h) *)

(** The opcodes of the configuration messages. *)
Inductive cfg_op : Type :=
| OP_APP_KEY_ADD | OP_APP_KEY_UPDATE | OP_DEV_COMP_DATA_STATUS | OP_MOD_PUB_SET | OP_HEARTBEAT_PUB_STATUS
| OP_APP_KEY_DEL | OP_APP_KEY_GET | OP_APP_KEY_LIST | OP_APP_KEY_STATUS | OP_DEV_COMP_DATA_GET | OP_BEACON_GET
| OP_BEACON_SET | OP_BEACON_STATUS | OP_DEFAULT_TTL_GET | OP_DEFAULT_TTL_SET | OP_DEFAULT_TTL_STATUS
| OP_FRIEND_GET | OP_FRIEND_SET | OP_FRIEND_STATUS | OP_GATT_PROXY_GET | OP_GATT_PROXY_SET
| OP_GATT_PROXY_STATUS | OP_KRP_GET | OP_KRP_SET | OP_KRP_STATUS | OP_MOD_PUB_GET | OP_MOD_PUB_STATUS
| OP_MOD_PUB_VA_SET | OP_MOD_SUB_ADD | OP_MOD_SUB_DEL | OP_MOD_SUB_DEL_ALL | OP_MOD_SUB_OVERWRITE
| OP_MOD_SUB_STATUS | OP_MOD_SUB_VA_ADD | OP_MOD_SUB_VA_DEL | OP_MOD_SUB_VA_OVERWRITE | OP_NET_TRANSMIT_GET
| OP_NET_TRANSMIT_SET | OP_NET_TRANSMIT_STATUS | OP_RELAY_GET | OP_RELAY_SET | OP_RELAY_STATUS
| OP_MOD_SUB_GET | OP_MOD_SUB_LIST | OP_MOD_SUB_GET_VND | OP_MOD_SUB_LIST_VND | OP_LPN_TIMEOUT_GET
| OP_LPN_TIMEOUT_STATUS | OP_HEARTBEAT_PUB_GET | OP_HEARTBEAT_PUB_SET | OP_HEARTBEAT_SUB_GET
| OP_HEARTBEAT_SUB_SET | OP_HEARTBEAT_SUB_STATUS | OP_MOD_APP_BIND | OP_MOD_APP_STATUS | OP_MOD_APP_UNBIND
| OP_NET_KEY_ADD | OP_NET_KEY_DEL | OP_NET_KEY_GET | OP_NET_KEY_LIST | OP_NET_KEY_STATUS | OP_NET_KEY_UPDATE
| OP_NODE_IDENTITY_GET | OP_NODE_IDENTITY_SET | OP_NODE_IDENTITY_STATUS | OP_NODE_RESET | OP_NODE_RESET_STATUS
| OP_SIG_MOD_APP_GET | OP_SIG_MOD_APP_LIST | OP_VND_MOD_APP_GET | OP_VND_MOD_APP_LIST.

(** [BT_MESH_MODEL_OP_1] and [BT_MESH_MODEL_OP_2]: the second group is 0x8000 and up. *)
Definition op_code (o : cfg_op) : Z :=
  match o with
  | OP_APP_KEY_ADD => 0 | OP_APP_KEY_UPDATE => 1 | OP_DEV_COMP_DATA_STATUS => 2 | OP_MOD_PUB_SET => 3
  | OP_HEARTBEAT_PUB_STATUS => 6 | OP_APP_KEY_DEL => 32768 | OP_APP_KEY_GET => 32769 | OP_APP_KEY_LIST => 32770
  | OP_APP_KEY_STATUS => 32771 | OP_DEV_COMP_DATA_GET => 32776 | OP_BEACON_GET => 32777 | OP_BEACON_SET => 32778
  | OP_BEACON_STATUS => 32779 | OP_DEFAULT_TTL_GET => 32780 | OP_DEFAULT_TTL_SET => 32781
  | OP_DEFAULT_TTL_STATUS => 32782 | OP_FRIEND_GET => 32783 | OP_FRIEND_SET => 32784 | OP_FRIEND_STATUS => 32785
  | OP_GATT_PROXY_GET => 32786 | OP_GATT_PROXY_SET => 32787 | OP_GATT_PROXY_STATUS => 32788
  | OP_KRP_GET => 32789 | OP_KRP_SET => 32790 | OP_KRP_STATUS => 32791 | OP_MOD_PUB_GET => 32792
  | OP_MOD_PUB_STATUS => 32793 | OP_MOD_PUB_VA_SET => 32794 | OP_MOD_SUB_ADD => 32795 | OP_MOD_SUB_DEL => 32796
  | OP_MOD_SUB_DEL_ALL => 32797 | OP_MOD_SUB_OVERWRITE => 32798 | OP_MOD_SUB_STATUS => 32799
  | OP_MOD_SUB_VA_ADD => 32800 | OP_MOD_SUB_VA_DEL => 32801 | OP_MOD_SUB_VA_OVERWRITE => 32802
  | OP_NET_TRANSMIT_GET => 32803 | OP_NET_TRANSMIT_SET => 32804 | OP_NET_TRANSMIT_STATUS => 32805
  | OP_RELAY_GET => 32806 | OP_RELAY_SET => 32807 | OP_RELAY_STATUS => 32808 | OP_MOD_SUB_GET => 32809
  | OP_MOD_SUB_LIST => 32810 | OP_MOD_SUB_GET_VND => 32811 | OP_MOD_SUB_LIST_VND => 32812
  | OP_LPN_TIMEOUT_GET => 32813 | OP_LPN_TIMEOUT_STATUS => 32814 | OP_HEARTBEAT_PUB_GET => 32824
  | OP_HEARTBEAT_PUB_SET => 32825 | OP_HEARTBEAT_SUB_GET => 32826 | OP_HEARTBEAT_SUB_SET => 32827
  | OP_HEARTBEAT_SUB_STATUS => 32828 | OP_MOD_APP_BIND => 32829 | OP_MOD_APP_STATUS => 32830
  | OP_MOD_APP_UNBIND => 32831 | OP_NET_KEY_ADD => 32832 | OP_NET_KEY_DEL => 32833 | OP_NET_KEY_GET => 32834
  | OP_NET_KEY_LIST => 32835 | OP_NET_KEY_STATUS => 32836 | OP_NET_KEY_UPDATE => 32837
  | OP_NODE_IDENTITY_GET => 32838 | OP_NODE_IDENTITY_SET => 32839 | OP_NODE_IDENTITY_STATUS => 32840
  | OP_NODE_RESET => 32841 | OP_NODE_RESET_STATUS => 32842 | OP_SIG_MOD_APP_GET => 32843
  | OP_SIG_MOD_APP_LIST => 32844 | OP_VND_MOD_APP_GET => 32845 | OP_VND_MOD_APP_LIST => 32846
  end.

Definition status_code (s : mesh_status) : Z :=
  match s with
  | STATUS_SUCCESS => 0 | STATUS_INVALID_ADDRESS => 1 | STATUS_INVALID_MODEL => 2 | STATUS_INVALID_APPKEY => 3
  | STATUS_INVALID_NETKEY => 4 | STATUS_INSUFF_RESOURCES => 5 | STATUS_IDX_ALREADY_STORED => 6 | STATUS_NVAL_PUB_PARAM => 7
  | STATUS_NOT_SUB_MOD => 8 | STATUS_STORAGE_FAIL => 9 | STATUS_FEAT_NOT_SUPP => 10 | STATUS_CANNOT_UPDATE => 11
  | STATUS_CANNOT_REMOVE => 12 | STATUS_CANNOT_BIND => 13 | STATUS_TEMP_STATE_CHG_FAIL => 14 | STATUS_CANNOT_SET => 15
  | STATUS_UNSPECIFIED => 16 | STATUS_INVALID_BINDING => 17
  end.

#[export] Instance mesh_status_eq_dec : EqDecision mesh_status.
Proof. solve_decision. Defined.

Definition feat_code (f : bt_mesh_feat_state) : Z :=
  match f with BT_MESH_FEATURE_DISABLED => 0 | BT_MESH_FEATURE_ENABLED => 1 | BT_MESH_FEATURE_NOT_SUPPORTED => 2 end.

(** A byte that is 0 or 1, as the feature state. *)
Definition feat_of (v : Z) : option bt_mesh_feat_state :=
  if v =? 0 then Some BT_MESH_FEATURE_DISABLED else if v =? 1 then Some BT_MESH_FEATURE_ENABLED else None.

(** ** Fields of messages *)

Definition pull_u8 (buf : bytes) : option (Z * bytes) :=
  match buf with b :: buf => Some (b, buf) | [] => None end.

Definition pull_le16 (buf : bytes) : option (Z * bytes) :=
  match buf with b0 :: b1 :: buf => Some (sys_get_le16 [b0; b1], buf) | _ => None end.

Definition pull_mem (n : nat) (buf : bytes) : option (bytes * bytes) :=
  if (n <=? length buf)%nat then Some (take n buf, drop n buf) else None.

(** Two key indexes of 12 bits in 3 bytes. *)
Definition key_idx_pack (idx1 idx2 : Z) : bytes :=
  sys_put_le16 (u16 (Z.lor idx1 (Z.shiftl (Z.land idx2 15) 12))) ++ [u8 (Z.shiftr idx2 4)].

Definition key_idx_unpack (buf : bytes) : option (Z * Z * bytes) :=
  match buf with
  | b0 :: b1 :: b2 :: buf => Some (Z.land (sys_get_le16 [b0; b1]) 4095, Z.shiftr (sys_get_le16 [b1; b2]) 4, buf)
  | _ => None
  end.

(** The loop that packs a list of indexes: pairs, and the last index of an odd list. *)
Fixpoint key_idx_list (l : list Z) : bytes :=
  match l with
  | idx1 :: idx2 :: l => key_idx_pack idx1 idx2 ++ key_idx_list l
  | [idx] => sys_put_le16 idx
  | [] => []
  end.

Definition IDX_LEN (num : nat) : nat := num / 2 * 3 + num mod 2 * 2.

(** The opcode as [bt_mesh_model_msg_init] writes it; all have one or two bytes. *)
Definition op_bytes (op : cfg_op) : bytes :=
  if BT_MESH_MODEL_OP_LEN (op_code op) =? 1 then [u8 (op_code op)] else sys_put_be16 (u16 (op_code op)).

(** A pointer to a model: its element, whether it is a vendor model, its place. *)
Record mod_ptr : Type := mkModPtr { ptr_elem : nat; ptr_vnd : bool; ptr_mod : nat }.

#[export] Instance mod_ptr_eq_dec : EqDecision mod_ptr.
Proof. solve_decision. Defined.

(** What the application gives in [struct bt_mesh_comp], and [CONFIG_BT_MESH_CRPL]. *)
Record comp_info : Type := mkCompInfo {
  info_cid : Z;
  info_pid : Z;
  info_vid : Z;
  info_crpl : Z;
  info_loc : nat -> Z;
}.

Section CfgSrv.
Context {ecb : Ecb} {cmac : Cmac}.
Context (config_proxy config_friend config_cdb config_relay config_settings config_labels : bool).
Context (proxy_relay : bytes -> Z -> bt_mesh_net -> bool) (adv_buffer : bt_mesh_net -> bool).
Context (env : main_env) (has_update : bt_mesh_model -> bool) (info : comp_info) (BT_MESH_TX_SDU_MAX : nat).
Context {G : Type} {friend : FriendOps (mesh G)}.
(** [bt_mesh_prov_reset()]. *)
Context (prov_reset : ST (trans (mesh G)) unit).
(** The time the poll timer of the friendship with a low power node has left. *)
Context (friend_timer : G -> Z -> option Z).
(** The value an uninitialised [sub_addr] or [pub_addr] has. *)
Context (uninit : Z).

Abbreviation MESH := (ST (trans (mesh G))).

(** ** Responses *)

(** [bt_mesh_model_send] of a message with room for [room] bytes of parameters. *)
Definition respond (room : nat) (ctx : bt_mesh_msg_ctx) (op : cfg_op) (params : bytes) : MESH unit :=
  if (length params <=? room)%nat then mesh_event_log (EvModelSend ctx (op_bytes op ++ params)) else need None.

(** ** Models *)

Definition model_at (p : mod_ptr) (c : bt_mesh_comp) : option bt_mesh_model :=
  e ← comp_elem c !! ptr_elem p;
  (if ptr_vnd p then elem_vnd_models e else elem_models e) !! ptr_mod p.

Definition get_mod (p : mod_ptr) : MESH bt_mesh_model :=
  m ← gets (fun t => model_at p (net_comp (tr_net t))); need m.

Definition put_mod (p : mod_ptr) (m : bt_mesh_model) (c : bt_mesh_comp) : bt_mesh_comp :=
  c <| comp_elem := alter (fun e =>
         if ptr_vnd p then e <| elem_vnd_models := <[ptr_mod p := m]> (elem_vnd_models e) |>
         else e <| elem_models := <[ptr_mod p := m]> (elem_models e) |>) (ptr_elem p) (comp_elem c) |>.

Definition set_mod (p : mod_ptr) (m : bt_mesh_model) : MESH unit :=
  set_net (fun n => n <| net_comp := put_mod p m (net_comp n) |>).

(** [*vnd] and the model. *)
Definition get_model (i : nat) (buf : bytes) : MESH (bool * option mod_ptr) :=
  e ← gets (fun t => comp_elem (net_comp (tr_net t)) !! i); e ← need e;
  if (length buf <? 4)%nat then
    '(id, _) ← need (pull_le16 buf);
    mret (false, mkModPtr i false <$> bt_mesh_model_find e id)
  else
    '(company, buf) ← need (pull_le16 buf);
    '(id, _) ← need (pull_le16 buf);
    mret (true, mkModPtr i true <$> bt_mesh_model_find_vnd e company id).

(** The element and the model of a request, as every handler with a model finds them:
    whether the model is a vendor model, and the model or the status. *)
Definition find_mod (elem_addr : Z) (buf : bytes) : MESH (bool * (mesh_status + mod_ptr)) :=
  elem ← gets (fun t => bt_mesh_elem_find (net_comp (tr_net t)) elem_addr);
  elem ← need elem;
  match elem with
  | None => mret ((length buf =? 4)%nat, inl STATUS_INVALID_ADDRESS)
  | Some i =>
      '(vnd, found) ← get_model i buf;
      mret (vnd, match found with Some p => inr p | None => inl STATUS_INVALID_MODEL end)
  end.

(** [memcpy(net_buf_simple_add(&msg, n), mod_id, n)] *)
Definition mod_id_bytes (vnd : bool) (mod_id : bytes) : MESH bytes :=
  '(id, _) ← need (pull_mem (if vnd then 4 else 2) mod_id); mret id.

(** Runs a handler for a unicast element address, the first field of the request. *)
Definition with_elem (buf : bytes) (f : Z -> bytes -> MESH unit) : MESH unit :=
  '(elem_addr, buf) ← need (pull_le16 buf);
  if negb (BT_MESH_ADDR_IS_UNICAST elem_addr) then mret tt else f elem_addr buf.

(** Runs a handler for a key index of 12 bits, the first field of the request. *)
Definition with_idx (buf : bytes) (f : Z -> bytes -> MESH unit) : MESH unit :=
  '(idx, buf) ← need (pull_le16 buf);
  if 4095 <? idx then mret tt else f idx buf.

(** ** Composition data *)

(** [None]: the element does not fit. *)
Definition comp_add_elem (i : nat) (e : bt_mesh_elem) (buf : bytes) : option bytes :=
  let models := length (elem_models e) in
  let vnd_models := length (elem_vnd_models e) in
  if (BT_MESH_TX_SDU_MAX - length buf <? 4 + models * 2 + vnd_models * 4)%nat then None
  else
    Some (buf ++ sys_put_le16 (info_loc info i) ++ [u8 (Z.of_nat models); u8 (Z.of_nat vnd_models)]
          ++ flat_map (fun m => match mod_id m with SIG id => sys_put_le16 id | VND company _ => sys_put_le16 company end)
               (elem_models e)
          ++ flat_map (fun m => match mod_id m with VND company id => sys_put_le16 company ++ sys_put_le16 id
                                | SIG id => sys_put_le16 id ++ sys_put_le16 0 end) (elem_vnd_models e)).

Fixpoint comp_add_elems (i : nat) (l : list bt_mesh_elem) (buf : bytes) : option bytes :=
  match l with
  | [] => Some buf
  | e :: l => match comp_add_elem i e buf with Some buf => comp_add_elems (S i) l buf | None => None end
  end.

Definition comp_feat : Z :=
  Z.lor (if config_relay then BT_MESH_FEAT_RELAY else 0)
    (Z.lor (if config_proxy then BT_MESH_FEAT_PROXY else 0) (if config_friend then BT_MESH_FEAT_FRIEND else 0)).

Definition comp_get_page_0 (c : bt_mesh_comp) (buf : bytes) : option bytes :=
  comp_add_elems 0 (comp_elem c)
    (buf ++ sys_put_le16 (info_cid info) ++ sys_put_le16 (info_pid info) ++ sys_put_le16 (info_vid info)
     ++ sys_put_le16 (info_crpl info) ++ sys_put_le16 comp_feat).

(** Every page asked for is answered with page 0. *)
Definition dev_comp_data_get (self : mod_ptr) (now : Z) (ctx : bt_mesh_msg_ctx) (buf : bytes) : MESH unit :=
  _ ← need (pull_u8 buf);
  c ← gets (fun t => net_comp (tr_net t));
  let sdu := op_bytes OP_DEV_COMP_DATA_STATUS ++ [0] in
  if (BT_MESH_TX_SDU_MAX <? length sdu + 10)%nat then need None
  else
    match comp_get_page_0 c sdu with
    | None => mret tt
    | Some sdu => mesh_event_log (EvModelSend ctx sdu)
    end.

(** ** Application keys *)

Definition send_app_key_status (ctx : bt_mesh_msg_ctx) (status : mesh_status) (app_idx net_idx : Z) : MESH unit :=
  respond 4 ctx OP_APP_KEY_STATUS (status_code status :: key_idx_pack net_idx app_idx).

(** [buf->data] is read for 16 bytes. *)
Definition app_key_add (self : mod_ptr) (now : Z) (ctx : bt_mesh_msg_ctx) (buf : bytes) : MESH unit :=
  '(key_net_idx, key_app_idx, buf) ← need (key_idx_unpack buf);
  '(key, _) ← need (pull_mem 16 buf);
  status ← apps_op config_settings config_labels has_update (bt_mesh_app_key_add key_app_idx key_net_idx key);
  send_app_key_status ctx status key_app_idx key_net_idx.

Definition app_key_update (self : mod_ptr) (now : Z) (ctx : bt_mesh_msg_ctx) (buf : bytes) : MESH unit :=
  '(key_net_idx, key_app_idx, buf) ← need (key_idx_unpack buf);
  '(key, _) ← need (pull_mem 16 buf);
  status ← apps_op config_settings config_labels has_update (bt_mesh_app_key_update key_app_idx key_net_idx key);
  send_app_key_status ctx status key_app_idx key_net_idx.

Definition app_key_del (self : mod_ptr) (now : Z) (ctx : bt_mesh_msg_ctx) (buf : bytes) : MESH unit :=
  '(key_net_idx, key_app_idx, _) ← need (key_idx_unpack buf);
  status ← apps_op config_settings config_labels has_update (bt_mesh_app_key_del key_app_idx key_net_idx);
  send_app_key_status ctx status key_app_idx key_net_idx.

(** The array of indexes is as long as the table, so that [bt_mesh_app_keys_get] does
    not run out of it. *)
Definition app_key_get (self : mod_ptr) (now : Z) (ctx : bt_mesh_msg_ctx) (buf : bytes) : MESH unit :=
  with_idx buf (fun get_idx _ =>
    s ← gets tr_apps;
    table ← gets (fun t => net_subnets (tr_net t));
    let count := length (apps s) in
    let room := (3 + IDX_LEN count)%nat in
    if negb (bt_mesh_subnet_exists get_idx table)
    then respond room ctx OP_APP_KEY_LIST (status_code STATUS_INVALID_NETKEY :: sys_put_le16 get_idx)
    else
      app_idx ← need (match bt_mesh_app_keys_get get_idx count 0 s with inr l => Some l | inl _ => None end);
      respond room ctx OP_APP_KEY_LIST (status_code STATUS_SUCCESS :: sys_put_le16 get_idx ++ key_idx_list app_idx)).

(** ** Features *)

Definition first_byte (buf : bytes) : MESH Z := '(b, _) ← need (pull_u8 buf); mret b.

Definition beacon_get (self : mod_ptr) (now : Z) (ctx : bt_mesh_msg_ctx) (buf : bytes) : MESH unit :=
  beacon ← gets (fun t => flag_beacon (tr_net t));
  respond 1 ctx OP_BEACON_STATUS [if beacon : bool then 1 else 0].

Definition beacon_set (self : mod_ptr) (now : Z) (ctx : bt_mesh_msg_ctx) (buf : bytes) : MESH unit :=
  b ← first_byte buf;
  match feat_of b with
  | None => mret tt
  | Some f => _ ← bt_mesh_beacon_set config_settings now (enabled f); respond 1 ctx OP_BEACON_STATUS [b]
  end.

Definition default_ttl_get (self : mod_ptr) (now : Z) (ctx : bt_mesh_msg_ctx) (buf : bytes) : MESH unit :=
  ttl ← gets tr_default_ttl; respond 1 ctx OP_DEFAULT_TTL_STATUS [ttl].

Definition default_ttl_set (self : mod_ptr) (now : Z) (ctx : bt_mesh_msg_ctx) (buf : bytes) : MESH unit :=
  b ← first_byte buf;
  err ← bt_mesh_default_ttl_set config_settings b;
  match err with Some _ => mret tt | None => respond 1 ctx OP_DEFAULT_TTL_STATUS [b] end.

Definition send_gatt_proxy_status (ctx : bt_mesh_msg_ctx) : MESH unit :=
  f ← gets (fun t => bt_mesh_gatt_proxy_get config_proxy (tr_net t)); respond 1 ctx OP_GATT_PROXY_STATUS [feat_code f].

Definition gatt_proxy_get (self : mod_ptr) (now : Z) (ctx : bt_mesh_msg_ctx) (buf : bytes) : MESH unit :=
  send_gatt_proxy_status ctx.

Definition gatt_proxy_set (self : mod_ptr) (now : Z) (ctx : bt_mesh_msg_ctx) (buf : bytes) : MESH unit :=
  b ← first_byte buf;
  match feat_of b with
  | None => mret tt
  | Some f =>
      _ ← bt_mesh_gatt_proxy_set config_proxy config_friend config_cdb config_settings proxy_relay adv_buffer f;
      send_gatt_proxy_status ctx
  end.

Definition net_transmit_get (self : mod_ptr) (now : Z) (ctx : bt_mesh_msg_ctx) (buf : bytes) : MESH unit :=
  xmit ← gets (fun t => net_xmit (tr_net t)); respond 1 ctx OP_NET_TRANSMIT_STATUS [xmit].

Definition net_transmit_set (self : mod_ptr) (now : Z) (ctx : bt_mesh_msg_ctx) (buf : bytes) : MESH unit :=
  b ← first_byte buf;
  _ ← bt_mesh_net_transmit_set config_settings b;
  respond 1 ctx OP_NET_TRANSMIT_STATUS [b].

Definition send_relay_status (ctx : bt_mesh_msg_ctx) : MESH unit :=
  n ← gets tr_net;
  respond 2 ctx OP_RELAY_STATUS [feat_code (bt_mesh_relay_get n); bt_mesh_relay_retransmit_get config_relay n].

Definition relay_get (self : mod_ptr) (now : Z) (ctx : bt_mesh_msg_ctx) (buf : bytes) : MESH unit :=
  send_relay_status ctx.

Definition relay_set (self : mod_ptr) (now : Z) (ctx : bt_mesh_msg_ctx) (buf : bytes) : MESH unit :=
  b ← first_byte buf;
  match feat_of b with
  | None => mret tt
  | Some f =>
      xmit ← first_byte (drop 1 buf);
      _ ← bt_mesh_relay_set config_proxy config_friend config_cdb config_relay config_settings proxy_relay adv_buffer f xmit;
      send_relay_status ctx
  end.

Definition send_friend_status (ctx : bt_mesh_msg_ctx) : MESH unit :=
  f ← gets (fun t => bt_mesh_friend_get config_friend (tr_net t)); respond 1 ctx OP_FRIEND_STATUS [feat_code f].

Definition friend_get (self : mod_ptr) (now : Z) (ctx : bt_mesh_msg_ctx) (buf : bytes) : MESH unit :=
  send_friend_status ctx.

Definition friend_set (self : mod_ptr) (now : Z) (ctx : bt_mesh_msg_ctx) (buf : bytes) : MESH unit :=
  b ← first_byte buf;
  match feat_of b with
  | None => mret tt
  | Some f =>
      _ ← bt_mesh_friend_set config_proxy config_friend config_cdb config_settings proxy_relay adv_buffer f;
      send_friend_status ctx
  end.

Definition lpn_timeout_get (self : mod_ptr) (now : Z) (ctx : bt_mesh_msg_ctx) (buf : bytes) : MESH unit :=
  '(lpn_addr, _) ← need (pull_le16 buf);
  if negb (BT_MESH_ADDR_IS_UNICAST lpn_addr) then mret tt
  else
    timer ← up (fun m => if config_friend then friend_timer (ms_friend m) lpn_addr else None);
    respond 5 ctx OP_LPN_TIMEOUT_STATUS
      (sys_put_le16 lpn_addr ++ sys_put_le24 (match timer with Some ms => ms / 100 | None => 0 end)).

(** ** Publication *)

Definition send_mod_pub_status (ctx : bt_mesh_msg_ctx) (elem_addr addr : Z) (vnd : bool) (model : option mod_ptr)
    (status : mesh_status) (mod_id : bytes) : MESH unit :=
  fields ← (if decide (status = STATUS_SUCCESS) then
              p ← need model;
              m ← get_mod p;
              pub ← need (mod_pub m);
              mret (sys_put_le16 addr
                    ++ sys_put_le16 (u16 (Z.lor (pub_key pub) (Z.shiftl (if pub_cred pub then 1 else 0) 12)))
                    ++ [pub_ttl pub; pub_period pub; pub_retransmit pub])
            else mret (replicate 7 0));
  id ← mod_id_bytes vnd mod_id;
  respond 14 ctx OP_MOD_PUB_STATUS (status_code status :: sys_put_le16 elem_addr ++ fields ++ id).

Definition mod_pub_get (self : mod_ptr) (now : Z) (ctx : bt_mesh_msg_ctx) (buf : bytes) : MESH unit :=
  with_elem buf (fun elem_addr mod_id =>
    '(vnd, found) ← find_mod elem_addr mod_id;
    match found with
    | inl status => send_mod_pub_status ctx elem_addr 0 vnd None status mod_id
    | inr p =>
        m ← get_mod p;
        match mod_pub m with
        | None => send_mod_pub_status ctx elem_addr 0 vnd (Some p) STATUS_NVAL_PUB_PARAM mod_id
        | Some pub => send_mod_pub_status ctx elem_addr (pub_addr pub) vnd (Some p) STATUS_SUCCESS mod_id
        end
    end).

(** The key index with the credential flag, the TTL, the period and the retransmission;
    the inner [None] for a TTL out of range. *)
Definition pull_pub (buf : bytes) : option (option (Z * bool * Z * Z * Z) * bytes) :=
  '(idx, buf) ← pull_le16 buf;
  '(ttl, buf) ← pull_u8 buf;
  if (BT_MESH_TTL_MAX <? ttl) && negb (ttl =? BT_MESH_TTL_DEFAULT) then Some (None, buf)
  else
    '(period, buf) ← pull_u8 buf;
    '(retransmit, buf) ← pull_u8 buf;
    Some (Some (Z.land idx 4095, Z.testbit idx 12, ttl, period, retransmit), buf).

Definition mod_pub_set (self : mod_ptr) (now : Z) (ctx : bt_mesh_msg_ctx) (buf : bytes) : MESH unit :=
  with_elem buf (fun elem_addr buf =>
    '(addr, buf) ← need (pull_le16 buf);
    '(fields, mod_id) ← need (pull_pub buf);
    match fields with
    | None => mret tt
    | Some (app_idx, cred_flag, ttl, period, retransmit) =>
        '(vnd, found) ← find_mod elem_addr mod_id;
        match found with
        | inl status => send_mod_pub_status ctx elem_addr addr vnd None status mod_id
        | inr p =>
            m ← get_mod p;
            '(status, m) ← _mod_pub_set config_settings config_labels has_update m addr app_idx cred_flag ttl period retransmit true;
            _ ← set_mod p m;
            send_mod_pub_status ctx elem_addr addr vnd (Some p) status mod_id
        end
    end).

Definition mod_pub_va_set (self : mod_ptr) (now : Z) (ctx : bt_mesh_msg_ctx) (buf : bytes) : MESH unit :=
  with_elem buf (fun elem_addr buf =>
    '(label_uuid, buf) ← need (pull_mem 16 buf);
    '(fields, mod_id) ← need (pull_pub buf);
    match fields with
    | None => mret tt
    | Some (app_idx, cred_flag, ttl, period, retransmit) =>
        '(vnd, found) ← find_mod elem_addr mod_id;
        match found with
        | inl status => send_mod_pub_status ctx elem_addr 0 vnd None status mod_id
        | inr p =>
            '(status, addr) ← bt_mesh_va_add label_uuid;
            match addr with
            | None => send_mod_pub_status ctx elem_addr uninit vnd (Some p) status mod_id
            | Some addr =>
                m ← get_mod p;
                '(status, m) ← _mod_pub_set config_settings config_labels has_update m addr app_idx cred_flag ttl period retransmit true;
                _ ← set_mod p m;
                _ ← (if decide (status = STATUS_SUCCESS) then mret tt else _ ← bt_mesh_va_del label_uuid; mret tt);
                send_mod_pub_status ctx elem_addr addr vnd (Some p) status mod_id
            end
        end
    end).

(** ** Subscriptions *)

Definition send_mod_sub_status (ctx : bt_mesh_msg_ctx) (status : mesh_status) (elem_addr sub_addr : Z) (mod_id : bytes)
    (vnd : bool) : MESH unit :=
  id ← mod_id_bytes vnd mod_id;
  respond 9 ctx OP_MOD_SUB_STATUS (status_code status :: sys_put_le16 elem_addr ++ sys_put_le16 sub_addr ++ id).

Definition store_mod_sub : MESH unit := when config_settings (mesh_event_log EvStoreModSub).

(** Writes the entry [i] of the model's subscriptions. *)
Definition set_group (p : mod_ptr) (i : nat) (addr : Z) : MESH unit :=
  m ← get_mod p; set_mod p (m <| mod_groups := <[i := addr]> (mod_groups m) |>).

(** The model's extension tree is the model. *)
Definition mod_sub_clear (p : mod_ptr) : MESH unit :=
  m ← get_mod p;
  '(_, groups) ← mod_sub_list_clear (mod_groups m);
  set_mod p (m <| mod_groups := groups |>).

(** A request with a group address: [f] for the model found. *)
Definition with_group (ctx : bt_mesh_msg_ctx) (buf : bytes) (f : mod_ptr -> Z -> MESH mesh_status) : MESH unit :=
  with_elem buf (fun elem_addr buf =>
    '(sub_addr, mod_id) ← need (pull_le16 buf);
    '(vnd, found) ← find_mod elem_addr mod_id;
    status ← match found with
             | inl status => mret status
             | inr p => if negb (BT_MESH_ADDR_IS_GROUP sub_addr) then mret STATUS_INVALID_ADDRESS else f p sub_addr
             end;
    send_mod_sub_status ctx status elem_addr sub_addr mod_id vnd).

Definition mod_sub_add (self : mod_ptr) (now : Z) (ctx : bt_mesh_msg_ctx) (buf : bytes) : MESH unit :=
  with_group ctx buf (fun p sub_addr =>
    m ← get_mod p;
    match bt_mesh_model_find_group m sub_addr, bt_mesh_model_find_group m BT_MESH_ADDR_UNASSIGNED with
    | Some _, _ => mret STATUS_SUCCESS
    | None, None => mret STATUS_INSUFF_RESOURCES
    | None, Some i => _ ← set_group p i sub_addr; _ ← store_mod_sub; mret STATUS_SUCCESS
    end).

Definition mod_sub_del (self : mod_ptr) (now : Z) (ctx : bt_mesh_msg_ctx) (buf : bytes) : MESH unit :=
  with_group ctx buf (fun p sub_addr =>
    m ← get_mod p;
    match bt_mesh_model_find_group m sub_addr with
    | None => mret STATUS_SUCCESS
    | Some i => _ ← set_group p i BT_MESH_ADDR_UNASSIGNED; _ ← store_mod_sub; mret STATUS_SUCCESS
    end).

Definition mod_sub_overwrite (self : mod_ptr) (now : Z) (ctx : bt_mesh_msg_ctx) (buf : bytes) : MESH unit :=
  with_group ctx buf (fun p sub_addr =>
    m ← get_mod p;
    if (0 <? length (mod_groups m))%nat then
      _ ← mod_sub_clear p; _ ← set_group p 0 sub_addr; _ ← store_mod_sub; mret STATUS_SUCCESS
    else mret STATUS_INSUFF_RESOURCES).

Definition mod_sub_del_all (self : mod_ptr) (now : Z) (ctx : bt_mesh_msg_ctx) (buf : bytes) : MESH unit :=
  with_elem buf (fun elem_addr mod_id =>
    '(vnd, found) ← find_mod elem_addr mod_id;
    status ← match found with
             | inl status => mret status
             | inr p => _ ← mod_sub_clear p; _ ← store_mod_sub; mret STATUS_SUCCESS
             end;
    send_mod_sub_status ctx status elem_addr BT_MESH_ADDR_UNASSIGNED mod_id vnd).

(** The groups that fit into the message, with room left for the MIC. *)
Fixpoint mod_sub_list_visitor (groups : list Z) (msg : bytes) : bytes :=
  match groups with
  | [] => msg
  | g :: groups =>
      if g =? BT_MESH_ADDR_UNASSIGNED then mod_sub_list_visitor groups msg
      else if (BT_MESH_TX_SDU_MAX - length msg <? 2 + 4)%nat then msg
      else mod_sub_list_visitor groups (msg ++ sys_put_le16 g)
  end.

(** The list of the model [find] gives for the element; [id] as the response repeats it. *)
Definition mod_sub_list (ctx : bt_mesh_msg_ctx) (op : cfg_op) (addr : Z) (id : bytes) (find : nat -> bt_mesh_elem -> option mod_ptr)
    : MESH unit :=
  elem ← gets (fun t => bt_mesh_elem_find (net_comp (tr_net t)) addr);
  elem ← need elem;
  let head status := op_bytes op ++ status_code status :: sys_put_le16 addr ++ id in
  if (BT_MESH_TX_SDU_MAX <? length (head STATUS_SUCCESS))%nat then need None
  else
    match elem with
    | None => mesh_event_log (EvModelSend ctx (head STATUS_INVALID_ADDRESS))
    | Some i =>
        e ← gets (fun t => comp_elem (net_comp (tr_net t)) !! i); e ← need e;
        match find i e with
        | None => mesh_event_log (EvModelSend ctx (head STATUS_INVALID_MODEL))
        | Some p => m ← get_mod p; mesh_event_log (EvModelSend ctx (mod_sub_list_visitor (mod_groups m) (head STATUS_SUCCESS)))
        end
    end.

Definition mod_sub_get (self : mod_ptr) (now : Z) (ctx : bt_mesh_msg_ctx) (buf : bytes) : MESH unit :=
  with_elem buf (fun addr buf =>
    '(id, _) ← need (pull_le16 buf);
    mod_sub_list ctx OP_MOD_SUB_LIST addr (sys_put_le16 id)
      (fun i e => mkModPtr i false <$> bt_mesh_model_find e id)).

Definition mod_sub_get_vnd (self : mod_ptr) (now : Z) (ctx : bt_mesh_msg_ctx) (buf : bytes) : MESH unit :=
  with_elem buf (fun addr buf =>
    '(company, buf) ← need (pull_le16 buf);
    '(id, _) ← need (pull_le16 buf);
    mod_sub_list ctx OP_MOD_SUB_LIST_VND addr (sys_put_le16 company ++ sys_put_le16 id)
      (fun i e => mkModPtr i true <$> bt_mesh_model_find_vnd e company id)).

(** A request with a label: [f] gives the status and the address for the response;
    [sub_addr] is the address when there is no such model. *)
Definition with_label (ctx : bt_mesh_msg_ctx) (buf : bytes) (f : mod_ptr -> bytes -> MESH (mesh_status * Z)) : MESH unit :=
  with_elem buf (fun elem_addr buf =>
    '(label_uuid, mod_id) ← need (pull_mem 16 buf);
    '(vnd, found) ← find_mod elem_addr mod_id;
    '(status, sub_addr) ← match found with
                          | inl status => mret (status, BT_MESH_ADDR_UNASSIGNED)
                          | inr p => f p label_uuid
                          end;
    send_mod_sub_status ctx status elem_addr sub_addr mod_id vnd).

(** When the label is not stored, [sub_addr] is sent as it is on the stack. *)
Definition mod_sub_va_add (self : mod_ptr) (now : Z) (ctx : bt_mesh_msg_ctx) (buf : bytes) : MESH unit :=
  with_label ctx buf (fun p label_uuid =>
    '(status, addr) ← bt_mesh_va_add label_uuid;
    match addr with
    | None => mret (status, uninit)
    | Some sub_addr =>
        m ← get_mod p;
        match bt_mesh_model_find_group m sub_addr, bt_mesh_model_find_group m BT_MESH_ADDR_UNASSIGNED with
        | Some _, _ => _ ← bt_mesh_va_del label_uuid; mret (STATUS_SUCCESS, sub_addr)
        | None, None => _ ← bt_mesh_va_del label_uuid; mret (STATUS_INSUFF_RESOURCES, sub_addr)
        | None, Some i => _ ← set_group p i sub_addr; _ ← store_mod_sub; mret (STATUS_SUCCESS, sub_addr)
        end
    end).

(** When the label is not stored, the handler goes on with [sub_addr] as it is on the
    stack. *)
Definition mod_sub_va_del (self : mod_ptr) (now : Z) (ctx : bt_mesh_msg_ctx) (buf : bytes) : MESH unit :=
  with_label ctx buf (fun p label_uuid =>
    '(status, addr) ← bt_mesh_va_del label_uuid;
    let sub_addr := default uninit addr in
    if sub_addr =? BT_MESH_ADDR_UNASSIGNED then mret (status, sub_addr)
    else
      m ← get_mod p;
      match bt_mesh_model_find_group m sub_addr with
      | None => mret (STATUS_CANNOT_REMOVE, sub_addr)
      | Some i => _ ← set_group p i BT_MESH_ADDR_UNASSIGNED; _ ← store_mod_sub; mret (STATUS_SUCCESS, sub_addr)
      end).

Definition mod_sub_va_overwrite (self : mod_ptr) (now : Z) (ctx : bt_mesh_msg_ctx) (buf : bytes) : MESH unit :=
  with_label ctx buf (fun p label_uuid =>
    m ← get_mod p;
    if (0 <? length (mod_groups m))%nat then
      '(status, addr) ← bt_mesh_va_add label_uuid;
      match addr with
      | None => mret (status, BT_MESH_ADDR_UNASSIGNED)
      | Some sub_addr => _ ← mod_sub_clear p; _ ← set_group p 0 sub_addr; _ ← store_mod_sub; mret (status, sub_addr)
      end
    else mret (STATUS_INSUFF_RESOURCES, BT_MESH_ADDR_UNASSIGNED)).

(** ** Network keys *)

Definition send_net_key_status (ctx : bt_mesh_msg_ctx) (idx : Z) (status : mesh_status) : MESH unit :=
  respond 3 ctx OP_NET_KEY_STATUS (status_code status :: sys_put_le16 idx).

Definition net_key_add (self : mod_ptr) (now : Z) (ctx : bt_mesh_msg_ctx) (buf : bytes) : MESH unit :=
  with_idx buf (fun idx buf =>
    '(key, _) ← need (pull_mem 16 buf);
    status ← subnets_op config_settings config_labels has_update (bt_mesh_subnet_add config_proxy idx key);
    send_net_key_status ctx idx status).

Definition net_key_update (self : mod_ptr) (now : Z) (ctx : bt_mesh_msg_ctx) (buf : bytes) : MESH unit :=
  with_idx buf (fun idx buf =>
    '(key, _) ← need (pull_mem 16 buf);
    status ← subnets_op config_settings config_labels has_update (bt_mesh_subnet_update config_proxy idx key);
    send_net_key_status ctx idx status).

(** The key the message was encrypted with stays. *)
Definition net_key_del (self : mod_ptr) (now : Z) (ctx : bt_mesh_msg_ctx) (buf : bytes) : MESH unit :=
  with_idx buf (fun del_idx _ =>
    if ctx_net_idx ctx =? del_idx then send_net_key_status ctx del_idx STATUS_CANNOT_REMOVE
    else
      _ ← subnets_op config_settings config_labels has_update (bt_mesh_subnet_del del_idx);
      send_net_key_status ctx del_idx STATUS_SUCCESS).

Definition net_key_get (self : mod_ptr) (now : Z) (ctx : bt_mesh_msg_ctx) (buf : bytes) : MESH unit :=
  table ← gets (fun t => net_subnets (tr_net t));
  let count := length (subs table) in
  net_idx ← need (match bt_mesh_subnets_get count 0 table with inr l => Some l | inl _ => None end);
  respond (IDX_LEN count) ctx OP_NET_KEY_LIST (key_idx_list net_idx).

(** ** Node identity and key refresh *)

Definition send_node_id_status (ctx : bt_mesh_msg_ctx) (status : mesh_status) (net_idx node_id : Z) : MESH unit :=
  respond 4 ctx OP_NODE_IDENTITY_STATUS (status_code status :: sys_put_le16 net_idx ++ [node_id]).

Definition node_identity_get (self : mod_ptr) (now : Z) (ctx : bt_mesh_msg_ctx) (buf : bytes) : MESH unit :=
  with_idx buf (fun idx _ =>
    '(status, node_id) ← gets (fun t => bt_mesh_subnet_node_id_get idx (net_subnets (tr_net t)));
    send_node_id_status ctx status idx (feat_code node_id)).

Definition node_identity_set (self : mod_ptr) (now : Z) (ctx : bt_mesh_msg_ctx) (buf : bytes) : MESH unit :=
  with_idx buf (fun idx buf =>
    b ← first_byte buf;
    match feat_of b with
    | None => mret tt
    | Some node_id =>
        status ← subnets_op config_settings config_labels has_update (bt_mesh_subnet_node_id_set config_proxy idx node_id);
        if decide (status = STATUS_INVALID_NETKEY)
        then send_node_id_status ctx status idx (feat_code BT_MESH_FEATURE_DISABLED)
        else if decide (status = STATUS_FEAT_NOT_SUPP)
        then send_node_id_status ctx STATUS_SUCCESS idx (feat_code BT_MESH_FEATURE_NOT_SUPPORTED)
        else send_node_id_status ctx status idx b
    end).

Definition send_krp_status (ctx : bt_mesh_msg_ctx) (idx phase : Z) (status : mesh_status) : MESH unit :=
  respond 4 ctx OP_KRP_STATUS (status_code status :: sys_put_le16 idx ++ [phase]).

Definition krp_get (self : mod_ptr) (now : Z) (ctx : bt_mesh_msg_ctx) (buf : bytes) : MESH unit :=
  with_idx buf (fun idx _ =>
    '(status, phase) ← gets (fun t => bt_mesh_subnet_kr_phase_get idx (net_subnets (tr_net t)));
    send_krp_status ctx idx phase status).

Definition krp_set (self : mod_ptr) (now : Z) (ctx : bt_mesh_msg_ctx) (buf : bytes) : MESH unit :=
  '(idx, buf) ← need (pull_le16 buf);
  '(phase, _) ← need (pull_u8 buf);
  if 4095 <? idx then mret tt
  else
    '(status, phase) ← subnets_op config_settings config_labels has_update (bt_mesh_subnet_kr_phase_set idx phase);
    if decide (status = STATUS_CANNOT_UPDATE) then mret tt else send_krp_status ctx idx phase status.

(** ** Bindings *)

Definition create_mod_app_status (vnd : bool) (elem_addr app_idx : Z) (status : mesh_status) (mod_id : bytes) : MESH bytes :=
  id ← mod_id_bytes vnd mod_id;
  mret (status_code status :: sys_put_le16 elem_addr ++ sys_put_le16 app_idx ++ id).

(** A request with a key index: [f] for the model found. *)
Definition with_app_idx (ctx : bt_mesh_msg_ctx) (buf : bytes) (f : mod_ptr -> Z -> MESH mesh_status) : MESH unit :=
  with_elem buf (fun elem_addr buf =>
    '(key_app_idx, mod_id) ← need (pull_le16 buf);
    '(vnd, found) ← find_mod elem_addr mod_id;
    status ← match found with inl status => mret status | inr p => f p key_app_idx end;
    msg ← create_mod_app_status vnd elem_addr key_app_idx status mod_id;
    respond 9 ctx OP_MOD_APP_STATUS msg).

(** The Configuration Server itself is reached with the device key only. *)
Definition mod_app_bind (self : mod_ptr) (now : Z) (ctx : bt_mesh_msg_ctx) (buf : bytes) : MESH unit :=
  with_app_idx ctx buf (fun p key_app_idx =>
    if decide (self = p) then mret STATUS_CANNOT_BIND
    else
      m ← get_mod p;
      '(status, m) ← mod_bind config_settings m key_app_idx;
      _ ← set_mod p m;
      mret status).

Definition mod_app_unbind (self : mod_ptr) (now : Z) (ctx : bt_mesh_msg_ctx) (buf : bytes) : MESH unit :=
  with_app_idx ctx buf (fun p key_app_idx =>
    m ← get_mod p;
    exist ← gets (fun t => bt_mesh_app_key_exists key_app_idx (tr_apps t));
    '(status, m) ← mod_unbind config_settings config_labels has_update exist m key_app_idx true;
    _ ← set_mod p m;
    mret status).

(** The room for the keys is that of the model's array of keys. *)
Definition mod_app_get (self : mod_ptr) (now : Z) (ctx : bt_mesh_msg_ctx) (buf : bytes) : MESH unit :=
  with_elem buf (fun elem_addr mod_id =>
    '(vnd, found) ← find_mod elem_addr mod_id;
    keys ← match found with inl _ => mret ([] : list Z) | inr p => m ← get_mod p; mret (mod_keys m) end;
    id ← mod_id_bytes vnd mod_id;
    let status := match found with inl status => status | inr _ => STATUS_SUCCESS end in
    respond (9 + length keys * 2) ctx (if vnd : bool then OP_VND_MOD_APP_LIST else OP_SIG_MOD_APP_LIST)
      (status_code status :: sys_put_le16 elem_addr ++ id
       ++ flat_map sys_put_le16 (List.filter (fun k => negb (k =? BT_MESH_KEY_UNUSED)) keys))).

(** ** Reset *)

(** With a GATT proxy the reset waits until the proxy is idle. *)
Definition node_reset (self : mod_ptr) (now : Z) (ctx : bt_mesh_msg_ctx) (buf : bytes) : MESH unit :=
  _ ← respond 0 ctx OP_NODE_RESET_STATUS [];
  if negb config_proxy
  then bt_mesh_reset config_proxy config_friend config_cdb config_settings config_labels has_update env prov_reset
  else mesh_event_log EvProxyOnIdle.

(** ** Heartbeats *)

(** [32 - __builtin_clz(val - 1)] is the number of significant bits of [val - 1]. *)
Definition hb_pub_count_log (val : Z) : Z :=
  if val =? 0 then 0 else if val =? 1 then 1 else if val =? 65535 then 255 else u8 (Z.log2 (val - 1) + 1 + 1).

Definition hb_pub_send_status (ctx : bt_mesh_msg_ctx) (status : mesh_status) (pub : bt_mesh_hb_pub) : MESH unit :=
  respond 10 ctx OP_HEARTBEAT_PUB_STATUS
    (status_code status :: sys_put_le16 (hbp_dst pub) ++ [hb_pub_count_log (hbp_count pub); bt_mesh_hb_log (hbp_period pub); hbp_ttl pub]
     ++ sys_put_le16 (hbp_feat pub) ++ sys_put_le16 (hbp_net_idx pub)).

Definition heartbeat_pub_get (self : mod_ptr) (now : Z) (ctx : bt_mesh_msg_ctx) (buf : bytes) : MESH unit :=
  pub ← up hb_pub; hb_pub_send_status ctx STATUS_SUCCESS pub.

(** The powers of two are computed before the logarithms are checked. *)
Definition heartbeat_pub_set (self : mod_ptr) (now : Z) (ctx : bt_mesh_msg_ctx) (buf : bytes) : MESH unit :=
  '(dst, buf) ← need (pull_le16 buf);
  '(count_log, buf) ← need (pull_u8 buf);
  '(period_log, buf) ← need (pull_u8 buf);
  '(ttl, buf) ← need (pull_u8 buf);
  '(feat, buf) ← need (pull_le16 buf);
  '(net_idx, _) ← need (pull_le16 buf);
  count ← need (bt_mesh_hb_pwr2 count_log);
  period ← need (bt_mesh_hb_pwr2 period_log);
  let pub := mkHbPub dst count ttl feat net_idx period in
  if BT_MESH_ADDR_IS_VIRTUAL dst then hb_pub_send_status ctx STATUS_INVALID_ADDRESS pub
  else if (17 <? count_log) && negb (count_log =? 255) then hb_pub_send_status ctx STATUS_CANNOT_SET pub
  else if 16 <? period_log then hb_pub_send_status ctx STATUS_CANNOT_SET pub
  else if (BT_MESH_TTL_MAX <? ttl) && negb (ttl =? BT_MESH_TTL_DEFAULT) then mret tt
  else if 4095 <? net_idx then mret tt
  else
    status ← bt_mesh_hb_pub_set config_settings now (Some pub);
    (* On success [bt_mesh_hb_pub_set] also masks the features of [pub]. *)
    hb_pub_send_status ctx status
      (if bool_decide (status = STATUS_SUCCESS) && negb (dst =? BT_MESH_ADDR_UNASSIGNED)
       then pub <| hbp_feat := Z.land feat BT_MESH_FEAT_SUPPORTED |> else pub).

Definition hb_sub_send_status (ctx : bt_mesh_msg_ctx) (sub : bt_mesh_hb_sub) : MESH unit :=
  respond 9 ctx OP_HEARTBEAT_SUB_STATUS
    (status_code STATUS_SUCCESS :: sys_put_le16 (hbs_src sub) ++ sys_put_le16 (hbs_dst sub)
     ++ [bt_mesh_hb_log (hbs_remaining sub); bt_mesh_hb_log (hbs_count sub); hbs_min_hops sub; hbs_max_hops sub]).

Definition heartbeat_sub_get (self : mod_ptr) (now : Z) (ctx : bt_mesh_msg_ctx) (buf : bytes) : MESH unit :=
  sub ← up (bt_mesh_hb_sub_get now); hb_sub_send_status ctx sub.

Definition heartbeat_sub_set (self : mod_ptr) (now : Z) (ctx : bt_mesh_msg_ctx) (buf : bytes) : MESH unit :=
  '(sub_src, buf) ← need (pull_le16 buf);
  '(sub_dst, buf) ← need (pull_le16 buf);
  '(period_log, _) ← need (pull_u8 buf);
  if 17 <? period_log then mret tt
  else
    period ← need (bt_mesh_hb_pwr2 period_log);
    status ← bt_mesh_hb_sub_set now sub_src sub_dst period;
    if decide (status = STATUS_SUCCESS) then
      sub ← up (bt_mesh_hb_sub_get now);
      hb_sub_send_status ctx (if period_log =? 0 then sub <| hbs_min_hops := BT_MESH_TTL_MAX |> else sub)
    else mret tt.

(** ** The table *)

Definition bt_mesh_cfg_srv_op : list (cfg_op * nat * (mod_ptr -> Z -> bt_mesh_msg_ctx -> bytes -> MESH unit)) :=
  [(OP_DEV_COMP_DATA_GET, 1%nat, dev_comp_data_get);
   (OP_APP_KEY_ADD, 19%nat, app_key_add);
   (OP_APP_KEY_UPDATE, 19%nat, app_key_update);
   (OP_APP_KEY_DEL, 3%nat, app_key_del);
   (OP_APP_KEY_GET, 2%nat, app_key_get);
   (OP_BEACON_GET, 0%nat, beacon_get);
   (OP_BEACON_SET, 1%nat, beacon_set);
   (OP_DEFAULT_TTL_GET, 0%nat, default_ttl_get);
   (OP_DEFAULT_TTL_SET, 1%nat, default_ttl_set);
   (OP_GATT_PROXY_GET, 0%nat, gatt_proxy_get);
   (OP_GATT_PROXY_SET, 1%nat, gatt_proxy_set);
   (OP_NET_TRANSMIT_GET, 0%nat, net_transmit_get);
   (OP_NET_TRANSMIT_SET, 1%nat, net_transmit_set);
   (OP_RELAY_GET, 0%nat, relay_get);
   (OP_RELAY_SET, 2%nat, relay_set);
   (OP_MOD_PUB_GET, 4%nat, mod_pub_get);
   (OP_MOD_PUB_SET, 11%nat, mod_pub_set);
   (OP_MOD_PUB_VA_SET, 24%nat, mod_pub_va_set);
   (OP_MOD_SUB_ADD, 6%nat, mod_sub_add);
   (OP_MOD_SUB_VA_ADD, 20%nat, mod_sub_va_add);
   (OP_MOD_SUB_DEL, 6%nat, mod_sub_del);
   (OP_MOD_SUB_VA_DEL, 20%nat, mod_sub_va_del);
   (OP_MOD_SUB_OVERWRITE, 6%nat, mod_sub_overwrite);
   (OP_MOD_SUB_VA_OVERWRITE, 20%nat, mod_sub_va_overwrite);
   (OP_MOD_SUB_DEL_ALL, 4%nat, mod_sub_del_all);
   (OP_MOD_SUB_GET, 4%nat, mod_sub_get);
   (OP_MOD_SUB_GET_VND, 6%nat, mod_sub_get_vnd);
   (OP_NET_KEY_ADD, 18%nat, net_key_add);
   (OP_NET_KEY_UPDATE, 18%nat, net_key_update);
   (OP_NET_KEY_DEL, 2%nat, net_key_del);
   (OP_NET_KEY_GET, 0%nat, net_key_get);
   (OP_NODE_IDENTITY_GET, 2%nat, node_identity_get);
   (OP_NODE_IDENTITY_SET, 3%nat, node_identity_set);
   (OP_MOD_APP_BIND, 6%nat, mod_app_bind);
   (OP_MOD_APP_UNBIND, 6%nat, mod_app_unbind);
   (OP_SIG_MOD_APP_GET, 4%nat, mod_app_get);
   (OP_VND_MOD_APP_GET, 6%nat, mod_app_get);
   (OP_NODE_RESET, 0%nat, node_reset);
   (OP_FRIEND_GET, 0%nat, friend_get);
   (OP_FRIEND_SET, 1%nat, friend_set);
   (OP_LPN_TIMEOUT_GET, 2%nat, lpn_timeout_get);
   (OP_KRP_GET, 2%nat, krp_get);
   (OP_KRP_SET, 3%nat, krp_set);
   (OP_HEARTBEAT_PUB_GET, 0%nat, heartbeat_pub_get);
   (OP_HEARTBEAT_PUB_SET, 9%nat, heartbeat_pub_set);
   (OP_HEARTBEAT_SUB_GET, 0%nat, heartbeat_sub_get);
   (OP_HEARTBEAT_SUB_SET, 5%nat, heartbeat_sub_set)].

(** The access layer's entry of the table. *)
Definition cfg_srv_ops : list bt_mesh_model_op := map (fun '(op, min_len, _) => mkOp (op_code op) min_len) bt_mesh_cfg_srv_op.

(** [bt_mesh_model_recv] for a message to the Configuration Server [self]: the handler
    of the opcode, unless the message is too short. *)
Definition cfg_srv_recv (self : mod_ptr) (now : Z) (ctx : bt_mesh_msg_ctx) (opcode : Z) (buf : bytes) : MESH unit :=
  match List.find (fun '(op, _, _) => op_code op =? opcode) bt_mesh_cfg_srv_op with
  | None => mret tt
  | Some (_, min_len, func) => if (length buf <? min_len)%nat then mret tt else func self now ctx buf
  end.

(** [op->func] as the access layer calls it for model [j] of element [i]; [other] are
    the handlers of the other models. *)
Definition cfg_op_func (now : Z)
    (other : nat -> nat -> bt_mesh_model_op -> bt_mesh_msg_ctx -> net_buf_simple -> Z -> MESH net_buf_simple)
    (i j : nat) (op : bt_mesh_model_op) (ctx : bt_mesh_msg_ctx) (buf : net_buf_simple) (rssi : Z) : MESH net_buf_simple :=
  match List.find (fun '(o, _, _) => op_code o =? op_opcode op) bt_mesh_cfg_srv_op with
  | Some (_, _, func) => _ ← func (mkModPtr i false j) now ctx (contents buf); mret buf
  | None => other i j op ctx buf rssi
  end.

(** The device key is the only one the Configuration Server has. *)
Definition cfg_srv_init (m : bt_mesh_model) : ret_code * bt_mesh_model :=
  if negb (mod_elem_idx m =? 0)%nat then (Some EINVAL, m)
  else (None, m <| mod_keys := <[0%nat := BT_MESH_KEY_DEV_LOCAL]> (mod_keys m) |>).

End CfgSrv.

(** ** The requests of the Configuration Client (cfg_cli.c) *)

Definition app_key_add_msg (key_net_idx key_app_idx : Z) (app_key : bytes) : bytes :=
  op_bytes OP_APP_KEY_ADD ++ key_idx_pack key_net_idx key_app_idx ++ take 16 app_key.

Definition CID_NVAL : Z := 65535.

Definition mod_app_bind_msg (elem_addr mod_app_idx mod_id cid : Z) : bytes :=
  op_bytes OP_MOD_APP_BIND ++ sys_put_le16 elem_addr ++ sys_put_le16 mod_app_idx
  ++ (if cid =? CID_NVAL then [] else sys_put_le16 cid) ++ sys_put_le16 mod_id.
