(* ===== verification/CfgBind.v ===== *)
(** * Bindings of application keys

    The deletion of an application key reaches every model: the events the key table
    sends name each key it loses, and the models give up the keys the events name.  So
    a model is bound to keys of the table only, whatever changes the tables. *)

From S2P Require Import Prelude ByteOrder MeshDefs Cdb NetBuf Access Rpl Ccm MeshCrypto Subnet AppKeys Net Transport Mesh Heartbeat SecureBeacon CfgModels.

(** ** The events of the application keys *)

(** A key that is no longer in the table has been reported as deleted. *)
Definition reports (old new : app_keys) : Prop :=
  exists evs, app_log new = app_log old ++ evs /\
    forall k, k <> BT_MESH_KEY_UNUSED -> bt_mesh_app_key_exists k old = true ->
      bt_mesh_app_key_exists k new = true \/ exists n, In (EvAppKey k n BT_MESH_KEY_DELETED) evs.

Lemma key_exists k s : bt_mesh_app_key_exists k s = true <-> exists i a, apps s !! i = Some a /\ app_idx a = k.
Proof.
  unfold bt_mesh_app_key_exists. rewrite existsb_exists. split.
  - intros (a & Ha & E%Z.eqb_eq). apply list_elem_of_In, list_elem_of_lookup in Ha as [i Hi]. by exists i, a.
  - intros (i & a & Hi & <-). exists a. split; [apply list_elem_of_In; by eapply list_elem_of_lookup_2|apply Z.eqb_refl].
Qed.

Lemma reports_refl s : reports s s.
Proof. exists []. split; [by rewrite app_nil_r|]. auto. Qed.

Lemma reports_trans a b c : reports a b -> reports b c -> reports a c.
Proof.
  intros (e1 & L1 & H1) (e2 & L2 & H2). exists (e1 ++ e2). split; [by rewrite L2, L1, <- app_assoc|].
  intros k Hk Ha. destruct (H1 k Hk Ha) as [Hb|[n Hn]]; [destruct (H2 k Hk Hb) as [Hc|[n Hn]]|]; [by left|right; exists n; apply in_or_app; auto..].
Qed.

(** A change of one slot: its index stays, or it was free, or it is reported. *)
Lemma reports_alter f i s s' evs :
  apps s' = alter f i (apps s) -> app_log s' = app_log s ++ evs ->
  (forall a, apps s !! i = Some a -> app_idx (f a) = app_idx a \/ app_idx a = BT_MESH_KEY_UNUSED \/
     exists n, In (EvAppKey (app_idx a) n BT_MESH_KEY_DELETED) evs) ->
  reports s s'.
Proof.
  intros E L H. exists evs. split; [done|]. intros k Hk (j & a & Hj & <-)%key_exists.
  destruct (decide (i = j)) as [<-|N].
  - destruct (H a Hj) as [Hf|[Hu|Hd]]; [left|done|by right]. apply key_exists. exists i, (f a). by rewrite E, list_lookup_alter_eq, Hj.
  - left. apply key_exists. exists j, a. by rewrite E, list_lookup_alter_ne.
Qed.

(** Nothing but events. *)
Lemma reports_log s s' evs : apps s' = apps s -> app_log s' = app_log s ++ evs -> reports s s'.
Proof. intros E L. exists evs. split; [done|]. intros k _ H. left. unfold bt_mesh_app_key_exists. by rewrite E. Qed.

Section Reports.
Context {cmac : Cmac}.

Lemma del_reports i s : reports s (AppKeys.app_key_del i s).
Proof.
  unfold AppKeys.app_key_del. destruct (apps s !! i) as [a|] eqn:E; [|apply reports_refl].
  eapply reports_alter; [reflexivity|cbn; by rewrite <- app_assoc|]. intros a' Ha'. right. right.
  exists (app_net_idx a). simplify_eq. right. by left.
Qed.

Lemma revoke_reports i s : reports s (app_key_revoke i s).
Proof.
  unfold app_key_revoke. destruct (apps s !! i) as [a|] eqn:E; [|apply reports_refl].
  destruct (app_updated a); [|apply reports_refl]. cbn [negb].
  eapply reports_alter; [reflexivity|cbn; by rewrite <- app_assoc|]. by left.
Qed.

Lemma subnet_evt_reports net_idx evt i s : reports s (subnet_evt_app net_idx evt i s).
Proof.
  unfold subnet_evt_app. destruct (apps s !! i) as [a|] eqn:E; [|apply reports_refl].
  destruct (_ || _); [apply reports_refl|]. destruct evt; try apply reports_refl.
  - apply del_reports.
  - destruct (app_updated a); [|apply reports_refl]. by eapply reports_log.
  - apply revoke_reports.
Qed.

Lemma deliver_reports evts s : reports s (deliver evts s).
Proof.
  unfold deliver. revert s. induction evts as [|e evts IH]; intros s; [apply reports_refl|]. cbn [foldl].
  eapply reports_trans; [|apply IH]. destruct e as [net_idx evt| | | | |]; try apply reports_refl. cbn [deliver_one].
  assert (forall n i s, reports s (subnet_evt_loop net_idx evt n i s)) as Hl.
  { induction n as [|n IHn]; intros i s0; [apply reports_refl|]. cbn. eapply reports_trans; [apply subnet_evt_reports|apply IHn]. }
  unfold app_subnet_evt. destruct evt; (apply reports_refl || apply Hl).
Qed.

Lemma reset_reports s : reports s (bt_mesh_app_keys_reset s).
Proof.
  unfold bt_mesh_app_keys_reset. generalize (length (apps s)) 0%nat. intros n. revert s.
  induction n as [|n IH]; intros s i; [apply reports_refl|]. cbn. eapply reports_trans; [|apply IH].
  destruct (apps s !! i) as [a|]; [|apply reports_refl]. destruct (_ =? _); [apply reports_refl|apply del_reports].
Qed.

Lemma add_reports idx net_idx key table s : reports s (bt_mesh_app_key_add idx net_idx key table s).2.
Proof.
  unfold bt_mesh_app_key_add. destruct (bt_mesh_subnet_get _ _); [|apply reports_refl].
  destruct (app_key_alloc idx s ≫= _) as [[i a]|] eqn:Ha; [|apply reports_refl]. apply app_slot_get in Ha as [Ha Hi].
  destruct (Z.eqb_spec (app_idx a) idx) as [E|N]; [repeat case_match; apply reports_refl|].
  destruct (bt_mesh_app_id key); [apply reports_refl|]. destruct (app_alloc_free idx s i a Ha Hi N) as [Hu _].
  eapply reports_alter; [reflexivity|cbn; by rewrite <- app_assoc|]. intros a' Ha'. simplify_eq. by right; left.
Qed.

Lemma update_reports idx net_idx key table s : reports s (bt_mesh_app_key_update idx net_idx key table s).2.
Proof.
  unfold bt_mesh_app_key_update. destruct (app_get idx s ≫= _) as [[i a]|]; [|apply reports_refl].
  repeat case_match; try apply reports_refl. eapply reports_alter; [reflexivity|cbn; by rewrite <- app_assoc|]. by left.
Qed.

Lemma key_del_reports idx net_idx table s : reports s (bt_mesh_app_key_del idx net_idx table s).2.
Proof.
  unfold bt_mesh_app_key_del. repeat case_match; try apply reports_refl. apply del_reports.
Qed.
End Reports.

(** ** The models *)

(** A key of a model is free, a device key or a key of the table. *)
Definition key_ok (s : app_keys) (k : Z) : Prop := BT_MESH_KEY_DEV_ANY <= k \/ bt_mesh_app_key_exists k s = true.
Definition keys_in (s : app_keys) (m : bt_mesh_model) : Prop := Forall (key_ok s) (mod_keys m).

(** Of every model of the composition. *)
Definition comp_all (P : bt_mesh_model -> Prop) (c : bt_mesh_comp) : Prop :=
  Forall (fun e => Forall P (elem_models e) /\ Forall P (elem_vnd_models e)) (comp_elem c).

(** The same models, each changed by [R]. *)
Definition comp_rel (R : bt_mesh_model -> bt_mesh_model -> Prop) (c c' : bt_mesh_comp) : Prop :=
  dev_primary_addr c' = dev_primary_addr c /\
  Forall2 (fun e e' => elem_addr e' = elem_addr e /\ Forall2 R (elem_models e) (elem_models e') /\
                       Forall2 R (elem_vnd_models e) (elem_vnd_models e')) (comp_elem c) (comp_elem c').

Lemma comp_all_rel (P Q : bt_mesh_model -> Prop) R c c' :
  comp_rel R c c' -> (forall m m', R m m' -> P m -> Q m') -> comp_all P c -> comp_all Q c'.
Proof.
  intros [_ H] HR. unfold comp_all. assert (forall l l', Forall2 R l l' -> Forall P l -> Forall Q l') as Hl.
  { intros l l' HF. induction HF; intros HP; [done|]. inversion HP; subst. constructor; eauto. }
  induction H as [|e e' l l' (_ & H1 & H2) H IH]; intros HP; [done|]. inversion HP as [|? ? [P1 P2]]; subst.
  constructor; [split; by eapply Hl|by apply IH].
Qed.

Lemma comp_all_impl (P Q : bt_mesh_model -> Prop) c : (forall m, P m -> Q m) -> comp_all P c -> comp_all Q c.
Proof. intros H. apply Forall_impl. intros e [H1 H2]. split; (eapply Forall_impl; [exact H|done]). Qed.

Section Bind.
Context {ecb : Ecb} {cmac : Cmac} (config_settings config_labels : bool) (has_update : bt_mesh_model -> bool).
Context {G : Type}.

Abbreviation MESH := (ST (trans (mesh G))).

(** What the Configuration Server's work rests on. *)
Definition view (t : trans (mesh G)) : bt_mesh_comp * app_keys * bt_mesh_hb_pub :=
  (net_comp (tr_net t), tr_apps t, hb_pub (tr_friend t)).

(** [m] is defined and leaves it as it is; [Q] of the result. *)
Definition quiet {A : Type} (m : MESH A) (Q : A -> Prop) : Prop := forall t, wp m (fun a t' => Q a /\ view t' = view t) t.

Lemma quiet_bind {A B : Type} (m : MESH A) (k : A -> MESH B) P Q :
  quiet m P -> (forall a, P a -> quiet (k a) Q) -> quiet (m ≫= k) Q.
Proof.
  intros H1 H2 t. apply wp_bind. eapply wp_mono; [apply H1|]. intros a t1 [Ha Ht]. cbv beta.
  eapply wp_mono; [by apply H2|]. intros b t2 [Hb Ht2]. split; [done|congruence].
Qed.

Lemma quiet_mono {A : Type} (m : MESH A) (P Q : A -> Prop) : quiet m P -> (forall a, P a -> Q a) -> quiet m Q.
Proof. intros H HPQ t. eapply wp_mono; [apply H|]. intros a t' [Ha Ht]. eauto. Qed.

Lemma quiet_ret {A : Type} (a : A) (Q : A -> Prop) : Q a -> quiet (mret a) Q.
Proof. intros H t. by apply wp_ret. Qed.

Lemma quiet_gets {A : Type} (f : trans (mesh G) -> A) (Q : A -> Prop) : (forall t, Q (f t)) -> quiet (gets f) Q.
Proof. intros H t. by apply wp_gets. Qed.

Lemma quiet_modify f : (forall t, view (f t) = view t) -> quiet (modify f) (fun _ => True).
Proof. intros H t. by apply wp_modify. Qed.

Lemma quiet_event e : quiet (mesh_event_log e) (fun _ => True).
Proof. intros t. by apply wp_mesh_event. Qed.

Lemma quiet_when b m : quiet m (fun _ => True) -> quiet (when b m) (fun _ => True).
Proof. intros H t. apply wp_when; intros _; [apply H|done]. Qed.

Lemma quiet_need {A : Type} (o : option A) (Q : A -> Prop) : (exists a, o = Some a /\ Q a) -> quiet (need o) Q.
Proof. intros (a & E & H) t. by eapply wp_need. Qed.

(** The labels. *)
Lemma quiet_va_store i : quiet (va_store i) (fun _ => True).
Proof. eapply quiet_bind; [by apply quiet_modify|]. intros _ _. by apply quiet_modify. Qed.

Lemma quiet_va_del uuid : quiet (bt_mesh_va_del uuid) (fun _ => True).
Proof.
  eapply quiet_bind; [by apply (quiet_gets _ (fun _ => True))|]. intros l _. cbv beta.
  destruct (_ ≫= _) as [[i va]|]; [|by apply quiet_ret].
  eapply quiet_bind; [by apply quiet_modify|]. intros _ _. eapply quiet_bind; [apply quiet_va_store|]. intros _ _. by apply quiet_ret.
Qed.

Lemma quiet_va_add uuid : quiet (bt_mesh_va_add uuid) (fun r => is_Some r.2 <-> r.1 = STATUS_SUCCESS).
Proof.
  eapply quiet_bind; [by apply (quiet_gets _ (fun _ => True))|]. intros l _. cbv beta.
  destruct (_ ≫= _) as [[i va]|]; [|by apply quiet_ret; split; intros [? ?] || intros ?].
  destruct (va_matches uuid va); (eapply quiet_bind; [by apply quiet_modify|]; intros _ _).
  - eapply quiet_bind; [apply quiet_va_store|]. intros _ _. by apply quiet_ret.
  - destruct (bt_mesh_virtual_addr uuid); (eapply quiet_bind; [by apply quiet_modify|]; intros _ _).
    + apply quiet_ret. split; [by intros [? ?]|done].
    + eapply quiet_bind; [apply quiet_va_store|]. intros _ _. by apply quiet_ret.
Qed.

(** The labels of cleared subscriptions. *)
Lemma quiet_list_clear groups : quiet (mod_sub_list_clear groups) (fun r => length r.2 = length groups).
Proof.
  induction groups as [|g groups IH]; [by apply quiet_ret|]. cbn [mod_sub_list_clear].
  eapply quiet_bind; [by apply (quiet_gets _ (fun _ => True))|]. intros label _. eapply (quiet_bind _ _ (fun _ => True)).
  { destruct (BT_MESH_ADDR_IS_VIRTUAL g); [|by apply quiet_ret]. destruct label; [|by apply quiet_ret].
    eapply quiet_bind; [apply quiet_va_del|]. intros _ _. by apply quiet_ret. }
  intros _ _. eapply quiet_bind; [exact IH|]. intros [count groups'] H. apply quiet_ret. cbn in *. by rewrite H.
Qed.

Lemma pub_set_ok m addr app_idx cred ttl period retransmit store :
  quiet (_mod_pub_set config_settings config_labels has_update m addr app_idx cred ttl period retransmit store)
    (fun r => mod_keys r.2 = mod_keys m /\ mod_groups r.2 = mod_groups m /\ (r.1 = STATUS_SUCCESS -> is_Some (mod_pub r.2))).
Proof.
  unfold _mod_pub_set. destruct (mod_pub m) as [pub|] eqn:Hp; [|by apply quiet_ret].
  destruct cred; [by apply quiet_ret|]. destruct (_ && _); [by apply quiet_ret|]. destruct (addr =? _).
  - destruct (pub_addr pub =? _); [by apply quiet_ret; cbn; rewrite Hp|].
    eapply quiet_bind; [apply quiet_when, quiet_event|]. intros _ _. by apply quiet_ret.
  - eapply quiet_bind; [by apply (quiet_gets _ (fun _ => True))|]. intros [|] _; [|by apply quiet_ret]. cbn [negb].
    eapply (quiet_bind _ _ (fun _ => True)).
    { unfold pub_label_del. destruct (_ && _); [|by apply quiet_ret].
      eapply quiet_bind; [by apply (quiet_gets _ (fun _ => True))|]. intros [uuid|] _; [|by apply quiet_ret].
      eapply quiet_bind; [apply quiet_va_del|]. intros _ _. by apply quiet_ret. }
    intros _ _. eapply quiet_bind; [apply quiet_when, quiet_event|]. intros _ _. by apply quiet_ret.
Qed.

(** ** Unbinding *)

Definition drop_key (idx k : Z) : Z := if k =? idx then BT_MESH_KEY_UNUSED else k.

Lemma drop_key_other idx l : ~ In idx l -> map (drop_key idx) l = l.
Proof.
  induction l as [|k l IH]; [done|]. intros H. cbn. unfold drop_key at 1.
  destruct (Z.eqb_spec k idx) as [->|N]; [by destruct H; left|]. rewrite IH; [done|]. intros Hl. apply H. by right.
Qed.

Lemma unbind_loop_ok idx store n : forall i m, length (mod_keys m) = (i + n)%nat ->
  quiet (mod_unbind_loop config_settings config_labels has_update idx store n i m)
    (fun m' => mod_keys m' = take i (mod_keys m) ++ map (drop_key idx) (drop i (mod_keys m)) /\
               (~ In idx (drop i (mod_keys m)) -> m' = m)).
Proof.
  induction n as [|n IH]; intros i m L; cbn [mod_unbind_loop].
  { apply quiet_ret. rewrite drop_ge, take_ge, app_nil_r by lia. done. }
  destruct (lookup_lt_is_Some_2 (mod_keys m) i ltac:(lia)) as [k Hk]. rewrite Hk.
  rewrite (drop_S _ _ _ Hk). cbn [map]. destruct (Z.eqb_spec k idx) as [->|N]; cbn [negb].
  - eapply quiet_bind; [apply quiet_when, quiet_event|]. intros _ _.
    set (m1 := m <| mod_keys := _ |>). eapply (quiet_bind _ _ (fun m2 => mod_keys m2 = mod_keys m1)).
    { destruct (match mod_pub m1 with Some pub => _ | None => false end); [|by apply quiet_ret].
      eapply quiet_bind; [apply pub_set_ok|]. intros [st m2] [H _]. by apply quiet_ret. }
    intros m2 E. assert (length (mod_keys m2) = (S i + n)%nat) as L2 by (rewrite E; cbn; rewrite length_insert; lia).
    eapply quiet_mono; [by apply IH|]. intros m' [H _]. split; [|intros HN; by destruct HN; left].
    rewrite H, E. cbn. rewrite (take_S_r _ _ BT_MESH_KEY_UNUSED) by (apply list_lookup_insert_eq; lia).
    rewrite take_insert_ge, drop_insert_lt by lia. rewrite <- app_assoc. cbn. unfold drop_key at 2. by rewrite Z.eqb_refl.
  - eapply quiet_mono; [apply IH; lia|]. intros m' [H1 H2]. split.
    + rewrite H1, (take_S_r _ _ _ Hk), <- app_assoc. cbn. unfold drop_key at 2. by rewrite (proj2 (Z.eqb_neq k idx)).
    + intros HN. apply H2. intros HI. apply HN. by right.
Qed.

(** A model after the deletion of a key. *)
Definition unbinds (idx : Z) (m m' : bt_mesh_model) : Prop :=
  mod_keys m' = map (drop_key idx) (mod_keys m) /\ (~ In idx (mod_keys m) -> m' = m).

Lemma unbind_ok idx m store :
  quiet (mod_unbind config_settings config_labels has_update true m idx store) (fun r => unbinds idx m r.2).
Proof. eapply quiet_bind; [by apply (unbind_loop_ok idx store _ 0)|]. intros m' H. apply quiet_ret. exact H. Qed.

(** ** Walks over the models *)

Lemma map_models_ok f R l : (forall m, quiet (f m) (R m)) -> quiet (map_models f l) (Forall2 R l).
Proof.
  intros H. induction l as [|m l IH]; [by apply quiet_ret|]. cbn. eapply quiet_bind; [apply H|]. intros m' Hm.
  eapply quiet_bind; [exact IH|]. intros l' Hl. apply quiet_ret. by constructor.
Qed.

Lemma foreach_ok f R (t : trans (mesh G)) :
  (forall m, quiet (f m) (R m)) ->
  wp (model_foreach f) (fun _ t' => comp_rel R (net_comp (tr_net t)) (net_comp (tr_net t')) /\
                          tr_apps t' = tr_apps t /\ hb_pub (tr_friend t') = hb_pub (tr_friend t)) t.
Proof.
  intros H. unfold model_foreach. mesh_step. mesh_step.
  assert (forall l, quiet (map_elems f l) (Forall2 (fun e e' => elem_addr e' = elem_addr e /\ Forall2 R (elem_models e) (elem_models e') /\
            Forall2 R (elem_vnd_models e) (elem_vnd_models e')) l)) as Hl.
  { induction l as [|e l IH]; [by apply quiet_ret|]. cbn. eapply quiet_bind; [by apply map_models_ok|]. intros ms Hms.
    eapply quiet_bind; [by apply map_models_ok|]. intros vs Hvs. eapply quiet_bind; [exact IH|]. intros l' Hl'.
    apply quiet_ret. by constructor. }
  mesh_step. eapply wp_mono; [apply Hl|]. cbv beta. intros l' t' [H1 H2]. mesh_step. unfold view in H2. injection H2 as E1 E2 E3.
  split; [|split; [exact E2|exact E3]]. split; [cbn; by rewrite E1|exact H1].
Qed.

(** ** Deliveries *)

(** A model after events: the keys reported as deleted are gone, and it changed only
    if it had one of them. *)
Definition informed (evs : list app_event) (m m' : bt_mesh_model) : Prop :=
  (forall k, In k (mod_keys m') -> k = BT_MESH_KEY_UNUSED \/
     (In k (mod_keys m) /\ forall n, ~ In (EvAppKey k n BT_MESH_KEY_DELETED) evs)) /\
  ((forall k n, In (EvAppKey k n BT_MESH_KEY_DELETED) evs -> ~ In k (mod_keys m)) -> m' = m).

Lemma informed_skip e evs m m' :
  (forall k n, e <> EvAppKey k n BT_MESH_KEY_DELETED) -> informed evs m m' -> informed (e :: evs) m m'.
Proof.
  intros He [H1 H2]. split.
  - intros k Hk. destruct (H1 k Hk) as [->|[Hm Hn]]; [by left|right]. split; [done|]. intros n [E|E]; [by apply (He k n)|by apply (Hn n)].
  - intros H. apply H2. intros k n Hin. apply (H k n). by right.
Qed.

Lemma informed_delete idx n evs m m1 m' :
  unbinds idx m m1 -> informed evs m1 m' -> informed (EvAppKey idx n BT_MESH_KEY_DELETED :: evs) m m'.
Proof.
  intros [U1 U2] [H1 H2]. split.
  - intros k Hk. destruct (H1 k Hk) as [->|[Hm Hn]]; [by left|]. rewrite U1 in Hm. apply in_map_iff in Hm as (k' & E & Hk').
    unfold drop_key in E. destruct (Z.eqb_spec k' idx) as [|N]; [by left|]. subst k'. right. split; [done|].
    intros n' [[= E' _]|E']; [by apply N|by apply (Hn n')].
  - intros H. assert (~ In idx (mod_keys m)) as HN by (apply (H idx n); by left). rewrite (U2 HN) in H2. apply H2.
    intros k n' Hin. apply (H k n'). by right.
Qed.

Lemma informed_nil m : informed [] m m.
Proof. split; [|done]. intros k Hk. right. split; [done|]. by intros n []. Qed.

Lemma comp_rel_refl (R : bt_mesh_model -> bt_mesh_model -> Prop) c : (forall m, R m m) -> comp_rel R c c.
Proof.
  intros H. split; [done|]. apply Forall_Forall2_diag, list.Forall_forall. intros e _.
  split; [done|]. by split; apply Forall_Forall2_diag, list.Forall_forall.
Qed.

Lemma Forall2_comp {A : Type} (R1 R2 R : A -> A -> Prop) l1 l2 l3 :
  (forall x y z, R1 x y -> R2 y z -> R x z) -> Forall2 R1 l1 l2 -> Forall2 R2 l2 l3 -> Forall2 R l1 l3.
Proof. intros H F. revert l3. induction F; intros l3 F'; inversion F'; subst; constructor; eauto. Qed.

Lemma comp_rel_comp (R1 R2 R : bt_mesh_model -> bt_mesh_model -> Prop) c1 c2 c3 :
  (forall x y z, R1 x y -> R2 y z -> R x z) -> comp_rel R1 c1 c2 -> comp_rel R2 c2 c3 -> comp_rel R c1 c3.
Proof.
  intros H [E1 F1] [E2 F2]. split; [congruence|]. eapply Forall2_comp; [|exact F1|exact F2].
  intros e1 e2 e3 (A1 & M1 & V1) (A2 & M2 & V2). split; [congruence|]. split; by eapply Forall2_comp.
Qed.

Lemma models_deliver_ok evs : forall t : trans (mesh G),
  wp (models_deliver config_settings config_labels has_update evs) (fun _ t' =>
    comp_rel (informed evs) (net_comp (tr_net t)) (net_comp (tr_net t')) /\
    tr_apps t' = tr_apps t /\ hb_pub (tr_friend t') = hb_pub (tr_friend t)) t.
Proof.
  induction evs as [|e evs IH]; intros t; [apply wp_ret; split; [|done]; apply comp_rel_refl, informed_nil|].
  assert ((forall k n, e <> EvAppKey k n BT_MESH_KEY_DELETED) -> wp (models_deliver config_settings config_labels has_update evs) (fun _ t' =>
    comp_rel (informed (e :: evs)) (net_comp (tr_net t)) (net_comp (tr_net t')) /\
    tr_apps t' = tr_apps t /\ hb_pub (tr_friend t') = hb_pub (tr_friend t)) t) as Skip.
  { intros He. eapply wp_mono; [apply IH|]. intros _ t' (H1 & H2). split; [|done].
    eapply (comp_rel_comp eq); [|by apply comp_rel_refl|exact H1]. intros x y z ->. by apply informed_skip. }
  cbn [models_deliver]. destruct e as [idx n evt| |]; try by apply Skip. destruct evt; try by apply Skip.
  mesh_step. eapply wp_mono.
  { apply (foreach_ok _ (unbinds idx)). intros m. eapply quiet_bind; [apply unbind_ok|]. intros [st m'] H. by apply quiet_ret. }
  intros _ t1 (H1 & H2 & H3). cbv beta. eapply wp_mono; [apply IH|]. intros _ t2 (H4 & H5 & H6).
  split; [|split; congruence]. eapply comp_rel_comp; [|exact H1|exact H4]. intros x y z. apply informed_delete.
Qed.

(** ** The bindings of all models are kept in the table *)

(** An element, every bound key in the table, no heartbeats published. *)
Record cfg_inv (t : trans (mesh G)) : Prop := {
  inv_elem : comp_elem (net_comp (tr_net t)) <> [];
  inv_keys : comp_all (keys_in (tr_apps t)) (net_comp (tr_net t));
  inv_hb : hbp_dst (hb_pub (tr_friend t)) = BT_MESH_ADDR_UNASSIGNED;
}.

Lemma cfg_inv_view t t' : view t' = view t -> cfg_inv t -> cfg_inv t'.
Proof. unfold view. intros [= E1 E2 E3] [H1 H2 H3]. split; rewrite ?E1, ?E2, ?E3; done. Qed.

Lemma comp_rel_elems R c c' : comp_rel R c c' -> comp_elem c <> [] -> comp_elem c' <> [].
Proof. intros [_ H]. by destruct H. Qed.

Lemma informed_keys old new evs m m' :
  app_log new = app_log old ++ evs ->
  (forall k, k <> BT_MESH_KEY_UNUSED -> bt_mesh_app_key_exists k old = true ->
     bt_mesh_app_key_exists k new = true \/ exists n, In (EvAppKey k n BT_MESH_KEY_DELETED) evs) ->
  informed evs m m' -> keys_in old m -> keys_in new m'.
Proof.
  intros _ H [I _] K. apply list.Forall_forall. intros k Hk%list_elem_of_In. destruct (I k Hk) as [->|[Hm Hn]]; [by left|].
  destruct (decide (BT_MESH_KEY_DEV_ANY <= k)) as [|N]; [by left|right].
  unfold keys_in in K. rewrite list.Forall_forall in K. destruct (K k ltac:(by apply list_elem_of_In)) as [?|Ek]; [done|].
  destruct (H k) as [?|[n Hd]]; [|done|done|by destruct (Hn n)]. intros ->. by apply N.
Qed.

Lemma apps_op_ok {A : Type} (f : subnets -> app_keys -> A * app_keys) t :
  (forall table s, reports s (f table s).2) -> cfg_inv t ->
  wp (apps_op config_settings config_labels has_update f) (fun _ => cfg_inv) t.
Proof.
  intros Hf [H1 H2 H3]. unfold apps_op. repeat mesh_step.
  destruct (f _ (tr_apps t)) as [r new] eqn:E. repeat mesh_step.
  destruct (Hf (net_subnets (tr_net t)) (tr_apps t)) as (evs & L & Hr). rewrite E in L, Hr. cbn in L, Hr.
  rewrite L, drop_app_length. eapply wp_mono; [apply models_deliver_ok|]. intros _ t' (I1 & I2 & I3). cbv beta. mesh_step.
  cbn in I1, I2, I3. split.
  - by eapply comp_rel_elems.
  - rewrite I2. eapply comp_all_rel; [exact I1| |exact H2]. intros m m'. by apply informed_keys with (evs := evs).
  - by rewrite I3.
Qed.

Lemma beacons_comp evts : forall n, net_comp (beacons_deliver evts n) = net_comp n.
Proof.
  induction evts as [|e evts IH]; intros n; [done|]. cbn. destruct e as [net_idx evt| | | | |]; try apply IH.
  destruct evt; try apply IH; rewrite IH; by destruct (bt_mesh_subnet_get _ _).
Qed.

Lemma subnets_op_ok {A : Type} (f : subnets -> A * subnets) t :
  cfg_inv t -> wp (subnets_op config_settings config_labels has_update f) (fun _ => cfg_inv) t.
Proof.
  intros H. unfold subnets_op. repeat mesh_step. destruct (f _) as [r new]. repeat mesh_step.
  eapply wp_mono; [apply apps_op_ok; [intros table s; apply deliver_reports|by apply (cfg_inv_view t)]|].
  intros ? t' H'. cbv beta. repeat mesh_step. eapply cfg_inv_view; [|exact H']. unfold view. cbn. by rewrite beacons_comp.
Qed.
End Bind.
