(* ===== verification/CfgSafe.v ===== *)
(** * The Configuration Server handles every message

    No configuration message, however its fields are set, takes the server to undefined
    behaviour or leaves a model bound to a key that is not in the table.  The exceptions
    are the heartbeat publications, whose logarithms are used before they are checked,
    and the publications to a virtual address that are a byte too short; the reset of a
    node without a GATT proxy, which is not put off, is not covered. *)

From S2P Require Import Prelude ByteOrder MeshDefs Cdb NetBuf Access Rpl Ccm MeshCrypto Subnet AppKeys Net Transport Mesh Heartbeat SecureBeacon Cfg CfgModels Main CfgSrv CfgBind.

(** ** Lengths *)

Lemma length_key_idx_list l : length (key_idx_list l) = IDX_LEN (length l).
Proof.
  assert (forall n l, (length l <= n)%nat -> length (key_idx_list l) = IDX_LEN (length l)) as H; [|by apply (H (length l))].
  clear l. induction n as [|n IH]; intros [|a [|b l]] Hl; try done; [cbn in Hl; lia..|].
  cbn [key_idx_list length]. rewrite length_app, IH by (cbn in Hl; lia). unfold IDX_LEN.
  replace (S (S (length l)))%nat with (length l + 1 * 2)%nat by lia. rewrite Nat.div_add, Nat.Div0.mod_add by lia. cbn [length app]. change (length (key_idx_pack a b)) with 3%nat. lia.
Qed.

Lemma IDX_LEN_mono m n : (m <= n)%nat -> (IDX_LEN m <= IDX_LEN n)%nat.
Proof.
  intros H. unfold IDX_LEN. pose proof (Nat.div_mod_eq m 2). pose proof (Nat.div_mod_eq n 2).
  pose proof (Nat.mod_upper_bound m 2 ltac:(lia)). pose proof (Nat.mod_upper_bound n 2 ltac:(lia)). lia.
Qed.

Lemma length_le16s l : length (flat_map sys_put_le16 l) = (length l * 2)%nat.
Proof. induction l as [|k l IH]; [done|]. cbn [flat_map]. rewrite length_app, IH. cbn. lia. Qed.

Lemma filter_le {A : Type} (p : A -> bool) l : (length (List.filter p l) <= length l)%nat.
Proof. induction l as [|x l IH]; [done|]. cbn. destruct (p x); cbn; lia. Qed.

(** ** Models and pointers *)

Lemma model_at_all P p c m : comp_all P c -> model_at p c = Some m -> P m.
Proof.
  unfold model_at. intros H. destruct (comp_elem c !! ptr_elem p) as [e|] eqn:E; [|done]. cbn.
  destruct (Forall_lookup_1 _ _ _ _ H E) as [H1 H2]. destruct (ptr_vnd p); intros Hm; [exact (Forall_lookup_1 _ _ _ _ H2 Hm)|exact (Forall_lookup_1 _ _ _ _ H1 Hm)].
Qed.

Lemma model_at_put p m c : is_Some (model_at p c) -> model_at p (put_mod p m c) = Some m.
Proof.
  unfold model_at, put_mod. cbn. intros [m0 H]. rewrite list_lookup_alter_eq.
  destruct (comp_elem c !! ptr_elem p) as [e|]; [|done]. cbn in *.
  destruct (ptr_vnd p); apply list_lookup_insert_eq; by eapply lookup_lt_Some.
Qed.

Lemma comp_all_put (P : bt_mesh_model -> Prop) p m c : comp_all P c -> P m -> comp_all P (put_mod p m c).
Proof.
  intros H Hm. unfold comp_all, put_mod. cbn. apply list.Forall_lookup_2. intros i e Hi.
  apply lookup_alter_cases in Hi as [(-> & y & Hy & ->)|[_ Hi]]; [|by apply (Forall_lookup_1 _ _ _ _ H Hi)].
  destruct (Forall_lookup_1 _ _ _ _ H Hy) as [H1 H2]. destruct (ptr_vnd p); cbn; split; try done; by apply Forall_insert.
Qed.

Section Safe.
Context {ecb : Ecb} {cmac : Cmac}.
Context (config_proxy config_friend config_cdb config_relay config_settings config_labels : bool).
Context (proxy_relay : bytes -> Z -> bt_mesh_net -> bool) (adv_buffer : bt_mesh_net -> bool).
Context (env : main_env) (has_update : bt_mesh_model -> bool) (info : comp_info) (BT_MESH_TX_SDU_MAX : nat).
Context {G : Type} {friend : FriendOps (mesh G)}.
Context (prov_reset : ST (trans (mesh G)) unit) (friend_timer : G -> Z -> option Z) (uninit : Z).
Context (sdu_max : (12 <= BT_MESH_TX_SDU_MAX)%nat).

Abbreviation MESH := (ST (trans (mesh G))).
Implicit Type t : trans (mesh G).

(** ** Steps *)

Definition keeps {A : Type} (m : MESH A) : Prop := forall t, cfg_inv t -> wp m (fun _ => cfg_inv) t.
Definition valid (p : mod_ptr) (t : trans (mesh G)) : Prop := is_Some (model_at p (net_comp (tr_net t))).

Lemma keeps_quiet {A : Type} (m : MESH A) Q : quiet m Q -> keeps m.
Proof. intros H t Ht. eapply wp_mono; [apply H|]. intros a t' [_ E]. by eapply cfg_inv_view. Qed.

Lemma keeps_bind {A B : Type} (m : MESH A) (k : A -> MESH B) : keeps m -> (forall a, keeps (k a)) -> keeps (m ≫= k).
Proof. intros H1 H2 t Ht. eapply (wp_seq cfg_inv); [by apply H1|]. intros a t' H'. by apply H2. Qed.

Lemma keeps_ret {A : Type} (a : A) : keeps (mret a).
Proof. intros t Ht. by apply wp_ret. Qed.

Lemma keeps_gets {A : Type} (f : trans (mesh G) -> A) : keeps (gets f).
Proof. intros t Ht. by apply wp_gets. Qed.

Lemma keeps_event e : keeps (mesh_event_log e).
Proof. eapply keeps_quiet, quiet_event. Qed.

Lemma keeps_when b m : keeps m -> keeps (when b m).
Proof. intros H t Ht. apply wp_when; [by intros _; apply H|done]. Qed.

Lemma keeps_modify f : (forall t, view (f t) = view t) -> keeps (modify f).
Proof. intros H. by eapply keeps_quiet, quiet_modify. Qed.

Lemma keeps_respond room ctx op params : (length params <= room)%nat -> keeps (respond room ctx op params).
Proof. intros H. unfold respond. rewrite (proj2 (Nat.leb_le _ _) H). apply keeps_event. Qed.

Lemma keeps_apps {A : Type} (f : subnets -> app_keys -> A * app_keys) :
  (forall table s, reports s (f table s).2) -> keeps (apps_op config_settings config_labels has_update f).
Proof. intros H t Ht. by apply apps_op_ok. Qed.

Lemma keeps_subnets {A : Type} (f : subnets -> A * subnets) : keeps (subnets_op config_settings config_labels has_update f).
Proof. intros t Ht. by apply subnets_op_ok. Qed.

(** Reading fields of a message that is long enough. *)
Lemma keeps_le16 {A : Type} buf (k : Z * bytes -> MESH A) :
  (2 <= length buf)%nat -> (forall v b, length buf = (2 + length b)%nat -> keeps (k (v, b))) -> keeps (need (pull_le16 buf) ≫= k).
Proof.
  destruct buf as [|b0 [|b1 b]]; cbn [length]; try lia. intros _ H t Ht. mesh_step. eapply wp_need; [reflexivity|]. by apply H.
Qed.

Lemma keeps_u8 {A : Type} buf (k : Z * bytes -> MESH A) :
  (1 <= length buf)%nat -> (forall v b, length buf = (1 + length b)%nat -> keeps (k (v, b))) -> keeps (need (pull_u8 buf) ≫= k).
Proof. destruct buf as [|b0 b]; cbn [length]; try lia. intros _ H t Ht. mesh_step. eapply wp_need; [reflexivity|]. by apply H. Qed.

Lemma keeps_mem {A : Type} n buf (k : bytes * bytes -> MESH A) :
  (n <= length buf)%nat -> (forall l b, length l = n -> length buf = (n + length b)%nat -> keeps (k (l, b))) ->
  keeps (need (pull_mem n buf) ≫= k).
Proof.
  intros L H t Ht. mesh_step. unfold pull_mem. rewrite (proj2 (Nat.leb_le _ _) L). eapply wp_need; [reflexivity|].
  apply H; [by apply length_take_le|rewrite length_drop; lia|done].
Qed.

Lemma keeps_idx {A : Type} buf (k : Z * Z * bytes -> MESH A) :
  (3 <= length buf)%nat -> (forall v w b, length buf = (3 + length b)%nat -> keeps (k (v, w, b))) ->
  keeps (need (key_idx_unpack buf) ≫= k).
Proof.
  destruct buf as [|b0 [|b1 [|b2 b]]]; cbn [length]; try lia. intros _ H t Ht. mesh_step. eapply wp_need; [reflexivity|]. by apply H.
Qed.

Lemma keeps_first {A : Type} buf (k : Z -> MESH A) : (1 <= length buf)%nat -> (forall b, keeps (k b)) -> keeps (first_byte buf ≫= k).
Proof.
  destruct buf as [|b buf]; cbn [length]; try lia. intros _ H t Ht. unfold first_byte. repeat mesh_step. eapply wp_need; [reflexivity|].
  apply wp_ret. by apply H.
Qed.

Lemma keeps_with_idx buf f :
  (2 <= length buf)%nat -> (forall idx b, length buf = (2 + length b)%nat -> keeps (f idx b)) -> keeps (with_idx buf f).
Proof. intros L H. apply keeps_le16; [done|]. intros idx b E. destruct (_ <? _); [apply keeps_ret|by apply H]. Qed.

Lemma keeps_with_elem buf f :
  (2 <= length buf)%nat ->
  (forall a b, BT_MESH_ADDR_IS_UNICAST a = true -> length buf = (2 + length b)%nat -> keeps (f a b)) -> keeps (with_elem buf f).
Proof.
  intros L H. apply keeps_le16; [done|]. intros a b E. destruct (BT_MESH_ADDR_IS_UNICAST a) eqn:U; [by apply H|apply keeps_ret].
Qed.

(** Finding the model of a request. *)
Lemma find_mod_ok a buf t :
  cfg_inv t -> BT_MESH_ADDR_IS_UNICAST a = true -> (2 <= length buf)%nat ->
  wp (find_mod a buf) (fun r t' => t' = t /\ (r.1 = true -> (4 <= length buf)%nat) /\
    match r.2 with inl st => st <> STATUS_SUCCESS | inr p => valid p t end) t.
Proof.
  intros H U L. unfold find_mod. repeat mesh_step. unfold bt_mesh_elem_find. rewrite U.
  destruct (comp_elem (net_comp (tr_net t))) as [|e0 l] eqn:El; [by destruct (inv_elem _ H)|]. rewrite <- El.
  eapply wp_need; [reflexivity|]. destruct (Z.ltb_spec (u16 (a - elem_addr e0)) (Z.of_nat (length (comp_elem (net_comp (tr_net t)))))) as [Hi|_].
  2: { apply wp_ret. split; [done|]. split; [|done]. cbn. intros E%Nat.eqb_eq. lia. }
  assert (Z.to_nat (u16 (a - elem_addr e0)) < length (comp_elem (net_comp (tr_net t))))%nat as Hlt.
  { pose proof (u16_range (a - elem_addr e0)). unfold is_u16 in *. lia. }
  destruct (lookup_lt_is_Some_2 _ _ Hlt) as [e He]. unfold get_model. repeat mesh_step. eapply wp_need; [exact He|].
  assert (forall (vnd : bool) (o : option nat), (forall j, o = Some j -> is_Some ((if vnd then elem_vnd_models e else elem_models e) !! j)) ->
            match match mkModPtr (Z.to_nat (u16 (a - elem_addr e0))) vnd <$> o with Some p => inr p | None => inl STATUS_INVALID_MODEL end
            with inl st => st <> STATUS_SUCCESS | inr p => valid p t end) as Hp.
  { intros vnd [j|] Ho; [|done]. cbn. unfold valid, model_at. cbn. rewrite He. cbn. by apply Ho. }
  destruct buf as [|b0 [|b1 [|b2 [|b3 buf]]]]; try (cbn in L; lia); cbn [length Nat.ltb Nat.leb]; cbv iota.
  all: repeat first [mesh_step | eapply wp_need; [reflexivity|] | progress cbv beta iota].
  all: split; [done|]; split; [cbn; lia || done|]; cbn [fst snd]; apply Hp; intros j Hj.
  all: first [apply (find_index_Some _ (elem_models e)) in Hj as [(x & Hx & _) _] | apply (find_index_Some _ (elem_vnd_models e)) in Hj as [(x & Hx & _) _]].
  all: by exists x.
Qed.

(** A handler with a model: [f] keeps what has to be kept for a model that is there. *)
Lemma keeps_find {A : Type} a buf (k : bool * (mesh_status + mod_ptr) -> MESH A) :
  BT_MESH_ADDR_IS_UNICAST a = true -> (2 <= length buf)%nat ->
  (forall vnd st, (vnd = true -> (4 <= length buf)%nat) -> st <> STATUS_SUCCESS -> keeps (k (vnd, inl st))) ->
  (forall vnd p t, (vnd = true -> (4 <= length buf)%nat) -> cfg_inv t -> valid p t -> wp (k (vnd, inr p)) (fun _ => cfg_inv) t) ->
  keeps (find_mod a buf ≫= k).
Proof.
  intros U L H1 H2 t Ht. mesh_step. eapply wp_mono; [by apply find_mod_ok|]. cbv beta.
  intros [vnd [st|p]] t' (-> & Hv & Hp); [by apply H1|apply H2; auto].
Qed.

Lemma keeps_mod_id {A : Type} vnd buf (k : bytes -> MESH A) :
  (2 <= length buf)%nat -> (vnd = true -> (4 <= length buf)%nat) ->
  (forall id, (length id <= 4)%nat -> keeps (k id)) -> keeps (mod_id_bytes vnd buf ≫= k).
Proof.
  intros L Hv H t Ht. unfold mod_id_bytes. repeat mesh_step. unfold pull_mem.
  assert ((if vnd then 4 else 2) <= length buf)%nat as Hl by (destruct vnd; auto).
  rewrite (proj2 (Nat.leb_le _ _) Hl). eapply wp_need; [reflexivity|]. apply wp_ret. apply H; [|done].
  rewrite length_take. destruct vnd; lia.
Qed.

Lemma wp_get_mod p (Q : bt_mesh_model -> trans (mesh G) -> Prop) t :
  valid p t -> (forall m, model_at p (net_comp (tr_net t)) = Some m -> Q m t) -> wp (get_mod p) Q t.
Proof. intros [m Hm] H. unfold get_mod. repeat mesh_step. eapply wp_need; [exact Hm|]. by apply H. Qed.

Lemma set_mod_inv p m t : cfg_inv t -> keys_in (tr_apps t) m -> cfg_inv (t <| tr_net := tr_net t <| net_comp := put_mod p m (net_comp (tr_net t)) |> |>).
Proof.
  intros [H1 H2 H3] Hk. split; cbn.
  - intros E. apply H1. apply nil_length_inv. apply (f_equal length) in E. by rewrite length_alter in E.
  - by apply comp_all_put.
  - done.
Qed.

Lemma set_mod_valid p m t : valid p t -> model_at p (net_comp (tr_net (t <| tr_net := tr_net t <| net_comp := put_mod p m (net_comp (tr_net t)) |> |>))) = Some m.
Proof. intros H. by apply model_at_put. Qed.

(** The keys of a model that is there. *)
Lemma model_keys p m t : cfg_inv t -> model_at p (net_comp (tr_net t)) = Some m -> keys_in (tr_apps t) m.
Proof. intros H Hm. eapply model_at_all; [apply H|done]. Qed.

(** A quiet step keeps the invariant and the models. *)
Lemma wp_quiet {A : Type} (m : MESH A) (P : A -> Prop) (Q : A -> trans (mesh G) -> Prop) t :
  quiet m P -> (forall a t', P a -> view t' = view t -> Q a t') -> wp m Q t.
Proof. intros H HQ. eapply wp_mono; [apply H|]. intros a t' [Ha Ht]. by apply HQ. Qed.

Lemma view_valid p t t' : view t' = view t -> valid p t -> valid p t'.
Proof. unfold view, valid. by intros [= -> _ _]. Qed.

(** ** The handlers *)

Ltac keep :=
  lazymatch goal with
  | |- keeps (mret _) => apply keeps_ret
  | |- keeps (mesh_event_log _) => apply keeps_event
  | |- keeps (respond _ _ _ _) => apply keeps_respond; cbn; try lia
  | |- keeps (gets _ ≫= _) => apply keeps_bind; [apply keeps_gets|intros ?; cbv beta]
  | |- keeps (up _ ≫= _) => apply keeps_bind; [apply keeps_gets|intros ?; cbv beta]
  | |- keeps (mesh_event_log _ ≫= _) => apply keeps_bind; [apply keeps_event|intros ?; cbv beta]
  | |- keeps (need (pull_le16 _) ≫= _) => apply keeps_le16; [lia|intros ? ? ?; cbv beta iota]
  | |- keeps (need (pull_u8 _) ≫= _) => apply keeps_u8; [lia|intros ? ? ?; cbv beta iota]
  | |- keeps (need (pull_mem _ _) ≫= _) => apply keeps_mem; [lia|intros ? ? ? ?; cbv beta iota]
  | |- keeps (need (key_idx_unpack _) ≫= _) => apply keeps_idx; [lia|intros ? ? ? ?; cbv beta iota]
  | |- keeps (first_byte _ ≫= _) => apply keeps_first; [rewrite ?length_drop; lia|intros ?; cbv beta]
  | |- keeps (with_idx _ _) => apply keeps_with_idx; [lia|intros ? ? ?; cbv beta]
  | |- keeps (with_elem _ _) => apply keeps_with_elem; [lia|intros ? ? ? ?; cbv beta]
  | |- keeps (apps_op _ _ _ _ ≫= _) =>
      apply keeps_bind; [apply keeps_apps; intros ? ?; first [apply add_reports|apply update_reports|apply key_del_reports]|intros ?; cbv beta]
  | |- keeps (subnets_op _ _ _ _ ≫= _) => apply keeps_bind; [apply keeps_subnets|intros ?; cbv beta]
  | |- keeps (if ?b then _ else _) => destruct b
  | |- keeps (match ?x with _ => _ end) => destruct x
  end.

Local Abbreviation OPS := (bt_mesh_cfg_srv_op config_proxy config_friend config_cdb config_relay config_settings config_labels
  proxy_relay adv_buffer env has_update info BT_MESH_TX_SDU_MAX prov_reset friend_timer uninit).

Lemma keeps_app_keys ctx self now buf :
  ((19 <= length buf)%nat -> keeps (app_key_add config_settings config_labels has_update self now ctx buf)) /\
  ((19 <= length buf)%nat -> keeps (app_key_update config_settings config_labels has_update self now ctx buf)) /\
  ((3 <= length buf)%nat -> keeps (app_key_del config_settings config_labels has_update self now ctx buf)).
Proof. split_and!; intros L; unfold app_key_add, app_key_update, app_key_del, send_app_key_status; repeat keep. Qed.

Lemma keeps_need {A B : Type} (o : option A) (k : A -> MESH B) a : o = Some a -> keeps (k a) -> keeps (need o ≫= k).
Proof. intros -> H t Ht. mesh_step. by eapply wp_need; [|apply H]. Qed.

Lemma keeps_app_key_get ctx self now buf : (2 <= length buf)%nat -> keeps (app_key_get self now ctx buf).
Proof.
  intros L. unfold app_key_get. repeat keep. rename a into s. unfold bt_mesh_app_keys_get. set (l := map app_idx _).
  assert (length (drop 0 l) <= length (apps s))%nat as Hl by (rewrite drop_0; unfold l; rewrite length_map; apply filter_le).
  rewrite (proj2 (Nat.leb_le _ _) Hl). eapply keeps_need; [reflexivity|]. apply keeps_respond. cbn.
  rewrite length_key_idx_list. pose proof (IDX_LEN_mono _ _ Hl). cbn in *. lia.
Qed.

Lemma keeps_net_keys ctx self now buf :
  ((18 <= length buf)%nat -> keeps (net_key_add config_proxy config_settings config_labels has_update self now ctx buf)) /\
  ((18 <= length buf)%nat -> keeps (net_key_update config_proxy config_settings config_labels has_update self now ctx buf)) /\
  ((2 <= length buf)%nat -> keeps (net_key_del config_settings config_labels has_update self now ctx buf)).
Proof. split_and!; intros L; unfold net_key_add, net_key_update, net_key_del, send_net_key_status; repeat keep. Qed.

Lemma keeps_net_key_get ctx self now buf : keeps (net_key_get self now ctx buf).
Proof.
  unfold net_key_get. repeat keep. rename a into s. unfold bt_mesh_subnets_get. set (l := List.filter _ _).
  assert (length (drop 0 l) <= length (subs s))%nat as Hl
    by (rewrite drop_0; etransitivity; [apply filter_le|by rewrite length_map]).
  rewrite (proj2 (Nat.leb_le _ _) Hl). eapply keeps_need; [reflexivity|]. apply keeps_respond.
  rewrite length_key_idx_list. by apply IDX_LEN_mono.
Qed.

Lemma keeps_identity ctx self now buf :
  ((2 <= length buf)%nat -> keeps (node_identity_get self now ctx buf)) /\
  ((3 <= length buf)%nat -> keeps (node_identity_set config_proxy config_settings config_labels has_update self now ctx buf)) /\
  ((2 <= length buf)%nat -> keeps (krp_get self now ctx buf)) /\
  ((3 <= length buf)%nat -> keeps (krp_set config_settings config_labels has_update self now ctx buf)).
Proof.
  split_and!; intros L; unfold node_identity_get, node_identity_set, krp_get, krp_set, send_node_id_status, send_krp_status; repeat keep.
Qed.

Lemma keeps_comp_data ctx self now buf :
  (1 <= length buf)%nat -> keeps (dev_comp_data_get config_proxy config_friend config_relay info BT_MESH_TX_SDU_MAX self now ctx buf).
Proof.
  intros L. unfold dev_comp_data_get. do 2 keep. cbv zeta. change (length _ + 10)%nat with 12%nat.
  destruct (Nat.ltb_spec BT_MESH_TX_SDU_MAX 12); [lia|]. repeat keep.
Qed.

(** The features: without a heartbeat publication a change of a feature is not sent. *)
Lemma keeps_hb features : keeps (hb_feature_changed config_proxy config_friend config_cdb proxy_relay adv_buffer features).
Proof.
  intros t Ht. unfold hb_feature_changed, bt_mesh_hb_feature_changed. repeat mesh_step. rewrite (inv_hb _ Ht), Z.eqb_refl. by apply wp_ret.
Qed.

Lemma keeps_store_cfg : keeps (store_cfg config_settings).
Proof. unfold store_cfg. repeat keep. apply keeps_when, keeps_event. Qed.

Lemma keeps_feature_set get set state :
  (forall v n, net_comp (set v n) = net_comp n) -> keeps (feature_set get set state).
Proof.
  intros H. assert (forall b, keeps (set_net (set b))) as Hs by (intros b; apply keeps_modify; intros t; unfold view; cbn; by rewrite H).
  unfold feature_set. destruct state; repeat keep; apply keeps_bind; try apply Hs; intros ?; apply keeps_ret.
Qed.

Lemma keeps_features f xmit :
  keeps (bt_mesh_gatt_proxy_set config_proxy config_friend config_cdb config_settings proxy_relay adv_buffer f) /\
  keeps (bt_mesh_friend_set config_proxy config_friend config_cdb config_settings proxy_relay adv_buffer f) /\
  keeps (bt_mesh_relay_set config_proxy config_friend config_cdb config_relay config_settings proxy_relay adv_buffer f xmit).
Proof.
  unfold bt_mesh_gatt_proxy_set, bt_mesh_friend_set, bt_mesh_relay_set.
  split_and!; repeat keep; (apply keeps_bind; [by apply keeps_feature_set|intros ?]); repeat keep.
  all: repeat (apply keeps_bind; [first [apply keeps_hb|apply keeps_store_cfg|by apply keeps_modify|by apply keeps_when, keeps_event]|intros ?]).
  all: apply keeps_ret.
Qed.

Lemma keeps_beacon_set now b : keeps (bt_mesh_beacon_set config_settings now b).
Proof.
  unfold bt_mesh_beacon_set. repeat keep. apply keeps_bind; [by apply keeps_modify|intros ?].
  apply keeps_bind; [|intros ?; apply keeps_store_cfg]. unfold bt_mesh_beacon_enable, bt_mesh_beacon_disable. destruct b; repeat keep.
  - apply keeps_bind; [|intros ?; by apply keeps_modify]. apply keeps_when. repeat keep. by apply keeps_modify.
  - by apply keeps_when, keeps_modify.
Qed.

Lemma keeps_features_msgs ctx self now buf :
  ((1 <= length buf)%nat -> keeps (beacon_set config_settings self now ctx buf)) /\
  ((1 <= length buf)%nat -> keeps (default_ttl_set config_settings self now ctx buf)) /\
  ((1 <= length buf)%nat -> keeps (gatt_proxy_set config_proxy config_friend config_cdb config_settings proxy_relay adv_buffer self now ctx buf)) /\
  ((1 <= length buf)%nat -> keeps (net_transmit_set config_settings self now ctx buf)) /\
  ((2 <= length buf)%nat -> keeps (relay_set config_proxy config_friend config_cdb config_relay config_settings proxy_relay adv_buffer self now ctx buf)) /\
  ((1 <= length buf)%nat -> keeps (friend_set config_proxy config_friend config_cdb config_settings proxy_relay adv_buffer self now ctx buf)) /\
  ((2 <= length buf)%nat -> keeps (lpn_timeout_get config_friend friend_timer self now ctx buf)).
Proof.
  split_and!; intros L.
  - unfold beacon_set. repeat keep. apply keeps_bind; [apply keeps_beacon_set|intros ?]. repeat keep.
  - unfold default_ttl_set, bt_mesh_default_ttl_set. repeat keep. apply keeps_bind; [|intros ?; repeat keep].
    repeat keep; apply keeps_bind; try (by apply keeps_modify); intros ?; (apply keeps_bind; [apply keeps_store_cfg|intros ?; apply keeps_ret]).
  - unfold gatt_proxy_set, send_gatt_proxy_status. repeat keep. apply keeps_bind; [by apply keeps_features|intros ?]. repeat keep.
  - unfold net_transmit_set, bt_mesh_net_transmit_set. repeat keep. apply keeps_bind; [|intros ?; repeat keep].
    repeat keep. apply keeps_bind; [by apply keeps_modify|intros ?; apply keeps_store_cfg].
  - unfold relay_set, send_relay_status. repeat keep. apply keeps_bind; [by apply keeps_features|intros ?]. repeat keep.
  - unfold friend_set, send_friend_status. repeat keep. apply keeps_bind; [by apply keeps_features|intros ?]. repeat keep.
  - unfold lpn_timeout_get. repeat keep.
Qed.

(** ** Publication *)

Lemma pub_status_ok ctx a addr vnd o st buf t :
  (2 <= length buf)%nat -> (vnd = true -> (4 <= length buf)%nat) -> cfg_inv t ->
  (st = STATUS_SUCCESS -> exists p m, o = Some p /\ model_at p (net_comp (tr_net t)) = Some m /\ is_Some (mod_pub m)) ->
  wp (send_mod_pub_status ctx a addr vnd o st buf) (fun _ => cfg_inv) t.
Proof.
  intros L Hv Ht Hs. unfold send_mod_pub_status.
  apply wp_bind, (wp_mono _ (fun fields t' => length fields = 7%nat /\ t' = t)).
  - destruct (decide (st = STATUS_SUCCESS)) as [E|N]; [|by apply wp_ret].
    destruct (Hs E) as (p & m & -> & Hm & pub & Hp). mesh_step. eapply wp_need; [reflexivity|]. mesh_step.
    apply wp_get_mod; [by exists m|]. intros m' Hm'. simplify_eq. mesh_step. eapply wp_need; [exact Hp|]. by apply wp_ret.
  - intros fields t' [Lf ->]. cbv beta. refine (keeps_mod_id _ _ _ L Hv _ t Ht). intros id Lid. apply keeps_respond.
    cbn. rewrite length_app. lia.
Qed.

Lemma pub_fail ctx a addr vnd o st buf :
  (2 <= length buf)%nat -> (vnd = true -> (4 <= length buf)%nat) -> st <> STATUS_SUCCESS ->
  keeps (send_mod_pub_status ctx a addr vnd o st buf).
Proof. intros L Hv Hs t Ht. by apply pub_status_ok. Qed.

(** A publication set on a model that is there, then [k]. *)
Lemma pub_set_then {A : Type} p addr app_idx cred ttl period retransmit (k : mesh_status -> MESH A) t :
  cfg_inv t -> valid p t ->
  (forall st t', cfg_inv t' ->
     (st = STATUS_SUCCESS -> exists m, model_at p (net_comp (tr_net t')) = Some m /\ is_Some (mod_pub m)) ->
     wp (k st) (fun _ => cfg_inv) t') ->
  wp (m ← get_mod p;
      '(status, m) ← _mod_pub_set config_settings config_labels has_update m addr app_idx cred ttl period retransmit true;
      _ ← set_mod p m; k status) (fun _ => cfg_inv) t.
Proof.
  intros Ht Hp H. mesh_step. apply wp_get_mod; [done|]. intros m Hm. mesh_step. eapply wp_quiet; [apply pub_set_ok|].
  intros [st m'] t' (K & _ & S) V. cbv beta iota. cbn in K, S. mesh_step. unfold set_mod. mesh_step.
  assert (cfg_inv t') as Ht' by by eapply cfg_inv_view.
  apply H.
  - apply set_mod_inv; [done|]. unfold keys_in. rewrite K. unfold view in V. injection V as _ E _. rewrite E. by apply (model_keys p).
  - intros E. exists m'. split; [|by apply S]. apply set_mod_valid. by eapply view_valid.
Qed.

(** The handlers of the publication. *)
Lemma pull_pub_ok buf : (5 <= length buf)%nat -> exists fields b, pull_pub buf = Some (fields, b) /\ (is_Some fields -> length buf = (5 + length b)%nat).
Proof.
  destruct buf as [|b0 [|b1 [|ttl [|period [|ret b]]]]]; cbn [length]; try lia. intros _. unfold pull_pub. cbn.
  destruct (_ && _); eexists _, _; (split; [reflexivity|]); [by intros [? ?]|done].
Qed.

Lemma keeps_pub ctx self now buf :
  ((4 <= length buf)%nat -> keeps (mod_pub_get self now ctx buf)) /\
  ((11 <= length buf)%nat -> keeps (mod_pub_set config_settings config_labels has_update self now ctx buf)) /\
  ((25 <= length buf)%nat -> keeps (mod_pub_va_set config_settings config_labels has_update uninit self now ctx buf)).
Proof.
  split_and!; intros L.
  - unfold mod_pub_get. keep. apply keeps_find; [done|lia|intros vnd st Hv Hs; apply pub_fail; (done || lia)|].
    intros vnd p t Hv Ht Hp. mesh_step. apply wp_get_mod; [done|]. intros m Hm.
    destruct (mod_pub m) as [pub|] eqn:E; apply pub_status_ok; try (done || lia). intros _. exists p, m. by rewrite E.
  - unfold mod_pub_set. do 2 keep. destruct (pull_pub_ok b0 ltac:(lia)) as (fields & b1 & E & Lb). eapply keeps_need; [exact E|].
    destruct fields as [[[[[app_idx cred] ttl] period] ret]|]; [|keep]. specialize (Lb ltac:(done)).
    apply keeps_find; [done|lia|intros vnd st Hv Hs; apply pub_fail; (done || lia)|].
    intros vnd p t Hv Ht Hp. apply pub_set_then; [done..|]. intros st t' Ht' Hm. apply pub_status_ok; [lia|done|done|].
    intros Es. destruct (Hm Es) as (m & Hm1 & Hm2). by exists p, m.
  - unfold mod_pub_va_set. do 2 keep. destruct (pull_pub_ok b0 ltac:(lia)) as (fields & b1 & E & Lb). eapply keeps_need; [exact E|].
    destruct fields as [[[[[app_idx cred] ttl] period] ret]|]; [|keep]. specialize (Lb ltac:(done)).
    apply keeps_find; [done|lia|intros vnd st Hv Hs; apply pub_fail; (done || lia)|].
    intros vnd p t Hv Ht Hp. mesh_step. eapply wp_quiet; [apply quiet_va_add|]. intros [st [addr|]] t1 Ha V; cbv beta iota; cbn in Ha.
    + apply pub_set_then; [by eapply cfg_inv_view|by eapply view_valid|]. intros st' t2 Ht2 Hm. mesh_step.
      apply (wp_mono _ (fun _ t3 => view t3 = view t2)).
      { destruct (decide (st' = STATUS_SUCCESS)); [by apply wp_ret|]. mesh_step. eapply wp_quiet; [apply quiet_va_del|].
        intros ? t3 _ V3. by apply wp_ret. }
      intros _ t3 V3. cbv beta. apply pub_status_ok; [lia|done|by eapply cfg_inv_view|]. intros Es. destruct (Hm Es) as (m & Hm1 & Hm2).
      exists p, m. split; [done|]. split; [|done]. unfold view in V3. injection V3 as E3 _ _. by rewrite E3.
    + apply pub_fail; [lia|done|intros ->; by destruct (proj2 Ha eq_refl)|by eapply cfg_inv_view].
Qed.

(** ** Subscriptions *)

Lemma sub_status_ok ctx a addr vnd st buf :
  (2 <= length buf)%nat -> (vnd = true -> (4 <= length buf)%nat) -> keeps (send_mod_sub_status ctx st a addr buf vnd).
Proof. intros L Hv. unfold send_mod_sub_status. apply keeps_mod_id; [done..|]. intros id Lid. apply keeps_respond. cbn. lia. Qed.

(** Steps on a model that is there keep it there. *)
Definition keeps_mod {A : Type} (p : mod_ptr) (m : MESH A) : Prop :=
  forall t, cfg_inv t -> valid p t -> wp m (fun _ t' => cfg_inv t' /\ valid p t') t.

Lemma keeps_mod_bind {A B : Type} p (m : MESH A) (k : A -> MESH B) :
  keeps_mod p m -> (forall a, keeps_mod p (k a)) -> keeps_mod p (m ≫= k).
Proof. intros H1 H2 t Ht Hp. mesh_step. eapply wp_mono; [by apply H1|]. intros a t' [Ht' Hp']. by apply H2. Qed.

Lemma keeps_mod_ret {A : Type} p (a : A) : keeps_mod p (mret a).
Proof. intros t Ht Hp. by apply wp_ret. Qed.

Lemma keeps_mod_quiet {A : Type} p (m : MESH A) Q : quiet m Q -> keeps_mod p m.
Proof. intros H t Ht Hp. eapply wp_quiet; [exact H|]. intros a t' _ V. split; [by eapply cfg_inv_view|by eapply view_valid]. Qed.

(** The model is replaced by one with the same keys. *)
Lemma keeps_mod_set {A : Type} p (f : bt_mesh_model -> MESH (A * bt_mesh_model)) :
  (forall m t, cfg_inv t -> model_at p (net_comp (tr_net t)) = Some m ->
     wp (f m) (fun r t' => view t' = view t /\ keys_in (tr_apps t) r.2) t) ->
  keeps_mod p (m ← get_mod p; '(a, m) ← f m; _ ← set_mod p m; mret a).
Proof.
  intros H t Ht Hp. mesh_step. apply wp_get_mod; [done|]. intros m Hm. mesh_step. eapply wp_mono; [by apply H|].
  intros [a m'] t' [V K]. cbv beta iota. unfold set_mod. repeat mesh_step. split.
  - apply set_mod_inv; [by eapply cfg_inv_view|]. unfold view in V. injection V as _ E _. by rewrite E.
  - exists m'. apply set_mod_valid. by eapply view_valid.
Qed.

Lemma keeps_set_group p i addr : keeps_mod p (set_group p i addr).
Proof.
  intros t Ht Hp. unfold set_group. mesh_step. apply wp_get_mod; [done|]. intros m Hm. unfold set_mod. mesh_step. split.
  - apply set_mod_inv; [done|]. exact (model_keys p m t Ht Hm).
  - eexists. by apply set_mod_valid.
Qed.

Lemma keeps_sub_clear p : keeps_mod p (mod_sub_clear p).
Proof.
  intros t Ht Hp. unfold mod_sub_clear. mesh_step. apply wp_get_mod; [done|]. intros m Hm. mesh_step.
  eapply wp_quiet; [apply quiet_list_clear|]. intros [c groups] t' _ V. cbv beta iota. unfold set_mod. mesh_step. split.
  - apply set_mod_inv; [by eapply cfg_inv_view|]. unfold view in V. injection V as _ E _. rewrite E. exact (model_keys p m t Ht Hm).
  - eexists. apply set_mod_valid. by eapply view_valid.
Qed.

Lemma keeps_mod_get p {A : Type} (k : bt_mesh_model -> MESH A) : (forall m, keeps_mod p (k m)) -> keeps_mod p (get_mod p ≫= k).
Proof. intros H t Ht Hp. mesh_step. apply wp_get_mod; [done|]. intros m _. by apply H. Qed.

Ltac keep_mod :=
  lazymatch goal with
  | |- keeps_mod _ (mret _) => apply keeps_mod_ret
  | |- keeps_mod _ (get_mod _ ≫= _) => apply keeps_mod_get; intros ?; cbv beta
  | |- keeps_mod _ (set_group _ _ _ ≫= _) => apply keeps_mod_bind; [apply keeps_set_group|intros ?; cbv beta]
  | |- keeps_mod _ (mod_sub_clear _ ≫= _) => apply keeps_mod_bind; [apply keeps_sub_clear|intros ?; cbv beta]
  | |- keeps_mod _ (store_mod_sub _ ≫= _) => apply keeps_mod_bind; [eapply keeps_mod_quiet, quiet_when, quiet_event|intros ?; cbv beta]
  | |- keeps_mod _ (bt_mesh_va_add _ ≫= _) => apply keeps_mod_bind; [eapply keeps_mod_quiet, quiet_va_add|intros [? ?]; cbv beta]
  | |- keeps_mod _ (bt_mesh_va_del _ ≫= _) => apply keeps_mod_bind; [eapply keeps_mod_quiet, quiet_va_del|intros [? ?]; cbv beta]
  | |- keeps_mod _ (if ?b then _ else _) => destruct b
  | |- keeps_mod _ (match ?x with _ => _ end) => destruct x
  | |- keeps_mod _ (let x := _ in _) => cbv zeta
  end.

Lemma keeps_with_group ctx buf f : (6 <= length buf)%nat -> (forall p addr, keeps_mod p (f p addr)) -> keeps (with_group ctx buf f).
Proof.
  intros L H. unfold with_group. do 2 keep. apply keeps_find; [done|lia|intros vnd st Hv _|intros vnd p t Hv Ht Hp].
  - apply keeps_bind; [keep|intros ?]. apply sub_status_ok; [lia|done].
  - eapply (wp_seq cfg_inv); [|intros st t' Ht'; apply sub_status_ok; (done || lia)].
    destruct (BT_MESH_ADDR_IS_GROUP v); cbn [negb]; [|by apply wp_ret]. eapply wp_mono; [by apply H|]. by intros ? ? [? _].
Qed.

Lemma keeps_with_label ctx buf f : (20 <= length buf)%nat -> (forall p label, keeps_mod p (f p label)) -> keeps (with_label ctx buf f).
Proof.
  intros L H. unfold with_label. do 2 keep. apply keeps_find; [done|lia|intros vnd st Hv _|intros vnd p t Hv Ht Hp].
  - apply keeps_bind; [keep|intros [? ?]]. apply sub_status_ok; [lia|done].
  - eapply (wp_seq cfg_inv); [|intros [st addr] t' Ht'; apply sub_status_ok; (done || lia)].
    eapply wp_mono; [by apply H|]. by intros ? ? [? _].
Qed.

Lemma keeps_sub ctx self now buf :
  ((6 <= length buf)%nat -> keeps (mod_sub_add config_settings self now ctx buf)) /\
  ((6 <= length buf)%nat -> keeps (mod_sub_del config_settings self now ctx buf)) /\
  ((6 <= length buf)%nat -> keeps (mod_sub_overwrite config_settings self now ctx buf)) /\
  ((20 <= length buf)%nat -> keeps (mod_sub_va_add config_settings uninit self now ctx buf)) /\
  ((20 <= length buf)%nat -> keeps (mod_sub_va_del config_settings uninit self now ctx buf)) /\
  ((20 <= length buf)%nat -> keeps (mod_sub_va_overwrite config_settings self now ctx buf)).
Proof.
  split_and!; intros L; first [apply keeps_with_group|apply keeps_with_label]; try done; intros p x; repeat keep_mod.
Qed.

Lemma keeps_sub_del_all ctx self now buf : (4 <= length buf)%nat -> keeps (mod_sub_del_all config_settings self now ctx buf).
Proof.
  intros L. unfold mod_sub_del_all. keep. apply keeps_find; [done|lia|intros vnd st Hv _|intros vnd p t Hv Ht Hp].
  - apply keeps_bind; [keep|intros ?]. apply sub_status_ok; [lia|done].
  - eapply (wp_seq cfg_inv); [|intros st t' Ht'; apply sub_status_ok; (done || lia)].
    apply (wp_mono _ (fun _ t' => cfg_inv t' /\ valid p t')); [|by intros ? ? [? _]].
    revert t Ht Hp. change (keeps_mod p (_ ← mod_sub_clear p; _ ← store_mod_sub config_settings; mret STATUS_SUCCESS)). repeat keep_mod.
Qed.

Lemma keeps_sub_list ctx op addr id find :
  BT_MESH_MODEL_OP_LEN (op_code op) = 2 -> BT_MESH_ADDR_IS_UNICAST addr = true -> (length id <= 4)%nat ->
  (forall i e p, find i e = Some p -> forall c, comp_elem c !! i = Some e -> is_Some (model_at p c)) ->
  keeps (mod_sub_list BT_MESH_TX_SDU_MAX ctx op addr id find).
Proof.
  intros Ho U Li Hf t Ht. unfold mod_sub_list. repeat mesh_step. unfold bt_mesh_elem_find. rewrite U.
  destruct (comp_elem (net_comp (tr_net t))) as [|e0 l] eqn:El; [by destruct (inv_elem _ Ht)|]. rewrite <- El.
  eapply wp_need; [reflexivity|]. cbv zeta.
  assert (length (op_bytes op ++ status_code STATUS_SUCCESS :: sys_put_le16 addr ++ id) <= 9)%nat as Hh.
  { unfold op_bytes. rewrite Ho. cbn. lia. }
  destruct (Nat.ltb_spec BT_MESH_TX_SDU_MAX (length (op_bytes op ++ status_code STATUS_SUCCESS :: sys_put_le16 addr ++ id))); [lia|].
  destruct (Z.ltb_spec (u16 (addr - elem_addr e0)) (Z.of_nat (length (comp_elem (net_comp (tr_net t)))))) as [Hi|_]; [|by apply keeps_event].
  pose proof (u16_range (addr - elem_addr e0)). unfold is_u16 in *.
  destruct (lookup_lt_is_Some_2 (comp_elem (net_comp (tr_net t))) (Z.to_nat (u16 (addr - elem_addr e0))) ltac:(lia)) as [e He].
  repeat mesh_step. eapply wp_need; [exact He|]. destruct (find _ e) as [p|] eqn:Ef; [|by apply keeps_event].
  mesh_step. apply wp_get_mod; [by eapply Hf|]. intros m _. by apply keeps_event.
Qed.

Lemma keeps_sub_get ctx self now buf :
  ((4 <= length buf)%nat -> keeps (mod_sub_get BT_MESH_TX_SDU_MAX self now ctx buf)) /\
  ((6 <= length buf)%nat -> keeps (mod_sub_get_vnd BT_MESH_TX_SDU_MAX self now ctx buf)).
Proof.
  split; intros L; unfold mod_sub_get, mod_sub_get_vnd; repeat keep.
  all: apply keeps_sub_list; [done|done|cbn; lia|]; intros i e p E c Hc; apply fmap_Some in E as (j & Hj & ->); unfold model_at; cbn; rewrite Hc; cbn.
  all: apply find_index_Some in Hj as [(x & Hx & _) _]; by exists x.
Qed.

(** ** Bindings *)

Lemma keys_in_insert s m i k : keys_in s m -> key_ok s k -> keys_in s (m <| mod_keys := <[i := k]> (mod_keys m) |>).
Proof. intros H Hk. by apply Forall_insert. Qed.

Lemma bind_ok m key_idx t :
  keys_in (tr_apps t) m -> wp (mod_bind config_settings m key_idx) (fun r t' => view t' = view t /\ keys_in (tr_apps t) r.2) t.
Proof.
  intros H. unfold mod_bind. repeat mesh_step. destruct (bt_mesh_app_key_exists key_idx (tr_apps t)) eqn:E; cbn [negb]; [|by apply wp_ret].
  wp_if; [by apply wp_ret|]. destruct (find_index _ _) as [i|]; [|by apply wp_ret]. mesh_step.
  eapply wp_quiet; [apply quiet_when, quiet_event|]. intros _ t' _ V. apply wp_ret. split; [done|]. apply keys_in_insert; [done|by right].
Qed.

Lemma unbind_keeps m key_idx exist t :
  keys_in (tr_apps t) m ->
  wp (mod_unbind config_settings config_labels has_update exist m key_idx true) (fun r t' => view t' = view t /\ keys_in (tr_apps t) r.2) t.
Proof.
  intros H. destruct exist; [|by apply wp_ret]. eapply wp_quiet; [apply unbind_ok|]. intros r t' [K _] V. split; [done|].
  unfold keys_in. rewrite K. apply list.Forall_forall. intros k Hk%list_elem_of_In. apply in_map_iff in Hk as (k' & <- & Hk').
  unfold drop_key. destruct (_ =? _); [by left|]. unfold keys_in in H. rewrite list.Forall_forall in H. apply H. by apply list_elem_of_In.
Qed.

Lemma keeps_with_app ctx buf f : (6 <= length buf)%nat -> (forall p k, keeps_mod p (f p k)) -> keeps (with_app_idx ctx buf f).
Proof.
  intros L H. assert (forall a v vnd st (b : bytes), (2 <= length b)%nat -> (vnd = true -> (4 <= length b)%nat) ->
    keeps (msg ← create_mod_app_status vnd a v st b; respond 9 ctx OP_MOD_APP_STATUS msg)) as Hs.
  { intros a v vnd st b Lb Hv t Ht. unfold create_mod_app_status. mesh_step. mesh_step.
    apply (wp_mono _ (fun id t' => (length id <= 4)%nat /\ t' = t)).
    - unfold mod_id_bytes. mesh_step. unfold pull_mem. rewrite (proj2 (Nat.leb_le _ _)) by (destruct vnd; auto).
      eapply wp_need; [reflexivity|]. apply wp_ret. split; [|done]. rewrite length_take. destruct vnd; lia.
    - intros id t' [Li ->]. cbv beta. mesh_step. apply keeps_respond; [cbn; lia|done]. }
  unfold with_app_idx. do 2 keep. apply keeps_find; [done|lia|intros vnd st Hv _|intros vnd p t Hv Ht Hp].
  - apply keeps_bind; [keep|intros ?]. apply Hs; [lia|done].
  - eapply (wp_seq cfg_inv); [|intros st t' Ht'; apply Hs; (done || lia)]. eapply wp_mono; [by apply H|]. by intros ? ? [? _].
Qed.

Lemma keeps_bindings ctx self now buf :
  (6 <= length buf)%nat ->
  keeps (mod_app_bind config_settings self now ctx buf) /\
  keeps (mod_app_unbind config_settings config_labels has_update self now ctx buf).
Proof.
  intros L. split; apply keeps_with_app; try done; intros p k.
  - destruct (decide (self = p)); [apply keeps_mod_ret|]. apply (keeps_mod_set p (fun m => mod_bind config_settings m k)).
    intros m t Ht Hm. apply bind_ok. by apply (model_keys p).
  - intros t Ht Hp. mesh_step. apply wp_get_mod; [done|]. intros m Hm. repeat mesh_step. eapply wp_mono; [by apply unbind_keeps, (model_keys p)|].
    intros [st m'] t' [V K]. cbv beta iota. unfold set_mod. repeat mesh_step. split.
    + apply set_mod_inv; [by eapply cfg_inv_view|]. unfold view in V. injection V as _ E _. by rewrite E.
    + eexists. apply set_mod_valid. by eapply view_valid.
Qed.

Lemma keeps_app_get ctx self now buf : (4 <= length buf)%nat -> keeps (mod_app_get self now ctx buf).
Proof.
  intros L. unfold mod_app_get. keep.
  assert (forall keys vnd st, (vnd = true -> (4 <= length b)%nat) -> keeps (id ← mod_id_bytes vnd b;
    respond (9 + length keys * 2) ctx (if vnd then OP_VND_MOD_APP_LIST else OP_SIG_MOD_APP_LIST)
      (status_code st :: sys_put_le16 a ++ id ++ flat_map sys_put_le16 (List.filter (fun k => negb (k =? BT_MESH_KEY_UNUSED)) keys)))) as Hr.
  { intros keys vnd st Hv. apply keeps_mod_id; [lia|done|]. intros id Li. apply keeps_respond. cbn. rewrite length_app, length_le16s.
    pose proof (filter_le (fun k => negb (k =? BT_MESH_KEY_UNUSED)) keys). lia. }
  apply keeps_find; [done|lia|intros vnd st Hv _|intros vnd p t Hv Ht Hp].
  - apply keeps_bind; [keep|intros ?]. by apply Hr.
  - mesh_step. mesh_step. apply wp_get_mod; [done|]. intros m _. mesh_step. by apply Hr.
Qed.

(** ** Heartbeats *)

Lemma quiet_sub_stop now : quiet (@sub_stop G now) (fun _ => True).
Proof.
  unfold sub_stop. eapply quiet_bind; [by apply (quiet_gets _ (fun _ => True))|]. intros rem _.
  eapply quiet_bind; [by apply quiet_modify|]. intros _ _. eapply quiet_bind; [by apply (quiet_gets _ (fun _ => True))|]. intros pending _.
  eapply quiet_bind; [by apply quiet_modify|]. intros _ _. apply quiet_when. unfold notify_sub_end.
  eapply quiet_bind; [by apply quiet_modify|]. intros _ _.
  eapply quiet_bind; [by apply (quiet_gets _ (fun _ => True))|]. intros ? _. apply quiet_event.
Qed.

Lemma quiet_sub_set now src dst period : quiet (@bt_mesh_hb_sub_set G now src dst period) (fun _ => True).
Proof.
  unfold bt_mesh_hb_sub_set. eapply quiet_bind; [by apply (quiet_gets _ (fun _ => True))|]. intros primary _.
  repeat (case_match; [by apply quiet_ret|]). case_match; [|case_match].
  - eapply quiet_bind; [by apply quiet_modify|]. intros _ _. eapply quiet_bind; [apply quiet_sub_stop|]. intros _ _. by apply quiet_ret.
  - eapply quiet_bind; [by apply quiet_modify|]. intros _ _. eapply quiet_bind; [by apply quiet_modify|]. intros _ _. by apply quiet_ret.
  - eapply quiet_bind; [apply quiet_sub_stop|]. intros _ _. by apply quiet_ret.
Qed.

Lemma keeps_hb_sub_set ctx self now buf : (5 <= length buf)%nat -> keeps (@heartbeat_sub_set G self now ctx buf).
Proof.
  intros L. unfold heartbeat_sub_set, hb_sub_send_status. do 3 keep. destruct (Z.ltb_spec 17 v1); [keep|].
  assert (exists p, bt_mesh_hb_pwr2 v1 = Some p) as [period E].
  { unfold bt_mesh_hb_pwr2. repeat case_match; eauto. zbool. lia. }
  eapply keeps_need; [exact E|]. apply keeps_bind; [eapply keeps_quiet, quiet_sub_set|intros ?]. repeat keep.
Qed.

(** ** Every message *)

(** The requests left out: heartbeat publications, the virtual publication addresses of
    the shortest length, and a reset that is not put off until the proxy is idle. *)
Definition risky (opcode : Z) (buf : bytes) : Prop :=
  opcode = op_code OP_HEARTBEAT_PUB_SET \/ (opcode = op_code OP_MOD_PUB_VA_SET /\ length buf = 24%nat) \/
  (opcode = op_code OP_NODE_RESET /\ config_proxy = false).

Local Abbreviation RECV := (cfg_srv_recv config_proxy config_friend config_cdb config_relay config_settings config_labels
  proxy_relay adv_buffer env has_update info BT_MESH_TX_SDU_MAX prov_reset friend_timer uninit).

Lemma handler_keeps op n func self now ctx buf :
  In (op, n, func) OPS -> (n <= length buf)%nat -> ~ risky (op_code op) buf -> keeps (func self now ctx buf).
Proof.
  intros H L R. cbn in H. repeat destruct H as [[= <- <- <-]|H]; try by destruct H.
  all: try (by destruct R; left).
  all: try (unfold beacon_get, default_ttl_get, gatt_proxy_get, send_gatt_proxy_status, net_transmit_get, relay_get, send_relay_status,
    friend_get, send_friend_status, heartbeat_pub_get, hb_pub_send_status, heartbeat_sub_get, hb_sub_send_status; by repeat keep).
  all: try (by first [apply keeps_app_keys|apply keeps_net_keys|apply keeps_identity|apply keeps_features_msgs|apply keeps_pub
    |apply keeps_sub|apply keeps_sub_get|apply keeps_bindings]).
  all: try (by first [apply keeps_comp_data|apply keeps_app_key_get|apply keeps_net_key_get|apply keeps_sub_del_all
    |apply keeps_app_get; lia|apply keeps_hb_sub_set]).
  - apply keeps_pub. destruct (decide (length buf = 24%nat)) as [E|]; [|lia]. destruct R. right. by left.
  - unfold node_reset. apply keeps_bind; [keep|intros ?]. destruct config_proxy eqn:E; cbn [negb]; [keep|].
    destruct R. right. right. by rewrite E.
Qed.

(** A request and the time it comes. *)
Record cfg_msg : Type := mkCfgMsg { cm_now : Z; cm_ctx : bt_mesh_msg_ctx; cm_opcode : Z; cm_buf : bytes }.

Fixpoint recv_all (self : mod_ptr) (msgs : list cfg_msg) : MESH unit :=
  match msgs with
  | [] => mret tt
  | c :: msgs => _ ← RECV self (cm_now c) (cm_ctx c) (cm_opcode c) (cm_buf c); recv_all self msgs
  end.


(** ** Requests that are not handled *)

Lemma short_label_undefined self now ctx elem_addr label i0 i1 ttl period ret x t :
  is_u16 elem_addr -> BT_MESH_ADDR_IS_UNICAST elem_addr = true -> length label = 16%nat -> 0 <= ttl <= BT_MESH_TTL_MAX ->
  mod_pub_va_set config_settings config_labels has_update uninit self now ctx
    (sys_put_le16 elem_addr ++ label ++ [i0; i1; ttl; period; ret; x]) t = None.
Proof.
  intros Hu U L Ht. unfold mod_pub_va_set, with_elem. cbn [sys_put_le16 app pull_le16]. rewrite (bind_some _ _ _ _ _ eq_refl).
  change (sys_get_le16 [u8 elem_addr; u8 (Z.shiftr elem_addr 8)]) with (sys_get_le16 (sys_put_le16 elem_addr ++ [])). rewrite get_put_le16 by done.
  cbv beta iota. rewrite U. cbn [negb].
  assert (pull_mem 16 (label ++ [i0; i1; ttl; period; ret; x]) = Some (label, [i0; i1; ttl; period; ret; x])) as E1.
  { unfold pull_mem. rewrite length_app, L. cbn [length Nat.add Nat.leb]. by rewrite take_app_length', drop_app_length'. }
  assert (pull_pub [i0; i1; ttl; period; ret; x] =
            Some (Some (Z.land (sys_get_le16 [i0; i1]) 4095, Z.testbit (sys_get_le16 [i0; i1]) 12, ttl, period, ret), [x])) as E2.
  { unfold pull_pub. cbn [pull_le16 pull_u8 mbind option_bind]. by rewrite (proj2 (Z.ltb_ge BT_MESH_TTL_MAX ttl)) by lia. }
  rewrite E1, (bind_some _ _ _ _ _ eq_refl). cbv beta iota. rewrite E2, (bind_some _ _ _ _ _ eq_refl). cbv beta iota. unfold find_mod at 1.
  destruct (bt_mesh_elem_find (net_comp (tr_net t)) elem_addr) as [[i|]|] eqn:Ee.
  - apply bind_none. rewrite (bind_some _ _ _ _ _ eq_refl). cbv beta. rewrite Ee, (bind_some _ _ _ _ _ eq_refl). cbv beta iota.
    apply bind_none. unfold get_model. rewrite (bind_some _ _ _ _ _ eq_refl). cbv beta.
    destruct (comp_elem (net_comp (tr_net t)) !! i) as [e|]; [|by apply bind_none]. by rewrite (bind_some _ _ _ _ _ eq_refl).
  - rewrite (bind_some _ _ t (false, inl STATUS_INVALID_ADDRESS) t).
    + done.
    + rewrite (bind_some _ _ _ _ _ eq_refl). cbv beta. by rewrite Ee.
  - apply bind_none. rewrite (bind_some _ _ _ _ _ eq_refl). cbv beta. by rewrite Ee.
Qed.

(** Two kinds of requests take the Configuration Server to undefined behaviour, in
    every state.  The table lets a publication to a virtual address through from 24
    bytes on, but its fields and the shortest model identifier have 25: with 24 bytes,
    for any unicast element address and valid TTL, the identifier is read past the end.
    And the count of a heartbeat publication is computed from its logarithm before that
    is checked: a logarithm from 0x20 to 0xfe shifts by more than an [int] has. *)
Theorem undefined_requests self now ctx t :
  (forall elem_addr label i0 i1 ttl period retransmit x,
     is_u16 elem_addr -> BT_MESH_ADDR_IS_UNICAST elem_addr = true -> length label = 16%nat -> 0 <= ttl <= BT_MESH_TTL_MAX ->
     RECV self now ctx (op_code OP_MOD_PUB_VA_SET) (sys_put_le16 elem_addr ++ label ++ [i0; i1; ttl; period; retransmit; x]) t = None) /\
  (forall d0 d1 count_log period_log ttl f0 f1 n0 n1 rest,
     32 <= count_log <= 254 ->
     RECV self now ctx (op_code OP_HEARTBEAT_PUB_SET) ([d0; d1; count_log; period_log; ttl; f0; f1; n0; n1] ++ rest) t = None).
Proof.
  split.
  - intros elem_addr label i0 i1 ttl period ret x Hu U L Ht. unfold cfg_srv_recv. cbn [List.find bt_mesh_cfg_srv_op op_code Z.eqb Pos.eqb].
    rewrite !length_app, L. cbn [length sys_put_le16 Nat.add Nat.ltb Nat.leb]. cbv iota.
    by apply short_label_undefined.
  - intros d0 d1 count_log period_log ttl f0 f1 n0 n1 rest H. unfold cfg_srv_recv. cbn [List.find bt_mesh_cfg_srv_op op_code Z.eqb Pos.eqb].
    cbn [length app Nat.ltb Nat.leb]. cbv iota. unfold heartbeat_pub_set. cbn [pull_le16 pull_u8].
    assert (bt_mesh_hb_pwr2 count_log = None) as E.
    { unfold bt_mesh_hb_pwr2. rewrite !(proj2 (Z.eqb_neq _ _)) by lia. cbn [orb]. by rewrite (proj2 (Z.ltb_ge (count_log - 1) 31)) by lia. }
    do 6 (rewrite (bind_some _ _ _ _ _ eq_refl); cbv beta iota; cbn [pull_le16 pull_u8]). rewrite E. by apply bind_none.
Qed.
End Safe.
