(* ===== verification/CfgNode.v ===== *)
(** * A node configured by the provisioner

    The two requests the provisioner application sends to a node it has provisioned,
    from their bytes on, through the access layer and the Configuration Server of the
    node, to the application key in the node's table and the binding of its vendor
    model. *)

From S2P Require Import Prelude ByteOrder MeshDefs Cdb NetBuf Access AppCommon Provisioner.
From S2P Require Import Rpl Ccm MeshCrypto Subnet AppKeys Net NetProps Transport TransportOps Mesh Heartbeat SecureBeacon Cfg CfgModels Main CfgSrv CfgBind CfgSafe.

(** ** The messages *)

Lemma land_low_lor a b k : 0 <= a < 2 ^ k -> 0 <= k -> 0 <= b -> Z.lor a (Z.shiftl b k) = a + b * 2 ^ k.
Proof. intros Ha Hk Hb. rewrite Z.lor_comm, lor_shiftl_add by lia. lia. Qed.

(** Two key indexes of 12 bits come out as they went in. *)
Lemma key_idx_round i j rest : 0 <= i < 4096 -> 0 <= j < 4096 -> key_idx_unpack (key_idx_pack i j ++ rest) = Some (i, j, rest).
Proof.
  intros Hi Hj. unfold key_idx_pack. change 15 with (2 ^ 4 - 1). rewrite land_mask, shiftr_div by lia.
  rewrite land_low_lor by (try lia; divmod || (apply Z.mod_pos_bound; lia)). cbn [sys_put_le16 app key_idx_unpack].
  rewrite !get_le16_cons by apply u8_range. change 4095 with (2 ^ 12 - 1). rewrite land_mask, !shiftr_div by lia.
  unfold u8, u16. change (2 ^ 12) with 4096. do 3 f_equal; divmod.
Qed.

(** The message of a request. *)
Definition cfg_wire (c : cfg_call) : bytes :=
  match c with
  | CfgAppKeyAdd _ _ key_net_idx key_app_idx key => app_key_add_msg key_net_idx key_app_idx key
  | CfgModAppBindVnd _ _ elem_addr app_idx mod_id cid => mod_app_bind_msg elem_addr app_idx mod_id cid
  end.

(** ** The node *)

Section Node.
Context {ecb : Ecb} {cmac : Cmac}.
Context (config_proxy config_friend config_cdb config_relay config_settings config_labels : bool).
Context (proxy_relay : bytes -> Z -> bt_mesh_net -> bool) (adv_buffer : bt_mesh_net -> bool).
Context (env : main_env) (has_update : bt_mesh_model -> bool) (info : comp_info) (BT_MESH_TX_SDU_MAX : nat).
Context {G : Type} {friend : FriendOps (mesh G)}.
Context (prov_reset : ST (trans (mesh G)) unit) (friend_timer : G -> Z -> option Z) (uninit : Z).

Abbreviation MESH := (ST (trans (mesh G))).
Abbreviation RECV := (cfg_srv_recv config_proxy config_friend config_cdb config_relay config_settings config_labels
  proxy_relay adv_buffer env has_update info BT_MESH_TX_SDU_MAX prov_reset friend_timer uninit).

(** A message from its opcode on. *)
Definition wire_recv (self : mod_ptr) (now : Z) (ctx : bt_mesh_msg_ctx) (msg : bytes) : MESH unit :=
  '((err, opcode), buf) ← need (get_opcode (mkBuf 0 (length msg) msg));
  match err with Some _ => mret tt | None => RECV self now ctx opcode (contents buf) end.

Lemma wire_recv_op self now ctx op c t : wire_recv self now ctx (op_bytes op ++ c) t = RECV self now ctx (op_code op) c t.
Proof.
  unfold wire_recv. destruct (get_opcode_ok (op_code op) (mkBuf 0 (length (op_bytes op ++ c)) (op_bytes op ++ c)) 0 c 0)
    as (b & E & _ & A).
  - by destruct op.
  - unfold buf_wf, buf_size. cbn. lia.
  - unfold abs, contents, net_buf_simple_headroom, net_buf_simple_tailroom, buf_size. cbn [buf_data buf_len buf_mem].
    rewrite drop_0, firstn_all. f_equal; [by destruct op|lia].
  - rewrite E. cbn [need]. rewrite bind_ret. cbv beta iota. by injection A as _ -> _.
Qed.

(** The vendor model of the applications, the [k]-th of the element [i], has a free key
    [f] and is not bound to the application key yet. *)
Record bindable (addr : Z) (i k f : nat) (m : bt_mesh_model) (t : trans (mesh G)) : Prop := {
  bnd_addr : is_u16 addr /\ BT_MESH_ADDR_IS_UNICAST addr = true;
  bnd_elem : bt_mesh_elem_find (net_comp (tr_net t)) addr = Some (Some i);
  bnd_model : exists e, comp_elem (net_comp (tr_net t)) !! i = Some e /\
    bt_mesh_model_find_vnd e BT_COMP_ID_LF MOD_LF = Some k /\ elem_vnd_models e !! k = Some m;
  bnd_unbound : existsb (Z.eqb APP_IDX) (mod_keys m) = false;
  bnd_room : find_index (Z.eqb BT_MESH_KEY_UNUSED) (mod_keys m) = Some f;
}.

(** The subnet of the provisioner is there, and [slot] is the place for the new key. *)
Definition has_room (slot : nat) (t : trans (mesh G)) : Prop :=
  is_Some (bt_mesh_subnet_get NET_IDX (net_subnets (tr_net t))) /\ app_key_alloc APP_IDX (tr_apps t) = Some slot /\
  exists a, apps (tr_apps t) !! slot = Some a /\ app_idx a <> APP_IDX.

(** The key in its slot. *)
Definition has_key (slot : nat) (key : bytes) (aid : Z) (t : trans (mesh G)) : Prop :=
  exists a, apps (tr_apps t) !! slot = Some a /\ app_idx a = APP_IDX /\ app_net_idx a = NET_IDX /\
    app_updated a = false /\ app_key0 a = mkAppCred aid key.

Lemma has_key_exists slot key aid t : has_key slot key aid t -> bt_mesh_app_key_exists APP_IDX (tr_apps t) = true.
Proof. intros (a & Ha & E & _). apply key_exists. by exists slot, a. Qed.

Lemma app_key_added self now ctx slot key aid t :
  has_room slot t -> length key = 16%nat -> bt_mesh_app_id key = inr aid ->
  wp (wire_recv self now ctx (app_key_add_msg NET_IDX APP_IDX key))
    (fun _ t' => has_key slot key aid t' /\ tr_net t' = tr_net t /\
       ms_log (tr_friend t') = ms_log (tr_friend t) ++ [EvModelSend ctx (op_bytes OP_APP_KEY_STATUS ++ [0; 0; 0; 0])]) t.
Proof.
  intros ([j Hj] & Hslot & a & Ha & Na) Lk Hid. unfold app_key_add_msg. rewrite (take_ge key) by lia.
  eapply wp_eq; [apply wire_recv_op|]. unfold cfg_srv_recv. cbn [List.find bt_mesh_cfg_srv_op op_code Z.eqb Pos.eqb].
  rewrite length_app, Lk. cbv iota. unfold app_key_add. apply wp_bind. eapply wp_need; [by apply key_idx_round|]. cbv beta iota.
  apply wp_bind. eapply wp_need; [unfold pull_mem; rewrite Lk; reflexivity|]. cbv beta iota. rewrite (take_ge key) by lia.
  set (s' := app_event_log (EvAppKey APP_IDX NET_IDX BT_MESH_KEY_ADDED) (app_event_log (EvStoreAppKey APP_IDX)
    (alter_app (fun a => a <| app_net_idx := NET_IDX |> <| app_idx := APP_IDX |> <| app_updated := false |>
                           <| app_key0 := mkAppCred aid key |>) slot (tr_apps t)))).
  assert (bt_mesh_app_key_add APP_IDX NET_IDX key (net_subnets (tr_net t)) (tr_apps t) = (STATUS_SUCCESS, s')) as E.
  { unfold bt_mesh_app_key_add. rewrite Hj, Hslot. cbn [mbind option_bind]. rewrite Ha. cbn [fmap option_fmap option_map].
    by rewrite (proj2 (Z.eqb_neq _ _) Na), Hid, (take_ge key) by lia. }
  unfold apps_op. mesh_step. mesh_step. mesh_step. mesh_step. mesh_step. rewrite E. cbv beta iota. mesh_step. mesh_step.
  assert (drop (length (app_log (tr_apps t))) (app_log s') =
    [EvStoreAppKey APP_IDX; EvAppKey APP_IDX NET_IDX BT_MESH_KEY_ADDED]) as ->
    by (unfold s'; cbn; rewrite <- app_assoc; apply drop_app_length).
  cbn [models_deliver]. mesh_step. mesh_step. mesh_step. unfold send_app_key_status, respond. change (length _ <=? 4)%nat with true. cbv iota. mesh_step.
  split; [|done]. eexists. split; [cbn; by rewrite list_lookup_alter_eq, Ha|done].
Qed.

Lemma vendor_model_found addr i k f m t :
  bindable addr i k f m t ->
  find_mod addr (sys_put_le16 BT_COMP_ID_LF ++ sys_put_le16 MOD_LF) t = Some ((true, inr (mkModPtr i true k)), t) /\
  model_at (mkModPtr i true k) (net_comp (tr_net t)) = Some m.
Proof.
  intros H. destruct (bnd_model _ _ _ _ _ _ H) as (e & He & Hk & Hm). split.
  - assert (get_model i (sys_put_le16 BT_COMP_ID_LF ++ sys_put_le16 MOD_LF) t = Some ((true, Some (mkModPtr i true k)), t)) as E.
    { unfold get_model. rewrite bind_gets, He. cbn [need]. rewrite bind_ret. change (length _ <? 4)%nat with false. cbv iota.
      cbn [app pull_le16 sys_put_le16]. rewrite (bind_some _ _ _ _ _ eq_refl). cbv beta iota. cbn [pull_le16].
      rewrite (bind_some _ _ _ _ _ eq_refl). cbv beta iota.
      change (bt_mesh_model_find_vnd e _ _) with (bt_mesh_model_find_vnd e BT_COMP_ID_LF MOD_LF). by rewrite Hk. }
    unfold find_mod. rewrite bind_gets, (bnd_elem _ _ _ _ _ _ H). cbn [need]. rewrite bind_ret. by rewrite (bind_some _ _ _ _ _ E).
  - unfold model_at. cbn [ptr_elem ptr_vnd ptr_mod]. by rewrite He.
Qed.

Definition bound (f : nat) (m : bt_mesh_model) : bt_mesh_model := m <| mod_keys := <[f := APP_IDX]> (mod_keys m) |>.

Lemma vendor_model_bound self now ctx addr slot i k f m key aid t :
  bindable addr i k f m t -> has_key slot key aid t -> ptr_vnd self = false ->
  wp (wire_recv self now ctx (mod_app_bind_msg addr APP_IDX MOD_LF BT_COMP_ID_LF))
    (fun _ t' => tr_apps t' = tr_apps t /\ net_comp (tr_net t') = put_mod (mkModPtr i true k) (bound f m) (net_comp (tr_net t)) /\
       ms_log (tr_friend t') = ms_log (tr_friend t) ++ (if config_settings then [EvStoreModBind] else []) ++
         [EvModelSend ctx (op_bytes OP_MOD_APP_STATUS ++ [0] ++ sys_put_le16 addr ++ sys_put_le16 APP_IDX
            ++ sys_put_le16 BT_COMP_ID_LF ++ sys_put_le16 MOD_LF)]) t.
Proof.
  intros H Hkey Hself. unfold mod_app_bind_msg. eapply wp_eq; [apply wire_recv_op|]. unfold cfg_srv_recv.
  cbn [List.find bt_mesh_cfg_srv_op op_code Z.eqb Pos.eqb]. change (length _ <? 6)%nat with false. cbv iota.
  change (BT_COMP_ID_LF =? CID_NVAL) with false. cbv iota. unfold mod_app_bind, with_app_idx, with_elem.
  destruct (bnd_addr _ _ _ _ _ _ H) as [Hu U]. apply wp_bind. eapply wp_need; [reflexivity|]. cbv beta iota.
  change (sys_get_le16 _) with (sys_get_le16 (sys_put_le16 addr ++ [])). rewrite get_put_le16, U by done. cbn [negb].
  apply wp_bind. eapply wp_need; [reflexivity|]. cbv beta iota. change (sys_get_le16 _) with APP_IDX.
  destruct (vendor_model_found _ _ _ _ _ _ H) as [E Em].
  apply wp_bind. exists (true, inr (mkModPtr i true k)), t. split; [exact E|]. cbv beta iota. apply wp_bind.
  rewrite decide_False by (intros ->; done). unfold get_mod. mesh_step. mesh_step. mesh_step. eapply wp_need; [exact Em|].
  unfold mod_bind. mesh_step. mesh_step. mesh_step. rewrite (has_key_exists slot key aid t Hkey). cbn [negb].
  rewrite (bnd_unbound _ _ _ _ _ _ H), (bnd_room _ _ _ _ _ _ H).
  mesh_step. apply wp_when; intros Ec; repeat mesh_step; unfold set_mod; repeat mesh_step; unfold create_mod_app_status, mod_id_bytes;
    do 2 mesh_step; (eapply wp_need; [reflexivity|]); cbv beta iota; repeat mesh_step; unfold respond;
    change (length _ <=? 9)%nat with true; cbv iota; mesh_step; rewrite ?Ec; split_and!; try done.
  symmetry. apply app_assoc.
Qed.

Fixpoint requests_recv (self : mod_ptr) (now : Z) (ctx : bt_mesh_msg_ctx) (cs : list cfg_call) : MESH unit :=
  match cs with
  | [] => mret tt
  | c :: cs => _ ← wire_recv self now ctx (cfg_wire c); requests_recv self now ctx cs
  end.

Lemma model_at_bound addr i k f m t :
  bindable addr i k f m t ->
  model_at (mkModPtr i true k) (put_mod (mkModPtr i true k) (bound f m) (net_comp (tr_net t))) = Some (bound f m).
Proof. intros H. apply model_at_put. by rewrite (proj2 (vendor_model_found _ _ _ _ _ _ H)). Qed.

(** The two requests of the provisioner application configure a node.  The bytes of the
    messages are read back by the Configuration Server as the key and the indexes they
    were made from; afterwards the key is in the place that was free for it, with its
    identifier, the vendor model is bound to it, and the node has answered both requests
    with success. *)
Theorem provisioner_configures self now ctx addr slot i k f m key aid t :
  has_room slot t -> bindable addr i k f m t -> ptr_vnd self = false ->
  length key = 16%nat -> bt_mesh_app_id key = inr aid ->
  exists t', requests_recv self now ctx (cfg_requests addr key) t = Some (tt, t') /\
    has_key slot key aid t' /\ model_at (mkModPtr i true k) (net_comp (tr_net t')) = Some (bound f m) /\
    ms_log (tr_friend t') = ms_log (tr_friend t) ++
      [EvModelSend ctx (op_bytes OP_APP_KEY_STATUS ++ [0; 0; 0; 0])] ++ (if config_settings then [EvStoreModBind] else []) ++
      [EvModelSend ctx (op_bytes OP_MOD_APP_STATUS ++ [0] ++ sys_put_le16 addr ++ sys_put_le16 APP_IDX
         ++ sys_put_le16 BT_COMP_ID_LF ++ sys_put_le16 MOD_LF)].
Proof.
  intros Hr Hb Hs Lk Hid. cbn [requests_recv cfg_requests cfg_wire].
  destruct (app_key_added self now ctx slot key aid t Hr Lk Hid) as ([] & t1 & E1 & K1 & N1 & L1).
  assert (bindable addr i k f m t1) as Hb1 by (destruct Hb; split; by rewrite ?N1).
  destruct (vendor_model_bound self now ctx addr slot i k f m key aid t1 Hb1 K1 Hs) as ([] & t2 & E2 & A2 & C2 & L2).
  exists t2. rewrite (bind_some _ _ _ _ _ E1), (bind_some _ _ _ _ _ E2). split; [done|]. split; [unfold has_key; by rewrite A2|].
  split; [rewrite C2; by apply (model_at_bound addr)|]. by rewrite L2, L1, <- app_assoc.
Qed.
End Node.

(** ** Example *)

(** The node 4 with the models of the applications, without an application key. *)
Definition config_comp_example : bt_mesh_comp :=
  mkComp [mkElem 4 [mkModel (SIG 0) 0 0 None [BT_MESH_KEY_DEV_LOCAL] [0; 0] []]
                   [mkModel (VND BT_COMP_ID_LF MOD_LF) 0 0 None [BT_MESH_KEY_UNUSED; BT_MESH_KEY_UNUSED] [0; 0] []]] 4.

Definition config_node_example : trans (mesh unit) :=
  trans_zero (mesh_zero tt) (node_example 4 2 false subnet_example <| net_comp := config_comp_example |>)
    (mkApps [app_key_zero; app_key_zero] []).

Definition config_ctx_example : bt_mesh_msg_ctx := mkCtx 0 BT_MESH_KEY_DEV_LOCAL 6 4 0 7 false 7.
Definition config_self_example : mod_ptr := mkModPtr 0 false 0.
Definition config_info_example : comp_info := mkCompInfo BT_COMP_ID_LF 0 0 10 (fun _ => 0).
Definition config_env_example : main_env := mkEnv None None None None.

Lemma provisioner_configures_example :
  exists t', @requests_recv toy_ecb toy_cmac true true false true true true (fun _ _ _ => false) (fun _ => true)
      config_env_example (fun _ => false) config_info_example 72 unit no_friends (mret tt) (fun _ _ => None) 0
      config_self_example 0 config_ctx_example (cfg_requests 4 (replicate 16 7)) config_node_example = Some (tt, t') /\
    bt_mesh_app_key_exists APP_IDX (tr_apps t') = true.
Proof.
  destruct (@bt_mesh_app_id toy_cmac (replicate 16 7)) as [|aid] eqn:E; [by vm_compute in E|].
  destruct (@provisioner_configures toy_ecb toy_cmac true true false true true true (fun _ _ _ => false) (fun _ => true)
    config_env_example (fun _ => false) config_info_example 72 unit no_friends (mret tt) (fun _ _ => None) 0
    config_self_example 0 config_ctx_example 4 0 0 0 0
    (mkModel (VND BT_COMP_ID_LF MOD_LF) 0 0 None [BT_MESH_KEY_UNUSED; BT_MESH_KEY_UNUSED] [0; 0] [])
    (replicate 16 7) aid config_node_example) as (t' & R & K & _).
  - split; [by eexists|]. split; [reflexivity|]. exists app_key_zero. split; [reflexivity|discriminate].
  - split; [split; [unfold is_u16; lia|]| |eexists; split; [|split]|..]; reflexivity.
  - reflexivity.
  - reflexivity.
  - exact E.
  - exists t'. split; [exact R|]. by apply (has_key_exists 0 (replicate 16 7) aid).
Qed.

(** The two requests, a message that is too short, the request to delete the key that
    is bound, and a message that no handler takes. *)
Definition config_msgs_example : list cfg_msg :=
  [mkCfgMsg 0 config_ctx_example (op_code OP_APP_KEY_ADD) ([0; 0; 0] ++ replicate 16 7);
   mkCfgMsg 10 config_ctx_example (op_code OP_MOD_APP_BIND) [4; 0; 0; 0; 241; 5; 0; 0];
   mkCfgMsg 20 config_ctx_example (op_code OP_NET_KEY_ADD) [1];
   mkCfgMsg 30 config_ctx_example (op_code OP_APP_KEY_DEL) [0; 0; 0];
   mkCfgMsg 40 config_ctx_example 9 []].

