(* ===== verification/Ecc.v ===== *)
(** * Public keys and Diffie-Hellman keys of the host
    (subsys/bluetooth/host/hci_core.c)

    [bt_pub_key_gen] asks the controller for a new key pair and registers a callback;
    the registered callbacks form a list linked through the callers' own structures.
    The two structures of the program are the one of the mesh provisioning and the one
    of the security manager. *)

From S2P Require Import Prelude.

(** The functions registered as callbacks: [pub_key_ready] of [prov.c],
    [prov_device.c] and [provisioner.c], and the one of [smp.c]. *)
Inductive pub_key_func : Type := PubKeyReady | DevicePubKeyReady | ProvisionerPubKeyReady | SmpPubKeyReady.

(** [prov_dh_key_cb] of [prov_device.c] and of [provisioner.c], and [bt_smp_dhkey_ready]. *)
Inductive dh_key_func : Type := DeviceDhKey | ProvisionerDhKey | SmpDhKey.

(** The static structures of type [struct bt_pub_key_cb]. *)
Inductive cb_struct : Type := MeshCb | SmpCb.

Record bt_pub_key_cb : Type := mkPubKeyCb { pkcb_func : pub_key_func; pkcb_next : option cb_struct }.

#[export] Instance bt_pub_key_cb_eta : Eta bt_pub_key_cb := fun c => mkPubKeyCb (pkcb_func c) (pkcb_next c).

Inductive hci_cmd : Type := CmdPublicKey | CmdDhKey (remote_pk : bytes).

Record ecc : Type := mkEcc {
  ecc_supported : bool;        (** the controller has the two commands *)
  pub_key_busy : bool;
  has_pub_key : bool;
  host_pub_key : bytes;
  pub_key_cb : option cb_struct;
  mesh_cb : bt_pub_key_cb;
  smp_cb : bt_pub_key_cb;
  dh_key_cb : option dh_key_func;
  hci_cmds : list hci_cmd;     (** the commands sent *)
}.

#[export] Instance ecc_eta : Eta ecc := fun e =>
  mkEcc (ecc_supported e) (pub_key_busy e) (has_pub_key e) (host_pub_key e) (pub_key_cb e) (mesh_cb e) (smp_cb e)
    (dh_key_cb e) (hci_cmds e).

Definition get_cb (c : cb_struct) (e : ecc) : bt_pub_key_cb := match c with MeshCb => mesh_cb e | SmpCb => smp_cb e end.
Definition set_cb (f : bt_pub_key_cb -> bt_pub_key_cb) (c : cb_struct) (e : ecc) : ecc :=
  match c with MeshCb => e <| mesh_cb := f (mesh_cb e) |> | SmpCb => e <| smp_cb := f (smp_cb e) |> end.

Section Ecc.
(** The result of [bt_hci_cmd_create] and [bt_hci_cmd_send_sync], after the commands so far. *)
Context (hci_result : list hci_cmd -> ret_code).

Definition hci_send (c : hci_cmd) : ST ecc ret_code :=
  cmds ← gets hci_cmds;
  match hci_result cmds with
  | Some e => mret (Some e)
  | None => _ ← modify (fun e => e <| hci_cmds := cmds ++ [c] |>); mret None
  end.

Definition bt_pub_key_gen (new_cb : cb_struct) : ST ecc ret_code :=
  supported ← gets ecc_supported;
  if negb supported then mret (Some ENOTSUP)
  else
    _ ← modify (fun e => set_cb (fun c => c <| pkcb_next := pub_key_cb e |>) new_cb e <| pub_key_cb := Some new_cb |>);
    busy ← gets pub_key_busy;
    _ ← modify (fun e => e <| pub_key_busy := true |>);
    if busy : bool then mret None
    else
      _ ← modify (fun e => e <| has_pub_key := false |>);
      err ← hci_send CmdPublicKey;
      match err with
      | Some _ => _ ← modify (fun e => e <| pub_key_busy := false |> <| pub_key_cb := None |>); mret err
      | None => mret None
      end.

Definition bt_pub_key_get (e : ecc) : option bytes := if has_pub_key e then Some (host_pub_key e) else None.

Definition bt_dh_key_gen (remote_pk : bytes) (cb : dh_key_func) : ST ecc ret_code :=
  e ← gets id;
  if bool_decide (is_Some (dh_key_cb e)) || pub_key_busy e then mret (Some EBUSY)
  else if negb (has_pub_key e) then mret (Some EADDRNOTAVAIL)
  else
    _ ← modify (fun e => e <| dh_key_cb := Some cb |>);
    err ← hci_send (CmdDhKey (take 64 remote_pk));
    _ ← (match err with Some _ => modify (fun e => e <| dh_key_cb := None |>) | None => mret tt end);
    mret err.

(** ** Events of the controller *)

Section Events.
(** The state that holds the host's, and the callbacks. *)
Context {S : Type} (ecc_of : S -> ecc) `{!Assignable ecc_of}.
Context (pub_key_call : pub_key_func -> option bytes -> ST S unit).
Context (dh_key_call : dh_key_func -> option bytes -> ST S unit).

(** The loop over the callbacks, at most [fuel] of them; the result tells whether it
    has come to the end of the list.  [cb->_next] is read after the call. *)
Fixpoint pkey_loop (fuel : nat) (cb : option cb_struct) (key : option bytes) : ST S bool :=
  match cb with
  | None => mret true
  | Some c =>
      match fuel with
      | O => mret false
      | Datatypes.S fuel =>
          f ← gets (fun s => pkcb_func (get_cb c (ecc_of s)));
          _ ← pub_key_call f key;
          next ← gets (fun s => pkcb_next (get_cb c (ecc_of s)));
          pkey_loop fuel next key
      end
  end.

Definition le_pkey_complete (fuel : nat) (status : Z) (key : bytes) : ST S bool :=
  _ ← zoom ecc_of (modify (fun e => e <| pub_key_busy := false |>));
  _ ← when (status =? 0) (zoom ecc_of (modify (fun e => e <| host_pub_key := take 64 key |> <| has_pub_key := true |>)));
  cb ← gets (fun s => pub_key_cb (ecc_of s));
  key ← gets (fun s => if status =? 0 then Some (host_pub_key (ecc_of s)) else None);
  finished ← pkey_loop fuel cb key;
  _ ← when finished (zoom ecc_of (modify (fun e => e <| pub_key_cb := None |>)));
  mret finished.

Definition le_dhkey_complete (status : Z) (dhkey : bytes) : ST S unit :=
  cb ← gets (fun s => dh_key_cb (ecc_of s));
  match cb with
  | None => mret tt
  | Some f =>
      _ ← dh_key_call f (if status =? 0 then Some dhkey else None);
      zoom ecc_of (modify (fun e => e <| dh_key_cb := None |>))
  end.

End Events.
End Ecc.
