(* ===== verification/Prov.v ===== *)
(** * Provisioning: what the two roles share (subsys/bluetooth/mesh/prov.c, prov.h)

    The link, the authentication methods, the dispatch of received PDUs to the role and
    the callbacks of the bearer.  A role is the structure of function pointers of
    [prov.h]; a bearer is an instance of the class [ProvBearer], the structure of
    [prov_bearer.h].  Random numbers come from a parameter. *)

From S2P Require Import Prelude ByteOrder MeshDefs Cdb NetBuf Access Rpl Ccm MeshCrypto Subnet AppKeys Net Transport Mesh Heartbeat SecureBeacon Cfg Main Ecc.

(** ** Constants and data *)

Definition PROV_ERR_NVAL_FMT : Z := 2.
Definition PROV_ERR_UNEXP_PDU : Z := 3.
Definition PROV_ERR_CFM_FAILED : Z := 4.
Definition PROV_ERR_RESOURCES : Z := 5.
Definition PROV_ERR_DECRYPT : Z := 6.
Definition PROV_ERR_UNEXP_ERR : Z := 7.

Definition AUTH_METHOD_NO_OOB : Z := 0.
Definition AUTH_METHOD_STATIC : Z := 1.
Definition AUTH_METHOD_OUTPUT : Z := 2.
Definition AUTH_METHOD_INPUT : Z := 3.
Definition OUTPUT_OOB_NUMBER : Z := 3.
Definition OUTPUT_OOB_STRING : Z := 4.
Definition INPUT_OOB_NUMBER : Z := 2.
Definition INPUT_OOB_STRING : Z := 3.
Definition PUB_KEY_NO_OOB : Z := 0.
Definition PUB_KEY_OOB : Z := 1.

Definition PROV_INVITE : Z := 0.
Definition PROV_CAPABILITIES : Z := 1.
Definition PROV_START : Z := 2.
Definition PROV_PUB_KEY : Z := 3.
Definition PROV_INPUT_COMPLETE : Z := 4.
Definition PROV_CONFIRM : Z := 5.
Definition PROV_RANDOM : Z := 6.
Definition PROV_DATA : Z := 7.
Definition PROV_COMPLETE : Z := 8.
Definition PROV_FAILED : Z := 9.
Definition PROV_NO_PDU : Z := 255.
Definition PROV_ALG_P256 : Z := 0.

Definition BT_MESH_DISPLAY_STRING : Z := 16.
Definition BT_MESH_ENTER_STRING : Z := 8.

Inductive bt_mesh_prov_bearer_t : Type := BT_MESH_PROV_ADV | BT_MESH_PROV_GATT.

Inductive prov_bearer_link_status : Type :=
| PROV_BEARER_LINK_STATUS_SUCCESS | PROV_BEARER_LINK_STATUS_TIMEOUT | PROV_BEARER_LINK_STATUS_FAIL.

(** The functions passed to [send] as completion callback. *)
Inductive send_complete : Type := StartSent | DevicePublicKeySent | ProvisionerPublicKeySent.

(** The bits of [bt_mesh_prov_link.flags]. *)
Inductive prov_flag : Type :=
| WAIT_PUB_KEY | LINK_ACTIVE | WAIT_NUMBER | WAIT_STRING | NOTIFY_INPUT_COMPLETE | PROVISIONER | OOB_PUB_KEY
| PUB_KEY_SENT | REMOTE_PUB_KEY | INPUT_COMPLETE | WAIT_CONFIRM | WAIT_AUTH | OOB_STATIC_KEY.

Definition flag_bit (f : prov_flag) : Z :=
  match f with
  | WAIT_PUB_KEY => 0 | LINK_ACTIVE => 1 | WAIT_NUMBER => 2 | WAIT_STRING => 3 | NOTIFY_INPUT_COMPLETE => 4
  | PROVISIONER => 5 | OOB_PUB_KEY => 6 | PUB_KEY_SENT => 7 | REMOTE_PUB_KEY => 8 | INPUT_COMPLETE => 9
  | WAIT_CONFIRM => 10 | WAIT_AUTH => 11 | OOB_STATIC_KEY => 12
  end.

Inductive role_id : Type := RoleDevice | RoleProvisioner.

Record prov_link : Type := mkLink {
  link_flags : Z;
  link_bearer : option bt_mesh_prov_bearer_t;
  link_role : option role_id;
  oob_method : Z;
  oob_action : Z;
  oob_size : Z;
  auth : bytes;
  dhkey : bytes;
  expect : Z;
  conf : bytes;
  rand : bytes;
  conf_salt : bytes;
  conf_key : bytes;
  conf_inputs : bytes;
  prov_salt : bytes;
}.

#[export] Instance prov_link_eta : Eta prov_link := fun l =>
  mkLink (link_flags l) (link_bearer l) (link_role l) (oob_method l) (oob_action l) (oob_size l) (auth l) (dhkey l)
    (expect l) (conf l) (rand l) (conf_salt l) (conf_key l) (conf_inputs l) (prov_salt l).

Definition link_zero : prov_link :=
  mkLink 0 None None 0 0 0 (replicate 16 0) (replicate 32 0) 0 (replicate 16 0) (replicate 16 0) (replicate 16 0)
    (replicate 16 0) (replicate 145 0) (replicate 16 0).

Record bt_mesh_dev_capabilities : Type := mkCaps {
  caps_elem_count : Z;
  caps_algorithms : Z;
  caps_pub_key_type : Z;
  caps_static_oob : Z;
  caps_output_actions : Z;
  caps_input_actions : Z;
  caps_output_size : Z;
  caps_input_size : Z;
}.

(** The application's structure; a function pointer may be NULL.  The functions called
    for a result give the [int] they return. *)
Record bt_mesh_prov : Type := mkProv {
  pv_uuid : bytes;
  pv_static_val : option bytes;
  pv_output_size : Z;
  pv_output_actions : Z;
  pv_input_size : Z;
  pv_input_actions : Z;
  pv_capabilities : bool;
  pv_output_number : option (Z -> Z -> Z);
  pv_output_string : option (bytes -> Z);
  pv_input : option (Z -> Z -> Z);
  pv_input_complete : bool;
  pv_link_open : bool;
  pv_link_close : bool;
  pv_node_added : bool;
  pv_reset : bool;
}.

(** [prov_device] of [provisioner.c]. *)
Record prov_device : Type := mkDevice {
  pd_node : option nat;
  pd_addr : Z;
  pd_net_idx : Z;
  pd_attention_duration : Z;
  pd_uuid : bytes;
}.

#[export] Instance prov_device_eta : Eta prov_device := fun d =>
  mkDevice (pd_node d) (pd_addr d) (pd_net_idx d) (pd_attention_duration d) (pd_uuid d).

(** Calls of the application and of the attention timer. *)
Inductive prov_event : Type :=
| PvAttention (time : Z)
| PvOutputNumber (action num : Z) | PvOutputString (str : bytes) | PvInput (action size : Z) | PvInputComplete
| PvCapabilities (caps : bt_mesh_dev_capabilities)
| PvLinkOpen (bearer : bt_mesh_prov_bearer_t) | PvLinkClose (bearer : bt_mesh_prov_bearer_t)
| PvNodeAdded (net_idx : Z) (uuid : bytes) (addr num_elem : Z)
| PvReset.

(** The functions of [struct prov_bearer].  NULL is undefined when called. *)
Class ProvBearer (B : Type) : Type := {
  bearer_send : bt_mesh_prov_bearer_t -> bytes -> option send_complete -> ST B ret_code;
  bearer_clear_tx : bt_mesh_prov_bearer_t -> ST B unit;
  bearer_link_accept : bt_mesh_prov_bearer_t -> ST B ret_code;
  bearer_link_open : bt_mesh_prov_bearer_t -> bytes -> ST B ret_code;
  bearer_link_close : bt_mesh_prov_bearer_t -> prov_bearer_link_status -> ST B unit;
  bearer_reset : bt_mesh_prov_bearer_t -> ST B unit;
}.

Record prov_state (G B : Type) : Type := mkProvState {
  ps_link : prov_link;
  ps_prov : bt_mesh_prov;
  ps_device : prov_device;
  ps_bearer : B;
  ps_mesh : trans (mesh G);
  ps_ecc : ecc;
  ps_rands : nat;                (** calls of [bt_rand] so far *)
  ps_log : list prov_event;
}.

Arguments mkProvState {G B} _ _ _ _ _ _ _ _ : assert.
Arguments ps_link {G B} _ : assert.
Arguments ps_prov {G B} _ : assert.
Arguments ps_device {G B} _ : assert.
Arguments ps_bearer {G B} _ : assert.
Arguments ps_mesh {G B} _ : assert.
Arguments ps_ecc {G B} _ : assert.
Arguments ps_rands {G B} _ : assert.
Arguments ps_log {G B} _ : assert.

#[export] Instance prov_state_eta G B : Eta (prov_state G B) := fun s =>
  mkProvState (ps_link s) (ps_prov s) (ps_device s) (ps_bearer s) (ps_mesh s) (ps_ecc s) (ps_rands s) (ps_log s).

(** [struct bt_mesh_prov_role] *)
Record prov_role (S : Type) : Type := mkRole {
  role_link_opened : option (ST S unit);
  role_link_closed : option (ST S unit);
  role_error : option (Z -> ST S unit);
  role_input_complete : ST S unit;
  role_op : list (option (bytes -> ST S unit));
}.

Arguments mkRole {S} _ _ _ _ _ : assert.
Arguments role_link_opened {S} _ : assert.
Arguments role_link_closed {S} _ : assert.
Arguments role_error {S} _ : assert.
Arguments role_input_complete {S} _.
Arguments role_op {S} _ : assert.

(** [find_msb_set] *)
Definition find_msb_set (op : Z) : Z := if op =? 0 then 0 else Z.log2 op + 1.

(** [memcpy(&dst[at], src, |src|)] inside an array. *)
Definition memcpy_at (at_ : nat) (src dst : bytes) : bytes := take at_ dst ++ src ++ drop (at_ + length src) dst.

(** What is copied is in its place, and the rest is left alone. *)
Lemma length_memcpy_at off (src dst : bytes) : (off + length src <= length dst)%nat -> length (memcpy_at off src dst) = length dst.
Proof. intros H. unfold memcpy_at. rewrite !length_app, length_take, length_drop. lia. Qed.

Lemma slice_memcpy_same off (src dst : bytes) :
  (off + length src <= length dst)%nat -> slice off (length src) (memcpy_at off src dst) = src.
Proof.
  intros H. unfold slice, memcpy_at. rewrite drop_app_length' by (rewrite length_take; lia). by apply take_app_length.
Qed.

Lemma slice_memcpy_other p n off (src dst : bytes) :
  (off + length src <= length dst)%nat -> (p + n <= off \/ off + length src <= p)%nat ->
  slice p n (memcpy_at off src dst) = slice p n dst.
Proof.
  intros H [Hp|Hp]; unfold slice, memcpy_at.
  - rewrite drop_app_le by (rewrite length_take; lia). rewrite take_app_le by (rewrite length_drop, length_take; lia).
    rewrite !take_drop_commute, take_take. f_equal. f_equal. lia.
  - rewrite app_assoc, drop_app_ge by (rewrite length_app, length_take; lia). rewrite length_app, length_take, drop_drop.
    f_equal. f_equal. lia.
Qed.

(** [sys_memcpy_swap] of each half of a public key. *)
Definition swap_halves (key : bytes) : bytes := rev (take 32 key) ++ rev (take 32 (drop 32 key)).

(** ** Operations *)

Section Prov.
(** The results of the HCI commands, and of the [k]-th call of [bt_rand] for [n] bytes:
    its return code and what it leaves in the array. *)
Context (hci_result : list hci_cmd -> ret_code) (bt_rand : nat -> nat -> ret_code * bytes).
Context (config_pb_adv config_pb_gatt : bool).
Context {G B : Type} {bearer : ProvBearer B}.

Abbreviation PROV := (ST (prov_state G B)).

Definition lnk {A : Type} (f : prov_link -> A) : PROV A := gets (fun s => f (ps_link s)).
Definition set_link (f : prov_link -> prov_link) : PROV unit := modify (fun s => s <| ps_link := f (ps_link s) |>).
Definition pcfg {A : Type} (f : bt_mesh_prov -> A) : PROV A := gets (fun s => f (ps_prov s)).
Definition prov_event_log (e : prov_event) : PROV unit := modify (fun s => s <| ps_log := ps_log s ++ [e] |>).

Definition test_flag (f : prov_flag) (l : prov_link) : bool := Z.testbit (link_flags l) (flag_bit f).
Definition set_flag (f : prov_flag) : PROV unit := set_link (fun l => l <| link_flags := Z.setbit (link_flags l) (flag_bit f) |>).
Definition clear_flag (f : prov_flag) : PROV unit :=
  set_link (fun l => l <| link_flags := Z.clearbit (link_flags l) (flag_bit f) |>).
Definition test_and_clear (f : prov_flag) : PROV bool := v ← lnk (test_flag f); _ ← clear_flag f; mret v.
Definition set_expect (pdu : Z) : PROV unit := set_link (fun l => l <| expect := pdu |>).
Definition set_conf_inputs (at_ : nat) (src : bytes) : PROV unit :=
  set_link (fun l => l <| conf_inputs := memcpy_at at_ src (conf_inputs l) |>).

Lemma wp_lnk {A : Type} (f : prov_link -> A) Q (s : prov_state G B) : Q (f (ps_link s)) s -> wp (lnk f) Q s.
Proof. intros H. unfold lnk. by apply wp_gets. Qed.

Lemma wp_pcfg {A : Type} (f : bt_mesh_prov -> A) Q (s : prov_state G B) : Q (f (ps_prov s)) s -> wp (pcfg f) Q s.
Proof. intros H. unfold pcfg. by apply wp_gets. Qed.

Lemma wp_set_link f Q (s : prov_state G B) : Q tt (s <| ps_link := f (ps_link s) |>) -> wp (set_link f) Q s.
Proof. intros H. by apply (wp_modify _ Q). Qed.

Lemma wp_prov_event ev Q (s : prov_state G B) : Q tt (s <| ps_log := ps_log s ++ [ev] |>) -> wp (prov_event_log ev) Q s.
Proof. intros H. by apply (wp_modify _ Q). Qed.

Definition random (n : nat) : PROV (ret_code * bytes) :=
  k ← gets ps_rands;
  _ ← modify (fun s => s <| ps_rands := S k |>);
  mret (bt_rand k n).

Definition bt_mesh_prov_send (pdu : bytes) (cb : option send_complete) : PROV ret_code :=
  b ← lnk link_bearer; b ← need b; zoom ps_bearer (bearer_send b pdu cb).

(** [func] is NULL for the function of [prov.c]. *)
Definition bt_mesh_prov_reset_state (func : option pub_key_func) : PROV ret_code :=
  _ ← zoom ps_ecc (modify (set_cb (fun c => c <| pkcb_func := match func with Some f => f | None => PubKeyReady end |>) MeshCb));
  attention ← lnk (fun l => byte_at (conf_inputs l) 0);
  _ ← when (negb (attention =? 0)) (prov_event_log (PvAttention 0));
  _ ← set_link (fun l => link_zero <| link_bearer := link_bearer l |> <| link_role := link_role l |>
                           <| oob_method := oob_method l |> <| oob_action := oob_action l |>
                           <| oob_size := oob_size l |> <| auth := auth l |>);
  zoom ps_ecc (bt_pub_key_gen hci_result MeshCb).

Definition output_action (action : Z) : Z := if (0 <=? action) && (action <=? 4) then Z.shiftl 1 action else 0.
Definition input_action (action : Z) : Z := if (0 <=? action) && (action <=? 3) then Z.shiftl 1 action else 0.

Definition neg_EINVAL : Z := -22.

(** A random byte as a digit or a capital letter. *)
Definition oob_char (c : Z) : Z := let c := c mod 36 in if c <? 10 then c + 48 else c + 65 - 10.

(** The methods that display a value: [size] is the number of characters, [div] has
    eight entries and [str] nine. *)
Definition auth_output (output size : Z) : PROV Z :=
  _ ← set_flag NOTIFY_INPUT_COMPLETE;
  if output =? BT_MESH_DISPLAY_STRING then
    '(_, str) ← random (Z.to_nat size);
    _ ← need (if size <=? 8 then Some tt else None);
    let str := map oob_char (take (Z.to_nat size) str) in
    _ ← set_link (fun l => l <| auth := str ++ replicate (16 - Z.to_nat size) 0 |>);
    f ← pcfg pv_output_string; f ← need f;
    _ ← prov_event_log (PvOutputString str);
    mret (f str)
  else
    '(_, num) ← random 4;
    _ ← need (if (1 <=? size) && (size <=? 8) then Some tt else None);
    let num := sys_get_le32 num mod 10 ^ size in
    _ ← set_link (fun l => l <| auth := replicate 12 0 ++ sys_put_be32 num |>);
    f ← pcfg pv_output_number; f ← need f;
    _ ← prov_event_log (PvOutputNumber output num);
    mret (f output num).

Definition bt_mesh_prov_auth (method action size : Z) : PROV Z :=
  prov ← pcfg id;
  if method =? AUTH_METHOD_NO_OOB then
    if negb (action =? 0) || negb (size =? 0) then mret neg_EINVAL
    else _ ← set_link (fun l => l <| auth := replicate 16 0 |>); mret 0
  else if method =? AUTH_METHOD_STATIC then
    if negb (action =? 0) || negb (size =? 0) then mret neg_EINVAL
    else _ ← set_flag OOB_STATIC_KEY; mret 0
  else if method =? AUTH_METHOD_OUTPUT then
    let output := output_action action in
    if output =? 0 then mret neg_EINVAL
    else if Z.land (pv_output_actions prov) output =? 0 then mret neg_EINVAL
    else if pv_output_size prov <? size then mret neg_EINVAL
    else auth_output output size
  else if method =? AUTH_METHOD_INPUT then
    let input := input_action action in
    if input =? 0 then mret neg_EINVAL
    else if Z.land (pv_input_actions prov) input =? 0 then mret neg_EINVAL
    else if pv_input_size prov <? size then mret neg_EINVAL
    else
      _ ← set_flag (if input =? BT_MESH_ENTER_STRING then WAIT_STRING else WAIT_NUMBER);
      f ← need (pv_input prov);
      _ ← prov_event_log (PvInput input size);
      mret (f input size)
  else mret neg_EINVAL.

(** ** Calls of the application *)

(** The role structures. *)
Context (roles : role_id -> prov_role (prov_state G B)).

Definition get_role : PROV (prov_role (prov_state G B)) := r ← lnk link_role; r ← need r; mret (roles r).

Definition bt_mesh_input_number (num : Z) : PROV ret_code :=
  wait ← test_and_clear WAIT_NUMBER;
  if negb wait then mret (Some EINVAL)
  else
    _ ← set_link (fun l => l <| auth := memcpy_at 12 (sys_put_be32 num) (auth l) |>);
    role ← get_role;
    _ ← role_input_complete role;
    mret None.

(** [strncpy]: the string is cut or filled with zeros to [input_size] bytes; the array
    has sixteen. *)
Definition bt_mesh_input_string (str : bytes) : PROV ret_code :=
  wait ← test_and_clear WAIT_STRING;
  if negb wait then mret (Some EINVAL)
  else
    size ← pcfg (fun p => Z.to_nat (pv_input_size p));
    _ ← need (if (size <=? 16)%nat then Some tt else None);
    _ ← set_link (fun l => l <| auth := memcpy_at 0 (take size str ++ replicate (size - length str) 0) (auth l) |>);
    role ← get_role;
    _ ← role_input_complete role;
    mret None.

Definition bt_mesh_prov_active (s : prov_state G B) : bool := test_flag LINK_ACTIVE (ps_link s).

(** ** Callbacks of the bearer *)

Definition op_len : list nat := [1; 11; 5; 64; 0; 16; 16; 33; 0; 1]%nat.

Definition call_error (err : Z) : PROV unit :=
  role ← get_role; f ← need (role_error role); f err.

Definition prov_recv (buf : bytes) : PROV unit :=
  type ← need (buf !! 0%nat);
  role ← get_role;
  exp ← lnk expect;
  match role_op role !! Z.to_nat type, op_len !! Z.to_nat type with
  | Some op, Some len =>
      match op with
      | None => call_error PROV_ERR_UNEXP_PDU
      | Some f =>
          if negb (type =? PROV_FAILED) && negb (type =? exp) then call_error PROV_ERR_UNEXP_PDU
          else if negb (1 + len =? length buf)%nat then call_error PROV_ERR_NVAL_FMT
          else f (drop 1 buf)
      end
  | _, _ => call_error PROV_ERR_NVAL_FMT
  end.

Definition prov_link_opened (b : bt_mesh_prov_bearer_t) : PROV unit :=
  _ ← set_flag LINK_ACTIVE;
  open ← pcfg pv_link_open;
  _ ← when open (prov_event_log (PvLinkOpen b));
  _ ← set_link (fun l => l <| link_bearer := Some b |>);
  role ← get_role;
  match role_link_opened role with Some f => f | None => mret tt end.

Definition prov_link_closed (b : bt_mesh_prov_bearer_t) : PROV unit :=
  role ← get_role;
  _ ← (match role_link_closed role with Some f => f | None => mret tt end);
  close ← pcfg pv_link_close;
  when close (prov_event_log (PvLinkClose b)).

Definition prov_bearer_error (err : Z) : PROV unit :=
  role ← get_role;
  match role_error role with Some f => f err | None => mret tt end.

Definition bt_mesh_prov_reset : PROV unit :=
  _ ← when config_pb_adv (zoom ps_bearer (bearer_reset BT_MESH_PROV_ADV));
  _ ← when config_pb_gatt (zoom ps_bearer (bearer_reset BT_MESH_PROV_GATT));
  _ ← bt_mesh_prov_reset_state None;
  reset ← pcfg pv_reset;
  when reset (prov_event_log PvReset).

(** The bearers' timers are initialised with their state. *)
Definition bt_mesh_prov_init (prov : option bt_mesh_prov) : PROV ret_code :=
  match prov with
  | None => mret (Some EINVAL)
  | Some prov => _ ← modify (fun s => s <| ps_prov := prov |>); bt_mesh_prov_reset_state None
  end.

End Prov.

(** One step of a program on this state. *)
Ltac prov_step :=
  first
    [ wp_step
    | lazymatch goal with
      | |- wp (lnk _) _ _ => apply wp_lnk
      | |- wp (pcfg _) _ _ => apply wp_pcfg
      | |- wp (set_link _) _ _ => apply wp_set_link
      | |- wp (set_flag _) _ _ => apply wp_set_link
      | |- wp (clear_flag _) _ _ => apply wp_set_link
      | |- wp (set_expect _) _ _ => apply wp_set_link
      | |- wp (set_conf_inputs _ _) _ _ => apply wp_set_link
      | |- wp (prov_event_log _) _ _ => apply wp_prov_event
      end; cbv beta
    | lazymatch goal with
      | |- wp (random _ _) _ _ => unfold random
      | |- wp (test_and_clear _) _ _ => unfold test_and_clear
      end ].
