(* ===== verification/ProvDevice.v ===== *)
(** * Provisioning: the role of the device (subsys/bluetooth/mesh/prov_device.c)

    The handlers of the PDUs a provisioner sends, in the order of the protocol: invite,
    start, public key, confirmation, random and data.  The callbacks of the host and of
    the bearer ([prov_dh_key_cb], [pub_key_ready], [public_key_sent]) are operations of
    their own. *)

From S2P Require Import Prelude ByteOrder MeshDefs Cdb NetBuf Access Rpl Ccm MeshCrypto Subnet AppKeys Net Transport Mesh Heartbeat SecureBeacon Cfg Main Ecc Prov.

Section ProvDevice.
Context {ecb : Ecb} {cmac : Cmac}.
Context (config_proxy config_friend config_cdb config_pb_adv config_pb_gatt config_settings : bool) (env : main_env).
Context (hci_result : list hci_cmd -> ret_code) (bt_rand : nat -> nat -> ret_code * bytes).
Context {G B : Type} {friend : FriendOps (mesh G)} {bearer : ProvBearer B}.

Abbreviation PROV := (ST (prov_state G B)).

Definition reset_state : PROV ret_code := bt_mesh_prov_reset_state hci_result (Some DevicePubKeyReady).

Definition prov_send_fail_msg (err : Z) : PROV unit :=
  _ ← set_expect PROV_NO_PDU;
  _ ← bt_mesh_prov_send [PROV_FAILED; err] None;
  mret tt.

Definition prov_fail (reason : Z) : PROV unit := prov_send_fail_msg reason.

(** The capabilities after the PDU type. *)
Definition capabilities (elem_count : Z) (prov : bt_mesh_prov) : bytes :=
  [elem_count] ++ sys_put_be16 1 ++ [PUB_KEY_NO_OOB]
  ++ [match pv_static_val prov with Some _ => 1 | None => 0 end]
  ++ [pv_output_size prov] ++ sys_put_be16 (pv_output_actions prov)
  ++ [pv_input_size prov] ++ sys_put_be16 (pv_input_actions prov).

Definition prov_invite (data : bytes) : PROV unit :=
  let attention := byte_at data 0 in
  _ ← when (negb (attention =? 0)) (prov_event_log (PvAttention attention));
  _ ← set_conf_inputs 0 [attention];
  elems ← gets (fun s => u8 (Z.of_nat (length (comp_elem (net_comp (tr_net (ps_mesh s)))))));
  prov ← pcfg id;
  let caps := capabilities elems prov in
  _ ← set_conf_inputs 1 caps;
  err ← bt_mesh_prov_send (PROV_CAPABILITIES :: caps) None;
  match err with Some _ => mret tt | None => set_expect PROV_START end.

(** After a refused method the function goes on to the static value. *)
Definition prov_start (data : bytes) : PROV unit :=
  if negb (byte_at data 0 =? PROV_ALG_P256) then prov_fail PROV_ERR_NVAL_FMT
  else if negb (byte_at data 1 =? PUB_KEY_NO_OOB) then prov_fail PROV_ERR_NVAL_FMT
  else
    _ ← set_conf_inputs 12 (take 5 data);
    _ ← set_expect PROV_PUB_KEY;
    err ← bt_mesh_prov_auth bt_rand (byte_at data 2) (byte_at data 3) (byte_at data 4);
    _ ← when (err <? 0) (prov_fail PROV_ERR_NVAL_FMT);
    static ← lnk (test_flag OOB_STATIC_KEY);
    if static : bool then
      val ← pcfg (fun p => match pv_static_val p with Some v => v | None => [] end);
      _ ← need (if (length val <=? 16)%nat then Some tt else None);
      set_link (fun l => l <| auth := replicate (16 - length val) 0 ++ val |>)
    else mret tt.

Definition send_confirm : PROV unit :=
  l ← lnk id;
  match bt_mesh_prov_conf_salt (conf_inputs l) with
  | inl _ => prov_fail PROV_ERR_UNEXP_ERR
  | inr salt =>
      _ ← set_link (fun l => l <| conf_salt := salt |>);
      match bt_mesh_prov_conf_key (dhkey l) salt with
      | inl _ => prov_fail PROV_ERR_UNEXP_ERR
      | inr key =>
          _ ← set_link (fun l => l <| conf_key := key |>);
          '(err, r) ← random bt_rand 16;
          _ ← set_link (fun l => l <| rand := r |>);
          match err with
          | Some _ => prov_fail PROV_ERR_UNEXP_ERR
          | None =>
              match bt_mesh_prov_conf key r (auth l) with
              | inl _ => prov_fail PROV_ERR_UNEXP_ERR
              | inr cfm =>
                  err ← bt_mesh_prov_send (PROV_CONFIRM :: cfm) None;
                  match err with Some _ => mret tt | None => set_expect PROV_RANDOM end
              end
          end
      end
  end.

Definition send_input_complete : PROV unit :=
  _ ← bt_mesh_prov_send [PROV_INPUT_COMPLETE] None;
  set_expect PROV_CONFIRM.

Definition public_key_sent : PROV unit :=
  _ ← set_flag PUB_KEY_SENT;
  complete ← lnk (test_flag INPUT_COMPLETE);
  when complete send_input_complete.

Definition send_pub_key : PROV unit :=
  key ← gets (fun s => bt_pub_key_get (ps_ecc s));
  match key with
  | None => prov_fail PROV_ERR_UNEXP_ERR
  | Some key =>
      let pk := swap_halves key in
      _ ← set_conf_inputs 81 pk;
      err ← bt_mesh_prov_send (PROV_PUB_KEY :: pk) (Some DevicePublicKeySent);
      match err with
      | Some _ => mret tt
      | None =>
          wait ← lnk (fun l => test_flag WAIT_NUMBER l || test_flag WAIT_STRING l);
          set_expect (if wait : bool then PROV_NO_PDU else PROV_CONFIRM)
      end
  end.

(** [key] is NULL when the generation failed. *)
Definition prov_dh_key_cb (key : option bytes) : PROV unit :=
  match key with
  | None => prov_fail PROV_ERR_UNEXP_ERR
  | Some key => _ ← set_link (fun l => l <| dhkey := rev (take 32 key) |>); send_pub_key
  end.

Definition prov_dh_key_gen : PROV unit :=
  remote ← lnk (fun l => swap_halves (drop 17 (conf_inputs l)));
  err ← zoom ps_ecc (bt_dh_key_gen hci_result remote DeviceDhKey);
  match err with Some _ => prov_fail PROV_ERR_UNEXP_ERR | None => mret tt end.

Definition prov_pub_key (data : bytes) : PROV unit :=
  _ ← set_conf_inputs 17 (take 64 data);
  key ← gets (fun s => bt_pub_key_get (ps_ecc s));
  match key with
  | None =>
      b ← lnk link_bearer; b ← need b;
      _ ← zoom ps_bearer (bearer_clear_tx b);
      set_flag WAIT_PUB_KEY
  | Some _ => prov_dh_key_gen
  end.

Definition pub_key_ready (pkey : option bytes) : PROV unit :=
  match pkey with
  | None => mret tt
  | Some _ => wait ← test_and_clear WAIT_PUB_KEY; when wait prov_dh_key_gen
  end.

Definition notify_input_complete : PROV unit :=
  notify ← test_and_clear NOTIFY_INPUT_COMPLETE;
  cb ← pcfg pv_input_complete;
  when (notify && cb) (prov_event_log PvInputComplete).

Definition send_random : PROV unit :=
  r ← lnk rand;
  err ← bt_mesh_prov_send (PROV_RANDOM :: r) None;
  match err with Some _ => mret tt | None => set_expect PROV_DATA end.

Definition prov_random (data : bytes) : PROV unit :=
  l ← lnk id;
  if bool_decide (take 16 data = rand l) then prov_fail PROV_ERR_CFM_FAILED
  else match bt_mesh_prov_conf (conf_key l) (take 16 data) (auth l) with
       | inl _ => prov_fail PROV_ERR_UNEXP_ERR
       | inr verify =>
           if negb (bool_decide (verify = conf l)) then prov_fail PROV_ERR_CFM_FAILED
           else match bt_mesh_prov_salt (conf_salt l) (take 16 data) (rand l) with
                | inl _ => prov_fail PROV_ERR_UNEXP_ERR
                | inr salt => _ ← set_link (fun l => l <| prov_salt := salt |>); send_random
                end
       end.

Definition prov_confirm (data : bytes) : PROV unit :=
  _ ← set_link (fun l => l <| conf := take 16 data |>);
  _ ← notify_input_complete;
  send_confirm.

Definition is_pb_gatt (l : prov_link) : bool :=
  match link_bearer l with Some BT_MESH_PROV_GATT => true | _ => false end.

(** From the point where the data is decrypted into [pdu]; the network key is the 16
    bytes at its start. *)
Definition prov_data_apply (now : Z) (pdu dev_key : bytes) : PROV unit :=
  let net_idx := sys_get_be16 (drop 16 pdu) in
  let flags := byte_at pdu 18 in
  let iv_index := sys_get_be32 (drop 19 pdu) in
  let addr := sys_get_be16 (drop 23 pdu) in
  err ← bt_mesh_prov_send [PROV_COMPLETE] None;
  match err with
  | Some _ => mret tt
  | None =>
      _ ← set_expect PROV_NO_PDU;
      identity_enable ← lnk (fun l => config_proxy && is_pb_gatt l);
      uuid ← pcfg pv_uuid;
      err ← zoom ps_mesh (bt_mesh_provision config_proxy config_friend config_cdb config_pb_gatt config_settings env now
                            uuid (take 16 pdu) net_idx flags iv_index addr dev_key);
      match err with
      | Some _ => mret tt
      | None => when identity_enable (zoom ps_mesh (mesh_event_log EvProxyIdentityEnable))
      end
  end.

(** [data] and [pdu] are two arrays; the memory of the decryption is one after the other. *)
Definition prov_data (now : Z) (data : bytes) : PROV unit :=
  l ← lnk id;
  match bt_mesh_session_key (dhkey l) (prov_salt l), bt_mesh_prov_nonce (dhkey l) (prov_salt l) with
  | inr session_key, inr nonce =>
      '(err, mem) ← need (bt_mesh_prov_decrypt session_key nonce 0 33 (take 33 data ++ replicate 25 0));
      match err with
      | Some _ => prov_fail PROV_ERR_DECRYPT
      | None =>
          match bt_mesh_dev_key (dhkey l) (prov_salt l) with
          | inl _ => prov_fail PROV_ERR_UNEXP_ERR
          | inr dev_key => prov_data_apply now (drop 33 mem) dev_key
          end
      end
  | _, _ => prov_fail PROV_ERR_UNEXP_ERR
  end.

Definition local_input_complete : PROV unit :=
  sent ← lnk (test_flag PUB_KEY_SENT);
  if sent : bool then send_input_complete else set_flag INPUT_COMPLETE.

Definition link_closed : PROV unit := _ ← reset_state; mret tt.
Definition link_opened : PROV unit := set_expect PROV_INVITE.

Definition role_device (now : Z) : prov_role (prov_state G B) :=
  mkRole (Some link_opened) (Some link_closed) (Some prov_fail) local_input_complete
    [Some prov_invite; None; Some prov_start; Some prov_pub_key; None; Some prov_confirm; Some prov_random;
     Some (prov_data now); None; None].

(** [adv] and [gatt] are the bits of [bearers]. *)
Definition bt_mesh_prov_enable (adv gatt : bool) : PROV ret_code :=
  provisioned ← gets (fun s => bt_mesh_is_provisioned (ps_mesh s));
  if provisioned : bool then mret (Some EALREADY)
  else
    _ ← when (config_pb_adv && adv) (_ ← zoom ps_bearer (bearer_link_accept BT_MESH_PROV_ADV); mret tt);
    _ ← when (config_pb_gatt && gatt) (_ ← zoom ps_bearer (bearer_link_accept BT_MESH_PROV_GATT); mret tt);
    _ ← set_link (fun l => l <| link_role := Some RoleDevice |>);
    mret None.

Definition bt_mesh_prov_disable (adv gatt : bool) : PROV ret_code :=
  provisioned ← gets (fun s => bt_mesh_is_provisioned (ps_mesh s));
  if provisioned : bool then mret (Some EALREADY)
  else
    _ ← when (config_pb_adv && adv)
          (zoom ps_mesh (_ ← bt_mesh_beacon_disable; _ ← bt_mesh_scan_disable env; mret tt));
    _ ← when (config_pb_gatt && gatt) (zoom ps_mesh (mesh_event_log EvProxyProvDisable));
    mret None.

End ProvDevice.
