(* ===== verification/MeshProvisioner.v ===== *)
(** * Provisioning: the role of the provisioner (subsys/bluetooth/mesh/provisioner.c)

    The handlers of the PDUs a device sends, the choice of the authentication method
    and the opening of a link.  The node being provisioned is an entry of the
    configuration database. *)

From S2P Require Import Prelude ByteOrder MeshDefs Cdb NetBuf Access Rpl Ccm MeshCrypto Subnet AppKeys Net Transport Mesh Heartbeat SecureBeacon Cfg Main Ecc Prov.

Section MeshProvisioner.
Context {ecb : Ecb} {cmac : Cmac} (config_pb_adv config_provisioner config_settings : bool).
Context (hci_result : list hci_cmd -> ret_code) (bt_rand : nat -> nat -> ret_code * bytes).
Context {G B : Type} {bearer : ProvBearer B}.

Abbreviation PROV := (ST (prov_state G B)).

Definition dev {A : Type} (f : prov_device -> A) : PROV A := gets (fun s => f (ps_device s)).
Definition set_dev (f : prov_device -> prov_device) : PROV unit := modify (fun s => s <| ps_device := f (ps_device s) |>).
Definition cdb {A : Type} (f : bt_mesh_cdb -> A) : PROV A := gets (fun s => f (tr_cdb (ps_mesh s))).
Definition set_cdb (f : bt_mesh_cdb -> bt_mesh_cdb) : PROV unit :=
  modify (fun s => s <| ps_mesh := (ps_mesh s) <| tr_cdb := f (tr_cdb (ps_mesh s)) |> |>).

(** The entry [prov_device.node] points to. *)
Definition device_node : PROV (nat * bt_mesh_cdb_node) :=
  i ← dev pd_node; i ← need i;
  n ← cdb (fun c => cdb_nodes c !! i); n ← need n;
  mret (i, n).

Definition reset_state : PROV ret_code :=
  node ← dev pd_node;
  _ ← (match node with Some i => set_cdb (bt_mesh_cdb_node_del i false) | None => mret tt end);
  bt_mesh_prov_reset_state hci_result (Some ProvisionerPubKeyReady).

Definition prov_link_close (status : prov_bearer_link_status) : PROV unit :=
  _ ← set_expect PROV_NO_PDU;
  b ← lnk link_bearer; b ← need b;
  zoom ps_bearer (bearer_link_close b status).

Definition prov_fail (reason : Z) : PROV unit := prov_link_close PROV_BEARER_LINK_STATUS_FAIL.

Definition send_invite : PROV unit :=
  attention ← dev pd_attention_duration;
  _ ← set_conf_inputs 0 [attention];
  err ← bt_mesh_prov_send [PROV_INVITE; attention] None;
  match err with Some _ => mret tt | None => set_expect PROV_CAPABILITIES end.

Definition prov_dh_key_gen : PROV unit :=
  remote ← lnk (fun l => swap_halves (drop 81 (conf_inputs l)));
  err ← zoom ps_ecc (bt_dh_key_gen hci_result remote ProvisionerDhKey);
  _ ← (match err with Some _ => prov_fail PROV_ERR_UNEXP_ERR | None => mret tt end);
  notify ← lnk (test_flag NOTIFY_INPUT_COMPLETE);
  when notify (set_expect PROV_INPUT_COMPLETE).

Definition public_key_sent : PROV unit :=
  _ ← set_flag PUB_KEY_SENT;
  oob ← lnk (fun l => test_flag OOB_PUB_KEY l && test_flag REMOTE_PUB_KEY l);
  if oob : bool then prov_dh_key_gen else set_expect PROV_PUB_KEY.

Definition send_pub_key : PROV unit :=
  key ← gets (fun s => bt_pub_key_get (ps_ecc s));
  match key with
  | None => prov_fail PROV_ERR_UNEXP_ERR
  | Some key =>
      let pk := swap_halves key in
      _ ← set_conf_inputs 17 pk;
      _ ← bt_mesh_prov_send (PROV_PUB_KEY :: pk) (Some ProvisionerPublicKeySent);
      mret tt
  end.

Definition start_sent : PROV unit :=
  key ← gets (fun s => bt_pub_key_get (ps_ecc s));
  match key with None => set_flag WAIT_PUB_KEY | Some _ => send_pub_key end.

(** The method and action of the provisioner's own side: it shows what the device asks
    for and asks for what the device shows. *)
Definition local_method (l : prov_link) : Z * Z :=
  if oob_method l =? AUTH_METHOD_INPUT then
    (AUTH_METHOD_OUTPUT, if oob_action l =? INPUT_OOB_STRING then OUTPUT_OOB_STRING else OUTPUT_OOB_NUMBER)
  else if oob_method l =? AUTH_METHOD_OUTPUT then
    (AUTH_METHOD_INPUT, if oob_action l =? OUTPUT_OOB_STRING then INPUT_OOB_STRING else INPUT_OOB_NUMBER)
  else (oob_method l, 0).

Definition send_start : PROV unit :=
  l ← lnk id;
  let oob_key := test_flag REMOTE_PUB_KEY l && (byte_at (conf_inputs l) 4 =? PUB_KEY_OOB) in
  _ ← when oob_key (set_flag OOB_PUB_KEY);
  let start := [PROV_ALG_P256; if oob_key then PUB_KEY_OOB else PUB_KEY_NO_OOB; oob_method l; oob_action l; oob_size l] in
  _ ← set_conf_inputs 12 start;
  let '(method, action) := local_method l in
  err ← bt_mesh_prov_auth bt_rand method action (oob_size l);
  if err <? 0 then mret tt
  else _ ← bt_mesh_prov_send (PROV_START :: start) (Some StartSent); mret tt.

Definition prov_check_method (l : prov_link) (prov : bt_mesh_prov) (caps : bt_mesh_dev_capabilities) : bool :=
  if oob_method l =? AUTH_METHOD_STATIC then negb (caps_static_oob caps =? 0)
  else if oob_method l =? AUTH_METHOD_INPUT then
    if caps_input_size caps <? oob_size l then false
    else if Z.land (Z.shiftl 1 (oob_action l)) (caps_input_actions caps) =? 0 then false
    else if oob_action l =? INPUT_OOB_STRING then bool_decide (is_Some (pv_output_string prov))
    else bool_decide (is_Some (pv_output_number prov))
  else if oob_method l =? AUTH_METHOD_OUTPUT then
    if caps_output_size caps <? oob_size l then false
    else if Z.land (Z.shiftl 1 (oob_action l)) (caps_output_actions caps) =? 0 then false
    else bool_decide (is_Some (pv_input prov))
  else true.

(** The actions are read from one byte each. *)
Definition caps_of (data : bytes) : bt_mesh_dev_capabilities :=
  mkCaps (byte_at data 0) (sys_get_be16 (drop 1 data)) (byte_at data 3) (byte_at data 4) (byte_at data 6)
    (byte_at data 9) (byte_at data 5) (byte_at data 8).

Definition prov_capabilities (data : bytes) : PROV unit :=
  let caps := caps_of data in
  if byte_at data 0 =? 0 then prov_fail PROV_ERR_NVAL_FMT
  else
    d ← dev id;
    c ← cdb id;
    let '(node, c) := bt_mesh_cdb_node_alloc (pd_uuid d) (pd_addr d) (byte_at data 0) (pd_net_idx d) c in
    _ ← set_cdb (fun _ => c);
    _ ← set_dev (fun d => d <| pd_node := node |>);
    match node with
    | None => prov_fail PROV_ERR_RESOURCES
    | Some _ =>
        _ ← set_conf_inputs 1 (take 11 data);
        cb ← pcfg pv_capabilities;
        _ ← when cb (prov_event_log (PvCapabilities caps));
        l ← lnk id;
        prov ← pcfg id;
        if negb (prov_check_method l prov caps) then prov_fail PROV_ERR_UNEXP_ERR else send_start
    end.

Definition send_confirm : PROV unit :=
  l ← lnk id;
  match bt_mesh_prov_conf_salt (conf_inputs l) with
  | inl _ => prov_fail PROV_ERR_UNEXP_ERR
  | inr salt =>
      _ ← set_link (fun l => l <| conf_salt := salt |>);
      match bt_mesh_prov_conf_key (dhkey l) salt with
      | inl _ => prov_fail PROV_ERR_UNEXP_ERR
      | inr key =>
          _ ← set_link (fun l => l <| conf_key := key |>);
          '(err, r) ← random bt_rand 16;
          _ ← set_link (fun l => l <| rand := r |>);
          match err with
          | Some _ => prov_fail PROV_ERR_UNEXP_ERR
          | None =>
              match bt_mesh_prov_conf key r (auth l) with
              | inl _ => prov_fail PROV_ERR_UNEXP_ERR
              | inr cfm =>
                  err ← bt_mesh_prov_send (PROV_CONFIRM :: cfm) None;
                  match err with Some _ => mret tt | None => set_expect PROV_CONFIRM end
              end
          end
      end
  end.

Definition prov_dh_key_cb (key : option bytes) : PROV unit :=
  match key with
  | None => prov_fail PROV_ERR_UNEXP_ERR
  | Some key =>
      _ ← set_link (fun l => l <| dhkey := rev (take 32 key) |>);
      wait ← lnk (fun l => test_flag WAIT_STRING l || test_flag WAIT_NUMBER l || test_flag NOTIFY_INPUT_COMPLETE l);
      if wait : bool then set_flag WAIT_CONFIRM else send_confirm
  end.

Definition prov_pub_key (data : bytes) : PROV unit :=
  _ ← set_flag REMOTE_PUB_KEY;
  _ ← set_conf_inputs 81 (take 64 data);
  b ← lnk link_bearer; b ← need b;
  _ ← zoom ps_bearer (bearer_clear_tx b);
  prov_dh_key_gen.

Definition pub_key_ready (pkey : option bytes) : PROV unit :=
  match pkey with
  | None => mret tt
  | Some _ => wait ← test_and_clear WAIT_PUB_KEY; when wait send_pub_key
  end.

Definition notify_input_complete : PROV unit :=
  notify ← test_and_clear NOTIFY_INPUT_COMPLETE;
  cb ← pcfg pv_input_complete;
  when (notify && cb) (prov_event_log PvInputComplete).

Definition prov_input_complete (data : bytes) : PROV unit :=
  _ ← notify_input_complete;
  wait ← test_and_clear WAIT_CONFIRM;
  when wait send_confirm.

Definition set_dev_key (key : bytes) (n : bt_mesh_cdb_node) : bt_mesh_cdb_node :=
  {| node_uuid := node_uuid n; node_addr := node_addr n; node_net_idx := node_net_idx n;
     node_num_elem := node_num_elem n; node_dev_key := key; node_flags := node_flags n |}.

(** The data before its encryption: key, index, flags, IV index and address. *)
Definition prov_plain (sub : bt_mesh_cdb_subnet) (n : bt_mesh_cdb_node) (c : bt_mesh_cdb) (key : bytes) : bytes :=
  take 16 key ++ sys_put_be16 (node_net_idx n) ++ [bt_mesh_cdb_subnet_flags (Some sub) c]
  ++ sys_put_be32 (cdb_iv_index c) ++ sys_put_be16 (node_addr n).

(** The data is encrypted in place, with room for the MIC behind it. *)
Definition send_prov_data : PROV unit :=
  l ← lnk id;
  match bt_mesh_session_key (dhkey l) (prov_salt l), bt_mesh_prov_nonce (dhkey l) (prov_salt l) with
  | inr session_key, inr nonce =>
      '(i, _) ← device_node;
      match bt_mesh_dev_key (dhkey l) (prov_salt l) with
      | inl _ => prov_fail PROV_ERR_UNEXP_ERR
      | inr dev_key =>
          _ ← set_cdb (with_nodes (alter (set_dev_key dev_key) i));
          '(_, n) ← device_node;
          c ← cdb id;
          match bt_mesh_cdb_subnet_get (node_net_idx n) c ≫= fun j => cdb_subnets c !! j with
          | None => prov_fail PROV_ERR_UNEXP_ERR
          | Some sub =>
              key ← need (Cdb.sub_keys sub !! (if sub_kr_flag sub then 1 else 0)%nat);
              '(err, pdu) ← need (bt_mesh_prov_encrypt session_key nonce 0 0 (prov_plain sub n c key ++ replicate 8 0));
              match err with
              | Some _ => prov_fail PROV_ERR_DECRYPT
              | None =>
                  err ← bt_mesh_prov_send (PROV_DATA :: pdu) None;
                  match err with Some _ => mret tt | None => set_expect PROV_COMPLETE end
              end
          end
      end
  | _, _ => prov_fail PROV_ERR_UNEXP_ERR
  end.

Definition prov_complete (data : bytes) : PROV unit :=
  '(i, _) ← device_node;
  _ ← when config_settings (set_cdb (bt_mesh_cdb_node_store i));
  _ ← set_dev (fun d => d <| pd_node := None |>);
  _ ← prov_link_close PROV_BEARER_LINK_STATUS_SUCCESS;
  added ← pcfg pv_node_added;
  n ← cdb (fun c => cdb_nodes c !! i); n ← need n;
  when added (prov_event_log (PvNodeAdded (node_net_idx n) (node_uuid n) (node_addr n) (node_num_elem n))).

Definition send_random : PROV unit :=
  r ← lnk rand;
  err ← bt_mesh_prov_send (PROV_RANDOM :: r) None;
  match err with Some _ => mret tt | None => set_expect PROV_RANDOM end.

Definition prov_random (data : bytes) : PROV unit :=
  l ← lnk id;
  if bool_decide (take 16 data = rand l) then prov_fail PROV_ERR_CFM_FAILED
  else match bt_mesh_prov_conf (conf_key l) (take 16 data) (auth l) with
       | inl _ => prov_fail PROV_ERR_UNEXP_ERR
       | inr verify =>
           if negb (bool_decide (verify = conf l)) then prov_fail PROV_ERR_CFM_FAILED
           else match bt_mesh_prov_salt (conf_salt l) (rand l) (take 16 data) with
                | inl _ => prov_fail PROV_ERR_UNEXP_ERR
                | inr salt => _ ← set_link (fun l => l <| prov_salt := salt |>); send_prov_data
                end
       end.

Definition prov_confirm (data : bytes) : PROV unit :=
  _ ← set_link (fun l => l <| conf := take 16 data |>);
  send_random.

Definition prov_failed (data : bytes) : PROV unit := _ ← reset_state; mret tt.

Definition local_input_complete : PROV unit :=
  wait ← test_and_clear WAIT_CONFIRM; when wait send_confirm.

Definition link_closed : PROV unit := _ ← reset_state; mret tt.
Definition link_opened : PROV unit := send_invite.

Definition role_provisioner : prov_role (prov_state G B) :=
  mkRole (Some link_opened) (Some link_closed) (Some prov_fail) local_input_complete
    [None; Some prov_capabilities; None; Some prov_pub_key; Some prov_input_complete; Some prov_confirm;
     Some prov_random; None; Some prov_complete; Some prov_failed].

(** ** The authentication method *)

Definition prov_set_method (method action size : Z) : PROV unit :=
  set_link (fun l => l <| oob_method := method |> <| oob_action := action |> <| oob_size := size |>).

Definition bt_mesh_auth_method_set_input (action size : Z) : PROV ret_code :=
  if (action =? 0) || (size =? 0) || (8 <? size) then mret (Some EINVAL)
  else _ ← prov_set_method AUTH_METHOD_INPUT (u8 (find_msb_set action - 1)) size; mret None.

Definition bt_mesh_auth_method_set_output (action size : Z) : PROV ret_code :=
  if (action =? 0) || (size =? 0) || (8 <? size) then mret (Some EINVAL)
  else _ ← prov_set_method AUTH_METHOD_OUTPUT (u8 (find_msb_set action - 1)) size; mret None.

(** [static_val] may be NULL; [size] is its length. *)
Definition bt_mesh_auth_method_set_static (static_val : option bytes) : PROV ret_code :=
  match static_val with
  | None => mret (Some EINVAL)
  | Some val =>
      if (length val =? 0)%nat || (16 <? length val)%nat then mret (Some EINVAL)
      else
        _ ← prov_set_method AUTH_METHOD_STATIC 0 0;
        _ ← set_link (fun l => l <| auth := replicate (16 - length val) 0 ++ val |>);
        mret None
  end.

Definition bt_mesh_auth_method_set_none : PROV ret_code :=
  _ ← prov_set_method AUTH_METHOD_NO_OOB 0 0; mret None.

(** The key is copied as it is. *)
Definition bt_mesh_prov_remote_pub_key_set (public_key : option bytes) : PROV ret_code :=
  match public_key with
  | None => mret (Some EINVAL)
  | Some key =>
      set ← lnk (test_flag REMOTE_PUB_KEY);
      _ ← set_flag REMOTE_PUB_KEY;
      if set : bool then mret (Some EALREADY)
      else _ ← set_conf_inputs 81 (take 64 key); mret None
  end.

(** ** Opening a link *)

Definition bt_mesh_pb_adv_open (uuid : bytes) (net_idx addr attention_duration : Z) : PROV ret_code :=
  active ← lnk (test_flag LINK_ACTIVE);
  _ ← set_flag LINK_ACTIVE;
  if active : bool then mret (Some EBUSY)
  else
    _ ← set_flag PROVISIONER;
    _ ← set_dev (fun d => d <| pd_uuid := take 16 uuid |> <| pd_addr := addr |> <| pd_net_idx := net_idx |>
                            <| pd_attention_duration := attention_duration |>);
    _ ← set_link (fun l => l <| link_bearer := Some BT_MESH_PROV_ADV |> <| link_role := Some RoleProvisioner |>);
    err ← zoom ps_bearer (bearer_link_open BT_MESH_PROV_ADV (take 16 uuid));
    _ ← (match err with Some _ => clear_flag LINK_ACTIVE | None => mret tt end);
    mret err.

(** [main.c] *)
Definition bt_mesh_provision_adv (uuid : bytes) (net_idx addr attention_duration : Z) : PROV ret_code :=
  n ← gets (fun s => tr_net (ps_mesh s));
  if negb (net_valid n) then mret (Some EINVAL)
  else if bool_decide (bt_mesh_subnet_get net_idx (net_subnets n) = None) then mret (Some EINVAL)
  else if config_provisioner && config_pb_adv then bt_mesh_pb_adv_open uuid net_idx addr attention_duration
  else mret (Some ENOTSUP).

End MeshProvisioner.
