(* ===== verification/ProvLink.v ===== *)
(** * Provisioning: the two roles behind one link

    The role structures, the callbacks of the host and the completion callbacks of the
    bearer, tied together; the operations a node sees, as the steps of a machine. *)

From S2P Require Import Prelude ByteOrder MeshDefs Cdb NetBuf Access Rpl Ccm MeshCrypto Subnet AppKeys Net Transport Mesh Heartbeat SecureBeacon Cfg Main Ecc Prov ProvDevice MeshProvisioner.

(** The configuration of the build and what the environment answers. *)
Record prov_conf_env : Type := mkProvEnv {
  pe_proxy : bool;
  pe_friend : bool;
  pe_cdb : bool;
  pe_pb_adv : bool;
  pe_pb_gatt : bool;
  pe_provisioner : bool;
  pe_settings : bool;
  pe_main : main_env;
  pe_hci : list hci_cmd -> ret_code;
  pe_rand : nat -> nat -> ret_code * bytes;
}.

Section ProvLink.
Context {ecb : Ecb} {cmac : Cmac} (e : prov_conf_env).
Context {G B : Type} {friend : FriendOps (mesh G)} {bearer : ProvBearer B}.

Abbreviation PROV := (ST (prov_state G B)).

Definition role_device (now : Z) : prov_role (prov_state G B) :=
  ProvDevice.role_device (pe_proxy e) (pe_friend e) (pe_cdb e) (pe_pb_gatt e) (pe_settings e) (pe_main e) (pe_hci e)
    (pe_rand e) now.

Definition role_provisioner : prov_role (prov_state G B) :=
  MeshProvisioner.role_provisioner (pe_settings e) (pe_hci e) (pe_rand e).

Definition roles (now : Z) (r : role_id) : prov_role (prov_state G B) :=
  match r with RoleDevice => role_device now | RoleProvisioner => role_provisioner end.

(** The security manager has no part in this state. *)
Definition pub_key_call (f : pub_key_func) (key : option bytes) : PROV unit :=
  match f with
  | PubKeyReady | SmpPubKeyReady => mret tt
  | DevicePubKeyReady => ProvDevice.pub_key_ready (pe_hci e) key
  | ProvisionerPubKeyReady => MeshProvisioner.pub_key_ready key
  end.

Definition dh_key_call (f : dh_key_func) (key : option bytes) : PROV unit :=
  match f with
  | DeviceDhKey => ProvDevice.prov_dh_key_cb key
  | ProvisionerDhKey => MeshProvisioner.prov_dh_key_cb (pe_rand e) key
  | SmpDhKey => mret tt
  end.

Definition send_complete_call (cb : send_complete) : PROV unit :=
  match cb with
  | StartSent => MeshProvisioner.start_sent
  | DevicePublicKeySent => ProvDevice.public_key_sent
  | ProvisionerPublicKeySent => MeshProvisioner.public_key_sent (pe_hci e)
  end.

(** What happens to a node: the bearer's callbacks, the host's events, and calls of the
    application.  The controller completes a command only when one is in progress. *)
Inductive prov_op : Type :=
| OpLinkOpened (b : bt_mesh_prov_bearer_t)
| OpLinkClosed (b : bt_mesh_prov_bearer_t)
| OpRecv (now : Z) (pdu : bytes)
| OpBearerError (err : Z)
| OpSent (cb : send_complete)
| OpPubKey (fuel : nat) (status : Z) (key : bytes)
| OpDhKey (status : Z) (key : bytes)
| OpInputNumber (num : Z)
| OpInputString (str : bytes)
| OpReset.

Definition run_prov_op (o : prov_op) : PROV unit :=
  match o with
  | OpLinkOpened b => prov_link_opened (roles 0) b
  | OpLinkClosed b => prov_link_closed (roles 0) b
  | OpRecv now pdu => prov_recv (roles now) pdu
  | OpBearerError err => prov_bearer_error (roles 0) err
  | OpSent cb => send_complete_call cb
  | OpPubKey fuel status key =>
      busy ← gets (fun s => pub_key_busy (ps_ecc s));
      when busy (_ ← le_pkey_complete ps_ecc pub_key_call fuel status key; mret tt)
  | OpDhKey status key => le_dhkey_complete ps_ecc dh_key_call status key
  | OpInputNumber num => _ ← bt_mesh_input_number (roles 0) num; mret tt
  | OpInputString str => _ ← bt_mesh_input_string (roles 0) str; mret tt
  | OpReset => bt_mesh_prov_reset (pe_hci e) (pe_pb_adv e) (pe_pb_gatt e)
  end.

Fixpoint run_prov_ops (os : list prov_op) : PROV unit :=
  match os with [] => mret tt | o :: os => _ ← run_prov_op o; run_prov_ops os end.

End ProvLink.

(** ** Laws of a bearer: its functions are defined in every state it can be in *)

Class BearerOk {B : Type} (bearer : ProvBearer B) (bearer_ok : B -> Prop) : Prop := {
  bearer_send_ok b pdu cb w : bearer_ok w -> wp (bearer_send b pdu cb) (fun _ => bearer_ok) w;
  bearer_clear_tx_ok b w : bearer_ok w -> wp (bearer_clear_tx b) (fun _ => bearer_ok) w;
}.

Class BearerResetOk {B : Type} (bearer : ProvBearer B) (bearer_ok : B -> Prop) : Prop :=
  bearer_reset_ok b w : bearer_ok w -> wp (bearer_reset b) (fun _ => bearer_ok) w.

(** ** A bearer without loss

    Everything sent waits in order for the other side. *)

Inductive wire_item : Type :=
| WPdu (pdu : bytes) (cb : option send_complete)
| WAck (cb : option send_complete)
| WClose (status : prov_bearer_link_status).

Definition wire : Type := list wire_item.

#[export] Instance wire_bearer : ProvBearer wire := {
  bearer_send _ pdu cb := _ ← modify (fun w => w ++ [WPdu pdu cb]); mret None;
  bearer_clear_tx _ := mret tt;
  bearer_link_accept _ := mret None;
  bearer_link_open _ _ := mret None;
  bearer_link_close _ status := modify (fun w => w ++ [WClose status]);
  bearer_reset _ := mret tt;
}.

#[export] Instance wire_bearer_ok : BearerOk wire_bearer (fun _ => True).
Proof. split; intros; cbn; repeat wp_step; done. Qed.

#[export] Instance wire_bearer_reset_ok : BearerResetOk wire_bearer (fun _ => True).
Proof. intros b w _. cbn. by wp_step. Qed.
