(* ===== verification/ProvProps.v ===== *)
(** * Provisioning of a device

    A device that offers no out-of-band actions, which is how the two applications
    configure their nodes: whatever PDUs arrive, in whatever order, the role has no
    undefined behaviour, and it takes a network key only over a link on which the
    confirmation of the other side has been checked. *)

From S2P Require Import Prelude ByteOrder MeshDefs Cdb NetBuf Access Rpl Ccm MeshCrypto Subnet AppKeys Net NetProps Transport TransportOps Mesh Heartbeat SecureBeacon Cfg Main Ecc Prov ProvDevice MeshProvisioner ProvLink.

(** ** The bits of the flags *)

Lemma flag_bit_inj f g : flag_bit f = flag_bit g -> f = g.
Proof. destruct f, g; done. Qed.

Lemma flag_bit_nonneg f : 0 <= flag_bit f.
Proof. destruct f; done. Qed.

#[export] Instance prov_flag_eq_dec : EqDecision prov_flag.
Proof. solve_decision. Defined.

Lemma test_set_flag f g l :
  test_flag f (l <| link_flags := Z.setbit (link_flags l) (flag_bit g) |>) = bool_decide (f = g) || test_flag f l.
Proof.
  unfold test_flag. cbn. destruct (decide (f = g)) as [->|N].
  - rewrite Z.setbit_eq by apply flag_bit_nonneg. by rewrite bool_decide_true.
  - rewrite Z.setbit_neq; [by rewrite bool_decide_false|apply flag_bit_nonneg|by intros E%flag_bit_inj].
Qed.

Lemma test_clear_flag f g l :
  test_flag f (l <| link_flags := Z.clearbit (link_flags l) (flag_bit g) |>) = negb (bool_decide (f = g)) && test_flag f l.
Proof.
  unfold test_flag. cbn. destruct (decide (f = g)) as [->|N].
  - rewrite Z.clearbit_eq. by rewrite bool_decide_true.
  - rewrite Z.clearbit_neq; [by rewrite bool_decide_false|by intros E%flag_bit_inj].
Qed.

(** ** Provisioning itself *)

Section Provision.
Context {ecb : Ecb} {cmac : Cmac} (config_proxy config_friend config_cdb config_pb_gatt config_settings : bool).
Context (env : main_env) {G : Type}.

(** The first used subnet, when there is one. *)
Lemma subnet_next_loop_some l i j sub n :
  l !! j = Some sub -> sub_net_idx sub <> BT_MESH_KEY_UNUSED -> (i <= j)%nat -> (length l - i <= n)%nat ->
  exists k sub', subnet_next_loop n i l = Some k /\ l !! k = Some sub'.
Proof.
  intros Hj Hu. apply lookup_lt_Some in Hj as Hlt. revert i. induction n as [|n IH]; intros i Hi Hn; [lia|].
  cbn [subnet_next_loop]. rewrite (proj2 (Nat.eqb_neq _ _)) by lia.
  destruct (lookup_lt_is_Some_2 l i) as [s Hs]; [lia|]. rewrite Hs.
  destruct (sub_net_idx s =? BT_MESH_KEY_UNUSED) eqn:E; cbn [negb]; [|by exists i, s].
  apply IH; [|lia]. apply Z.eqb_eq in E. destruct (decide (i = j)) as [->|]; [congruence|lia].
Qed.

Lemma subnet_next_some s j sub :
  subs s !! j = Some sub -> sub_net_idx sub <> BT_MESH_KEY_UNUSED ->
  exists k sub', bt_mesh_subnet_next None s = Some k /\ subs s !! k = Some sub'.
Proof. intros Hj Hu. unfold bt_mesh_subnet_next. eapply subnet_next_loop_some; [done..|lia|lia]. Qed.

(** A subnet without its beacon state. *)
Definition sub_static (sub : bt_mesh_subnet) : bt_mesh_subnet := sub <| sub_beacon := beacon_zero |>.

(** [bt_mesh_start] touches the beacon state of the subnets, the timers and the logs. *)
Definition started (t t' : trans (mesh G)) : Prop :=
  tr_dev_key t' = tr_dev_key t /\ tr_cdb t' = tr_cdb t /\ tr_apps t' = tr_apps t /\
  net_valid (tr_net t') = net_valid (tr_net t) /\ iv_index (tr_net t') = iv_index (tr_net t) /\
  ivu_in_progress (tr_net t') = ivu_in_progress (tr_net t) /\
  net_seq (tr_net t') = net_seq (tr_net t) /\ net_comp (tr_net t') = net_comp (tr_net t) /\
  sub_static <$> subs (net_subnets (tr_net t')) = sub_static <$> subs (net_subnets (tr_net t)).

Lemma beacon_enable_static n sub : sub_static (subnet_beacon_enable n sub) = sub_static sub.
Proof. unfold subnet_beacon_enable, bt_mesh_beacon_update. by destruct (bt_mesh_beacon_auth _ _ _ _). Qed.

Lemma foreach_static (f : bt_mesh_subnet -> bt_mesh_subnet) s :
  (forall sub, sub_static (f sub) = sub_static sub) ->
  sub_static <$> subs (snd (bt_mesh_subnet_foreach f s)) = sub_static <$> subs s.
Proof.
  intros H. cbn. rewrite <- list_fmap_compose. apply list_fmap_ext. intros i sub _. cbn.
  by destruct (_ =? _).
Qed.

Lemma static_used (s s' : list bt_mesh_subnet) j sub :
  sub_static <$> s' = sub_static <$> s -> s !! j = Some sub ->
  exists sub', s' !! j = Some sub' /\ sub_static sub' = sub_static sub.
Proof.
  intros E Hj. assert ((sub_static <$> s') !! j = Some (sub_static sub)) as H by (rewrite E, list_lookup_fmap, Hj; done).
  rewrite list_lookup_fmap in H. destruct (s' !! j) as [sub'|]; [|done].
  exists sub'. split; [done|]. exact (f_equal (default sub) H).
Qed.

Lemma wp_beacon_enable now (t : trans (mesh G)) :
  wp (bt_mesh_beacon_enable now) (fun _ t' => started t t' /\ ms_log (tr_friend t') = ms_log (tr_friend t)) t.
Proof.
  unfold bt_mesh_beacon_enable, foreach_subnet, set_beacon_timer. mesh_step. mesh_step.
  destruct (bt_mesh_is_provisioned t); cbn [when].
  - repeat mesh_step. cbn. unfold started. cbn. repeat split; try done. apply foreach_static, beacon_enable_static.
  - repeat mesh_step. done.
Qed.

Lemma started_refl (t : trans (mesh G)) : started t t.
Proof. by repeat split. Qed.

Lemma started_trans (t1 t2 t3 : trans (mesh G)) : started t1 t2 -> started t2 t3 -> started t1 t3.
Proof. unfold started. intros. intuition congruence. Qed.

(** A step on the upper state only. *)
Lemma started_up (t : trans (mesh G)) f : started t (t <| tr_friend := f |>).
Proof. by repeat split. Qed.

Lemma beacon_disable_started (t : trans (mesh G)) :
  wp bt_mesh_beacon_disable (fun _ t' => started t t' /\ ms_log (tr_friend t') = ms_log (tr_friend t)) t.
Proof. unfold bt_mesh_beacon_disable, set_beacon_timer. repeat mesh_step. destruct (ivu_initiator _); cbn [negb]; by repeat mesh_step. Qed.

Lemma start_ok now (t : trans (mesh G)) j sub :
  subs (net_subnets (tr_net t)) !! j = Some sub -> sub_net_idx sub <> BT_MESH_KEY_UNUSED ->
  wp (bt_mesh_start config_proxy config_friend env now) (fun err t' =>
    started t t' /\
    (err = None -> exists k first, subs (net_subnets (tr_net t)) !! k = Some first /\
       In (EvProvComplete (sub_net_idx first) (bt_mesh_primary_addr (net_comp (tr_net t)))) (ms_log (tr_friend t')))) t.
Proof.
  intros Hj Hu. unfold bt_mesh_start. do 2 mesh_step. destruct (adv_enable env) as [err|].
  { mesh_step. split; [apply started_up|done]. }
  do 3 mesh_step. apply (wp_mono _ (fun _ t' => started t t')).
  { destruct (flag_beacon _); eapply wp_mono; [apply wp_beacon_enable| |apply beacon_disable_started|];
      intros ? ? [S _]; (eapply started_trans; [apply started_up|exact S]). }
  intros _ t1 S1. mesh_step. eapply (wp_mono _ (fun _ t' => started t t')).
  { destruct config_proxy; repeat mesh_step; [eapply started_trans; [exact S1|apply started_up]|done]. }
  clear S1 t1. intros _ t1 S1. unfold bt_mesh_scan_enable, mesh_event_log, set_up. repeat mesh_step.
  eapply (wp_mono _ (fun _ t' => started t t')).
  { destruct config_friend; repeat mesh_step; cbn;
      repeat (eapply started_trans; [|apply started_up]); exact S1. }
  clear S1 t1. intros _ t1 S1. repeat mesh_step.
  destruct (static_used _ _ j sub (proj2 (proj2 (proj2 (proj2 (proj2 (proj2 (proj2 (proj2 S1)))))))) Hj) as (sub' & Hj' & Es).
  destruct (subnet_next_some (net_subnets (tr_net t1)) j sub') as (k & first & Ek & Hk); [done| |].
  { replace (sub_net_idx sub') with (sub_net_idx (sub_static sub')) by done. by rewrite Es. }
  rewrite Ek. cbn. rewrite Hk. apply (wp_need _ first); [done|].
  unfold bt_mesh_hb_start, up, set_pub_timer, set_up. repeat mesh_step.
  apply (wp_mono _ (fun _ t' => started t t' /\
    In (EvProvComplete (sub_net_idx first) (bt_mesh_primary_addr (net_comp (tr_net t1)))) (ms_log (tr_friend t')))).
  { match goal with |- wp (when ?b _) _ _ => destruct b end; cbn [when]; repeat mesh_step; cbn;
      (split; [repeat (eapply started_trans; [|apply started_up]); exact S1|apply in_or_app; right; by left]). }
  intros _ t2 [S2 L2]. repeat mesh_step. cbn. split; [eapply started_trans; [exact S2|apply started_up]|].
  intros _. destruct (static_used (subs (net_subnets (tr_net t1))) (subs (net_subnets (tr_net t))) k first) as (f0 & H0 & E0);
    [symmetry; apply S1|done|]. exists k, f0. split; [done|].
  replace (sub_net_idx f0) with (sub_net_idx (sub_static f0)) by done. rewrite E0. cbn.
  apply in_or_app. left. by rewrite <- (proj1 (proj2 (proj2 (proj2 (proj2 (proj2 (proj2 (proj2 S1)))))))).
Qed.

(** The subnet of [bt_mesh_net_create]: the key is the one it sends with. *)
Lemma subnet_set_created idx phase old_key new_key s s' :
  bt_mesh_subnet_set config_proxy idx phase old_key new_key s = (None, s') ->
  exists i sub, subs s' !! i = Some sub /\ sub_net_idx sub = idx /\ idx <> BT_MESH_KEY_UNUSED /\
    sub_kr_phase sub = phase /\
    (forall k, old_key = Some k -> net_keys_create config_proxy k = inr (sub_key0 sub)) /\
    (forall k, new_key = Some k -> net_keys_create config_proxy k = inr (sub_key1 sub)).
Proof.
  unfold bt_mesh_subnet_set. destruct (subnet_alloc idx s) as [i|] eqn:Ha; [|done].
  destruct (subs s !! i) as [sub|] eqn:Hi; [|done].
  destruct (sub_net_idx sub =? idx) eqn:E; zbool; [done|].
  destruct (subnet_alloc_free idx s i sub Ha Hi E) as [Hu _].
  match goal with |- context [match ?c with inl _ => _ | inr k0 => _ end] => destruct c as [|k0] eqn:E0; [done|] end.
  match goal with |- context [match ?c with inl _ => _ | inr k1 => _ end] => destruct c as [|k1] eqn:E1; [done|] end.
  intros [= <-]. exists i, (mkSubnet idx phase (initial_node_id config_proxy) k0 k1 (sub_beacon sub)).
  split; [rewrite subs_event, subs_alter_sub, list_lookup_alter_eq, Hi; done|]. cbn.
  repeat split; [congruence|intros k ->; exact E0|intros k ->; exact E1].
Qed.

(** What a node knows once it is provisioned. *)
Definition provisioned_with (key : bytes) (idx flags iv addr : Z) (dev_key : bytes) (t : trans (mesh G)) : Prop :=
  net_valid (tr_net t) = true /\ iv_index (tr_net t) = iv /\ ivu_in_progress (tr_net t) = BT_MESH_IV_UPDATE flags /\
  net_seq (tr_net t) = 0 /\ bt_mesh_primary_addr (net_comp (tr_net t)) = addr /\ tr_dev_key t = take 16 dev_key /\
  exists i sub, subs (net_subnets (tr_net t)) !! i = Some sub /\ sub_net_idx sub = idx /\
    net_keys_create config_proxy key = inr (tx_keys sub).

Lemma net_create_ok idx flags key iv n n' :
  bt_mesh_net_create config_proxy idx flags key iv n = (None, n') ->
  net_valid n' = net_valid n /\ iv_index n' = iv /\ ivu_in_progress n' = BT_MESH_IV_UPDATE flags /\
  net_comp n' = net_comp n /\
  exists i sub, subs (net_subnets n') !! i = Some sub /\ sub_net_idx sub = idx /\ idx <> BT_MESH_KEY_UNUSED /\
    net_keys_create config_proxy key = inr (tx_keys sub).
Proof.
  unfold bt_mesh_net_create. destruct (BT_MESH_KEY_REFRESH flags); destruct (bt_mesh_subnet_set _ _ _ _ _ _) as [err s] eqn:E;
    destruct err; try done; intros [= <-]; cbn;
    (repeat split; try done);
    apply subnet_set_created in E as (i & sub & Hi & Hx & Hu & Hp & H0 & H1); exists i, sub;
    (repeat split; [done..|]); unfold tx_keys, SUBNET_KEY_TX_IDX; rewrite Hp; [by apply H1|by apply H0].
Qed.

Lemma net_create_fail idx flags key iv n err n' :
  bt_mesh_net_create config_proxy idx flags key iv n = (Some err, n') -> n' = n <| net_subnets := net_subnets n' |>.
Proof.
  unfold bt_mesh_net_create. destruct (BT_MESH_KEY_REFRESH flags); destruct (bt_mesh_subnet_set _ _ _ _ _ _) as [[] s];
    try done; intros [= _ <-]; by destruct n.
Qed.

Lemma provision_cdb_ok uuid idx iv addr dk (t : trans (mesh G)) :
  wp (provision_cdb config_settings uuid idx iv addr dk) (fun _ t' => t' = t <| tr_cdb := tr_cdb t' |>) t.
Proof.
  unfold provision_cdb. mesh_step. mesh_step. mesh_step. mesh_step.
  wp_if; [mesh_step; by destruct t|]. wp_if; [mesh_step; by destruct t|].
  destruct (bt_mesh_cdb_node_alloc _ _ _ _ _) as [[i|] c] eqn:Ea; [|repeat mesh_step; by destruct t].
  assert (exists n, cdb_nodes c !! i = Some n) as [n Hn].
  { revert Ea. unfold bt_mesh_cdb_node_alloc.
    destruct (find_index _ _) as [k|] eqn:Ek;
      [|destruct (_ =? _); [destruct (_ =? _)|destruct (addr_is_free _ _ _)]; done].
    apply find_index_Some in Ek as [(n & Hn & _) _].
    destruct (_ =? _); [destruct (_ =? _)|destruct (addr_is_free _ _ _)]; try done; intros [= <- <-];
      cbn; rewrite list_lookup_alter_eq, Hn; by eexists. }
  repeat mesh_step. eapply wp_need; [cbn; by rewrite list_lookup_alter_eq, Hn|].
  repeat mesh_step. by destruct t.
Qed.

(** The key, the address and the IV index are in place; only the start is left. *)
Lemma provision_start_ok now key idx flags iv addr dk n (t : trans (mesh G)) :
  bt_mesh_net_create config_proxy idx flags key iv (tr_net t) = (None, n) -> net_valid (tr_net t) = true ->
  let t1 := t <| tr_net := n <| net_seq := 0 |> <| net_comp := bt_mesh_comp_provision addr (net_comp n) |> |>
              <| tr_dev_key := take 16 dk |> in
  wp (bt_mesh_start config_proxy config_friend env now)
    (fun _ t' => provisioned_with key idx flags iv addr dk t' /\
       (adv_enable env = None -> exists k first, subs (net_subnets n) !! k = Some first /\
          In (EvProvComplete (sub_net_idx first) addr) (ms_log (tr_friend t')))) t1.
Proof.
  intros (Hv & Hiv & Hp & Hc & i & sub & Hi & Hx & Hu & Hk)%net_create_ok Hval t1.
  assert (adv_enable env = None -> forall err t', bt_mesh_start config_proxy config_friend env now t1 = Some (err, t') ->
          err = None) as Hret.
  { intros Ea err t' E. destruct (start_ok now t1 i sub) as (err0 & t0 & E0 & _); [done|congruence|].
    unfold bt_mesh_start in E. rewrite Ea in E.
    repeat match type of E with
    | (_ ≫= _) _ = _ => apply bind_inv in E as (? & ? & _ & E)
    end. by injection E. }
  destruct (start_ok now t1 i sub) as (err & t' & E & S & L); [done|congruence|].
  exists err, t'. split; [exact E|].
  destruct S as (S1 & _ & _ & S4 & S5 & S6 & S7 & S8 & S9). split.
  - unfold provisioned_with. rewrite S1, S4, S5, S6, S7, S8. cbn. rewrite Hv. repeat split; try done.
    destruct (static_used _ _ i sub S9 Hi) as (sub' & Hi' & Es). exists i, sub'.
    split; [done|]. change (sub_net_idx sub') with (sub_net_idx (sub_static sub')).
    change (tx_keys sub') with (tx_keys (sub_static sub')). by rewrite Es.
  - intros Ea. destruct (L (Hret Ea _ _ E)) as (k & first & Hf & Hin). by exists k, first.
Qed.

(** The outcome of [bt_mesh_provision]. *)
Definition provision_post (key : bytes) (idx flags iv addr : Z) (dk : bytes) (t : trans (mesh G)) (err : ret_code)
    (t' : trans (mesh G)) : Prop :=
  match err with
  | None => net_valid (tr_net t) = false /\ provisioned_with key idx flags iv addr dk t' /\
      (adv_enable env = None -> exists net_idx, In (EvProvComplete net_idx addr) (ms_log (tr_friend t')))
  | Some _ => net_valid (tr_net t') = net_valid (tr_net t) /\ net_comp (tr_net t') = net_comp (tr_net t) /\
      iv_index (tr_net t') = iv_index (tr_net t) /\ tr_dev_key t' = tr_dev_key t
  end.

Lemma provision_ok now uuid key idx flags iv addr dk (t : trans (mesh G)) :
  wp (bt_mesh_provision config_proxy config_friend false config_pb_gatt config_settings env now uuid key idx flags iv addr
        dk) (provision_post key idx flags iv addr dk t) t.
Proof.
  unfold provision_post.
  unfold bt_mesh_provision, set_valid, bt_mesh_is_provisioned. do 4 mesh_step. cbn [tr_net].
  wp_if; [mesh_step; done|].
  mesh_step. apply wp_when; intros _; repeat mesh_step;
    (destruct (bt_mesh_net_create _ _ _ _ _ _) as [[e|] n] eqn:En; repeat mesh_step).
  1,3: apply net_create_fail in En; rewrite En; destruct (_ && _); cbn [when]; repeat mesh_step; done.
  all: eapply wp_mono; [exact (provision_start_ok now key idx flags iv addr dk n _ En eq_refl)|]; intros _ t' [P L]; mesh_step;
    (split; [done|split; [exact P|]]); intros Ea; destruct (L Ea) as (k & first & _ & Hin); eauto.
Qed.

(** C17: [bt_mesh_provision] on a node without a configuration database takes the node
    into the network, or leaves it out.  It has no undefined behaviour.  If it returns
    0 the node was not provisioned before; afterwards it is, with sequence number 0,
    the given address, device key, IV index and IV update state, a subnet of the given
    index that sends with the keys derived from the network key, and, when the
    advertiser starts, the application is told a network index and the address.  If it
    returns an error, the node is provisioned exactly when it was before, with the same
    address, IV index and device key. *)
Theorem provision_effect now uuid key idx flags iv addr dk (t : trans (mesh G)) :
  exists err t',
    bt_mesh_provision config_proxy config_friend false config_pb_gatt config_settings env now uuid key idx flags iv addr
      dk t = Some (err, t') /\ provision_post key idx flags iv addr dk t err t'.
Proof. apply provision_ok. Qed.
End Provision.

(** ** The device *)

Section Device.
Context {ecb : Ecb} {ecb_ok : EcbOk} {cmac : Cmac} {cmac_ok : CmacOk} (e : prov_conf_env).
Context {G B : Type} {friend : FriendOps (mesh G)} {bearer : ProvBearer B} (bok : B -> Prop) {bearer_laws : BearerOk bearer bok}
  {reset_laws : BearerResetOk bearer bok}.

Abbreviation STATE := (prov_state G B).

(** A device without out-of-band actions; a static value fits the authentication value. *)
Definition no_io (p : bt_mesh_prov) : Prop :=
  pv_output_actions p = 0 /\ pv_input_actions p = 0 /\ (length (default [] (pv_static_val p)) <= 16)%nat.

(** The confirmation key belongs to the DH key and to everything exchanged so far. *)
Definition keyed (l : prov_link) : Prop :=
  bt_mesh_prov_conf_salt (conf_inputs l) = inr (conf_salt l) /\
  bt_mesh_prov_conf_key (dhkey l) (conf_salt l) = inr (conf_key l).

(** The other side has shown a random number, not ours, that its confirmation was
    computed from; the provisioning salt is derived from both random numbers. *)
Definition verified (l : prov_link) : Prop :=
  keyed l /\ exists remote, length remote = 16%nat /\ remote <> rand l /\
    bt_mesh_prov_conf (conf_key l) remote (auth l) = inr (conf l) /\
    bt_mesh_prov_salt (conf_salt l) remote (rand l) = inr (prov_salt l).

(** Before the confirmations. *)
Definition early (pdu : Z) : Prop := pdu = PROV_INVITE \/ pdu = PROV_START \/ pdu = PROV_PUB_KEY \/ pdu = PROV_NO_PDU.

Definition link_base (l : prov_link) (ec : ecc) : Prop :=
  link_role l = Some RoleDevice /\ link_bearer l <> None /\
  test_flag WAIT_NUMBER l = false /\ test_flag WAIT_STRING l = false /\ test_flag INPUT_COMPLETE l = false /\
  (dh_key_cb ec = Some DeviceDhKey \/ test_flag WAIT_PUB_KEY l = true /\ pub_key_busy ec = true -> early (expect l)).

Definition link_inv (l : prov_link) (ec : ecc) : Prop :=
  link_base l ec /\ (expect l = PROV_RANDOM -> keyed l) /\ (expect l = PROV_DATA -> verified l).

Definition ecc_inv (ec : ecc) : Prop :=
  dh_key_cb ec <> Some ProvisionerDhKey /\ pkcb_func (mesh_cb ec) <> ProvisionerPubKeyReady /\
  pkcb_func (smp_cb ec) = SmpPubKeyReady /\ (pub_key_busy ec = true -> has_pub_key ec = false).

Definition dev_inv (s : STATE) : Prop :=
  link_inv (ps_link s) (ps_ecc s) /\ ecc_inv (ps_ecc s) /\ bok (ps_bearer s) /\ no_io (ps_prov s).

(** An operation that keeps the invariant and does not touch the rest of the stack. *)
Definition kept (s s' : STATE) : Prop := dev_inv s' /\ ps_mesh s' = ps_mesh s.

Lemma base_inv l ec : link_base l ec -> expect l <> PROV_RANDOM -> expect l <> PROV_DATA -> link_inv l ec.
Proof. intros H N1 N2. split; [exact H|]. split; intros E; by destruct (N1 E) || destruct (N2 E). Qed.

Lemma early_not pdu : early pdu -> pdu <> PROV_RANDOM /\ pdu <> PROV_DATA.
Proof. unfold early. intros [->|[->|[->| ->]]]; done. Qed.

(** Back to an early PDU. *)
Lemma inv_early l ec pdu : link_base l ec -> early pdu -> link_inv (l <| expect := pdu |>) ec.
Proof.
  intros (R & Bn & F1 & F2 & F3 & E) Hp. destruct (early_not pdu Hp). apply base_inv; [|done..]. by repeat split.
Qed.

Lemma send_ok pdu cb (s : STATE) Q :
  link_bearer (ps_link s) <> None -> bok (ps_bearer s) ->
  (forall err w, bok w -> Q err (s <| ps_bearer := w |>)) -> wp (bt_mesh_prov_send pdu cb) Q s.
Proof.
  intros Hb Ho HQ. unfold bt_mesh_prov_send. prov_step. prov_step. prov_step.
  destruct (link_bearer (ps_link s)) as [b|] eqn:E; [|done]. eapply wp_need; [done|].
  prov_step. eapply wp_mono; [by apply bearer_send_ok|]. auto.
Qed.

Lemma fail_early reason (s : STATE) :
  link_base (ps_link s) (ps_ecc s) -> ecc_inv (ps_ecc s) -> bok (ps_bearer s) -> no_io (ps_prov s) ->
  wp (ProvDevice.prov_fail reason) (fun _ s' => kept s s' /\ early (expect (ps_link s'))) s.
Proof.
  intros L E O N. unfold ProvDevice.prov_fail, prov_send_fail_msg. repeat prov_step.
  apply send_ok; [apply L|done|]. intros err w Hw. prov_step. split; [|unfold early; auto]. split; [|done].
  split; [|done]. apply inv_early; [done|]. unfold early. auto.
Qed.

Lemma fail_ok reason (s : STATE) :
  link_base (ps_link s) (ps_ecc s) -> ecc_inv (ps_ecc s) -> bok (ps_bearer s) -> no_io (ps_prov s) ->
  wp (ProvDevice.prov_fail reason) (fun _ => kept s) s.
Proof. intros. eapply wp_mono; [by apply fail_early|]. by intros _ s' [K _]. Qed.

(** Changes of the link that keep [link_base]. *)
Lemma base_fields l l' ec :
  link_flags l' = link_flags l -> link_role l' = link_role l -> link_bearer l' = link_bearer l -> expect l' = expect l ->
  link_base l ec -> link_base l' ec.
Proof. unfold link_base, test_flag. by intros -> -> -> ->. Qed.

Lemma base_set_flag g l ec :
  g <> WAIT_NUMBER -> g <> WAIT_STRING -> g <> INPUT_COMPLETE -> g <> WAIT_PUB_KEY ->
  link_base l ec -> link_base (l <| link_flags := Z.setbit (link_flags l) (flag_bit g) |>) ec.
Proof.
  intros N1 N2 N3 N4 (R & Bn & F1 & F2 & F3 & E). unfold link_base. rewrite !test_set_flag.
  rewrite !bool_decide_false by done. by repeat split.
Qed.

Lemma base_set_wait l ec :
  early (expect l) -> link_base l ec ->
  link_base (l <| link_flags := Z.setbit (link_flags l) (flag_bit WAIT_PUB_KEY) |>) ec.
Proof.
  intros X (R & Bn & F1 & F2 & F3 & _). unfold link_base. rewrite !test_set_flag, !bool_decide_false by done.
  by repeat split.
Qed.

Lemma base_clear_flag g l ec :
  link_base l ec -> link_base (l <| link_flags := Z.clearbit (link_flags l) (flag_bit g) |>) ec.
Proof.
  intros (R & Bn & F1 & F2 & F3 & E). unfold link_base. rewrite !test_clear_flag, F1, F2, F3, !andb_false_r.
  repeat split; try done. intros [H|[H1 H2]]; apply E; [by left|]. right. by apply andb_true_iff in H1 as [_ ->].
Qed.

(** [bt_mesh_prov_auth] of a device without actions touches the authentication value
    and the flag of the static method. *)
Lemma auth_ok rnd method action size (s : STATE) :
  no_io (ps_prov s) ->
  wp (bt_mesh_prov_auth rnd method action size)
    (fun _ s' => exists l, s' = s <| ps_link := l |> /\ (forall ec, link_base (ps_link s) ec -> link_base l ec) /\
       expect l = expect (ps_link s)) s.
Proof.
  intros (No & Ni & _). unfold bt_mesh_prov_auth. prov_step. prov_step. unfold id. rewrite No, Ni.
  assert (exists l, s = s <| ps_link := l |> /\ (forall ec, link_base (ps_link s) ec -> link_base l ec) /\
            expect l = expect (ps_link s)) as H by (exists (ps_link s); by destruct s).
  rewrite !Z.land_0_l.
  repeat wp_if; repeat prov_step; try exact H; try done; (eexists; split; [reflexivity|]; split; [|done]); intros ec;
    [by apply base_fields|by apply base_set_flag].
Qed.

Lemma kept_intro (s s' : STATE) :
  link_inv (ps_link s') (ps_ecc s') -> ecc_inv (ps_ecc s') -> bok (ps_bearer s') -> no_io (ps_prov s') ->
  ps_mesh s' = ps_mesh s -> kept s s'.
Proof. unfold kept, dev_inv. tauto. Qed.

Lemma invite_ok data (s : STATE) :
  dev_inv s -> expect (ps_link s) = PROV_INVITE -> wp (prov_invite data) (fun _ => kept s) s.
Proof.
  intros ([L _] & E & O & N) Hx. unfold prov_invite. prov_step.
  apply (wp_mono _ (fun _ s' => exists lg, s' = s <| ps_log := lg |>)).
  { apply wp_when; intros _; [prov_step; by eexists|exists (ps_log s); by destruct s]. }
  intros _ s1 [lg ->]. repeat prov_step.
  apply send_ok; [apply L|done|]. intros err w Hw.
  destruct err; repeat prov_step; apply kept_intro; try done.
  - apply base_inv; [eapply base_fields; [..|exact L]; done|cbn; rewrite Hx; done..].
  - apply inv_early; [eapply base_fields; [..|exact L]; done|unfold early; auto].
Qed.

Lemma start_pdu_ok data (s : STATE) :
  dev_inv s -> expect (ps_link s) = PROV_START -> wp (prov_start (pe_rand e) data) (fun _ => kept s) s.
Proof.
  intros ([L _] & E & O & N) Hx. unfold prov_start.
  wp_if; [by apply fail_ok|]. wp_if; [by apply fail_ok|].
  repeat prov_step. eapply wp_mono; [by apply auth_ok|]. intros err s2 (l2 & -> & L2 & X2). prov_step.
  assert (link_base l2 (ps_ecc s)) as Lb.
  { apply L2. refine (proj1 (inv_early _ _ _ _ _)); [eapply base_fields; [..|exact L]; done|unfold early; auto]. }
  assert (early (expect l2)) as Xe by (rewrite X2; unfold early; auto).
  apply (wp_mono _ (fun _ s' => kept s s' /\ early (expect (ps_link s')))).
  { apply wp_when; intros _.
    - eapply wp_mono; [by apply (fail_early PROV_ERR_NVAL_FMT)|]. intros _ s' [[K M] X]. by split.
    - split; [|done]. destruct (early_not _ Xe). by apply kept_intro. }
  intros _ s3 [[(L3 & E3 & O3 & N3) M3] X3]. repeat prov_step. wp_if; repeat prov_step; [|done].
  eapply wp_need; [rewrite (proj2 (Nat.leb_le _ _)); [done|apply N3]|].
  repeat prov_step. destruct (early_not _ X3). apply kept_intro; try done.
  apply base_inv; [|done..]. eapply base_fields; [..|exact (proj1 L3)]; done.
Qed.

(** The generation of a DH key changes the pending callback only. *)
Definition dh_only (ec ec' : ecc) : Prop :=
  pub_key_busy ec' = pub_key_busy ec /\ has_pub_key ec' = has_pub_key ec /\ mesh_cb ec' = mesh_cb ec /\
  smp_cb ec' = smp_cb ec /\
  (dh_key_cb ec' = dh_key_cb ec \/ dh_key_cb ec' = Some DeviceDhKey \/ dh_key_cb ec' = None).

Lemma dh_gen_ecc hci remote ec : wp (bt_dh_key_gen hci remote DeviceDhKey) (fun _ ec' => dh_only ec ec') ec.
Proof.
  unfold bt_dh_key_gen, hci_send. wp_step. wp_step. unfold id.
  wp_if; [wp_step; unfold dh_only; auto 10|]. wp_if; [wp_step; unfold dh_only; auto 10|].
  repeat wp_step. destruct (hci _); repeat wp_step; unfold dh_only; cbn; auto 10.
Qed.

Lemma dh_only_ecc ec ec' : dh_only ec ec' -> ecc_inv ec -> ecc_inv ec'.
Proof.
  intros (E1 & E2 & E3 & E4 & D) (I1 & I2 & I3 & I4). unfold ecc_inv. rewrite E1, E2, E3, E4.
  repeat split; try done. by destruct D as [->|[->| ->]].
Qed.

Lemma dh_only_base ec ec' l : dh_only ec ec' -> early (expect l) -> link_base l ec -> link_base l ec'.
Proof. intros _ X (R & Bn & F1 & F2 & F3 & _). by repeat split. Qed.

Lemma dh_key_gen_ok (s : STATE) :
  link_base (ps_link s) (ps_ecc s) -> ecc_inv (ps_ecc s) -> bok (ps_bearer s) -> no_io (ps_prov s) ->
  early (expect (ps_link s)) ->
  wp (ProvDevice.prov_dh_key_gen (pe_hci e)) (fun _ s' => kept s s' /\ early (expect (ps_link s'))) s.
Proof.
  intros L E O N X. unfold ProvDevice.prov_dh_key_gen. repeat prov_step. eapply wp_mono; [apply dh_gen_ecc|].
  intros err ec' D. pose proof (dh_only_base _ _ _ D X L) as L'. pose proof (dh_only_ecc _ _ D E) as E'.
  destruct err; [eapply wp_mono; [by apply fail_early|]; by intros _ s' [[K M] Y]|].
  prov_step. split; [|done]. destruct (early_not _ X). by apply kept_intro.
Qed.

Lemma pub_key_pdu_ok data (s : STATE) :
  dev_inv s -> expect (ps_link s) = PROV_PUB_KEY -> wp (ProvDevice.prov_pub_key (pe_hci e) data) (fun _ => kept s) s.
Proof.
  intros ([L _] & E & O & N) Hx. unfold ProvDevice.prov_pub_key.
  assert (early (expect (ps_link s))) as X by (rewrite Hx; unfold early; auto). repeat prov_step.
  match goal with |- context [bt_pub_key_get ?x] => destruct (bt_pub_key_get x) end.
  - eapply wp_mono; [apply dh_key_gen_ok; [eapply base_fields; [..|exact L]; done|done..]|].
    by intros _ s' [[K M] _].
  - repeat prov_step. destruct (link_bearer (ps_link s)) as [b|] eqn:Eb; [|by destruct L as (_ & [] & _)].
    eapply wp_need; [done|]. repeat prov_step. eapply wp_mono; [by apply bearer_clear_tx_ok|]. intros u w Hw.
    prov_step. apply kept_intro; try done. apply base_inv; [|cbn; rewrite Hx; done..].
    refine (base_set_wait _ _ _ _); [done|]. eapply base_fields; [..|exact L]; done.
Qed.

(** With the callback no longer pending. *)
Definition no_dh (ec : ecc) : ecc := ec <| dh_key_cb := None |>.

Lemma send_pub_key_ok (s : STATE) :
  dev_inv s -> early (expect (ps_link s)) ->
  wp ProvDevice.send_pub_key (fun _ s' => link_inv (ps_link s') (no_dh (ps_ecc s')) /\ ps_ecc s' = ps_ecc s /\
    bok (ps_bearer s') /\ ps_prov s' = ps_prov s /\ ps_mesh s' = ps_mesh s) s.
Proof.
  intros ([L _] & E & O & N) X. unfold ProvDevice.send_pub_key. repeat prov_step.
  assert (forall l, link_base l (ps_ecc s) -> link_base l (no_dh (ps_ecc s))) as Hn.
  { intros l (R & Bn & F1 & F2 & F3 & C). repeat split; try done. intros [H|H]; [done|]. apply C. by right. }
  unfold bt_pub_key_get. destruct (has_pub_key (ps_ecc s)) eqn:Eh.
  - repeat prov_step. apply send_ok; [apply L|done|]. intros err w Hw.
    destruct err; repeat prov_step; cbn; (split; [|done]).
    + destruct (early_not _ X). apply base_inv; [|done..]. apply Hn. eapply base_fields; [..|exact L]; done.
    + destruct L as (R & Bn & F1 & F2 & F3 & _). apply base_inv; [|by destruct (_ || _)..].
      repeat split; try done. intros [H|[_ H]]; [done|]. cbn in H. by rewrite (proj2 (proj2 (proj2 E)) H) in Eh.
  - unfold ProvDevice.prov_fail, prov_send_fail_msg. repeat prov_step. apply send_ok; [apply L|done|]. intros err w Hw.
    prov_step. split; [|done]. apply inv_early; [by apply Hn|unfold early; auto].
Qed.

Lemma dh_event_ok status key (s : STATE) :
  dev_inv s -> wp (le_dhkey_complete ps_ecc (dh_key_call e) status key) (fun _ => kept s) s.
Proof.
  intros H. pose proof H as ([L _] & E & O & N). unfold le_dhkey_complete. repeat prov_step.
  destruct (dh_key_cb (ps_ecc s)) as [f|] eqn:Ed; [|by prov_step].
  assert (f <> ProvisionerDhKey) as Nf by (intros ->; destruct E as [E _]; congruence).
  prov_step. destruct f; [|done|]; cbn [dh_key_call].
  - assert (early (expect (ps_link s))) as X by (apply L; by left).
    apply (wp_mono _ (fun _ s' => link_inv (ps_link s') (no_dh (ps_ecc s')) /\ ps_ecc s' = ps_ecc s /\
      bok (ps_bearer s') /\ ps_prov s' = ps_prov s /\ ps_mesh s' = ps_mesh s)).
    + destruct (status =? 0); cbn [ProvDevice.prov_dh_key_cb].
      * repeat prov_step. eapply wp_mono; [apply send_pub_key_ok; [|exact X]|done].
        split; [|done]. destruct (early_not _ X). apply base_inv; [|done..]. eapply base_fields; [..|exact L]; done.
      * unfold ProvDevice.prov_fail, prov_send_fail_msg. repeat prov_step. apply send_ok; [apply L|done|].
        intros err w Hw. prov_step. split; [|done]. apply inv_early; [|unfold early; auto].
        destruct L as (R & Bn & F1 & F2 & F3 & C). by repeat split.
    + intros _ s' (L' & E' & O' & P' & M'). repeat prov_step. apply kept_intro; cbn; try done.
      * unfold ecc_inv. cbn. rewrite E'. split; [discriminate|apply E].
      * by rewrite P'.
  - repeat prov_step. apply kept_intro; cbn; try done.
    + destruct H as [[(R & Bn & F1 & F2 & F3 & C) K] _]. split; [|done]. repeat split; try done.
      intros [Hd|Hd]; [done|]. apply C. by right.
    + split; [discriminate|apply E].
Qed.

Lemma send_confirm_ok (s : STATE) :
  dev_inv s -> expect (ps_link s) = PROV_CONFIRM -> wp (ProvDevice.send_confirm (pe_rand e)) (fun _ => kept s) s.
Proof.
  intros ([L _] & E & O & N) Hx. unfold ProvDevice.send_confirm. repeat prov_step. unfold id.
  assert (forall (s1 : STATE), ps_ecc s1 = ps_ecc s -> ps_bearer s1 = ps_bearer s -> ps_prov s1 = ps_prov s ->
    ps_mesh s1 = ps_mesh s -> link_base (ps_link s1) (ps_ecc s) ->
    wp (ProvDevice.prov_fail PROV_ERR_UNEXP_ERR) (fun _ => kept s) s1) as F.
  { intros s1 E1 O1 P1 M1 L1. eapply wp_mono; [apply fail_ok; by rewrite ?E1, ?O1, ?P1|]. intros _ s' [K M].
    split; [done|congruence]. }
  destruct (bt_mesh_prov_conf_salt _) as [|salt] eqn:Es; [by apply F|]. repeat prov_step.
  destruct (bt_mesh_prov_conf_key _ _) as [|key] eqn:Ek;
    [apply F; [done..|eapply base_fields; [..|exact L]; done]|].
  repeat prov_step. destruct (pe_rand e _ _) as [err r]. repeat prov_step.
  destruct err; [apply F; [done..|eapply base_fields; [..|exact L]; done]|].
  destruct (bt_mesh_prov_conf _ _ _) as [|cfm]; [apply F; [done..|eapply base_fields; [..|exact L]; done]|].
  prov_step. apply send_ok; [apply L|done|]. intros err w Hw. destruct err; repeat prov_step; apply kept_intro; try done.
  - apply base_inv; [eapply base_fields; [..|exact L]; done|cbn; rewrite Hx; done..].
  - destruct L as (R & Bn & F1 & F2 & F3 & C). split; [|split; [done|done]].
    repeat split; try done. intros H. exfalso. apply C in H. rewrite Hx in H.
    by destruct H as [|[|[|]]].
Qed.

Lemma confirm_ok data (s : STATE) :
  dev_inv s -> expect (ps_link s) = PROV_CONFIRM -> wp (ProvDevice.prov_confirm (pe_rand e) data) (fun _ => kept s) s.
Proof.
  intros ([L _] & E & O & N) Hx. unfold ProvDevice.prov_confirm, ProvDevice.notify_input_complete. repeat prov_step.
  set (s1 := s <| ps_link := _ |> <| ps_link := _ |>).
  assert (link_base (ps_link s1) (ps_ecc s)) as L1
    by (apply (base_clear_flag NOTIFY_INPUT_COMPLETE); eapply base_fields; [..|exact L]; done).
  apply (wp_mono _ (fun _ s' => exists lg, s' = s1 <| ps_log := lg |>)).
  { apply wp_when; intros _; [prov_step; by eexists|exists (ps_log s1); by destruct s1]. }
  intros _ s2 [lg ->]. eapply wp_mono; [apply send_confirm_ok; [|done]|by intros _ s' [K M]].
  split; [|done]. apply base_inv; [exact L1|cbn; rewrite Hx; done..].
Qed.

Lemma random_pdu_ok data (s : STATE) :
  dev_inv s -> expect (ps_link s) = PROV_RANDOM -> length data = 16%nat ->
  wp (ProvDevice.prov_random data) (fun _ => kept s) s.
Proof.
  intros ([L [K _]] & E & O & N) Hx Hd. unfold ProvDevice.prov_random. repeat prov_step. unfold id.
  rewrite take_ge by lia. wp_if; [by apply fail_ok|]. apply bool_decide_eq_false in E0.
  destruct (bt_mesh_prov_conf _ _ _) as [|v] eqn:Ev; [by apply fail_ok|].
  wp_if; [by apply fail_ok|]. apply negb_false_iff, bool_decide_eq_true in E1 as ->.
  destruct (bt_mesh_prov_salt _ _ _) as [|salt] eqn:Es; [by apply fail_ok|].
  specialize (K Hx). unfold ProvDevice.send_random. repeat prov_step. apply send_ok; [apply L|done|].
  intros err w Hw. destruct err; repeat prov_step; apply kept_intro; try done.
  - split; [eapply base_fields; [..|exact L]; done|]. split; [by intros _|]. cbn. by rewrite Hx.
  - destruct L as (R & Bn & F1 & F2 & F3 & C). split; [|split; [done|intros _; split; [done|by exists data]]].
    repeat split; try done. intros H. exfalso. apply C in H. rewrite Hx in H. by destruct H as [|[|[|]]].
Qed.

(** *** The provisioning data *)

(** [data] decrypts with the session key of the link to [pdu]. *)
Definition data_accepted (l : prov_link) (data pdu dev_key : bytes) : Prop :=
  exists session_key nonce mem,
    bt_mesh_session_key (dhkey l) (prov_salt l) = inr session_key /\
    bt_mesh_prov_nonce (dhkey l) (prov_salt l) = inr nonce /\
    bt_mesh_prov_decrypt session_key nonce 0 33 (data ++ replicate 25 0) = Some (None, mem) /\
    pdu = drop 33 mem /\ bt_mesh_dev_key (dhkey l) (prov_salt l) = inr dev_key.

(** What the fields of [pdu] make of the node. *)
Definition provisioned_by (pdu dev_key : bytes) (t : trans (mesh G)) : Prop :=
  provisioned_with (pe_proxy e) (take 16 pdu) (sys_get_be16 (drop 16 pdu)) (byte_at pdu 18) (sys_get_be32 (drop 19 pdu))
    (sys_get_be16 (drop 23 pdu)) dev_key t.

Context (no_cdb : pe_cdb e = false).

Lemma data_apply_ok now pdu dk (s : STATE) :
  dev_inv s ->
  wp (ProvDevice.prov_data_apply (pe_proxy e) (pe_friend e) (pe_cdb e) (pe_pb_gatt e) (pe_settings e) (pe_main e) now pdu dk)
    (fun _ s' => dev_inv s' /\ (net_valid (tr_net (ps_mesh s')) = net_valid (tr_net (ps_mesh s)) \/
       provisioned_by pdu dk (ps_mesh s'))) s.
Proof.
  intros (L & E & O & N). unfold ProvDevice.prov_data_apply. prov_step. apply send_ok; [apply L|done|]. intros err w Hw.
  destruct err; [prov_step; split; [|by left]; done|]. repeat prov_step. rewrite no_cdb.
  eapply wp_mono; [apply provision_ok|]. intros err t' P.
  assert (forall t, dev_inv ((s <| ps_bearer := w |>) <| ps_link := (ps_link s) <| expect := PROV_NO_PDU |> |> <| ps_mesh := t |>))
    as K by (intros t; split; [|done]; apply inv_early; [apply L|unfold early; auto]).
  destruct err as [err|].
  - prov_step. split; [apply K|]. left. apply P.
  - destruct P as (Hv & Pw & _). apply wp_when; intros _.
    + prov_step. mesh_step. split; [apply K|]. right. exact Pw.
    + split; [apply K|]. right. exact Pw.
Qed.

Lemma k1_length ikm salt info k : bt_mesh_k1 ikm salt info = inr k -> length k = 16%nat.
Proof.
  unfold bt_mesh_k1. intros (okm & _ & H)%result_bind_inv. by apply cmac_result in H as [? _].
Qed.

Lemma prov_nonce_length dh salt nonce : bt_mesh_prov_nonce dh salt = inr nonce -> length nonce = 13%nat.
Proof.
  unfold bt_mesh_prov_nonce. intros (k & Hk & [= <-])%result_bind_inv. rewrite length_take, length_drop.
  by rewrite (k1_length _ _ _ _ Hk).
Qed.

(** The node is left as it was, or takes its keys from data that decrypts. *)
Lemma data_pdu_ok now data (s : STATE) :
  dev_inv s -> length data = 33%nat ->
  wp (ProvDevice.prov_data (pe_proxy e) (pe_friend e) (pe_cdb e) (pe_pb_gatt e) (pe_settings e) (pe_main e) now data)
    (fun _ s' => dev_inv s' /\ (net_valid (tr_net (ps_mesh s')) = net_valid (tr_net (ps_mesh s)) \/
       exists pdu dk, data_accepted (ps_link s) data pdu dk /\ provisioned_by pdu dk (ps_mesh s'))) s.
Proof.
  intros H Hd. pose proof H as ([L _] & E & O & N). unfold ProvDevice.prov_data. repeat prov_step. unfold id.
  assert (forall r, wp (ProvDevice.prov_fail r) (fun _ s' => dev_inv s' /\
    (net_valid (tr_net (ps_mesh s')) = net_valid (tr_net (ps_mesh s)) \/
       exists pdu dk, data_accepted (ps_link s) data pdu dk /\ provisioned_by pdu dk (ps_mesh s'))) s) as F.
  { intros r. eapply wp_mono; [by apply fail_ok|]. intros _ s' [K M]. split; [done|]. left. by rewrite M. }
  destruct (bt_mesh_session_key _ _) as [|sk] eqn:Ek; [apply F|].
  destruct (bt_mesh_prov_nonce _ _) as [|nonce] eqn:En; [apply F|].
  prov_step. rewrite take_ge by lia. unfold bt_mesh_prov_decrypt.
  pose proof (prov_nonce_length _ _ _ En) as Hn.
  pose proof (bt_ccm_decrypt_ok sk nonce 0 25 [] 33 8 (data ++ replicate 25 0) Hn ltac:(lia) ltac:(cbn; lia) ltac:(lia)
                ltac:(lia) ltac:(rewrite length_app, length_replicate; lia) ltac:(rewrite length_app, length_replicate; lia)) as Ed.
  cbv zeta in Ed. eapply wp_need; [exact Ed|]. cbv beta iota. case_decide; [|apply F].
  destruct (bt_mesh_dev_key _ _) as [|dk] eqn:Edk; [apply F|].
  eapply wp_mono; [by apply data_apply_ok|]. intros _ s' [K P]. split; [done|]. destruct P as [P|P]; [by left|right].
  do 2 eexists. split; [|exact P]. do 3 eexists. split; [exact Ek|]. split; [exact En|]. split; [|done].
  unfold bt_mesh_prov_decrypt. exact Ed.
Qed.

(** *** Events and operations *)

(** While the callbacks of a key generation run. *)
Definition wait_inv (t : trans (mesh G)) (s : STATE) : Prop :=
  dev_inv s /\ ps_mesh s = t /\ (test_flag WAIT_PUB_KEY (ps_link s) = true -> early (expect (ps_link s))).

Lemma pub_key_call_ok t f key (s : STATE) :
  wait_inv t s -> f <> ProvisionerPubKeyReady -> wp (pub_key_call e f key) (fun _ => wait_inv t) s.
Proof.
  intros H Hf. destruct f; try done; cbn [pub_key_call]; [by prov_step| |by prov_step].
  destruct key as [key|]; cbn [ProvDevice.pub_key_ready]; [|by prov_step].
  destruct H as (([L K] & E & O & N) & M & W). repeat prov_step. apply wp_when; intros Ew.
  - eapply wp_mono; [apply dh_key_gen_ok; [by apply base_clear_flag|done|done|done|by apply W]|].
    intros _ s' [[K' M'] X']. split; [done|]. split; [by rewrite M'|done].
  - split; [|split; [done|]].
    + split; [|done]. split; [by apply base_clear_flag|exact K].
    + intros T. exfalso. revert T.
      change (test_flag WAIT_PUB_KEY ((ps_link s) <| link_flags := Z.clearbit (link_flags (ps_link s)) (flag_bit WAIT_PUB_KEY) |>)
                = true -> False). by rewrite test_clear_flag, bool_decide_true.
Qed.

Lemma pkey_loop_ok t fuel cb key (s : STATE) :
  wait_inv t s -> wp (pkey_loop ps_ecc (pub_key_call e) fuel cb key) (fun _ => wait_inv t) s.
Proof.
  revert cb s. induction fuel as [|fuel IH]; intros [c|] s H; cbn [pkey_loop]; try by prov_step.
  repeat prov_step. eapply wp_mono; [apply pub_key_call_ok; [exact H|]|].
  { destruct H as ((_ & (_ & E1 & E2 & _) & _) & _). destruct c; cbn; [done|by rewrite E2]. }
  intros ? s' H'. repeat prov_step. by apply IH.
Qed.

(** A field of the host's state other than the flags and the callbacks' functions. *)
Lemma pub_key_event_ok fuel status key (s : STATE) :
  dev_inv s -> pub_key_busy (ps_ecc s) = true ->
  wp (le_pkey_complete ps_ecc (pub_key_call e) fuel status key) (fun _ => kept s) s.
Proof.
  intros ([(R & Bn & F1 & F2 & F3 & C) K] & (E1 & E2 & E3 & E4) & O & N) Hb. unfold le_pkey_complete. repeat prov_step.
  assert (test_flag WAIT_PUB_KEY (ps_link s) = true -> early (expect (ps_link s))) as W by (intros; apply C; by right).
  apply (wp_mono _ (fun _ => wait_inv (ps_mesh s))).
  { assert (forall ec, dh_key_cb ec = dh_key_cb (ps_ecc s) -> pub_key_busy ec = false -> link_inv (ps_link s) ec) as L.
    { intros ec Ed Ef. split; [|exact K]. repeat split; try done. rewrite Ed, Ef. intros [H|[_ H]]; [|done]. apply C. by left. }
    apply wp_when; intros _; repeat prov_step; (split; [|by split]); (split; [by apply L|split; [|done]]); by repeat split. }
  intros _ s1 H1. repeat prov_step. eapply wp_mono; [by apply pkey_loop_ok|]. intros fin s2 ((L2 & I2 & O2 & N2) & M2 & _).
  prov_step. apply wp_mono with (Q := fun _ s' => kept s s'); [|intros _ s' K'; by prov_step].
  destruct fin; cbn [when]; repeat prov_step; by apply kept_intro.
Qed.

Lemma pub_key_gen_ok hci ec :
  ecc_inv ec -> wp (bt_pub_key_gen hci MeshCb) (fun _ => ecc_inv) ec.
Proof.
  intros (E1 & E2 & E3 & E4). unfold bt_pub_key_gen, hci_send. repeat wp_step. wp_if; [wp_step; done|].
  repeat wp_step. cbn. wp_if; [wp_step; done|]. repeat wp_step. destruct (hci _); repeat wp_step; done.
Qed.

Lemma reset_state_ok f (s : STATE) :
  dev_inv s -> f <> Some ProvisionerPubKeyReady -> wp (bt_mesh_prov_reset_state (pe_hci e) f) (fun _ => kept s) s.
Proof.
  intros ([L _] & (E1 & E2 & E3 & E4) & O & N) Hf. unfold bt_mesh_prov_reset_state. repeat prov_step.
  apply (wp_mono _ (fun _ s' => exists lg ec, s' = s <| ps_ecc := ec |> <| ps_log := lg |> /\ ecc_inv ec)).
  { apply wp_when; intros _; repeat prov_step; do 2 eexists; (split; [reflexivity|]); split; [done| |done|]; cbn;
      (split; [by destruct f as [[]|]|done]). }
  intros _ s1 (lg & ec & -> & I1). repeat prov_step. eapply wp_mono; [by apply pub_key_gen_ok|]. intros ? ec' I2.
  apply kept_intro; try done. destruct L as (R & Bn & _). apply base_inv; [|done..]. unfold link_base, test_flag. cbn.
  by repeat split; auto; unfold early; auto.
Qed.

(** The operations of a device: the completion callback it has asked for, and PDUs of at
    least one byte. *)
Definition dev_op (o : prov_op) : Prop :=
  match o with
  | OpSent cb => cb = DevicePublicKeySent
  | OpRecv _ pdu => wf_bytes pdu /\ pdu <> []
  | _ => True
  end.

(** What an operation may do to the node. *)
Definition op_outcome (o : prov_op) (s s' : STATE) : Prop :=
  net_valid (tr_net (ps_mesh s')) = net_valid (tr_net (ps_mesh s)) \/
  exists now data pdu dk, o = OpRecv now (PROV_DATA :: data) /\ length data = 33%nat /\ verified (ps_link s) /\
    data_accepted (ps_link s) data pdu dk /\ provisioned_by pdu dk (ps_mesh s').

Lemma kept_outcome o s s' : kept s s' -> dev_inv s' /\ op_outcome o s s'.
Proof. intros [K M]. split; [done|]. left. by rewrite M. Qed.

Lemma get_role_ok now (s : STATE) Q :
  link_role (ps_link s) = Some RoleDevice -> Q (role_device e now) s -> wp (get_role (roles e now)) Q s.
Proof. intros R H. unfold get_role. repeat prov_step. eapply wp_need; [exact R|]. by prov_step. Qed.

Lemma error_ok now err (s : STATE) : dev_inv s -> wp (call_error (roles e now) err) (fun _ => kept s) s.
Proof.
  intros H. unfold call_error. prov_step. apply get_role_ok; [apply H|]. prov_step. eapply wp_need; [done|].
  destruct H as ([L _] & E & O & N). by apply fail_ok.
Qed.

Lemma recv_ok now pdu (s : STATE) :
  dev_inv s -> wf_bytes pdu -> pdu <> [] ->
  wp (prov_recv (roles e now) pdu) (fun _ s' => dev_inv s' /\ op_outcome (OpRecv now pdu) s s') s.
Proof.
  intros H Hw Hp. destruct pdu as [|type data]; [done|]. inversion Hw as [|? ? Hty _]; subst. unfold prov_recv. prov_step. eapply wp_need; [done|].
  prov_step. apply get_role_ok; [apply H|]. repeat prov_step.
  assert (forall err, wp (call_error (roles e now) err) (fun _ s' => dev_inv s' /\ op_outcome (OpRecv now (type :: data)) s s') s)
    as F by (intros err; eapply wp_mono; [by apply error_ok|]; intros ? s' K; by apply kept_outcome).
  destruct (role_op (role_device e now) !! Z.to_nat type) as [op|] eqn:Eop; [|apply F].
  destruct (op_len !! Z.to_nat type) as [len|] eqn:El; [|apply F].
  destruct op as [f|]; [|apply F].
  wp_if; [apply F|]. wp_if; [apply F|].
  apply andb_false_iff in E. apply negb_false_iff, Nat.eqb_eq in E0. cbn [drop length] in *.
  assert (length data = len) as Hl by lia.
  assert (forall (m : ST STATE unit), wp m (fun _ => kept s) s -> wp m (fun _ s' => dev_inv s' /\ op_outcome (OpRecv now (type :: data)) s s') s) as Kp
    by (intros m Hm; eapply wp_mono; [exact Hm|]; intros ? s' K; by apply kept_outcome).
  assert (type <> PROV_FAILED) as Nf by (intros ->; done).
  destruct E as [E|E]; apply negb_false_iff, Z.eqb_eq in E; [done|].
  assert (type = Z.of_nat (Z.to_nat type)) as Ht by (unfold is_u8 in Hty; lia). rewrite Ht in E. clear Nf Hty Hw E0 F.
  destruct (Z.to_nat type) as [|[|[|[|[|[|[|[|[|[|k]]]]]]]]]]; try done; injection Eop as <-; injection El as <-.
  - by apply Kp, invite_ok.
  - by apply Kp, start_pdu_ok.
  - by apply Kp, pub_key_pdu_ok.
  - by apply Kp, confirm_ok.
  - by apply Kp, random_pdu_ok.
  - eapply wp_mono; [by apply data_pdu_ok|]. intros _ s' [K [P|(pdu & dk & A & P)]]; (split; [done|]); [by left|right].
    exists now, data, pdu, dk. split; [by rewrite Ht|]. split; [done|]. split; [|done]. by apply H.
Qed.

Lemma link_closed_ok b (s : STATE) : dev_inv s -> wp (prov_link_closed (roles e 0) b) (fun _ => kept s) s.
Proof.
  intros H. unfold prov_link_closed. prov_step. apply get_role_ok; [apply H|]. prov_step.
  unfold role_device, ProvDevice.role_device, role_link_closed, ProvDevice.link_closed, ProvDevice.reset_state. prov_step.
  eapply wp_mono; [by apply reset_state_ok|]. intros ? s1 [(L1 & E1 & O1 & N1) M1]. repeat prov_step.
  apply wp_when; intros _; repeat prov_step; by apply kept_intro.
Qed.

(** Opening a link gives the role a bearer and waits for the invitation. *)
Definition dev_ready (s : STATE) : Prop :=
  link_role (ps_link s) = Some RoleDevice /\
  (test_flag WAIT_NUMBER (ps_link s) = false /\ test_flag WAIT_STRING (ps_link s) = false /\
   test_flag INPUT_COMPLETE (ps_link s) = false) /\
  ecc_inv (ps_ecc s) /\ bok (ps_bearer s) /\ no_io (ps_prov s).

Lemma dev_inv_ready s : dev_inv s -> dev_ready s.
Proof.
  intros (((R & _ & F1 & F2 & F3 & _) & _) & E & O & N). exact (conj R (conj (conj F1 (conj F2 F3)) (conj E (conj O N)))).
Qed.

Lemma link_opened_ok b (s : STATE) : dev_ready s -> wp (prov_link_opened (roles e 0) b) (fun _ => kept s) s.
Proof.
  intros (R & (F1 & F2 & F3) & E & O & N). unfold prov_link_opened. repeat prov_step.
  apply (wp_mono _ (fun _ s' => exists lg, s' = s <| ps_link := (ps_link s) <| link_flags :=
    Z.setbit (link_flags (ps_link s)) (flag_bit LINK_ACTIVE) |> |> <| ps_log := lg |>)).
  { apply wp_when; intros _; [prov_step; by eexists|exists (ps_log s); by destruct s]. }
  intros _ s1 [lg ->]. repeat prov_step. apply get_role_ok; [done|].
  unfold role_device, ProvDevice.role_device, role_link_opened, ProvDevice.link_opened. prov_step.
  apply kept_intro; try done. apply base_inv; [|done..].
  pose proof (test_set_flag WAIT_NUMBER LINK_ACTIVE (ps_link s)) as T1. pose proof (test_set_flag WAIT_STRING LINK_ACTIVE (ps_link s)) as T2.
  pose proof (test_set_flag INPUT_COMPLETE LINK_ACTIVE (ps_link s)) as T3. rewrite F1 in T1. rewrite F2 in T2. rewrite F3 in T3.
  split; [done|]. split; [done|]. split; [exact T1|]. split; [exact T2|]. split; [exact T3|]. intros _. by left.
Qed.

Lemma input_refused f (s : STATE) (k : bool -> ST STATE ret_code) :
  dev_inv s -> test_flag f (ps_link s) = false -> (forall s', wp (k false) (fun _ s'' => s'' = s') s') ->
  wp (v ← test_and_clear f; k v) (fun _ => kept s) s.
Proof.
  intros ([L K] & E & O & N) Hf Hk. repeat prov_step. rewrite Hf. eapply wp_mono; [apply Hk|]. intros ? s' ->.
  apply kept_intro; try done. split; [by apply base_clear_flag|exact K].
Qed.

Lemma prov_reset_ok (s : STATE) : dev_inv s -> wp (bt_mesh_prov_reset (pe_hci e) (pe_pb_adv e) (pe_pb_gatt e)) (fun _ => kept s) s.
Proof.
  intros (L & E & O & N). unfold bt_mesh_prov_reset. prov_step.
  assert (forall b c (s1 : STATE), bok (ps_bearer s1) -> wp (when c (zoom ps_bearer (bearer_reset b)))
    (fun _ s' => exists w', bok w' /\ s' = s1 <| ps_bearer := w' |>) s1) as R.
  { intros b c s1 Hw. apply wp_when; intros _; [|exists (ps_bearer s1); by destruct s1].
    prov_step. eapply wp_mono; [by apply bearer_reset_ok|]. intros ? w' Hw'. by exists w'. }
  eapply wp_mono; [by apply R|]. intros ? s1 (w1 & H1 & ->). prov_step. eapply wp_mono; [by apply R|].
  intros ? s2 (w2 & H2 & ->). prov_step. eapply wp_mono; [by apply reset_state_ok|]. intros ? s3 [(L3 & E3 & O3 & N3) M3].
  repeat prov_step. apply wp_when; intros _; repeat prov_step; by apply kept_intro.
Qed.

Lemma op_ok o (s : STATE) :
  dev_inv s -> dev_op o -> wp (run_prov_op e o) (fun _ s' => dev_inv s' /\ op_outcome o s s') s.
Proof.
  intros H Ho.
  assert (forall (m : ST STATE unit), wp m (fun _ => kept s) s -> wp m (fun _ s' => dev_inv s' /\ op_outcome o s s') s) as Kp
    by (intros m Hm; eapply wp_mono; [exact Hm|]; intros ? s' K; by apply kept_outcome).
  destruct o as [b|b|now pdu|err|cb|fuel status key|status key|num|str|]; cbn [run_prov_op].
  - by apply Kp, link_opened_ok, dev_inv_ready.
  - by apply Kp, link_closed_ok.
  - destruct Ho. by apply recv_ok.
  - apply Kp. unfold prov_bearer_error. prov_step. apply get_role_ok; [apply H|]. destruct H as ([L _] & E & O & N). by apply fail_ok.
  - apply Kp. rewrite Ho. cbn [send_complete_call]. unfold ProvDevice.public_key_sent. repeat prov_step.
    destruct H as ([L K] & E & O & N).
    assert (link_base ((ps_link s) <| link_flags := Z.setbit (link_flags (ps_link s)) (flag_bit PUB_KEY_SENT) |>) (ps_ecc s))
      as L' by (by apply base_set_flag).
    apply wp_when; intros T; [by pose proof (eq_trans (eq_sym (proj1 (proj2 (proj2 (proj2 (proj2 L')))))) T)|].
    by apply kept_intro.
  - apply Kp. prov_step. prov_step. apply wp_when; intros Eb; [|by split]. prov_step.
    eapply wp_mono; [by apply pub_key_event_ok|]. intros ? s' K. by prov_step.
  - by apply Kp, dh_event_ok.
  - apply Kp. unfold bt_mesh_input_number. prov_step. eapply wp_mono; [apply input_refused; [done|apply H|]|intros ? s' K; by prov_step].
    intros s'. cbn. by prov_step.
  - apply Kp. unfold bt_mesh_input_string. prov_step. eapply wp_mono; [apply input_refused; [done|apply H|]|intros ? s' K; by prov_step].
    intros s'. cbn. by prov_step.
  - by apply Kp, prov_reset_ok.
Qed.

Lemma ops_ok os (s : STATE) : dev_inv s -> Forall dev_op os -> wp (run_prov_ops e os) (fun _ => dev_inv) s.
Proof.
  intros H Ho. revert s H. induction Ho as [|o os Hd Ho IH]; intros s H; cbn [run_prov_ops]; [by prov_step|].
  prov_step. eapply wp_mono; [by apply op_ok|]. intros ? s' [H' _]. by apply IH.
Qed.

(** C4: A device takes a network key only from a provisioner that has proved itself.
    A link is opened to a device without out-of-band actions, and any PDUs, bearer
    errors, host events, link closings and resets follow, in any order.  None of it is
    undefined behaviour.  If one more operation makes the node provisioned, it is the
    reception of a provisioning data PDU of 33 bytes; the confirmation the device had
    received was then computed, with the confirmation key of this DH key and of
    everything exchanged on the link, from a random number that is not the device's
    own; the data decrypts under the session key of the link; and the network key,
    index, flags, IV index and address of the node are those of the decrypted data,
    its device key the one derived from the link. *)
Theorem device_authenticates b os o (s : STATE) :
  dev_ready s -> Forall dev_op os -> dev_op o ->
  exists s1 s2,
    run_prov_ops e (OpLinkOpened b :: os) s = Some (tt, s1) /\ run_prov_op e o s1 = Some (tt, s2) /\
    (net_valid (tr_net (ps_mesh s1)) = false -> net_valid (tr_net (ps_mesh s2)) = true ->
     exists now data pdu dk,
       o = OpRecv now (PROV_DATA :: data) /\ length data = 33%nat /\ verified (ps_link s1) /\
       data_accepted (ps_link s1) data pdu dk /\ provisioned_by pdu dk (ps_mesh s2)).
Proof.
  intros Hr Hos Ho.
  assert (wp (run_prov_ops e (OpLinkOpened b :: os)) (fun _ => dev_inv) s) as ([] & s1 & E1 & I1).
  { cbn [run_prov_ops]. prov_step. eapply wp_mono; [by apply link_opened_ok|]. intros ? s' [K _]. by apply ops_ok. }
  destruct (op_ok o s1 I1 Ho) as ([] & s2 & E2 & _ & P). exists s1, s2. split; [done|]. split; [done|].
  intros V1 V2. destruct P as [P|P]; [congruence|exact P].
Qed.
(** ** Key generation *)

(** The structure of the provisioning is its own successor in the list of callbacks. *)
Definition own_next (s : STATE) : Prop :=
  mesh_cb (ps_ecc s) = mkPubKeyCb DevicePubKeyReady (Some MeshCb) /\ pub_key_cb (ps_ecc s) = Some MeshCb /\
  test_flag WAIT_PUB_KEY (ps_link s) = false.

Lemma close_while_busy b s :
  dev_inv s -> ecc_supported (ps_ecc s) = true -> pub_key_busy (ps_ecc s) = true -> pub_key_cb (ps_ecc s) = Some MeshCb ->
  wp (prov_link_closed (roles e 0) b) (fun _ => own_next) s.
Proof.
  intros H Hs Hb Hc. unfold prov_link_closed. prov_step. apply get_role_ok; [apply H|]. prov_step.
  unfold role_device, ProvDevice.role_device, role_link_closed, ProvDevice.link_closed, ProvDevice.reset_state, bt_mesh_prov_reset_state.
  repeat prov_step.
  apply (wp_mono _ (fun _ s' => exists lg, s' = s <| ps_ecc := set_cb (fun c => c <| pkcb_func := DevicePubKeyReady |>) MeshCb (ps_ecc s) |> <| ps_log := lg |>)).
  { apply wp_when; intros _; repeat prov_step; [by eexists|]. exists (ps_log s). by destruct s. }
  intros _ s1 (lg & ->). repeat prov_step. unfold bt_pub_key_gen. repeat wp_step. cbn. rewrite Hs. cbn [negb].
  repeat wp_step. cbn. rewrite Hb. repeat wp_step. repeat prov_step. apply wp_when; intros _; repeat prov_step.
  all: split; [cbn; by rewrite Hc|done].
Qed.

Lemma loop_never_ends fuel key s :
  own_next s -> wp (pkey_loop ps_ecc (pub_key_call e) fuel (Some MeshCb) key) (fun fin _ => fin = false) s.
Proof.
  revert s. induction fuel as [|fuel IH]; intros s (Hm & Hc & Hw); cbn [pkey_loop]; [by wp_step|].
  repeat prov_step. cbn [get_cb]. rewrite Hm. cbn [pkcb_func pub_key_call].
  apply (wp_mono _ (fun _ => own_next)).
  - unfold ProvDevice.pub_key_ready. destruct key; [|by prov_step]. unfold test_and_clear, clear_flag. repeat prov_step.
    rewrite Hw. cbn [when]. prov_step. split; [done|]. split; [done|].
    change (test_flag WAIT_PUB_KEY ((ps_link s) <| link_flags := Z.clearbit (link_flags (ps_link s)) (flag_bit WAIT_PUB_KEY) |>) = false).
    by rewrite test_clear_flag, bool_decide_true.
  - intros [] s1 H1. repeat prov_step. cbn [get_cb]. rewrite (proj1 H1). by apply IH.
Qed.

(** C40: A device that loses a link while its key pair is being generated hangs in the
    host's event handler.  The closed link registers the callback structure of the
    provisioning a second time and makes it its own successor; when the controller
    reports the key, or the failure to make one, the loop over the callbacks has no end:
    it has not come to the end of the list after any number of calls. *)
Theorem key_event_never_ends b s :
  dev_inv s -> ecc_supported (ps_ecc s) = true -> pub_key_busy (ps_ecc s) = true -> pub_key_cb (ps_ecc s) = Some MeshCb ->
  exists s1, run_prov_op e (OpLinkClosed b) s = Some (tt, s1) /\
    forall fuel status key, exists s2, le_pkey_complete ps_ecc (pub_key_call e) fuel status key s1 = Some (false, s2).
Proof.
  intros H Hs Hb Hc. destruct (close_while_busy b s H Hs Hb Hc) as ([] & s1 & E1 & O1). exists s1. split; [exact E1|].
  intros fuel status key.
  enough (wp (le_pkey_complete ps_ecc (pub_key_call e) fuel status key) (fun fin _ => fin = false) s1) as (fin & s2 & E & ->) by eauto.
  unfold le_pkey_complete. repeat prov_step. apply (wp_mono _ (fun _ => own_next)).
  { apply wp_when; intros _; repeat prov_step; exact O1. }
  intros [] s2 O2. repeat prov_step. rewrite (proj1 (proj2 O2)). eapply wp_mono; [by apply loop_never_ends|].
  intros fin s3 ->. cbn [when]. by repeat prov_step.
Qed.
End Device.

(** ** Example nodes *)

(** Hosts and random numbers that work; [salt] tells the random numbers of two nodes apart. *)
Definition prov_env_example (device : bool) (salt : nat) : prov_conf_env :=
  mkProvEnv device device (negb device) true device (negb device) true (mkEnv None None None None) (fun _ => None)
    (fun k n => (None, map (fun i => u8 (Z.of_nat (salt + 7 * k + i))) (seq 0 n))).

Definition prov_example : bt_mesh_prov :=
  mkProv (seqZ 200 16) None 0 0 0 0 false None None None false true true true true.

Definition ecc_example (pub_key : bytes) : ecc :=
  mkEcc true false true pub_key None (mkPubKeyCb PubKeyReady None) (mkPubKeyCb SmpPubKeyReady None) None [].

(** A node that is not in a network, ready for a link as device. *)
Definition device_example (pub_key : bytes) : prov_state unit wire :=
  mkProvState (link_zero <| link_role := Some RoleDevice |>) prov_example (mkDevice None 0 0 0 (replicate 16 0)) []
    (trans_zero (mesh_zero tt)
       ((node_example 0 0 false subnet_zero) <| net_valid := false |> <| net_subnets := subnets_init 2 |>) (mkApps [] []))
    (ecc_example pub_key) 0 [].

Lemma device_authenticates_witness :
  let e := prov_env_example true 0 in
  let s := device_example (seqZ 1 64) in
  exists s1 s2,
    @run_prov_ops toy_ecb toy_cmac e unit wire wire_bearer
      [OpLinkOpened BT_MESH_PROV_ADV; OpRecv 0 [PROV_INVITE; 5]; OpRecv 0 (PROV_START :: replicate 5 0)] s = Some (tt, s1) /\
    @run_prov_op toy_ecb toy_cmac e unit wire wire_bearer (OpRecv 0 (PROV_PUB_KEY :: seqZ 30 64)) s1 = Some (tt, s2) /\
    (net_valid (tr_net (ps_mesh s1)) = false -> net_valid (tr_net (ps_mesh s2)) = true ->
     exists now data pdu dk,
       OpRecv 0 (PROV_PUB_KEY :: seqZ 30 64) = OpRecv now (PROV_DATA :: data) /\ length data = 33%nat /\
       @verified toy_cmac (ps_link s1) /\ @data_accepted toy_ecb toy_cmac (ps_link s1) data pdu dk /\
       @provisioned_by toy_cmac e unit pdu dk (ps_mesh s2)).
Proof.
  apply (@device_authenticates toy_ecb toy_ecb_ok toy_cmac toy_cmac_ok (prov_env_example true 0) unit wire wire_bearer
           (fun _ => True) wire_bearer_ok wire_bearer_reset_ok eq_refl BT_MESH_PROV_ADV
           [OpRecv 0 [PROV_INVITE; 5]; OpRecv 0 (PROV_START :: replicate 5 0)] (OpRecv 0 (PROV_PUB_KEY :: seqZ 30 64))
           (device_example (seqZ 1 64))).
  - unfold dev_ready, ecc_inv, no_io. cbn. repeat split; done || lia.
  - repeat constructor; try done; unfold wf_bytes, is_u8; repeat constructor; lia.
  - split; [|done]. apply list.Forall_forall. intros x [->|Hx%elem_of_seqZ]%list.elem_of_cons; unfold is_u8, PROV_PUB_KEY; lia.
Defined.

(** A device with a link that is still waiting for its key pair. *)
Definition busy_example : prov_state unit wire :=
  let d := device_example (seqZ 1 64) in
  d <| ps_link := (ps_link d) <| link_bearer := Some BT_MESH_PROV_ADV |> <| expect := PROV_INVITE |> |>
    <| ps_ecc := (ps_ecc d) <| pub_key_busy := true |> <| has_pub_key := false |> <| pub_key_cb := Some MeshCb |> |>.

Lemma key_event_never_ends_witness :
  exists s1, @run_prov_op toy_ecb toy_cmac (prov_env_example true 0) unit wire wire_bearer (OpLinkClosed BT_MESH_PROV_ADV) busy_example
      = Some (tt, s1) /\
    forall fuel status key, exists s2,
      le_pkey_complete ps_ecc (@pub_key_call (prov_env_example true 0) unit wire wire_bearer) fuel status key s1 = Some (false, s2).
Proof.
  apply (@key_event_never_ends toy_ecb toy_cmac (prov_env_example true 0) unit wire wire_bearer (fun _ => True)).
  - unfold dev_inv, link_inv, link_base, ecc_inv, no_io. cbn. repeat split; try (done || lia). by left.
  - done.
  - done.
  - done.
Defined.
