(* ===== verification/ProvAgree.v ===== *)
(** * A provisioning session

    A provisioner and a device on a link without loss.  The two nodes run the role
    functions of [prov_device.c] and [provisioner.c]; PDUs and acknowledgements travel
    in order, one queue each way, and each side's host completes the DH key in its own
    time.  In whatever order these things happen, the session ends with the device in
    the network and both sides holding the same device key. *)

From stdpp Require Import relations.
From S2P Require Import Prelude ByteOrder MeshDefs Cdb NetBuf Access Rpl Ccm MeshCrypto Subnet AppKeys Net NetProps Transport TransportOps Mesh Heartbeat SecureBeacon Cfg Main Ecc Prov ProvDevice MeshProvisioner ProvLink ProvProps.

(** ** Helper facts *)

Lemma memcpy_at_app at_ (src dst : bytes) :
  (at_ <= length dst)%nat -> drop at_ (memcpy_at at_ src dst) = src ++ drop (at_ + length src) dst.
Proof.
  intros H. unfold memcpy_at. rewrite drop_app_length'; [done|]. rewrite length_take. lia.
Qed.

(** Swapping a key of 64 bytes twice gives it back, whatever follows it. *)
Lemma swap_halves_involutive key rest :
  length key = 64%nat -> swap_halves (swap_halves key ++ rest) = key.
Proof.
  intros H. unfold swap_halves.
  assert (length (rev (take 32 key)) = 32%nat) as H1 by (rewrite length_rev, length_take; lia).
  assert (length (rev (take 32 (drop 32 key))) = 32%nat) as H2 by (rewrite length_rev, length_take, length_drop; lia).
  rewrite <- app_assoc, take_app_length' by done. rewrite drop_app_length' by done. rewrite take_app_length' by done.
  rewrite !rev_involutive. rewrite (take_ge (drop 32 key)) by (rewrite length_drop; lia). apply take_drop.
Qed.

Lemma length_swap_halves key : length key = 64%nat -> length (swap_halves key) = 64%nat.
Proof. intros H. unfold swap_halves. rewrite length_app, !length_rev, !length_take, length_drop. lia. Qed.

(** ** The session *)

Section Session.
Context {ecb : Ecb} {cmac : Cmac} (ed ep : prov_conf_env).
Context {G : Type} {friend : FriendOps (mesh G)}.

Abbreviation node := (prov_state G wire).

(** What the item of the queue does to the node it reaches.  A PDU is acknowledged before
    it is handled. *)
Definition deliver (e : prov_conf_env) (it : wire_item) : ST node unit :=
  match it with
  | WPdu pdu cb => _ ← modify (fun s => s <| ps_bearer := ps_bearer s ++ [WAck cb] |>); prov_recv (roles e 0) pdu
  | WAck (Some cb) => send_complete_call e cb
  | WAck None => mret tt
  | WClose _ => prov_link_closed (roles e 0) BT_MESH_PROV_ADV
  end.

(** The controller computes the DH key asked for last with its private key. *)
Context (dh_of : bytes -> bytes -> bytes).

Definition dh_complete (e : prov_conf_env) (priv : bytes) : ST node unit :=
  cmds ← gets (fun s => hci_cmds (ps_ecc s));
  match list.last cmds with
  | Some (CmdDhKey remote) => le_dhkey_complete ps_ecc (dh_key_call e) 0 (dh_of priv remote)
  | _ => mret tt
  end.

(** One step of the session: the head of a queue arrives, or a DH key is ready. *)
Inductive session_step (priv_d priv_p : bytes) : node * node -> node * node -> Prop :=
| ToDevice d d' p it rest :
    ps_bearer p = it :: rest -> deliver ed it d = Some (tt, d') ->
    session_step priv_d priv_p (d, p) (d', p <| ps_bearer := rest |>)
| ToProvisioner d p p' it rest :
    ps_bearer d = it :: rest -> deliver ep it p = Some (tt, p') ->
    session_step priv_d priv_p (d, p) (d <| ps_bearer := rest |>, p')
| DeviceKey d d' p :
    dh_key_cb (ps_ecc d) <> None -> dh_complete ed priv_d d = Some (tt, d') ->
    session_step priv_d priv_p (d, p) (d', p)
| ProvisionerKey d p p' :
    dh_key_cb (ps_ecc p) <> None -> dh_complete ep priv_p p = Some (tt, p') ->
    session_step priv_d priv_p (d, p) (d, p').

(** The application of the provisioner asks for the device, and the bearer opens the link
    at both ends. *)
Definition session_start (uuid : bytes) (net_idx addr attention : Z) (d0 p0 : node) : option (node * node) :=
  '(_, d) ← prov_link_opened (roles ed 0) BT_MESH_PROV_ADV d0;
  '(err, p) ← bt_mesh_provision_adv (pe_pb_adv ep) (pe_provisioner ep) uuid net_idx addr attention p0;
  match err with
  | Some _ => None
  | None => '(_, p) ← prov_link_opened (roles ep 0) BT_MESH_PROV_ADV p; Some (d, p)
  end.
End Session.

(** ** The two sides, state by state

    The provisioner authenticates without out-of-band data or with a static value the
    device knows too.  Every message of the session is determined by the two nodes at
    its start; so are the states the nodes go through. *)

(** The link as [bt_mesh_prov_reset_state] leaves it. *)
Definition idle_link (l : prov_link) : prov_link :=
  link_zero <| link_bearer := link_bearer l |> <| link_role := link_role l |> <| oob_method := oob_method l |>
    <| oob_action := oob_action l |> <| oob_size := oob_size l |> <| auth := auth l |>.

Definition result (r : Z + bytes) : bytes := match r with inl _ => [] | inr b => b end.

Section States.
Context {ecb : Ecb} {cmac : Cmac} (ed ep : prov_conf_env).
Context {G : Type} {friend : FriendOps (mesh G)}.
Context (pub_of : bytes -> bytes) (dh_of : bytes -> bytes -> bytes) (priv_d priv_p : bytes).
Context (uuid : bytes) (net_idx addr attention : Z).

Abbreviation node := (prov_state G wire).

Context (d0 p0 : node).

(** The messages. *)
Definition elems : Z := u8 (Z.of_nat (length (comp_elem (net_comp (tr_net (ps_mesh d0)))))).
Definition m_caps : bytes := capabilities elems (ps_prov d0).
Definition method : Z := oob_method (ps_link p0).
Definition m_start : bytes := [PROV_ALG_P256; PUB_KEY_NO_OOB; method; 0; 0].
Definition key_p : bytes := swap_halves (pub_of priv_p).
Definition key_d : bytes := swap_halves (pub_of priv_d).

(** The confirmation inputs as they grow. *)
Definition inputs (k : nat) : bytes :=
  let add n at_ src l := if (n <=? k)%nat then memcpy_at at_ src l else l in
  add 5%nat 81%nat key_d (add 4%nat 17%nat key_p (add 3%nat 12%nat m_start
    (add 2%nat 1%nat m_caps (add 1%nat 0%nat [attention] (replicate 145 0))))).

(** The authentication value of the method. *)
Definition static_value : bytes :=
  let val := match pv_static_val (ps_prov d0) with Some v => v | None => [] end in
  replicate (16 - length val) 0 ++ val.
Definition auth_value : bytes := if method =? AUTH_METHOD_STATIC then static_value else replicate 16 0.

(** What both sides compute. *)
Definition secret : bytes := rev (take 32 (dh_of priv_d (pub_of priv_p))).
Definition c_salt : bytes := result (bt_mesh_prov_conf_salt (inputs 5)).
Definition c_key : bytes := result (bt_mesh_prov_conf_key secret c_salt).
Definition rand_d : bytes := (pe_rand ed (ps_rands d0) 16).2.
Definition rand_p : bytes := (pe_rand ep (ps_rands p0) 16).2.
Definition confirm_d : bytes := result (bt_mesh_prov_conf c_key rand_d auth_value).
Definition confirm_p : bytes := result (bt_mesh_prov_conf c_key rand_p auth_value).
Definition p_salt : bytes := result (bt_mesh_prov_salt c_salt rand_p rand_d).
Definition s_key : bytes := result (bt_mesh_session_key secret p_salt).
Definition s_nonce : bytes := result (bt_mesh_prov_nonce secret p_salt).
Definition device_key : bytes := result (bt_mesh_dev_key secret p_salt).

(** The provisioner's database: the node is allocated, gets its key and is stored. *)
Definition alloc : option nat * bt_mesh_cdb :=
  bt_mesh_cdb_node_alloc (take 16 uuid) addr elems net_idx (tr_cdb (ps_mesh p0)).
Definition slot : nat := default 0%nat alloc.1.
Definition cdb_keyed : bt_mesh_cdb := with_nodes (alter (set_dev_key device_key) slot) alloc.2.
Definition cdb_final : bt_mesh_cdb := if pe_settings ep then bt_mesh_cdb_node_store slot cdb_keyed else cdb_keyed.

(** The entry of the node, the subnet and its key. *)
Context (entry : bt_mesh_cdb_node) (sub : bt_mesh_cdb_subnet) (net_key : bytes).
Definition flags : Z := bt_mesh_cdb_subnet_flags (Some sub) cdb_keyed.
Definition m_plain : bytes := prov_plain sub entry cdb_keyed net_key.
Definition m_data : bytes :=
  ctr s_key s_nonce m_plain ++ ccm_mac s_key s_nonce m_plain [] 8 (u8 25).

Definition device_mesh : trans (mesh G) :=
  match bt_mesh_provision (pe_proxy ed) (pe_friend ed) (pe_cdb ed) (pe_pb_gatt ed) (pe_settings ed) (pe_main ed) 0
          (pv_uuid (ps_prov d0)) (take 16 m_plain) net_idx flags (cdb_iv_index cdb_keyed) (node_addr entry) device_key
          (ps_mesh d0) with
  | Some (_, t) => t
  | None => ps_mesh d0
  end.

(** ** The device after its [i]-th step *)

Definition z16 : bytes := replicate 16 0.
Definition z32 : bytes := replicate 32 0.
Definition static_flag (fl : Z) : Z := if method =? AUTH_METHOD_STATIC then Z.setbit fl (flag_bit OOB_STATIC_KEY) else fl.

Definition dlink (fl : Z) (au dh : bytes) (ex : Z) (cf rd sl ck inp ps : bytes) : prov_link :=
  mkLink fl (Some BT_MESH_PROV_ADV) (Some RoleDevice) (oob_method (ps_link d0)) (oob_action (ps_link d0))
    (oob_size (ps_link d0)) au dh ex cf rd sl ck inp ps.

Definition dh_cmd (cb : dh_key_func) (remote : bytes) (ec : ecc) : ecc :=
  ec <| dh_key_cb := Some cb |> <| hci_cmds := hci_cmds ec ++ [CmdDhKey (take 64 remote)] |>.

Definition ecc_d (done : bool) : ecc :=
  let ec := dh_cmd DeviceDhKey (pub_of priv_p) (ps_ecc d0) in if done then ec <| dh_key_cb := None |> else ec.

(** The host after the reset that ends the session. *)
Definition ecc_closed : ecc :=
  match bt_pub_key_gen (pe_hci ed) MeshCb
          (set_cb (fun c => c <| pkcb_func := DevicePubKeyReady |>) MeshCb (ecc_d true)) with
  | Some (_, ec) => ec
  | None => ecc_d true
  end.

Definition D (i : nat) (lg : list prov_event) (w : wire) : node :=
  let st l ec rn m := mkProvState l (ps_prov d0) (ps_device d0) w m ec rn lg in
  let r := ps_rands d0 in
  let m := ps_mesh d0 in
  let fs := static_flag 2 in
  let fk := Z.setbit fs (flag_bit PUB_KEY_SENT) in
  let fn := Z.clearbit fk (flag_bit NOTIFY_INPUT_COMPLETE) in
  let late ex ps := dlink fn auth_value secret ex confirm_p rand_d c_salt c_key (inputs 5) ps in
  match i with
  | 0 => st (dlink 2 (auth (ps_link d0)) z32 PROV_INVITE z16 z16 z16 z16 (inputs 0) z16) (ps_ecc d0) r m
  | 1 | 2 => st (dlink 2 (auth (ps_link d0)) z32 PROV_START z16 z16 z16 z16 (inputs 2) z16) (ps_ecc d0) r m
  | 3 => st (dlink fs auth_value z32 PROV_PUB_KEY z16 z16 z16 z16 (inputs 3) z16) (ps_ecc d0) r m
  | 4 => st (dlink fs auth_value z32 PROV_PUB_KEY z16 z16 z16 z16 (inputs 4) z16) (ecc_d false) r m
  | 5 => st (dlink fs auth_value secret PROV_CONFIRM z16 z16 z16 z16 (inputs 5) z16) (ecc_d true) r m
  | 6 => st (dlink fk auth_value secret PROV_CONFIRM z16 z16 z16 z16 (inputs 5) z16) (ecc_d true) r m
  | 7 | 8 => st (late PROV_RANDOM z16) (ecc_d true) (S r) m
  | 9 | 10 => st (late PROV_DATA p_salt) (ecc_d true) (S r) m
  | 11 | 12 => st (late PROV_NO_PDU p_salt) (ecc_d true) (S r) device_mesh
  | _ => st (idle_link (late PROV_NO_PDU p_salt)) ecc_closed (S r) device_mesh
  end%nat.

(** ** The provisioner after its [j]-th step *)

Definition plink (fl : Z) (au dh : bytes) (ex : Z) (cf rd sl ck inp ps : bytes) : prov_link :=
  mkLink fl (Some BT_MESH_PROV_ADV) (Some RoleProvisioner) method 0 0 au dh ex cf rd sl ck inp ps.

Definition ecc_p (done : bool) : ecc :=
  let ec := dh_cmd ProvisionerDhKey (pub_of priv_d) (ps_ecc p0) in if done then ec <| dh_key_cb := None |> else ec.

Definition prov_dev (n : option nat) : prov_device := mkDevice n addr net_idx attention (take 16 uuid).

Definition P (j : nat) (lg : list prov_event) (w : wire) : node :=
  let st l ec rn c n := mkProvState l (ps_prov p0) (prov_dev n) w ((ps_mesh p0) <| tr_cdb := c |>) ec rn lg in
  let r := ps_rands p0 in
  let c0 := tr_cdb (ps_mesh p0) in
  let c1 := alloc.2 in
  let n := Some slot in
  let fs := static_flag 34 in
  let fk := Z.setbit fs (flag_bit PUB_KEY_SENT) in
  let fr := Z.setbit fk (flag_bit REMOTE_PUB_KEY) in
  let au := auth_value in
  let late ex cf ps := plink fr au secret ex cf rand_p c_salt c_key (inputs 5) ps in
  match j with
  | 0 | 1 => st (plink 34 (auth (ps_link p0)) z32 PROV_CAPABILITIES z16 z16 z16 z16 (inputs 1) z16) (ps_ecc p0) r c0
               (pd_node (ps_device p0))
  | 2 => st (plink fs au z32 PROV_CAPABILITIES z16 z16 z16 z16 (inputs 3) z16) (ps_ecc p0) r c1 n
  | 3 => st (plink fs au z32 PROV_CAPABILITIES z16 z16 z16 z16 (inputs 4) z16) (ps_ecc p0) r c1 n
  | 4 => st (plink fk au z32 PROV_PUB_KEY z16 z16 z16 z16 (inputs 4) z16) (ps_ecc p0) r c1 n
  | 5 => st (plink fr au z32 PROV_PUB_KEY z16 z16 z16 z16 (inputs 5) z16) (ecc_p false) r c1 n
  | 6 | 7 => st (late PROV_CONFIRM z16 z16) (ecc_p true) (S r) c1 n
  | 8 | 9 => st (late PROV_RANDOM confirm_d z16) (ecc_p true) (S r) c1 n
  | 10 | 11 => st (late PROV_COMPLETE confirm_d p_salt) (ecc_p true) (S r) cdb_keyed n
  | _ => st (late PROV_NO_PDU confirm_d p_salt) (ecc_p true) (S r) cdb_final None
  end%nat.
End States.

(** ** The provisioning data *)

(** What the provisioner encrypts in place, the device decrypts behind the PDU. *)
Lemma prov_data_opens {ecb : Ecb} {ecb_ok : EcbOk} key nonce (text : bytes) :
  length nonce = 13%nat -> length text = 25%nat ->
  let sealed := ctr key nonce text ++ ccm_mac key nonce text [] 8 (u8 25) in
  length sealed = 33%nat /\
  bt_mesh_prov_encrypt key nonce 0 0 (text ++ replicate 8 0) = Some (None, sealed) /\
  bt_mesh_prov_decrypt key nonce 0 33 (sealed ++ replicate 25 0) = Some (None, sealed ++ text).
Proof.
  intros Hn Ht sealed.
  assert (length (ctr key nonce text) = 25%nat) as Lc by by rewrite length_ctr.
  assert (length (ccm_mac key nonce text [] 8 (u8 25)) = 8%nat) as Lm by (apply length_ccm_mac; lia).
  assert (length sealed = 33%nat) as Ls by (unfold sealed; rewrite length_app; lia).
  assert (forall r, slice 0 25 (text ++ r) = text) as S0 by (intros r; unfold slice; rewrite drop_0; by apply take_app_length').
  assert (slice 0 25 (sealed ++ replicate 25 0) = ctr key nonce text) as S1.
  { unfold slice, sealed. rewrite drop_0, <- app_assoc. by rewrite take_app_length'. }
  assert (slice 25 8 (sealed ++ replicate 25 0) = ccm_mac key nonce text [] 8 (u8 25)) as S2.
  { unfold slice, sealed. rewrite <- app_assoc, drop_app_length' by done. by rewrite take_app_length'. }
  split; [done|]. unfold bt_mesh_prov_encrypt, bt_mesh_prov_decrypt. split.
  - rewrite bt_ccm_encrypt_ok by (rewrite ?length_app, ?Ht; cbn; done || lia). change (Z.of_nat 25) with 25. rewrite S0.
    rewrite <- (app_nil_r (text ++ _)), list_inserts_0_r, app_nil_r; [done|].
    rewrite length_app, Lc, Lm, length_app, Ht. done.
  - rewrite bt_ccm_decrypt_ok by (rewrite ?length_app, ?Ls; cbn; done || lia). cbn [Nat.add]. change (Z.of_nat 25) with 25.
    rewrite S1, S2, ctr_involutive, decide_True by done. do 2 f_equal.
    rewrite <- Ls at 1. rewrite <- (Nat.add_0_r (length sealed)), list_inserts_app_r.
    rewrite <- (app_nil_r (replicate 25 0)), list_inserts_0_r, app_nil_r by done. done.
Qed.

(** The fields of the data. *)
Lemma plain_fields sub n c key :
  length key = 16%nat -> is_u16 (node_net_idx n) -> is_u32 (cdb_iv_index c) -> is_u16 (node_addr n) ->
  let pdu := prov_plain sub n c key in
  length pdu = 25%nat /\ take 16 pdu = key /\ sys_get_be16 (drop 16 pdu) = node_net_idx n /\
  byte_at pdu 18 = bt_mesh_cdb_subnet_flags (Some sub) c /\ sys_get_be32 (drop 19 pdu) = cdb_iv_index c /\
  sys_get_be16 (drop 23 pdu) = node_addr n.
Proof.
  intros Hk Hi Hv Ha pdu. unfold pdu, prov_plain. rewrite (take_ge key) by lia.
  set (rest := sys_put_be16 (node_net_idx n) ++ _).
  assert (forall k, drop (16 + k) (key ++ rest) = drop k rest) as Hd.
  { intros k. rewrite <- Hk, <- drop_drop, drop_app_length. done. }
  rewrite (Hd 3%nat : drop 19 _ = _), (Hd 7%nat : drop 23 _ = _). split; [by rewrite length_app, Hk|]. split; [by rewrite take_app_length'|].
  split; [rewrite (Hd 0%nat : drop 16 _ = _); by apply get_put_be16|].
  split; [unfold byte_at; rewrite app_nth2, Hk by lia; done|].
  split; [by apply (get_put_be32 _ (sys_put_be16 (node_addr n)))|].
  exact (get_put_be16 _ [] Ha).
Qed.

(** A node that has no subnet yet takes the one it is given. *)
Section Fresh.
Context {ecb : Ecb} {cmac : Cmac} (cmac_total : forall key sg, exists mac, bt_mesh_aes_cmac key sg = inr mac).
Context (config_proxy config_friend config_pb_gatt config_settings : bool) (env : main_env) {G : Type}.

Lemma s1_total m : exists salt, bt_mesh_s1 m = inr salt.
Proof. unfold bt_mesh_s1, bt_mesh_aes_cmac_one. destruct (cmac_total (replicate 16 0) [m]) as [salt ->]. by exists salt. Qed.

Lemma k1_total ikm salt info : exists k, bt_mesh_k1 ikm salt info = inr k.
Proof. unfold bt_mesh_k1, bt_mesh_aes_cmac_one. destruct (cmac_total salt [ikm]) as [okm ->]. cbn. apply cmac_total. Qed.

Lemma id128_total n m : exists k, bt_mesh_id128 n m = inr k.
Proof. unfold bt_mesh_id128. destruct (s1_total m) as [salt ->]. cbn. apply k1_total. Qed.

Lemma net_keys_total key : exists keys, net_keys_create config_proxy key = inr keys.
Proof.
  unfold net_keys_create, msg_cred_create, bt_mesh_k2, bt_mesh_k3, bt_mesh_aes_cmac_one, bt_mesh_identity_key, bt_mesh_beacon_key.
  unfold mbind, result_bind, mret, result_ret.
  repeat match goal with
  | |- context [bt_mesh_s1 ?m] => destruct (s1_total m) as [? ->]
  | |- context [bt_mesh_aes_cmac ?k ?sg] => destruct (cmac_total k sg) as [? ->]
  | |- context [bt_mesh_id128 ?n ?m] => destruct (id128_total n m) as [? ->]
  | |- context [if config_proxy then _ else _] => destruct config_proxy
  end; by eexists.
Qed.

Lemma net_create_fresh idx flags key iv n count :
  net_subnets n = subnets_init (S count) -> idx <> BT_MESH_KEY_UNUSED ->
  exists n', bt_mesh_net_create config_proxy idx flags key iv n = (None, n').
Proof.
  intros Hs Hi. unfold bt_mesh_net_create. rewrite Hs, !subnet_set_init by done.
  destruct (net_keys_total key) as [keys ->]. destruct (BT_MESH_KEY_REFRESH flags); by eexists.
Qed.

Lemma provision_fresh now uuid key idx flags iv addr dk (t : trans (mesh G)) count :
  net_valid (tr_net t) = false -> net_subnets (tr_net t) = subnets_init (S count) -> idx <> BT_MESH_KEY_UNUSED ->
  wp (Main.bt_mesh_provision config_proxy config_friend false config_pb_gatt config_settings env now uuid key idx flags iv addr
        dk) (fun err t' => err = None /\ provisioned_with config_proxy key idx flags iv addr dk t') t.
Proof.
  intros Hv Hs Hi. unfold Main.bt_mesh_provision, set_valid, bt_mesh_is_provisioned. do 4 mesh_step. cbn [tr_net].
  rewrite Hv. mesh_step.
  apply wp_when; intros _; repeat mesh_step;
    (match goal with |- context [bt_mesh_net_create _ _ _ _ _ ?n] =>
       destruct (net_create_fresh idx flags key iv n count Hs Hi) as [n' En]; rewrite En end); repeat mesh_step;
    (eapply wp_mono; [exact (provision_start_ok _ _ _ now key idx flags iv addr dk n' _ En eq_refl)|]);
    intros _ t' [P _]; by mesh_step.
Qed.
End Fresh.

(** ** Single steps *)

Section Steps.
Context {ecb : Ecb} {cmac : Cmac} (e : prov_conf_env).
Context {G : Type} {friend : FriendOps (mesh G)}.

Abbreviation node := (prov_state G wire).

Lemma wire_send pdu cb (s : node) Q b :
  link_bearer (ps_link s) = Some b -> Q None (s <| ps_bearer := ps_bearer s ++ [WPdu pdu cb] |>) ->
  wp (bt_mesh_prov_send pdu cb) Q s.
Proof.
  intros E H. unfold bt_mesh_prov_send. prov_step. prov_step. prov_step. eapply wp_need; [exact E|]. prov_step. cbn.
  by repeat prov_step.
Qed.

(** A PDU of the type and length the role waits for reaches its handler. *)
Lemma recv_handler r type data f len (s : node) Q :
  link_role (ps_link s) = Some r -> role_op (roles e 0 r) !! Z.to_nat type = Some (Some f) ->
  op_len !! Z.to_nat type = Some len -> expect (ps_link s) = type -> length data = len ->
  wp (f data) Q s -> wp (prov_recv (roles e 0) (type :: data)) Q s.
Proof.
  intros Hr Hf Hl Hx Hd H. unfold prov_recv, get_role. prov_step. eapply wp_need; [done|]. do 3 prov_step.
  prov_step. eapply wp_need; [exact Hr|]. do 3 prov_step. rewrite Hf, Hl, Hx, Z.eqb_refl, andb_false_r.
  cbn [length]. by rewrite Hd, Nat.eqb_refl.
Qed.

Lemma dh_gen_started remote cb (s : node) Q :
  dh_key_cb (ps_ecc s) = None -> pub_key_busy (ps_ecc s) = false -> has_pub_key (ps_ecc s) = true ->
  (forall cmds, pe_hci e cmds = None) ->
  Q None (s <| ps_ecc := dh_cmd cb remote (ps_ecc s) |>) ->
  wp (zoom ps_ecc (bt_dh_key_gen (pe_hci e) remote cb)) Q s.
Proof.
  intros H1 H2 H3 H4 H. prov_step. unfold bt_dh_key_gen, hci_send. prov_step. prov_step. unfold id.
  rewrite H1, H2, H3. cbn. repeat prov_step. rewrite H4. repeat prov_step. exact H.
Qed.

(** The answer to the last command reaches the callback. *)
Lemma dh_answered dh_of priv (s : node) cb cmds remote Q :
  dh_key_cb (ps_ecc s) = Some cb -> hci_cmds (ps_ecc s) = cmds ++ [CmdDhKey remote] ->
  wp (dh_key_call e cb (Some (dh_of priv remote)))
    (fun _ s' => Q tt (s' <| ps_ecc := (ps_ecc s') <| dh_key_cb := None |> |>)) s ->
  wp (dh_complete dh_of e priv) Q s.
Proof.
  intros Hc Hl H. unfold dh_complete. prov_step. prov_step. rewrite Hl, last_snoc. unfold le_dhkey_complete.
  prov_step. prov_step. rewrite Hc. prov_step. eapply wp_mono; [exact H|]. intros [] s' HQ. by repeat prov_step.
Qed.
End Steps.

(** The conditions of a handler are closed terms in these states. *)
Ltac eval_cond b :=
  let v := eval lazy in b in
  lazymatch v with
  | true => change b with true
  | false => change b with false
  end.

Ltac run_step :=
  lazymatch goal with
  | |- wp (zoom _ (bt_dh_key_gen _ _ _)) _ _ => fail
  | |- wp (bt_mesh_prov_send _ _) _ _ => eapply wire_send; [reflexivity|]
  | |- wp (if ?b then _ else _) _ _ => eval_cond b; cbv iota
  | |- wp (need _) _ _ => eapply wp_need; [reflexivity|]
  | |- wp (dev _) _ _ => unfold dev; prov_step
  | |- wp (cdb _) _ _ => unfold cdb; prov_step
  | |- wp (set_dev _) _ _ => unfold set_dev; prov_step
  | |- wp (set_cdb _) _ _ => unfold set_cdb; prov_step
  | |- wp (when true _) _ _ => prov_step
  | |- wp (when false _) _ _ => prov_step
  | |- wp (when ?b _) _ _ => eval_cond b
  | |- _ => prov_step
  end.

Section Runs.
Context {ecb : Ecb} {ecb_ok : EcbOk} {cmac : Cmac} {cmac_ok : CmacOk} (ed ep : prov_conf_env).
Context {G : Type} {friend : FriendOps (mesh G)}.
Context (pub_of : bytes -> bytes) (dh_of : bytes -> bytes -> bytes) (priv_d priv_p : bytes).
Context (uuid : bytes) (net_idx addr attention : Z).

Abbreviation node := (prov_state G wire).

Context (d0 p0 : node) (entry : bt_mesh_cdb_node) (sub : bt_mesh_cdb_subnet) (net_key : bytes).

Local Abbreviation DS := (D ed ep pub_of dh_of priv_d priv_p uuid net_idx addr attention d0 p0 entry sub net_key).
Local Abbreviation PS := (P ed ep pub_of dh_of priv_d priv_p uuid net_idx addr attention d0 p0).
Local Abbreviation KP := (key_p pub_of priv_p).
Local Abbreviation KD := (key_d pub_of priv_d).
Local Abbreviation IN := (inputs pub_of priv_d priv_p attention d0 p0).
Local Abbreviation CD := (confirm_d ed pub_of dh_of priv_d priv_p attention d0 p0).
Local Abbreviation CP := (confirm_p ep pub_of dh_of priv_d priv_p attention d0 p0).
Local Abbreviation DATA := (m_data ed ep pub_of dh_of priv_d priv_p uuid net_idx addr attention d0 p0 entry sub net_key).

(** The tag function does not fail; the two sides of the key exchange agree. *)
Context (cmac_total : forall key sg, exists mac, bt_mesh_aes_cmac key sg = inr mac).
Context (dh_agree : forall a b, dh_of a (pub_of b) = dh_of b (pub_of a)) (pub_len : forall a, length (pub_of a) = 64%nat).

(** The authentication: nothing, or a static value both sides have. *)
Definition same_auth : Prop :=
  oob_action (ps_link p0) = 0 /\ oob_size (ps_link p0) = 0 /\
  (method p0 = AUTH_METHOD_NO_OOB \/
   method p0 = AUTH_METHOD_STATIC /\ auth (ps_link p0) = static_value d0 /\
   exists v, pv_static_val (ps_prov d0) = Some v /\ (length v <= 16)%nat).

(** A node whose host has its key pair, with working random numbers and commands. *)
Definition host_ready (e : prov_conf_env) (priv : bytes) (s : node) : Prop :=
  host_pub_key (ps_ecc s) = pub_of priv /\ has_pub_key (ps_ecc s) = true /\ pub_key_busy (ps_ecc s) = false /\
  dh_key_cb (ps_ecc s) = None /\ (forall cmds, pe_hci e cmds = None) /\
  (exists r, pe_rand e (ps_rands s) 16 = (None, r) /\ length r = 16%nat) /\
  ps_link s = idle_link (ps_link s) /\ ps_bearer s = [].

Context (auth_ready : same_auth) (ready_d : host_ready ed priv_d d0) (ready_p : host_ready ep priv_p p0).

Lemma cmac_value key sg : bt_mesh_aes_cmac key sg = inr (result (bt_mesh_aes_cmac key sg)).
Proof. destruct (cmac_total key sg) as [mac ->]. done. Qed.

Lemma k1_value ikm salt info : bt_mesh_k1 ikm salt info = inr (result (bt_mesh_k1 ikm salt info)).
Proof.
  unfold bt_mesh_k1, bt_mesh_aes_cmac_one. destruct (cmac_total salt [ikm]) as [okm ->].
  unfold mbind, result_bind. apply cmac_value.
Qed.

Lemma nonce_value dh salt : bt_mesh_prov_nonce dh salt = inr (result (bt_mesh_prov_nonce dh salt)).
Proof. unfold bt_mesh_prov_nonce. rewrite k1_value. done. Qed.

Lemma length_cmac_value key sg : length (result (bt_mesh_aes_cmac key sg)) = 16%nat.
Proof. exact (proj1 (cmac_result _ _ _ (cmac_value key sg))). Qed.

(** Method by method. *)
Lemma method_cases (Q : Prop) :
  (method p0 = AUTH_METHOD_NO_OOB -> Q) ->
  (method p0 = AUTH_METHOD_STATIC -> auth (ps_link p0) = static_value d0 ->
   forall v, pv_static_val (ps_prov d0) = Some v -> (length v <= 16)%nat -> Q) -> Q.
Proof. destruct auth_ready as (_ & _ & [H|(H & Ha & v & Hv & Hl)]); eauto. Qed.
(** ** The steps of the device *)

Definition to_D (i : nat) (outs w : wire) (s : node) : Prop := exists lg w', s = DS i lg w' /\ w' = w ++ outs.

Lemma d_invite lg w :
  wp (deliver ed (WPdu [PROV_INVITE; attention] None))
    (fun _ => to_D 1 [WAck None; WPdu (PROV_CAPABILITIES :: m_caps d0) None] w) (DS 0 lg w).
Proof.
  unfold deliver. run_step. run_step. eapply (recv_handler ed RoleDevice); [reflexivity..|].
  unfold prov_invite. run_step.
  apply (wp_mono _ (fun _ s => exists lg', s = (DS 0 lg' (w ++ [WAck None])))).
  { apply wp_when; intros _; [run_step|]; eexists; reflexivity. }
  intros _ s [lg' ->]. repeat run_step. eexists _, _. split; [reflexivity|]. cbn. by rewrite <- app_assoc.
Qed.

(** [bt_mesh_prov_auth] of the two methods. *)
Lemma auth_runs (e : prov_conf_env) m (s : node) Q :
  (m = AUTH_METHOD_NO_OOB /\ Q 0 (s <| ps_link := (ps_link s) <| auth := replicate 16 0 |> |>)) \/
  (m = AUTH_METHOD_STATIC /\
   Q 0 (s <| ps_link := (ps_link s) <| link_flags := Z.setbit (link_flags (ps_link s)) (flag_bit OOB_STATIC_KEY) |> |>)) ->
  wp (bt_mesh_prov_auth (pe_rand e) m 0 0) Q s.
Proof.
  unfold bt_mesh_prov_auth. intros [[-> H]|[-> H]]; prov_step; prov_step; cbn; by repeat prov_step.
Qed.

Lemma d_start lg w :
  wp (deliver ed (WPdu (PROV_START :: m_start p0) (Some StartSent)))
    (fun _ => to_D 3 [WAck (Some StartSent)] w) (DS 2 lg w).
Proof.
  unfold deliver. run_step. run_step. eapply (recv_handler ed RoleDevice); [reflexivity..|].
  unfold prov_start. repeat run_step. apply auth_runs.
  unfold to_D, D, static_flag, auth_value.
  apply method_cases; [intros M; left; split; [exact M|]|intros M _ v Hv Hl; right; split; [exact M|]]; rewrite M; repeat run_step.
  - by eexists _, _.
  - cbn [ps_prov]. unfold static_value. cbn. rewrite Hv. rewrite (proj2 (Nat.leb_le _ _)) by done.
    eapply wp_need; [done|]. run_step. by eexists _, _.
Qed.

Lemma inputs_key_p : drop 17 (IN 4) = KP ++ replicate 64 0.
Proof.
  unfold inputs. cbn [Nat.leb]. rewrite memcpy_at_app; [|rewrite !length_memcpy_at; cbn; lia].
  unfold key_p. rewrite length_swap_halves by done. done.
Qed.

Lemma inputs_key_d : drop 81 (IN 5) = KD.
Proof.
  assert (length KP = 64%nat) as L by by apply length_swap_halves.
  unfold inputs. cbn [Nat.leb]. rewrite memcpy_at_app; [|rewrite !length_memcpy_at; rewrite ?length_memcpy_at, ?L; cbn; lia].
  unfold key_d. rewrite length_swap_halves by done.
  rewrite drop_ge, app_nil_r; [done|]. rewrite !length_memcpy_at; rewrite ?length_memcpy_at, ?L; cbn; lia.
Qed.

Lemma remote_p : swap_halves (drop 17 (IN 4)) = pub_of priv_p.
Proof. rewrite inputs_key_p. by apply swap_halves_involutive. Qed.

Lemma remote_d : swap_halves (drop 81 (IN 5)) = pub_of priv_d.
Proof. rewrite inputs_key_d, <- (app_nil_r KD). by apply swap_halves_involutive. Qed.

Lemma pub_key_get e priv (s : node) : host_ready e priv s -> bt_pub_key_get (ps_ecc s) = Some (pub_of priv).
Proof. intros (Hk & Hp & _). unfold bt_pub_key_get. by rewrite Hp, Hk. Qed.

Lemma d_pub_key lg w :
  wp (deliver ed (WPdu (PROV_PUB_KEY :: KP) (Some ProvisionerPublicKeySent)))
    (fun _ => to_D 4 [WAck (Some ProvisionerPublicKeySent)] w) (DS 3 lg w).
Proof.
  assert (length KP = 64%nat) as L by by apply length_swap_halves.
  unfold deliver. run_step. run_step. eapply (recv_handler ed RoleDevice); [reflexivity..|exact L|].
  unfold ProvDevice.prov_pub_key. rewrite take_ge by lia. repeat run_step.
  change (bt_pub_key_get _) with (bt_pub_key_get (ps_ecc d0)). rewrite (pub_key_get ed priv_d) by done.
  unfold ProvDevice.prov_dh_key_gen. repeat run_step.
  change (swap_halves _) with (swap_halves (drop 17 (IN 4))). rewrite remote_p.
  apply dh_gen_started; [apply ready_d..|]. run_step. by eexists _, _.
Qed.

(** The controller's answer is the DH key of the request. *)
Lemma d_dh_key lg w :
  wp (dh_complete dh_of ed priv_d) (fun _ => to_D 5 [WPdu (PROV_PUB_KEY :: KD) (Some DevicePublicKeySent)] w) (DS 4 lg w).
Proof.
  eapply dh_answered; [reflexivity..|]. rewrite (take_ge (pub_of priv_p)) by (rewrite pub_len; lia).
  unfold dh_key_call, ProvDevice.prov_dh_key_cb, ProvDevice.send_pub_key. repeat run_step.
  change (bt_pub_key_get _) with (bt_pub_key_get (ps_ecc d0)). rewrite (pub_key_get ed priv_d) by done.
  unfold to_D, D, static_flag. apply method_cases; [intros M|intros M _ v _ _]; rewrite M; repeat run_step; by eexists _, _.
Qed.

Lemma d_key_sent lg w : wp (deliver ed (WAck (Some DevicePublicKeySent))) (fun _ => to_D 6 [] w) (DS 5 lg w).
Proof.
  unfold deliver, send_complete_call, ProvDevice.public_key_sent.
  unfold to_D, D, static_flag. apply method_cases; [intros M|intros M _ v _ _]; rewrite M; repeat run_step;
    eexists _, _; (split; [reflexivity|]); symmetry; apply app_nil_r.
Qed.

(** The random number of a ready node. *)
Lemma rand_ready e priv (s : node) : host_ready e priv s ->
  pe_rand e (ps_rands s) 16 = (None, (pe_rand e (ps_rands s) 16).2) /\ length (pe_rand e (ps_rands s) 16).2 = 16%nat.
Proof. intros (_ & _ & _ & _ & _ & (r & -> & L) & _). done. Qed.

Local Abbreviation SALT := (c_salt pub_of priv_d priv_p attention d0 p0).
Local Abbreviation CKEY := (c_key pub_of dh_of priv_d priv_p attention d0 p0).
Local Abbreviation PSALT := (p_salt ed ep pub_of priv_d priv_p attention d0 p0).
Local Abbreviation DH := (secret pub_of dh_of priv_d priv_p).
Local Abbreviation SKEY := (s_key ed ep pub_of dh_of priv_d priv_p attention d0 p0).
Local Abbreviation NONCE := (s_nonce ed ep pub_of dh_of priv_d priv_p attention d0 p0).
Local Abbreviation DEVKEY := (device_key ed ep pub_of dh_of priv_d priv_p attention d0 p0).
Local Abbreviation RD := (rand_d ed d0).
Local Abbreviation RP := (rand_p ep p0).
Local Abbreviation AUTH := (auth_value d0 p0).

Lemma c_salt_value : bt_mesh_prov_conf_salt (IN 5) = inr SALT.
Proof. apply cmac_value. Qed.

Lemma c_key_value : bt_mesh_prov_conf_key DH SALT = inr CKEY.
Proof. apply k1_value. Qed.

Lemma confirm_d_value : bt_mesh_prov_conf CKEY RD AUTH = inr CD.
Proof. apply cmac_value. Qed.

Lemma confirm_p_value : bt_mesh_prov_conf CKEY RP AUTH = inr CP.
Proof. apply cmac_value. Qed.

Lemma p_salt_value : bt_mesh_prov_salt SALT RP RD = inr PSALT.
Proof. apply cmac_value. Qed.

Lemma s_key_value : bt_mesh_session_key DH PSALT = inr SKEY.
Proof. apply k1_value. Qed.

Lemma s_nonce_value : bt_mesh_prov_nonce DH PSALT = inr NONCE.
Proof. apply nonce_value. Qed.

Lemma device_key_value : bt_mesh_dev_key DH PSALT = inr DEVKEY.
Proof. apply k1_value. Qed.

(** No input is awaited in these sessions. *)
Lemma quiet_flags fl :
  fl = 2 \/ fl = 34 ->
  let fk := Z.setbit (static_flag p0 fl) (flag_bit PUB_KEY_SENT) in
  Z.testbit fk (flag_bit NOTIFY_INPUT_COMPLETE) = false.
Proof.
  intros H. unfold static_flag. apply method_cases; [intros M|intros M _ v _ _]; rewrite M; by destruct H as [-> | ->].
Qed.

Lemma notify_quiet (s : node) Q :
  test_flag NOTIFY_INPUT_COMPLETE (ps_link s) = false ->
  Q tt (s <| ps_link := (ps_link s) <| link_flags := Z.clearbit (link_flags (ps_link s)) (flag_bit NOTIFY_INPUT_COMPLETE) |> |>) ->
  wp ProvDevice.notify_input_complete Q s.
Proof. intros H HQ. unfold ProvDevice.notify_input_complete. repeat prov_step. rewrite H. cbn [andb]. by prov_step. Qed.

Lemma d_confirm lg w :
  wp (deliver ed (WPdu (PROV_CONFIRM :: CP) None))
    (fun _ => to_D 7 [WAck None; WPdu (PROV_CONFIRM :: CD) None] w) (DS 6 lg w).
Proof.
  assert (length CP = 16%nat) as L by apply length_cmac_value.
  destruct (rand_ready ed priv_d d0 ready_d) as [Hr _].
  unfold deliver. run_step. run_step. eapply (recv_handler ed RoleDevice); [reflexivity..|exact L|].
  unfold ProvDevice.prov_confirm. rewrite take_ge by lia. do 3 run_step.
  apply notify_quiet; [exact (quiet_flags 2 (or_introl eq_refl))|].
  unfold ProvDevice.send_confirm. run_step. run_step.
  change (bt_mesh_prov_conf_salt _) with (bt_mesh_prov_conf_salt (IN 5)). rewrite c_salt_value. do 2 run_step.
  change (bt_mesh_prov_conf_key _ _) with (bt_mesh_prov_conf_key DH SALT). rewrite c_key_value. repeat run_step.
  change (pe_rand ed _ _) with (pe_rand ed (ps_rands d0) 16). rewrite Hr. repeat run_step.
  change (bt_mesh_prov_conf _ _ _) with (bt_mesh_prov_conf CKEY RD AUTH). rewrite confirm_d_value. repeat run_step.
  eexists _, _. split; [reflexivity|]. cbn. by rewrite <- app_assoc.
Qed.
Local Abbreviation KEYED := (cdb_keyed ed ep pub_of dh_of priv_d priv_p uuid net_idx addr attention d0 p0).
Local Abbreviation FINAL := (cdb_final ed ep pub_of dh_of priv_d priv_p uuid net_idx addr attention d0 p0).
Local Abbreviation SLOT := (slot uuid net_idx addr d0 p0).
Local Abbreviation PLAIN := (m_plain ed ep pub_of dh_of priv_d priv_p uuid net_idx addr attention d0 p0 entry sub net_key).
Local Abbreviation FLAGS := (flags ed ep pub_of dh_of priv_d priv_p uuid net_idx addr attention d0 p0 sub).
Local Abbreviation DMESH :=
  (device_mesh ed ep pub_of dh_of priv_d priv_p uuid net_idx addr attention d0 p0 entry sub net_key).

Local Abbreviation ECC := (ecc_d pub_of priv_p d0 true).

(** The device is not in a network and its subnet table is empty. *)
Definition fresh_device : Prop :=
  pe_cdb ed = false /\ net_valid (tr_net (ps_mesh d0)) = false /\
  exists count, net_subnets (tr_net (ps_mesh d0)) = subnets_init (S count).

(** The database of the provisioner has room for the node and knows the subnet. *)
Definition entry_ready : Prop :=
  (alloc uuid net_idx addr d0 p0).1 = Some SLOT /\ cdb_nodes KEYED !! SLOT = Some entry /\
  node_net_idx entry = net_idx /\ is_u16 net_idx /\ net_idx <> BT_MESH_KEY_UNUSED /\ is_u16 (node_addr entry) /\
  (bt_mesh_cdb_subnet_get net_idx KEYED ≫= fun j => cdb_subnets KEYED !! j) = Some sub /\
  Cdb.sub_keys sub !! (if sub_kr_flag sub then 1 else 0)%nat = Some net_key /\ length net_key = 16%nat /\
  is_u32 (cdb_iv_index KEYED).

Context (rands_differ : RP <> RD) (fresh : fresh_device) (entry_ok : entry_ready).

Lemma data_opens :
  length DATA = 33%nat /\
  bt_mesh_prov_encrypt SKEY NONCE 0 0 (PLAIN ++ replicate 8 0) = Some (None, DATA) /\
  bt_mesh_prov_decrypt SKEY NONCE 0 33 (DATA ++ replicate 25 0) = Some (None, DATA ++ PLAIN).
Proof.
  destruct entry_ok as (_ & _ & Hi & Hu & _ & Ha & _ & _ & Hk & Hv).
  apply prov_data_opens; [|apply plain_fields; [done|by rewrite Hi|done..]].
  pose proof s_nonce_value as E. unfold bt_mesh_prov_nonce in E.
  apply result_bind_inv in E as (k & Ek & [= E]). rewrite <- E.
  unfold bt_mesh_k1, bt_mesh_aes_cmac_one in Ek. apply result_bind_inv in Ek as (? & _ & Ek).
  apply cmac_result in Ek as [Lk _]. rewrite length_take, length_drop. lia.
Qed.

Lemma device_provisioned :
  Main.bt_mesh_provision (pe_proxy ed) (pe_friend ed) (pe_cdb ed) (pe_pb_gatt ed) (pe_settings ed) (pe_main ed) 0
    (pv_uuid (ps_prov d0)) (take 16 PLAIN) net_idx FLAGS (cdb_iv_index KEYED) (node_addr entry) DEVKEY (ps_mesh d0) =
  Some (None, DMESH) /\
  provisioned_with (pe_proxy ed) net_key net_idx FLAGS (cdb_iv_index KEYED) (node_addr entry) DEVKEY DMESH.
Proof.
  destruct entry_ok as (_ & _ & Hi & Hu & Hn & Ha & _ & _ & Hk & Hv). destruct fresh as (Hc & Hf & count & Hs).
  unfold device_mesh. rewrite Hc.
  destruct (provision_fresh cmac_total (pe_proxy ed) (pe_friend ed) (pe_pb_gatt ed) (pe_settings ed) (pe_main ed) 0
    (pv_uuid (ps_prov d0)) (take 16 PLAIN) net_idx FLAGS (cdb_iv_index KEYED) (node_addr entry) DEVKEY (ps_mesh d0) count
    Hf Hs Hn) as (err & t & E & -> & P).
  rewrite E. split; [done|].
  unfold m_plain in P. by rewrite (proj1 (proj2 (plain_fields sub entry KEYED net_key Hk (eq_ind_r is_u16 Hu Hi) Hv Ha))) in P.
Qed.

Lemma d_random lg w :
  wp (deliver ed (WPdu (PROV_RANDOM :: RP) None))
    (fun _ => to_D 9 [WAck None; WPdu (PROV_RANDOM :: RD) None] w) (DS 8 lg w).
Proof.
  destruct (rand_ready ep priv_p p0 ready_p) as [_ L]. fold RP in L.
  unfold deliver. run_step. run_step. eapply (recv_handler ed RoleDevice); [reflexivity..|exact L|].
  unfold ProvDevice.prov_random. rewrite take_ge by lia. run_step. run_step.
  match goal with |- context [bool_decide (RP = ?x)] => change x with RD end. rewrite bool_decide_false by done.
  change (bt_mesh_prov_conf _ _ _) with (bt_mesh_prov_conf CKEY RP AUTH). rewrite confirm_p_value.
  match goal with |- context [bool_decide (CP = ?x)] => change x with CP end. rewrite bool_decide_true by done. cbn [negb].
  change (bt_mesh_prov_salt _ _ _) with (bt_mesh_prov_salt SALT RP RD). rewrite p_salt_value.
  unfold ProvDevice.send_random. repeat run_step.
  eexists _, _. split; [reflexivity|]. cbn. by rewrite <- app_assoc.
Qed.

Lemma d_data lg w :
  wp (deliver ed (WPdu (PROV_DATA :: DATA) None))
    (fun _ => to_D 11 [WAck None; WPdu [PROV_COMPLETE] None] w) (DS 10 lg w).
Proof.
  destruct data_opens as (L & _ & Ed).
  destruct entry_ok as (_ & _ & Hi & Hu & Hn & Ha & _ & _ & Hk & Hv).
  destruct (plain_fields sub entry KEYED net_key Hk (eq_ind_r is_u16 Hu Hi) Hv Ha) as (_ & _ & F1 & F2 & F3 & F4).
  unfold deliver. run_step. run_step. eapply (recv_handler ed RoleDevice); [reflexivity..|exact L|].
  unfold prov_data. rewrite take_ge by lia. run_step. run_step.
  change (bt_mesh_session_key _ _) with (bt_mesh_session_key DH PSALT). rewrite s_key_value.
  change (bt_mesh_prov_nonce _ _) with (bt_mesh_prov_nonce DH PSALT). rewrite s_nonce_value.
  run_step. eapply wp_need; [exact Ed|].
  change (bt_mesh_dev_key _ _) with (bt_mesh_dev_key DH PSALT). rewrite device_key_value.
  rewrite drop_app_length' by done. unfold prov_data_apply. fold PLAIN in F1, F2, F3, F4. rewrite F1, F2, F3, F4, Hi.
  do 10 run_step. eexists _, _. split; [exact (proj1 device_provisioned)|].
  change (is_pb_gatt _) with false. rewrite andb_false_r. run_step.
  eexists _, _. split; [reflexivity|]. cbn. by rewrite <- app_assoc.
Qed.

Lemma pub_key_gen_runs hci c ec : exists err ec', bt_pub_key_gen hci c ec = Some (err, ec') /\ dh_key_cb ec' = dh_key_cb ec.
Proof.
  assert (wp (bt_pub_key_gen hci c) (fun _ ec' => dh_key_cb ec' = dh_key_cb ec) ec) as (err & ec' & H); [|by exists err, ec'].
  unfold bt_pub_key_gen, hci_send. wp_step. wp_step. destruct (ecc_supported ec); cbn [negb]; [|by wp_step].
  repeat wp_step. destruct c; wp_if; repeat wp_step; try done; destruct (hci _); by repeat wp_step.
Qed.

Lemma d_close lg w : wp (deliver ed (WClose PROV_BEARER_LINK_STATUS_SUCCESS)) (fun _ => to_D 13 [] w) (DS 12 lg w).
Proof.
  unfold deliver, prov_link_closed, get_role. do 3 run_step. run_step. eapply wp_need; [reflexivity|]. do 2 run_step.
  cbn [roles role_device ProvDevice.role_device role_link_closed]. unfold ProvDevice.link_closed, ProvDevice.reset_state, bt_mesh_prov_reset_state.
  repeat run_step.
  destruct (pub_key_gen_runs (pe_hci ed) MeshCb (set_cb (fun c => c <| pkcb_func := DevicePubKeyReady |>) MeshCb ECC))
    as (err & ec & Eg & _).
  assert (forall lg', wp (set_link (fun l => idle_link l) ≫= fun _ => zoom ps_ecc (bt_pub_key_gen (pe_hci ed) MeshCb))
            (fun _ s => exists lg', s = DS 13 lg' w)
            (DS 12 lg' w <| ps_ecc := set_cb (fun c => c <| pkcb_func := DevicePubKeyReady |>) MeshCb ECC |>)) as H.
  { intros lg'. repeat run_step. exists err, ec. split; [exact Eg|]. exists lg'. unfold D, ecc_closed. by rewrite Eg. }
  apply (wp_mono _ (fun _ s => exists lg',
           s = DS 12 lg' w <| ps_ecc := set_cb (fun c => c <| pkcb_func := DevicePubKeyReady |>) MeshCb ECC |>)).
  { apply wp_when; intros _; [run_step|]; eexists; reflexivity. }
  intros _ s [lg' ->]. eapply wp_mono; [apply H|]. clear. intros _ s [lg' ->]. repeat run_step.
  apply wp_when; intros _; [run_step|]; eexists _, _; (split; [reflexivity|]); symmetry; apply app_nil_r.
Qed.

(** ** The steps of the provisioner *)

Definition to_P (j : nat) (outs w : wire) (s : node) : Prop := exists lg w', s = PS j lg w' /\ w' = w ++ outs.

Context (has_elems : elems d0 <> 0).

(** Between the allocation of the node and the choice of the method. *)
Definition caps_state (lg : list prov_event) (w : wire) : node :=
  mkProvState (plink p0 34 (auth (ps_link p0)) z32 PROV_CAPABILITIES z16 z16 z16 z16 (IN 2) z16) (ps_prov p0)
    (prov_dev uuid net_idx addr attention (Some SLOT)) w ((ps_mesh p0) <| tr_cdb := (alloc uuid net_idx addr d0 p0).2 |>)
    (ps_ecc p0) (ps_rands p0) lg.

Lemma method_accepted (l : prov_link) prov :
  oob_method l = method p0 -> prov_check_method l prov (caps_of (m_caps d0)) = true.
Proof.
  intros E. unfold prov_check_method. rewrite E. apply method_cases; [intros ->; done|].
  intros -> _ v Hv _. unfold m_caps, capabilities. rewrite Hv. done.
Qed.

Lemma p_send_start lg w :
  wp (send_start (pe_rand ep)) (fun _ => to_P 2 [WPdu (PROV_START :: m_start p0) (Some StartSent)] w) (caps_state lg w).
Proof.
  unfold send_start. run_step. run_step. unfold id, local_method.
  change (oob_method _) with (method p0). change (oob_action _) with 0. change (oob_size _) with 0.
  change (test_flag REMOTE_PUB_KEY _) with false. cbn [andb]. repeat run_step.
  unfold to_P, P, static_flag, auth_value.
  apply method_cases; [intros M|intros M Ha v Hv Hl]; rewrite M; cbv beta zeta iota delta [Z.eqb AUTH_METHOD_NO_OOB AUTH_METHOD_STATIC AUTH_METHOD_INPUT AUTH_METHOD_OUTPUT Pos.eqb].
  - run_step. apply auth_runs. left. split; [done|]. repeat run_step. unfold inputs, m_start. rewrite M. by eexists _, _.
  - run_step. apply auth_runs. right. split; [done|]. repeat run_step. unfold inputs, m_start. rewrite <- Ha, M. by eexists _, _.
Qed.

Lemma p_caps lg w :
  wp (deliver ep (WPdu (PROV_CAPABILITIES :: m_caps d0) None))
    (fun _ => to_P 2 [WAck None; WPdu (PROV_START :: m_start p0) (Some StartSent)] w) (PS 1 lg w).
Proof.
  destruct entry_ok as (Ea & _).
  unfold deliver. run_step. run_step. eapply (recv_handler ep RoleProvisioner); [reflexivity..|].
  unfold prov_capabilities. change (byte_at (m_caps d0) 0) with (elems d0).
  rewrite (proj2 (Z.eqb_neq _ _)) by exact has_elems. do 4 run_step.
  change (bt_mesh_cdb_node_alloc _ _ _ _ _) with (alloc uuid net_idx addr d0 p0).
  rewrite (surjective_pairing (alloc _ _ _ _ _)), Ea. repeat run_step.
  apply (wp_mono _ (fun _ s => exists lg', s = caps_state lg' (w ++ [WAck None]))).
  { apply wp_when; intros _; [run_step|]; eexists; reflexivity. }
  intros _ s [lg' ->]. repeat run_step. rewrite method_accepted by done. cbn [negb].
  eapply wp_mono; [apply p_send_start|]. intros _ s (lg2 & w2 & -> & ->). eexists _, _. split; [done|]. by rewrite <- app_assoc.
Qed.

Lemma p_start_sent lg w :
  wp (deliver ep (WAck (Some StartSent))) (fun _ => to_P 3 [WPdu (PROV_PUB_KEY :: KP) (Some ProvisionerPublicKeySent)] w)
    (PS 2 lg w).
Proof.
  unfold deliver, send_complete_call, start_sent. repeat run_step.
  change (bt_pub_key_get _) with (bt_pub_key_get (ps_ecc p0)). rewrite (pub_key_get ep priv_p) by done.
  unfold MeshProvisioner.send_pub_key. repeat run_step. change (bt_pub_key_get _) with (bt_pub_key_get (ps_ecc p0)). rewrite (pub_key_get ep priv_p) by done.
  repeat run_step. by eexists _, _.
Qed.

Lemma p_key_sent lg w : wp (deliver ep (WAck (Some ProvisionerPublicKeySent))) (fun _ => to_P 4 [] w) (PS 3 lg w).
Proof.
  unfold deliver, send_complete_call, MeshProvisioner.public_key_sent.
  unfold to_P, P, static_flag. apply method_cases; [intros M|intros M _ v _ _]; rewrite M; repeat run_step;
    eexists _, _; (split; [reflexivity|]); symmetry; apply app_nil_r.
Qed.

Lemma p_pub_key lg w :
  wp (deliver ep (WPdu (PROV_PUB_KEY :: KD) (Some DevicePublicKeySent)))
    (fun _ => to_P 5 [WAck (Some DevicePublicKeySent)] w) (PS 4 lg w).
Proof.
  assert (length KD = 64%nat) as L by by apply length_swap_halves.
  unfold deliver. run_step. run_step. eapply (recv_handler ep RoleProvisioner); [reflexivity..|exact L|].
  unfold MeshProvisioner.prov_pub_key. rewrite take_ge by lia. repeat run_step.
  cbn [bearer_clear_tx wire_bearer]. run_step. unfold MeshProvisioner.prov_dh_key_gen. repeat run_step.
  change (swap_halves _) with (swap_halves (drop 81 (IN 5))). rewrite remote_d.
  apply dh_gen_started; [apply ready_p..|].
  unfold to_P, P, static_flag. apply method_cases; [intros M|intros M _ v _ _]; rewrite M; repeat run_step; by eexists _, _.
Qed.

(** Both ends compute the same key. *)
Lemma p_dh_key lg w :
  wp (dh_complete dh_of ep priv_p) (fun _ => to_P 6 [WPdu (PROV_CONFIRM :: CP) None] w) (PS 5 lg w).
Proof.
  destruct (rand_ready ep priv_p p0 ready_p) as [Hr _].
  eapply dh_answered; [reflexivity..|]. rewrite (take_ge (pub_of priv_d)), dh_agree by (rewrite pub_len; lia).
  unfold dh_key_call, MeshProvisioner.prov_dh_key_cb. do 4 run_step.
  assert (forall f, f = WAIT_STRING \/ f = WAIT_NUMBER \/ f = NOTIFY_INPUT_COMPLETE ->
          test_flag f (ps_link (PS 5 lg w)) = false) as Hq.
  { intros f Hf. unfold test_flag, P, static_flag. apply method_cases; [intros M|intros M _ v _ _]; rewrite M;
      by destruct Hf as [->|[->| ->]]. }
  change (test_flag ?f _) with (test_flag f (ps_link (PS 5 lg w))). rewrite !Hq by auto. cbn [orb].
  unfold MeshProvisioner.send_confirm. run_step. run_step.
  change (bt_mesh_prov_conf_salt _) with (bt_mesh_prov_conf_salt (IN 5)). rewrite c_salt_value. do 2 run_step.
  change (bt_mesh_prov_conf_key _ _) with (bt_mesh_prov_conf_key DH SALT). rewrite c_key_value. repeat run_step.
  change (pe_rand ep _ _) with (pe_rand ep (ps_rands p0) 16). rewrite Hr. repeat run_step.
  change (bt_mesh_prov_conf _ _ _) with (bt_mesh_prov_conf CKEY RP AUTH). rewrite confirm_p_value. repeat run_step.
  by eexists _, _.
Qed.

Lemma p_confirm lg w :
  wp (deliver ep (WPdu (PROV_CONFIRM :: CD) None))
    (fun _ => to_P 8 [WAck None; WPdu (PROV_RANDOM :: RP) None] w) (PS 7 lg w).
Proof.
  assert (length CD = 16%nat) as L by apply length_cmac_value.
  unfold deliver. run_step. run_step. eapply (recv_handler ep RoleProvisioner); [reflexivity..|exact L|].
  unfold MeshProvisioner.prov_confirm, MeshProvisioner.send_random. rewrite take_ge by lia. repeat run_step.
  eexists _, _. split; [reflexivity|]. cbn. by rewrite <- app_assoc.
Qed.

Lemma slot_alloc : exists n, cdb_nodes (alloc uuid net_idx addr d0 p0).2 !! SLOT = Some n.
Proof.
  destruct entry_ok as (_ & He & _). unfold cdb_keyed in He. cbn [cdb_nodes with_nodes] in He.
  rewrite list_lookup_alter_eq in He. destruct (cdb_nodes _ !! SLOT) as [n|]; [by exists n|done].
Qed.

Lemma p_random lg w :
  wp (deliver ep (WPdu (PROV_RANDOM :: RD) None))
    (fun _ => to_P 10 [WAck None; WPdu (PROV_DATA :: DATA) None] w) (PS 9 lg w).
Proof.
  destruct (rand_ready ed priv_d d0 ready_d) as [_ L]. fold RD in L.
  unfold deliver. run_step. run_step. eapply (recv_handler ep RoleProvisioner); [reflexivity..|exact L|].
  unfold MeshProvisioner.prov_random. rewrite take_ge by lia. run_step. run_step.
  match goal with |- context [bool_decide (RD = ?x)] => change x with RP end. rewrite bool_decide_false by auto.
  change (bt_mesh_prov_conf _ _ _) with (bt_mesh_prov_conf CKEY RD AUTH). rewrite confirm_d_value.
  match goal with |- context [bool_decide (CD = ?x)] => change x with CD end. rewrite bool_decide_true by done. cbn [negb].
  change (bt_mesh_prov_salt _ _ _) with (bt_mesh_prov_salt SALT RP RD). rewrite p_salt_value.
  repeat run_step. unfold send_prov_data. run_step. run_step.
  change (bt_mesh_session_key _ _) with (bt_mesh_session_key DH PSALT). rewrite s_key_value.
  change (bt_mesh_prov_nonce _ _) with (bt_mesh_prov_nonce DH PSALT). rewrite s_nonce_value.
  destruct slot_alloc as [n0 Hn0]. destruct entry_ok as (_ & He & Hi & _ & _ & _ & Hs & Hkey & _).
  unfold device_node. repeat run_step. eapply wp_need; [exact Hn0|]. repeat run_step.
  change (bt_mesh_dev_key _ _) with (bt_mesh_dev_key DH PSALT). rewrite device_key_value. repeat run_step.
  eapply wp_need; [exact He|]. repeat run_step. rewrite Hi.
  match goal with |- context [bt_mesh_cdb_subnet_get net_idx ?c] => change c with KEYED end. rewrite Hs.
  repeat run_step. eapply wp_need; [exact Hkey|]. repeat run_step.
  eapply wp_need; [exact (proj1 (proj2 data_opens))|]. cbv iota. repeat run_step.
  eexists _, _. split; [reflexivity|]. cbn. by rewrite <- app_assoc.
Qed.

(** The node is in the database for good, and the application is told. *)
Definition node_added : prov_event := PvNodeAdded net_idx (node_uuid entry) (node_addr entry) (node_num_elem entry).

Lemma p_complete lg w :
  wp (deliver ep (WPdu [PROV_COMPLETE] None))
    (fun _ s => exists lg' w', s = PS 12 lg' w' /\ w' = w ++ [WAck None; WClose PROV_BEARER_LINK_STATUS_SUCCESS] /\
       (pv_node_added (ps_prov p0) = true -> In node_added lg')) (PS 11 lg w).
Proof.
  destruct entry_ok as (_ & He & Hi & _).
  unfold deliver. run_step. run_step. eapply (recv_handler ep RoleProvisioner); [reflexivity..|].
  unfold prov_complete, device_node. repeat run_step. eapply wp_need; [exact He|]. repeat run_step.
  apply (wp_mono _ (fun _ s => s = PS 11 lg (w ++ [WAck None]) <| ps_mesh := (ps_mesh p0) <| tr_cdb := FINAL |> |>)).
  { unfold cdb_final. apply wp_when; intros ->; [run_step|]; reflexivity. }
  intros _ s ->. unfold prov_link_close. repeat run_step. cbn [bearer_link_close wire_bearer]. repeat run_step.
  eapply (wp_need _ entry).
  { unfold cdb_final. destruct (pe_settings ep); exact He. }
  rewrite Hi. apply wp_when; intros Ha; [run_step|]; (eexists _, _; split; [reflexivity|]; split;
    [cbn; by rewrite <- app_assoc|]);
    [|intros Hx; change (pv_node_added (ps_prov p0) = false) in Ha; congruence].
  intros _. cbn. apply in_or_app. right. by left.
Qed.

(** ** The start *)

(** The provisioner is in the network and asks for a device it may provision. *)
Definition provisioner_ready : Prop :=
  pe_pb_adv ep = true /\ pe_provisioner ep = true /\ net_valid (tr_net (ps_mesh p0)) = true /\
  bt_mesh_subnet_get net_idx (net_subnets (tr_net (ps_mesh p0))) <> None.

Context (prov_ok : provisioner_ready) (dev_role : link_role (ps_link d0) = Some RoleDevice).

Lemma idle_fields (l : prov_link) :
  l = idle_link l ->
  link_flags l = 0 /\ dhkey l = z32 /\ conf l = z16 /\ rand l = z16 /\ conf_salt l = z16 /\ conf_key l = z16 /\
  conf_inputs l = replicate 145 0 /\ prov_salt l = z16.
Proof. intros ->. by repeat split. Qed.

(** The link once it is open, with the fields an idle link has kept. *)
Definition opened_link (l : prov_link) (fl ex : Z) (inp : bytes) : prov_link :=
  mkLink fl (Some BT_MESH_PROV_ADV) (link_role l) (oob_method l) (oob_action l) (oob_size l) (auth l) (dhkey l) ex (conf l)
    (rand l) (conf_salt l) (conf_key l) inp (prov_salt l).

Lemma device_opens : wp (prov_link_opened (roles ed 0) BT_MESH_PROV_ADV) (fun _ s => exists lg, s = DS 0 lg []) d0.
Proof.
  destruct ready_d as (_ & _ & _ & _ & _ & _ & Hl & Hb). apply idle_fields in Hl as (F1 & F2 & F3 & F4 & F5 & F6 & F7 & F8).
  unfold prov_link_opened, get_role. repeat run_step.
  apply (wp_mono _ (fun _ s => exists lg,
    s = d0 <| ps_link := (ps_link d0) <| link_flags := Z.setbit (link_flags (ps_link d0)) 1 |> |> <| ps_log := lg |>)).
  { apply wp_when; intros _; [run_step|]; eexists; reflexivity. }
  intros _ s [lg ->]. repeat run_step. eapply wp_need; [exact dev_role|]. repeat run_step.
  cbn [roles role_device ProvDevice.role_device role_link_opened]. unfold ProvDevice.link_opened. run_step. exists lg.
  transitivity (mkProvState (opened_link (ps_link d0) (Z.setbit (link_flags (ps_link d0)) 1) PROV_INVITE
    (conf_inputs (ps_link d0))) (ps_prov d0) (ps_device d0) (ps_bearer d0) (ps_mesh d0) (ps_ecc d0) (ps_rands d0) lg);
    [reflexivity|].
  unfold opened_link. rewrite F1, F2, F3, F4, F5, F6, F7, F8, dev_role, Hb. reflexivity.
Qed.

Lemma provisioner_opens :
  wp (err ← bt_mesh_provision_adv (pe_pb_adv ep) (pe_provisioner ep) uuid net_idx addr attention;
      match err with Some _ => mret err | None => _ ← prov_link_opened (roles ep 0) BT_MESH_PROV_ADV; mret None end)
    (fun err s => err = None /\ exists lg, s = PS 0 lg [WPdu [PROV_INVITE; attention] None]) p0.
Proof.
  destruct prov_ok as (Ha & Hp & Hv & Hs). destruct auth_ready as (A1 & A2 & _).
  destruct ready_p as (_ & _ & _ & _ & _ & _ & Hl & Hb). apply idle_fields in Hl as (F1 & F2 & F3 & F4 & F5 & F6 & F7 & F8).
  unfold bt_mesh_provision_adv, bt_mesh_pb_adv_open. do 3 run_step. rewrite Hv, bool_decide_false, Ha, Hp by done. cbn [negb andb].
  repeat run_step. unfold test_flag. rewrite F1. repeat run_step.
  unfold prov_link_opened, get_role. repeat run_step. cbn [bearer_link_open wire_bearer]. repeat run_step.
  set (st lg := mkProvState ((opened_link (ps_link p0) 34 (expect (ps_link p0)) (conf_inputs (ps_link p0)))
         <| link_role := Some RoleProvisioner |>) (ps_prov p0)
         (prov_dev uuid net_idx addr attention (pd_node (ps_device p0))) (ps_bearer p0) (ps_mesh p0) (ps_ecc p0) (ps_rands p0) lg).
  apply (wp_mono _ (fun _ s => exists lg, s = st lg)).
  { apply wp_when; intros _; [run_step|]; eexists; reflexivity. }
  intros _ s [lg ->]. repeat run_step.
  cbn [roles role_provisioner MeshProvisioner.role_provisioner role_link_opened]. unfold MeshProvisioner.link_opened, send_invite.
  repeat run_step. split; [done|]. exists lg. unfold P, plink, method.
  transitivity (mkProvState ((opened_link (ps_link p0) 34 PROV_CAPABILITIES (memcpy_at 0 [attention] (conf_inputs (ps_link p0))))
    <| link_role := Some RoleProvisioner |>) (ps_prov p0)
    (prov_dev uuid net_idx addr attention (pd_node (ps_device p0))) (ps_bearer p0 ++ [WPdu [PROV_INVITE; attention] None])
    (ps_mesh p0) (ps_ecc p0) (ps_rands p0) lg); [reflexivity|].
  unfold opened_link. rewrite F2, F3, F4, F5, F6, F7, F8, Hb, A1, A2. by destruct (ps_mesh p0).
Qed.

(** ** The two machines

    What each side waits for in its [i]-th state, [None] for the DH key of its own
    controller, and what it sends when that arrives. *)

Definition d_in (i : nat) : option wire_item :=
  match i with
  | 0 => Some (WPdu [PROV_INVITE; attention] None)
  | 1 | 7 | 9 | 11 => Some (WAck None)
  | 2 => Some (WPdu (PROV_START :: m_start p0) (Some StartSent))
  | 3 => Some (WPdu (PROV_PUB_KEY :: KP) (Some ProvisionerPublicKeySent))
  | 5 => Some (WAck (Some DevicePublicKeySent))
  | 6 => Some (WPdu (PROV_CONFIRM :: CP) None)
  | 8 => Some (WPdu (PROV_RANDOM :: RP) None)
  | 10 => Some (WPdu (PROV_DATA :: DATA) None)
  | 12 => Some (WClose PROV_BEARER_LINK_STATUS_SUCCESS)
  | _ => None
  end%nat.

Definition d_out (i : nat) : wire :=
  match i with
  | 0 => [WAck None; WPdu (PROV_CAPABILITIES :: m_caps d0) None]
  | 2 => [WAck (Some StartSent)]
  | 3 => [WAck (Some ProvisionerPublicKeySent)]
  | 4 => [WPdu (PROV_PUB_KEY :: KD) (Some DevicePublicKeySent)]
  | 6 => [WAck None; WPdu (PROV_CONFIRM :: CD) None]
  | 8 => [WAck None; WPdu (PROV_RANDOM :: RD) None]
  | 10 => [WAck None; WPdu [PROV_COMPLETE] None]
  | _ => []
  end%nat.

Definition p_in (j : nat) : option wire_item :=
  match j with
  | 0 | 6 | 8 | 10 => Some (WAck None)
  | 1 => Some (WPdu (PROV_CAPABILITIES :: m_caps d0) None)
  | 2 => Some (WAck (Some StartSent))
  | 3 => Some (WAck (Some ProvisionerPublicKeySent))
  | 4 => Some (WPdu (PROV_PUB_KEY :: KD) (Some DevicePublicKeySent))
  | 7 => Some (WPdu (PROV_CONFIRM :: CD) None)
  | 9 => Some (WPdu (PROV_RANDOM :: RD) None)
  | 11 => Some (WPdu [PROV_COMPLETE] None)
  | _ => None
  end%nat.

Definition p_out (j : nat) : wire :=
  match j with
  | 1 => [WAck None; WPdu (PROV_START :: m_start p0) (Some StartSent)]
  | 2 => [WPdu (PROV_PUB_KEY :: KP) (Some ProvisionerPublicKeySent)]
  | 4 => [WAck (Some DevicePublicKeySent)]
  | 5 => [WPdu (PROV_CONFIRM :: CP) None]
  | 7 => [WAck None; WPdu (PROV_RANDOM :: RP) None]
  | 9 => [WAck None; WPdu (PROV_DATA :: DATA) None]
  | 11 => [WAck None; WClose PROV_BEARER_LINK_STATUS_SUCCESS]
  | _ => []
  end%nat.

Definition told (j : nat) (lg : list prov_event) : Prop := j = 12%nat -> pv_node_added (ps_prov p0) = true -> In node_added lg.

Lemma ack_d i lg w : DS i = DS (S i) -> wp (deliver ed (WAck None)) (fun _ => to_D (S i) [] w) (DS i lg w).
Proof. intros E. cbn [deliver]. run_step. rewrite E. eexists _, _. split; [reflexivity|]. symmetry. apply app_nil_r. Qed.

Lemma ack_p i lg w : PS i = PS (S i) -> wp (deliver ep (WAck None)) (fun _ => to_P (S i) [] w) (PS i lg w).
Proof. intros E. cbn [deliver]. run_step. rewrite E. eexists _, _. split; [reflexivity|]. symmetry. apply app_nil_r. Qed.

Lemma d_step i it lg w : d_in i = Some it -> wp (deliver ed it) (fun _ => to_D (S i) (d_out i) w) (DS i lg w).
Proof.
  do 13 try destruct i as [|i]; intros [= <-]; cbn [d_out].
  - apply d_invite.
  - by apply ack_d.
  - apply d_start.
  - apply d_pub_key.
  - apply d_key_sent.
  - apply d_confirm.
  - by apply ack_d.
  - apply d_random.
  - by apply ack_d.
  - apply d_data.
  - by apply ack_d.
  - apply d_close.
Qed.

Lemma p_step j it lg w :
  p_in j = Some it ->
  wp (deliver ep it) (fun _ s => exists lg' w', s = PS (S j) lg' w' /\ w' = w ++ p_out j /\ told (S j) lg') (PS j lg w).
Proof.
  assert (forall m j w s, j <> 12%nat -> wp m (fun _ => to_P j (p_out (pred j)) w) s ->
    wp m (fun (_ : unit) s => exists lg' w', s = PS j lg' w' /\ w' = w ++ p_out (pred j) /\ told j lg') s) as K.
  { intros m j' w' s Hj H. eapply wp_mono; [exact H|]. intros _ s' (lg' & w2 & -> & ->). exists lg', (w' ++ p_out (pred j')).
    split; [done|]. split; [done|]. by intros E. }
  do 12 try destruct j as [|j]; intros [= <-];
    [apply (K _ 1%nat)|apply (K _ 2%nat)|apply (K _ 3%nat)|apply (K _ 4%nat)|apply (K _ 5%nat)|apply (K _ 7%nat)
    |apply (K _ 8%nat)|apply (K _ 9%nat)|apply (K _ 10%nat)|apply (K _ 11%nat)|]; try done; cbn [p_out pred].
  - by apply ack_p.
  - apply p_caps.
  - apply p_start_sent.
  - apply p_key_sent.
  - apply p_pub_key.
  - by apply ack_p.
  - apply p_confirm.
  - by apply ack_p.
  - apply p_random.
  - by apply ack_p.
  - eapply wp_mono; [apply p_complete|]. intros _ s (lg' & w' & -> & -> & H). exists lg'. eexists.
    split; [done|]. split; [done|]. intros _. exact H.
Qed.

(** ** All interleavings *)

(** Everything sent so far, and how much of it has been taken from the queue. *)
Definition sent_d (i : nat) : wire := concat (map d_out (seq 0 i)).
Definition sent_p (j : nat) : wire := WPdu [PROV_INVITE; attention] None :: concat (map p_out (seq 0 j)).
Definition taken_d (i : nat) : nat := if (i <=? 4)%nat then i else pred i.
Definition taken_p (j : nat) : nat := if (j <=? 5)%nat then j else pred j.

(** The lengths of what was sent. *)
Definition len_d (i : nat) : nat := nth i [0; 2; 2; 3; 4; 5; 5; 7; 7; 9; 9; 11; 11; 11]%nat 0%nat.
Definition len_p (j : nat) : nat := nth j [1; 1; 3; 4; 4; 5; 6; 6; 8; 8; 10; 10; 12]%nat 0%nat.

Lemma len_sent_d i : (i <= 13)%nat -> length (sent_d i) = len_d i.
Proof. intros H. do 14 try destruct i as [|i]; reflexivity || lia. Qed.

Lemma len_sent_p j : (j <= 12)%nat -> length (sent_p j) = len_p j.
Proof. intros H. do 13 try destruct j as [|j]; reflexivity || lia. Qed.

Lemma sent_d_S i : sent_d (S i) = sent_d i ++ d_out i.
Proof. unfold sent_d. rewrite seq_S, map_app, concat_app. cbn. by rewrite app_nil_r. Qed.

Lemma sent_p_S j : sent_p (S j) = sent_p j ++ p_out j.
Proof. unfold sent_p. rewrite seq_S, map_app, concat_app. cbn. by rewrite app_nil_r. Qed.

Lemma sent_d_prefix i k : sent_d i `prefix_of` sent_d (i + k).
Proof.
  induction k as [|k IH]; [by rewrite Nat.add_0_r|]. rewrite Nat.add_succ_r, sent_d_S. by apply prefix_app_r.
Qed.

Lemma sent_p_prefix j k : sent_p j `prefix_of` sent_p (j + k).
Proof.
  induction k as [|k IH]; [by rewrite Nat.add_0_r|]. rewrite Nat.add_succ_r, sent_p_S. by apply prefix_app_r.
Qed.

(** The [n]-th state of a session: the two sides have made [i] and [j] steps. *)
Definition session_at (n : nat) (s : node * node) : Prop :=
  exists i j lgd lgp, (i + j = n)%nat /\ (i <= 13)%nat /\ (j <= 12)%nat /\
    (taken_p j <= len_d i)%nat /\ (taken_d i <= len_p j)%nat /\
    s = (DS i lgd (drop (taken_p j) (sent_d i)), PS j lgp (drop (taken_d i) (sent_p j))) /\ told j lgp.

(** The next item of a queue is the one its receiver waits for. *)
Lemma next_for_d i j it rest :
  (i <= 13)%nat -> (j <= 12)%nat -> (taken_p j <= len_d i)%nat ->
  drop (taken_d i) (sent_p j) = it :: rest -> d_in i = Some it /\ (taken_d i < len_p j)%nat.
Proof.
  intros Hi Hj Hp Hd.
  assert (sent_p j !! taken_d i = Some it) as Hl.
  { pose proof (lookup_drop (sent_p j) (taken_d i) 0) as X. rewrite Hd, Nat.add_0_r in X. exact (eq_sym X). }
  pose proof (lookup_lt_Some _ _ _ Hl) as Hlt. rewrite len_sent_p in Hlt by done. split; [|done].
  pose proof (prefix_lookup_Some _ _ _ _ Hl (sent_p_prefix j (12 - j))) as Hf.
  replace (j + (12 - j))%nat with 12%nat in Hf by lia.
  destruct (decide (i = 4%nat)) as [->|]; [|destruct (decide (i = 13%nat)) as [->|]].
  - exfalso. revert Hp Hlt. clear - Hj. do 13 try destruct j as [|j]; cbn; lia.
  - done.
  - rewrite <- Hf. clear - Hi n n0. do 14 try destruct i as [|i]; reflexivity || lia.
Qed.

Lemma next_for_p i j it rest :
  (i <= 13)%nat -> (j <= 12)%nat -> (taken_d i <= len_p j)%nat ->
  drop (taken_p j) (sent_d i) = it :: rest -> p_in j = Some it /\ (taken_p j < len_d i)%nat.
Proof.
  intros Hi Hj Hp Hd.
  assert (sent_d i !! taken_p j = Some it) as Hl.
  { pose proof (lookup_drop (sent_d i) (taken_p j) 0) as X. rewrite Hd, Nat.add_0_r in X. exact (eq_sym X). }
  pose proof (lookup_lt_Some _ _ _ Hl) as Hlt. rewrite len_sent_d in Hlt by done. split; [|done].
  pose proof (prefix_lookup_Some _ _ _ _ Hl (sent_d_prefix i (13 - i))) as Hf.
  replace (i + (13 - i))%nat with 13%nat in Hf by lia.
  destruct (decide (j = 5%nat)) as [->|]; [|destruct (decide (j = 12%nat)) as [->|]].
  - exfalso. revert Hp Hlt. clear - Hi. do 14 try destruct i as [|i]; cbn; lia.
  - done.
  - rewrite <- Hf. clear - Hj n n0. do 13 try destruct j as [|j]; reflexivity || lia.
Qed.

Lemma bearer_d i lg w : ps_bearer (DS i lg w) = w.
Proof. do 13 try destruct i as [|i]; reflexivity. Qed.

Lemma bearer_p j lg w : ps_bearer (PS j lg w) = w.
Proof. do 12 try destruct j as [|j]; reflexivity. Qed.

Lemma set_bearer_d i lg w w' : DS i lg w <| ps_bearer := w' |> = DS i lg w'.
Proof. do 13 try destruct i as [|i]; reflexivity. Qed.

Lemma set_bearer_p j lg w w' : PS j lg w <| ps_bearer := w' |> = PS j lg w'.
Proof. do 12 try destruct j as [|j]; reflexivity. Qed.

Lemma dh_idle_d i lg w : i <> 4%nat -> dh_key_cb (ps_ecc (DS i lg w)) = None.
Proof.
  intros N. assert (dh_key_cb (ps_ecc d0) = None) as H by apply ready_d.
  do 13 try destruct i as [|i]; try exact H; try done.
  change (dh_key_cb (ecc_closed ed pub_of priv_p d0) = None). unfold ecc_closed.
  edestruct pub_key_gen_runs as (err & ec & -> & ->). done.
Qed.

Lemma dh_idle_p j lg w : j <> 5%nat -> dh_key_cb (ps_ecc (PS j lg w)) = None.
Proof.
  intros N. assert (dh_key_cb (ps_ecc p0) = None) as H by apply ready_p.
  do 12 try destruct j as [|j]; try exact H; done.
Qed.

Lemma in_d_bound i it : d_in i = Some it -> (S i <= 13)%nat /\ taken_d (S i) = S (taken_d i).
Proof. do 13 try destruct i as [|i]; intros [= <-]; cbn; lia. Qed.

Lemma in_p_bound j it : p_in j = Some it -> (S j <= 12)%nat /\ taken_p (S j) = S (taken_p j).
Proof. do 12 try destruct j as [|j]; intros [= <-]; cbn; lia. Qed.

(** Sending appends to what the other side has not taken yet. *)
Lemma queue_d i k : (S i <= 13)%nat -> (k <= len_d i)%nat ->
  drop k (sent_d i) ++ d_out i = drop k (sent_d (S i)) /\ (len_d i <= len_d (S i))%nat.
Proof.
  intros Hi Hk. rewrite <- len_sent_d in Hk by lia. rewrite sent_d_S, drop_app_le by done. split; [done|].
  rewrite <- !len_sent_d, sent_d_S, length_app by lia. lia.
Qed.

Lemma queue_p j k : (S j <= 12)%nat -> (k <= len_p j)%nat ->
  drop k (sent_p j) ++ p_out j = drop k (sent_p (S j)) /\ (len_p j <= len_p (S j))%nat.
Proof.
  intros Hj Hk. rewrite <- len_sent_p in Hk by lia. rewrite sent_p_S, drop_app_le by done. split; [done|].
  rewrite <- !len_sent_p, sent_p_S, length_app by lia. lia.
Qed.

Lemma drop_rest {A : Type} k (l : list A) it rest : drop k l = it :: rest -> rest = drop (S k) l.
Proof. intros H. rewrite <- Nat.add_1_r, <- drop_drop, H. done. Qed.

Abbreviation STEP := (session_step ed ep dh_of priv_d priv_p).

Lemma step_at n s s' : session_at n s -> STEP s s' -> session_at (S n) s'.
Proof.
  intros (i & j & lgd & lgp & <- & Hi & Hj & Tp & Td & -> & Ht) Hs.
  inversion Hs as [d d' p it rest Hb E|d p p' it rest Hb E|d d' p Hc E|d p p' Hc E]; subst; clear Hs.
  - rewrite bearer_p in Hb. destruct (next_for_d i j it rest Hi Hj Tp Hb) as [Hin Hlt].
    destruct (in_d_bound i it Hin) as [Hi' Ht']. destruct (wp_run _ _ _ _ _ (d_step i it _ _ Hin) E) as (lg & w & -> & ->).
    destruct (queue_d i (taken_p j) Hi' Tp) as [-> Hm]. rewrite set_bearer_p, (drop_rest _ _ _ _ Hb), <- Ht'.
    exists (S i), j, lg, lgp. rewrite Ht'. repeat (split; [lia||done|]). done.
  - rewrite bearer_d in Hb. destruct (next_for_p i j it rest Hi Hj Td Hb) as [Hin Hlt].
    destruct (in_p_bound j it Hin) as [Hj' Ht']. destruct (wp_run _ _ _ _ _ (p_step j it _ _ Hin) E) as (lg & w & -> & -> & Ht2).
    destruct (queue_p j (taken_d i) Hj' Td) as [-> Hm]. rewrite set_bearer_d, (drop_rest _ _ _ _ Hb), <- Ht'.
    exists i, (S j), lgd, lg. rewrite Ht'. repeat (split; [lia||done|]). done.
  - destruct (decide (i = 4%nat)) as [->|N]; [|by rewrite dh_idle_d in Hc].
    destruct (wp_run _ _ _ _ _ (d_dh_key _ _) E) as (lg & w & -> & ->).
    destruct (queue_d 4 (taken_p j) ltac:(lia) Tp) as [Eq Hm]. unfold d_out in Eq. rewrite Eq.
    exists 5%nat, j, lg, lgp. repeat (split; [lia||done|]). done.
  - destruct (decide (j = 5%nat)) as [->|N]; [|by rewrite dh_idle_p in Hc].
    destruct (wp_run _ _ _ _ _ (p_dh_key _ _) E) as (lg & w & -> & ->).
    destruct (queue_p 5 (taken_d i) ltac:(lia) Td) as [Eq Hm]. unfold p_out in Eq. rewrite Eq.
    exists i, 6%nat, lgd, lg. repeat (split; [lia||done|]). done.
Qed.

(** Both queues empty and no key awaited: the session is over. *)
Lemma quiescent i j :
  (i <= 13)%nat -> (j <= 12)%nat -> (len_p j <= taken_d i)%nat -> (len_d i <= taken_p j)%nat -> i <> 4%nat -> j <> 5%nat ->
  i = 13%nat /\ j = 12%nat.
Proof. do 14 try destruct i as [|i]; do 13 try destruct j as [|j]; cbn; lia. Qed.

(** Whatever is at the head of a queue can be handled. *)
Definition heads_defined (s : node * node) : Prop :=
  (forall it, head (ps_bearer s.2) = Some it -> is_Some (deliver ed it s.1)) /\
  (forall it, head (ps_bearer s.1) = Some it -> is_Some (deliver ep it s.2)).

Lemma defined_at n s : session_at n s -> heads_defined s.
Proof.
  intros (i & j & lgd & lgp & _ & Hi & Hj & Tp & Td & -> & _). unfold heads_defined. cbn [fst snd]. split; intros it.
  - rewrite bearer_p. destruct (drop (taken_d i) (sent_p j)) as [|it' rest] eqn:Hd; [done|]. intros [= ->].
    destruct (next_for_d i j it rest Hi Hj Tp Hd) as [Hin _].
    destruct (d_step i it lgd (drop (taken_p j) (sent_d i)) Hin) as (a & s' & -> & _). by eexists.
  - rewrite bearer_d. destruct (drop (taken_p j) (sent_d i)) as [|it' rest] eqn:Hd; [done|]. intros [= ->].
    destruct (next_for_p i j it rest Hi Hj Td Hd) as [Hin _].
    destruct (p_step j it lgp (drop (taken_d i) (sent_p j)) Hin) as (a & s' & -> & _). by eexists.
Qed.

Lemma progress_at n s :
  session_at n s -> (exists s', STEP s s') \/ exists lgd lgp, n = 25%nat /\ s = (DS 13 lgd [], PS 12 lgp []) /\ told 12 lgp.
Proof.
  intros (i & j & lgd & lgp & <- & Hi & Hj & Tp & Td & -> & Ht).
  destruct (drop (taken_d i) (sent_p j)) as [|it rest] eqn:Hd.
  2: { left. destruct (next_for_d i j it rest Hi Hj Tp Hd) as [Hin _].
       destruct (d_step i it lgd (drop (taken_p j) (sent_d i)) Hin) as ([] & s' & E & _).
       eexists. eapply ToDevice; [apply bearer_p|exact E]. }
  destruct (drop (taken_p j) (sent_d i)) as [|it rest] eqn:Hp.
  2: { left. destruct (next_for_p i j it rest Hi Hj Td Hp) as [Hin _].
       destruct (p_step j it lgp [] Hin) as ([] & s' & E & _).
       eexists. eapply ToProvisioner; [apply bearer_d|exact E]. }
  destruct (decide (i = 4%nat)) as [->|N4].
  { left. destruct (d_dh_key lgd []) as ([] & s' & E & _). eexists. eapply DeviceKey; [|exact E]. done. }
  destruct (decide (j = 5%nat)) as [->|N5].
  { left. destruct (p_dh_key lgp []) as ([] & s' & E & _). eexists. eapply ProvisionerKey; [|exact E]. done. }
  right. apply (f_equal length) in Hd, Hp. rewrite length_drop in Hd, Hp. rewrite len_sent_p in Hd by done.
  rewrite len_sent_d in Hp by done. cbn [length] in Hd, Hp.
  destruct (quiescent i j Hi Hj ltac:(lia) ltac:(lia) N4 N5) as [-> ->]. by exists lgd, lgp.
Qed.

Lemma session_starts :
  exists s0, session_start ed ep uuid net_idx addr attention d0 p0 = Some s0 /\ session_at 0 s0.
Proof.
  destruct device_opens as ([] & d & Ed & lgd & ->). destruct provisioner_opens as (err & p & Ep & -> & lgp & ->).
  exists (DS 0 lgd [], PS 0 lgp [WPdu [PROV_INVITE; attention] None]). split.
  - unfold session_start. rewrite Ed. apply bind_inv in Ep as (err & p & E1 & E2).
    cbn [mbind option_bind]. rewrite E1. destruct err as [err|]; [done|].
    apply bind_inv in E2 as ([] & p' & E2 & [= ->]). cbn [mbind option_bind]. by rewrite E2.
  - exists 0%nat, 0%nat, lgd, lgp. repeat (split; [lia||done|]). split; [cbn; lia|]. split; [done|]. by intros E.
Qed.

Lemma runs_at n s s' k : nsteps STEP n s s' -> session_at k s -> session_at (k + n) s'.
Proof.
  intros H. revert k. induction H as [s|n s s1 s2 Hs Hn IH]; intros k Hk; [by rewrite Nat.add_0_r|].
  rewrite Nat.add_succ_r. apply (IH (S k)), (step_at k s); done.
Qed.
End Runs.

(** ** Agreement *)

Section Agreement.
Context {ecb : Ecb} {ecb_ok : EcbOk} {cmac : Cmac} {cmac_ok : CmacOk} (ed ep : prov_conf_env).
Context {G : Type} {friend : FriendOps (mesh G)}.
Context (pub_of : bytes -> bytes) (dh_of : bytes -> bytes -> bytes) (priv_d priv_p : bytes).
Context (uuid : bytes) (net_idx addr attention : Z).

Abbreviation node := (prov_state G wire).

Context (d0 p0 : node) (sub : bt_mesh_cdb_subnet) (net_key : bytes).

Local Abbreviation CDB := (tr_cdb (ps_mesh p0)).

(** The database of the provisioner is consistent, has room for the node under the address
    asked for, and holds the key of the subnet. *)
Definition database_ready : Prop :=
  cdb_wf CDB /\ is_u16 addr /\ (alloc uuid net_idx addr d0 p0).1 <> None /\ is_u16 net_idx /\ net_idx <> BT_MESH_KEY_UNUSED /\
  (bt_mesh_cdb_subnet_get net_idx CDB ≫= fun j => cdb_subnets CDB !! j) = Some sub /\
  Cdb.sub_keys sub !! (if sub_kr_flag sub then 1 else 0)%nat = Some net_key /\ length net_key = 16%nat /\
  is_u32 (cdb_iv_index CDB).

(** The two nodes before the session. *)
Record session_setup : Prop := {
  setup_auth : same_auth d0 p0;
  setup_host_d : host_ready pub_of ed priv_d d0;
  setup_host_p : host_ready pub_of ep priv_p p0;
  setup_rands : rand_p ep p0 <> rand_d ed d0;
  setup_fresh : fresh_device ed d0;
  setup_role : link_role (ps_link d0) = Some RoleDevice;
  setup_prov : provisioner_ready ep net_idx p0;
  setup_cdb : database_ready;
}.

(** The device is in the network of the provisioner's database, under the address and with
    the device key that the database has for it. *)
Definition agreed (d p : node) : Prop :=
  exists i n, cdb_nodes (tr_cdb (ps_mesh p)) !! i = Some n /\
    node_uuid n = take 16 uuid /\ node_net_idx n = net_idx /\ node_num_elem n = elems d0 /\
    (addr <> 0 -> node_addr n = addr) /\ BT_MESH_ADDR_IS_UNICAST (node_addr n) = true /\
    node_dev_key n = tr_dev_key (ps_mesh d) /\
    provisioned_with (pe_proxy ed) net_key net_idx (bt_mesh_cdb_subnet_flags (Some sub) CDB) (cdb_iv_index CDB)
      (node_addr n) (node_dev_key n) (ps_mesh d) /\
    (pv_node_added (ps_prov p) = true -> In (PvNodeAdded net_idx (take 16 uuid) (node_addr n) (elems d0)) (ps_log p)).

(** The entry the database has for the device in the end. *)
Lemma entry_of_setup dev_key :
  database_ready ->
  exists i n, alloc uuid net_idx addr d0 p0 = (Some i, (alloc uuid net_idx addr d0 p0).2) /\
    cdb_nodes (with_nodes (alter (set_dev_key dev_key) i) (alloc uuid net_idx addr d0 p0).2) !! i = Some n /\
    node_uuid n = take 16 uuid /\ node_net_idx n = net_idx /\ node_num_elem n = elems d0 /\ node_dev_key n = dev_key /\
    (addr <> 0 -> node_addr n = addr) /\ 1 <= node_addr n < 32768 /\ elems d0 <> 0 /\
    cdb_subnets (alloc uuid net_idx addr d0 p0).2 = cdb_subnets CDB /\
    cdb_flags (alloc uuid net_idx addr d0 p0).2 = cdb_flags CDB /\
    cdb_iv_index (alloc uuid net_idx addr d0 p0).2 = cdb_iv_index CDB.
Proof.
  intros (Hwf & Ha & Hal & _). revert Hal. unfold alloc. rewrite node_alloc_unfold.
  destruct (alloc_addr CDB addr (elems d0)) as [a|] eqn:EA; [|done].
  destruct (find_index _ _) as [i|] eqn:EF; [|done]. intros _. cbn [fst snd].
  apply find_index_Some in EF as [(n0 & Hn0 & _) _].
  assert (0 <= elems d0 <= 255) as Hk by (pose proof (u8_range (Z.of_nat (length (comp_elem (net_comp (tr_net (ps_mesh d0)))))));
    unfold elems, is_u8 in *; lia).
  destruct (alloc_addr_free CDB addr (elems d0) a Hwf Ha Hk EA) as (P1 & P2 & P3 & _).
  exists i, (set_dev_key dev_key (fresh_node (take 16 uuid) a (elems d0) net_idx n0)). split; [done|].
  split. { cbn [cdb_nodes with_nodes]. by rewrite !list_lookup_alter_eq, Hn0. }
  repeat split; try done; cbn; try lia.
  intros N. unfold alloc_addr in EA. rewrite (proj2 (Z.eqb_neq _ _)) in EA by exact N.
  destruct (addr_is_free _ _ _); try done. by injection EA.
Qed.

Local Abbreviation DEVKEY := (device_key ed ep pub_of dh_of priv_d priv_p attention d0 p0).
Local Abbreviation ENTRY := (entry_ready ed ep pub_of dh_of priv_d priv_p uuid net_idx addr attention d0 p0).

Lemma setup_entry :
  database_ready ->
  exists n, ENTRY n sub net_key /\
    node_uuid n = take 16 uuid /\ node_net_idx n = net_idx /\ node_num_elem n = elems d0 /\ node_dev_key n = DEVKEY /\
    (addr <> 0 -> node_addr n = addr) /\ 1 <= node_addr n < 32768 /\ elems d0 <> 0.
Proof.
  intros Sc. destruct (entry_of_setup DEVKEY Sc) as (i & n & Eal & Hn & N1 & N2 & N3 & N4 & N5 & N6 & Hel & C1 & C2 & C3).
  destruct Sc as (_ & _ & _ & Hu & Hx & Hs & Hk & Hl & Hv).
  assert (slot uuid net_idx addr d0 p0 = i) as Hslot by (unfold slot; by rewrite Eal).
  exists n. split; [|done]. unfold entry_ready, cdb_keyed. rewrite Hslot. split; [by rewrite Eal|]. split; [exact Hn|].
  split; [done|]. split; [done|]. split; [done|]. split; [unfold is_u16; lia|].
  unfold bt_mesh_cdb_subnet_get. cbn [cdb_subnets with_nodes cdb_iv_index]. rewrite C1, C3. done.
Qed.

(** The last states of the two sides. *)
Lemma final_agreed n lgd lgp :
  (forall key sg, exists mac, bt_mesh_aes_cmac key sg = inr mac) -> fresh_device ed d0 -> database_ready ->
  ENTRY n sub net_key -> node_uuid n = take 16 uuid -> node_num_elem n = elems d0 -> node_dev_key n = DEVKEY ->
  (addr <> 0 -> node_addr n = addr) -> 1 <= node_addr n < 32768 -> told net_idx p0 n 12 lgp ->
  agreed (D ed ep pub_of dh_of priv_d priv_p uuid net_idx addr attention d0 p0 n sub net_key 13 lgd [])
    (P ed ep pub_of dh_of priv_d priv_p uuid net_idx addr attention d0 p0 12 lgp []).
Proof.
  intros Ht Hf Sc He N1 N3 N4 N5 N6 Hin.
  pose proof (proj2 (device_provisioned _ _ _ _ _ _ _ _ _ _ _ _ _ _ _ Ht Hf He)) as Hp.
  destruct (entry_of_setup DEVKEY Sc) as (_ & _ & _ & _ & _ & _ & _ & _ & _ & _ & _ & _ & C2 & C3).
  pose proof He as (_ & Hn & N2 & _).
  unfold flags, cdb_keyed, bt_mesh_cdb_subnet_flags in Hp. cbn [cdb_iv_index cdb_flags with_nodes] in Hp. rewrite C2, C3 in Hp.
  assert (tr_dev_key (device_mesh ed ep pub_of dh_of priv_d priv_p uuid net_idx addr attention d0 p0 n sub net_key) = DEVKEY) as Hk.
  { destruct Hp as (_ & _ & _ & _ & _ & -> & _). apply take_ge. unfold device_key, bt_mesh_dev_key. by rewrite (k1_length _ _ _ _ (k1_value Ht _ _ _)). }
  exists (slot uuid net_idx addr d0 p0), n. split.
  { cbn [P ps_mesh]. change (cdb_nodes (cdb_final ed ep pub_of dh_of priv_d priv_p uuid net_idx addr attention d0 p0)
      !! slot uuid net_idx addr d0 p0 = Some n). unfold cdb_final. by destruct (pe_settings ep). }
  split; [done|]. split; [done|]. split; [done|]. split; [done|].
  split; [unfold BT_MESH_ADDR_IS_UNICAST; apply andb_true_iff; split; zbool; lia|].
  split; [by rewrite N4|]. split; [rewrite N4; exact Hp|].
  intros Ha. specialize (Hin eq_refl Ha). unfold node_added in Hin. by rewrite N1, N3 in Hin.
Qed.

(** C2: Two nodes that run this stack agree on the outcome of a provisioning session.
    A provisioner in the network opens a link to a fresh device, without out-of-band
    data or with a static value both have.  PDUs and acknowledgements arrive in the
    order they were sent, but the two directions and the two controllers' DH keys may
    interleave in any way.  No arrival is undefined behaviour, no session has more than
    25 steps, and a session that can make no further step has succeeded: the device is
    provisioned with the network key, key refresh and IV update flags and IV index of
    the provisioner's database, under the unicast address the database has for it (the
    one asked for, if one was), the device key in the database is the one the device
    holds, and the provisioner's application has been told. *)
Theorem provisioning_agreement :
  (forall key sg, exists mac, bt_mesh_aes_cmac key sg = inr mac) ->
  (forall a b, dh_of a (pub_of b) = dh_of b (pub_of a)) -> (forall a, length (pub_of a) = 64%nat) ->
  session_setup ->
  exists s0, session_start ed ep uuid net_idx addr attention d0 p0 = Some s0 /\
    forall n s, nsteps (session_step ed ep dh_of priv_d priv_p) n s0 s ->
      (n <= 25)%nat /\ heads_defined ed ep s /\
      ((exists s', session_step ed ep dh_of priv_d priv_p s s') \/ agreed s.1 s.2).
Proof.
  intros Ht Hdh Hpub [Sa Sd Sp Sr Sf Srole Sprov Sc].
  destruct (setup_entry Sc) as (n & He & N1 & N2 & N3 & N4 & N5 & N6 & Hel).
  destruct (session_starts ed ep pub_of dh_of priv_d priv_p uuid net_idx addr attention d0 p0 n sub net_key Sa Sd Sp Sprov Srole)
    as (s0 & E0 & I0).
  exists s0. split; [exact E0|]. intros k s Hn.
  pose proof (runs_at _ _ _ _ _ _ _ _ _ _ _ _ _ _ _ Ht Hdh Hpub Sa Sd Sp Sr Sf He Hel k s0 s 0 Hn I0) as Ik.
  split; [by destruct Ik as (i & j & _ & _ & E & Hi & Hj & _); lia|].
  split; [exact (defined_at _ _ _ _ _ _ _ _ _ _ _ _ _ _ _ Ht Hpub Sa Sd Sp Sr Sf He Hel _ s Ik)|].
  destruct (progress_at _ _ _ _ _ _ _ _ _ _ _ _ _ _ _ Ht Hdh Hpub Sa Sd Sp Sr Sf He Hel _ s Ik) as [Hs|(lgd & lgp & _ & -> & Hin)];
    [by left|right]. by apply final_agreed.
Qed.
End Agreement.

(** ** An example *)

(** The provisioner of the example: in the network, with a fresh database. *)
Definition provisioner_example (pub_key : bytes) : prov_state unit wire :=
  mkProvState link_zero prov_example (mkDevice None 0 0 0 (replicate 16 0)) []
    ((trans_zero (mesh_zero tt) (node_example 1 0 false subnet_example) (mkApps [] []))
       <| tr_cdb := (bt_mesh_cdb_create (seqZ 1 16) (bt_mesh_cdb_init 3 3 3)).2 |>)
    (ecc_example pub_key) 0 [].

(** A key exchange in which both sides get the same product. *)
Definition toy_pub (priv : bytes) : bytes := replicate 64 (byte_at priv 0).
Definition toy_dh (priv pub : bytes) : bytes := replicate 32 (byte_at priv 0 * byte_at pub 0).

Definition cdb_subnet_example : bt_mesh_cdb_subnet :=
  default Cdb.empty_subnet (cdb_subnets (bt_mesh_cdb_create (seqZ 1 16) (bt_mesh_cdb_init 3 3 3)).2 !! 0%nat).

Lemma provisioning_agreement_witness :
  let ed := prov_env_example true 0 in
  let ep := prov_env_example false 100 in
  let d0 := device_example (toy_pub [3]) in
  let p0 := provisioner_example (toy_pub [4]) in
  exists s0, @session_start toy_ecb toy_cmac ed ep unit (seqZ 200 16) 0 2 5 d0 p0 = Some s0 /\
    forall n s, nsteps (@session_step toy_ecb toy_cmac ed ep unit toy_dh [3] [4]) n s0 s ->
      (n <= 25)%nat /\ @heads_defined toy_ecb toy_cmac ed ep unit s /\
      ((exists s', @session_step toy_ecb toy_cmac ed ep unit toy_dh [3] [4] s s') \/
       @agreed toy_cmac ed unit (seqZ 200 16) 0 2 d0 p0 cdb_subnet_example (seqZ 1 16) s.1 s.2).
Proof.
  apply (@provisioning_agreement toy_ecb toy_ecb_ok toy_cmac toy_cmac_ok (prov_env_example true 0)
           (prov_env_example false 100) unit toy_pub toy_dh [3] [4] (seqZ 200 16) 0 2 5 (device_example (toy_pub [3]))
           (provisioner_example (toy_pub [4])) cdb_subnet_example (seqZ 1 16)).
  - exact toy_cmac_total.
  - intros a b. unfold toy_dh. change (byte_at (toy_pub b) 0) with (byte_at b 0).
    change (byte_at (toy_pub a) 0) with (byte_at a 0). by rewrite Z.mul_comm.
  - intros a. apply length_replicate.
  - split.
    + split; [done|]. split; [done|]. by left.
    + do 5 (split; [done|]). split; [by eexists|]. done.
    + do 5 (split; [done|]). split; [by eexists|]. done.
    + by vm_compute.
    + split; [done|]. split; [done|]. by exists 1%nat.
    + done.
    + split; [done|]. split; [done|]. split; [done|]. by vm_compute.
    + split; [apply cdb_wf_create, cdb_wf_init|]. split; [unfold is_u16; lia|]. split; [by vm_compute|].
      split; [unfold is_u16; lia|]. split; [by vm_compute|]. split; [by vm_compute|]. split; [by vm_compute|]. split; [done|].
      vm_compute. split; congruence.
Defined.
