(* ===== verification/PbAdv.v ===== *)
(** * The advertising bearer of provisioning (subsys/bluetooth/mesh/pb_adv.c)

    Links, transactions and their segments.  A transaction carries one provisioning PDU
    in up to three packets; it is repeated until the other side acknowledges it.  The
    functions the provisioning layer calls work on the bearer's own state; the ones that
    call the provisioning layer back work on the state that contains it. *)

From S2P Require Import Prelude ByteOrder MeshDefs Cdb NetBuf Access Rpl Ccm MeshCrypto Subnet AppKeys Net Transport Mesh Heartbeat SecureBeacon Cfg Main Ecc Prov.

(** ** Constants and data *)

Definition GPCF (gpc : Z) : Z := Z.land gpc 3.
Definition GPC_START (last_seg : Z) : Z := u8 (Z.shiftl last_seg 2).
Definition GPC_ACK : Z := 1.
Definition GPC_CONT (seg_id : Z) : Z := u8 (Z.lor (Z.shiftl seg_id 2) 2).
Definition GPC_CTL (op : Z) : Z := u8 (Z.lor (Z.shiftl op 2) 3).

(** [START_LAST_SEG], [CONT_SEG_INDEX] and [BEARER_CTL] *)
Definition gpc_arg (gpc : Z) : Z := Z.shiftr gpc 2.

Definition START_PAYLOAD_MAX : Z := 20.
Definition CONT_PAYLOAD_MAX : Z := 23.
Definition LINK_OPEN : Z := 0.
Definition LINK_ACK : Z := 1.
Definition LINK_CLOSE : Z := 2.
Definition XACT_ID_MAX : Z := 127.
Definition XACT_ID_NVAL : Z := 255.
Definition SEG_NVAL : Z := 255.
Definition RETRANSMIT_TIMEOUT : Z := 500.
Definition CLOSING_TIMEOUT : Z := 3000.
Definition TRANSACTION_TIMEOUT : Z := 30000.
Definition PROTOCOL_TIMEOUT : Z := 60000.

(** The bits of [link.flags]. *)
Inductive adv_flag : Type :=
| ADV_LINK_ACTIVE | ADV_LINK_ACK_RECVD | ADV_LINK_CLOSING | ADV_LINK_INVALID | ADV_ACK_PENDING | ADV_PROVISIONER.

Definition adv_bit (f : adv_flag) : Z :=
  match f with
  | ADV_LINK_ACTIVE => 0 | ADV_LINK_ACK_RECVD => 1 | ADV_LINK_CLOSING => 2 | ADV_LINK_INVALID => 3
  | ADV_ACK_PENDING => 4 | ADV_PROVISIONER => 5
  end.

(** An advertising buffer: its bytes, and whether it waits in the advertiser's queue. *)
Record adv_buf : Type := mkAdvBuf { ab_data : bytes; ab_busy : bool }.

#[export] Instance adv_buf_eta : Eta adv_buf := fun b => mkAdvBuf (ab_data b) (ab_busy b).

(** The callback structure given to [bt_mesh_adv_send]. *)
Inductive adv_send_cb : Type := NoSendCb | BufSentCb | AckCompleteCb.

Inductive adv_event : Type :=
| AdvSend (data : bytes) (cb : adv_send_cb)
| AdvScanEnable | AdvBeaconEnable.

(** [rx_buf] has 65 bytes; its length is the field [len], which a received packet sets. *)
Record pb_adv : Type := mkPbAdv {
  pa_id : Z;
  pa_flags : Z;
  pa_cb : bool;                   (** [cb] is not NULL *)
  rx_id : Z;
  rx_seg : Z;
  rx_last_seg : Z;
  rx_fcs : Z;
  rx_data : bytes;
  rx_len : Z;
  tx_start : Z;
  tx_id : Z;
  tx_pending_ack : Z;
  tx_buf : list (option adv_buf);
  tx_cb : option send_complete;
  tx_retransmit : option Z;       (** when the delayed work is due *)
  prot_timer : option Z;
  pa_uptime : Z;                  (** [k_uptime_get] *)
  pa_allocs : nat;                (** calls of [bt_mesh_adv_create] so far *)
  pa_log : list adv_event;
}.

#[export] Instance pb_adv_eta : Eta pb_adv := fun a =>
  mkPbAdv (pa_id a) (pa_flags a) (pa_cb a) (rx_id a) (rx_seg a) (rx_last_seg a) (rx_fcs a) (rx_data a) (rx_len a)
    (tx_start a) (tx_id a) (tx_pending_ack a) (tx_buf a) (tx_cb a) (tx_retransmit a) (prot_timer a) (pa_uptime a)
    (pa_allocs a) (pa_log a).

Definition pb_adv_init : pb_adv :=
  mkPbAdv 0 0 false 0 0 0 0 (replicate 65 0) 0 0 0 0 (replicate 3 None) None None None 0 0 [].

Definition last_seg (len : Z) : Z :=
  let len := u8 len in
  if len <=? START_PAYLOAD_MAX then 0 else 1 + (len - START_PAYLOAD_MAX) / CONT_PAYLOAD_MAX.

Definition next_transaction_id (id : Z) : Z :=
  u8 (Z.lor (Z.land (id + 1) XACT_ID_MAX) (Z.land id (XACT_ID_MAX + 1))).

(** [1 << n] on an [int]. *)
Definition int_bit (n : Z) : option Z := if n <? 31 then Some (Z.shiftl 1 n) else None.

(** [BIT(n)], an [unsigned long] of 32 bits. *)
Definition ulong_bit (n : Z) : option Z := if n <? 32 then Some (Z.shiftl 1 n) else None.

(** ** What the provisioning layer calls *)

Section PbAdv.
(** Whether the [k]-th [bt_mesh_adv_create] finds a buffer; the result of
    [bt_mesh_adv_enable]; the link identifier [bt_rand] gives. *)
Context (adv_create : nat -> bool) (adv_enable : ret_code) (new_link_id : Z).

Abbreviation ADV := (ST pb_adv).

Definition adv_test (f : adv_flag) (a : pb_adv) : bool := Z.testbit (pa_flags a) (adv_bit f).
Definition adv_set (f : adv_flag) : ADV unit := modify (fun a => a <| pa_flags := Z.setbit (pa_flags a) (adv_bit f) |>).
Definition adv_clear (f : adv_flag) : ADV unit := modify (fun a => a <| pa_flags := Z.clearbit (pa_flags a) (adv_bit f) |>).

(** [bt_mesh_adv_send] of a buffer that is freed afterwards. *)
Definition adv_send (data : bytes) (cb : adv_send_cb) : ADV unit :=
  modify (fun a => a <| pa_log := pa_log a ++ [AdvSend data cb] |>).

(** The result tells whether there is a buffer. *)
Definition adv_buf_create : ADV bool :=
  k ← gets pa_allocs;
  _ ← modify (fun a => a <| pa_allocs := S k |>);
  mret (adv_create k).

(** Up to the first free entry. *)
Fixpoint free_bufs (l : list (option adv_buf)) : list (option adv_buf) :=
  match l with
  | Some _ :: l => None :: free_bufs l
  | _ => l
  end.

Definition free_segments : ADV unit := modify (fun a => a <| tx_buf := free_bufs (tx_buf a) |>).

Definition prov_clear_tx : ADV unit :=
  _ ← modify (fun a => a <| tx_retransmit := None |>);
  free_segments.

(** [net_buf_simple_reset] of [rx_buf] *)
Definition rx_reset : ADV unit := modify (fun a => a <| rx_len := 0 |>).

Definition reset_adv_link : ADV unit :=
  _ ← prov_clear_tx;
  _ ← modify (fun a => a <| prot_timer := None |>);
  provisioner ← gets (adv_test ADV_PROVISIONER);
  _ ← modify (fun a =>
        if provisioner : bool
        then a <| pa_id := 0 |> <| pa_flags := 0 |> <| pa_cb := false |> <| rx_id := XACT_ID_NVAL |> <| rx_seg := 0 |>
               <| rx_last_seg := 0 |> <| rx_fcs := 0 |> <| tx_start := 0 |> <| tx_id := 0 |>
               <| tx_buf := replicate 3 None |> <| tx_cb := None |>
        else a <| pa_id := 0 |> <| pa_flags := 0 |> <| rx_id := XACT_ID_MAX |> <| tx_id := XACT_ID_NVAL |>);
  _ ← modify (fun a => a <| tx_pending_ack := XACT_ID_NVAL |>);
  rx_reset.

Definition submit_prot_timer : ADV unit := modify (fun a => a <| prot_timer := Some (pa_uptime a + PROTOCOL_TIMEOUT) |>).

(** The loops of [send_reliable] and [prov_retransmit]: every buffer up to the first free
    entry, the last one with the callback; [skip] passes over those still waiting. *)
Fixpoint send_bufs (skip : bool) (l : list (option adv_buf)) : list (option adv_buf) * list adv_event :=
  match l with
  | Some b :: rest =>
      let '(rest', evs) := send_bufs skip rest in
      if skip && ab_busy b then (Some b :: rest', evs)
      else
        let cb := match rest with Some _ :: _ => NoSendCb | _ => BufSentCb end in
        (Some (b <| ab_busy := true |>) :: rest', AdvSend (ab_data b) cb :: evs)
  | _ => (l, [])
  end.

Definition send_tx (skip : bool) : ADV unit :=
  modify (fun a => let '(l, evs) := send_bufs skip (tx_buf a) in a <| tx_buf := l |> <| pa_log := pa_log a ++ evs |>).

Definition send_reliable : ADV unit :=
  _ ← modify (fun a => a <| tx_start := pa_uptime a |>); send_tx false.

Definition set_tx_buf (i : nat) (data : bytes) : ADV unit :=
  modify (fun a => a <| tx_buf := <[i := Some (mkAdvBuf data false)]> (tx_buf a) |>).

Definition bearer_ctl_send (op : Z) (data : bytes) (reliable : bool) : ADV ret_code :=
  _ ← prov_clear_tx;
  _ ← submit_prot_timer;
  buf ← adv_buf_create;
  if negb buf then mret (Some ENOBUFS)
  else
    id ← gets pa_id;
    let pkt := sys_put_be32 id ++ [0; GPC_CTL op] ++ data in
    _ ← (if reliable then _ ← set_tx_buf 0 pkt; send_reliable else adv_send pkt BufSentCb);
    mret None.

(** The continuation segments, from [seg_id] on; at most [n] of them. *)
Fixpoint send_cont (n : nat) (seg_id : Z) (msg : bytes) : ADV ret_code :=
  match n with
  | O => mret None
  | S n =>
      if (length msg =? 0)%nat then mret None
      else if 3 <=? seg_id then _ ← free_segments; mret (Some E2BIG)
      else
        buf ← adv_buf_create;
        if negb buf then _ ← free_segments; mret (Some ENOBUFS)
        else
          let seg_len := Nat.min (length msg) 23 in
          a ← gets id;
          _ ← set_tx_buf (Z.to_nat seg_id) (sys_put_be32 (pa_id a) ++ [tx_id a; GPC_CONT seg_id] ++ take seg_len msg);
          send_cont n (u8 (seg_id + 1)) (drop seg_len msg)
  end.

(** Three rounds at most: the third finds the array full. *)
Definition prov_send_adv (msg : bytes) (cb : option send_complete) : ADV ret_code :=
  let len := Z.of_nat (length msg) in
  _ ← prov_clear_tx;
  _ ← submit_prot_timer;
  start ← adv_buf_create;
  if negb start then mret (Some ENOBUFS)
  else
    _ ← modify (fun a => a <| tx_id := next_transaction_id (tx_id a) |>);
    a ← gets id;
    let seg_len := Nat.min (length msg) 20 in
    _ ← set_tx_buf 0 (sys_put_be32 (pa_id a) ++ [tx_id a; GPC_START (last_seg len)] ++ sys_put_be16 len
                      ++ [bt_mesh_fcs_calc msg (u8 len)] ++ take seg_len msg);
    _ ← modify (fun a => a <| tx_cb := cb |>);
    err ← send_cont 3 1 (drop seg_len msg);
    match err with Some _ => mret err | None => _ ← send_reliable; mret None end.

Definition prov_link_open (uuid : bytes) : ADV ret_code :=
  match adv_enable with
  | Some _ => mret adv_enable
  | None =>
      active ← gets (adv_test ADV_LINK_ACTIVE);
      _ ← adv_set ADV_LINK_ACTIVE;
      if active : bool then mret (Some EBUSY)
      else
        _ ← adv_set ADV_PROVISIONER;
        _ ← modify (fun a => a <| pa_id := new_link_id |> <| tx_id := XACT_ID_MAX |> <| rx_id := XACT_ID_NVAL |>
                               <| pa_cb := true |>);
        _ ← rx_reset;
        _ ← bearer_ctl_send LINK_OPEN (take 16 uuid) true;
        mret None
  end.

Definition prov_link_accept : ADV ret_code :=
  match adv_enable with
  | Some _ => mret adv_enable
  | None =>
      active ← gets (adv_test ADV_LINK_ACTIVE);
      if active : bool then mret (Some EBUSY)
      else
        _ ← modify (fun a => a <| rx_id := XACT_ID_MAX |> <| tx_id := XACT_ID_NVAL |> <| pa_cb := true |>
                               <| pa_log := pa_log a ++ [AdvScanEnable; AdvBeaconEnable] |>);
        mret None
  end.

Definition link_status (s : prov_bearer_link_status) : Z :=
  match s with
  | PROV_BEARER_LINK_STATUS_SUCCESS => 0 | PROV_BEARER_LINK_STATUS_TIMEOUT => 1 | PROV_BEARER_LINK_STATUS_FAIL => 2
  end.

Definition prov_link_close (status : prov_bearer_link_status) : ADV unit :=
  closing ← gets (adv_test ADV_LINK_CLOSING);
  _ ← adv_set ADV_LINK_CLOSING;
  if closing : bool then mret tt
  else _ ← bearer_ctl_send LINK_CLOSE [link_status status] true; mret tt.

Definition gen_prov_ack_send (xact_id : Z) : ADV unit :=
  a ← gets id;
  let pending := adv_test ADV_ACK_PENDING a in
  _ ← adv_set ADV_ACK_PENDING;
  if pending && (tx_pending_ack a =? xact_id) then mret tt
  else
    buf ← adv_buf_create;
    if negb buf then adv_clear ADV_ACK_PENDING
    else
      _ ← when (negb pending) (modify (fun a => a <| tx_pending_ack := xact_id |>));
      adv_send (sys_put_be32 (pa_id a) ++ [xact_id; GPC_ACK]) (if pending then NoSendCb else AckCompleteCb).

(** Callbacks of the advertiser. *)
Definition buf_sent : ADV unit :=
  b ← gets tx_buf;
  match b with
  | Some _ :: _ => modify (fun a => a <| tx_retransmit := Some (pa_uptime a + RETRANSMIT_TIMEOUT) |>)
  | _ => mret tt
  end.

Definition ack_complete : ADV unit := adv_clear ADV_ACK_PENDING.

(** [pb_adv] as a bearer of the provisioning layer; the other bearer of the type is not
    this one. *)
Definition adv_bearer : ProvBearer pb_adv := {|
  bearer_send _ pdu cb := prov_send_adv pdu cb;
  bearer_clear_tx _ := prov_clear_tx;
  bearer_link_accept _ := prov_link_accept;
  bearer_link_open _ uuid := prov_link_open uuid;
  bearer_link_close _ status := prov_link_close status;
  bearer_reset _ := reset_adv_link;
|}.

(** ** What the advertiser and the timers call *)

Section Recv.
(** The state that contains the bearer's, the callbacks of [prov.c] and the completion
    callbacks; the UUID of [bt_mesh_prov_get]. *)
Context {S : Type} (adv_of : S -> pb_adv) `{!Assignable adv_of}.
Context (up_opened : ST S unit) (up_closed : ST S unit) (up_error : Z -> ST S unit) (up_recv : bytes -> ST S unit).
Context (up_sent : send_complete -> ST S unit) (own_uuid : S -> bytes).

Abbreviation LINK := (ST S).

Definition adv {A : Type} (m : ADV A) : LINK A := zoom adv_of m.
Definition look {A : Type} (f : pb_adv -> A) : LINK A := gets (fun s => f (adv_of s)).

(** The callbacks are called through [link.cb]. *)
Definition need_cb : LINK unit := cb ← look pa_cb; need (if cb : bool then Some tt else None).

Definition close_link : LINK unit :=
  cb ← look pa_cb;
  _ ← adv reset_adv_link;
  _ ← need (if cb : bool then Some tt else None);
  up_closed.

Definition prov_failed (err : Z) : LINK unit :=
  _ ← need_cb;
  _ ← up_error err;
  adv (adv_set ADV_LINK_INVALID).

(** The received PDU: [len] bytes of the buffer. *)
Definition rx_pdu (a : pb_adv) : bytes := take (Z.to_nat (rx_len a)) (rx_data a).

(** A length over 65 would be read past the array. *)
Definition prov_msg_recv : LINK unit :=
  _ ← adv submit_prot_timer;
  a ← gets adv_of;
  _ ← need (if rx_len a <=? 65 then Some tt else None);
  if negb (bt_mesh_fcs_check (mkBuf 0 (Z.to_nat (rx_len a)) (rx_data a)) (rx_fcs a)) then mret tt
  else
    _ ← adv (gen_prov_ack_send (rx_id a));
    if adv_test ADV_LINK_INVALID a then prov_failed PROV_ERR_UNEXP_PDU
    else
      _ ← need_cb;
      up_recv (rx_pdu a).

Definition protocol_timeout : LINK unit :=
  _ ← adv (modify (fun a => a <| rx_seg := 0 |> <| prot_timer := None |>));
  close_link.

(** The packet without its six bytes of header, which are in [xact_id] and [gpc]. *)
Definition resend_ack (xact_id : Z) : LINK unit :=
  pending ← look (adv_test ADV_ACK_PENDING);
  when (negb pending) (adv (gen_prov_ack_send xact_id)).

(** [memcpy] into the array of 65 bytes, at a signed offset. *)
Definition rx_write (off : Z) (src : bytes) : LINK unit :=
  _ ← need (if (0 <=? off) && (off + Z.of_nat (length src) <=? 65) then Some tt else None);
  adv (modify (fun a => a <| rx_data := memcpy_at (Z.to_nat off) src (rx_data a) |>)).

(** [XACT_SEG_RECV] *)
Definition seg_recv (seg : Z) : LINK unit :=
  adv (modify (fun a => a <| rx_seg := Z.clearbit (rx_seg a) seg |>)).

(** From the check of the segment index on. *)
Definition cont_segment (seg : Z) (buf : bytes) : LINK unit :=
  a ← gets adv_of;
  if rx_last_seg a <? seg then prov_failed PROV_ERR_NVAL_FMT
  else
    bit ← need (ulong_bit seg);
    if Z.land (rx_seg a) bit =? 0 then mret tt
    else
      _ ← rx_write (20 + (seg - 1) * 23) buf;
      _ ← seg_recv seg;
      a ← gets adv_of;
      if (seg =? rx_last_seg a) && negb (Z.testbit (rx_seg a) 0)
         && negb (u8 (rx_len a - 20 - (rx_last_seg a - 1) * 23) =? Z.of_nat (length buf))
      then prov_failed PROV_ERR_NVAL_FMT
      else when (rx_seg a =? 0) prov_msg_recv.

Definition gen_prov_cont (xact_id gpc : Z) (buf : bytes) : LINK unit :=
  let seg := gpc_arg gpc in
  a ← gets adv_of;
  if (rx_seg a =? 0) && (rx_id a =? xact_id) then resend_ack xact_id
  else if (rx_seg a =? 0) && (next_transaction_id (rx_id a) =? xact_id) then
    _ ← adv (modify (fun a => a <| rx_id := xact_id |> <| rx_len := 0 |> <| rx_seg := SEG_NVAL |> <| rx_last_seg := SEG_NVAL |>));
    _ ← adv prov_clear_tx;
    cont_segment seg buf
  else if negb (xact_id =? rx_id a) then mret tt
  else cont_segment seg buf.

Definition gen_prov_ack (xact_id : Z) : LINK unit :=
  a ← gets adv_of;
  match tx_buf a with
  | Some _ :: _ =>
      if xact_id =? tx_id a then
        _ ← when (negb (adv_test ADV_LINK_CLOSING a)) (adv prov_clear_tx);
        cb ← look tx_cb;
        match cb with Some cb => up_sent cb | None => mret tt end
      else mret tt
  | _ => mret tt
  end.

(** From the total length and the check sequence on; [buf] is the first segment.
    [find_msb_set] is unsigned, and so is the comparison with its result. *)
Definition start_segment (xact_id gpc len fcs : Z) (buf : bytes) : LINK unit :=
  let last := gpc_arg gpc in
  _ ← adv (modify (fun a => a <| rx_len := len |> <| rx_id := xact_id |> <| rx_fcs := fcs |>));
  if len <? 1 then prov_failed PROV_ERR_NVAL_FMT
  else if 65 <? len then prov_failed PROV_ERR_NVAL_FMT
  else if (0 <? last) && (len <=? 20) then prov_failed PROV_ERR_NVAL_FMT
  else
    _ ← adv prov_clear_tx;
    _ ← adv (modify (fun a => a <| rx_last_seg := last |>));
    a ← gets adv_of;
    if Z.testbit (rx_seg a) 0 && (last <? u32 (find_msb_set (Z.land (Z.lnot (rx_seg a)) SEG_NVAL) - 1))
    then prov_failed PROV_ERR_NVAL_FMT
    else
      let seg := if rx_seg a =? 0 then SEG_NVAL else rx_seg a in
      mask ← need (int_bit (last + 1));
      _ ← adv (modify (fun a => a <| rx_seg := u8 (Z.land seg (mask - 1)) |>));
      _ ← rx_write 0 buf;
      _ ← seg_recv 0;
      left ← look rx_seg;
      when (left =? 0) prov_msg_recv.

Definition gen_prov_start (xact_id gpc : Z) (buf : bytes) : LINK unit :=
  a ← gets adv_of;
  let start := start_segment xact_id gpc (sys_get_be16 buf) (byte_at buf 2) (drop 3 buf) in
  if xact_id =? rx_id a then
    if rx_seg a =? 0 then resend_ack xact_id
    else if negb (Z.testbit (rx_seg a) 0) then mret tt
    else start
  else if negb (xact_id =? next_transaction_id (rx_id a)) then mret tt
  else start.

Definition link_open (link_id : Z) (buf : bytes) : LINK unit :=
  if (length buf <? 16)%nat then mret tt
  else
    a ← gets adv_of;
    if adv_test ADV_LINK_ACTIVE a then
      if pa_id a =? link_id then _ ← adv (bearer_ctl_send LINK_ACK [] false); mret tt else mret tt
    else
      uuid ← gets own_uuid;
      if negb (bool_decide (take 16 buf = take 16 uuid)) then mret tt
      else
        _ ← adv (modify (fun a => a <| pa_id := link_id |>));
        _ ← adv (adv_set ADV_LINK_ACTIVE);
        _ ← adv rx_reset;
        _ ← adv (bearer_ctl_send LINK_ACK [] false);
        _ ← need_cb;
        up_opened.

Definition link_ack : LINK unit :=
  a ← gets adv_of;
  if adv_test ADV_PROVISIONER a then
    _ ← adv (adv_set ADV_LINK_ACK_RECVD);
    if adv_test ADV_LINK_ACK_RECVD a then mret tt
    else
      _ ← adv prov_clear_tx;
      _ ← need_cb;
      up_opened
  else mret tt.

(** The reason in the packet goes to [link_closed], which ignores it. *)
Definition link_close (buf : bytes) : LINK unit :=
  if negb (length buf =? 1)%nat then mret tt else close_link.

Definition gen_prov_ctl (link_id gpc : Z) (buf : bytes) : LINK unit :=
  active ← look (adv_test ADV_LINK_ACTIVE);
  let op := gpc_arg gpc in
  if op =? LINK_OPEN then link_open link_id buf
  else if op =? LINK_ACK then when active link_ack
  else if op =? LINK_CLOSE then when active (link_close buf)
  else mret tt.

(** The table [gen_prov]. *)
Definition gen_prov_recv (link_id xact_id gpc : Z) (buf : bytes) : LINK unit :=
  active ← look (adv_test ADV_LINK_ACTIVE);
  if GPCF gpc =? 0 then
    if (length buf <? 3)%nat then mret tt else when active (gen_prov_start xact_id gpc buf)
  else if GPCF gpc =? 1 then when active (gen_prov_ack xact_id)
  else if GPCF gpc =? 2 then when active (gen_prov_cont xact_id gpc buf)
  else gen_prov_ctl link_id gpc buf.

Definition bt_mesh_pb_adv_recv (buf : bytes) : LINK unit :=
  a ← gets adv_of;
  if negb (pa_cb a) then mret tt
  else if (length buf <? 6)%nat then mret tt
  else
    let link_id := sys_get_be32 buf in
    if adv_test ADV_LINK_ACTIVE a && negb (pa_id a =? link_id) then mret tt
    else gen_prov_recv link_id (byte_at buf 4) (byte_at buf 5) (drop 6 buf).

(** The retransmission timer has expired. *)
Definition prov_retransmit : LINK unit :=
  _ ← adv (modify (fun a => a <| tx_retransmit := None |>));
  a ← gets adv_of;
  if negb (adv_test ADV_LINK_ACTIVE a) then mret tt
  else
    let timeout_ms := if adv_test ADV_LINK_CLOSING a then CLOSING_TIMEOUT else TRANSACTION_TIMEOUT in
    if timeout_ms <? pa_uptime a - tx_start a then close_link else adv (send_tx true).

End Recv.
End PbAdv.
