(* ===== verification/PbAdvProps.v ===== *)
(** * Transactions over the advertising bearer

    One side sends a provisioning PDU as a transaction; whatever the order in which its
    packets arrive and however often each is repeated, the other side hands the PDU to
    the provisioning layer exactly once, when it has every packet. *)

From S2P Require Import Prelude ByteOrder MeshDefs Cdb NetBuf Access Rpl Ccm MeshCrypto Subnet AppKeys Net NetProps Transport TransportOps Mesh Heartbeat SecureBeacon Cfg Main Ecc Prov ProvDevice MeshProvisioner ProvLink ProvProps PbAdv.

(** ** The receiver's part of the state *)

Definition same_rx (a a' : pb_adv) : Prop :=
  pa_id a' = pa_id a /\ pa_cb a' = pa_cb a /\ rx_id a' = rx_id a /\ rx_seg a' = rx_seg a /\
  rx_last_seg a' = rx_last_seg a /\ rx_fcs a' = rx_fcs a /\ rx_data a' = rx_data a /\ rx_len a' = rx_len a /\
  adv_test ADV_LINK_ACTIVE a' = adv_test ADV_LINK_ACTIVE a /\ adv_test ADV_LINK_INVALID a' = adv_test ADV_LINK_INVALID a.

Lemma same_rx_refl a : same_rx a a.
Proof. by repeat split. Qed.

Lemma same_rx_trans a b c : same_rx a b -> same_rx b c -> same_rx a c.
Proof. unfold same_rx. intuition congruence. Qed.

#[export] Instance same_rx_preorder : PreOrder same_rx.
Proof. split; [exact same_rx_refl|exact same_rx_trans]. Qed.

(** What the bearer needs from the provisioning layer: a PDU handed over is recorded, and
    handling it does not touch the receiver's part of the bearer. *)
Class AdvClient {S : Type} (adv_of : S -> pb_adv) `{!Assignable adv_of} (up_recv : bytes -> ST S unit)
    (delivered : S -> list bytes) (client_ok : S -> Prop) : Prop := {
  adv_get_set s a : adv_of (s <| adv_of := a |>) = a;
  delivered_set s a : delivered (s <| adv_of := a |>) = delivered s;
  client_set s a : client_ok s -> client_ok (s <| adv_of := a |>);
  client_recv m s :
    client_ok s -> m <> [] -> wf_bytes m ->
    wp (up_recv m) (fun _ s' => client_ok s' /\ delivered s' = delivered s ++ [m] /\ same_rx (adv_of s) (adv_of s')) s;
}.

(** ** Bits and flags *)

Lemma adv_test_set f g a :
  adv_test f (a <| pa_flags := Z.setbit (pa_flags a) (adv_bit g) |>) = (adv_bit f =? adv_bit g) || adv_test f a.
Proof.
  unfold adv_test. cbn. rewrite Z.setbit_eqb by (by destruct g). by rewrite Z.eqb_sym.
Qed.

Lemma adv_test_clear f g a :
  adv_test f (a <| pa_flags := Z.clearbit (pa_flags a) (adv_bit g) |>) = adv_test f a && negb (adv_bit g =? adv_bit f).
Proof. unfold adv_test. cbn. apply Z.clearbit_eqb. Qed.

Section Tx.
Context (adv_create : nat -> bool).

Lemma clear_tx_rx a : wp prov_clear_tx (fun _ a' => same_rx a a') a.
Proof. unfold prov_clear_tx, free_segments. repeat wp_step. by repeat split. Qed.

Lemma prot_timer_rx a : wp submit_prot_timer (fun _ a' => same_rx a a') a.
Proof. unfold submit_prot_timer. repeat wp_step. by repeat split. Qed.

Lemma buf_create_rx a Q : (forall b a', same_rx a a' -> Q b a') -> wp (adv_buf_create adv_create) Q a.
Proof. intros H. unfold adv_buf_create. repeat wp_step. apply H. by repeat split. Qed.

(** A flag that does not matter to the receiver. *)
Lemma set_flag_rx g a : g <> ADV_LINK_ACTIVE -> g <> ADV_LINK_INVALID -> wp (adv_set g) (fun _ a' => same_rx a a') a.
Proof.
  intros N1 N2. unfold adv_set. wp_step. unfold same_rx. rewrite !adv_test_set. by destruct g.
Qed.

Lemma clear_flag_rx g a : g <> ADV_LINK_ACTIVE -> g <> ADV_LINK_INVALID -> wp (adv_clear g) (fun _ a' => same_rx a a') a.
Proof.
  intros N1 N2. unfold adv_clear. wp_step. unfold same_rx. rewrite !adv_test_clear. destruct g; cbn; try done;
    by rewrite ?andb_true_r.
Qed.

Lemma ack_send_rx id a : wp (gen_prov_ack_send adv_create id) (fun _ a' => same_rx a a') a.
Proof.
  unfold gen_prov_ack_send. do 3 wp_step. eapply wp_mono; [by apply set_flag_rx|]. intros ? a1 H1.
  wp_if; [by wp_step|]. wp_step. apply buf_create_rx. intros b a2 H2. pose proof (same_rx_trans _ _ _ H1 H2) as H12.
  destruct b; cbn [negb].
  - wp_step. apply wp_when; intros _; unfold adv_send; repeat wp_step; (etransitivity; [exact H12|]); by repeat split.
  - eapply wp_mono; [by apply clear_flag_rx|]. intros ? a3 H3. by etransitivity.
Qed.
End Tx.

(** ** Running the receiver on its own state *)

Section Receive.
Context (adv_create : nat -> bool) {W : Type} (adv_of : W -> pb_adv) `{!Assignable adv_of}.
Context (up_opened up_closed : ST W unit) (up_error : Z -> ST W unit) (up_recv : bytes -> ST W unit).
Context (up_sent : send_complete -> ST W unit) (own_uuid : W -> bytes).
Context (delivered : W -> list bytes) (client_ok : W -> Prop) {client : AdvClient adv_of up_recv delivered client_ok}.

(** The state as the bearer sees it: its own part and what it has handed over. *)
Definition seen (s : W) (a : pb_adv) (d : list bytes) : Prop := client_ok s /\ adv_of s = a /\ delivered s = d.

Definition runs {A : Type} (m : ST W A) (a : pb_adv) (d : list bytes) (Q : A -> pb_adv -> list bytes -> Prop) : Prop :=
  forall s, seen s a d -> wp m (fun x s' => exists a' d', seen s' a' d' /\ Q x a' d') s.

Lemma runs_ret {A : Type} (x : A) a d (Q : A -> pb_adv -> list bytes -> Prop) : Q x a d -> runs (mret x) a d Q.
Proof. intros H s Hs. wp_step. eauto. Qed.

Lemma runs_bind {A B : Type} (m : ST W A) (k : A -> ST W B) a d Q :
  runs m a d (fun x a' d' => runs (k x) a' d' Q) -> runs (m ≫= k) a d Q.
Proof. intros H s Hs. wp_step. eapply wp_mono; [by apply H|]. intros x s' (a' & d' & Hs' & H'). by apply H'. Qed.

Lemma runs_mono {A : Type} (m : ST W A) a d (P Q : A -> pb_adv -> list bytes -> Prop) :
  runs m a d P -> (forall x a' d', P x a' d' -> Q x a' d') -> runs m a d Q.
Proof. intros H HQ s Hs. eapply wp_mono; [by apply H|]. intros x s' (a' & d' & Hs' & H'). eauto. Qed.

Lemma runs_get a d (Q : pb_adv -> pb_adv -> list bytes -> Prop) : Q a a d -> runs (gets adv_of) a d Q.
Proof. intros H s (Hc & Ha & Hd). wp_step. rewrite Ha. exists a, d. split; [by repeat split|done]. Qed.

Lemma runs_look {A : Type} (f : pb_adv -> A) a d (Q : A -> pb_adv -> list bytes -> Prop) :
  Q (f a) a d -> runs (look adv_of f) a d Q.
Proof. intros H s (Hc & Ha & Hd). unfold look. wp_step. rewrite Ha. exists a, d. split; [by repeat split|done]. Qed.

Lemma runs_adv {A : Type} (m : ST pb_adv A) a d (Q : A -> pb_adv -> list bytes -> Prop) :
  wp m (fun x a' => Q x a' d) a -> runs (adv adv_of m) a d Q.
Proof.
  intros H s (Hc & Ha & Hd). unfold adv. wp_step. rewrite Ha. eapply wp_mono; [exact H|]. intros x a' HQ.
  exists a', d. split; [|done]. split; [by apply client_set|]. by rewrite adv_get_set, delivered_set.
Qed.

Lemma runs_need {A : Type} (o : option A) x a d (Q : A -> pb_adv -> list bytes -> Prop) :
  o = Some x -> Q x a d -> runs (need o) a d Q.
Proof. intros E H s Hs. eapply wp_need; [exact E|]. eauto. Qed.

Lemma runs_recv m a d (Q : unit -> pb_adv -> list bytes -> Prop) :
  m <> [] -> wf_bytes m -> (forall a', same_rx a a' -> Q tt a' (d ++ [m])) -> runs (up_recv m) a d Q.
Proof.
  intros Hm Hw H s (Hc & Ha & Hd). eapply wp_mono; [by apply client_recv|]. intros [] s' (Hc' & Hd' & Hr).
  exists (adv_of s'), (d ++ [m]). split; [unfold seen; by rewrite Hd', Hd|]. apply H. by rewrite <- Ha.
Qed.

Lemma runs_cb a d (Q : unit -> pb_adv -> list bytes -> Prop) : pa_cb a = true -> Q tt a d -> runs (need_cb adv_of) a d Q.
Proof. intros Hc H. unfold need_cb. apply runs_bind, runs_look. rewrite Hc. by eapply runs_need. Qed.

Lemma runs_when b (m : ST W unit) a d (Q : unit -> pb_adv -> list bytes -> Prop) :
  (b = true -> runs m a d Q) -> (b = false -> Q tt a d) -> runs (when b m) a d Q.
Proof. intros H1 H2. destruct b; cbn [when]; [by apply H1|by apply runs_ret, H2]. Qed.

(** ** One transaction *)

(** The PDU, the link and the transaction identifier. *)
Context (m : bytes) (link t : Z).
Context (m_wf : wf_bytes m) (m_len : (1 <= length m <= 65)%nat) (m_43 : length m <> 43%nat).
Context (link_u32 : is_u32 link) (t_u8 : is_u8 t).

Definition len : Z := Z.of_nat (length m).
Definition last : Z := last_seg len.
Definition fcs : Z := bt_mesh_fcs_calc m (u8 len).
Definition seg_off (k : nat) : nat := match k with O => 0 | S k => 20 + 23 * k end.
Definition seg_max (k : nat) : nat := match k with O => 20 | S _ => 23 end.
Definition segment (k : nat) : bytes := take (seg_max k) (drop (seg_off k) m).

Definition header (gpc : Z) : bytes := sys_put_be32 link ++ [t; gpc].
Definition start_pkt : bytes := header (GPC_START last) ++ sys_put_be16 len ++ [fcs] ++ segment 0.
Definition cont_pkt (k : nat) : bytes := header (GPC_CONT (Z.of_nat k)) ++ segment k.
Definition packet (k : nat) : bytes := match k with O => start_pkt | _ => cont_pkt k end.

(** The number of the last packet. *)
Lemma last_cases :
  ((length m <= 20)%nat /\ last = 0) \/ ((20 < length m < 43)%nat /\ last = 1) \/ ((43 < length m <= 65)%nat /\ last = 2).
Proof.
  unfold last, last_seg, len, START_PAYLOAD_MAX, CONT_PAYLOAD_MAX. rewrite u8_id by (unfold is_u8; lia).
  destruct (Z.leb_spec (Z.of_nat (length m)) 20); [left; lia|right].
  destruct (decide (length m < 43)%nat); [left|right]; (split; [lia|]).
  - rewrite Z.div_small by lia. done.
  - assert ((Z.of_nat (length m) - 20) / 23 = 1) as ->; [|done]. symmetry. apply (Z.div_unique _ _ _ (Z.of_nat (length m) - 43)); lia.
Qed.

Lemma length_segment k : length (segment k) = Nat.min (seg_max k) (length m - seg_off k).
Proof. unfold segment. by rewrite length_take, length_drop. Qed.

(** The link is open and has not failed. *)
Definition open_link (a : pb_adv) : Prop :=
  adv_test ADV_LINK_ACTIVE a = true /\ adv_test ADV_LINK_INVALID a = false /\ pa_cb a = true /\ pa_id a = link /\
  length (rx_data a) = 65%nat.

(** The [k]-th segment is in its place. *)
Definition holds (k : nat) (a : pb_adv) : Prop := slice (seg_off k) (length (segment k)) (rx_data a) = segment k.

(** The segments still missing when those of [g] have arrived. *)
Definition seg_mask (g : nat -> bool) : Z :=
  Z.ldiff (if g 0%nat then 2 ^ (last + 1) - 1 else 255) (Z.b2z (g 0%nat) + 2 * Z.b2z (g 1%nat) + 4 * Z.b2z (g 2%nat)).

Definition add (k : nat) (g : nat -> bool) : nat -> bool := fun j => (j =? k)%nat || g j.

Record receiving (g : nat -> bool) (a : pb_adv) : Prop := {
  rcv_open : open_link a;
  rcv_id : rx_id a = t;
  rcv_seg : rx_seg a = seg_mask g;
  rcv_left : seg_mask g <> 0;
  rcv_last : rx_last_seg a = if g 0%nat then last else 255;
  rcv_start : g 0%nat = true -> rx_len a = len /\ rx_fcs a = fcs;
  rcv_holds k : g k = true -> Z.of_nat k <= last /\ holds k a;
  rcv_some : exists k, g k = true;
}.

(** Nothing has arrived yet; everything has. *)
Definition waiting (a : pb_adv) : Prop :=
  open_link a /\ rx_seg a = 0 /\ next_transaction_id (rx_id a) = t /\ rx_id a <> t.
Definition finished (a : pb_adv) : Prop := open_link a /\ rx_seg a = 0 /\ rx_id a = t.

Lemma open_same a a' : same_rx a a' -> open_link a -> open_link a'.
Proof. intros (H1 & H2 & _ & _ & _ & _ & H3 & _ & H4 & H5) Ho. unfold open_link. by rewrite H1, H2, H3, H4, H5. Qed.

Lemma finished_same a a' : same_rx a a' -> finished a -> finished a'.
Proof.
  intros H (Ho & Hs & Hi). pose proof H as (_ & _ & H1 & H2 & _). split; [by eapply open_same|]. by rewrite H1, H2.
Qed.

Lemma land_bit x k : 0 <= k -> (Z.land x (Z.shiftl 1 k) =? 0) = negb (Z.testbit x k).
Proof.
  intros Hk. rewrite Z.shiftl_1_l. destruct (Z.testbit x k) eqn:E; cbn [negb].
  - apply Z.eqb_neq. intros H. apply (f_equal (fun z => Z.testbit z k)) in H.
    by rewrite Z.land_spec, E, Z.pow2_bits_true, Z.bits_0 in H.
  - apply Z.eqb_eq, Z.bits_inj'. intros n Hn. rewrite Z.land_spec, Z.bits_0, Z.pow2_bits_eqb by done.
    destruct (Z.eqb_spec k n) as [<-|N]; [by rewrite E|apply andb_false_r].
Qed.

(** The segments together are the PDU. *)
Lemma assembled a :
  rx_len a = len -> holds 0 a -> (1 <= last -> holds 1 a) -> (2 <= last -> holds 2 a) -> rx_pdu a = m.
Proof.
  intros Hl H0 H1 H2. unfold rx_pdu. rewrite Hl. unfold len. rewrite Nat2Z.id.
  assert (forall (l : bytes) x y, take (x + y) l = take x l ++ take y (drop x l)) as T by (intros; symmetry; apply take_take_drop).
  unfold holds, slice in *. rewrite length_segment in H0, H1, H2. unfold segment, seg_off, seg_max in *.
  destruct last_cases as [[L E]|[[L E]|[L E]]]; rewrite E in *.
  - rewrite !drop_0, Nat.sub_0_r, Nat.min_r in H0 by lia. rewrite H0. apply take_ge. lia.
  - specialize (H1 ltac:(lia)). rewrite !drop_0, Nat.sub_0_r, Nat.min_l in H0 by lia. rewrite Nat.mul_0_r, Nat.add_0_r, Nat.min_r in H1 by lia.
    replace (length m) with (20 + (length m - 20))%nat by lia. rewrite T, H0, H1.
    rewrite (take_ge (drop 20 m)) by (rewrite length_drop; lia). apply take_drop.
  - specialize (H1 ltac:(lia)). specialize (H2 ltac:(lia)).
    rewrite !drop_0, Nat.sub_0_r, Nat.min_l in H0 by lia. rewrite Nat.mul_0_r, Nat.add_0_r, Nat.min_l in H1 by lia.
    change (20 + 23 * 1)%nat with 43%nat in H2. rewrite Nat.min_r in H2 by lia.
    replace (length m) with (20 + (23 + (length m - 43)))%nat by lia. rewrite !T, drop_drop, H0, H1.
    change (20 + 23)%nat with 43%nat. rewrite H2.
    rewrite (take_ge (drop 43 m)) by (rewrite length_drop; lia).
    change 43%nat with (20 + 23)%nat. rewrite <- drop_drop, take_drop. apply take_drop.
Qed.

Local Abbreviation RECV := (bt_mesh_pb_adv_recv adv_create adv_of up_opened up_closed up_error up_recv up_sent own_uuid).
Local Abbreviation GEN := (gen_prov_recv adv_create adv_of up_opened up_closed up_error up_recv up_sent own_uuid).

Definition delivers (d : list bytes) (_ : unit) (a : pb_adv) (d' : list bytes) : Prop := finished a /\ d' = d ++ [m].

Lemma fcs_ok a : open_link a -> rx_len a = len -> rx_fcs a = fcs -> rx_pdu a = m ->
  bt_mesh_fcs_check (mkBuf 0 (Z.to_nat (rx_len a)) (rx_data a)) (rx_fcs a) = true.
Proof.
  intros (_ & _ & _ & _ & Hd) Hl Hf Hp. set (b := mkBuf 0 (Z.to_nat (rx_len a)) (rx_data a)).
  assert (contents b = m) as Hc by exact Hp.
  assert (buf_len b = length m) as Hb by (cbn; rewrite Hl; apply Nat2Z.id).
  apply (fcs_exact b (rx_fcs a)); rewrite ?Hc, ?Hb; try done; try lia.
  - unfold buf_wf, buf_size. cbn [buf_data buf_len b]. cbn. rewrite Hd, Hl. unfold len. lia.
  - rewrite Hf. unfold fcs, bt_mesh_fcs_calc.
    destruct (fcs_loop_crc 255 (take (Z.to_nat (u8 (u8 len))) m)) as [_ Hu]; [by unfold is_u8|by apply Forall_take|].
    unfold is_u8 in *. lia.
  - rewrite Hf. unfold fcs, len. by rewrite u8_id by (unfold is_u8; lia).
Qed.

Lemma msg_complete a d :
  open_link a -> rx_id a = t -> rx_seg a = 0 -> rx_len a = len -> rx_fcs a = fcs ->
  holds 0 a -> (1 <= last -> holds 1 a) -> (2 <= last -> holds 2 a) ->
  runs (prov_msg_recv adv_create adv_of up_error up_recv) a d (delivers d).
Proof.
  intros Ho Hi Hs Hl Hf H0 H1 H2. pose proof (assembled a Hl H0 H1 H2) as Hp. unfold prov_msg_recv.
  apply runs_bind, runs_adv. eapply wp_mono; [apply prot_timer_rx|]. intros ? a1 R1.
  pose proof (open_same _ _ R1 Ho) as Ho1. pose proof R1 as (_ & _ & I1 & S1 & _ & F1 & D1 & L1 & _).
  assert (rx_pdu a1 = m) as Hp1 by (unfold rx_pdu; by rewrite L1, D1).
  apply runs_bind, runs_get. apply runs_bind. eapply runs_need; [rewrite L1, Hl; unfold len; by rewrite (proj2 (Z.leb_le _ _)) by lia|].
  rewrite fcs_ok by congruence. cbn [negb]. apply runs_bind, runs_adv. eapply wp_mono; [apply ack_send_rx|]. intros ? a2 R2.
  destruct Ho1 as (A1 & A2 & A3 & A4 & A5). rewrite A2.
  apply runs_bind, runs_cb; [by destruct R2 as (_ & -> & _)|]. rewrite Hp1.
  apply runs_recv; [destruct m; [cbn in m_len; lia|done]|done|]. intros a9 R3. split; [|done].
  eapply finished_same; [exact R3|]. eapply finished_same; [exact R2|]. eapply finished_same; [exact R1|]. done.
Qed.

(** The header leads to the handler of the packet's type. *)
Lemma recv_packet gpc payload a d Q :
  open_link a -> runs (GEN link t gpc payload) a d Q -> runs (RECV (header gpc ++ payload)) a d Q.
Proof using client link_u32.
  clear m_len m_43.
  intros (A1 & A2 & A3 & A4 & A5) H. unfold bt_mesh_pb_adv_recv. apply runs_bind, runs_get. rewrite A1, A3, A4. cbn [negb].
  unfold header. rewrite <- app_assoc. rewrite get_put_be32 by done. rewrite Z.eqb_refl. cbn [andb negb].
  rewrite (proj2 (Nat.ltb_ge _ _)) by (rewrite !length_app; cbn; lia). exact H.
Qed.

Lemma mask_bit g k : Z.of_nat k <= last -> Z.testbit (seg_mask g) (Z.of_nat k) = negb (g k).
Proof.
  intros Hk. unfold seg_mask. destruct last_cases as [[_ E]|[[_ E]|[_ E]]]; rewrite E in *;
    do 3 try destruct k as [|k]; try lia; destruct (g 0%nat), (g 1%nat), (g 2%nat); reflexivity.
Qed.

Lemma mask_clear g k : Z.of_nat k <= last -> (g 0%nat = true \/ k <> 0%nat) ->
  Z.clearbit (seg_mask g) (Z.of_nat k) = seg_mask (add k g).
Proof.
  intros Hk H0. unfold seg_mask, add. destruct last_cases as [[_ E]|[[_ E]|[_ E]]]; rewrite E in *;
    do 3 try destruct k as [|k]; try lia; cbn [Nat.eqb orb]; destruct (g 0%nat), (g 1%nat), (g 2%nat); try reflexivity;
    by destruct H0.
Qed.

Lemma segment_fits k : (k <= 2)%nat -> (seg_off k + length (segment k) <= 65)%nat.
Proof. intros Hk. rewrite length_segment. do 3 try destruct k as [|k]; cbn [seg_off seg_max]; lia. Qed.

Lemma segment_room k : Z.of_nat k <= last -> (k <= 2)%nat.
Proof. destruct last_cases as [[_ E]|[[_ E]|[_ E]]]; rewrite E; lia. Qed.

(** The bearer with the [k]-th segment written. *)
Definition wrote (k : nat) (a : pb_adv) : pb_adv := a <| rx_data := memcpy_at (seg_off k) (segment k) (rx_data a) |>.

Lemma wrote_open k a : (k <= 2)%nat -> open_link a -> open_link (wrote k a).
Proof.
  intros Hk (A1 & A2 & A3 & A4 & A5). repeat (split; [done|]). cbn. rewrite length_memcpy_at; [done|]. rewrite A5. by apply segment_fits.
Qed.

Lemma wrote_holds k j a :
  (k <= 2)%nat -> (j <= 2)%nat -> length (rx_data a) = 65%nat -> (j <> k -> holds j a) -> holds j (wrote k a).
Proof.
  intros Hk Hj Hd H. pose proof (segment_fits k Hk). unfold holds in *. cbn. destruct (decide (j = k)) as [->|N].
  - apply slice_memcpy_same. lia.
  - rewrite slice_memcpy_other by (rewrite ?length_segment in *; do 3 try destruct k as [|k]; do 3 try destruct j as [|j]; cbn [seg_off seg_max] in *; lia).
    by apply H.
Qed.

Lemma write_ok k off a d (Q : unit -> pb_adv -> list bytes -> Prop) :
  (k <= 2)%nat -> off = Z.of_nat (seg_off k) -> Q tt (wrote k a) d -> runs (rx_write adv_of off (segment k)) a d Q.
Proof.
  intros Hk -> HQ. unfold rx_write. pose proof (segment_fits k Hk). apply runs_bind.
  eapply runs_need; [rewrite (proj2 (Z.leb_le _ _)), (proj2 (Z.leb_le (_ + _) _)) by lia; reflexivity|].
  apply runs_adv. wp_step. by rewrite Nat2Z.id.
Qed.

(** The state after the segments of [g] have arrived, and what has been handed over. *)
Definition after (g : nat -> bool) (d : list bytes) (x : unit) (a : pb_adv) (d' : list bytes) : Prop :=
  if seg_mask g =? 0 then delivers d x a d' else d' = d /\ receiving g a.

(** When every segment is there, the message is complete. *)
Lemma mask_zero g : seg_mask g = 0 -> forall k, Z.of_nat k <= last -> g k = true.
Proof. intros H k Hk. pose proof (mask_bit g k Hk) as B. rewrite H, Z.bits_0 in B. by destruct (g k). Qed.

(** The end of both handlers: complete, or still waiting for the rest. *)
Lemma segment_done g a d :
  open_link a -> rx_id a = t -> rx_seg a = seg_mask g -> rx_last_seg a = (if g 0%nat then last else 255) ->
  (g 0%nat = true -> rx_len a = len /\ rx_fcs a = fcs) -> (forall k, g k = true -> Z.of_nat k <= last /\ holds k a) ->
  (exists k, g k = true) ->
  runs (when (rx_seg a =? 0) (prov_msg_recv adv_create adv_of up_error up_recv)) a d (after g d).
Proof.
  intros Ho Hi Hs Hl H0 Hk He. unfold after. rewrite Hs.
  assert (0 <= last) as L0 by (destruct last_cases as [[_ E]|[[_ E]|[_ E]]]; rewrite E; lia).
  destruct (Z.eqb_spec (seg_mask g) 0) as [Z|N]; cbn [when].
  - pose proof (mask_zero g Z) as All. destruct (H0 (All 0%nat L0)). apply msg_complete; try done; [by rewrite Hs|apply Hk, All..|intros; apply Hk, All; lia|intros; apply Hk, All; lia].
    lia.
  - apply runs_ret. split; [done|]. by split.
Qed.

Lemma gpc_cont k : (k <= 2)%nat -> GPCF (GPC_CONT (Z.of_nat k)) = 2 /\ gpc_arg (GPC_CONT (Z.of_nat k)) = Z.of_nat k.
Proof. intros H. do 3 try destruct k as [|k]; [done..|lia]. Qed.

(** The arguments of [cont_segment] after a segment has been written. *)
Lemma cont_new k g a d :
  (1 <= k)%nat -> Z.of_nat k <= last -> open_link a -> rx_id a = t -> rx_seg a = seg_mask g -> g k = false ->
  rx_last_seg a = (if g 0%nat then last else 255) ->
  (g 0%nat = true -> rx_len a = len /\ rx_fcs a = fcs) -> (forall j, g j = true -> Z.of_nat j <= last /\ holds j a) ->
  runs (cont_segment adv_create adv_of up_error up_recv (Z.of_nat k) (segment k)) a d (after (add k g) d).
Proof.
  intros H1 Hk Ho Hi Hs Hg Hl H0 Hh. pose proof (segment_room k Hk) as K2. unfold cont_segment. apply runs_bind, runs_get.
  rewrite (proj2 (Z.ltb_ge _ _)) by (rewrite Hl; destruct (g 0%nat); lia).
  apply runs_bind. eapply runs_need; [unfold ulong_bit; by rewrite (proj2 (Z.ltb_lt _ _)) by lia|].
  rewrite land_bit, Hs, mask_bit, Hg by (done || lia). cbn [negb]. apply runs_bind, (write_ok k); [done| |].
  { do 3 try destruct k as [|k]; cbn [seg_off]; lia. }
  apply runs_bind. unfold seg_recv. apply runs_adv. wp_step. apply runs_bind, runs_get.
  set (a1 := wrote k a <| rx_seg := _ |>).
  assert (rx_seg a1 = seg_mask (add k g)) as S1 by (cbn; rewrite Hs; apply mask_clear; [done|right; lia]).
  assert ((Z.of_nat k =? rx_last_seg a1) && negb (Z.testbit (rx_seg a1) 0)
          && negb (u8 (rx_len a1 - 20 - (rx_last_seg a1 - 1) * 23) =? Z.of_nat (length (segment k))) = false) as ->.
  { rewrite S1. change 0 with (Z.of_nat 0). rewrite mask_bit by lia. unfold add. rewrite (proj2 (Nat.eqb_neq 0 k)) by lia.
    cbn [orb]. change (rx_last_seg a1) with (rx_last_seg a). change (rx_len a1) with (rx_len a). rewrite Hl.
    destruct (g 0%nat) eqn:G0; [|by rewrite andb_false_r]. destruct (H0 eq_refl) as [-> _].
    destruct (Z.eqb_spec (Z.of_nat k) last) as [El|]; [|done]. cbn [negb andb]. apply negb_false_iff, Z.eqb_eq.
    rewrite length_segment. unfold len.
    destruct last_cases as [[? E]|[[? E]|[? E]]]; rewrite E in *; do 3 try destruct k as [|k]; try lia; cbn [seg_off seg_max];
      rewrite u8_id by (unfold is_u8; lia); lia. }
  apply (segment_done (add k g) a1 d); try done.
  - by apply (wrote_open k a K2 Ho).
  - change (rx_last_seg a1) with (rx_last_seg a). rewrite Hl. unfold add. by rewrite (proj2 (Nat.eqb_neq 0 k)) by lia.
  - unfold add. rewrite (proj2 (Nat.eqb_neq 0 k)) by lia. exact H0.
  - intros j Hj. unfold add in Hj. assert (Z.of_nat j <= last) as Lj.
    { apply orb_true_iff in Hj as [->%Nat.eqb_eq|Hj]; [done|by apply Hh]. }
    split; [done|]. apply (wrote_holds k j a K2 (segment_room j Lj)); [apply Ho|]. intros N.
    apply orb_true_iff in Hj as [Hj%Nat.eqb_eq|Hj]; [done|by apply Hh].
  - exists k. unfold add. by rewrite Nat.eqb_refl.
Qed.

Lemma after_same g g' d x a d' : (forall k, g k = g' k) -> after g d x a d' -> after g' d x a d'.
Proof.
  intros E. assert (seg_mask g = seg_mask g') as M by (unfold seg_mask; by rewrite !E). unfold after. rewrite M.
  destruct (_ =? _); [done|]. intros [-> [R1 R2 R3 R4 R5 R6 R7 [k0 R8]]]. split; [done|]. rewrite M in *. rewrite E in *.
  split; try done; [|by exists k0]. intros k Hk. apply R7. by rewrite E.
Qed.

Lemma cont_arrives k g a d :
  (1 <= k)%nat -> Z.of_nat k <= last -> receiving g a -> runs (RECV (cont_pkt k)) a d (after (add k g) d).
Proof.
  intros H1 Hk R. pose proof (segment_room k Hk) as K2. destruct (gpc_cont k K2) as [G1 G2]. pose proof R as [R1 R2 R3 R4 R5 R6 R7 R8].
  apply recv_packet; [done|]. unfold gen_prov_recv. apply runs_bind, runs_look. rewrite G1. cbn [Z.eqb Pos.eqb].
  rewrite (proj1 R1). cbn [when]. unfold gen_prov_cont. rewrite G2. apply runs_bind, runs_get.
  rewrite R3, (proj2 (Z.eqb_neq _ _)), R2, Z.eqb_refl by done. cbn [andb negb].
  destruct (g k) eqn:Gk; [|by apply cont_new].
  unfold cont_segment. apply runs_bind, runs_get. rewrite (proj2 (Z.ltb_ge _ _)) by (rewrite R5; destruct (g 0%nat); lia).
  apply runs_bind. eapply runs_need; [unfold ulong_bit; by rewrite (proj2 (Z.ltb_lt _ _)) by lia|].
  rewrite land_bit, R3, mask_bit, Gk by (done || lia). cbn [negb]. apply runs_ret.
  apply (after_same g); [|unfold after; by rewrite (proj2 (Z.eqb_neq _ _))].
  intros j. unfold add. destruct (Nat.eqb_spec j k) as [->|]; [by rewrite Gk|done].
Qed.

Lemma cont_first k a d : (1 <= k)%nat -> Z.of_nat k <= last -> waiting a -> runs (RECV (cont_pkt k)) a d (after (add k (fun _ => false)) d).
Proof.
  intros H1 Hk (Ho & Hs & Hn & Hi). pose proof (segment_room k Hk) as K2. destruct (gpc_cont k K2) as [G1 G2].
  apply recv_packet; [done|]. unfold gen_prov_recv. apply runs_bind, runs_look. rewrite G1. cbn [Z.eqb Pos.eqb].
  rewrite (proj1 Ho). cbn [when]. unfold gen_prov_cont. rewrite G2. apply runs_bind, runs_get.
  rewrite Hs, (proj2 (Z.eqb_neq _ _) Hi), Hn, !Z.eqb_refl. cbn [andb]. apply runs_bind, runs_adv. wp_step.
  apply runs_bind, runs_adv. eapply wp_mono; [apply clear_tx_rx|]. intros ? a1 R.
  pose proof R as (_ & _ & I1 & S1 & L1 & _). apply cont_new; try done. exact (open_same _ _ R Ho).
Qed.

Lemma gpc_start : GPCF (GPC_START last) = 0 /\ gpc_arg (GPC_START last) = last.
Proof. destruct last_cases as [[_ E]|[[_ E]|[_ E]]]; rewrite E; done. Qed.

(** No segment beyond the last one has arrived. *)
Lemma mask_msb g :
  g 0%nat = false -> (exists k, g k = true) -> (forall k, g k = true -> Z.of_nat k <= last) ->
  (last <? u32 (find_msb_set (Z.land (Z.lnot (seg_mask g)) SEG_NVAL) - 1)) = false.
Proof.
  intros H0 [k Hk] Hl. unfold seg_mask. pose proof (Hl 1%nat) as L1. pose proof (Hl 2%nat) as L2. pose proof (segment_room k (Hl k Hk)).
  assert (g 1%nat = true \/ g 2%nat = true) as H12 by (do 3 try destruct k as [|k]; [congruence|auto..|lia]).
  rewrite H0. destruct last_cases as [[_ E]|[[_ E]|[_ E]]]; rewrite E in *; destruct (g 1%nat), (g 2%nat);
    try (specialize (L1 eq_refl)); try (specialize (L2 eq_refl)); try lia; try reflexivity; by destruct H12.
Qed.

Lemma mask_start g : g 0%nat = false ->
  Z.clearbit (u8 (Z.land (seg_mask g) (Z.shiftl 1 (last + 1) - 1))) 0 = seg_mask (add 0 g).
Proof.
  intros H0. unfold seg_mask, add. cbn [Nat.eqb orb]. rewrite H0.
  destruct last_cases as [[_ E]|[[_ E]|[_ E]]]; rewrite E; destruct (g 1%nat), (g 2%nat); reflexivity.
Qed.

Lemma start_new g a d :
  open_link a -> g 0%nat = false ->
  (rx_seg a = 0 /\ (forall k, g k = false)) \/ (rx_seg a = seg_mask g /\ seg_mask g <> 0 /\ exists k, g k = true) ->
  (forall k, g k = true -> Z.of_nat k <= last /\ holds k a) ->
  runs (start_segment adv_create adv_of up_error up_recv t (GPC_START last) len fcs (segment 0)) a d (after (add 0 g) d).
Proof.
  intros Ho G0 Hs Hh. assert (0 <= last <= 2) as Ll by (destruct last_cases as [[_ E]|[[_ E]|[_ E]]]; rewrite E; lia).
  unfold start_segment. rewrite (proj2 gpc_start). apply runs_bind, runs_adv. wp_step.
  rewrite (proj2 (Z.ltb_ge len 1)), (proj2 (Z.ltb_ge 65 len)) by (unfold len; lia).
  assert ((0 <? last) && (len <=? 20) = false) as ->.
  { unfold len. destruct last_cases as [[? E]|[[? E]|[? E]]]; rewrite E; [done|apply Z.leb_gt; lia..]. }
  apply runs_bind, runs_adv. eapply wp_mono; [apply clear_tx_rx|]. intros ? a1 R.
  pose proof R as (_ & _ & I1 & S1 & _ & F1 & D1 & N1 & _). pose proof (open_same _ _ R Ho) as Ho1.
  apply runs_bind, runs_adv. wp_step. apply runs_bind, runs_get. cbn [rx_seg].
  match goal with |- context [Z.testbit (rx_seg ?x) 0] => change (rx_seg x) with (rx_seg a1) end.
  match goal with |- context [u32 (find_msb_set (Z.land (Z.lnot (rx_seg ?x)) _) - 1)] => change (rx_seg x) with (rx_seg a1) end.
  change (rx_seg (a <| rx_len := len |> <| rx_id := t |> <| rx_fcs := fcs |>)) with (rx_seg a) in S1. rewrite S1.
  assert (Z.testbit (rx_seg a) 0 && (last <? u32 (find_msb_set (Z.land (Z.lnot (rx_seg a)) SEG_NVAL) - 1)) = false) as ->.
  { destruct Hs as [[-> _]|(-> & _ & He)]; [done|]. rewrite mask_msb; [apply andb_false_r|done..|intros k Hk; by apply Hh]. }
  assert ((if rx_seg a =? 0 then SEG_NVAL else rx_seg a) = seg_mask g) as ->.
  { destruct Hs as [[-> Hn]|(-> & Hn & _)]; [unfold seg_mask; by rewrite !Hn|by rewrite (proj2 (Z.eqb_neq _ _))]. }
  apply runs_bind. eapply runs_need; [unfold int_bit; by rewrite (proj2 (Z.ltb_lt _ _)) by lia|].
  apply runs_bind, runs_adv. wp_step. apply runs_bind, (write_ok 0); [lia|done|].
  apply runs_bind. unfold seg_recv. apply runs_adv. wp_step. apply runs_bind, runs_look.
  match goal with |- runs _ ?x _ _ => set (a2 := x) end.
  apply (segment_done (add 0 g) a2 d).
  - exact (wrote_open 0 (a1 <| rx_last_seg := last |> <| rx_seg := 0 |>) ltac:(lia) Ho1).
  - exact I1.
  - cbn. apply mask_start, G0.
  - done.
  - intros _. split; [exact N1|exact F1].
  - intros k Hk. unfold add in Hk. assert (Z.of_nat k <= last) as Lk.
    { apply orb_true_iff in Hk as [->%Nat.eqb_eq|Hk]; [lia|by apply Hh]. }
    split; [done|]. apply (wrote_holds 0 k a1); [lia|by apply segment_room|apply Ho1|]. intros N.
    apply orb_true_iff in Hk as [Hk%Nat.eqb_eq|Hk]; [done|]. unfold holds. rewrite D1. by apply Hh.
  - by exists 0%nat.
Qed.

(** The start packet leads to [start_segment] with the fields it carries. *)
Lemma start_decode :
  sys_get_be16 (sys_put_be16 len ++ [fcs] ++ segment 0) = len /\ byte_at (sys_put_be16 len ++ [fcs] ++ segment 0) 2 = fcs /\
  drop 3 (sys_put_be16 len ++ [fcs] ++ segment 0) = segment 0.
Proof. rewrite get_put_be16 by (unfold is_u16, len; lia). done. Qed.

Lemma start_arrives g a d : receiving g a -> runs (RECV start_pkt) a d (after (add 0 g) d).
Proof.
  intros R. pose proof R as [R1 R2 R3 R4 R5 R6 R7 R8]. destruct start_decode as (E1 & E2 & E3).
  assert (0 <= last) as L0 by (destruct last_cases as [[_ E]|[[_ E]|[_ E]]]; rewrite E; lia).
  apply recv_packet; [done|]. unfold gen_prov_recv. apply runs_bind, runs_look. rewrite (proj1 gpc_start). cbn [Z.eqb].
  rewrite (proj2 (Nat.ltb_ge _ _)) by (rewrite !length_app; cbn; lia). rewrite (proj1 R1). cbn [when].
  unfold gen_prov_start. apply runs_bind, runs_get. rewrite E1, E2, E3, R2, Z.eqb_refl, R3, (proj2 (Z.eqb_neq _ _)) by done.
  change 0 with (Z.of_nat 0) at 1. rewrite (mask_bit g 0) by lia. destruct (g 0%nat) eqn:G0; cbn [negb].
  - apply runs_ret, (after_same g); [intros k; unfold add; destruct (Nat.eqb_spec k 0) as [->|]; [by rewrite G0|done]|].
    unfold after. by rewrite (proj2 (Z.eqb_neq _ _)).
  - apply start_new; try done. by right.
Qed.

Lemma start_first a d : waiting a -> runs (RECV start_pkt) a d (after (add 0 (fun _ => false)) d).
Proof.
  intros (Ho & Hs & Hn & Hi). destruct start_decode as (E1 & E2 & E3).
  apply recv_packet; [done|]. unfold gen_prov_recv. apply runs_bind, runs_look. rewrite (proj1 gpc_start). cbn [Z.eqb].
  rewrite (proj2 (Nat.ltb_ge _ _)) by (rewrite !length_app; cbn; lia). rewrite (proj1 Ho). cbn [when].
  unfold gen_prov_start. apply runs_bind, runs_get. rewrite E1, E2, E3, Hn, (Z.eqb_sym t), (proj2 (Z.eqb_neq _ _) Hi), Z.eqb_refl.
  cbn [negb]. apply start_new; try done. by left.
Qed.

(** After the last packet, repeated ones only ask for the acknowledgement again. *)
Lemma repeat_packet k a d :
  Z.of_nat k <= last -> finished a -> runs (RECV (packet k)) a d (fun _ a' d' => d' = d /\ finished a').
Proof.
  intros Hk (Ho & Hs & Hi).
  assert (runs (resend_ack adv_create adv_of t) a d (fun _ a' d' => d' = d /\ finished a')) as Hr.
  { unfold resend_ack. apply runs_bind, runs_look, runs_when; intros _; [|by split].
    apply runs_adv. eapply wp_mono; [apply ack_send_rx|]. intros ? a1 R. split; [done|]. exact (finished_same _ _ R (conj Ho (conj Hs Hi))). }
  destruct k as [|k].
  - apply recv_packet; [done|]. unfold gen_prov_recv. apply runs_bind, runs_look. rewrite (proj1 gpc_start). cbn [Z.eqb].
    rewrite (proj2 (Nat.ltb_ge _ _)) by (rewrite !length_app; cbn; lia). rewrite (proj1 Ho). cbn [when].
    unfold gen_prov_start. apply runs_bind, runs_get. by rewrite Hi, Hs, !Z.eqb_refl.
  - pose proof (segment_room _ Hk) as K2. destruct (gpc_cont _ K2) as [G1 G2].
    apply recv_packet; [done|]. unfold gen_prov_recv. apply runs_bind, runs_look. rewrite G1. cbn [Z.eqb Pos.eqb].
    rewrite (proj1 Ho). cbn [when]. unfold gen_prov_cont. apply runs_bind, runs_get. by rewrite Hi, Hs, !Z.eqb_refl.
Qed.

(** ** Any packets in any order *)

Fixpoint recv_all (ps : list bytes) : ST W unit :=
  match ps with [] => mret tt | p :: ps => _ ← RECV p; recv_all ps end.

(** The receiver once the packets of [g] have arrived, the list having been [d] before. *)
Definition stage (g : nat -> bool) (d : list bytes) (a : pb_adv) (d' : list bytes) : Prop :=
  (waiting a /\ d' = d /\ forall k, g k = false) \/ ((exists k, g k = true) /\ after g d tt a d').

Lemma packet_arrives k g a d0 d :
  Z.of_nat k <= last -> stage g d0 a d -> runs (RECV (packet k)) a d (fun _ => stage (add k g) d0).
Proof.
  intros Hk Hst. assert (exists j, add k g j = true) as He by (exists k; unfold add; by rewrite Nat.eqb_refl).
  assert (runs (RECV (packet k)) a d (fun x => after (add k g) d0 x)) as Hr.
  2: { eapply runs_mono; [exact Hr|]. intros [] a' d' Ha. by right. }
  destruct Hst as [(Hw & -> & Hg)|[_ Ha]].
  - assert (forall j, add k (fun _ => false) j = add k g j) as E by (intros j; unfold add; by rewrite Hg).
    eapply runs_mono; [|intros x a' d'; by apply (after_same _ _ _ _ _ _ E)].
    destruct k as [|k]; [by apply start_first|apply cont_first; [lia|done..]].
  - unfold after in Ha. destruct (Z.eqb_spec (seg_mask g) 0) as [Z|N].
    + destruct Ha as [Hf ->]. eapply runs_mono; [by apply repeat_packet|]. intros x a' d' [-> Hf'].
      apply (after_same g); [|unfold after; by rewrite Z].
      intros j. unfold add. destruct (Nat.eqb_spec j k) as [->|]; [|done]. by apply mask_zero.
    + destruct Ha as [-> R]. destruct k as [|k]; [by apply start_arrives|apply cont_arrives; [lia|done..]].
Qed.

Lemma packets_arrive ks g a d0 d :
  Forall (fun k => Z.of_nat k <= last) ks -> stage g d0 a d ->
  runs (recv_all (map packet ks)) a d (fun _ => stage (fun j => existsb (Nat.eqb j) ks || g j) d0).
Proof.
  intros Hks. revert g a d. induction Hks as [|k ks Hk Hks IH]; intros g a d Hst; cbn [map recv_all].
  - apply runs_ret. exact Hst.
  - apply runs_bind. eapply runs_mono; [by apply packet_arrives|]. intros [] a1 d1 H1.
    eapply runs_mono; [by apply IH|]. intros [] a2 d2 H2.
    assert (forall j, existsb (Nat.eqb j) ks || add k g j = existsb (Nat.eqb j) (k :: ks) || g j) as E.
    { intros j. unfold add. cbn [existsb]. by destruct (_ =? _)%nat, (existsb _ _). }
    destruct H2 as [(Hw & Hd & Hn)|[[j Hj] Ha]]; [left|right].
    + split; [done|]. split; [done|]. intros j. by rewrite <- E.
    + split; [exists j; by rewrite <- E|]. by apply (after_same _ _ _ _ _ _ E).
Qed.

(** Handed over exactly when every packet has arrived. *)
Lemma mask_all g : (forall k, Z.of_nat k <= last -> g k = true) -> seg_mask g = 0.
Proof.
  intros H. pose proof (H 0%nat) as H0. pose proof (H 1%nat) as H1. pose proof (H 2%nat) as H2. unfold seg_mask.
  destruct last_cases as [[_ E]|[[_ E]|[_ E]]]; rewrite E in *; rewrite H0 by lia; rewrite ?H1 by lia; rewrite ?H2 by lia;
    destruct (g 1%nat), (g 2%nat); reflexivity.
Qed.

Lemma stage_delivered g d a d' :
  stage g d a d' -> d' = d ++ (if decide (Forall (fun k => g k = true) (seq 0 (Datatypes.S (Z.to_nat last)))) then [m] else []).
Proof.
  assert (0 <= last) as L0 by (destruct last_cases as [[_ E]|[[_ E]|[_ E]]]; rewrite E; lia).
  assert (Forall (fun k => g k = true) (seq 0 (Datatypes.S (Z.to_nat last))) <-> seg_mask g = 0) as Hm.
  { rewrite list.Forall_forall. split.
    - intros H. apply mask_all. intros k Hk. apply H, elem_of_seq. lia.
    - intros Z k Hk%elem_of_seq. apply mask_zero; [done|lia]. }
  intros [(_ & -> & Hn)|[_ Ha]].
  - rewrite decide_False; [by rewrite app_nil_r|]. intros HF. apply list.Forall_forall with (x := 0%nat) in HF; [by rewrite Hn in HF|].
    apply elem_of_seq. lia.
  - unfold after in Ha. destruct (Z.eqb_spec (seg_mask g) 0) as [Z|N].
    + rewrite decide_True by (by apply Hm). apply Ha.
    + rewrite decide_False by (by intros ?%Hm). rewrite app_nil_r. apply Ha.
Qed.

(** ** Where the receiver goes wrong *)

Definition undefined {A : Type} (p : ST W A) (a : pb_adv) (d : list bytes) : Prop := forall s, seen s a d -> p s = None.

Lemma undefined_need {A B : Type} (o : option A) (k : A -> ST W B) a d : o = None -> undefined (need o ≫= k) a d.
Proof. intros -> s _. done. Qed.

Lemma undefined_here {A B : Type} (p : ST W A) (k : A -> ST W B) a d : undefined p a d -> undefined (p ≫= k) a d.
Proof. intros H s Hs. unfold mbind, ST_bind. by rewrite (H s Hs). Qed.

Lemma undefined_later {A B : Type} (p : ST W A) (k : A -> ST W B) a d :
  runs p a d (fun x a' d' => undefined (k x) a' d') -> undefined (p ≫= k) a d.
Proof.
  intros H s Hs. destruct (H s Hs) as (x & s' & E & a' & d' & Hs' & HU). unfold mbind, ST_bind. rewrite E. by apply HU.
Qed.

(** The segment numbers whose place is outside the array, or that are no shift. *)
Definition bad_segment (seg : Z) : Prop := seg = 0 \/ 3 <= seg <= 7 \/ 32 <= seg < 64.

Lemma cont_overflow seg payload a d :
  bad_segment seg -> open_link a -> rx_seg a = 0 -> next_transaction_id (rx_id a) = t -> rx_id a <> t ->
  undefined (RECV (header (GPC_CONT seg) ++ payload)) a d.
Proof using client link_u32.
  clear m_len m_43.
  intros Hb (A1 & A2 & A3 & A4 & A5) Hs Hn Hi.
  assert (0 <= seg < 64) as R by (destruct Hb as [|[|]]; lia).
  assert (GPCF (GPC_CONT seg) = 2 /\ gpc_arg (GPC_CONT seg) = seg) as [G1 G2].
  { assert ((GPCF (GPC_CONT seg) =? 2) && (gpc_arg (GPC_CONT seg) =? seg) = true) as H; [|apply andb_true_iff in H as [? ?]; zbool; done].
    assert (forallb (fun x => (GPCF (GPC_CONT x) =? 2) && (gpc_arg (GPC_CONT x) =? x)) (seqZ 0 64) = true) as F by reflexivity.
    rewrite forallb_forall in F. apply F, list_elem_of_In, elem_of_seqZ. lia. }
  unfold bt_mesh_pb_adv_recv. apply undefined_later, runs_get. rewrite A1, A3, A4. cbn [negb].
  unfold header. rewrite <- app_assoc, get_put_be32, Z.eqb_refl by done. cbn [andb negb].
  rewrite (proj2 (Nat.ltb_ge _ _)) by (rewrite !length_app; cbn; lia).
  change (byte_at _ 4) with t. change (byte_at _ 5) with (GPC_CONT seg). change (drop 6 _) with payload.
  unfold gen_prov_recv. apply undefined_later, runs_look. rewrite G1. cbn [Z.eqb Pos.eqb]. rewrite A1. cbn [when].
  unfold gen_prov_cont. apply undefined_later, runs_get. rewrite G2, Hs, (proj2 (Z.eqb_neq _ _) Hi), Hn, !Z.eqb_refl. cbn [andb].
  apply undefined_later, runs_adv. wp_step. apply undefined_later, runs_adv. eapply wp_mono; [apply clear_tx_rx|]. intros ? a1 R1.
  pose proof R1 as (_ & _ & _ & S1 & L1 & _). change (rx_seg a1 = 255) in S1. change (rx_last_seg a1 = 255) in L1.
  unfold cont_segment. apply undefined_later, runs_get. rewrite L1, S1, (proj2 (Z.ltb_ge _ _)) by lia.
  destruct (decide (seg < 32)).
  - apply undefined_later. eapply runs_need; [unfold ulong_bit; by rewrite (proj2 (Z.ltb_lt _ _)) by lia|].
    rewrite land_bit by lia.
    assert (Z.testbit 255 seg = true) as ->.
    { change 255 with (Z.ones 8). apply Z.ones_spec_low. destruct Hb as [|[|]]; lia. }
    cbn [negb]. apply undefined_here. unfold rx_write. apply undefined_need.
    destruct Hb as [->|[Hb|Hb]]; [done| |lia].
    rewrite (proj2 (Z.leb_gt (_ + _) _)) by lia. by rewrite andb_false_r.
  - apply undefined_need. unfold ulong_bit. by rewrite (proj2 (Z.ltb_ge _ _)) by lia.
Qed.

(** A first segment with a wrong check sequence ends the transaction all the same. *)
Definition bad_start (total f : Z) (data : bytes) : bytes := header (GPC_START 0) ++ sys_put_be16 total ++ [f] ++ data.

Lemma bad_start_ends total f data a d :
  1 <= total <= 65 -> (length data <= 20)%nat -> waiting a ->
  bt_mesh_fcs_check (mkBuf 0 (Z.to_nat total) (memcpy_at 0 data (rx_data a))) f = false ->
  runs (RECV (bad_start total f data)) a d (fun _ a' d' => d' = d /\ finished a' /\ adv_test ADV_ACK_PENDING a' = adv_test ADV_ACK_PENDING a).
Proof using client link_u32.
  clear m_len m_43.
  intros Ht Hd (Ho & Hs & Hn & Hi) Hf. apply recv_packet; [done|]. unfold gen_prov_recv. apply runs_bind, runs_look.
  change (GPCF (GPC_START 0)) with 0. cbn [Z.eqb]. rewrite (proj2 (Nat.ltb_ge _ _)) by (rewrite !length_app; cbn; lia).
  rewrite (proj1 Ho). cbn [when]. unfold gen_prov_start. apply runs_bind, runs_get.
  rewrite get_put_be16 by (unfold is_u16; lia). change (byte_at _ 2) with f. change (drop 3 _) with data.
  rewrite (Z.eqb_sym t), (proj2 (Z.eqb_neq _ _) Hi), Hn, Z.eqb_refl. cbn [negb].
  unfold start_segment. change (gpc_arg (GPC_START 0)) with 0. apply runs_bind, runs_adv. wp_step.
  rewrite (proj2 (Z.ltb_ge total 1)), (proj2 (Z.ltb_ge 65 total)) by lia. cbn [Z.ltb Z.compare andb].
  unfold prov_clear_tx, free_segments. apply runs_bind, runs_adv. repeat wp_step. apply runs_bind, runs_adv. wp_step. apply runs_bind, runs_get.
  match goal with |- runs (if Z.testbit ?x 0 && _ then _ else _) _ _ _ => change x with (rx_seg a) end. rewrite Hs. cbn [Z.testbit andb].
  apply runs_bind. eapply runs_need; [reflexivity|]. apply runs_bind, runs_adv. wp_step. apply runs_bind. unfold rx_write.
  apply runs_bind. eapply runs_need; [rewrite (proj2 (Z.leb_le (_ + _) _)) by lia; reflexivity|]. apply runs_adv. wp_step.
  apply runs_bind. unfold seg_recv. apply runs_adv. wp_step. apply runs_bind, runs_look.
  match goal with |- runs (when (?x =? 0) _) _ _ _ => change x with 0 end. cbn [Z.eqb when].
  unfold prov_msg_recv. apply runs_bind, runs_adv. unfold submit_prot_timer. wp_step. apply runs_bind, runs_get.
  apply runs_bind. eapply runs_need; [cbn; by rewrite (proj2 (Z.leb_le _ _)) by lia|].
  match goal with |- runs (if negb ?c then _ else _) _ _ _ => change c with (bt_mesh_fcs_check (mkBuf 0 (Z.to_nat total) (memcpy_at 0 data (rx_data a))) f) end.
  rewrite Hf. cbn [negb]. apply runs_ret. split; [done|]. split; [|done].
  destruct Ho as (A1 & A2 & A3 & A4 & A5). split; [|done]. repeat (split; [done|]). cbn. rewrite length_memcpy_at; [done|lia].
Qed.

Lemma repeats_ignored ks a d :
  Forall (fun k => Z.of_nat k <= last) ks -> finished a ->
  runs (recv_all (map packet ks)) a d (fun _ a' d' => d' = d /\ finished a').
Proof.
  intros Hks. revert a. induction Hks as [|k ks Hk Hks IH]; intros a Hf; cbn [map recv_all]; [by apply runs_ret|].
  apply runs_bind. eapply runs_mono; [by apply repeat_packet|]. intros [] a1 d1 [-> Hf1]. by apply IH.
Qed.

(** The first repetition is acknowledged. *)
Lemma repeat_acked k a d :
  Z.of_nat k <= last -> finished a -> adv_test ADV_ACK_PENDING a = false -> (forall n, adv_create n = true) ->
  runs (RECV (packet k)) a d (fun _ a' _ => pa_log a' = pa_log a ++ [AdvSend (sys_put_be32 link ++ [t; GPC_ACK]) AckCompleteCb]).
Proof.
  intros Hk (Ho & Hs & Hi) Hp Hc.
  assert (runs (resend_ack adv_create adv_of t) a d
            (fun _ a' _ => pa_log a' = pa_log a ++ [AdvSend (sys_put_be32 link ++ [t; GPC_ACK]) AckCompleteCb])) as Hr.
  { unfold resend_ack. apply runs_bind, runs_look. rewrite Hp. cbn [negb when]. apply runs_adv.
    unfold gen_prov_ack_send, adv_set, adv_buf_create, adv_send. repeat wp_step. unfold id. rewrite Hp. cbn [andb].
    repeat wp_step. rewrite Hc. cbn [negb]. repeat wp_step. cbn. by destruct Ho as (_ & _ & _ & -> & _). }
  destruct k as [|k].
  - apply recv_packet; [done|]. unfold gen_prov_recv. apply runs_bind, runs_look. rewrite (proj1 gpc_start). cbn [Z.eqb].
    rewrite (proj2 (Nat.ltb_ge _ _)) by (rewrite !length_app; cbn; lia). rewrite (proj1 Ho). cbn [when].
    unfold gen_prov_start. apply runs_bind, runs_get. by rewrite Hi, Hs, !Z.eqb_refl.
  - pose proof (segment_room _ Hk) as K2. destruct (gpc_cont _ K2) as [G1 G2].
    apply recv_packet; [done|]. unfold gen_prov_recv. apply runs_bind, runs_look. rewrite G1. cbn [Z.eqb Pos.eqb].
    rewrite (proj1 Ho). cbn [when]. unfold gen_prov_cont. apply runs_bind, runs_get. by rewrite Hi, Hs, !Z.eqb_refl.
Qed.
End Receive.

(** ** The sender *)

Section Send.
Context (adv_create : nat -> bool) (buffers : forall k, adv_create k = true).

(** The packets of a transaction. *)
Definition packets (m : bytes) (link t : Z) : list bytes := map (packet m link t) (seq 0 (S (Z.to_nat (last m)))).

(** What was given to the advertiser. *)
Definition sent_data (e : adv_event) : list bytes := match e with AdvSend data _ => [data] | _ => [] end.

(** A send after another one finds the array without holes. *)
Definition tx_ready (a : pb_adv) : Prop := free_bufs (tx_buf a) = replicate 3 None.

Lemma wp_buf_create a (Q : bool -> pb_adv -> Prop) :
  Q true (a <| pa_allocs := S (pa_allocs a) |>) -> wp (adv_buf_create adv_create) Q a.
Proof. intros H. unfold adv_buf_create. repeat wp_step. by rewrite buffers. Qed.

(** One round of the loop over the continuation segments. *)
Lemma send_cont_step n k rest a (Q : ret_code -> pb_adv -> Prop) :
  (length rest <> 0)%nat -> 1 <= k < 3 ->
  wp (send_cont adv_create n (k + 1) (drop 23 rest)) Q
    (a <| pa_allocs := S (pa_allocs a) |>
       <| tx_buf := <[Z.to_nat k := Some (mkAdvBuf (sys_put_be32 (pa_id a) ++ [tx_id a; GPC_CONT k] ++ take 23 rest) false)]> (tx_buf a) |>) ->
  wp (send_cont adv_create (S n) k rest) Q a.
Proof.
  intros Hr Hk H. cbn [send_cont]. rewrite (proj2 (Nat.eqb_neq _ _)), (proj2 (Z.leb_gt _ _)) by (done || lia).
  wp_step. apply wp_buf_create. cbn [negb]. unfold set_tx_buf. repeat wp_step. unfold id.
  rewrite u8_id by (unfold is_u8; lia).
  assert (take (Nat.min (length rest) 23) rest = take 23 rest /\ drop (Nat.min (length rest) 23) rest = drop 23 rest) as [-> ->];
    [|exact H].
  destruct (decide (length rest <= 23)%nat).
  - rewrite Nat.min_l, !take_ge, !drop_ge by lia. done.
  - by rewrite Nat.min_r by lia.
Qed.

Lemma send_cont_end n k a (Q : ret_code -> pb_adv -> Prop) : Q None a -> wp (send_cont adv_create n k []) Q a.
Proof. intros H. destruct n; by cbn [send_cont length Nat.eqb]; wp_step. Qed.

(** The array after the loop, and what the loop of [send_reliable] makes of it. *)
Lemma send_packets m cb a :
  (1 <= length m <= 65)%nat -> length m <> 43%nat -> tx_ready a ->
  wp (prov_send_adv adv_create m cb) (fun err a' => err = None /\
    exists evs, pa_log a' = pa_log a ++ evs /\
      concat (map sent_data evs) = packets m (pa_id a) (next_transaction_id (tx_id a)) /\ tx_cb a' = cb) a.
Proof.
  intros Hl H43 Ht. unfold prov_send_adv, prov_clear_tx, free_segments, submit_prot_timer. repeat wp_step.
  apply wp_buf_create. cbn [negb]. unfold set_tx_buf, send_reliable, send_tx. repeat wp_step.
  match goal with |- wp (send_cont _ _ _ _) _ ?x => set (a1 := x) end.
  assert (take (Nat.min (length m) 20) m = take 20 m /\ drop (Nat.min (length m) 20) m = drop 20 m) as [E1 E2].
  { destruct (decide (length m <= 20)%nat); [rewrite Nat.min_l, !take_ge, !drop_ge by lia; done|by rewrite Nat.min_r by lia]. }
  assert (tx_buf a1 = [Some (mkAdvBuf (start_pkt m (pa_id a) (next_transaction_id (tx_id a))) false); None; None]) as Hb.
  { cbn. unfold tx_ready in Ht. rewrite Ht, E1. reflexivity. }
  assert (pa_id a1 = pa_id a /\ tx_id a1 = next_transaction_id (tx_id a) /\ pa_log a1 = pa_log a /\ tx_cb a1 = cb)
    as (Hi & Hx & Hg & Hc) by done.
  rewrite E2. clearbody a1.
  destruct (last_cases m Hl H43) as [[L E]|[[L E]|[L E]]]; unfold packets; rewrite E; cbn [Z.to_nat Pos.to_nat Pos.iter_op Nat.add seq map].
  - rewrite drop_ge by lia. apply send_cont_end. repeat wp_step. split; [done|]. cbn. rewrite Hb, Hg. cbn. by eexists.
  - apply send_cont_step; [rewrite length_drop; lia|lia|]. rewrite (drop_ge (drop 20 m)) by (rewrite length_drop; lia).
    apply send_cont_end. repeat wp_step. split; [done|]. cbn. rewrite Hb, Hg, Hi, Hx. cbn. by eexists.
  - apply send_cont_step; [rewrite length_drop; lia|lia|]. rewrite drop_drop.
    apply send_cont_step; [rewrite length_drop; lia|lia|]. rewrite (drop_ge (drop _ m)) by (rewrite length_drop; lia).
    apply send_cont_end. repeat wp_step. split; [done|]. cbn. rewrite Hb, Hg, Hi, Hx. cbn. by eexists.
Qed.
End Send.

(** ** A transaction from one side to the other *)

Lemma elem_of_map {A B : Type} (f : A -> B) l y : y ∈ map f l <-> exists x, y = f x /\ x ∈ l.
Proof. exact (list_elem_of_fmap f l y). Qed.

(** The packets of a transaction differ. *)
Lemma byte_after (l r : bytes) k : byte_at (l ++ r) (length l + k) = byte_at r k.
Proof. unfold byte_at. rewrite app_nth2 by lia. f_equal. lia. Qed.

Lemma packet_gpc m link t k :
  byte_at (packet m link t k) 5 = match k with O => GPC_START (last m) | _ => GPC_CONT (Z.of_nat k) end.
Proof.
  change 5%nat with (length (sys_put_be32 link) + 1)%nat.
  destruct k; unfold packet, start_pkt, cont_pkt, header; rewrite <- !app_assoc, byte_after; done.
Qed.

Lemma packet_inj m link t j k :
  (1 <= length m <= 65)%nat -> length m <> 43%nat -> Z.of_nat j <= last m -> Z.of_nat k <= last m ->
  packet m link t j = packet m link t k -> j = k.
Proof.
  intros Hl H43 Hj Hk E%(f_equal (fun p => byte_at p 5)). rewrite !packet_gpc in E.
  destruct (last_cases m Hl H43) as [[_ El]|[[_ El]|[_ El]]]; rewrite El in *;
    do 3 try destruct j as [|j]; do 3 try destruct k as [|k]; try lia; done.
Qed.

Lemma next_id_differs id : is_u8 id -> next_transaction_id id <> id.
Proof.
  intros H. apply Z.eqb_neq, negb_true_iff. revert id H.
  apply (all_bytes (fun id => negb (next_transaction_id id =? id))). vm_compute. reflexivity.
Qed.

Lemma next_id_u8 id : is_u8 (next_transaction_id id).
Proof. apply u8_range. Qed.

Section Transaction.
Context (tx_create rx_create : nat -> bool) {W : Type} (adv_of : W -> pb_adv) `{!Assignable adv_of}.
Context (up_opened up_closed : ST W unit) (up_error : Z -> ST W unit) (up_recv : bytes -> ST W unit).
Context (up_sent : send_complete -> ST W unit) (own_uuid : W -> bytes).
Context (delivered : W -> list bytes) (client_ok : W -> Prop) {client : AdvClient adv_of up_recv delivered client_ok}.

Local Abbreviation RECV_ALL := (recv_all rx_create adv_of up_opened up_closed up_error up_recv up_sent own_uuid).
Local Abbreviation RECV_ONE := (bt_mesh_pb_adv_recv rx_create adv_of up_opened up_closed up_error up_recv up_sent own_uuid).

(** The packets that arrive, by their numbers. *)
Lemma packet_numbers m link t ps :
  (forall p, p ∈ ps -> p ∈ packets m link t) -> 0 <= last m ->
  exists ks, ps = map (packet m link t) ks /\ Forall (fun k => Z.of_nat k <= last m) ks.
Proof.
  intros H L0. induction ps as [|p ps IH]; [by exists []|]. destruct IH as (ks & -> & Hks); [intros; apply H; by right|].
  destruct (proj1 (elem_of_map _ _ _) (H p ltac:(by left))) as (k & -> & Hk%elem_of_seq).
  exists (k :: ks). split; [done|]. constructor; [lia|done].
Qed.

(** C7: A provisioning PDU sent over the advertising bearer is delivered exactly once.
    The sender splits a PDU of 1 to 65 bytes (not 43) into packets and gives each to
    the advertiser once.  A receiver on the same link that waits for this transaction
    may get the packets in any order, any of them any number of times or not at all.
    Handling them is never undefined, and the provisioning layer is given nothing until
    every packet has arrived, then the PDU, once, whatever is repeated later. *)
Theorem pb_adv_delivers m cb tx s :
  wf_bytes m -> (1 <= length m <= 65)%nat -> length m <> 43%nat ->
  (forall k, tx_create k = true) -> tx_ready tx -> is_u32 (pa_id tx) ->
  client_ok s -> open_link (pa_id tx) (adv_of s) -> rx_seg (adv_of s) = 0 -> is_u8 (rx_id (adv_of s)) ->
  next_transaction_id (rx_id (adv_of s)) = next_transaction_id (tx_id tx) ->
  exists tx' evs, prov_send_adv tx_create m cb tx = Some (None, tx') /\ pa_log tx' = pa_log tx ++ evs /\
    let pkts := concat (map sent_data evs) in
    NoDup pkts /\
    forall ps, (forall p, p ∈ ps -> p ∈ pkts) ->
    exists s', RECV_ALL ps s = Some (tt, s') /\
      delivered s' = delivered s ++ (if decide (Forall (fun p => p ∈ ps) pkts) then [m] else []).
Proof.
  intros Hw Hl H43 Hc Ht Hi Hok Ho Hs Hu Hn.
  destruct (send_packets tx_create Hc m cb tx Hl H43 Ht) as (err & tx' & Es & -> & evs & Hg & Hp & _).
  exists tx', evs. split; [done|]. split; [done|]. rewrite Hp.
  assert (0 <= last m) as L0 by (destruct (last_cases m Hl H43) as [[_ E]|[[_ E]|[_ E]]]; rewrite E; lia).
  set (link := pa_id tx) in *. set (t := next_transaction_id (tx_id tx)) in *.
  split.
  { apply (NoDup_fmap_2_strong (packet m link t)); [|apply NoDup_seq]. intros j k Hj%elem_of_seq Hk%elem_of_seq. apply packet_inj; try done; lia. }
  intros ps Hps. destruct (packet_numbers m link t ps Hps L0) as (ks & -> & Hks).
  assert (stage m link t (fun _ => false) (delivered s) (adv_of s) (delivered s)) as Hst.
  { left. repeat split; try apply Ho; try done. rewrite <- Hn. intros E. by apply (next_id_differs _ Hu). }
  destruct (packets_arrive rx_create adv_of up_opened up_closed up_error up_recv up_sent own_uuid delivered client_ok
              m link t Hw Hl H43 Hi ks _ _ _ _ Hks Hst s) as ([] & s' & Er & a' & d' & (_ & _ & Hd) & H').
  { done. }
  exists s'. split; [exact Er|]. rewrite Hd, (stage_delivered m link t Hl H43 _ _ _ _ H'). f_equal.
  apply decide_ext. unfold packets. rewrite !list.Forall_forall. split.
  - intros H p (k & -> & Hk)%elem_of_map. apply elem_of_map. exists k. split; [done|].
    specialize (H k Hk). rewrite orb_false_r in H. apply existsb_exists in H as (j & Hj & ->%Nat.eqb_eq). by apply list_elem_of_In.
  - intros H k Hk. specialize (H (packet m link t k)).
    assert (packet m link t k ∈ map (packet m link t) ks) as (j & E & Hj)%elem_of_map by (apply H, elem_of_map; eauto).
    apply elem_of_seq in Hk. pose proof (proj1 (list.Forall_forall _ _) Hks j Hj) as Hjl.
    apply packet_inj in E as ->; [|done..|lia|done]. rewrite orb_false_r. apply existsb_exists. exists j. split; [by apply list_elem_of_In|apply Nat.eqb_refl].
Qed.
(** C37: A continuation segment can be written outside the reassembly buffer.  A receiver
    on an open link that waits for the next transaction and gets a continuation packet
    first does not know how many segments there are, and takes any number whose bit is
    set in the initial mask: number 0 is written 3 bytes before the buffer of 65 bytes,
    numbers 3 to 7 behind its end, and the bit of a number from 32 on is no bit of the
    mask's type.  Whatever the packet carries, handling it is undefined. *)
Theorem continuation_undefined seg payload s :
  bad_segment seg -> client_ok s -> is_u32 (pa_id (adv_of s)) -> open_link (pa_id (adv_of s)) (adv_of s) ->
  rx_seg (adv_of s) = 0 -> is_u8 (rx_id (adv_of s)) ->
  RECV_ONE (header (pa_id (adv_of s)) (next_transaction_id (rx_id (adv_of s))) (GPC_CONT seg) ++ payload) s = None.
Proof.
  intros Hb Hc Hi Ho Hs Hu.
  assert (rx_id (adv_of s) <> next_transaction_id (rx_id (adv_of s))) as Hd by (intros E; by apply (next_id_differs _ Hu)).
  by apply (cont_overflow rx_create adv_of up_opened up_closed up_error up_recv up_sent own_uuid delivered client_ok
              _ _ Hi seg payload (adv_of s) (delivered s)).
Qed.

(** C38: A first segment with a wrong check sequence makes the PDU undeliverable.  The
    receiver drops the segment but keeps the transaction as complete: the sender, who
    gets no acknowledgement and sends the same transaction again, is acknowledged, and
    whichever of its packets arrive, the provisioning layer is never given the PDU. *)
Theorem corrupted_start_lost m total f data k ks s :
  (1 <= length m <= 65)%nat -> length m <> 43%nat -> 1 <= total <= 65 -> (length data <= 20)%nat ->
  (forall n, rx_create n = true) -> adv_test ADV_ACK_PENDING (adv_of s) = false ->
  client_ok s -> is_u32 (pa_id (adv_of s)) -> open_link (pa_id (adv_of s)) (adv_of s) ->
  rx_seg (adv_of s) = 0 -> is_u8 (rx_id (adv_of s)) ->
  bt_mesh_fcs_check (mkBuf 0 (Z.to_nat total) (memcpy_at 0 data (rx_data (adv_of s)))) f = false ->
  Forall (fun j => Z.of_nat j <= last m) (k :: ks) ->
  let link := pa_id (adv_of s) in
  let t := next_transaction_id (rx_id (adv_of s)) in
  exists s1 s2 s3,
    RECV_ONE (bad_start link t total f data) s = Some (tt, s1) /\
    RECV_ONE (packet m link t k) s1 = Some (tt, s2) /\
    pa_log (adv_of s2) = pa_log (adv_of s1) ++ [AdvSend (sys_put_be32 link ++ [t; GPC_ACK]) AckCompleteCb] /\
    RECV_ALL (map (packet m link t) ks) s2 = Some (tt, s3) /\ delivered s3 = delivered s.
Proof.
  intros Hl H43 Ht Hd Hc Hp Hok Hi Ho Hs Hu Hf [Hk Hks]%list.Forall_cons link t.
  assert (waiting link t (adv_of s)) as Hw.
  { do 3 (split; [done|]). intros E. by apply (next_id_differs _ Hu). }
  destruct (bad_start_ends rx_create adv_of up_opened up_closed up_error up_recv up_sent own_uuid delivered client_ok
              link t Hi total f data _ (delivered s) Ht Hd Hw Hf s) as ([] & s1 & E1 & a1 & d1 & (C1 & A1 & D1) & -> & F1 & P1); [done|].
  pose proof (repeat_packet rx_create adv_of up_opened up_closed up_error up_recv up_sent own_uuid delivered client_ok
                m link t Hl H43 Hi k a1 (delivered s) Hk F1 s1 ltac:(done)) as ([] & s2 & E2 & a2 & d2 & (C2 & A2 & D2) & -> & F2).
  pose proof (repeat_acked rx_create adv_of up_opened up_closed up_error up_recv up_sent own_uuid delivered client_ok
                m link t Hl H43 Hi k a1 (delivered s) Hk F1 ltac:(congruence) Hc s1 ltac:(done)) as ([] & s2' & E2' & a2' & d2' & (_ & A2' & _) & L2).
  assert (s2' = s2) as -> by congruence. assert (a2' = a2) as -> by congruence.
  pose proof (repeats_ignored rx_create adv_of up_opened up_closed up_error up_recv up_sent own_uuid delivered client_ok
                m link t Hl H43 Hi ks a2 (delivered s) Hks F2 s2 ltac:(done)) as ([] & s3 & E3 & a3 & d3 & (_ & _ & D3) & -> & _).
  exists s1, s2, s3. split; [exact E1|]. split; [exact E2|]. rewrite A1, A2. done.
Qed.
End Transaction.

(** ** The device as client of the bearer *)

(** A node together with the PDUs its provisioning layer has been given. *)
Section DeviceClient.
Context {ecb : Ecb} {ecb_ok : EcbOk} {cmac : Cmac} {cmac_ok : CmacOk} (e : prov_conf_env) (no_cdb : pe_cdb e = false).
Context {G : Type} {friend : FriendOps (mesh G)}.
Context (adv_create : nat -> bool) (adv_enable : ret_code) (new_link_id now : Z).

#[local] Instance bearer_here : ProvBearer pb_adv := adv_bearer adv_create adv_enable new_link_id.

Definition device_link : Type := prov_state G pb_adv * list bytes.
Definition link_adv (s : device_link) : pb_adv := ps_bearer s.1.

#[local] Instance link_adv_assign : Assignable link_adv := fun a s => (s.1 <| ps_bearer := a |>, s.2).

Definition device_recv (m : bytes) : ST device_link unit := fun s =>
  match prov_recv (roles e now) m s.1 with
  | Some (_, s1) => Some (tt, (s1, s.2 ++ [m]))
  | None => None
  end.

(** The callbacks of the bearer, on the same state. *)
Definition on_node (p : ST (prov_state G pb_adv) unit) : ST device_link unit := fun s =>
  match p s.1 with Some (_, s1) => Some (tt, (s1, s.2)) | None => None end.

Definition device_opened : ST device_link unit := on_node (prov_link_opened (roles e now) BT_MESH_PROV_ADV).
Definition device_closed : ST device_link unit := on_node (prov_link_closed (roles e now) BT_MESH_PROV_ADV).
Definition device_error (err : Z) : ST device_link unit := on_node (prov_bearer_error (roles e now) err).
Definition device_sent (cb : send_complete) : ST device_link unit := on_node (send_complete_call e cb).
Definition device_uuid (s : device_link) : bytes := pv_uuid (ps_prov s.1).

(** The functions the provisioning layer calls leave the receiver alone. *)
Lemma free_send_rx b a : wp (send_tx b) (fun _ a' => same_rx a a') a.
Proof. unfold send_tx. wp_step. destruct (send_bufs b (tx_buf a)). by repeat split. Qed.

Lemma send_cont_rx n k msg a : wp (send_cont adv_create n k msg) (fun _ a' => same_rx a a') a.
Proof.
  revert k msg a. induction n as [|n IH]; intros k msg a; cbn [send_cont]; [by wp_step|].
  wp_if; [by wp_step|]. wp_if; [unfold free_segments; repeat wp_step; by repeat split|].
  wp_step. apply buf_create_rx. intros b a1 H1. destruct b; cbn [negb]; unfold free_segments, set_tx_buf; repeat wp_step.
  - eapply wp_mono; [apply IH|]. intros ? a2 H2. etransitivity; [exact H1|]. exact H2.
  - etransitivity; [exact H1|]. by repeat split.
Qed.

Lemma send_adv_rx msg cb a : wp (prov_send_adv adv_create msg cb) (fun _ a' => same_rx a a') a.
Proof.
  unfold prov_send_adv. wp_step. eapply wp_mono; [apply clear_tx_rx|]. intros ? w1 H1.
  wp_step. eapply wp_mono; [apply prot_timer_rx|]. intros ? w2 H2. pose proof (same_rx_trans _ _ _ H1 H2) as H12.
  wp_step. apply buf_create_rx. intros b w3 H3. pose proof (same_rx_trans _ _ _ H12 H3) as H13.
  destruct b; cbn [negb]; [|by wp_step]. unfold set_tx_buf. repeat wp_step. eapply wp_mono; [apply send_cont_rx|].
  intros err w4 H4. assert (same_rx a w4) as H14 by (etransitivity; [exact H13|exact H4]).
  destruct err; [by wp_step|]. unfold send_reliable. repeat wp_step. eapply wp_mono; [apply free_send_rx|]. intros ? w5 H5. wp_step.
  etransitivity; [exact H14|]. exact H5.
Qed.

#[local] Instance adv_bearer_rx a0 : BearerOk bearer_here (same_rx a0).
Proof.
  split; intros b; intros; cbn; (eapply wp_mono; [apply send_adv_rx || apply clear_tx_rx|]); intros ? a' H'; by etransitivity.
Qed.

(** The device handles what the bearer gives it, in every state it can reach. *)
#[local] Instance device_client :
  AdvClient link_adv device_recv snd (fun s => dev_inv (fun _ => True) s.1).
Proof.
  split.
  - done.
  - done.
  - intros s a (L & E & _ & N). done.
  - intros m s (L & E & _ & N) Hm Hw.
    destruct (recv_ok e (same_rx (ps_bearer s.1)) no_cdb now m s.1) as ([] & s1 & Er & (L' & E' & B' & N') & _);
      [|done|done|].
    + split; [done|]. split; [done|]. split; [apply same_rx_refl|done].
    + eexists _, _. split; [unfold device_recv; rewrite Er; reflexivity|]. done.
Qed.
End DeviceClient.

(** ** Example link *)

(** The two ends of an open link: the provisioner's, and a device's that waits for the
    first transaction. *)
Definition adv_example (id : Z) : pb_adv :=
  pb_adv_init <| pa_id := id |> <| pa_cb := true |> <| pa_flags := Z.setbit 0 (adv_bit ADV_LINK_ACTIVE) |>
    <| rx_id := XACT_ID_MAX |> <| tx_id := XACT_ID_MAX |>.

Definition link_example : device_link (G := unit) :=
  let d := device_example (seqZ 1 64) in
  (mkProvState ((ps_link d) <| link_bearer := Some BT_MESH_PROV_ADV |> <| expect := PROV_INVITE |>) (ps_prov d) (ps_device d)
     (adv_example 12345678) (ps_mesh d) (ps_ecc d) 0 [], []).

Lemma link_example_ok : @dev_inv toy_cmac unit pb_adv (fun _ => True) link_example.1.
Proof.
  unfold dev_inv, link_inv, link_base, ecc_inv, no_io. cbn. repeat split; try (done || lia). by left.
Qed.

Lemma adv_example_open : open_link 12345678 (link_adv link_example).
Proof. done. Qed.

(** The device of the example, as the client of its bearer. *)
#[local] Existing Instances toy_ecb toy_ecb_ok toy_cmac toy_cmac_ok link_adv_assign.

Definition env_example : prov_conf_env := prov_env_example true 0.
Definition buffers_example : nat -> bool := fun _ => true.
Definition opened_example : ST (device_link (G := unit)) unit := device_opened env_example buffers_example None 0 0.
Definition closed_example : ST (device_link (G := unit)) unit := device_closed env_example buffers_example None 0 0.
Definition error_example : Z -> ST (device_link (G := unit)) unit := device_error env_example buffers_example None 0 0.
Definition recv_example : bytes -> ST (device_link (G := unit)) unit := device_recv env_example buffers_example None 0 0.
Definition sent_example : send_complete -> ST (device_link (G := unit)) unit := device_sent env_example buffers_example None 0.

#[local] Instance client_example :
  AdvClient link_adv recv_example snd (fun s => dev_inv (fun _ => True) s.1) := device_client env_example eq_refl buffers_example None 0 0.

Lemma pb_adv_delivers_witness :
  exists tx' evs,
    prov_send_adv buffers_example [PROV_INVITE; 5] None (adv_example 12345678) = Some (None, tx') /\
    pa_log tx' = pa_log (adv_example 12345678) ++ evs /\
    let pkts := concat (map sent_data evs) in
    NoDup pkts /\
    forall ps, (forall p, p ∈ ps -> p ∈ pkts) ->
    exists s', recv_all buffers_example link_adv opened_example closed_example error_example recv_example sent_example device_uuid
                 ps link_example = Some (tt, s') /\
      s'.2 = link_example.2 ++ (if decide (Forall (fun p => p ∈ ps) pkts) then [[PROV_INVITE; 5]] else []).
Proof.
  apply (pb_adv_delivers buffers_example buffers_example link_adv opened_example closed_example error_example recv_example
           sent_example device_uuid snd (fun s => dev_inv (fun _ => True) s.1) [PROV_INVITE; 5] None (adv_example 12345678) link_example).
  - repeat constructor; unfold is_u8, PROV_INVITE; lia.
  - cbn; lia.
  - done.
  - done.
  - done.
  - unfold is_u32. cbn. lia.
  - exact link_example_ok.
  - exact adv_example_open.
  - done.
  - split; by vm_compute.
  - done.
Defined.

Lemma continuation_undefined_witness :
  bt_mesh_pb_adv_recv buffers_example link_adv opened_example closed_example error_example recv_example sent_example device_uuid
    (header 12345678 0 (GPC_CONT 3) ++ [1; 2; 3]) link_example = None.
Proof.
  apply (continuation_undefined buffers_example link_adv opened_example closed_example error_example recv_example sent_example
           device_uuid snd (fun s => dev_inv (fun _ => True) s.1) 3 [1; 2; 3] link_example).
  - right. left. lia.
  - exact link_example_ok.
  - unfold is_u32. cbn. lia.
  - exact adv_example_open.
  - done.
  - split; by vm_compute.
Defined.

Lemma corrupted_start_lost_witness :
  exists s1 s2 s3,
    bt_mesh_pb_adv_recv buffers_example link_adv opened_example closed_example error_example recv_example sent_example device_uuid
      (bad_start 12345678 0 2 99 [PROV_INVITE; 5]) link_example = Some (tt, s1) /\
    bt_mesh_pb_adv_recv buffers_example link_adv opened_example closed_example error_example recv_example sent_example device_uuid
      (packet [PROV_INVITE; 5] 12345678 0 0) s1 = Some (tt, s2) /\
    pa_log (link_adv s2) = pa_log (link_adv s1) ++ [AdvSend (sys_put_be32 12345678 ++ [0; GPC_ACK]) AckCompleteCb] /\
    recv_all buffers_example link_adv opened_example closed_example error_example recv_example sent_example device_uuid
      (map (packet [PROV_INVITE; 5] 12345678 0) [0%nat; 0%nat]) s2 = Some (tt, s3) /\ s3.2 = link_example.2.
Proof.
  apply (corrupted_start_lost buffers_example link_adv opened_example closed_example error_example recv_example sent_example
           device_uuid snd (fun s => dev_inv (fun _ => True) s.1) [PROV_INVITE; 5] 2 99 [PROV_INVITE; 5] 0 [0%nat; 0%nat] link_example).
  - cbn; lia.
  - done.
  - lia.
  - cbn; lia.
  - done.
  - done.
  - exact link_example_ok.
  - unfold is_u32. cbn. lia.
  - exact adv_example_open.
  - done.
  - split; by vm_compute.
  - vm_compute. reflexivity.
  - repeat constructor; by vm_compute.
Defined.
